(* ===== verification/_CoqProject ===== *)
-Q . S2P
Prelude.v
Floats.v
Findings.v
FailClass.v
Policy.v
Proc.v
ProcLocks.v
ProcWp.v
WorkUnit.v
Transitions.v
Machine.v
Persist.v
Interfaces.v
Conductor.v
Progress.v
Errors.v
VarPool.v
RespCache.v
Lifecycle.v
TaskQueue.v
Checkpoints.v
Graph.v
GraphDef.v
Names.v
Text.v
ActivityLog.v
SettingsData.v
SettingsMerge.v
SettingsPaths.v
EnvFiles.v
SettingsEffective.v
Migrate.v
SettingsSet.v
Regex.v
Paths.v
PathGuard.v
Permission.v
Executor.v
AgentLoop.v
Anthropic.v
Search.v
Secrets.v
Backup.v
EventLog.v
Documents.v
Sessions.v
Pages.v
Stream.v
Server.v
CodeGraph.v
SubTasks.v
TaskGroups.v
NodeStates.v
Scheduler.v
SchedulerRun.v
SchedulerProgress.v
Pool.v
PoolRun.v
PoolFaults.v
Retry.v
Budget.v
PhaseCtl.v
PhaseSim.v
PhaseJobs.v
PhaseWatch.v
PhaseFinish.v
PhaseGate.v
PhaseStart.v
PhaseSubmit.v
PhaseLocks.v
PhaseInv.v
PhaseCalm.v
PhaseRuns.v
PhaseEnds.v
PhaseSafety.v
PhaseSubmits.v
PhaseStarts.v
PhaseConfig.v
