(* ===== verification/Prelude.v ===== *)
(** * A verification development for kvelmo

    kvelmo drives coding agents through the life of a task: it loads a task,
    plans, implements, reviews and submits it, keeps a git checkpoint per step,
    and runs the agents' jobs on a pool of workers, as single jobs or as graphs
    of dependent jobs.  This library models the Go code that decides what
    happens next and proves what makes it correct, and where it is not, shows
    the run that goes wrong.

    ** Parts and files

    Paths are relative to src/internal unless they say otherwise.

    Foundations:
    - Prelude.v (this file): results of fallible calls, record updates, Go's
      strings, 64-bit integers, durations and nil-able maps, tactics and generic
      lemmas.  Floats.v: float64.
    - Proc.v: the body of a Go function as a resumable program that takes a
      lock, reads and writes the shared state, asks its environment, starts
      goroutines and waits; its execution alone and interleaved with others; a
      lock discipline.  ProcLocks.v: the discipline is sound, invariants of every
      interleaving, and rely-guarantee reasoning about what a body saw before.
      ProcWp.v: weakest preconditions of a body that runs alone, for every
      environment ([wp]) or for given answers ([wp_given]).

    The task and its conductor:
    - WorkUnit.v: states, events and the work unit (conductor/state.go).
    - Transitions.v: the transition table, its guards and the error texts
      (conductor/state_table.go, state_errors.go).
    - Machine.v: the state machine (conductor/state_machine.go).  [Machine]
      is the struct, one function per method.
    - Persist.v: the file of a task and its conversion
      (storage/task.go, conductor/conductor_state_convert.go).
    - Interfaces.v: classes for what the conductor calls and the models do not
      open: [Git], [JobControl], [TaskFiles], with the laws the theorems use.
    - Conductor.v: the conductor's record, its events, and saving and loading
      (conductor/conductor_state.go and helpers), with a simulated environment
      for the witnesses.
    - Lifecycle.v: undo, redo, goto, stop, abort, reset, checkpoint creation,
      abandon and delete (conductor/conductor_lifecycle.go,
      conductor_submit_ops.go).
    - TaskQueue.v: the queue of pending tasks (conductor/queue.go).
      Checkpoints.v: the checkpoint manager (git/checkpoint.go).

    What the phases consult:
    - Findings.v: findings of checkers, their de-duplication and the gate
      (findings/, quality/gate.go).  FailClass.v: classes of failures
      (quality/failclass*.go).  Policy.v: policies, guardrails and risk
      (policy/, riskeval/).  Progress.v, Errors.v
      (conductor/progress_estimator.go, errors.go).  VarPool.v (varpool/).
      RespCache.v (respcache/cache.go).
    - Names.v: slugs, branch names, commit prefixes and the parser of task
      sources (conductor/conductor_job_helpers.go, provider/provider.go).

    The settings:
    - SettingsData.v: the data (src/settings/types.go, types_providers.go).
      SettingsMerge.v: merging, defaults, presets and validation
      (storage_merge.go, defaults.go, presets.go, validate.go).
      SettingsPaths.v: reading and writing a setting by its path, and the KVELMO_
      variables (setters.go, setters_providers.go, storage_merge.go).
    - EnvFiles.v: .env files, the environment of a process, masks (envmap.go,
      dotenv.go).  SettingsEffective.v: [LoadEffective] and the resolver
      (storage.go, cascade.go).  SettingsSet.v: settings.get and settings.set on
      the files (socket/global_settings.go).
    - PhaseConfig.v: the effective settings as the [Config] of the phases, and what
      they make of the theorems about phases.

    Agents that call an API (src/agent):
    - Regex.v: regular expressions in Go's syntax, a matcher by derivatives and its
      correctness.  Paths.v: [filepath.Clean] and what lies under a directory.
    - Permission.v: dangerous commands and paths, and the handlers of permission
      requests (permission/dangerous.go, agent.go).
    - Executor.v: the tools, with [filepath.Match] and the containment of paths
      (apiagent/executor.go).
    - AgentLoop.v: the conversation: turns, events, token budget, tool calls
      (apiagent/base.go, messages.go, provider.go, config.go).
    - Anthropic.v: streams of server-sent events and of lines of JSON
      (apiagent/stream.go), the chunks of a stream and the messages of a request
      (anthropic/anthropic.go).

    Beside the conductor:
    - Secrets.v: the changed lines of a diff (git/diff_hunks.go), the scan for secrets,
      and what of it blocks the gate (security/scanner.go, findings.go,
      conductor/conductor_hold_the_line.go).
    - Search.v: edit distance, and the search over tasks (search/).
    - Backup.v: archives of the state and restoring them (backup/backup.go).
      EventLog.v: the events of a task (eventlog/eventlog.go).
    - Migrate.v: versions of settings files (src/settings/version.go).
    - Text.v: lines of a file and spaces, as Go's scanner and [TrimSpace] see them,
      and decimal numbers.
    - TaskGroups.v: groups of tasks that submit together, their files, and calls
      that interleave (taskgroup/).
    - Documents.v: the store of Markdown documents that specifications and reviews
      share (storage/listing.go, specification.go, review.go).  Sessions.v:
      the sessions of agents, chat histories and the archive of tasks
      (storage/session.go, chat.go, archive.go).
    - CodeGraph.v: the index of symbols and calls (codegraph/graph.go).  SubTasks.v: the
      delegation of a job to a chain of sub-tasks (conductor/conductor_subtask.go).
    - ActivityLog.v: the log of calls, its daily files with their hash chains,
      verification and queries (activitylog/log.go, verify.go, query.go).

    The socket:
    - PathGuard.v: the check of the paths that clients ask for, through the links of a
      file system (socket/validate.go).
    - Server.v: token buckets (ratelimit/bucket.go), the loop of a connection, the
      middlewares around a handler and the client's calls (socket/server.go,
      middleware.go, client.go).
    - Stream.v: the ring of recent events, replay and delivery to a subscriber
      (socket/worktree.go, worktree_stream.go).  Pages.v: filters, offsets and
      limits of lists (filter/filter.go, page/page.go and the handlers that page).

    The phases, in package conductor:
    - PhaseCtl.v: the fields, questions and goroutines of the phases, and the
      primitives every phase uses (conductor.go, conductor_accessors.go,
      conductor_events.go, conductor_state.go and the helpers of the others).
    - PhaseJobs.v: [Plan], [Implement], [Simplify], [Optimize], approvals,
      guardrails and hooks (conductor_plan.go, conductor_implement.go,
      conductor_approve.go, conductor_guardrail.go, conductor_cache.go,
      conductor_progress.go, complexity.go, hooks.go).
    - PhaseWatch.v and PhaseFinish.v: watching a job or a graph, completing the
      phase or not, metrics, iteration, failure policy, routing, auto-advance,
      [Review] (conductor_review.go, conductor_job.go, conductor_job_specs.go,
      conductor_graph.go, conductor_graph_helpers.go, conductor_mcp.go,
      conductor_phase_policy.go, router.go, conductor_specwatch.go).
    - PhaseGate.v: the quality gate and the auto-fix loop
      (conductor_quality.go, conductor_hold_the_line.go, conductor_autofix.go).
    - PhaseStart.v: [Start], with the fetch of the task, its worktree or branch
      and the standard variables, and [ResumeFromCheckpoint]
      (conductor_start.go, conductor_resume.go, provider/registry.go,
      git/worktree.go).
    - PhaseSubmit.v: [Submit], [Finish], and the table of all calls
      and goroutines (conductor_submit.go, conductor_submit_helpers.go,
      conductor_finish.go).
    - PhaseSim.v: a simulated conductor for concrete runs.
    - Theorems: PhaseLocks.v (lock discipline), PhaseInv.v (invariant),
      PhaseCalm.v (what the helpers leave alone), PhaseRuns.v (requests),
      PhaseEnds.v (how a phase ends, retries), PhaseSubmits.v
      (submit, gate, finish), PhaseStarts.v (start, resume), PhaseSafety.v
      (every interleaving).

    Graphs, pool, retries:
    - Graph.v: graphs of nodes, cycle detection, dependent counts, validation
      (graph/graph.go).  GraphDef.v: from a decoded definition to a graph
      (graph/parse.go).  NodeStates.v: the state manager (graph/state.go).
    - Scheduler.v: the lock regions of the graph scheduler (graph/scheduler.go,
      scheduler_handlers.go).  SchedulerRun.v: its goroutines as a step
      relation and the invariants of every run.  SchedulerProgress.v: what a
      pass achieves, the error of a run, and runs that go wrong.
    - Pool.v: the worker pool (worker/pool.go, pool_dispatch.go,
      pool_workers.go) with its goroutines as steps.  PoolRun.v: who works on
      what, in every run.  PoolFaults.v: runs that go wrong, up to what the
      scheduler's [watchNode] makes of them.
    - Retry.v: the circuit breaker and [RetryableOp] (retry/).  Budget.v: the
      token budget under interleaving and the middleware chain
      (worker/middleware_budget.go, middleware.go).

    ** How the parts interact

    The conductor owns one machine and one work unit; a lifecycle operation
    calls git, dispatches an event to the machine, updates the work unit and
    saves it.  A phase request checks approvals and guardrails, dispatches the
    phase's event, hands a job to the pool or a graph to the scheduler, and
    starts the goroutine that follows it to the end, which dispatches the
    completion or the failure.  A graph run validates its graph, keeps one state
    manager, and submits a job per node through the class [JobQueue], which the
    pool implements; the watcher of a node reads the job's stream and record,
    which is where SchedulerRun.v ([watchNode]) and Pool.v (streams, [Job])
    meet.

    ** How the code is modelled

    - A method that holds its lock for its whole body is a function on the
      record of its struct.  Where a body has several lock regions, or spawns
      goroutines, two forms are used.  In the scheduler and the pool each
      goroutine is the list of the instructions it still has to run ([thread],
      [pthread]), one per lock region or call.  The conductor's phases and the
      response cache are values of [proc]: one constructor per use of the lock
      (with the mode of the RWMutex), access to the state, question, spawned
      goroutine, panic or wait.  In both, a step runs one of them: any
      interleaving the locks allow is a run.
    - What the environment decides (what a job returns, what an agent sends,
      when a timer fires, an approval, the output of a checker, the text of a
      prompt, what git commits) is the argument of a choice or the answer to a
      [question]; theorems quantify over all answers.  A stream is answered as
      the list of events it delivers and whether it is closed after them.
    - Objects shared by pointer live in heaps indexed by addresses (Pool.v);
      the metadata map that jobs of one graph run share is modelled as shared
      (Scheduler.v).  The conductor and its machine hold the same work unit,
      which has one location; a task that is being started, which the machine
      does not have yet, is a field of its own ([stray]), which only [Start] looks
      at.
    - JSON, SHA-256 and URLs are classes of functions ([Codec], [TextLibs]) with the
      laws a theorem needs beside it, or a record of decoders (Anthropic.v); so are
      the expressions of failure classes.  YAML decodes what it encoded ([YamlLaws]),
      and the files are loaded through the migrations of Migrate.v; JSON encodes the
      responses that the server makes itself ([JsonLaws]).  The expressions of
      Permission.v are compiled from the source's strings by Regex.v.
    - Text is bytes; [TrimSpace] knows the white space of Unicode, and lower case and
      [strings.Fields] are those of ASCII.
    - The diff that Secrets.v reads is what git prints by default: names with special
      characters in quotes, names with a space ended by a tab.
    - The last event of an agent's conversation is sent with a blocking send, which is
      taken as delivered.
    - The disk of Executor.v maps cleaned paths to contents, without symbolic links;
      faults, directories and the commands run are answers ([OS]).  What a server
      answers, when an interruption is seen and whether the channel of events has
      room are arguments of the conversation; a read error ends a stream as its end
      does.
    - The settings are constant during a run: those of PhaseCtl.v are what
      PhaseConfig.v makes of the effective settings.  A call of the response cache by
      the conductor is one step; RespCache.v shows that its calls may interleave.
      Cancellation of contexts is left out of the phases, and of the data of an
      event only what the code reads again is kept.
    - A range over a Go map is a function of an order; the theorems quantify
      over it.  Clock readings are arguments or answers.  An error is a value
      with its text, or a constructor when the text is not looked at.  [%q] is
      exact for printable text without quotes or backslashes.
    - Machine integers that can overflow are wrapped with [wrap64] (Retry.v,
      Budget.v); counters and indices that cannot reach the width are [nat] or
      [Z].  Floats are IEEE doubles, rounded as the operations round.

    ** Fuel

    Two loops need fuel.  The depth-first search of Graph.v gets [dfs_fuel],
    the number of nodes plus the number of listed dependencies per node plus
    one, since each node is pushed once and looked at once more than it has
    dependencies; the breadth-first search gets [bfs_fuel], twice the number of
    listed dependencies, since each list enters the queue once and the start's
    twice.  That they never run out is part of the theorems:
    [detect_cycles_correct], [validate_iff].  [retry_loop] and the auto-fix loop
    recurse on the attempts that are left, and a conversation on its turns, which
    is the bound of the Go loops themselves.  [exec] recurses on the body.  The
    parser of glob patterns gets their length, and each step consumes a character.

    ** What the theorems show

    - State machine: a dispatch takes exactly the guarded transitions of the
      table and a refusal changes nothing; reachable machines have a history
      without gaps; a task is submitted only from a passed review with a
      provider; pause and resume are inverse; [CanDispatch] predicts
      [Dispatch]; no state is a dead end.
    - Persistence: saving and loading is the identity on the persistent part,
      named field by field, and a loaded conductor is the one that was saved.
    - Lifecycle: the operations implement a timeline of checkpoints with HEAD
      at its position (an abstract specification and a refinement theorem).
    - Phases alone: a request is granted exactly as the table says, with one
      watcher started, or refused with the machine where it was; a phase ends
      completed, rolled back or handed to its failure policy; what a successful
      submit has checked; what finish leaves; a start loads exactly the task of
      its source or leaves the machine empty; a resumption goes to its checkpoint
      and requests the phase once; all for every answer of the environment,
      without deadlock or panic.  The task, the branch and the worktree of a start are
      those that the provider and git answered.
    - Activity log: each file of every log verifies alone, a changed line shows,
      queries answer with what their filters say.  Names: the form of slugs.
    - Settings: a written setting is read back and changes no other; the effective
      value is what its variable, the project, the global file or the default says,
      in that order, for the settings that are merged; what is not merged stays at
      its default, whatever the files say, so that no file can switch on the
      approval by risk that deadlocks, and the phases then always progress.  A saved
      variable of a .env file is read back, a saved token is the one in use and never
      enters YAML, and a process sees no host variable that is not listed.
    - Agents: the verdict on a command is that of the first expression that occurs in
      it; a write is dangerous exactly when its cleaned path is guarded, which every
      absolute path to a system file or a directory of keys is, and what is dangerous
      no handler approves; the file tools change nothing outside the working directory,
      and those that read, write and edit see nothing outside it; an edit is made where
      the old text is found once; a written file is read back.  A conversation ends within its
      turns with one last event, stays within a turn of its token budget, and answers
      every tool call in every request; the message that a server streams is the one
      that is collected.
    - Files and searches: a backup restores the files that were saved, and no archive
      writes outside its target; events are read back by the queries; a migration
      runs its chain in order and once; the ranges read from a diff are those of its
      added lines, and with them the security gate blocks on exactly the new secrets of
      files whose names have no space or special character;
      the edit distance is the least number of edits, and a search gives each match
      once, best first.
    - Documents and sessions: numbers of documents are fresh, what is saved is what is
      listed, the store of sessions implements a map that survives its file, and the
      archive is searched as its filter says.
    - Socket: the requests of a connection are answered one by one, in the order of the
      lines, with an error under their own id or with what their handler returned, and
      only a handler that returns nothing or no JSON ends the connection early; the
      middlewares run in one order and what is refused changes nothing; an accepted
      path lies in an allowed directory and opens nothing that a link leads to; the pages of a list hold each item once; a subscriber
      that reconnects gets every event after the last it saw, in order and once, while
      events are emitted one after the other and the ring still holds them.
    - Code graph and sub-tasks: the index finds the callers of a function only in its
      own file and in files indexed after it, by an edge to that function; the graph of a sub-task is a valid chain
      of its phases.
    - Task groups: the coordinator implements a map of groups, and its files restore
      it; interleaved calls keep the groups well-formed, and a file that of its group,
      though what it says may be of different moments.
    - Phases together: in every interleaving of the interface's calls and their
      goroutines the machine keeps its history, events and cache stay within their
      bounds, and a required phase "review" blocks every submit; the accesses under the
      lock are free of races, and no unlock is fatal, unless risk-based approval is on,
      where [checkApproval] asks for the lock its caller holds.  The reads that the code
      makes without the lock do race ([unlocked_read_races]).
    - Findings: what the de-duplication keeps, what holding the line forgives.
      Response cache: size bound and locks under every interleaving, and what
      [Get] returns.
    - Graphs: validation is exact, ends, and does not depend on map order; its
      derived counts order a node before its dependents.
    - Scheduler: in every interleaving no slot is lost, the limit on running
      nodes holds unless nodes wait for approvals, and no node starts before
      its dependencies are finished; a pass with a free slot makes progress;
      the summary names exactly the unhandled failures.
    - Pool: while nobody cancels and agents stay connected, no job and no worker is
      held by two goroutines, every unfinished job is queued or held while the pool
      runs, and a finished job does not change.
    - Retries, breaker, budget: bounds on attempts, probes and tokens, the last
      one under every interleaving of loads and swaps.
    - What goes wrong, each proved: settings and presets that are forgotten, tokens
      of two providers that are never used, values that inject variables, a mask that
      hides nothing, writes whose paths are never judged, deletions that are not seen
      as dangerous, a fraction in a tool's input that ends the process, a broken stream that counts as
      a complete answer, a backup that cannot be restored, secrets that a long line
      hides, secrets of files with a space in their names, an event that breaks every
      query, saves of a group that undo one another or mix its states, a write through a
      link that leads nowhere yet, a silent handler that closes its connection, retries that the table refuses and that
      strand the task, a required review that can never be satisfied, a gate
      result that outlives its run, two gate runs that close one channel, a
      refused start that leaves a task behind, a log of two days that never
      verifies, a query that skips a recent file, a rejected retry whose gate
      cannot be opened, dependents stranded by a failure or a skip, a dependent
      that starts between two iterations, jobs that overwrite each other's
      metadata, a cancelled job that frees another job's worker or counts as a
      success, a full stream that loses a result, events that overtake one another and
      are dropped, numbers of events that start again with the server, a panic that is
      not logged, a notification taken for an answer, a page number that overflows,
      calls to later files that are never found, files of sessions that are silently
      replaced.

    ** What is not modelled

    Transport, presentation, providers, agents' processes and the git binary:
    the models see them through interfaces or answers.  Of the agents of an API: the
    HTTP requests, the schemas of the tools and the other providers' streams.  Of the
    settings: YAML and the schema of the interface.  Of the conductor: consensus and
    adversarial review, the fixing of CI failures, prompts and the text of pull
    requests, learning, the alignment job, the options of jobs, forks; of a start,
    what provisioning copies and the guardrails written into the worktree.  Of the
    socket: listening, draining, and the handlers beside those of settings and lists.
    Plans and the memory of embeddings, whose content is numbers that a model made.
    The parser of Go files behind the code graph.  The forwarder of the activity log.
    The recording of agents, beyond the path it leaves in the metadata.  The random
    jitter of retries.  Compression and permissions of archives other than those of
    restored files.  Log lines.  The earlier implementation under src/prototype.

    ** Plan

    Next: the pool as an instance of [JobQueue] and [JobControl], with the blocking
    submission; the handlers of the socket over the conductor; then forks; then the
    parsers of the prototype that have a contract of their own. *)

From stdpp Require Export base gmap strings list fin_maps sorting pretty.

(** ** Results of fallible operations *)

(** A Go function that returns [(T, error)] is modelled as a value of
    [result E T]: [Ok] when the error is nil, [Err] with the error otherwise. *)
Inductive result (E A : Type) : Type :=
| Ok (a : A)
| Err (e : E).
Arguments Ok {E A} a.
Arguments Err {E A} e.

Definition is_ok {E A} (r : result E A) : bool :=
  match r with Ok _ => true | Err _ => false end.

Definition result_bind {E A B} (r : result E A) (f : A -> result E B) : result E B :=
  match r with Ok a => f a | Err e => Err e end.

Declare Scope go_scope.
Delimit Scope go_scope with go.
Notation "'let!' x := m 'in' k" := (result_bind m (fun x => k))
  (at level 10, x name, m at level 100, k at level 200) : go_scope.

(** ** Record updates

    [r <| f := v |>] is Go's [r.f = v] on a value, [r <| f ::= g |>] applies
    [g] to the field.  A record opts in with an instance of [Eta] that rebuilds
    it from its fields; the setter of a field is found by the instance search. *)
Class Eta (R : Type) := eta_fields : R -> R.
Class Setter {R E : Type} (proj : R -> E) := update_field : (E -> E) -> R -> R.

Ltac solve_setter R E proj :=
  let inst := constr:(ltac:(exact _) : Eta R) in
  let body := eval hnf in inst in
  exact (fun (f : E -> E) (r : R) =>
    ltac:(let b := eval cbv beta in (body r) in
          let b' := eval pattern (proj r) in b in
          lazymatch b' with
          | ?g _ => let t := eval cbv beta in (g (f (proj r))) in exact t
          end)).
#[export] Hint Extern 1 (@Setter ?R ?E ?proj) => solve_setter R E proj : typeclass_instances.

Definition set_field {R E} (proj : R -> E) {s : Setter proj} (f : E -> E) (r : R) : R := s f r.
Arguments set_field /.

#[warnings="-postfix-notation-not-level-1"]
Notation "x <| proj := v |>" := (set_field proj (fun _ => v) x)
  (at level 12, left associativity, format "x  <| proj  :=  v |>").
#[warnings="-postfix-notation-not-level-1"]
Notation "x <| proj ::= f |>" := (set_field proj f x)
  (at level 12, f at next level, left associativity, format "x  <| proj  ::=  f |>").

(** ** Go idioms *)

(** A [switch] on a string: the first case that equals the scrutinee. *)
Fixpoint go_switch {A} (s : string) (cases : list (string * A)) (dflt : A) : A :=
  match cases with
  | [] => dflt
  | (k, v) :: rest => if decide (s = k) then v else go_switch s rest dflt
  end.

(** [time.Time] is kept as nanoseconds, [time.Duration] likewise. *)
Definition Time := Z.
Definition Duration := Z.

(** The value of a 64-bit two's complement register holding [z]. *)
Definition wrap64 (z : Z) : Z := ((z + 2 ^ 63) `mod` 2 ^ 64 - 2 ^ 63)%Z.
Definition max_int64 : Z := (2 ^ 63 - 1)%Z.

(** [fmtFrac] of package time: the last [prec] decimal digits of [v], without
    trailing zeros and after a point when one is left, and what remains of [v]. *)
Fixpoint fmt_frac (prec : nat) (v : Z) (print : bool) (acc : string) : string * Z :=
  match prec with
  | 0 => ((if print then "." +:+ acc else acc), v)
  | S prec =>
      let digit := (v `mod` 10)%Z in
      let print := print || bool_decide (digit <> 0%Z) in
      fmt_frac prec (v / 10)%Z print (if print then pretty digit +:+ acc else acc)
  end.

Definition microsecond_suffix : string :=
  String (Ascii.ascii_of_nat 194) (String (Ascii.ascii_of_nat 181) "s").

(** [Duration.String]. *)
Definition duration_string (d : Duration) : string :=
  let u := Z.abs d in
  let sign := if (d <? 0)%Z then "-" else "" in
  if (u =? 0)%Z then "0s" else
  if (u <? 1000)%Z then sign +:+ pretty u +:+ "ns" else
  if (u <? 1000000)%Z then
    let '(f, i) := fmt_frac 3 u false "" in sign +:+ pretty i +:+ f +:+ microsecond_suffix else
  if (u <? 1000000000)%Z then
    let '(f, i) := fmt_frac 6 u false "" in sign +:+ pretty i +:+ f +:+ "ms" else
  let '(f, secs) := fmt_frac 9 u false "" in
  let text := pretty (secs `mod` 60)%Z +:+ f +:+ "s" in
  let mins := (secs / 60)%Z in
  if (mins =? 0)%Z then sign +:+ text else
  let text := pretty (mins `mod` 60)%Z +:+ "m" +:+ text in
  let hours := (mins / 60)%Z in
  if (hours =? 0)%Z then sign +:+ text else sign +:+ pretty hours +:+ "h" +:+ text.

Example duration_string_minutes : duration_string 300000000000%Z = "5m0s".
Proof. reflexivity. Qed.
Example duration_string_half : duration_string 1500000000%Z = "1.5s".
Proof. reflexivity. Qed.
Example duration_string_hours : duration_string (-3723004000000)%Z = "-1h2m3.004s".
Proof. reflexivity. Qed.

(** A range over a Go map visits each key once; [order] says in which order, keys
    it does not name come last. *)
Definition range_keys {V} (order : list string) (m : gmap string V) : list string :=
  filter (fun k => is_Some (m !! k)) (remove_dups order) ++
  filter (fun k => k ∉ order) (map_to_list m).*1.

Definition map_range {V} (order : list string) (m : gmap string V) : list (string * V) :=
  omap (fun k => pair k <$> m !! k) (range_keys order m).

Lemma elem_of_range_keys {V} order (m : gmap string V) k : k ∈ range_keys order m <-> is_Some (m !! k).
Proof.
  unfold range_keys. rewrite elem_of_app, !list_elem_of_filter, elem_of_remove_dups.
  rewrite list_elem_of_fmap. split.
  - intros [[? ?]|[_ ([k' v] & -> & Hin)]]; [done|]. apply elem_of_map_to_list in Hin. by exists v.
  - intros [v Hv]. destruct (decide (k ∈ order)); [left; eauto|right].
    split; [done|]. exists (k, v). split; [done|]. by apply elem_of_map_to_list.
Qed.

Lemma elem_of_map_range {V} order (m : gmap string V) k v : (k, v) ∈ map_range order m <-> m !! k = Some v.
Proof.
  unfold map_range. rewrite list_elem_of_omap. split.
  - intros (k' & _ & H). destruct (m !! k') eqn:E; simpl in H; by simplify_eq.
  - intros H. exists k. rewrite elem_of_range_keys, H. by split; [eexists|].
Qed.

(** Go's [%q] for a printable text without quotes or backslashes. *)
Definition quote (s : string) : string :=
  String (Ascii.ascii_of_nat 34) (s +:+ String (Ascii.ascii_of_nat 34) "").

(** [slices.Sort] on strings: Go compares bytes, and so does [String.le]. *)
Definition sort_strings (l : list string) : list string := merge_sort String.le l.

(** [slices.Contains]. *)
Definition slice_contains (l : list string) (x : string) : bool := bool_decide (x ∈ l).

(** [strings.Contains]. *)
Fixpoint contains (sub s : string) : bool :=
  String.prefix sub s || match s with EmptyString => false | String _ s => contains sub s end.

(** [strings.HasPrefix] and [strings.HasSuffix]. *)
Definition has_prefix (s p : string) : bool := String.prefix p s.
Definition has_suffix (s p : string) : bool :=
  (String.length p <=? String.length s) &&
  bool_decide (String.substring (String.length s - String.length p) (String.length p) s = p).

(** [strings.Join]. *)
Fixpoint join_with (sep : string) (l : list string) : string :=
  match l with
  | [] => ""
  | [s] => s
  | s :: l => s +:+ sep +:+ join_with sep l
  end.

(** A line feed. *)
Definition nl : string := String (Ascii.ascii_of_nat 10) "".

(** A nil-able Go map: [None] is the nil map. *)
Definition go_map (V : Type) : Type := option (gmap string V).
Definition go_map_len {V} (m : go_map V) : nat :=
  match m with None => 0 | Some m => size m end.

(** ** Tactics *)

(** Splits every match and conditional in the goal and simplifies equations. *)
Ltac split_cases := repeat (case_match || case_decide); simplify_eq.

(** The same in a hypothesis. *)
Ltac split_cases_in H :=
  repeat (match type of H with
          | context [match ?x with _ => _ end] => destruct x eqn:?
          end; simplify_eq/=).

(** Case analysis on the first [decide] of the goal, leaving the hypotheses alone. *)
Tactic Notation "goal_decide" "as" simple_intropattern(p) :=
  match goal with |- context [@decide ?P ?d] => destruct (@decide P d) as p end.
Tactic Notation "goal_decide" := goal_decide as [?|?].

(** Goals decided by evaluation. *)
Ltac by_eval := vm_compute; reflexivity.

Create HintDb kvelmo.

(** ** Generic lemmas *)

Section wrap.
Local Open Scope Z_scope.

Lemma wrap64_id z : - 2 ^ 63 <= z < 2 ^ 63 -> wrap64 z = z.
Proof. intros. unfold wrap64. rewrite Z.mod_small; lia. Qed.

Lemma wrap64_range z : - 2 ^ 63 <= wrap64 z < 2 ^ 63.
Proof.
  unfold wrap64. pose proof (Z.mod_pos_bound (z + 2 ^ 63) (2 ^ 64) eq_refl). lia.
Qed.
End wrap.
#[export] Hint Resolve wrap64_id wrap64_range : kvelmo.

Lemma sort_strings_perm l : sort_strings l ≡ₚ l.
Proof. apply merge_sort_Permutation. Qed.

Lemma elem_of_sort_strings x l : x ∈ sort_strings l <-> x ∈ l.
Proof. by rewrite sort_strings_perm. Qed.

Lemma fold_left_pointwise {A B} (f h : A -> B -> A) (l : list B) (a : A) :
  (forall x y, f x y = h x y) -> fold_left f l a = fold_left h l a.
Proof. intros H. revert a. induction l as [|y l IH]; intros a; simpl; [done|]. by rewrite H, IH. Qed.

(** A list that is not empty has an element where [f] is greatest. *)
Lemma exists_max {A} (f : A -> nat) (l : list A) (x : A) :
  x ∈ l -> exists m, m ∈ l /\ forall y, y ∈ l -> f y <= f m.
Proof.
  revert x. induction l as [|a l IH]; intros x Hx; [by apply not_elem_of_nil in Hx|].
  destruct l as [|b l].
  { exists a. split; [by left|]. intros y Hy. apply list_elem_of_singleton in Hy. by subst. }
  destruct (IH b) as (m & Hm & Hmax); [by left|].
  destruct (decide (f a <= f m)).
  - exists m. split; [by right|]. intros y [->|Hy]%elem_of_cons; [done|by apply Hmax].
  - exists a. split; [by left|]. intros y [->|Hy]%elem_of_cons; [done|]. specialize (Hmax y Hy). lia.
Qed.

(** *** Strings *)

Lemma string_app_cons c a b : String c a +:+ b = String c (a +:+ b).
Proof. done. Qed.

Lemma string_app_nil s : s +:+ "" = s.
Proof. induction s as [|c s IH]; [done|]. exact (f_equal (String c) IH). Qed.

Lemma string_app_assoc a b c : (a +:+ b) +:+ c = a +:+ (b +:+ c).
Proof. induction a as [|x a IH]; [done|]. exact (f_equal (String x) IH). Qed.

Lemma string_app_length a b : String.length (a +:+ b) = String.length a + String.length b.
Proof. induction a as [|x a IH]; [done|]. exact (f_equal S IH). Qed.

Lemma prefix_cons a b s t :
  String.prefix (String a s) (String b t) = true <-> a = b /\ String.prefix s t = true.
Proof. simpl. destruct (Ascii.ascii_dec a b); naive_solver. Qed.

Lemma prefix_nil s : String.prefix "" s = true.
Proof. by destruct s. Qed.

Lemma prefix_app a b : String.prefix a (a +:+ b) = true.
Proof. induction a as [|c a IH]; [apply prefix_nil|]. by apply prefix_cons. Qed.

Lemma prefix_app_l p a b : String.prefix p a = true -> String.prefix p (a +:+ b) = true.
Proof.
  revert a. induction p as [|x p IH]; intros [|y a]; try done; [intros; apply prefix_nil|].
  intros [-> H]%prefix_cons. apply prefix_cons. by split; [|apply IH].
Qed.
