(* ===== verification/Floats.v ===== *)
(** * float64

    Go's float64 as the Standard Library's [spec_float] at the precision and
    exponent range of IEEE 754 doubles, with the rounding of its operations. *)

From Stdlib Require Export SpecFloat.
From S2P Require Import Prelude.

(** float64(n): the nearest double. *)
Definition float_of_Z (n : Z) : spec_float := binary_normalize 53 1024 n 0 false.
Definition float_zero : spec_float := S754_zero false.
Definition float_add : spec_float -> spec_float -> spec_float := SFadd 53 1024.
Definition float_mul : spec_float -> spec_float -> spec_float := SFmul 53 1024.
Definition float_div : spec_float -> spec_float -> spec_float := SFdiv 53 1024.
Definition float_lt : spec_float -> spec_float -> bool := SFltb.

(** A decimal constant [n / 10^k], rounded as the compiler rounds it. *)
Definition float_dec (n : Z) (k : Z) : spec_float := float_div (float_of_Z n) (float_of_Z (10 ^ k)).

(** [int(f)] for a finite [f]: truncation towards zero. *)
Definition trunc (f : spec_float) : Z :=
  match f with
  | S754_finite s m e =>
      let n := if (0 <=? e)%Z then Z.shiftl (Z.pos m) e else Z.shiftr (Z.pos m) (- e) in
      if s then (- n)%Z else n
  | _ => 0%Z
  end.

(** [min] and [max] against a constant, as the code writes them. *)
Definition cap_above (limit f : spec_float) : spec_float := if float_lt limit f then limit else f.
Definition cap_below (limit f : spec_float) : spec_float := if float_lt f limit then limit else f.

Lemma cap_above_lt limit f : float_lt limit limit = false -> float_lt limit (cap_above limit f) = false.
Proof. unfold cap_above. by destruct (float_lt limit f) eqn:E. Qed.

Lemma cap_below_lt limit f : float_lt limit limit = false -> float_lt (cap_below limit f) limit = false.
Proof. unfold cap_below. by destruct (float_lt f limit) eqn:E. Qed.
