(* ===== verification/Findings.v ===== *)
(** * Findings

    Translates [internal/findings] (finding.go, gate.go, hold_the_line.go,
    dedup.go, profile.go) and the gates of [internal/quality/gate.go]: what a
    checker reports, which of it blocks, and how reports of several reviewers
    are merged. *)

From S2P Require Import Prelude.

(** ** Data *)

(** An [int] in the code; the constants in its order. *)
Definition Severity := Z.
Definition SeverityCritical : Severity := 0%Z.
Definition SeverityHigh : Severity := 1%Z.
Definition SeverityMedium : Severity := 2%Z.
Definition SeverityLow : Severity := 3%Z.
Definition SeverityInfo : Severity := 4%Z.

Definition severity_String (s : Severity) : string :=
  if decide (s = SeverityCritical) then "critical" else
  if decide (s = SeverityHigh) then "high" else
  if decide (s = SeverityMedium) then "medium" else
  if decide (s = SeverityLow) then "low" else
  if decide (s = SeverityInfo) then "info" else "unknown".

Definition OriginIntroduced : string := "introduced".
Definition OriginPreExisting : string := "pre_existing".
Definition OriginUnknown : string := "unknown".
Definition CategoryQuality : string := "quality".
Definition CategoryPolicy : string := "policy".
Definition CategorySecurity : string := "security".

Record Finding := mkFinding {
  f_ID : string;
  f_Severity : Severity;
  f_Category : string;
  f_Rule : string;
  f_File : string;
  f_Line : Z;
  f_Message : string;
  f_Remediation : string;
  f_Evidence : string;
  f_Source : string;
  f_Origin : string;
  f_Classification : string;
  f_DetectedBy : list string;
  f_ReviewerPersona : string
}.

#[export] Instance eta_Finding : Eta Finding := fun f =>
  mkFinding (f_ID f) (f_Severity f) (f_Category f) (f_Rule f) (f_File f) (f_Line f) (f_Message f)
    (f_Remediation f) (f_Evidence f) (f_Source f) (f_Origin f) (f_Classification f)
    (f_DetectedBy f) (f_ReviewerPersona f).

Implicit Types (f : Finding) (fs : list Finding).

(** The literals that set few fields. *)
Definition simple_finding (id : string) (sev : Severity) (cat rule msg src : string) : Finding :=
  mkFinding id sev cat rule "" 0 msg "" "" src "" "" [] "".

Definition CountBySeverity fs : gmap Z Z :=
  fold_left (fun counts f =>
    <[f_Severity f := (default 0 (counts !! f_Severity f) + 1)%Z]> counts) fs ∅.

(** ** Hold the line *)

Record LineRange := mkRange { Start : Z; End_ : Z }.

Definition lineInHunks (line : Z) (hunks : list LineRange) : bool :=
  existsb (fun h => (Start h <=? line)%Z && (line <=? End_ h)%Z) hunks.

Definition origin_by_diff (diffHunks : gmap string (list LineRange)) f : string :=
  if bool_decide (f_File f = "") || bool_decide (f_Line f = 0%Z) then OriginUnknown else
  match diffHunks !! f_File f with
  | None => OriginPreExisting
  | Some hunks => if lineInHunks (f_Line f) hunks then OriginIntroduced else OriginPreExisting
  end.

Definition ClassifyByDiff (diffHunks : gmap string (list LineRange)) fs : list Finding :=
  map (fun f => f <| f_Origin := origin_by_diff diffHunks f |>) fs.

Definition FilterIntroduced fs : list Finding :=
  filter (fun f => f_Origin f = OriginIntroduced \/ f_Origin f = OriginUnknown) fs.

(** ** Gate rules *)

Record Blocker := mkBlocker { bk_Rule : string; bk_Reason : string; bk_Finding : option Finding }.

(** The implementations of [GateRule]. *)
Inductive GateRule :=
| AnySeverity (level : Severity)
| MaxCount (level : Severity) (max : Z)
| MinScore (threshold : Z)
| HoldTheLine (inner : GateRule).

(** The score is a float64 that only takes integer values of small size. *)
Definition score_penalty (s : Severity) : Z :=
  if decide (s = SeverityCritical) then 40 else
  if decide (s = SeverityHigh) then 20 else
  if decide (s = SeverityMedium) then 10 else
  if decide (s = SeverityLow) then 5 else 0.

Definition Score fs : Z :=
  let score := fold_left (fun score f => (score - score_penalty (f_Severity f))%Z) fs 100%Z in
  if (score <? 0)%Z then 0%Z else score.

Fixpoint gate_Evaluate (g : GateRule) fs : list Blocker :=
  match g with
  | AnySeverity level =>
      map (fun f => mkBlocker ("any_" +:+ severity_String level)
             (severity_String level +:+ " finding: " +:+ f_Message f) (Some f))
        (filter (fun f => f_Severity f = level) fs)
  | MaxCount level max =>
      let matched := filter (fun f => f_Severity f = level) fs in
      if (Z.of_nat (length matched) <=? max)%Z then [] else
      [mkBlocker ("max_" +:+ severity_String level +:+ "_count")
         (pretty (Z.of_nat (length matched)) +:+ " " +:+ severity_String level +:+
          " findings exceed limit of " +:+ pretty max) None]
  | MinScore threshold =>
      if (threshold <=? Score fs)%Z then [] else
      [mkBlocker "min_score" ("score " +:+ pretty (Score fs) +:+ ".0 below threshold " +:+
                              pretty threshold +:+ ".0") None]
  | HoldTheLine inner => gate_Evaluate inner (FilterIntroduced fs)
  end.

Definition EvaluateRules (gates : list GateRule) fs : list Blocker :=
  fold_left (fun blockers g => blockers ++ gate_Evaluate g fs) gates [].

(** *** Profiles *)

Definition Quick : list GateRule := [AnySeverity SeverityCritical].
Definition Standard : list GateRule := [AnySeverity SeverityCritical; AnySeverity SeverityHigh].
Definition Strict : list GateRule :=
  [AnySeverity SeverityCritical; AnySeverity SeverityHigh; MaxCount SeverityMedium 3].

Definition HasBlockers (p : list GateRule) fs : bool := 0 <? length (EvaluateRules p fs).

(** ** Merging the reports of several reviewers *)

(** [strings.ToLower] on ASCII. *)
Definition lower_ascii (c : Ascii.ascii) : Ascii.ascii :=
  let n := Ascii.nat_of_ascii c in
  if (65 <=? n) && (n <=? 90) then Ascii.ascii_of_nat (n + 32) else c.

Fixpoint to_lower (s : string) : string :=
  match s with "" => "" | String c s => String (lower_ascii c) (to_lower s) end.

Definition dedupKey f : string := f_File f +:+ ":" +:+ to_lower (f_Rule f).

Definition lineTolerance : Z := 3%Z.

(** A merged finding with the set of agents that reported it; [byKey] maps a
    key to its merged findings, [order] the keys by first appearance. *)
Record Groups := mkGroups {
  byKey : gmap string (list (Finding * gset string));
  order : list string
}.

(** The first entry within the tolerance gets the agent. *)
Fixpoint merge_into (agent : string) (line : Z) (ms : list (Finding * gset string))
  : option (list (Finding * gset string)) :=
  match ms with
  | [] => None
  | (m, by_) :: ms =>
      if (Z.abs (f_Line m - line) <=? lineTolerance)%Z then Some ((m, {[agent]} ∪ by_) :: ms)
      else cons (m, by_) <$> merge_into agent line ms
  end.

Definition add_finding (agent : string) (g : Groups) f : Groups :=
  let key := dedupKey f in
  let ms := default [] (byKey g !! key) in
  match merge_into agent (f_Line f) ms with
  | Some ms => mkGroups (<[key := ms]> (byKey g)) (order g)
  | None =>
      mkGroups (<[key := ms ++ [(f <| f_DetectedBy := [] |>, {[agent]})]]> (byKey g))
        (match ms with [] => order g ++ [key] | _ => order g end)
  end.

Definition group_findings (groups : gmap string (list Finding)) : Groups :=
  fold_left (fun g agent => fold_left (add_finding agent) (default [] (groups !! agent)) g)
    (sort_strings (elements (dom groups))) (mkGroups ∅ []).

Definition merged_finding (m : Finding * gset string) : Finding :=
  m.1 <| f_DetectedBy := sort_strings (elements m.2) |>.

Definition DeduplicateFindings (groups : gmap string (list Finding)) : list Finding :=
  let g := group_findings groups in
  flat_map (fun key => map merged_finding (default [] (byKey g !! key))) (order g).

Definition FilterByMinAgreement fs (minAgents : Z) : list Finding :=
  if (minAgents <=? 1)%Z then fs
  else filter (fun f => (minAgents <= Z.of_nat (length (f_DetectedBy f)))%Z) fs.

(** ** Quality gates: [internal/quality/gate.go] *)

Definition containsFinding (blockers : list Finding) f : bool :=
  existsb (fun e =>
    bool_decide (f_ID e <> "") && bool_decide (f_ID e = f_ID f) ||
    bool_decide (f_ID e = "") && bool_decide (f_ID f = "") &&
    bool_decide (f_Rule e = f_Rule f) && bool_decide (f_Message e = f_Message f)) blockers.

Inductive Gate :=
| NoErrorsGate
| NoSecurityIssuesGate
| MaxWarningsGate (max : Z)
| CompositeGate (gates : list Gate).

Definition add_new (blockers new : list Finding) : list Finding :=
  fold_left (fun bs b => if containsFinding bs b then bs else bs ++ [b]) new blockers.

Fixpoint quality_Evaluate (g : Gate) fs : list Finding :=
  match g with
  | NoErrorsGate => filter (fun f => f_Severity f = SeverityCritical \/ f_Severity f = SeverityHigh) fs
  | NoSecurityIssuesGate => filter (fun f => f_Category f = CategorySecurity) fs
  | MaxWarningsGate max =>
      let warnings := filter (fun f => f_Severity f = SeverityMedium) fs in
      if (Z.of_nat (length warnings) <=? max)%Z then [] else warnings
  | CompositeGate gates => fold_left (fun bs g => add_new bs (quality_Evaluate g fs)) gates []
  end.

Record GateResult := mkGateResult {
  gr_Passed : bool;
  gr_Blockers : list Finding;
  gr_Total : nat
}.

(** Each checker's answer, in order; the first that fails ends the run. *)
Fixpoint collect (checkers : list (string * result string (list Finding)))
  : result string (list Finding) :=
  match checkers with
  | [] => Ok []
  | (name, Err e) :: _ => Err ("checker " +:+ name +:+ ": " +:+ e)
  | (_, Ok found) :: rest => match collect rest with Err e => Err e | Ok fs => Ok (found ++ fs) end
  end.

Definition RunGates (checkers : list (string * result string (list Finding))) (gates : list Gate)
  : result string GateResult :=
  match collect checkers with
  | Err e => Err e
  | Ok fs =>
      let blockers := fold_left (fun bs g => add_new bs (quality_Evaluate g fs)) gates [] in
      Ok (mkGateResult (bool_decide (blockers = [])) blockers (length fs))
  end.

(** ** Lemmas *)

Definition near (l1 l2 : Z) : Prop := (Z.abs (l1 - l2) <= lineTolerance)%Z.

(** Two findings that would have been merged into one are the ones to exclude. *)
Definition apart (f g : Finding) : Prop := dedupKey f = dedupKey g -> ~ near (f_Line f) (f_Line g).

Lemma merge_into_spec agent line ms :
  match merge_into agent line ms with
  | Some ms' => exists l1 m by_ l2, ms = l1 ++ (m, by_) :: l2 /\
                  ms' = l1 ++ (m, {[agent]} ∪ by_) :: l2 /\ near (f_Line m) line
  | None => forall m by_, (m, by_) ∈ ms -> ~ near (f_Line m) line
  end.
Proof.
  induction ms as [|[m by_] ms IH]; simpl; [by intros ?? ?%not_elem_of_nil|].
  destruct (Z.leb_spec (Z.abs (f_Line m - line)) lineTolerance).
  - by exists [], m, by_, ms.
  - destruct (merge_into agent line ms) as [ms'|]; simpl.
    + destruct IH as (l1 & m' & by' & l2 & -> & -> & Hn). by exists ((m, by_) :: l1), m', by', l2.
    + intros m' by' [E|Hin]%elem_of_cons; [|by eapply IH]. simplify_eq. unfold near. lia.
Qed.

Lemma pairs_app {A} (R : A -> A -> Prop) l1 l2 :
  ForallOrdPairs R (l1 ++ l2) <->
  ForallOrdPairs R l1 /\ ForallOrdPairs R l2 /\ forall x y, x ∈ l1 -> y ∈ l2 -> R x y.
Proof.
  induction l1 as [|x l1 IH]; simpl.
  - split; [intros H; split_and!; [constructor|done|by intros ?? ?%not_elem_of_nil]|tauto].
  - split.
    + intros H. inversion H as [|? ? Hx Hr]; subst. apply Forall_app in Hx as [Hx1 Hx2].
      apply IH in Hr as (H1 & H2 & H3). split_and!; [by constructor|done|].
      intros y z [->|Hy]%elem_of_cons Hz; [by eapply Forall_forall in Hz|by apply H3].
    + intros (H1 & H2 & H3). inversion H1 as [|? ? Hx Hr]; subst. constructor.
      * apply Forall_app. split; [done|]. apply Forall_forall. intros y Hy. apply H3; [by left|done].
      * apply IH. split_and!; [done|done|]. intros y z Hy Hz. apply H3; [by right|done].
Qed.

Definition entries_of (g : Groups) (key : string) : list (Finding * gset string) :=
  default [] (byKey g !! key).

(** What the groups hold after the reports in [done]. *)
Record groups_inv (done : list (string * Finding)) (g : Groups) : Prop := {
  gi_order : NoDup (order g);
  gi_dom k : k ∈ order g <-> entries_of g k <> [];
  gi_key k m by_ : (m, by_) ∈ entries_of g k -> dedupKey m = k;
  gi_apart k : ForallOrdPairs apart (entries_of g k).*1;
  gi_cover a f : (a, f) ∈ done ->
    exists m by_, (m, by_) ∈ entries_of g (dedupKey f) /\ near (f_Line m) (f_Line f) /\ a ∈ by_;
  gi_sound k m by_ : (m, by_) ∈ entries_of g k ->
    (exists a f, (a, f) ∈ done /\ m = f <| f_DetectedBy := [] |>) /\
    forall a, a ∈ by_ -> exists f, (a, f) ∈ done /\ dedupKey f = k /\ near (f_Line m) (f_Line f)
}.

Lemma entries_of_insert g k ms o k' :
  entries_of (mkGroups (<[k := ms]> (byKey g)) o) k' = if decide (k' = k) then ms else entries_of g k'.
Proof.
  unfold entries_of. simpl. destruct (decide (k' = k)) as [->|]; [by rewrite lookup_insert_eq|].
  by rewrite lookup_insert_ne.
Qed.

Lemma dedupKey_detected f l : dedupKey (f <| f_DetectedBy := l |>) = dedupKey f.
Proof. done. Qed.

Lemma in_done {A} (x : A) l y : x ∈ l -> x ∈ l ++ [y].
Proof. intros. apply elem_of_app. by left. Qed.
Lemma in_last {A} (x : A) l : x ∈ l ++ [x].
Proof. apply elem_of_app. right. by left. Qed.

(** A finding near an entry only adds the agent to it. *)
Lemma add_merged done g agent f l1 m by_ l2 :
  groups_inv done g -> entries_of g (dedupKey f) = l1 ++ (m, by_) :: l2 -> near (f_Line m) (f_Line f) ->
  groups_inv (done ++ [(agent, f)])
    (mkGroups (<[dedupKey f := l1 ++ (m, {[agent]} ∪ by_) :: l2]> (byKey g)) (order g)).
Proof.
  intros [Ho Hd Hk Ha Hc Hs] Hms Hn.
  set (new := l1 ++ (m, {[agent]} ∪ by_) :: l2).
  assert (Hold : forall m' by', (m', by') ∈ new -> exists by0,
    (m', by0) ∈ entries_of g (dedupKey f) /\ forall a, a ∈ by' -> a ∈ by0 \/ a = agent /\ m' = m).
  { intros m' by' Hin. rewrite Hms. apply elem_of_app in Hin as [H|[[= -> ->]|H]%elem_of_cons];
      [exists by'|exists by_|exists by']; (split; [set_solver|]); intros a Ha';
      [by left| |by left]. apply elem_of_union in Ha' as [->%elem_of_singleton|]; auto. }
  assert (Hnew : forall m' by', (m', by') ∈ entries_of g (dedupKey f) -> exists by1,
    (m', by1) ∈ new /\ by' ⊆ by1).
  { intros m' by' Hin. rewrite Hms in Hin. unfold new.
    apply elem_of_app in Hin as [H|[[= -> ->]|H]%elem_of_cons];
      [exists by'|exists ({[agent]} ∪ by_)|exists by']; set_solver. }
  split.
  - done.
  - intros k. rewrite entries_of_insert. simpl. rewrite (Hd k). case_decide as E; [subst|done].
    rewrite Hms. unfold new. split; intros _; by destruct l1.
  - intros k m' by'. rewrite entries_of_insert. case_decide as E; [subst|by apply Hk].
    intros (by0 & H0 & _)%Hold. by eapply Hk.
  - intros k. rewrite entries_of_insert. case_decide as E; [subst|done].
    specialize (Ha (dedupKey f)). rewrite Hms, fmap_app in Ha. unfold new. by rewrite fmap_app.
  - intros a f' [Hin|Hin%list_elem_of_singleton]%elem_of_app.
    + destruct (Hc a f' Hin) as (m' & by' & H & Hn' & Hb). rewrite entries_of_insert.
      case_decide as E; [|by eauto]. rewrite E in H. destruct (Hnew _ _ H) as (by1 & H1 & Hsub).
      exists m', by1. split_and!; [done|done|by apply Hsub].
    + simplify_eq. exists m, ({[agent]} ∪ by_). rewrite entries_of_insert, decide_True by done.
      unfold new. split_and!; [apply elem_of_app; right; by left|done|set_solver +].
  - intros k m' by'. rewrite entries_of_insert. case_decide as E; [subst|].
    + intros Hin. destruct (Hold _ _ Hin) as (by0 & H0 & Hby).
      destruct (Hs _ _ _ H0) as [(a & f' & Hf & ->) Hag].
      split; [exists a, f'; by split; [apply in_done|]|]. intros a' Ha'.
      destruct (Hby a' Ha') as [H1|[-> E]].
      * destruct (Hag a' H1) as (f'' & ? & ?). exists f''. by split; [apply in_done|].
      * exists f. rewrite E. by split; [apply in_last|].
    + intros Hin. destruct (Hs _ _ _ Hin) as [(a & f' & Hf & ->) Hag].
      split; [exists a, f'; by split; [apply in_done|]|]. intros a' Ha'.
      destruct (Hag a' Ha') as (f'' & ? & ?). exists f''. by split; [apply in_done|].
Qed.

(** A finding near none starts an entry of its own. *)
Lemma add_fresh done g agent f :
  groups_inv done g ->
  (forall m by_, (m, by_) ∈ entries_of g (dedupKey f) -> ~ near (f_Line m) (f_Line f)) ->
  groups_inv (done ++ [(agent, f)])
    (mkGroups (<[dedupKey f := entries_of g (dedupKey f) ++ [(f <| f_DetectedBy := [] |>, {[agent]})]]>
                 (byKey g))
       (match entries_of g (dedupKey f) with [] => order g ++ [dedupKey f] | _ => order g end)).
Proof.
  intros [Ho Hd Hk Ha Hc Hs] Hfar. split; simpl.
  - destruct (entries_of g (dedupKey f)) eqn:E; [|done]. apply NoDup_app.
    split_and!; [done| |apply NoDup_singleton]. intros k Hk' ->%list_elem_of_singleton.
    by apply Hd in Hk'.
  - intros k. rewrite entries_of_insert. case_decide as E; [subst|].
    + destruct (entries_of g (dedupKey f)) eqn:E; [split; [done|]; intros _; apply in_last|].
      split; [by destruct l|]. intros _. apply Hd. by rewrite E.
    + rewrite <- (Hd k). destruct (entries_of g (dedupKey f)); [|done].
      rewrite elem_of_app, list_elem_of_singleton. tauto.
  - intros k m by_. rewrite entries_of_insert. case_decide as E; [subst|by apply Hk].
    intros [H|[= -> ->]%list_elem_of_singleton]%elem_of_app; [by eapply Hk|done].
  - intros k. rewrite entries_of_insert. case_decide as E; [subst|done].
    rewrite fmap_app. apply pairs_app. split_and!; [done|repeat constructor|].
    intros x y Hx ->%list_elem_of_singleton. apply list_elem_of_fmap in Hx as ([m by_] & -> & Hin).
    intros _. by apply (Hfar m by_).
  - intros a f' [Hin|Hin%list_elem_of_singleton]%elem_of_app.
    + destruct (Hc a f' Hin) as (m' & by' & H & Hn' & Hb). exists m', by'.
      rewrite entries_of_insert. case_decide as E; [|done].
      split_and!; [apply elem_of_app; left; by rewrite <- E|done|done].
    + simplify_eq. exists (f <| f_DetectedBy := [] |>), {[agent]}.
      rewrite entries_of_insert, decide_True by done. unfold near; simpl.
      rewrite Z.sub_diag. split_and!; [apply in_last|done|by apply elem_of_singleton].
  - intros k m' by'. rewrite entries_of_insert. case_decide as E; [subst|].
    + intros [Hin|[= -> ->]%list_elem_of_singleton]%elem_of_app.
      * destruct (Hs _ _ _ Hin) as [(a & f' & Hf & ->) Hag].
        split; [exists a, f'; by split; [apply in_done|]|]. intros a' Ha'.
        destruct (Hag a' Ha') as (f'' & ? & ?). exists f''. by split; [apply in_done|].
      * split; [exists agent, f; by split; [apply in_last|]|].
        intros a ->%elem_of_singleton. exists f.
        unfold near; simpl. rewrite Z.sub_diag. by split; [apply in_last|].
    + intros Hin. destruct (Hs _ _ _ Hin) as [(a & f' & Hf & ->) Hag].
      split; [exists a, f'; by split; [apply in_done|]|]. intros a' Ha'.
      destruct (Hag a' Ha') as (f'' & ? & ?). exists f''. by split; [apply in_done|].
Qed.

Lemma add_finding_inv done g agent f :
  groups_inv done g -> groups_inv (done ++ [(agent, f)]) (add_finding agent g f).
Proof.
  intros Hg. unfold add_finding. fold (entries_of g (dedupKey f)).
  pose proof (merge_into_spec agent (f_Line f) (entries_of g (dedupKey f))) as Hm.
  destruct (merge_into _ _ _) as [ms'|].
  - destruct Hm as (l1 & m & by_ & l2 & Hms & -> & Hn). by apply add_merged with (by_ := by_).
  - by apply add_fresh.
Qed.

(** The reports in the order they are processed. *)
Definition all_reports (groups : gmap string (list Finding)) : list (string * Finding) :=
  flat_map (fun agent => map (pair agent) (default [] (groups !! agent)))
    (sort_strings (elements (dom groups))).

Lemma no_groups_inv : groups_inv [] (mkGroups ∅ []).
Proof.
  assert (He : forall k, entries_of (mkGroups ∅ []) k = []).
  { intros k. unfold entries_of. simpl. by rewrite lookup_empty. }
  split; intros; rewrite ?He in *; try (by exfalso; eapply not_elem_of_nil); try constructor.
  - by intros ?%not_elem_of_nil.
  - done.
Qed.

Lemma add_findings_inv agent fs done g :
  groups_inv done g -> groups_inv (done ++ map (pair agent) fs) (fold_left (add_finding agent) fs g).
Proof.
  revert done g. induction fs as [|f fs IH]; intros done g Hg; simpl; [by rewrite app_nil_r|].
  apply add_finding_inv with (agent := agent) (f := f), IH in Hg. by rewrite <- app_assoc in Hg.
Qed.

Lemma group_findings_inv groups : groups_inv (all_reports groups) (group_findings groups).
Proof.
  unfold all_reports, group_findings. generalize (sort_strings (elements (dom groups))) as agents.
  assert (H : forall agents done g, groups_inv done g -> groups_inv
    (done ++ flat_map (fun agent => map (pair agent) (default [] (groups !! agent))) agents)
    (fold_left (fun g agent => fold_left (add_finding agent) (default [] (groups !! agent)) g) agents g)).
  { induction agents as [|agent agents IH]; intros done g Hg; simpl; [by rewrite app_nil_r|].
    rewrite app_assoc. by apply IH, add_findings_inv. }
  intros agents. apply (H agents [] _ no_groups_inv).
Qed.

Lemma elem_of_all_reports groups a f :
  (a, f) ∈ all_reports groups <-> f ∈ default [] (groups !! a).
Proof.
  unfold all_reports. rewrite list_elem_of_In, in_flat_map. split.
  - intros (agent & _ & Hin). apply in_map_iff in Hin as (f' & [= -> ->] & Hf). by apply list_elem_of_In.
  - intros Hf. exists a. split; [|by apply in_map, list_elem_of_In].
    apply list_elem_of_In, elem_of_sort_strings, elem_of_elements, elem_of_dom.
    destruct (groups !! a); [done|by apply not_elem_of_nil in Hf].
Qed.

Lemma elem_of_dedup groups g :
  g ∈ DeduplicateFindings groups <->
  exists k m by_, (m, by_) ∈ entries_of (group_findings groups) k /\ g = merged_finding (m, by_).
Proof.
  unfold DeduplicateFindings. rewrite list_elem_of_In, in_flat_map. split.
  - intros (k & _ & Hin). apply in_map_iff in Hin as ([m by_] & <- & Hin).
    apply list_elem_of_In in Hin. by exists k, m, by_.
  - intros (k & m & by_ & Hin & ->). exists k. split.
    + apply list_elem_of_In, (gi_dom _ _ (group_findings_inv groups)).
      intros E. rewrite E in Hin. by apply not_elem_of_nil in Hin.
    + apply in_map_iff. exists (m, by_). split; [done|]. by apply list_elem_of_In.
Qed.

Lemma merged_apart ms :
  ForallOrdPairs apart ms.*1 -> ForallOrdPairs apart (map merged_finding ms).
Proof.
  induction ms as [|[m by_] ms IH]; simpl; intros Ha; [constructor|].
  inversion Ha as [|? ? Hx Hr]; subst. constructor; [|by apply IH].
  apply Forall_forall. intros g Hg. apply list_elem_of_In, in_map_iff in Hg as ([m' by'] & <- & Hin).
  apply list_elem_of_In in Hin. rewrite Forall_forall in Hx. apply (Hx m').
  change m' with (m', by').1. by apply list_elem_of_fmap_2.
Qed.

Lemma dedup_apart groups : ForallOrdPairs apart (DeduplicateFindings groups).
Proof.
  pose proof (group_findings_inv groups) as [Ho _ Hk Ha _ _]. unfold DeduplicateFindings.
  revert Ho. generalize (order (group_findings groups)) as keys.
  induction keys as [|k keys IH]; intros Hnd; simpl; [constructor|].
  apply NoDup_cons in Hnd as [Hnin Hnd]. apply pairs_app.
  split_and!; [apply merged_apart, (Ha k)|by apply IH|].
  intros x y Hx Hy Hkey. exfalso. apply Hnin.
  apply list_elem_of_In, in_map_iff in Hx as ([m by_] & <- & Hx).
  apply list_elem_of_In, in_flat_map in Hy as (k' & Hk' & Hy).
  apply in_map_iff in Hy as ([m' by'] & <- & Hy). apply list_elem_of_In in Hx, Hy, Hk'.
  apply Hk in Hx as Hk1. apply Hk in Hy as Hk2. unfold merged_finding in Hkey.
  rewrite !dedupKey_detected in Hkey. simpl in Hkey. by rewrite <- Hk1, Hkey, Hk2.
Qed.

(** ** Properties *)

(** merging the reports of several reviewers keeps one finding per place and
    rule.  Two findings of the result with the same file and rule are more than
    three lines apart; every report has a finding of the result within three
    lines that names its agent; and a finding of the result is one of the
    reports, and names only agents that reported its rule within three lines of
    it. *)
Theorem dedup_spec groups :
  ForallOrdPairs apart (DeduplicateFindings groups) /\
  (forall agent f, f ∈ default [] (groups !! agent) ->
     exists g, g ∈ DeduplicateFindings groups /\ dedupKey g = dedupKey f /\
       near (f_Line g) (f_Line f) /\ agent ∈ f_DetectedBy g) /\
  (forall g, g ∈ DeduplicateFindings groups ->
     (exists agent f, f ∈ default [] (groups !! agent) /\ g = f <| f_DetectedBy := f_DetectedBy g |>) /\
     forall agent, agent ∈ f_DetectedBy g ->
       exists f, f ∈ default [] (groups !! agent) /\ dedupKey f = dedupKey g /\
         near (f_Line g) (f_Line f)).
Proof.
  split; [apply dedup_apart|]. pose proof (group_findings_inv groups) as [_ _ Hk _ Hc Hs]. split.
  - intros agent f Hf. apply elem_of_all_reports in Hf.
    destruct (Hc agent f Hf) as (m & by_ & Hm & Hn & Ha).
    exists (merged_finding (m, by_)). split_and!; [apply elem_of_dedup; eauto| |done|].
    + unfold merged_finding. rewrite dedupKey_detected. exact (Hk _ _ _ Hm).
    + apply elem_of_sort_strings. by apply elem_of_elements.
  - intros g (k & m & by_ & Hm & ->)%elem_of_dedup.
    destruct (Hs _ _ _ Hm) as [(a & f & Hf & E) Hag]. split.
    + exists a, f. split; [by apply elem_of_all_reports|]. unfold merged_finding; simpl. by rewrite E.
    + intros a' Ha'. simpl in Ha'. apply elem_of_sort_strings, elem_of_elements in Ha'.
      destruct (Hag a' Ha') as (f' & Hf' & Hkey & Hn). exists f'.
      split_and!; [by apply elem_of_all_reports| |done].
      unfold merged_finding. rewrite dedupKey_detected. simpl. by rewrite (Hk _ _ _ Hm).
Qed.

(** hold the line.  A finding stops the gate exactly when it cannot be shown
    to predate the change: it names no file or no line, or its line lies in a
    hunk of the diff.  Nothing but the origin is changed, and the order is
    kept. *)
Theorem hold_the_line_spec hunks fs :
  FilterIntroduced (ClassifyByDiff hunks fs) =
  map (fun f => f <| f_Origin := origin_by_diff hunks f |>)
    (filter (fun f => f_File f = "" \/ f_Line f = 0%Z \/
       Exists (fun h => Start h <= f_Line f <= End_ h)%Z (default [] (hunks !! f_File f))) fs).
Proof.
  unfold FilterIntroduced, ClassifyByDiff. induction fs as [|f fs IH]; simpl; [done|].
  rewrite !filter_cons. simpl.
  destruct (decide (origin_by_diff hunks f = OriginIntroduced \/ _)) as [Hd|Hd];
    destruct (decide (f_File f = "" \/ _)) as [He|He]; simpl;
    [by f_equal|exfalso|exfalso|done]; clear IH;
    unfold origin_by_diff in Hd;
    destruct (bool_decide_reflect (f_File f = "")); try tauto;
    destruct (bool_decide_reflect (f_Line f = 0%Z)); try tauto; simpl in Hd.
  - apply He. do 2 right. destruct (hunks !! f_File f) as [hs|]; [|naive_solver].
    destruct (lineInHunks (f_Line f) hs) eqn:E; [|naive_solver]. simpl.
    apply existsb_exists in E as (h & Hin & E). apply Exists_exists. exists h.
    split; [by apply list_elem_of_In|]. lia.
  - apply Hd. left. destruct He as [?|[?|He]]; [done|done|].
    destruct (hunks !! f_File f) as [hs|]; simpl in He; [|by inversion He].
    apply Exists_exists in He as (h & Hin & E).
    assert (lineInHunks (f_Line f) hs = true) as ->; [|done].
    apply existsb_exists. exists h. split; [by apply list_elem_of_In|]. lia.
Qed.
