(* ===== verification/FailClass.v ===== *)
(** * Failure classification

    Translates [internal/quality/failclass.go], failclass_history.go and
    failclass_patterns.go.  The regular expressions are case-insensitive
    substrings and two short sequences; case folding is ASCII. *)

From S2P Require Import Prelude Floats Findings.

Definition ClassificationFlaky : string := "flaky".
Definition ClassificationGenuine : string := "genuine".
Definition ClassificationIntermittent : string := "intermittent".

(** ** Patterns *)

(** [a.*b] and [a\s*b] on a lower-cased text. *)
Fixpoint strip_prefix (p s : string) : option string :=
  match p, s with
  | "", _ => Some s
  | String c p, String d s => if decide (c = d) then strip_prefix p s else None
  | _, _ => None
  end.

(** A run of characters that satisfy [skip], then [b]. *)
Fixpoint after_run (skip : Ascii.ascii -> bool) (b s : string) : bool :=
  String.prefix b s || match s with "" => false | String c s => skip c && after_run skip b s end.

Fixpoint sequence (skip : Ascii.ascii -> bool) (a b s : string) : bool :=
  match strip_prefix a s with Some rest => after_run skip b rest | None => false end ||
  match s with "" => false | String _ s => sequence skip a b s end.

Definition not_newline (c : Ascii.ascii) : bool := negb (bool_decide (Ascii.nat_of_ascii c = 10)).
Definition is_space (c : Ascii.ascii) : bool :=
  let n := Ascii.nat_of_ascii c in
  (n =? 9) || (n =? 10) || (n =? 12) || (n =? 13) || (n =? 32).

Inductive FailPattern :=
| PatContains (sub : string)
| PatEither (a b : string)
| PatFileLock
| PatSignalKilled.

Definition pattern_matches (p : FailPattern) (message : string) : bool :=
  let m := to_lower message in
  match p with
  | PatContains sub => contains sub m
  | PatEither a b => contains a m || contains b m
  | PatFileLock => sequence not_newline "file" "locked" m || sequence not_newline "lock" "file" m
  | PatSignalKilled => sequence is_space "signal:" "killed" m
  end.

Definition defaultFailPatterns : list (FailPattern * string) :=
  [(PatContains "timeout", ClassificationFlaky);
   (PatContains "deadline exceeded", ClassificationFlaky);
   (PatEither "eaddrinuse" "address already in use", ClassificationFlaky);
   (PatEither "econnrefused" "connection refused", ClassificationFlaky);
   (PatContains "connection reset", ClassificationFlaky);
   (PatEither "race detected" "data race", ClassificationFlaky);
   (PatFileLock, ClassificationFlaky);
   (PatContains "port already in use", ClassificationFlaky);
   (PatContains "temporary failure in name resolution", ClassificationFlaky);
   (PatContains "tls handshake timeout", ClassificationFlaky);
   (PatContains "context canceled", ClassificationIntermittent);
   (PatSignalKilled, ClassificationIntermittent)].

(** ** History *)

Record FailHistory := mkFailHistory { fh_records : gmap string (list bool); fh_window : Z }.

Definition NewFailHistory (window : Z) : FailHistory :=
  mkFailHistory ∅ (if (window <? 1)%Z then 10%Z else window).

Definition Record_ (rule : string) (passed : bool) (h : FailHistory) : FailHistory :=
  let outcomes := default [] (fh_records h !! rule) ++ [passed] in
  let outcomes := if (fh_window h <? Z.of_nat (length outcomes))%Z
                  then drop (length outcomes - Z.to_nat (fh_window h)) outcomes else outcomes in
  mkFailHistory (<[rule := outcomes]> (fh_records h)) (fh_window h).

Definition failures (outcomes : list bool) : nat := length (filter (fun b => b = false) outcomes).

Definition IsFlaky (rule : string) (h : FailHistory) : bool :=
  match fh_records h !! rule with
  | None | Some [] => false
  | Some outcomes =>
      float_lt (float_dec 6 1) (float_div (float_of_Z (Z.of_nat (failures outcomes)))
                                          (float_of_Z (Z.of_nat (length outcomes))))
  end.

(** ** The classifier *)

Definition classify (history : option FailHistory) (f : Finding) : string :=
  let flaky := match history with
               | Some h => bool_decide (f_Rule f <> "") && IsFlaky (f_Rule f) h
               | None => false
               end in
  if flaky then ClassificationFlaky else
  match List.find (fun p : FailPattern * string => pattern_matches p.1 (f_Message f)) defaultFailPatterns with
  | Some p => p.2
  | None => ClassificationGenuine
  end.

Definition Classify (history : option FailHistory) (fs : list Finding) : list Finding :=
  map (fun f => f <| f_Classification := classify history f |>) fs.

(** What [applyFailureClassification] keeps: [None] is the nil slice, a pass. *)
Definition genuine_findings (history : option FailHistory) (fs : list Finding) : option (list Finding) :=
  let classified := Classify history fs in
  if forallb (fun f => bool_decide (f_Classification f <> ClassificationGenuine) &&
                       bool_decide (f_Classification f <> ClassificationIntermittent)) classified
  then None
  else Some (filter (fun f => f_Classification f <> ClassificationFlaky) classified).

(** ** Lemmas *)

Lemma record_window rule passed h :
  (0 < fh_window h)%Z ->
  forall k outs, fh_records (Record_ rule passed h) !! k = Some outs ->
    (k <> rule /\ fh_records h !! k = Some outs) \/
    (k = rule /\ (Z.of_nat (length outs) <= fh_window h)%Z /\ last outs = Some passed).
Proof.
  intros Hw k outs. unfold Record_. simpl. destruct (decide (k = rule)) as [->|Hne].
  - rewrite lookup_insert_eq. intros E. injection E as <-. right. split; [done|].
    set (o := default [] (fh_records h !! rule) ++ [passed]).
    assert (Hl : last o = Some passed) by apply last_snoc.
    destruct (Z.ltb_spec (fh_window h) (Z.of_nat (length o))); [|split; [lia|done]].
    rewrite length_drop. split; [lia|]. rewrite last_lookup in *. rewrite lookup_drop, length_drop.
    rewrite <- Hl. f_equal. lia.
  - rewrite lookup_insert_ne by done. by left.
Qed.

(** Up to the default window the float comparison is the exact one. *)
Lemma flaky_exact rule h outs :
  fh_records h !! rule = Some outs -> length outs <= 10 ->
  IsFlaky rule h = (3 * length outs <? 5 * failures outs).
Proof.
  intros Hr Hl. unfold IsFlaky. rewrite Hr. destruct outs as [|o outs]; [done|].
  assert (Hf : failures (o :: outs) <= length (o :: outs)) by apply length_filter.
  revert Hf Hl. generalize (failures (o :: outs)) as f. cbn [length]. generalize (length outs) as n.
  intros n f Hf Hl.
  do 10 (destruct n as [|n]; [do 11 (destruct f as [|f]; [by vm_compute|]); lia|]). lia.
Qed.
