(* ===== verification/Policy.v ===== *)
(** * Policy checks, guardrails and risk

    Translates [internal/policy] (policy.go, guardrail.go) and
    [internal/riskeval] (evaluator.go, rules.go), with the standard library's
    [path.Match] they use. *)

From S2P Require Import Prelude Floats Findings.

(** ** [path.Match] on bytes

    The pattern is read into tokens first; [None] is [ErrBadPattern], which
    every caller here takes for no match. *)
Inductive token :=
| TStar
| TAny
| TLit (c : Ascii.ascii)
| TClass (negated : bool) (ranges : list (Ascii.ascii * Ascii.ascii)).

Definition chr (n : nat) : Ascii.ascii := Ascii.ascii_of_nat n.
Definition slash : Ascii.ascii := chr 47.

(** One character of a class, an escape read. *)
Definition getEsc (s : string) : option (Ascii.ascii * string) :=
  match s with
  | "" => None
  | String c s =>
      if decide (c = chr 45 \/ c = chr 93) then None
      else if decide (c = chr 92) then match s with "" => None | String c s => Some (c, s) end
      else Some (c, s)
  end.

(** The ranges of a class up to its bracket; at least one. *)
Fixpoint read_class (fuel : nat) (acc : list (Ascii.ascii * Ascii.ascii)) (s : string)
  : option (list (Ascii.ascii * Ascii.ascii) * string) :=
  match fuel with
  | 0 => None
  | S fuel =>
      let closed := match s, acc with
                    | String c rest, _ :: _ => if decide (c = chr 93) then Some rest else None
                    | _, _ => None
                    end in
      match closed with
      | Some rest => Some (rev acc, rest)
      | None =>
          match getEsc s with
          | None | Some (_, "") => None
          | Some (lo, String c s' as s) =>
              if decide (c = chr 45) then
                match getEsc s' with
                | None => None
                | Some (hi, s) => read_class fuel ((lo, hi) :: acc) s
                end
              else read_class fuel ((lo, lo) :: acc) s
          end
      end
  end.

Fixpoint tokens (fuel : nat) (s : string) : option (list token) :=
  match fuel, s with
  | _, "" => Some []
  | 0, _ => None
  | S fuel, String c s =>
      if decide (c = chr 42) then cons TStar <$> tokens fuel s
      else if decide (c = chr 63) then cons TAny <$> tokens fuel s
      else if decide (c = chr 91) then
        let '(neg, s) := match s with
                         | String d s' => if decide (d = chr 94) then (true, s') else (false, s)
                         | "" => (false, s)
                         end in
        match read_class (String.length s) [] s with
        | None => None
        | Some (ranges, s) => cons (TClass neg ranges) <$> tokens fuel s
        end
      else if decide (c = chr 92) then
        match s with "" => None | String d s => cons (TLit d) <$> tokens fuel s end
      else cons (TLit c) <$> tokens fuel s
  end.

Definition in_ranges (ranges : list (Ascii.ascii * Ascii.ascii)) (c : Ascii.ascii) : bool :=
  existsb (fun r : Ascii.ascii * Ascii.ascii =>
    (Ascii.nat_of_ascii r.1 <=? Ascii.nat_of_ascii c) &&
    (Ascii.nat_of_ascii c <=? Ascii.nat_of_ascii r.2)) ranges.

(** A star matches any run of characters that are not slashes. *)
Fixpoint match_tokens (ts : list token) : string -> bool :=
  match ts with
  | [] => fun s => match s with "" => true | _ => false end
  | TStar :: ts =>
      fix star (s : string) : bool :=
        match_tokens ts s ||
        match s with "" => false | String c s => negb (bool_decide (c = slash)) && star s end
  | TAny :: ts => fun s =>
      match s with "" => false | String c s => negb (bool_decide (c = slash)) && match_tokens ts s end
  | TLit d :: ts => fun s =>
      match s with "" => false | String c s => bool_decide (c = d) && match_tokens ts s end
  | TClass neg ranges :: ts => fun s =>
      match s with
      | "" => false
      | String c s => negb (Bool.eqb (in_ranges ranges c) neg) && match_tokens ts s
      end
  end.

Definition path_Match (pattern name : string) : bool :=
  match tokens (String.length pattern) pattern with
  | Some ts => match_tokens ts name
  | None => false
  end.

Example match_star : path_Match "*.env" "prod.env" = true /\ path_Match "*.env" "config/prod.env" = false.
Proof. by vm_compute. Qed.
Example match_class : path_Match "v[0-9a]?.go" "v7x.go" = true /\ path_Match "v[^0-9]" "v7" = false.
Proof. by vm_compute. Qed.
Example match_bad : path_Match "a[" "a[" = false /\ path_Match "a\*" "a*" = true.
Proof. by vm_compute. Qed.

(** ** Policy *)

Definition SeverityError : string := "error".
Definition SeverityWarning : string := "warning".

Record Violation := mkViolation { vi_Severity : string; vi_Rule : string; vi_Message : string }.

Record DocRequirement := mkDocRequirement { Trigger : string; Requires : string }.

Record PolicySettings := mkPolicySettings {
  ps_RequiredPhases : list string;
  ps_SensitivePaths : list string;
  ps_MinSpecSections : Z;
  ps_RequireSecurityScan : bool;
  ps_DocRequirements : list DocRequirement
}.

Definition phaseOrder : list string :=
  ["loaded"; "planning"; "planned"; "implementing"; "implemented"; "simplifying"; "optimizing";
   "reviewing"; "submitted"].

Definition eventTarget (event : string) : option string :=
  go_switch event
    [("start", Some "loaded"); ("plan", Some "planning"); ("implement", Some "implementing");
     ("simplify", Some "simplifying"); ("optimize", Some "optimizing"); ("review", Some "reviewing");
     ("submit", Some "submitted"); ("finish", Some "submitted")] None.

Fixpoint slice_index (l : list string) (x : string) : option nat :=
  match l with
  | [] => None
  | y :: l => if decide (y = x) then Some 0 else S <$> slice_index l x
  end.

Definition checkRequiredPhases (requiredPhases : list string) (event currentState : string)
  : list Violation :=
  match eventTarget event with
  | None => []
  | Some target =>
      match slice_index phaseOrder currentState, slice_index phaseOrder target with
      | Some currentIdx, Some targetIdx =>
          flat_map (fun i =>
            let phase := nth i phaseOrder "" in
            if slice_contains requiredPhases phase
            then [mkViolation SeverityError "required_phase"
                    ("required phase " +:+ quote phase +:+ " would be skipped by " +:+ event +:+
                     " from " +:+ currentState)]
            else []) (seq (currentIdx + 1) (targetIdx - (currentIdx + 1)))
      | _, _ => []
      end
  end.

Definition checkSensitivePaths (sensitivePaths changedFiles : list string) : list Violation :=
  if existsb (fun file => existsb (fun pattern => path_Match pattern file) sensitivePaths) changedFiles
  then [mkViolation SeverityWarning "sensitive_paths" "sensitive files modified, review recommended"]
  else [].

Definition checkDocRequirements (requirements : list DocRequirement) (changedFiles : list string)
  : list Violation :=
  flat_map (fun req =>
    if existsb (path_Match (Trigger req)) changedFiles &&
       negb (existsb (path_Match (Requires req)) changedFiles)
    then [mkViolation SeverityError "doc_requirement"
            ("files matching " +:+ quote (Trigger req) +:+
             " changed but required documentation matching " +:+ quote (Requires req) +:+
             " was not updated")]
    else []) requirements.

Definition policy_Evaluate (cfg : PolicySettings) (event st : string)
    (specs changedFiles : list string) : list Violation :=
  (if bool_decide (event = "submit") && ps_RequireSecurityScan cfg
   then [mkViolation SeverityWarning "require_security_scan" "security scan required before submit"]
   else []) ++
  (if bool_decide (event = "implement") && (0 <? ps_MinSpecSections cfg)%Z &&
      (Z.of_nat (length specs) <? ps_MinSpecSections cfg)%Z
   then [mkViolation SeverityError "min_spec_sections"
           ("need at least " +:+ pretty (ps_MinSpecSections cfg) +:+
            " specification files before implementation, got " +:+ pretty (Z.of_nat (length specs)))]
   else []) ++
  checkRequiredPhases (ps_RequiredPhases cfg) event st ++
  checkSensitivePaths (ps_SensitivePaths cfg) changedFiles ++
  checkDocRequirements (ps_DocRequirements cfg) changedFiles.

Definition HasBlockingViolation (vs : list Violation) : bool :=
  existsb (fun v => bool_decide (vi_Severity v = SeverityError)) vs.

(** ** Guardrails *)

Inductive Guardrail := RequireSpec | MaxDiffSize (maxLines : Z).

Definition GetGuardrail (name : string) : option Guardrail :=
  go_switch name [("require-spec", Some RequireSpec); ("max-diff-size", Some (MaxDiffSize 2000))] None.

(** [diffLines] is what [countDiffLines] reads off git's summary, [None] when
    git fails. *)
Definition guardrail_Check (g : Guardrail) (phase : string) (specs : list string)
    (diffLines : option Z) : list Finding :=
  match g with
  | RequireSpec =>
      if slice_contains ["implement"; "simplify"; "optimize"; "review"] phase &&
         bool_decide (specs = [])
      then [simple_finding "guardrail-require-spec" SeverityHigh CategoryPolicy "require-spec"
              ("phase " +:+ quote phase +:+ " requires at least one specification file, but none exist")
              "guardrail" <| f_Remediation :=
                "Run the plan phase first to generate a specification, or create one manually." |>]
      else []
  | MaxDiffSize maxLines =>
      let maxLines := if (maxLines <=? 0)%Z then 2000%Z else maxLines in
      match diffLines with
      | None => []
      | Some n =>
          if (n <=? maxLines)%Z then [] else
          [simple_finding "guardrail-max-diff-size" SeverityMedium CategoryPolicy "max-diff-size"
             ("diff is " +:+ pretty n +:+ " lines, exceeding the " +:+ pretty maxLines +:+
              "-line threshold") "guardrail"
             <| f_Evidence := pretty n +:+ " lines changed" |>
             <| f_Remediation := "Consider breaking the change into smaller increments." |>]
      end
  end.

(** ** Risk *)

Definition LevelLow : string := "low".
Definition LevelMedium : string := "medium".
Definition LevelHigh : string := "high".
Definition DefaultLowThreshold : spec_float := float_dec 3 1.
Definition DefaultHighThreshold : spec_float := float_dec 7 1.

Record RiskInput := mkRiskInput {
  DiffLinesAdded : Z;
  DiffLinesRemoved : Z;
  FilesChanged : list string;
  ri_SensitivePaths : list string;
  SecurityFindings : Z;
  TestFilesChanged : Z;
  TotalFilesChanged : Z
}.

Record RiskScore := mkRiskScore {
  rs_Score : spec_float;
  rs_Factors : list (string * spec_float);
  rs_Level : string
}.

Definition FactorDiffSize : string := "diff_size".
Definition FactorSensitivePaths : string := "sensitive_paths".
Definition FactorSecurityFindings : string := "security_findings".
Definition FactorFileCount : string := "file_count".
Definition FactorTestRatio : string := "test_ratio".

Definition DefaultWeights (factor : string) : option spec_float :=
  go_switch factor
    [(FactorDiffSize, Some (float_dec 30 2)); (FactorSensitivePaths, Some (float_dec 25 2));
     (FactorSecurityFindings, Some (float_dec 25 2)); (FactorFileCount, Some (float_dec 10 2));
     (FactorTestRatio, Some (float_dec 10 2))] None.

Definition float_one : spec_float := float_of_Z 1.

Definition classifyLevel (score : spec_float) : string :=
  if float_lt score DefaultLowThreshold then LevelLow
  else if float_lt score DefaultHighThreshold then LevelMedium else LevelHigh.

Definition scoreDiffSize (totalLines : Z) : spec_float :=
  if (totalLines <=? 20)%Z then float_zero
  else if (500 <=? totalLines)%Z then float_one
  else float_div (float_of_Z (totalLines - 20)) (float_of_Z (500 - 20)).

(** [filepath.Base] of a relative path that does not end with a slash. *)
Fixpoint path_Base (s : string) : string :=
  match s with
  | "" => ""
  | String _ rest => if contains "/" s then path_Base rest else s
  end.

Definition scoreSensitivePaths (files patterns : list string) : spec_float :=
  if bool_decide (files = []) || bool_decide (patterns = []) then float_zero else
  let matched := length (List.filter (fun f =>
    existsb (fun p => path_Match p f || path_Match p (path_Base f)) patterns) files) in
  float_div (float_of_Z (Z.of_nat matched)) (float_of_Z (Z.of_nat (length files))).

Definition scoreSecurityFindings (count : Z) : spec_float :=
  if (0 <? count)%Z then float_one else float_zero.

Definition scoreFileCount (count : Z) : spec_float :=
  if (count <=? 1)%Z then float_zero
  else if (20 <=? count)%Z then float_one
  else float_div (float_of_Z (count - 1)) (float_of_Z (20 - 1)).

Definition float_sub : spec_float -> spec_float -> spec_float := SFsub 53 1024.
Definition float_half : spec_float := float_dec 5 1.

Definition scoreTestRatio (testFiles totalFiles : Z) : spec_float :=
  if (totalFiles =? 0)%Z then float_zero else
  let ratio := float_div (float_of_Z testFiles) (float_of_Z totalFiles) in
  if negb (float_lt ratio float_half) then float_zero
  else float_sub float_one (float_div ratio float_half).

Definition risk_factors (input : RiskInput) : list (string * spec_float) :=
  [(FactorDiffSize, scoreDiffSize (DiffLinesAdded input + DiffLinesRemoved input));
   (FactorSensitivePaths, scoreSensitivePaths (FilesChanged input) (ri_SensitivePaths input));
   (FactorSecurityFindings, scoreSecurityFindings (SecurityFindings input));
   (FactorFileCount, scoreFileCount (TotalFilesChanged input));
   (FactorTestRatio, scoreTestRatio (TestFilesChanged input) (TotalFilesChanged input))].

(** [math.Max(0, math.Min(1, score))]; the score is never a NaN. *)
Definition clamp01 (score : spec_float) : spec_float :=
  let m := if float_lt score float_one then score else float_one in
  if float_lt float_zero m then m else float_zero.

(** The loop over the map of factors: [factors] is the order of the range. *)
Definition weighted_sum (weights : string -> option spec_float) (factors : list (string * spec_float))
  : spec_float :=
  fold_left (fun score (f : string * spec_float) =>
    match weights f.1 with
    | Some w => float_add score (float_mul f.2 w)
    | None => score
    end) factors float_zero.

(** [order] permutes the factors; the score is a sum of floats, so it can
    depend on it. *)
Definition EvaluateRisk (order : list (string * spec_float) -> list (string * spec_float))
    (input : RiskInput) : RiskScore :=
  let factors := risk_factors input in
  let score := clamp01 (weighted_sum DefaultWeights (order factors)) in
  mkRiskScore score factors (classifyLevel score).

Definition testSuffixes : list string :=
  [".test.ts"; ".test.tsx"; ".test.js"; ".test.jsx"; ".spec.ts"; ".spec.tsx"; ".spec.js"; ".spec.jsx"].

(** [conductor.isTestFile] *)
Definition isTestFile (path : string) : bool :=
  (8 <? String.length path) && has_suffix path "_test.go" ||
  existsb (fun s => (String.length s <? String.length path) && has_suffix path s) testSuffixes.

(** ** Lemmas *)

Lemma blocking_app vs vs' :
  HasBlockingViolation (vs ++ vs') = HasBlockingViolation vs || HasBlockingViolation vs'.
Proof. apply existsb_app. Qed.

Lemma required_phases_between required event st v :
  v ∈ checkRequiredPhases required event st -> exists phase, phase ∈ required /\ phase ∈ phaseOrder.
Proof.
  unfold checkRequiredPhases. destruct (eventTarget event) as [target|]; [|by intros ?%not_elem_of_nil].
  destruct (slice_index phaseOrder st) as [i|]; [|by intros ?%not_elem_of_nil].
  destruct (slice_index phaseOrder target) as [j|] eqn:Ej; [|by intros ?%not_elem_of_nil].
  intros Hv. apply list_elem_of_In, in_flat_map in Hv as (k & Hk & Hv). apply in_seq in Hk.
  unfold slice_contains in Hv. destruct (bool_decide_reflect (nth k phaseOrder "" ∈ required)); [|done].
  exists (nth k phaseOrder ""). split; [done|]. apply list_elem_of_In, nth_In.
  assert (Hj : j < length phaseOrder); [|lia].
  clear -Ej. revert j Ej. generalize phaseOrder as l. induction l as [|y l IH]; intros j; simpl; [done|].
  case_decide; intros Hj; simplify_eq/=; [lia|].
  destruct (slice_index l target) as [j'|]; simplify_eq/=. specialize (IH j' eq_refl). lia.
Qed.

(** ** Properties *)

(** what the policy can stop at submit.  With the required phases given by
    their names (as the settings describe them and as the conductor's own check
    reads them), the policy blocks a submit from any state exactly when some
    documentation rule is triggered by the changed files and not satisfied by
    them; required phases, sensitive paths, the specification minimum and the
    security scan never block here. *)
Theorem submit_policy_blocks cfg st specs files :
  Forall (fun phase => phase ∈ ["plan"; "implement"; "simplify"; "optimize"; "review"; "submit"])
    (ps_RequiredPhases cfg) ->
  HasBlockingViolation (policy_Evaluate cfg "submit" st specs files) = true <->
  exists req, req ∈ ps_DocRequirements cfg /\
    (exists file, file ∈ files /\ path_Match (Trigger req) file = true) /\
    (forall file, file ∈ files -> path_Match (Requires req) file = false).
Proof.
  intros Hnames. unfold policy_Evaluate. rewrite !blocking_app.
  assert (Hr : checkRequiredPhases (ps_RequiredPhases cfg) "submit" st = []).
  { destruct (checkRequiredPhases _ _ _) as [|v vs] eqn:E; [done|].
    destruct (required_phases_between (ps_RequiredPhases cfg) "submit" st v) as (p & Hp & Hin);
      [rewrite E; by left|].
    rewrite Forall_forall in Hnames. specialize (Hnames p Hp).
    unfold phaseOrder in Hin. clear -Hin Hnames.
    repeat (apply elem_of_cons in Hnames as [->|Hnames]; [by vm_compute in Hin; set_solver|]).
    by apply not_elem_of_nil in Hnames. }
  rewrite Hr. unfold checkSensitivePaths.
  replace (HasBlockingViolation (if _ && ps_RequireSecurityScan cfg then _ else _)) with false
    by (by destruct (_ && ps_RequireSecurityScan cfg)).
  replace (HasBlockingViolation (if existsb _ _ then _ else _)) with false by (by destruct (existsb _ _)).
  simpl. unfold HasBlockingViolation, checkDocRequirements. rewrite existsb_exists. split.
  - intros (v & Hv & _). apply in_flat_map in Hv as (req & Hreq & Hv).
    destruct (existsb (path_Match (Trigger req)) files) eqn:Et; [|done].
    destruct (existsb (path_Match (Requires req)) files) eqn:Er; [done|].
    exists req. split_and!; [by apply list_elem_of_In| |].
    + apply existsb_exists in Et as (f & ? & ?). exists f. by rewrite list_elem_of_In.
    + intros f Hf. apply not_true_is_false. intros Hm. apply not_true_iff_false in Er. apply Er.
      apply existsb_exists. exists f. by rewrite <- list_elem_of_In.
  - intros (req & Hreq & (f & Hf & Hm) & Hn).
    eexists. split; [apply in_flat_map; exists req; split; [by apply list_elem_of_In|]|].
    + rewrite (proj2 (existsb_exists _ _)) by (exists f; by rewrite <- list_elem_of_In).
      assert (existsb (path_Match (Requires req)) files = false) as ->; [|by left].
      apply not_true_is_false. intros (f' & Hf' & Hm')%existsb_exists.
      rewrite Hn in Hm'; [done|by apply list_elem_of_In].
    + done.
Qed.

Lemma submit_policy_blocks_witness :
  HasBlockingViolation (policy_Evaluate (mkPolicySettings ["review"] [] 0 true
    [mkDocRequirement "*.go" "*.md"]) "submit" "reviewing" [] ["main.go"]) = true.
Proof.
  refine (proj2 (submit_policy_blocks (mkPolicySettings ["review"] [] 0 true
    [mkDocRequirement "*.go" "*.md"]) "reviewing" [] ["main.go"] _) _).
  - repeat constructor.
  - exists (mkDocRequirement "*.go" "*.md"). split_and!; [by left| |].
    + exists "main.go". split; [by left|]. by vm_compute.
    + intros f ->%list_elem_of_singleton. by vm_compute.
Defined.
