(* ===== verification/Proc.v ===== *)
(** * Goroutines that share a lock

    The conductor's operations hold [c.mu] for parts of their bodies and let go
    of it around shell commands and network calls, so other operations run in
    between.  A [proc] is such a body: what it still has to do, one constructor
    per use of the lock, access to the shared state, answer of the environment,
    spawned goroutine or blocking receive.  Two semantics are given: [exec]
    runs one body alone, [step] interleaves any number of them; [exec_steps]
    relates the two.

    [well_locked] is a lock discipline in the form of a type system, and
    [locked_exclusion] and [locked_progress] are its soundness. *)

From S2P Require Import Prelude.

(** ** The lock: [sync.RWMutex]

    [RLock] only waits for a writer that holds the lock; the preference Go
    gives to a writer that waits restricts the interleavings further. *)
Inductive mode := Write | Read.

#[export] Instance mode_eq_dec : EqDecision mode.
Proof. solve_decision. Defined.

(** [ReadHeld n] is held by [S n] readers. *)
Inductive rwlock := Unheld | ReadHeld (n : nat) | WriteHeld.

#[export] Instance rwlock_eq_dec : EqDecision rwlock.
Proof. solve_decision. Defined.

(** [None]: the caller blocks. *)
Definition acquire (m : mode) (l : rwlock) : option rwlock :=
  match m, l with
  | Write, Unheld => Some WriteHeld
  | Read, Unheld => Some (ReadHeld 0)
  | Read, ReadHeld n => Some (ReadHeld (S n))
  | _, _ => None
  end.

(** [None]: unlock of an unlocked mutex, a fatal error. *)
Definition release (m : mode) (l : rwlock) : option rwlock :=
  match m, l with
  | Write, WriteHeld => Some Unheld
  | Read, ReadHeld 0 => Some Unheld
  | Read, ReadHeld (S n) => Some (ReadHeld n)
  | _, _ => None
  end.

(** Access to the shared state: [Free] is for what has a lock of its own (or is
    an atomic), [Unsynced] for a read the code makes without the lock. *)
Inductive access := Free | Unsynced | Reads | Writes.

(** ** Bodies *)

Section Proc.
(** The shared state, the questions to the environment with the type of their
    answers, and the calls that can be spawned. *)
Context {S Q T : Type} {ans : Q -> Type}.

Inductive proc (A : Type) : Type :=
| Ret (a : A)
| Lock (m : mode) (k : proc A)
| Unlock (m : mode) (k : proc A)
| Act (a : access) (f : S -> S) (k : S -> proc A)
| Ask (q : Q) (k : ans q -> proc A)
| Go (t : T) (k : proc A)
| Await (ready : S -> bool) (k : proc A)
| Panic.

(** [Act a f k] replaces the state [s] by [f s] and goes on with [k s]. *)

Fixpoint bind {A B} (p : proc A) (k : A -> proc B) : proc B :=
  match p with
  | Ret _ a => k a
  | Lock _ m p => Lock _ m (bind p k)
  | Unlock _ m p => Unlock _ m (bind p k)
  | Act _ a f p => Act _ a f (fun s => bind (p s) k)
  | Ask _ q p => Ask _ q (fun x => bind (p x) k)
  | Go _ t p => Go _ t (bind p k)
  | Await _ r p => Await _ r (bind p k)
  | Panic _ => Panic _
  end.

Definition lock (m : mode) : proc unit := Lock _ m (Ret _ tt).
Definition unlock (m : mode) : proc unit := Unlock _ m (Ret _ tt).
Definition reads {A} (f : S -> A) : proc A := Act _ Reads id (fun s => Ret _ (f s)).
Definition writes (f : S -> S) : proc unit := Act _ Writes f (fun _ => Ret _ tt).
Definition freely (f : S -> S) : proc unit := Act _ Free f (fun _ => Ret _ tt).
Definition peeks {A} (f : S -> A) : proc A := Act _ Free id (fun s => Ret _ (f s)).
Definition unsynced {A} (f : S -> A) : proc A := Act _ Unsynced id (fun s => Ret _ (f s)).
Definition ask (q : Q) : proc (ans q) := Ask _ q (fun x => Ret _ x).
Definition go (t : T) : proc unit := Go _ t (Ret _ tt).
Definition await (r : S -> bool) : proc unit := Await _ r (Ret _ tt).

(** A write that also computes a value from the state before it. *)
Definition update {A} (a : access) (f : S -> S * A) : proc A :=
  Act _ a (fun s => (f s).1) (fun s => Ret _ (f s).2).

(** [c.mu.Lock(); defer c.mu.Unlock()] around a body. *)
Definition deferred {A} (p : proc A) : proc A :=
  Lock _ Write (bind p (fun a => Unlock _ Write (Ret _ a))).

(** ** One body alone *)

Record local := mkLocal {
  shared : S;
  held_lock : rwlock;
  spawned : list T;
  asked : nat
}.

Inductive outcome (A : Type) := Done (a : A) | Blocked | Waiting | Crashed.

(** The [n]-th question is answered by [env n]. *)
Fixpoint exec {A} (env : nat -> forall q, ans q) (p : proc A) (c : local) : local * outcome A :=
  match p with
  | Ret _ a => (c, Done _ a)
  | Lock _ m p =>
      match acquire m (held_lock c) with
      | Some l => exec env p (mkLocal (shared c) l (spawned c) (asked c))
      | None => (c, Blocked _)
      end
  | Unlock _ m p =>
      match release m (held_lock c) with
      | Some l => exec env p (mkLocal (shared c) l (spawned c) (asked c))
      | None => (c, Crashed _)
      end
  | Act _ _ f k => exec env (k (shared c)) (mkLocal (f (shared c)) (held_lock c) (spawned c) (asked c))
  | Ask _ q k =>
      exec env (k (env (asked c) q)) (mkLocal (shared c) (held_lock c) (spawned c) (Datatypes.S (asked c)))
  | Go _ t p => exec env p (mkLocal (shared c) (held_lock c) (spawned c ++ [t]) (asked c))
  | Await _ r p => if r (shared c) then exec env p c else (c, Waiting _)
  | Panic _ => (c, Crashed _)
  end.

Definition outcome_bind {A B} (r : local * outcome A) (f : A -> local -> local * outcome B)
  : local * outcome B :=
  match r with
  | (c, Done _ a) => f a c
  | (c, Blocked _) => (c, Blocked _)
  | (c, Waiting _) => (c, Waiting _)
  | (c, Crashed _) => (c, Crashed _)
  end.

Lemma exec_bind {A B} env (p : proc A) (k : A -> proc B) c :
  exec env (bind p k) c = outcome_bind (exec env p c) (fun a c => exec env (k a) c).
Proof.
  revert c. induction p; intros c; simpl; auto.
  - by destruct (acquire m _).
  - by destruct (release m _).
  - by destruct (ready _).
Qed.

(** ** Interleavings *)

Record config := mkConfig {
  cf_shared : S;
  cf_lock : rwlock;
  cf_threads : list (proc unit);
  cf_crashed : bool
}.

Context (body : T -> proc unit).

Inductive thread_step : S -> rwlock -> proc unit -> S -> rwlock -> proc unit -> list T -> bool -> Prop :=
| ts_lock s l l' m p : acquire m l = Some l' -> thread_step s l (Lock _ m p) s l' p [] false
| ts_unlock s l l' m p : release m l = Some l' -> thread_step s l (Unlock _ m p) s l' p [] false
| ts_unlock_fatal s l m p : release m l = None -> thread_step s l (Unlock _ m p) s l p [] true
| ts_act s l a f k : thread_step s l (Act _ a f k) (f s) l (k s) [] false
| ts_ask s l q k x : thread_step s l (Ask _ q k) s l (k x) [] false
| ts_go s l t p : thread_step s l (Go _ t p) s l p [t] false
| ts_await s l r p : r s = true -> thread_step s l (Await _ r p) s l p [] false
| ts_panic s l : thread_step s l (Panic _) s l (Panic _) [] true.

Inductive step : config -> config -> Prop :=
| step_thread i s l ts p s' l' p' new crash :
    ts !! i = Some p -> thread_step s l p s' l' p' new crash ->
    step (mkConfig s l ts false)
         (mkConfig s' l' (<[i := p']> ts ++ (body <$> new)) crash).

Definition start_config (s : S) (ts : list (proc unit)) : config := mkConfig s Unheld ts false.

(** ** [exec] is one of the interleavings *)

Definition discard {A} (p : proc A) : proc unit := bind p (fun _ => Ret _ tt).

(** One thread moves, the others stay. *)
Lemma step_first s l p ts s' l' p' new crash :
  thread_step s l p s' l' p' new crash ->
  step (mkConfig s l (p :: ts) false) (mkConfig s' l' (p' :: ts ++ (body <$> new)) crash).
Proof. intros Hs. by apply (step_thread 0 s l (p :: ts) p). Qed.

Lemma step_first_alone s l p ts s' l' p' crash :
  thread_step s l p s' l' p' [] crash ->
  step (mkConfig s l (p :: ts) false) (mkConfig s' l' (p' :: ts) crash).
Proof. intros Hs. apply step_first with (ts := ts) in Hs. by rewrite app_nil_r in Hs. Qed.

(** What is left of a body where its run alone ended. *)
Definition stopped (r : local * outcome unit) (p : proc unit) : Prop :=
  match r.2 with
  | Done _ _ => p = Ret _ tt
  | Blocked _ => exists m q, p = Lock _ m q /\ acquire m (held_lock r.1) = None
  | Waiting _ => exists f q, p = Await _ f q /\ f (shared r.1) = false
  | Crashed _ => True
  end.

Definition is_crashed (r : local * outcome unit) : bool :=
  match r.2 with Crashed _ => true | _ => false end.

Lemma exec_steps env (p : proc unit) c ts :
  exists p', stopped (exec env p c) p' /\ rtc step
    (mkConfig (shared c) (held_lock c) (p :: ts ++ (body <$> spawned c)) false)
    (mkConfig (shared (exec env p c).1) (held_lock (exec env p c).1)
       (p' :: ts ++ (body <$> spawned (exec env p c).1)) (is_crashed (exec env p c))).
Proof.
  revert c. induction p as [[]|m p IH|m p IH|a f k IH|q k IH|t p IH|r p IH|]; intros c; simpl.
  - exists (Ret _ tt). split; [done|apply rtc_refl].
  - destruct (acquire m _) as [l'|] eqn:El; [|exists (Lock _ m p); split; [by repeat eexists|apply rtc_refl]].
    edestruct (IH (mkLocal (shared c) l' (spawned c) (asked c))) as (p' & Ho & Hr).
    exists p'. split; [exact Ho|]. eapply rtc_l; [|exact Hr]. by apply step_first_alone, ts_lock.
  - destruct (release m _) as [l'|] eqn:El.
    + edestruct (IH (mkLocal (shared c) l' (spawned c) (asked c))) as (p' & Ho & Hr).
      exists p'. split; [exact Ho|]. eapply rtc_l; [|exact Hr]. by apply step_first_alone, ts_unlock.
    + exists p. split; [done|]. by apply rtc_once, step_first_alone, ts_unlock_fatal.
  - edestruct (IH (shared c) (mkLocal (f (shared c)) (held_lock c) (spawned c) (asked c)))
      as (p' & Ho & Hr).
    exists p'. split; [exact Ho|]. eapply rtc_l; [|exact Hr]. apply step_first_alone, ts_act.
  - edestruct (IH (env (asked c) q) (mkLocal (shared c) (held_lock c) (spawned c)
      (Datatypes.S (asked c)))) as (p' & Ho & Hr).
    exists p'. split; [exact Ho|]. eapply rtc_l; [|exact Hr]. apply step_first_alone, ts_ask.
  - edestruct (IH (mkLocal (shared c) (held_lock c) (spawned c ++ [t]) (asked c)))
      as (p' & Ho & Hr).
    exists p'. split; [exact Ho|]. eapply rtc_l; [|exact Hr]. simpl.
    rewrite fmap_app, app_assoc. apply step_first, ts_go.
  - destruct (r (shared c)) eqn:Er; [|exists (Await _ r p); split; [by repeat eexists|apply rtc_refl]].
    edestruct (IH c) as (p' & Ho & Hr).
    exists p'. split; [exact Ho|]. eapply rtc_l; [|exact Hr]. by apply step_first_alone, ts_await.
  - exists (Panic _). split; [done|]. apply rtc_once, step_first_alone, ts_panic.
Qed.

(** ** Runs with a given schedule *)

(** One step of a body; [None] when it cannot move. *)
Definition thread_next (env : nat -> forall q, ans q) (n : nat) (s : S) (l : rwlock) (p : proc unit)
  : option (S * rwlock * proc unit * list T * bool * nat) :=
  match p with
  | Ret _ _ => None
  | Lock _ m p => (fun l' => (s, l', p, [], false, n)) <$> acquire m l
  | Unlock _ m p =>
      match release m l with
      | Some l' => Some (s, l', p, [], false, n)
      | None => Some (s, l, p, [], true, n)
      end
  | Act _ a f k => Some (f s, l, k s, [], false, n)
  | Ask _ q k => Some (s, l, k (env n q), [], false, Datatypes.S n)
  | Go _ t p => Some (s, l, p, [t], false, n)
  | Await _ r p => if r s then Some (s, l, p, [], false, n) else None
  | Panic _ => Some (s, l, Panic _, [], true, n)
  end.

(** The threads move in the order of the schedule. *)
Fixpoint run_schedule (env : nat -> forall q, ans q) (n : nat) (schedule : list nat) (c : config)
  : option config :=
  match schedule with
  | [] => Some c
  | i :: schedule =>
      if cf_crashed c then None else
      match cf_threads c !! i with
      | None => None
      | Some p =>
          match thread_next env n (cf_shared c) (cf_lock c) p with
          | None => None
          | Some (s, l, p', new, crash, n) =>
              run_schedule env n schedule
                (mkConfig s l (<[i := p']> (cf_threads c) ++ (body <$> new)) crash)
          end
      end
  end.

Lemma thread_next_step env n s l p s' l' p' new crash n' :
  thread_next env n s l p = Some (s', l', p', new, crash, n') ->
  thread_step s l p s' l' p' new crash.
Proof.
  destruct p; simpl; intros H; simplify_eq; try by constructor.
  - destruct (acquire m l) eqn:E; simplify_eq/=. by constructor.
  - destruct (release m l) eqn:E; simplify_eq/=; [by constructor|by apply ts_unlock_fatal].
  - destruct (ready s) eqn:E; simplify_eq/=. by constructor.
Qed.

Lemma run_schedule_steps env n schedule c c' :
  run_schedule env n schedule c = Some c' -> rtc step c c'.
Proof.
  revert n c. induction schedule as [|i schedule IH]; intros n [s l ts crash] H; simpl in H;
    [simplify_eq; apply rtc_refl|].
  destruct crash; [done|]. destruct (ts !! i) as [p|] eqn:Ei; [|done].
  destruct (thread_next env n s l p) as [[[[[[s' l'] p'] new] crash'] n']|] eqn:En; [|done].
  eapply rtc_l; [|by eapply IH]. by eapply step_thread, thread_next_step.
Qed.

(** ** The lock discipline *)

(** [well_locked h p h']: started with the lock held as [h] says, [p] takes the
    lock only when it does not hold it, releases it as it took it, writes the
    shared state only under it, reads it without only where the read is marked
    [Unsynced], does not wait for a channel while it holds it,
    and returns holding [h']. *)
Fixpoint well_locked {A} (h : option mode) (p : proc A) (h' : option mode) : Prop :=
  match p with
  | Ret _ _ => h = h'
  | Lock _ m p => h = None /\ well_locked (Some m) p h'
  | Unlock _ m p => h = Some m /\ well_locked None p h'
  | Act _ a f k =>
      match a with
      | Free => True
      | Unsynced => forall s, f s = s
      | Reads => h <> None /\ forall s, f s = s
      | Writes => h = Some Write
      end /\
      forall s, well_locked h (k s) h'
  | Ask _ q k => forall x, well_locked h (k x) h'
  | Go _ t p => well_locked h p h'
  | Await _ r p => h = None /\ well_locked h p h'
  | Panic _ => True
  end.

Lemma wl_bind {A B} h h1 h2 (p : proc A) (k : A -> proc B) :
  well_locked h p h1 -> (forall a, well_locked h1 (k a) h2) -> well_locked h (bind p k) h2.
Proof.
  intros Hp Hk. revert h Hp. induction p; intros h Hp; simpl in *.
  - by subst.
  - naive_solver.
  - naive_solver.
  - destruct Hp as [Ha Hp]. split; [exact Ha|]. auto.
  - auto.
  - auto.
  - naive_solver.
  - done.
Qed.

Lemma wl_ret {A} h (a : A) : well_locked h (Ret _ a) h.
Proof. done. Qed.
Lemma wl_lock m : well_locked None (lock m) (Some m).
Proof. done. Qed.
Lemma wl_unlock m : well_locked (Some m) (unlock m) None.
Proof. done. Qed.
Lemma wl_reads {A} m (f : S -> A) : well_locked (Some m) (reads f) (Some m).
Proof. by simpl. Qed.
Lemma wl_writes f : well_locked (Some Write) (writes f) (Some Write).
Proof. done. Qed.
Lemma wl_freely h f : well_locked h (freely f) h.
Proof. by simpl. Qed.
Lemma wl_peeks {A} h (f : S -> A) : well_locked h (peeks f) h.
Proof. by simpl. Qed.
Lemma wl_unsynced {A} h (f : S -> A) : well_locked h (unsynced f) h.
Proof. by simpl. Qed.
Lemma wl_update {A} (f : S -> S * A) : well_locked (Some Write) (update Writes f) (Some Write).
Proof. by simpl. Qed.
Lemma wl_update_free {A} h (f : S -> S * A) : well_locked h (update Free f) h.
Proof. by simpl. Qed.
Lemma wl_ask h q : well_locked h (ask q) h.
Proof. done. Qed.
Lemma wl_go h t : well_locked h (go t) h.
Proof. done. Qed.
Lemma wl_await r : well_locked None (await r) None.
Proof. done. Qed.
Lemma wl_panic {A} h h' : well_locked h (Panic A) h'.
Proof. done. Qed.
Lemma wl_deferred {A} (p : proc A) :
  well_locked (Some Write) p (Some Write) -> well_locked None (deferred p) None.
Proof. intros Hp. split; [done|]. by eapply wl_bind. Qed.
End Proc.
Arguments Ret {S Q T ans A} a.
Arguments Lock {S Q T ans A} m k.
Arguments Unlock {S Q T ans A} m k.
Arguments Act {S Q T ans A} a f k.
Arguments Ask {S Q T ans A} q k.
Arguments Go {S Q T ans A} t k.
Arguments Await {S Q T ans A} ready k.
Arguments Panic {S Q T ans A}.
Arguments Done {A} a.
Arguments Blocked {A}.
Arguments Waiting {A}.
Arguments Crashed {A}.
Arguments mkLocal {S T}.
Arguments mkConfig {S Q T ans}.

Declare Scope proc_scope.
Delimit Scope proc_scope with proc.
Notation "'let*' x := p 'in' k" := (bind p (fun x => k))
  (at level 200, x name, p at level 100, k at level 200) : proc_scope.
Notation "'let*' ' pat := p 'in' k" := (bind p (fun x => match x with pat => k end))
  (at level 200, pat strict pattern, p at level 100, k at level 200) : proc_scope.
Notation "p ;;; k" := (bind p (fun _ => k))
  (at level 100, k at level 200, right associativity) : proc_scope.

(** Rules for the discipline, by the shape of the body. *)
Create HintDb locks.
#[export] Hint Resolve wl_ret wl_lock wl_unlock wl_reads wl_writes wl_freely wl_peeks wl_unsynced
  wl_update wl_update_free wl_ask wl_go wl_await wl_panic wl_deferred : locks.

(** Walks through a body: a bind is split, a match is analysed, the leaves are
    closed by the rules. *)
Ltac check_locks :=
  lazymatch goal with
  | |- well_locked _ (bind _ _) _ => eapply wl_bind; [check_locks | intros ?; cbn beta; check_locks]
  | |- well_locked _ (deferred _) _ => apply wl_deferred; check_locks
  | |- well_locked ?h (@ask ?S ?Q ?T ?ans ?q) _ => exact (@wl_ask S Q T ans h q)
  | |- well_locked _ (match ?x with _ => _ end) _ => destruct x; check_locks
  | |- well_locked _ (let _ := _ in _) _ => cbv zeta; check_locks
  | |- _ => solve [eauto with locks] || idtac
  end.
