(* ===== verification/ProcLocks.v ===== *)
(** * Soundness of the lock discipline

    When every body obeys [well_locked], each interleaving keeps the lock and
    the bodies in agreement about who holds it ([lock_inv]).  From that: a write
    to the shared state is never concurrent with another access
    ([locked_race_free]), no unlock is fatal, and a configuration that cannot
    move only waits for channels ([locked_progress]). *)

From S2P Require Import Prelude Proc.

Section soundness.
Context {S Q T : Type} {ans : Q -> Type} (body : T -> @proc S Q T ans unit).
Notation proc := (@proc S Q T ans).
Notation config := (@config S Q T ans).
Implicit Types (ts : list (proc unit)) (hs : list (option mode)) (c : config).

(** How many of the threads hold the lock in mode [m]. *)
Definition holders (m : mode) hs : nat := length (filter (fun h => h = Some m) hs).

Definition lock_holders (m : mode) (l : rwlock) : nat :=
  match m, l with
  | Write, WriteHeld => 1
  | Read, ReadHeld n => Datatypes.S n
  | _, _ => 0
  end.

Record lock_inv_at (hs : list (option mode)) (l : rwlock) ts : Prop := {
  inv_locked : Forall2 (fun h p => well_locked h p None) hs ts;
  inv_holders m : holders m hs = lock_holders m l
}.

Definition lock_inv c : Prop := exists hs, lock_inv_at hs (cf_lock c) (cf_threads c).

Lemma holders_insert m hs i h h' :
  hs !! i = Some h ->
  holders m (<[i := h']> hs) + (if decide (h = Some m) then 1 else 0) =
  holders m hs + (if decide (h' = Some m) then 1 else 0).
Proof.
  revert i. induction hs as [|h0 hs IH]; intros [|i] Hi; simplify_eq/=; unfold holders in *.
  - rewrite !filter_cons. repeat case_decide; simplify_eq; simpl; lia.
  - rewrite !filter_cons. specialize (IH i Hi). repeat case_decide; simplify_eq; simpl in *; lia.
Qed.

Lemma holders_app m hs hs' : holders m (hs ++ hs') = holders m hs + holders m hs'.
Proof. unfold holders. by rewrite filter_app, length_app. Qed.

Lemma holders_pos m hs i : hs !! i = Some (Some m) -> 0 < holders m hs.
Proof.
  intros Hi%list_elem_of_lookup_2. unfold holders.
  destruct (filter _ hs) eqn:E; simpl; [|lia].
  assert (Hin : Some m ∈ filter (fun h => h = Some m) hs) by by apply list_elem_of_filter.
  rewrite E in Hin. by apply not_elem_of_nil in Hin.
Qed.

(** Two different holders count twice. *)
Lemma holders_two m hs i j :
  hs !! i = Some (Some m) -> hs !! j = Some (Some m) -> i <> j -> 1 < holders m hs.
Proof.
  intros Hi Hj Hne. pose proof (holders_insert m hs i _ None Hi) as Hc.
  assert (Hj' : <[i := None]> hs !! j = Some (Some m)) by by rewrite list_lookup_insert_ne.
  apply holders_pos in Hj'. repeat case_decide; simplify_eq; lia.
Qed.

Lemma acquire_holders m l l' m' :
  acquire m l = Some l' ->
  lock_holders m' l' = lock_holders m' l + (if decide (m = m') then 1 else 0).
Proof. destruct m, l, m'; intros ?; simplify_eq/=; lia. Qed.

Lemma release_holders m l l' m' :
  release m l = Some l' ->
  lock_holders m' l = lock_holders m' l' + (if decide (m = m') then 1 else 0).
Proof. destruct m, l as [|[|n]|], m'; intros ?; simplify_eq/=; lia. Qed.

Lemma release_held m l : 0 < lock_holders m l -> is_Some (release m l).
Proof. destruct m, l as [|[|n]|]; simpl; try lia; by eexists. Qed.

Lemma inv_held hs l ts i p :
  lock_inv_at hs l ts -> ts !! i = Some p ->
  exists h, hs !! i = Some h /\ well_locked h p None.
Proof.
  intros [Hf _] Hi. destruct (Forall2_lookup_r _ _ _ _ _ Hf Hi) as (h & Hh & Hw). eauto.
Qed.

Hypothesis bodies_locked : forall t, well_locked None (body t) None.

Lemma Forall2_bodies (new : list T) :
  Forall2 (fun h (p : proc unit) => well_locked h p None) (replicate (length new) None)
    (body <$> new).
Proof. induction new; simpl; constructor; auto. Qed.

Lemma holders_none m n : holders m (replicate n None) = 0.
Proof. by induction n. Qed.

(** A thread that moves keeps its discipline; [h'] is how it holds the lock
    afterwards. *)
Lemma thread_step_locked (s : S) l (p : proc unit) s' l' (p' : proc unit) (new : list T) crash h :
  thread_step s l p s' l' p' new crash -> well_locked h p None -> crash = false ->
  exists h', well_locked h' p' None /\
    forall m, lock_holders m l' + (if decide (h = Some m) then 1 else 0) =
              lock_holders m l + (if decide (h' = Some m) then 1 else 0).
Proof.
  intros Hs Hw Hc. destruct Hs as [s l l' m q Ha|s l l' m q Ha|s l m q Ha|s l a f k|s l q k x|s l t q|s l r q Hr|s l];
    simpl in Hw; try done.
  - destruct Hw as [-> Hw]. exists (Some m). split; [done|]. intros m'.
    rewrite (acquire_holders _ _ _ m' Ha). repeat case_decide; simplify_eq; lia.
  - destruct Hw as [-> Hw]. exists None. split; [done|]. intros m'.
    rewrite (release_holders _ _ _ m' Ha). repeat case_decide; simplify_eq; lia.
  - destruct Hw as [_ Hw]. by exists h.
  - by exists h.
  - by exists h.
  - destruct Hw as [_ Hw]. by exists h.
Qed.

Lemma lock_inv_step c c' :
  lock_inv c -> step body c c' -> cf_crashed c' = true \/ lock_inv c'.
Proof.
  intros [hs Hinv] Hs. destruct Hs as [i s l ts p s' l' p' new crash Hi Hs].
  destruct crash; [by left|right]. simpl in *.
  destruct (inv_held _ _ _ _ _ Hinv Hi) as (h & Hh & Hw).
  destruct (thread_step_locked _ _ _ _ _ _ _ _ _ Hs Hw eq_refl) as (h' & Hw' & Hcnt).
  exists (<[i := h']> hs ++ replicate (length new) None). split; simpl.
  - apply Forall2_app; [|apply Forall2_bodies].
    apply Forall2_insert; [apply (inv_locked _ _ _ Hinv)|done].
  - intros m. rewrite holders_app, holders_none.
    pose proof (holders_insert m hs i h h' Hh) as Hi'.
    rewrite (inv_holders _ _ _ Hinv) in Hi'. specialize (Hcnt m). lia.
Qed.

(** An unlock by a thread that obeys the discipline is never fatal, so only a
    panic of the program stops it. *)
Lemma locked_unlock c i m p :
  lock_inv c -> cf_threads c !! i = Some (Unlock m p) -> is_Some (release m (cf_lock c)).
Proof.
  intros [hs Hinv] Hi. destruct (inv_held _ _ _ _ _ Hinv Hi) as (h & Hh & [-> _]).
  apply release_held. rewrite <- (inv_holders _ _ _ Hinv). by eapply holders_pos.
Qed.

Lemma lock_inv_start s ts :
  Forall (fun p : proc unit => well_locked None p None) ts -> lock_inv (start_config s ts).
Proof.
  intros Hts. exists (replicate (length ts) None). split; simpl.
  - induction Hts; simpl; constructor; auto.
  - intros m. rewrite holders_none. by destruct m.
Qed.

Lemma crashed_stuck c c' : cf_crashed c = true -> ~ step body c c'.
Proof. intros Hc Hs. by destruct Hs. Qed.

Lemma lock_inv_reachable s ts c :
  Forall (fun p : proc unit => well_locked None p None) ts ->
  rtc (step body) (start_config s ts) c -> cf_crashed c = false -> lock_inv c.
Proof.
  intros Hts Hr. revert Hr. apply (rtc_ind_r (fun c => cf_crashed c = false -> lock_inv c)).
  - intros _. by apply lock_inv_start.
  - intros c1 c2 _ Hs IH Hc. assert (Hc1 : cf_crashed c1 = false).
    { destruct (cf_crashed c1) eqn:E; [|done]. by apply (crashed_stuck _ c2) in E. }
    destruct (lock_inv_step c1 c2 (IH Hc1) Hs) as [Hx|]; [congruence|done].
Qed.

(** ** Panics *)

Fixpoint panic_free {A} (p : proc A) : Prop :=
  match p with
  | Ret _ => True
  | Lock _ p | Unlock _ p | Go _ p | Await _ p => panic_free p
  | Act _ _ k => forall s, panic_free (k s)
  | Ask _ k => forall x, panic_free (k x)
  | Panic => False
  end.

Lemma pf_bind {A B} (p : proc A) (k : A -> proc B) :
  panic_free p -> (forall a, panic_free (k a)) -> panic_free (bind p k).
Proof. intros Hp Hk. induction p; simpl in *; auto. Qed.

(** Bodies that obey the discipline and do not panic never stop the program. *)
Lemma no_crash_reachable s ts c :
  (forall t, panic_free (body t)) ->
  Forall (fun p : proc unit => well_locked None p None) ts -> Forall panic_free ts ->
  rtc (step body) (start_config s ts) c ->
  cf_crashed c = false /\ lock_inv c.
Proof.
  intros Hb Hts Hpf Hr.
  assert (Hc : cf_crashed c = false /\ Forall panic_free (cf_threads c)).
  { pose proof Hr as Hr'. revert Hr'.
    apply (rtc_ind_r (fun c => cf_crashed c = false /\ Forall panic_free (cf_threads c))); [done|].
    intros c1 c2 Hr1 Hs [Hc Hp]. pose proof (lock_inv_reachable _ _ _ Hts Hr1 Hc) as Hinv.
    destruct Hs as [i s1 l ts1 p s2 l' p' new crash Hi Ht]; simpl in *.
    pose proof (Forall_lookup_1 _ _ _ _ Hp Hi) as Hpi.
    assert (Hgo : crash = false /\ panic_free p').
    { destruct Ht as [| |? ? m q Hrel| | | | |]; simpl in Hpi; try done; auto.
      destruct (locked_unlock _ i m q Hinv Hi) as [? ?]. simpl in *. congruence. }
    destruct Hgo as [-> Hp']. split; [done|]. apply Forall_app; split.
    - by apply Forall_insert.
    - apply Forall_fmap, Forall_forall. intros t _. apply Hb. }
  split; [apply Hc|]. eapply lock_inv_reachable; [done|exact Hr|apply Hc].
Qed.

(** ** Races *)

(** The thread is about to access the shared state. *)
Definition accesses (a : access) (p : proc unit) : Prop :=
  match p with Act a' _ _ => a' = a | _ => False end.

Lemma accesses_held a p h : accesses a p -> well_locked h p None ->
  match a with Free | Unsynced => True | Reads => exists m, h = Some m | Writes => h = Some Write end.
Proof.
  destruct p; simpl; try done. intros -> [Hw _].
  destruct a; [done|done| |done]. destruct h as [m|]; [by exists m|]. by destruct Hw.
Qed.

(** A thread about to write is the only one about to read under the lock or to
    write. *)
Lemma locked_race_free c i j p q a :
  lock_inv c -> cf_threads c !! i = Some p -> cf_threads c !! j = Some q ->
  accesses Writes p -> accesses a q -> a = Reads \/ a = Writes -> i = j.
Proof.
  intros [hs Hinv] Hi Hj Hp Hq Ha.
  destruct (inv_held _ _ _ _ _ Hinv Hi) as (h & Hh & Hw).
  destruct (inv_held _ _ _ _ _ Hinv Hj) as (h' & Hh' & Hw').
  apply (accesses_held _ _ _ Hp) in Hw as ->.
  apply (accesses_held _ _ _ Hq) in Hw'.
  destruct (decide (i = j)) as [|Hne]; [done|exfalso].
  assert (exists m, h' = Some m) as [m ->].
  { destruct Ha as [->| ->]; [done|by exists Write]. }
  pose proof (inv_holders _ _ _ Hinv Write) as Hcw.
  pose proof (holders_pos _ _ _ Hh) as Hpos.
  destruct m.
  - pose proof (holders_two _ _ _ _ Hh Hh' Hne). destruct (cf_lock c); simpl in *; lia.
  - pose proof (holders_pos _ _ _ Hh') as Hr. rewrite (inv_holders _ _ _ Hinv Read) in Hr.
    destruct (cf_lock c); simpl in *; lia.
Qed.

(** ** Progress *)

Definition finished (p : proc unit) : Prop := exists a, p = Ret a.
Definition waiting (s : S) (p : proc unit) : Prop :=
  exists r k, p = Await r k /\ r s = false.

(** What every thread can do. *)
Lemma thread_cases s l p :
  (forall q : Q, inhabited (ans q)) ->
  finished p \/ waiting s p \/ (exists m k, p = Lock m k /\ acquire m l = None) \/
  exists s' l' p' new crash, thread_step s l p s' l' p' new crash.
Proof.
  intros Hans. destruct p as [a|m p|m p|a f k|q k|t p|r p|].
  - left. by exists a.
  - destruct (acquire m l) eqn:E; [|right; right; left; eauto].
    do 3 right. repeat eexists. by apply ts_lock.
  - do 3 right. destruct (release m l) eqn:E; repeat eexists; [by apply ts_unlock|by apply ts_unlock_fatal].
  - do 3 right. repeat eexists. apply ts_act.
  - do 3 right. destruct (Hans q) as [x]. repeat eexists. by apply (ts_ask _ _ _ _ x).
  - do 3 right. repeat eexists. apply ts_go.
  - destruct (r s) eqn:E; [|right; left; by exists r, p].
    do 3 right. repeat eexists. by apply ts_await.
  - do 3 right. repeat eexists. apply ts_panic.
Qed.

(** The lock has a holder whenever it is not free. *)
Lemma lock_holder hs l ts m :
  lock_inv_at hs l ts -> acquire m l = None -> exists i m', hs !! i = Some (Some m').
Proof.
  intros Hinv Ha.
  assert (Hpos : exists m', 0 < holders m' hs).
  { destruct l; [by destruct m| |].
    - exists Read. rewrite (inv_holders _ _ _ Hinv). simpl. lia.
    - exists Write. rewrite (inv_holders _ _ _ Hinv). simpl. lia. }
  destruct Hpos as [m' Hpos]. unfold holders in Hpos.
  destruct (filter _ hs) as [|h l'] eqn:E; simpl in Hpos; [lia|].
  assert (Hin : h ∈ filter (fun h => h = Some m') hs) by (rewrite E; by left).
  apply list_elem_of_filter in Hin as [-> Hin].
  apply list_elem_of_lookup in Hin as [i Hi]. eauto.
Qed.

(** A configuration that obeys the discipline and cannot move has only threads
    that are done or wait for a channel: no deadlock on the lock. *)
Lemma locked_progress c :
  (forall q : Q, inhabited (ans q)) -> lock_inv c -> cf_crashed c = false ->
  (forall p, p ∈ cf_threads c -> finished p \/ waiting (cf_shared c) p) \/
  exists c', step body c c'.
Proof.
  intros Hans [hs Hinv] Hc. destruct c as [s l ts crash]; simpl in *; subst.
  assert (Hmove : forall i p s' l' p' new crash, ts !! i = Some p ->
    thread_step s l p s' l' p' new crash -> exists c', step body (mkConfig s l ts false) c').
  { intros. eexists. by eapply step_thread. }
  assert (Hdec : (exists i p, ts !! i = Some p /\ ~ (finished p \/ waiting s p)) \/
    forall p, p ∈ ts -> finished p \/ waiting s p).
  { clear - Hans. induction ts as [|p ts IH]; [right; by intros p ?%not_elem_of_nil|].
    assert (Hp : (finished p \/ waiting s p) \/ ~ (finished p \/ waiting s p)).
    { destruct p as [a| | | | | |r p|]; try (right; intros [[? ?]|(? & ? & ? & ?)]; discriminate).
      - left. left. by exists a.
      - destruct (r s) eqn:E; [|left; right; by exists r, p].
        right. intros [[? ?]|(? & ? & ? & ?)]; congruence. }
    destruct IH as [(i & q & Hi & Hq)|IH]; [left; by exists (Datatypes.S i), q|].
    destruct Hp as [Hp|Hp]; [|left; by exists 0, p].
    right. intros q [->|Hq]%elem_of_cons; auto. }
  destruct Hdec as [(i & p & Hi & Hp)|]; [right|by left].
  destruct (thread_cases s l p Hans) as [Hf|[Hf|[(m & k & -> & Ha)|(? & ? & ? & ? & ? & Hs)]]];
    [tauto|tauto| |by eapply Hmove].
  destruct (lock_holder _ _ _ _ Hinv Ha) as (j & m' & Hj).
  destruct (Forall2_lookup_l _ _ _ _ _ (inv_locked _ _ _ Hinv) Hj) as (q & Hq & Hw).
  destruct (thread_cases s l q Hans) as [[? ->]|[(? & ? & -> & _)|[(? & ? & -> & _)|(? & ? & ? & ? & ? & Hs)]]];
    simpl in Hw; [done|by destruct Hw|by destruct Hw|by eapply Hmove].
Qed.
End soundness.

(** ** Invariants of the shared state

    A property every single access of every body keeps holds in every
    interleaving.  [ok] restricts the calls that are started. *)
Section invariants.
Context {S Q T : Type} {ans : Q -> Type} (I : S -> Prop) (ok : T -> Prop).
Notation proc := (@proc S Q T ans).

Fixpoint acts_keep {A} (p : proc A) : Prop :=
  match p with
  | Ret _ | Panic => True
  | Lock _ p | Unlock _ p | Await _ p => acts_keep p
  | Go t p => ok t /\ acts_keep p
  | Act _ f k => forall s, I s -> I (f s) /\ acts_keep (k s)
  | Ask _ k => forall x, acts_keep (k x)
  end.

Lemma ak_bind {A B} (p : proc A) (k : A -> proc B) :
  acts_keep p -> (forall a, acts_keep (k a)) -> acts_keep (bind p k).
Proof. intros Hp Hk. induction p; simpl in *; naive_solver. Qed.

Lemma ak_ret {A} (a : A) : acts_keep (Ret a).
Proof. done. Qed.
Lemma ak_lock m : acts_keep (lock m).
Proof. done. Qed.
Lemma ak_unlock m : acts_keep (unlock m).
Proof. done. Qed.
Lemma ak_reads {A} (f : S -> A) : acts_keep (reads f).
Proof. by simpl. Qed.
Lemma ak_peeks {A} (f : S -> A) : acts_keep (peeks f).
Proof. by simpl. Qed.
Lemma ak_unsynced {A} (f : S -> A) : acts_keep (unsynced f).
Proof. by simpl. Qed.
Lemma ak_ask q : acts_keep (ask q).
Proof. by simpl. Qed.
Lemma ak_go t : ok t -> acts_keep (go t).
Proof. by simpl. Qed.
Lemma ak_await r : acts_keep (await r).
Proof. done. Qed.
Lemma ak_panic {A} : acts_keep (Panic (A := A)).
Proof. done. Qed.
Lemma ak_writes f : (forall s, I s -> I (f s)) -> acts_keep (writes f).
Proof. simpl. auto. Qed.
Lemma ak_freely f : (forall s, I s -> I (f s)) -> acts_keep (freely f).
Proof. simpl. auto. Qed.
Lemma ak_update {A} a (f : S -> S * A) : (forall s, I s -> I (f s).1) -> acts_keep (update a f).
Proof. simpl. auto. Qed.
Lemma ak_deferred {A} (p : proc A) : acts_keep p -> acts_keep (deferred p).
Proof. intros Hp. by apply ak_bind. Qed.

Lemma steps_keep (body : T -> proc unit) s ts c :
  (forall t, ok t -> acts_keep (body t)) -> Forall acts_keep ts -> I s ->
  rtc (step body) (start_config s ts) c ->
  I (cf_shared c) /\ Forall acts_keep (cf_threads c).
Proof.
  intros Hb Hts Hs. apply (rtc_ind_r (fun c => I (cf_shared c) /\ Forall acts_keep (cf_threads c)));
    [done|].
  intros c1 c2 _ Hst [HI Hk]. destruct Hst as [i s1 l ts1 p s2 l' p' new crash Hi Ht]; simpl in *.
  pose proof (Forall_lookup_1 _ _ _ _ Hk Hi) as Hp.
  assert (Hgo : I s2 /\ acts_keep p' /\ Forall ok new).
  { destruct Ht; simpl in Hp; split_and!; naive_solver. }
  destruct Hgo as (? & ? & Hn). split; [done|]. apply Forall_app; split.
  - by apply Forall_insert.
  - apply Forall_fmap. by eapply Forall_impl.
Qed.
End invariants.

Create HintDb acts.
#[export] Hint Resolve ak_ret ak_lock ak_unlock ak_reads ak_peeks ak_unsynced ak_ask ak_await
  ak_panic : acts.

(** Leaves one goal for each access of the body that changes the state. *)
Ltac check_acts :=
  lazymatch goal with
  | |- acts_keep _ _ (bind _ _) => eapply ak_bind; [check_acts | intros ?; cbn beta; check_acts]
  | |- acts_keep _ _ (deferred _) => apply ak_deferred; check_acts
  | |- acts_keep _ _ (discard _) => apply ak_bind; [check_acts | done]
  | |- acts_keep ?I ?ok (@ask ?S ?Q ?T ?ans ?q) => exact (@ak_ask S Q T ans I ok q)
  | |- acts_keep _ _ (go _) => apply ak_go
  | |- acts_keep _ _ (writes _) => apply ak_writes; intros ? ?
  | |- acts_keep _ _ (freely _) => apply ak_freely; intros ? ?
  | |- acts_keep _ _ (update _ _) => apply ak_update; intros ? ?
  | |- acts_keep _ _ (match ?x with _ => _ end) => destruct x; check_acts
  | |- acts_keep _ _ (let _ := _ in _) => cbv zeta; check_acts
  | |- _ => solve [eauto with acts] || idtac
  end.

(** ** Rely and guarantee

    A body may also depend on how the shared state changes between two of its
    accesses.  [R] is what every access does to the state; what a body has seen
    in one state it knows, up to [R], in every later one.  [relies p s Post]: from
    [s], and with the others doing what [R] allows, the accesses of [p] keep [I]
    and obey [R], and [p] ends with [Post]. *)
Section rely.
Context {S Q T : Type} {ans : Q -> Type} (I : S -> Prop) (R : S -> S -> Prop) `{!PreOrder R}.
Notation proc := (@proc S Q T ans).

Fixpoint relies {A} (p : proc A) (s0 : S) (Post : A -> S -> Prop) : Prop :=
  match p with
  | Ret a => forall s, R s0 s -> Post a s
  | Panic => True
  | Lock _ p | Unlock _ p | Await _ p | Go _ p => relies p s0 Post
  | Act _ f k => forall s, I s -> R s0 s -> I (f s) /\ R s (f s) /\ relies (k s) (f s) Post
  | Ask _ k => forall x, relies (k x) s0 Post
  end.

Lemma relies_later {A} (p : proc A) s s' Post : relies p s Post -> R s s' -> relies p s' Post.
Proof.
  revert s s'. induction p as [a|m p IH|m p IH|b f k IH|q k IH|t p IH|r p IH|]; cbn; intros s1 s2 Hp Hr; eauto.
  - intros s3 ?. apply Hp. by etrans.
  - intros s3 HI ?. apply Hp; [done|by etrans].
Qed.

Lemma relies_bind {A B} (p : proc A) (k : A -> proc B) s Post :
  relies p s (fun a s => relies (k a) s Post) -> relies (bind p k) s Post.
Proof.
  revert s. induction p as [a|m p IH|m p IH|b f p IH|q p IH|t p IH|r p IH|]; cbn; intros s1 Hp; eauto; [by apply Hp|].
  intros s2 HI Hr. destruct (Hp s2 HI Hr) as (? & ? & ?). eauto.
Qed.

Lemma relies_ret {A} (a : A) s (Post : A -> S -> Prop) : (forall s', R s s' -> Post a s') -> relies (Ret a) s Post.
Proof. done. Qed.

Lemma relies_true {A} (a : A) s : relies (Ret a) s (fun _ _ => True).
Proof. done. Qed.

(** A read without the lock, and the rest of the body after it. *)
Lemma relies_see {A B} (f : S -> A) (k : A -> proc B) s Post :
  (forall s1, I s1 -> R s s1 -> relies (k (f s1)) s1 Post) -> relies (bind (unsynced f) k) s Post.
Proof. intros H s1 HI Hr. split_and!; [done|reflexivity|]. by apply H. Qed.

Lemma relies_mono {A} (p : proc A) s (Post Post' : A -> S -> Prop) :
  (forall a s, Post a s -> Post' a s) -> relies p s Post -> relies p s Post'.
Proof.
  intros HP. revert s. induction p as [a|m p IH|m p IH|b f k IH|q k IH|t p IH|r p IH|]; cbn; intros s1 Hp; eauto.
  intros s2 HI Hr. destruct (Hp s2 HI Hr) as (? & ? & ?). eauto.
Qed.

(** Nothing has to be known of the result. *)
Lemma relies_any {A B} (p : proc A) (k : A -> proc B) s Post :
  relies p s (fun _ _ => True) -> (forall a s, relies (k a) s Post) -> relies (bind p k) s Post.
Proof. intros Hp Hk. apply relies_bind. eapply relies_mono; [|exact Hp]. intros a s' _. apply Hk. Qed.

Lemma steps_rely (body : T -> proc unit) s ts c :
  (forall t s, relies (body t) s (fun _ _ => True)) -> Forall (fun p => relies p s (fun _ _ => True)) ts -> I s ->
  rtc (step body) (start_config s ts) c ->
  I (cf_shared c) /\ R s (cf_shared c) /\ Forall (fun p => relies p (cf_shared c) (fun _ _ => True)) (cf_threads c).
Proof.
  intros Hb Hts Hs.
  apply (rtc_ind_r (fun c => I (cf_shared c) /\ R s (cf_shared c) /\ Forall (fun p => relies p (cf_shared c) (fun _ _ => True)) (cf_threads c)));
    [done|].
  intros c1 c2 _ Hst (HI & HR & Hk). destruct Hst as [i s1 l ts1 p s2 l' p' new crash Hi Ht]; simpl in *.
  pose proof (Forall_lookup_1 _ _ _ _ Hk Hi) as Hp. cbn beta in Hp.
  assert (Hgo : I s2 /\ R s1 s2 /\ relies p' s2 (fun _ _ => True)).
  { destruct Ht; simpl in Hp; try (split; [done|split; [reflexivity|first [done|apply Hp]]]). apply (Hp _ HI). reflexivity. }
  destruct Hgo as (? & Hr & ?). split_and!; [done|by etrans|]. apply Forall_app; split.
  - apply Forall_insert; [|done]. eapply Forall_impl; [exact Hk|]. intros q Hq. exact (relies_later q _ _ _ Hq Hr).
  - apply Forall_fmap, Forall_forall. intros t _. apply Hb.
Qed.
End rely.

(** Walks through a body that does not panic. *)
Ltac check_panics :=
  lazymatch goal with
  | |- panic_free (bind _ _) => apply pf_bind; [check_panics | intros ?; cbn beta; check_panics]
  | |- panic_free (deferred _) => unfold deferred; check_panics
  | |- panic_free (Lock _ ?p) => change (panic_free p); check_panics
  | |- panic_free (match ?x with _ => _ end) => destruct x; check_panics
  | |- panic_free (let _ := _ in _) => cbv zeta; check_panics
  | |- _ => solve [auto] || solve [simpl; auto] || idtac
  end.
