(* ===== verification/ProcWp.v ===== *)
(** * What a body does alone

    [wp wait p s l Q]: run alone from the shared state [s] with the lock as [l] says,
    and whatever the environment answers, [p] neither blocks on the lock nor
    panics, and when it returns, [Q] holds of its result, the state, the lock
    and the calls it started.  [wp_exec] relates it to [exec]. *)

From S2P Require Import Prelude Proc.

Section wp.
Context {S Q T : Type} {ans : Q -> Type} (wait : Prop).
Notation proc := (@proc S Q T ans).
Implicit Types (s : S) (l : rwlock) (new : list T).

Fixpoint wp {A} (p : proc A) s l (Post : A -> S -> rwlock -> list T -> Prop) : Prop :=
  match p with
  | Ret a => Post a s l []
  | Lock m p => match acquire m l with Some l' => wp p s l' Post | None => False end
  | Unlock m p => match release m l with Some l' => wp p s l' Post | None => False end
  | Act _ f k => wp (k s) (f s) l Post
  | Ask _ k => forall x, wp (k x) s l Post
  | Go t p => wp p s l (fun a s' l' new => Post a s' l' (t :: new))
  | Await r p => if r s then wp p s l Post else wait
  | Panic => False
  end.

Lemma wp_mono {A} (p : proc A) s l (P1 P2 : A -> S -> rwlock -> list T -> Prop) :
  wp p s l P1 -> (forall a s' l' new, P1 a s' l' new -> P2 a s' l' new) -> wp p s l P2.
Proof.
  revert s l P1 P2. induction p; intros s l P1 P2 Hw Himp; simpl in *; eauto.
  - destruct (acquire m l); eauto.
  - destruct (release m l); eauto.
  - destruct (ready s); eauto.
Qed.

Lemma wp_bind {A B} (p : proc A) (k : A -> proc B) s l Post :
  wp p s l (fun a s' l' new => wp (k a) s' l' (fun b s'' l'' new' => Post b s'' l'' (new ++ new'))) ->
  wp (bind p k) s l Post.
Proof.
  revert s l Post. induction p; intros s l Post Hw; simpl in *; auto.
  - destruct (acquire m l); auto.
  - destruct (release m l); auto.
  - destruct (ready s); auto.
Qed.

(** The rules for single accesses, for bodies that are walked through by hand. *)
Lemma wp_ret {A} (a : A) s l Post : Post a s l [] -> wp (Ret a) s l Post.
Proof. done. Qed.
Lemma wp_act {A} f s l (Post : A -> S -> rwlock -> list T -> Prop) a k :
  wp (k s) (f s) l Post -> wp (Act a f k) s l Post.
Proof. done. Qed.

Lemma wp_lock m s l l' (Post : unit -> S -> rwlock -> list T -> Prop) :
  acquire m l = Some l' -> Post tt s l' [] -> wp (lock m) s l Post.
Proof. intros Hl HP. simpl. by rewrite Hl. Qed.
Lemma wp_unlock m s l l' (Post : unit -> S -> rwlock -> list T -> Prop) :
  release m l = Some l' -> Post tt s l' [] -> wp (unlock m) s l Post.
Proof. intros Hl HP. simpl. by rewrite Hl. Qed.

(** The body of a call that holds the lock. *)
Lemma wp_deferred {A} (p : proc A) s Post :
  wp p s WriteHeld (fun a s' l' new => l' = WriteHeld /\ Post a s' Unheld new) ->
  wp (deferred p) s Unheld Post.
Proof.
  intros Hw. simpl. apply wp_bind. eapply wp_mono; [exact Hw|].
  intros a s' l' new [-> H]. simpl. by rewrite app_nil_r.
Qed.

(** The run of [exec] ends as the postcondition says, or waits for a channel. *)
Theorem wp_exec {A} env (p : proc A) (c : local) Post :
  wp p (shared c) (held_lock c) Post ->
  match (exec env p c).2 with
  | Done a => exists new, spawned (exec env p c).1 = spawned c ++ new /\
                Post a (shared (exec env p c).1) (held_lock (exec env p c).1) new
  | Waiting => wait
  | Blocked | Crashed => False
  end.
Proof.
  revert c Post. induction p; intros c Post Hw; simpl in *.
  - exists []. by rewrite app_nil_r.
  - destruct (acquire m (held_lock c)) as [l'|]; [|done]. by apply (IHp (mkLocal (shared c) l' _ _)).
  - destruct (release m (held_lock c)) as [l'|]; [|done]. by apply (IHp (mkLocal (shared c) l' _ _)).
  - by apply (H (shared c) (mkLocal (f (shared c)) (held_lock c) _ _)).
  - apply (H (env (asked c) q) (mkLocal (shared c) (held_lock c) (spawned c) _)). apply Hw.
  - specialize (IHp (mkLocal (shared c) (held_lock c) (spawned c ++ [t]) (asked c)) _ Hw).
    destruct (exec env p _).2; [|done..]. destruct IHp as (new & -> & HP). simpl.
    exists (t :: new). split; [by rewrite <- app_assoc|done].
  - destruct (ready (shared c)) eqn:E; [|done]. by apply IHp.
  - done.
Qed.

(** ** Bodies that only move along a relation on the state *)

(** [calm l p l']: from a state in [P], and with the lock as [l] says, [p] leads
    along [R], starts only calls that [quiet] allows and leaves the lock as [l']
    says. *)
Context (P : S -> Prop) (R : S -> S -> Prop) (quiet : T -> Prop).

Definition calm {A} l (p : proc A) l' : Prop :=
  forall s, P s -> wp p s l (fun _ s' l'' new => R s s' /\ l'' = l' /\ Forall quiet new).

(** What makes such bodies compose. *)
Class Frame : Prop := {
  frame_order :: PreOrder R;
  frame_along s s' : P s -> R s s' -> P s'
}.
Context `{!Frame}.

Lemma calm_bind {A B} l l1 l2 (p : proc A) (k : A -> proc B) :
  calm l p l1 -> (forall a, calm l1 (k a) l2) -> calm l (bind p k) l2.
Proof.
  intros Hp Hk s Hs. apply wp_bind. eapply wp_mono; [by apply Hp|].
  intros a s' l' new (HR & -> & Hq). eapply wp_mono; [by eapply Hk, frame_along|].
  intros b s'' l'' new' (HR' & -> & Hq'). split_and!; [by etrans|done|]. by apply Forall_app.
Qed.

(** A calm part before the rest of a body. *)
Lemma wp_calm {A B} l l1 (p : proc A) (k : A -> proc B) s Post :
  calm l p l1 -> P s ->
  (forall a s1 new, R s s1 -> P s1 -> Forall quiet new ->
     wp (k a) s1 l1 (fun b s' l' new' => Post b s' l' (new ++ new'))) ->
  wp (bind p k) s l Post.
Proof.
  intros Hp Hs Hk. apply wp_bind. eapply wp_mono; [by apply Hp|].
  intros a s' l' new (HR & -> & Hq). apply Hk; [done|by eapply frame_along|done].
Qed.

Lemma calm_ret {A} l (a : A) : calm l (Ret a) l.
Proof. by intros s _. Qed.
Lemma calm_reads {A} l (f : S -> A) : calm l (reads f) l.
Proof. by intros s _. Qed.
Lemma calm_peeks {A} l (f : S -> A) : calm l (peeks f) l.
Proof. by intros s _. Qed.
Lemma calm_unsynced {A} l (f : S -> A) : calm l (unsynced f) l.
Proof. by intros s _. Qed.
Lemma calm_ask l q : calm l (ask q) l.
Proof. by intros s _. Qed.
Lemma calm_go l t : quiet t -> calm l (go t) l.
Proof. intros Ht s _. split_and!; [done..|by apply Forall_singleton]. Qed.
Lemma calm_writes l f : (forall s, P s -> R s (f s)) -> calm l (writes f) l.
Proof. intros Hf s Hs. simpl. auto. Qed.
Lemma calm_freely l f : (forall s, P s -> R s (f s)) -> calm l (freely f) l.
Proof. intros Hf s Hs. simpl. auto. Qed.
Lemma calm_update {A} l a (f : S -> S * A) : (forall s, P s -> R s (f s).1) -> calm l (update a f) l.
Proof. intros Hf s Hs. simpl. auto. Qed.
Lemma calm_await l r : wait -> calm l (await r) l.
Proof. intros Hw s _. simpl. by destruct (r s). Qed.
Lemma calm_lock m l : acquire m Unheld = Some l -> calm Unheld (lock m) l.
Proof. intros Hl s _. simpl. by rewrite Hl. Qed.
Lemma calm_unlock m l : acquire m Unheld = Some l -> calm l (unlock m) Unheld.
Proof. intros Hl s _. simpl. by destruct m; simpl in Hl; simplify_eq. Qed.
Lemma calm_deferred {A} (p : proc A) : calm WriteHeld p WriteHeld -> calm Unheld (deferred p) Unheld.
Proof.
  intros Hp s Hs. apply wp_deferred. eapply wp_mono; [by apply Hp|]. intros a s' l' new (? & -> & ?). done.
Qed.
Lemma calm_discard {A} l l' (p : proc A) : calm l p l' -> calm l (discard p) l'.
Proof. intros Hp. eapply calm_bind; [exact Hp|]. intros _. apply calm_ret. Qed.
End wp.

Lemma wp_weaken {S Q T} {ans : Q -> Type} (w w' : Prop) {A} (p : @proc S Q T ans A) s l Post :
  (w -> w') -> wp w p s l Post -> wp w' p s l Post.
Proof.
  intros Hw. revert s l Post. induction p; intros s l Post; simpl; auto.
  - destruct (acquire m l); auto.
  - destruct (release m l); auto.
  - destruct (ready s); auto.
Qed.

Lemma calm_weaken {S Q T} {ans : Q -> Type} (w : Prop) P R quiet {A} l (p : @proc S Q T ans A) l' :
  calm False P R quiet l p l' -> calm w P R quiet l p l'.
Proof. intros Hp s Hs. apply (wp_weaken False); [done|]. by apply Hp. Qed.

(** [wp_given given] assumes of each answer what [given] says of it.  With
    [answered env], the answers are those of one environment. *)
Section given.
Context {S Q T : Type} {ans : Q -> Type} (wait : Prop) (given : forall q, ans q -> Prop).
Notation proc := (@proc S Q T ans).
Implicit Types (s : S) (l : rwlock).

Fixpoint wp_given {A} (p : proc A) s l (Post : A -> S -> rwlock -> list T -> Prop) : Prop :=
  match p with
  | Ret a => Post a s l []
  | Lock m p => match acquire m l with Some l' => wp_given p s l' Post | None => False end
  | Unlock m p => match release m l with Some l' => wp_given p s l' Post | None => False end
  | Act _ f k => wp_given (k s) (f s) l Post
  | Ask q k => forall x, given q x -> wp_given (k x) s l Post
  | Go t p => wp_given p s l (fun a s' l' new => Post a s' l' (t :: new))
  | Await r p => if r s then wp_given p s l Post else wait
  | Panic => False
  end.

Lemma wp_given_of {A} (p : proc A) s l Post : wp wait p s l Post -> wp_given p s l Post.
Proof.
  revert s l Post. induction p; intros s l Post Hw; simpl in *; auto.
  - destruct (acquire m l); auto.
  - destruct (release m l); auto.
  - destruct (ready s); auto.
Qed.

Lemma wp_given_mono {A} (p : proc A) s l (P1 P2 : A -> S -> rwlock -> list T -> Prop) :
  wp_given p s l P1 -> (forall a s' l' new, P1 a s' l' new -> P2 a s' l' new) -> wp_given p s l P2.
Proof.
  revert s l P1 P2. induction p; intros s l P1 P2 Hw Himp; simpl in *; eauto.
  - destruct (acquire m l); eauto.
  - destruct (release m l); eauto.
  - destruct (ready s); eauto.
Qed.

Lemma wp_given_bind {A B} (p : proc A) (k : A -> proc B) s l Post :
  wp_given p s l (fun a s' l' new => wp_given (k a) s' l' (fun b s'' l'' new' => Post b s'' l'' (new ++ new'))) ->
  wp_given (bind p k) s l Post.
Proof.
  revert s l Post. induction p; intros s l Post Hw; simpl in *; auto.
  - destruct (acquire m l); auto.
  - destruct (release m l); auto.
  - destruct (ready s); auto.
Qed.

Lemma wp_given_ret {A} (a : A) s l Post : Post a s l [] -> wp_given (Ret a) s l Post.
Proof. done. Qed.
Lemma wp_given_act {A} f s l (Post : A -> S -> rwlock -> list T -> Prop) a k :
  wp_given (k s) (f s) l Post -> wp_given (Act a f k) s l Post.
Proof. done. Qed.
Lemma wp_given_ask q s l (Post : ans q -> S -> rwlock -> list T -> Prop) :
  (forall x, given q x -> Post x s l []) -> wp_given (ask q) s l Post.
Proof. done. Qed.

Lemma wp_given_deferred {A} (p : proc A) s Post :
  wp_given p s WriteHeld (fun a s' l' new => l' = WriteHeld /\ Post a s' Unheld new) ->
  wp_given (deferred p) s Unheld Post.
Proof.
  intros Hw. simpl. apply wp_given_bind. eapply wp_given_mono; [exact Hw|].
  intros a s' l' new [-> H]. simpl. by rewrite app_nil_r.
Qed.

Theorem wp_given_exec {A} env (p : proc A) (c : local) Post :
  (forall n q, given q (env n q)) -> wp_given p (shared c) (held_lock c) Post ->
  match (exec env p c).2 with
  | Done a => exists new, spawned (exec env p c).1 = spawned c ++ new /\
                Post a (shared (exec env p c).1) (held_lock (exec env p c).1) new
  | Waiting => wait
  | Blocked | Crashed => False
  end.
Proof.
  intros Henv. revert c Post. induction p; intros c Post Hw; simpl in *.
  - exists []. by rewrite app_nil_r.
  - destruct (acquire m (held_lock c)) as [l'|]; [|done]. by apply (IHp (mkLocal (shared c) l' _ _)).
  - destruct (release m (held_lock c)) as [l'|]; [|done]. by apply (IHp (mkLocal (shared c) l' _ _)).
  - by apply (H (shared c) (mkLocal (f (shared c)) (held_lock c) _ _)).
  - apply (H (env (asked c) q) (mkLocal (shared c) (held_lock c) (spawned c) _)). by apply Hw.
  - specialize (IHp (mkLocal (shared c) (held_lock c) (spawned c ++ [t]) (asked c)) _ Hw).
    destruct (exec env p _).2; [|done..]. destruct IHp as (new & -> & HP). simpl.
    exists (t :: new). split; [by rewrite <- app_assoc|done].
  - destruct (ready (shared c)) eqn:E; [|done]. by apply IHp.
  - done.
Qed.
End given.

(** [x] is an answer that [env] gives to [q]. *)
Definition answered {Q} {ans : Q -> Type} (env : nat -> forall q, ans q) (q : Q) (x : ans q) : Prop := exists n, env n q = x.

Create HintDb calm.
#[export] Hint Resolve calm_ret calm_reads calm_peeks calm_unsynced calm_discard : calm.
#[export] Hint Extern 1 (Frame _ _) => exact _ : calm.
#[export] Hint Extern 5 (calm ?w _ _ _ _ _ _) =>
  lazymatch w with False => fail | _ => apply calm_weaken end : calm.

(** Leaves one goal for each access that changes the state and for each call
    that is started. *)
Ltac check_calm :=
  lazymatch goal with
  | |- calm _ _ _ _ _ (bind _ _) _ => eapply calm_bind; [exact _ | check_calm | intros ?; cbn beta; check_calm]
  | |- calm _ _ _ _ _ (deferred _) _ => apply calm_deferred; check_calm
  | |- calm ?w ?P ?R ?q ?l (@ask _ _ _ _ ?x) _ => exact (calm_ask w P R q l x)
  | |- calm _ _ _ _ _ (writes _) _ => apply calm_writes; intros ? ?
  | |- calm _ _ _ _ _ (freely _) _ => apply calm_freely; intros ? ?
  | |- calm _ _ _ _ _ (update _ _) _ => apply calm_update; intros ? ?
  | |- calm _ _ _ _ _ (lock _) _ => apply calm_lock; [exact _ | reflexivity]
  | |- calm _ _ _ _ _ (unlock _) _ => apply calm_unlock; [exact _ | reflexivity]
  | |- calm _ _ _ _ _ (go _) _ => apply calm_go; [exact _|]
  | |- calm True _ _ _ _ (await _) _ => apply calm_await; [exact _|exact I]
  | |- calm _ _ _ _ _ (match ?x with _ => _ end) _ => destruct x; check_calm
  | |- calm _ _ _ _ _ (let _ := _ in _) _ => cbv zeta; check_calm
  | |- _ => solve [eauto with calm] || idtac
  end.
