(* ===== verification/WorkUnit.v ===== *)
(** * The task data model: states, events and the work unit

    Translates [internal/conductor/state.go]: the workflow states and events,
    the registry of state metadata, and the [WorkUnit] with everything it
    carries.  [State] and [Event] are Go string types, so values outside the
    declared constants exist (a state read back from disk, or the empty string
    that stands for "unset") and the model keeps them. *)

From S2P Require Import Prelude Floats.

(** ** States and events *)

Definition State := string.

Definition StateNone : State := "none".
Definition StateLoaded : State := "loaded".
Definition StatePlanning : State := "planning".
Definition StatePlanned : State := "planned".
Definition StateImplementing : State := "implementing".
Definition StateImplemented : State := "implemented".
Definition StateSimplifying : State := "simplifying".
Definition StateOptimizing : State := "optimizing".
Definition StateReviewing : State := "reviewing".
Definition StateSubmitted : State := "submitted".
Definition StateFailed : State := "failed".
Definition StateWaiting : State := "waiting".
Definition StatePaused : State := "paused".

(** The zero value of [State], used as "unset". *)
Definition NoState : State := "".

(** The constants of the declaration, in its order. *)
Definition all_states : list State :=
  [StateNone; StateLoaded; StatePlanning; StatePlanned; StateImplementing;
   StateImplemented; StateSimplifying; StateOptimizing; StateReviewing;
   StateSubmitted; StateFailed; StateWaiting; StatePaused].

Definition Event := string.

Definition EventStart : Event := "start".
Definition EventPlan : Event := "plan".
Definition EventImplement : Event := "implement".
Definition EventSimplify : Event := "simplify".
Definition EventOptimize : Event := "optimize".
Definition EventReview : Event := "review".
Definition EventSubmit : Event := "submit".
Definition EventFinish : Event := "finish".
Definition EventPlanDone : Event := "plan_done".
Definition EventImplementDone : Event := "implement_done".
Definition EventSimplifyDone : Event := "simplify_done".
Definition EventOptimizeDone : Event := "optimize_done".
Definition EventReviewDone : Event := "review_done".
Definition EventUndo : Event := "undo".
Definition EventUndoDone : Event := "undo_done".
Definition EventRedo : Event := "redo".
Definition EventRedoDone : Event := "redo_done".
Definition EventError : Event := "error".
Definition EventAbort : Event := "abort".
Definition EventReset : Event := "reset".
Definition EventReject : Event := "reject".
Definition EventWait : Event := "wait".
Definition EventAnswer : Event := "answer".
Definition EventPause : Event := "pause".
Definition EventResume : Event := "resume".
Definition EventStop : Event := "stop".

Definition all_events : list Event :=
  [EventStart; EventPlan; EventImplement; EventSimplify; EventOptimize;
   EventReview; EventSubmit; EventFinish; EventPlanDone; EventImplementDone;
   EventSimplifyDone; EventOptimizeDone; EventReviewDone; EventUndo;
   EventUndoDone; EventRedo; EventRedoDone; EventError; EventAbort; EventReset;
   EventReject; EventWait; EventAnswer; EventPause; EventResume; EventStop].

(** ** The data a work unit carries *)

Record TaskSummary := {
  ts_ID : string;
  ts_Title : string;
  ts_Description : string;
  ts_URL : string;
  ts_Status : string
}.

Record HierarchyContext := {
  Parent : option TaskSummary;
  Siblings : list TaskSummary
}.

Record ApprovalRecord := {
  ApprovedBy : string;
  ApprovedAt : Time
}.

Record CheckpointMeta := {
  cm_Message : string;
  cm_State : string;
  cm_CreatedAt : Time
}.

Record PhaseMetrics := {
  pm_Agent : string;
  pm_Duration : Duration;
  pm_InputTokens : Z;
  pm_OutputTokens : Z;
  pm_TotalTokens : Z;
  pm_EstCostUSD : spec_float;
  pm_RecordingPath : string;
  pm_CheckpointSHA : string
}.

Record Source := {
  Provider : string;
  Reference : string;
  URL : string;
  Content : string
}.

(** [context.go]: an attached context reference. *)
Record ContextItem := {
  ci_Type : string;
  ci_Ref : string;
  ci_Label : string
}.

(** [router.go]: the result of evaluating a phase's output. *)
Record RouteDecision := {
  rd_Action : string;
  rd_Reason : string;
  rd_TargetPhase : string;
  rd_Attempt : Z;
  rd_MaxRetries : Z
}.

(** [conductor_fork.go]: an active conversation fork. *)
Record ForkInfo := {
  fk_ID : string;
  fk_Label : string;
  fk_Branch : string;
  fk_WorktreeDir : string;
  fk_CheckpointSHA : string;
  fk_State : string;
  fk_TokensUsed : Z;
  fk_CreatedAt : Time
}.

(** Pointers to structs and to bool are options, Go maps are nil-able. *)
Record WorkUnit := mkWorkUnit {
  wu_ID : string;
  wu_ExternalID : string;
  wu_Title : string;
  wu_Description : string;
  wu_Source : option Source;
  wu_Branch : string;
  wu_WorktreePath : string;
  wu_Specifications : list string;
  wu_Checkpoints : list string;
  wu_RedoStack : list string;
  wu_Jobs : list string;
  wu_Metadata : go_map string;
  wu_TaskTraceID : string;
  wu_PRID : string;
  wu_Hierarchy : option HierarchyContext;
  wu_QualityGatePassed : option bool;
  wu_QualityGateError : string;
  wu_CancelledBy : string;
  wu_CancelledAt : Time;
  wu_Approvals : go_map ApprovalRecord;
  wu_ChecklistChecked : list string;
  wu_ContextItems : list ContextItem;
  wu_Tags : list string;
  wu_Priority : Z;
  wu_DependsOn : list string;
  wu_VarPoolPath : string;
  wu_HasImplemented : bool;
  wu_CreatedAt : Time;
  wu_UpdatedAt : Time;
  wu_CheckpointMeta : go_map CheckpointMeta;
  wu_PhaseMetrics : go_map PhaseMetrics;
  wu_RouteHistory : list RouteDecision;
  wu_Forks : list ForkInfo
}.

#[export] Instance eta_WorkUnit : Eta WorkUnit := fun w =>
  mkWorkUnit (wu_ID w) (wu_ExternalID w) (wu_Title w) (wu_Description w) (wu_Source w)
    (wu_Branch w) (wu_WorktreePath w) (wu_Specifications w) (wu_Checkpoints w)
    (wu_RedoStack w) (wu_Jobs w) (wu_Metadata w) (wu_TaskTraceID w) (wu_PRID w)
    (wu_Hierarchy w) (wu_QualityGatePassed w) (wu_QualityGateError w) (wu_CancelledBy w)
    (wu_CancelledAt w) (wu_Approvals w) (wu_ChecklistChecked w) (wu_ContextItems w)
    (wu_Tags w) (wu_Priority w) (wu_DependsOn w) (wu_VarPoolPath w) (wu_HasImplemented w)
    (wu_CreatedAt w) (wu_UpdatedAt w) (wu_CheckpointMeta w) (wu_PhaseMetrics w)
    (wu_RouteHistory w) (wu_Forks w).

(** The zero value of the struct. *)
Definition zero_WorkUnit : WorkUnit :=
  mkWorkUnit "" "" "" "" None "" "" [] [] [] [] None "" "" None None "" "" 0%Z None
    [] [] [] 0%Z [] "" false 0%Z 0%Z None None [] [].

(** ** State metadata *)

Record StateInfo := {
  Name : State;
  Description : string;
  Terminal : bool;
  Phase : bool
}.

Definition StateRegistry : list (State * StateInfo) :=
  [ (StateNone, {| Name := StateNone; Description := "No active task";
                   Terminal := false; Phase := true |});
    (StateLoaded, {| Name := StateLoaded;
                     Description := "Task fetched from provider, branch created";
                     Terminal := false; Phase := true |});
    (StatePlanning, {| Name := StatePlanning;
                       Description := "Agent generating specification";
                       Terminal := false; Phase := true |});
    (StatePlanned, {| Name := StatePlanned;
                      Description := "Specification complete, ready for implementation";
                      Terminal := false; Phase := true |});
    (StateImplementing, {| Name := StateImplementing;
                           Description := "Agent executing specification";
                           Terminal := false; Phase := true |});
    (StateImplemented, {| Name := StateImplemented;
                          Description := "Implementation complete, ready for review";
                          Terminal := false; Phase := true |});
    (StateSimplifying, {| Name := StateSimplifying;
                          Description := "Agent simplifying code for clarity";
                          Terminal := false; Phase := true |});
    (StateOptimizing, {| Name := StateOptimizing;
                         Description := "Agent improving code quality";
                         Terminal := false; Phase := true |});
    (StateReviewing, {| Name := StateReviewing;
                        Description := "Human review + security scan in progress";
                        Terminal := false; Phase := true |});
    (StateSubmitted, {| Name := StateSubmitted;
                        Description := "Task submitted to provider (PR created)";
                        Terminal := false; Phase := true |});
    (StateFailed, {| Name := StateFailed; Description := "Task failed with error";
                     Terminal := false; Phase := false |});
    (StateWaiting, {| Name := StateWaiting; Description := "Waiting for user input";
                      Terminal := false; Phase := false |});
    (StatePaused, {| Name := StatePaused; Description := "Execution paused";
                     Terminal := false; Phase := false |}) ].

(** [StateRegistry[s]] with its presence flag. *)
Definition registry_lookup (s : State) : option StateInfo :=
  go_switch s (map (fun e => (e.1, Some e.2)) StateRegistry) None.

(** ** Facts about the declarations *)

Lemma all_states_NoDup : NoDup all_states.
Proof. by apply (bool_decide_unpack _); vm_compute. Qed.

Lemma registry_complete s :
  s ∈ all_states -> exists info, registry_lookup s = Some info /\ Name info = s.
Proof.
  revert s. apply Forall_forall. unfold all_states.
  repeat (constructor; [eexists; split; by_eval |]). constructor.
Qed.
