(* ===== verification/Transitions.v ===== *)
(** * Guards, the transition table and the error messages

    Translates [internal/conductor/state_table.go] and [state_errors.go].  The
    table is a Go map literal; it is kept as the list of its entries in source
    order, and [table_lookup] is the map access.  The lemma [table_keys_NoDup]
    is what the Go compiler checks on the literal (no duplicate keys), so the
    first entry with a key is the entry with that key. *)

From S2P Require Import Prelude WorkUnit.

(** ** Guards *)

(** The pair of a predicate and the message shown when it fails; the context
    argument of [Check] is not used by any guard of the table. *)
Record Guard := {
  guard_Check : option WorkUnit -> bool;
  guard_Message : string
}.

Record Transition := {
  tr_From : State;
  tr_Event : Event;
  tr_To : State;
  tr_Guards : list Guard
}.

Record TransitionKey := mkKey {
  key_From : State;
  key_Event : Event
}.

#[export] Instance TransitionKey_eq_dec : EqDecision TransitionKey.
Proof. solve_decision. Defined.

Definition guardHasSource (wu : option WorkUnit) : bool :=
  match wu with
  | Some w => match wu_Source w with
              | Some src => bool_decide (Reference src <> "")
              | None => false
              end
  | None => false
  end.

Definition guardHasDescription (wu : option WorkUnit) : bool :=
  match wu with Some w => bool_decide (wu_Description w <> "") | None => false end.

Definition guardHasSpecifications (wu : option WorkUnit) : bool :=
  match wu with Some w => 0 <? length (wu_Specifications w) | None => false end.

Definition guardCanUndo (wu : option WorkUnit) : bool :=
  match wu with Some w => 0 <? length (wu_Checkpoints w) | None => false end.

Definition guardCanRedo (wu : option WorkUnit) : bool :=
  match wu with Some w => 0 <? length (wu_RedoStack w) | None => false end.

Definition guardHasImplementation (wu : option WorkUnit) : bool :=
  match wu with Some w => wu_HasImplemented w | None => false end.

Definition guardCanSubmit (wu : option WorkUnit) : bool :=
  match wu with
  | Some w => match wu_Source w with
              | Some src => bool_decide (Provider src <> "")
              | None => false
              end
  | None => false
  end.

Definition guardQualityGatePassed (wu : option WorkUnit) : bool :=
  match wu with
  | None => false
  | Some w => match wu_QualityGatePassed w with None => true | Some b => b end
  end.

(** The loop over the guards: the first failing guard decides. *)
Fixpoint EvaluateGuards (wu : option WorkUnit) (guards : list Guard) : bool :=
  match guards with
  | [] => true
  | guard :: rest => if negb (guard_Check guard wu) then false else EvaluateGuards wu rest
  end.

(** ** The transition table *)

Definition msgNoCheckpointsToUndo : string := "no checkpoints to undo".
Definition msgNoImplementationYet : string := "no implementation yet. Run implement first".

Definition mkT (from : State) (ev : Event) (to : State) (gs : list (_ * string)) : Transition :=
  {| tr_From := from; tr_Event := ev; tr_To := to;
     tr_Guards := map (fun g => {| guard_Check := g.1; guard_Message := g.2 |}) gs |}.

(** One entry of the literal: [{from, ev}: {{From: from, Event: ev, To: to, Guards: gs}}]. *)
Definition entry (from : State) (ev : Event) (to : State) (gs : list (_ * string))
  : TransitionKey * list Transition :=
  (mkKey from ev, [mkT from ev to gs]).

(** Start, planning, implementation and the optional passes. *)
Definition phase_entries : list (TransitionKey * list Transition) :=
  [ (* Start *)
    entry StateNone EventStart StateLoaded
      [(guardHasSource,
        "no task source specified. Run: kvelmo start --from <provider:reference>")];
    (* Planning *)
    entry StateLoaded EventPlan StatePlanning
      [(guardHasDescription, "task has no description. Check the task source content")];
    entry StatePlanning EventPlanDone StatePlanned [];
    entry StatePlanning EventError StateLoaded [];
    entry StatePlanning EventWait StateWaiting [];
    entry StatePlanning EventPause StatePaused [];
    (* Implementation *)
    entry StatePlanned EventImplement StateImplementing
      [(guardHasSpecifications, "no specification found. Run: kvelmo plan first")];
    entry StateLoaded EventImplement StateImplementing
      [(guardHasDescription, "task has no description. Check the task source content")];
    entry StateImplementing EventImplementDone StateImplemented [];
    entry StateImplementing EventError StatePlanned [];
    entry StateImplementing EventWait StateWaiting [];
    entry StateImplementing EventPause StatePaused [];
    entry StateImplementing EventUndo StateImplementing
      [(guardCanUndo, msgNoCheckpointsToUndo)];
    (* Simplification *)
    entry StateImplemented EventSimplify StateSimplifying [];
    entry StateSimplifying EventSimplifyDone StateImplemented [];
    entry StateSimplifying EventError StateImplemented [];
    entry StateSimplifying EventWait StateWaiting [];
    entry StateSimplifying EventPause StatePaused [];
    entry StateSimplifying EventAbort StateFailed [];
    (* Optimization *)
    entry StateImplemented EventOptimize StateOptimizing [];
    entry StateOptimizing EventOptimizeDone StateImplemented [];
    entry StateOptimizing EventError StateImplemented [];
    entry StateOptimizing EventWait StateWaiting [];
    entry StateOptimizing EventPause StatePaused [];
    entry StateOptimizing EventAbort StateFailed [] ].

(** Review, waiting, paused, recovery, undo/redo and finish. *)
Definition review_entries : list (TransitionKey * list Transition) :=
  [ (* Review *)
    entry StateImplemented EventReview StateReviewing [];
    entry StateReviewing EventSubmit StateSubmitted
      [(guardCanSubmit, "cannot submit: no provider configured");
       (guardQualityGatePassed, "quality gate failed. Fix issues and re-run: kvelmo review")];
    entry StateReviewing EventReject StatePlanning [];
    entry StateReviewing EventError StateImplemented [];
    (* Waiting and paused: fallbacks for a direct Dispatch *)
    entry StateWaiting EventAnswer StateLoaded [];
    entry StateWaiting EventAbort StateFailed [];
    entry StatePaused EventResume StateLoaded [];
    entry StatePaused EventAbort StateFailed [];
    (* Failed state recovery *)
    entry StateFailed EventReset StateLoaded [];
    (* Undo and redo from stable states *)
    entry StateLoaded EventUndo StateLoaded [(guardCanUndo, msgNoCheckpointsToUndo)];
    entry StatePlanned EventUndo StatePlanned [(guardCanUndo, msgNoCheckpointsToUndo)];
    entry StateImplemented EventUndo StateImplemented
      [(guardCanUndo, msgNoCheckpointsToUndo)];
    entry StateLoaded EventRedo StateLoaded [(guardCanRedo, "no checkpoints to redo")];
    entry StatePlanned EventRedo StatePlanned [(guardCanRedo, "no checkpoints to redo")];
    entry StateImplemented EventRedo StateImplemented
      [(guardCanRedo, "no checkpoints to redo")];
    (* Finish *)
    entry StateSubmitted EventFinish StateNone [] ].

(** Abort, stop and the free movement between phases. *)
Definition movement_entries : list (TransitionKey * list Transition) :=
  [ (* Abort from any active phase *)
    entry StateLoaded EventAbort StateFailed [];
    entry StatePlanning EventAbort StateFailed [];
    entry StatePlanned EventAbort StateFailed [];
    entry StateImplementing EventAbort StateFailed [];
    entry StateImplemented EventAbort StateFailed [];
    entry StateReviewing EventAbort StateFailed [];
    (* Stop *)
    entry StatePlanning EventStop StateLoaded [];
    entry StateImplementing EventStop StatePlanned [];
    entry StateSimplifying EventStop StateImplemented [];
    entry StateOptimizing EventStop StateImplemented [];
    entry StateReviewing EventStop StateImplemented [];
    (* Re-plan from any stable state *)
    entry StatePlanned EventPlan StatePlanning [(guardHasDescription, "task has no description")];
    entry StateImplemented EventPlan StatePlanning
      [(guardHasDescription, "task has no description")];
    entry StateSubmitted EventPlan StatePlanning
      [(guardHasDescription, "task has no description")];
    (* Re-implement from any stable state *)
    entry StateImplemented EventImplement StateImplementing
      [(guardHasSpecifications, "no specifications found. Run plan first")];
    entry StateSubmitted EventImplement StateImplementing
      [(guardHasSpecifications, "no specifications found. Run plan first")];
    (* Simplify and optimize where code exists *)
    entry StatePlanned EventSimplify StateSimplifying
      [(guardHasImplementation, msgNoImplementationYet)];
    entry StatePlanned EventOptimize StateOptimizing
      [(guardHasImplementation, msgNoImplementationYet)];
    entry StateSubmitted EventSimplify StateSimplifying
      [(guardHasImplementation, msgNoImplementationYet)];
    entry StateSubmitted EventOptimize StateOptimizing
      [(guardHasImplementation, msgNoImplementationYet)];
    (* Review where code exists *)
    entry StatePlanned EventReview StateReviewing
      [(guardHasImplementation, msgNoImplementationYet)];
    entry StateSubmitted EventReview StateReviewing [];
    (* Undo, redo and abort from submitted *)
    entry StateSubmitted EventUndo StateSubmitted [(guardCanUndo, msgNoCheckpointsToUndo)];
    entry StateSubmitted EventRedo StateSubmitted [(guardCanRedo, "nothing to redo")];
    entry StateSubmitted EventAbort StateFailed [] ].

Definition TransitionTable : list (TransitionKey * list Transition) :=
  phase_entries ++ review_entries ++ movement_entries.

(** [TransitionTable[key]]; a missing key yields the nil slice. *)
Fixpoint lookup_entries (key : TransitionKey) (es : list (TransitionKey * list Transition))
  : list Transition :=
  match es with
  | [] => []
  | (k, ts) :: rest => if decide (k = key) then ts else lookup_entries key rest
  end.

Definition table_lookup (key : TransitionKey) : list Transition :=
  lookup_entries key TransitionTable.

(** ** Error messages *)

Definition stateDescription (s : State) : string :=
  go_switch s
    [ (StateNone, "not started");
      (StateLoaded, "loaded but not planned");
      (StatePlanning, "currently planning");
      (StatePlanned, "planned but not implemented");
      (StateImplementing, "currently implementing");
      (StateImplemented, "implemented but not reviewed");
      (StateSimplifying, "currently simplifying");
      (StateOptimizing, "currently optimizing");
      (StateReviewing, "under review");
      (StateSubmitted, "submitted — can re-enter plan/implement/review or finish");
      (StateFailed, "in failed state");
      (StateWaiting, "waiting for your input");
      (StatePaused, "paused") ] s.

Definition PhaseSubmit : string := "submit".

Definition eventDescription (e : Event) : string :=
  go_switch e
    [ (EventStart, "start task");
      (EventPlan, "start planning");
      (EventPlanDone, "complete planning");
      (EventImplement, "start implementation");
      (EventImplementDone, "complete implementation");
      (EventSimplify, "start simplification");
      (EventSimplifyDone, "complete simplification");
      (EventOptimize, "start optimization");
      (EventOptimizeDone, "complete optimization");
      (EventReview, "start review");
      (EventReviewDone, "complete review");
      (EventSubmit, PhaseSubmit);
      (EventFinish, "finish task");
      (EventUndo, "undo");
      (EventUndoDone, "complete undo");
      (EventRedo, "redo");
      (EventRedoDone, "complete redo");
      (EventError, "handle error");
      (EventAbort, "abort");
      (EventReset, "reset");
      (EventReject, "reject changes");
      (EventWait, "wait for input");
      (EventAnswer, "answer question");
      (EventPause, "pause");
      (EventResume, "resume");
      (EventStop, "stop") ] e.

(** The work unit argument is ignored by the source. *)
Definition suggestNextAction (from : State) (_ : option WorkUnit) : string :=
  go_switch from
    [ (StateNone, "Run: kvelmo start --from <provider:reference>");
      (StateLoaded, "Run: kvelmo plan");
      (StatePlanning, "Wait for planning to complete");
      (StatePlanned, "Run: kvelmo implement");
      (StateImplementing, "Wait for implementation to complete");
      (StateImplemented, "Run: kvelmo review");
      (StateSimplifying, "Wait for simplification to complete");
      (StateOptimizing, "Wait for optimization to complete");
      (StateReviewing, "Run: kvelmo submit");
      (StateSubmitted,
        "PR submitted. Run: kvelmo finish (cleanup), kvelmo plan (re-plan), or kvelmo implement (re-implement)");
      (StateFailed, "Run: kvelmo reset to recover");
      (StateWaiting, "Answer the pending question");
      (StatePaused, "Run: kvelmo resume") ] "".

Definition formatTransitionError (from : State) (event : Event) (wu : option WorkUnit) : string :=
  let stateDesc := stateDescription from in
  let actionDesc := eventDescription event in
  let suggestion := suggestNextAction from wu in
  "cannot " +:+ actionDesc +:+ ": task is " +:+ stateDesc +:+ ". " +:+ suggestion.

(** The inner loop: the first guard of a transition that fails. *)
Definition first_failing_guard (wu : option WorkUnit) (guards : list Guard) : option Guard :=
  List.find (fun g => negb (guard_Check g wu)) guards.

(** The nested loops over transitions and guards, then the fallback message. *)
Fixpoint formatGuardError (from : State) (event : Event) (wu : option WorkUnit)
    (transitions : list Transition) : string :=
  match transitions with
  | [] => "cannot " +:+ eventDescription event +:+ ": prerequisites not met"
  | t :: rest =>
      match first_failing_guard wu (tr_Guards t) with
      | Some guard => "cannot " +:+ eventDescription event +:+ ": " +:+ guard_Message guard
      | None => formatGuardError from event wu rest
      end
  end.

(** ** Facts about the guards *)

Lemma EvaluateGuards_Forall wu gs :
  EvaluateGuards wu gs = true <-> Forall (fun g => guard_Check g wu = true) gs.
Proof.
  induction gs as [|g gs IH]; simpl; [by split|].
  rewrite Forall_cons, <- IH. destruct (guard_Check g wu); simpl; split; [tauto|tauto|discriminate|by intros [? _]].
Qed.

Lemma EvaluateGuards_first_failing wu gs :
  EvaluateGuards wu gs = true <-> first_failing_guard wu gs = None.
Proof.
  unfold first_failing_guard. induction gs as [|g gs IH]; simpl; [done|].
  by destruct (guard_Check g wu); simpl.
Qed.

Lemma first_failing_guard_spec wu gs g :
  first_failing_guard wu gs = Some g -> g ∈ gs /\ guard_Check g wu = false.
Proof.
  intros H. apply List.find_some in H as [Hin Hf].
  by rewrite list_elem_of_In, <- negb_true_iff.
Qed.

(** ** Facts about the table *)

Lemma lookup_entries_Some key es ts :
  lookup_entries key es = ts -> ts <> [] -> (key, ts) ∈ es.
Proof.
  induction es as [|[k ts'] es IH]; simpl; [by intros <-|].
  case_decide; subst; [intros -> _; by left|intros; right; auto].
Qed.

Lemma table_lookup_elem key t :
  t ∈ table_lookup key -> (key, table_lookup key) ∈ TransitionTable.
Proof.
  intros Ht. apply (lookup_entries_Some key TransitionTable); [done|].
  intros E. rewrite E in Ht. by apply not_elem_of_nil in Ht.
Qed.

(** The Go compiler rejects a map literal with a repeated key. *)
Lemma table_keys_NoDup : NoDup TransitionTable.*1.
Proof. by apply (bool_decide_unpack _); vm_compute. Qed.

(** Checks a decidable property of every transition of the table by evaluation. *)
Definition table_forallb (P : TransitionKey -> Transition -> bool) : bool :=
  forallb (fun e => forallb (P e.1) e.2) TransitionTable.

Lemma table_forallb_spec P :
  table_forallb P = true -> forall key t, t ∈ table_lookup key -> P key t = true.
Proof.
  intros H key t Ht. pose proof (table_lookup_elem _ _ Ht) as Hin.
  unfold table_forallb in H. rewrite forallb_forall in H.
  apply list_elem_of_In in Hin. specialize (H _ Hin). simpl in H.
  rewrite forallb_forall in H. apply H. by apply list_elem_of_In.
Qed.

Lemma table_forall (P : TransitionKey -> Transition -> Prop)
    `{dec : forall k t, Decision (P k t)} :
  table_forallb (fun k t => bool_decide (P k t)) = true ->
  forall key t, t ∈ table_lookup key -> P key t.
Proof.
  intros H key t Ht. apply (table_forallb_spec _ H) in Ht.
  by apply bool_decide_eq_true in Ht.
Qed.

(** Every transition sits under its own key and moves between declared states. *)
Lemma table_transition_wf key t :
  t ∈ table_lookup key ->
  tr_From t = key_From key /\ tr_Event t = key_Event key /\
  key_From key ∈ all_states /\ key_Event key ∈ all_events /\ tr_To t ∈ all_states.
Proof.
  revert key t. apply (table_forall (fun key t =>
    tr_From t = key_From key /\ tr_Event t = key_Event key /\
    key_From key ∈ all_states /\ key_Event key ∈ all_events /\ tr_To t ∈ all_states)).
  by_eval.
Qed.

Lemma table_singleton key : table_lookup key = [] \/ exists t, table_lookup key = [t].
Proof.
  destruct (table_lookup key) as [|t ts] eqn:E; [by left|right].
  assert (Hin : (key, t :: ts) ∈ TransitionTable)
    by (apply (lookup_entries_Some key TransitionTable); [done|discriminate]).
  assert (Hall : forallb (fun e => length e.2 =? 1) TransitionTable = true) by by_eval.
  rewrite forallb_forall in Hall. apply list_elem_of_In in Hin.
  specialize (Hall _ Hin). apply Nat.eqb_eq in Hall.
  destruct ts; [by exists t|discriminate].
Qed.
