(* ===== verification/Machine.v ===== *)
(** * The workflow state machine

    Translates [internal/conductor/state_machine.go].  A [Machine] value is the
    struct behind the pointer; every operation takes the lock for its whole
    body, so it is one function from the machine to the machine it leaves.  The
    current time is an argument where the code calls [time.Now].  Listeners are
    identified by name; the goroutine [Dispatch] starts to call them is recorded
    in [notifications] with the arguments it captured. *)

From S2P Require Import Prelude WorkUnit Transitions.

(** ** State *)

Record HistoryEntry := mkHistoryEntry {
  he_From : State;
  he_To : State;
  he_Event : Event;
  he_Timestamp : Time
}.

(** What a listener goroutine captured: the listeners to call, then the
    arguments of each call. *)
Record Notification := {
  nt_Listeners : list string;
  nt_From : State;
  nt_To : State;
  nt_Event : Event
}.

Record Machine := mkMachine {
  state : State;
  workUnit : option WorkUnit;
  history : list HistoryEntry;
  listeners : list string;
  previousState : State;
  priorStableState : State;
  notifications : list Notification
}.

#[export] Instance eta_Machine : Eta Machine := fun m =>
  mkMachine (state m) (workUnit m) (history m) (listeners m) (previousState m)
    (priorStableState m) (notifications m).

(** ** Operations *)

Definition NewMachine : Machine :=
  mkMachine StateNone None [] [] NoState NoState [].

Definition SetWorkUnit (now : Time) (wu : option WorkUnit) (m : Machine) : Machine :=
  m <| workUnit := (fun w => w <| wu_UpdatedAt := now |>) <$> wu |>.

Definition SetPriorStableState (s : State) (m : Machine) : Machine :=
  m <| priorStableState := s |>.

Definition ClearPriorStableState (m : Machine) : Machine :=
  m <| priorStableState := NoState |>.

Definition AddListener (l : string) (m : Machine) : Machine :=
  m <| listeners := listeners m ++ [l] |>.

(** The first transition whose guards pass. *)
Definition valid_transition (wu : option WorkUnit) (ts : list Transition) : option Transition :=
  List.find (fun t => EvaluateGuards wu (tr_Guards t)) ts.

Definition Dispatch (now : Time) (event : Event) (m : Machine)
  : Machine * result string unit :=
  let from := state m in
  let transitions := table_lookup (mkKey from event) in
  match transitions with
  | [] => (m, Err (formatTransitionError from event (workUnit m)))
  | _ =>
      match valid_transition (workUnit m) transitions with
      | None => (m, Err (formatGuardError from event (workUnit m) transitions))
      | Some validTransition =>
          (* remember where a wait or pause came from *)
          let m := if decide (event = EventWait \/ event = EventPause)
                   then m <| previousState := from |> else m in
          (* error and stop during a re-entry go back to the recorded state *)
          let '(targetState, m) :=
            if decide ((event = EventError \/ event = EventStop) /\
                       priorStableState m <> NoState)
            then (priorStableState m, m <| priorStableState := NoState |>)
            else (tr_To validTransition, m) in
          let m := m <| state := targetState |> in
          let m := m <| history := history m ++
                          [mkHistoryEntry from targetState event now] |> in
          let m := m <| workUnit := (fun w => w <| wu_UpdatedAt := now |>) <$> workUnit m |> in
          let m := m <| notifications := notifications m ++
                          [{| nt_Listeners := listeners m; nt_From := from;
                              nt_To := targetState; nt_Event := event |}] |> in
          (m, Ok tt)
      end
  end.

Definition DispatchWithResume (now : Time) (event : Event) (m : Machine)
  : Machine * result string unit :=
  if decide ((event = EventAnswer \/ event = EventResume) /\ previousState m <> NoState) then
    let from := state m in
    let to := previousState m in
    let m := m <| state := to |> in
    let m := m <| previousState := NoState |> in
    let m := m <| history := history m ++ [mkHistoryEntry from to event now] |> in
    (m, Ok tt)
  else Dispatch now event m.

Definition CanDispatch (event : Event) (m : Machine) : bool * string :=
  let transitions := table_lookup (mkKey (state m) event) in
  match transitions with
  | [] => (false, formatTransitionError (state m) event (workUnit m))
  | _ =>
      if existsb (fun t => EvaluateGuards (workUnit m) (tr_Guards t)) transitions
      then (true, "")
      else (false, formatGuardError (state m) event (workUnit m) transitions)
  end.

Definition RestoreHistory (entries : list HistoryEntry) (m : Machine) : Machine :=
  m <| history := entries |>.

Definition Reset (m : Machine) : Machine :=
  m <| state := StateNone |> <| workUnit := None |> <| history := [] |>
    <| previousState := NoState |>.

Definition ForceState (s : State) (m : Machine) : Machine := m <| state := s |>.

Definition IsTerminal (m : Machine) : bool :=
  match registry_lookup (state m) with Some info => Terminal info | None => false end.

Definition IsPhase (m : Machine) : bool :=
  match registry_lookup (state m) with Some info => Phase info | None => false end.

(** The loops over the table read a Go map, whose order is unspecified; the
    model walks the entries in source order and the theorems about the results
    speak of membership only. *)
Definition AvailableEvents (m : Machine) : list Event :=
  flat_map (fun e : TransitionKey * list Transition =>
    if decide (key_From e.1 <> state m) then []
    else if existsb (fun t => EvaluateGuards (workUnit m) (tr_Guards t)) e.2
         then [key_Event e.1] else []) TransitionTable.

Definition CanTransition (from to : State) : bool :=
  existsb (fun e : TransitionKey * list Transition =>
    if decide (key_From e.1 <> from) then false
    else existsb (fun t => bool_decide (tr_To t = to)) e.2) TransitionTable.

(** The [seen] map and the [next] slice hold the same states. *)
Definition NextStates (from : State) : list State :=
  fold_left (fun next (e : TransitionKey * list Transition) =>
    if decide (key_From e.1 <> from) then next
    else fold_left (fun next t =>
           if decide (tr_To t ∈ next) then next else next ++ [tr_To t]) e.2 next)
    TransitionTable [].

(** ** Steps

    The operations another part of the program calls on the machine while a
    task is being worked on: everything that does not overwrite the state or
    the history wholesale. *)
Inductive machine_op :=
| OpDispatch (now : Time) (e : Event)
| OpDispatchWithResume (now : Time) (e : Event)
| OpSetWorkUnit (now : Time) (wu : option WorkUnit)
| OpRecordPrior
| OpClearPrior
| OpAddListener (l : string)
| OpReset.

(** [OpRecordPrior] is the conductor's use of [SetPriorStableState]: it records
    the state the machine is in (conductor_plan.go:57 and its siblings). *)
Definition apply_op (o : machine_op) (m : Machine) : Machine :=
  match o with
  | OpDispatch now e => (Dispatch now e m).1
  | OpDispatchWithResume now e => (DispatchWithResume now e m).1
  | OpSetWorkUnit now wu => SetWorkUnit now wu m
  | OpRecordPrior => SetPriorStableState (state m) m
  | OpClearPrior => ClearPriorStableState m
  | OpAddListener l => AddListener l m
  | OpReset => Reset m
  end.

Definition run_ops (ops : list machine_op) (m : Machine) : Machine :=
  fold_left (fun m o => apply_op o m) ops m.

Inductive machine_step : Machine -> Machine -> Prop :=
| machine_step_op o m : machine_step m (apply_op o m).

Definition machine_reachable (m : Machine) : Prop := rtc machine_step NewMachine m.

(** ** Lemmas about the operations *)

(** Where a successful dispatch of [event] through [t] leads. *)
Definition dispatch_target (m : Machine) (event : Event) (t : Transition) : State :=
  if decide ((event = EventError \/ event = EventStop) /\ priorStableState m <> NoState)
  then priorStableState m else tr_To t.

Lemma valid_transition_spec wu ts t :
  valid_transition wu ts = Some t -> t ∈ ts /\ EvaluateGuards wu (tr_Guards t) = true.
Proof. intros [? ?]%List.find_some. by rewrite list_elem_of_In. Qed.

Lemma valid_transition_None wu ts :
  valid_transition wu ts = None ->
  existsb (fun t => EvaluateGuards wu (tr_Guards t)) ts = false.
Proof.
  intros H. apply not_true_is_false. intros (t & Hin & Ht)%existsb_exists.
  eapply List.find_none in H; [|done]. congruence.
Qed.

Lemma valid_transition_exists wu ts t :
  t ∈ ts -> EvaluateGuards wu (tr_Guards t) = true -> is_Some (valid_transition wu ts).
Proof.
  intros Hin Ht. destruct (valid_transition wu ts) eqn:E; [done|].
  eapply List.find_none in E; [|by apply list_elem_of_In]. simpl in E. congruence.
Qed.

(** The two ways [Dispatch] can end, as an inversion lemma. *)
Lemma Dispatch_inv now event m m' r :
  Dispatch now event m = (m', r) ->
  (exists e, r = Err e /\ m' = m /\
     valid_transition (workUnit m) (table_lookup (mkKey (state m) event)) = None) \/
  (exists t, r = Ok tt /\ t ∈ table_lookup (mkKey (state m) event) /\
     EvaluateGuards (workUnit m) (tr_Guards t) = true /\
     valid_transition (workUnit m) (table_lookup (mkKey (state m) event)) = Some t /\
     state m' = dispatch_target m event t /\
     history m' = history m ++
       [mkHistoryEntry (state m) (dispatch_target m event t) event now] /\
     workUnit m' = (fun w => w <| wu_UpdatedAt := now |>) <$> workUnit m /\
     listeners m' = listeners m /\
     previousState m' =
       (if decide (event = EventWait \/ event = EventPause) then state m else previousState m) /\
     priorStableState m' =
       (if decide (event = EventError \/ event = EventStop) then NoState
        else priorStableState m)).
Proof.
  unfold Dispatch, dispatch_target.
  destruct (table_lookup _) as [|t0 ts] eqn:Et;
    [intros; simplify_eq; left; by eexists|].
  destruct (valid_transition _ _) as [t|] eqn:Ev; [|intros; simplify_eq; left; by eexists].
  intros E; right. exists t.
  pose proof (valid_transition_spec _ _ _ Ev) as [? ?].
  destruct (decide (priorStableState m = NoState)) as [Hp|Hp];
    destruct (decide (event = EventWait \/ event = EventPause)) as [Hw|Hw];
    destruct (decide (event = EventError \/ event = EventStop)) as [He|He]; simpl in E;
    destruct (decide ((event = EventError \/ event = EventStop) /\ _)) as [Hd|Hd];
    simpl in E; try tauto; simplify_eq/=; split_and!; done || congruence || tauto.
Qed.

Lemma Dispatch_ok_intro now event m t :
  t ∈ table_lookup (mkKey (state m) event) ->
  EvaluateGuards (workUnit m) (tr_Guards t) = true ->
  is_ok (Dispatch now event m).2 = true.
Proof.
  intros Hin Ht. destruct (Dispatch now event m) as [m' r] eqn:E.
  destruct (valid_transition_exists _ _ _ Hin Ht) as [t' Hv].
  apply Dispatch_inv in E as [(e & -> & _ & Hn)|(t'' & -> & _)]; simpl; congruence.
Qed.

(** A table with one transition per key: the transition found is the one there is. *)
Lemma table_lookup_unique key t t' :
  t ∈ table_lookup key -> t' ∈ table_lookup key -> t = t'.
Proof.
  destruct (table_singleton key) as [->|[u ->]].
  - by intros ?%not_elem_of_nil.
  - by intros ->%list_elem_of_singleton ->%list_elem_of_singleton.
Qed.

Lemma DispatchWithResume_inv now event m m' r :
  DispatchWithResume now event m = (m', r) ->
  ((event = EventAnswer \/ event = EventResume) /\ previousState m <> NoState /\ r = Ok tt /\
     state m' = previousState m /\ previousState m' = NoState /\ workUnit m' = workUnit m /\
     priorStableState m' = priorStableState m /\
     history m' = history m ++ [mkHistoryEntry (state m) (previousState m) event now]) \/
  Dispatch now event m = (m', r).
Proof.
  unfold DispatchWithResume. case_decide as Hd; [|by right].
  destruct Hd. intros; simplify_eq/=. left. naive_solver.
Qed.

(** *** Histories *)

(** The entries lead from one state to another, each starting where the one
    before it ended. *)
Fixpoint history_chain (from : State) (h : list HistoryEntry) (to : State) : Prop :=
  match h with
  | [] => from = to
  | e :: rest => he_From e = from /\ history_chain (he_To e) rest to
  end.

Lemma history_chain_snoc from h mid e :
  history_chain from h mid -> he_From e = mid -> history_chain from (h ++ [e]) (he_To e).
Proof. revert from. induction h; simpl; naive_solver. Qed.

(** The states in which an agent works, where a wait or a pause can come from. *)
Definition agent_states : list State :=
  [StatePlanning; StateImplementing; StateSimplifying; StateOptimizing].

Record machine_inv (m : Machine) : Prop := {
  inv_state : state m ∈ all_states;
  inv_prior : priorStableState m = NoState \/ priorStableState m ∈ all_states;
  inv_previous : previousState m = NoState \/ previousState m ∈ agent_states;
  inv_history : history_chain StateNone (history m) (state m)
}.

Lemma wait_pause_from_agent key t :
  t ∈ table_lookup key -> key_Event key = EventWait \/ key_Event key = EventPause ->
  key_From key ∈ agent_states.
Proof.
  revert key t. apply (table_forall (fun key t =>
    key_Event key = EventWait \/ key_Event key = EventPause -> key_From key ∈ agent_states)).
  by_eval.
Qed.

Lemma agent_states_declared s : s ∈ agent_states -> s ∈ all_states.
Proof. revert s. apply Forall_forall. by apply (bool_decide_unpack _); vm_compute. Qed.

Lemma Dispatch_inv_preserved now e m : machine_inv m -> machine_inv (Dispatch now e m).1.
Proof.
  intros Hm. destruct (Dispatch now e m) as [m' r] eqn:E; simpl.
  apply Dispatch_inv in E as [(? & _ & -> & _)|(t & _ & Hin & _ & _ & Hs & Hh & _ & _ & Hp & Hq)];
    [done|].
  pose proof (table_transition_wf _ _ Hin) as (_ & _ & _ & _ & Hto).
  assert (Ht : dispatch_target m e t ∈ all_states).
  { unfold dispatch_target. goal_decide; [|done].
    destruct (inv_prior _ Hm); naive_solver. }
  split.
  - rewrite Hs. exact Ht.
  - rewrite Hq. goal_decide; [by left|apply Hm].
  - rewrite Hp. goal_decide; [right|apply Hm]. by apply (wait_pause_from_agent _ _ Hin).
  - rewrite Hs, Hh. apply (history_chain_snoc _ _ (state m) (mkHistoryEntry _ _ _ _)); [apply Hm|done].
Qed.

Lemma apply_op_inv o m : machine_inv m -> machine_inv (apply_op o m).
Proof.
  intros Hm. destruct o as [now e|now e|now wu| | |l|]; simpl.
  - by apply Dispatch_inv_preserved.
  - destruct (DispatchWithResume now e m) as [m' r] eqn:E; simpl.
    apply DispatchWithResume_inv in E as [(_ & Hp & _ & Hs & Hp' & _ & Hq & Hh)|E].
    + destruct (inv_previous _ Hm) as [|Ha]; [done|].
      split; rewrite ?Hs, ?Hq, ?Hp', ?Hh; [by apply agent_states_declared|apply Hm|by left|].
      apply (history_chain_snoc _ _ (state m) (mkHistoryEntry _ _ _ _)); [apply Hm|done].
    + pose proof (Dispatch_inv_preserved now e m Hm) as H. by rewrite E in H.
  - by destruct Hm.
  - split; simpl; [apply Hm|right; apply Hm|apply Hm|apply Hm].
  - split; simpl; [apply Hm|by left|apply Hm|apply Hm].
  - by destruct Hm.
  - split; simpl; [left|apply Hm|by left|done].
Qed.

Lemma NewMachine_inv : machine_inv NewMachine.
Proof. split; simpl; [left|by left|by left|done]. Qed.

#[export] Hint Resolve NewMachine_inv apply_op_inv : kvelmo.

Lemma run_ops_inv ops m : machine_inv m -> machine_inv (run_ops ops m).
Proof. revert m. induction ops; simpl; auto with kvelmo. Qed.

(** ** Specifications *)

(** The table as a relation: the guarded transitions of the design document. *)
Inductive table_transition (wu : option WorkUnit) (from : State) (ev : Event) (to : State) : Prop :=
| table_transition_intro gs :
    (mkKey from ev, [{| tr_From := from; tr_Event := ev; tr_To := to; tr_Guards := gs |}])
      ∈ TransitionTable ->
    Forall (fun g => guard_Check g wu = true) gs ->
    table_transition wu from ev to.

(** A review ended in a submission somewhere in this history. *)
Definition reviewed (h : list HistoryEntry) : Prop :=
  exists e, e ∈ h /\ he_From e = StateReviewing /\ he_Event e = EventSubmit.

Definition is_reset (o : machine_op) : bool := match o with OpReset => true | _ => false end.

Lemma table_lookup_entry key ts : (key, ts) ∈ TransitionTable -> table_lookup key = ts.
Proof.
  unfold table_lookup. generalize table_keys_NoDup.
  induction TransitionTable as [|[k ts'] es IH]; simpl; [by intros _ ?%not_elem_of_nil|].
  intros [Hk Hnd]%NoDup_cons [Heq|Hin]%elem_of_cons.
  - simplify_eq. by rewrite decide_True.
  - goal_decide as [->|]; [|by apply IH].
    destruct Hk. by apply (list_elem_of_fmap_2 fst) in Hin.
Qed.

Lemma table_transition_lookup wu from ev to :
  table_transition wu from ev to <->
  exists t, t ∈ table_lookup (mkKey from ev) /\ tr_To t = to /\
    EvaluateGuards wu (tr_Guards t) = true.
Proof.
  split.
  - intros [gs Hin Hg].
    exists {| tr_From := from; tr_Event := ev; tr_To := to; tr_Guards := gs |}.
    split_and!; [|done|by apply EvaluateGuards_Forall].
    rewrite (table_lookup_entry _ _ Hin). by apply list_elem_of_singleton.
  - intros (t & Hin & <- & Hg).
    pose proof (table_transition_wf _ _ Hin) as (Hf & He & _).
    pose proof (table_lookup_elem _ _ Hin) as Ht.
    destruct (table_singleton (mkKey from ev)) as [E|[u E]]; rewrite E in *;
      [by apply not_elem_of_nil in Hin|].
    apply list_elem_of_singleton in Hin as ->. destruct u; simpl in *; subst.
    econstructor; [done|by apply EvaluateGuards_Forall].
Qed.

(** *** Membership in what the loops over the table collect *)

Lemma can_dispatch_ok_iff ev m :
  (CanDispatch ev m).1 = true <->
  exists t, t ∈ table_lookup (mkKey (state m) ev) /\
    EvaluateGuards (workUnit m) (tr_Guards t) = true.
Proof.
  unfold CanDispatch. destruct (table_lookup _) as [|t0 ts] eqn:Et.
  - split; [done|]. by intros (t & ?%not_elem_of_nil & _).
  - destruct (existsb _ _) eqn:Ex; split; try done.
    + intros _. apply existsb_exists in Ex as (t & ? & ?). exists t. by rewrite list_elem_of_In.
    + intros (t & Hin & Hg). assert (false = true); [|done]. rewrite <- Ex.
      apply existsb_exists. exists t. by rewrite <- list_elem_of_In.
Qed.

Lemma CanTransition_lookup from to :
  CanTransition from to = true <->
  exists ev t, t ∈ table_lookup (mkKey from ev) /\ tr_To t = to.
Proof.
  unfold CanTransition. rewrite existsb_exists. split.
  - intros ([[f e] ts] & Hin & Hc). simpl in Hc.
    destruct (decide (f <> from)) as [|Hf]; [done|]. apply dec_stable in Hf as ->.
    apply existsb_exists in Hc as (t & Ht & Hto). apply bool_decide_eq_true in Hto.
    apply list_elem_of_In in Ht, Hin. exists e, t. by rewrite (table_lookup_entry _ _ Hin).
  - intros (ev & t & Hin & Hto). exists (mkKey from ev, table_lookup (mkKey from ev)).
    split; [by apply list_elem_of_In, (table_lookup_elem _ t)|]. simpl.
    rewrite decide_False by naive_solver. apply existsb_exists. exists t.
    by rewrite <- list_elem_of_In, bool_decide_eq_true.
Qed.

(** The accumulating loops of [NextStates]. *)
Definition add_targets (next : list State) (ts : list Transition) : list State :=
  fold_left (fun next t => if decide (tr_To t ∈ next) then next else next ++ [tr_To t]) ts next.

Lemma add_targets_spec ts next :
  (NoDup next -> NoDup (add_targets next ts)) /\
  forall s, s ∈ add_targets next ts <-> s ∈ next \/ exists t, t ∈ ts /\ tr_To t = s.
Proof.
  unfold add_targets. revert next. induction ts as [|t ts IH]; intros next; simpl.
  - split; [done|]. intros s. split; [by left|]. by intros [?|(t & ?%not_elem_of_nil & _)].
  - destruct (IH (if decide (tr_To t ∈ next) then next else next ++ [tr_To t])) as [IH1 IH2].
    split.
    + intros Hnd. apply IH1. goal_decide; [done|]. apply NoDup_app.
      split_and!; [done| |apply NoDup_singleton]. by intros x ? ->%list_elem_of_singleton.
    + intros s. rewrite IH2. setoid_rewrite elem_of_cons. goal_decide.
      * naive_solver.
      * rewrite elem_of_app, list_elem_of_singleton. naive_solver.
Qed.

Lemma NextStates_fold from es next :
  let r := fold_left (fun next (e : TransitionKey * list Transition) =>
    if decide (key_From e.1 <> from) then next else add_targets next e.2) es next in
  (NoDup next -> NoDup r) /\
  forall s, s ∈ r <-> s ∈ next \/
    exists ev ts t, (mkKey from ev, ts) ∈ es /\ t ∈ ts /\ tr_To t = s.
Proof.
  revert next. induction es as [|[[f ev] ts] es IH]; intros next; simpl.
  - split; [done|]. intros s. split; [by left|]. by intros [?|(? & ? & ? & ?%not_elem_of_nil & _)].
  - destruct (decide (f <> from)) as [Hf|Hf].
    + destruct (IH next) as [IH1 IH2]. split; [done|]. intros s. rewrite IH2.
      setoid_rewrite elem_of_cons. naive_solver.
    + apply dec_stable in Hf as ->.
      destruct (IH (add_targets next ts)) as [IH1 IH2].
      destruct (add_targets_spec ts next) as [Ha1 Ha2].
      split; [by intros; apply IH1, Ha1|]. intros s. rewrite IH2, Ha2.
      setoid_rewrite elem_of_cons. naive_solver.
Qed.

Lemma NextStates_NoDup from : NoDup (NextStates from).
Proof. apply (NextStates_fold from TransitionTable []), NoDup_nil_2. Qed.

Lemma NextStates_lookup from to :
  to ∈ NextStates from <-> exists ev t, t ∈ table_lookup (mkKey from ev) /\ tr_To t = to.
Proof.
  change (NextStates from) with (fold_left (fun next (e : TransitionKey * list Transition) =>
    if decide (key_From e.1 <> from) then next else add_targets next e.2) TransitionTable []).
  rewrite (proj2 (NextStates_fold from TransitionTable [])). split.
  - intros [?%not_elem_of_nil|(ev & ts & t & Hin & Ht & Hto)]; [done|].
    exists ev, t. by rewrite (table_lookup_entry _ _ Hin).
  - intros (ev & t & Hin & Hto). right. exists ev, (table_lookup (mkKey from ev)), t.
    split_and!; [by apply (table_lookup_elem _ t)|done|done].
Qed.

(** *** The way back to [none] *)

(** One transition towards [none], for every state. *)
Definition toward_none (s : State) : State :=
  go_switch s [ (StateLoaded, StatePlanning); (StatePlanning, StatePlanned);
    (StatePlanned, StateImplementing); (StateImplementing, StateImplemented);
    (StateImplemented, StateReviewing); (StateSimplifying, StateImplemented);
    (StateOptimizing, StateImplemented); (StateReviewing, StateSubmitted);
    (StateSubmitted, StateNone); (StateFailed, StateLoaded);
    (StateWaiting, StateLoaded); (StatePaused, StateLoaded) ] StateNone.

(** Follows [toward_none], checking each step against the table. *)
Fixpoint reaches_none (fuel : nat) (s : State) : bool :=
  if decide (s = StateNone) then true
  else match fuel with
       | 0 => false
       | S fuel => CanTransition s (toward_none s) && reaches_none fuel (toward_none s)
       end.

Lemma reaches_none_sound fuel s :
  reaches_none fuel s = true -> rtc (fun a b => CanTransition a b = true) s StateNone.
Proof.
  revert s. induction fuel as [|fuel IH]; intros s; simpl; goal_decide as [->|]; try done.
  intros [? ?]%andb_true_iff. eapply rtc_l; eauto.
Qed.

(** ** Properties *)

(** C1: [Dispatch] implements the transition table.  It succeeds exactly when
    the table has a transition for the current state and the event whose
    guards all hold; it then appends one history entry from the old state to
    the new one, which is the table's target or, on an error or a stop during
    a re-entry, the recorded prior stable state.  When it fails the machine is
    left untouched. *)
Theorem dispatch_refines_table (now : Time) (ev : Event) (m : Machine) :
  (is_ok (Dispatch now ev m).2 = false /\ (Dispatch now ev m).1 = m /\
   forall to, ~ table_transition (workUnit m) (state m) ev to) \/
  (exists to, is_ok (Dispatch now ev m).2 = true /\
   table_transition (workUnit m) (state m) ev to /\
   let m' := (Dispatch now ev m).1 in
   let target := if decide ((ev = EventError \/ ev = EventStop) /\ priorStableState m <> NoState)
                 then priorStableState m else to in
   state m' = target /\
   history m' = history m ++ [mkHistoryEntry (state m) target ev now] /\
   (ev = EventWait \/ ev = EventPause -> previousState m' = state m) /\
   (ev = EventError \/ ev = EventStop -> priorStableState m' = NoState)).
Proof.
  destruct (Dispatch now ev m) as [m' r] eqn:E; simpl.
  apply Dispatch_inv in E
    as [(e & -> & -> & Hn)|(t & -> & Hin & Hg & _ & Hs & Hh & _ & _ & Hp & Hq)].
  - left. split_and!; [done|done|]. intros to (t & Hin & _ & Ht)%table_transition_lookup.
    destruct (valid_transition_exists _ _ _ Hin Ht) as [t' Ht']. congruence.
  - right. exists (tr_To t). split_and!; [done| |done|done|..].
    + apply table_transition_lookup. eauto.
    + intros H. rewrite Hp. by rewrite decide_True.
    + intros H. rewrite Hq. by rewrite decide_True.
Qed.

(** [CanDispatch] predicts [Dispatch]: it answers true exactly when the
    dispatch would succeed, and its reason is the error the dispatch would
    return. *)
Theorem can_dispatch_agrees (now : Time) (ev : Event) (m : Machine) :
  CanDispatch ev m =
  match (Dispatch now ev m).2 with Ok _ => (true, "") | Err e => (false, e) end.
Proof.
  unfold CanDispatch, Dispatch. destruct (table_lookup _) as [|t0 ts] eqn:Et; [done|].
  destruct (valid_transition _ _) as [t|] eqn:Ev.
  - apply valid_transition_spec in Ev as [Hin Ht].
    replace (existsb _ _) with true; [by repeat goal_decide|].
    symmetry. apply existsb_exists. exists t. by rewrite <- list_elem_of_In.
  - by rewrite (valid_transition_None _ _ Ev).
Qed.

(** When only a guard stands in the way, the error names the first guard
    that fails: it is "cannot <action>: " followed by that guard's own
    message, and the guard is one of the transition's guards. *)
Theorem guard_error_is_precise (now : Time) (ev : Event) (m : Machine) (e : string) :
  table_lookup (mkKey (state m) ev) <> [] ->
  (Dispatch now ev m).2 = Err e ->
  exists t g, t ∈ table_lookup (mkKey (state m) ev) /\ g ∈ tr_Guards t /\
    guard_Check g (workUnit m) = false /\
    e = "cannot " +:+ eventDescription ev +:+ ": " +:+ guard_Message g.
Proof.
  intros Hne He. destruct (table_singleton (mkKey (state m) ev)) as [|[t Et]]; [done|].
  unfold Dispatch in He. rewrite Et in He.
  destruct (valid_transition _ _) as [u|] eqn:Ev;
    [by repeat (match type of He with context [decide ?P] => destruct (decide P) end)|].
  injection He as <-. unfold formatGuardError.
  destruct (first_failing_guard _ _) as [g|] eqn:Eg.
  - apply first_failing_guard_spec in Eg as [Hg Hf]. exists t, g.
    rewrite Et. split_and!; [by left|done|done|done].
  - apply EvaluateGuards_first_failing in Eg.
    apply valid_transition_None in Ev. simpl in Ev. rewrite Eg in Ev. discriminate.
Qed.

(** C2: In every machine reachable from a new one, the current state is a
    declared state, the two remembered states are unset or declared (a wait or
    pause only ever comes from a state in which an agent works), and the
    history is an unbroken chain of transitions from [none] to the current
    state. *)
Theorem machine_reachable_inv (m : Machine) :
  machine_reachable m -> machine_inv m.
Proof.
  unfold machine_reachable. intros H.
  cut (machine_inv NewMachine); [|apply NewMachine_inv].
  induction H as [m|m1 m2 m3 Hstep _ IH]; [done|].
  intros Hm. apply IH. destruct Hstep. by apply apply_op_inv.
Qed.

Lemma run_ops_reachable ops m : rtc machine_step m (run_ops ops m).
Proof.
  revert m. induction ops as [|o ops IH]; intros m; simpl; [done|].
  eapply rtc_l; [apply machine_step_op|apply IH].
Qed.

(** A work unit that passes every guard, for the concrete runs below. *)
Definition sample_unit : WorkUnit :=
  zero_WorkUnit <| wu_ID := "task-1" |> <| wu_Title := "t" |> <| wu_Description := "d" |>
    <| wu_Source := Some {| Provider := "file"; Reference := "file:task.md"; URL := "";
                            Content := "d" |} |>
    <| wu_Specifications := ["specification-1.md"] |>.

(** A task taken from the start to the submission. *)
Definition sample_ops : list machine_op :=
  [OpSetWorkUnit 1 (Some sample_unit); OpDispatch 2 EventStart; OpDispatch 3 EventPlan;
   OpDispatch 4 EventPlanDone; OpDispatch 5 EventImplement; OpDispatch 6 EventImplementDone;
   OpDispatch 7 EventReview; OpDispatch 8 EventSubmit]%Z.

Lemma machine_reachable_inv_witness :
  machine_reachable (run_ops sample_ops NewMachine) /\
  machine_inv (run_ops sample_ops NewMachine).
Proof.
  split; [apply run_ops_reachable|].
  apply (machine_reachable_inv (run_ops sample_ops NewMachine)). apply run_ops_reachable.
Defined.

Record review_inv (m : Machine) : Prop := {
  ri_machine : machine_inv m;
  ri_state : state m = StateSubmitted -> reviewed (history m);
  ri_prior : priorStableState m = StateSubmitted -> reviewed (history m)
}.

Lemma reviewed_mono h h' : reviewed h -> reviewed (h ++ h').
Proof. intros (e & ? & ?). exists e. rewrite elem_of_app. naive_solver. Qed.

Lemma to_submitted key t :
  t ∈ table_lookup key -> tr_To t = StateSubmitted ->
  key_From key = StateSubmitted \/
  (key_From key = StateReviewing /\ key_Event key = EventSubmit).
Proof.
  revert key t. apply (table_forall (fun key t => tr_To t = StateSubmitted ->
    key_From key = StateSubmitted \/
    (key_From key = StateReviewing /\ key_Event key = EventSubmit))).
  by_eval.
Qed.

Lemma Dispatch_review_inv now e m : review_inv m -> review_inv (Dispatch now e m).1.
Proof.
  intros [Hm Hst Hpr].
  pose proof (Dispatch_inv_preserved now e m Hm) as Hm'.
  destruct (Dispatch now e m) as [m' r] eqn:E; simpl in *.
  apply Dispatch_inv in E as [(? & _ & -> & _)|(t & _ & Hin & _ & _ & Hs & Hh & _ & _ & _ & Hq)];
    [done|].
  split; [done| |].
  - rewrite Hs, Hh. unfold dispatch_target. goal_decide as [[_ _]|_].
    + intros ?. by apply reviewed_mono, Hpr.
    + intros Ht. destruct (to_submitted _ _ Hin Ht) as [Hf|[Hf He]]; simpl in *.
      * by apply reviewed_mono, Hst.
      * eexists. rewrite elem_of_app, list_elem_of_singleton. naive_solver.
  - rewrite Hq, Hh. goal_decide; [done|]. intros ?. by apply reviewed_mono, Hpr.
Qed.

Lemma agent_not_submitted s : s ∈ agent_states -> s <> StateSubmitted.
Proof. revert s. apply Forall_forall. by apply (bool_decide_unpack _); vm_compute. Qed.

Lemma apply_op_review_inv o m :
  is_reset o = false -> review_inv m -> review_inv (apply_op o m).
Proof.
  intros Hr Hi. pose proof (apply_op_inv o m (ri_machine _ Hi)) as Hm'.
  destruct Hi as [Hm Hst Hpr] eqn:Hieq.
  destruct o as [now e|now e|now wu| | |l|]; simpl in *; try done; try (split; simpl; done).
  - by apply Dispatch_review_inv.
  - destruct (DispatchWithResume now e m) as [m' r] eqn:E; simpl in *.
    apply DispatchWithResume_inv in E as [(_ & Hp & _ & Hs & _ & _ & Hq & Hh)|E].
    + destruct (inv_previous _ Hm) as [|Ha%agent_not_submitted]; [done|].
      split; [done| |]; rewrite ?Hs, ?Hq, Hh; [done|]. intros ?. by apply reviewed_mono, Hpr.
    + pose proof (Dispatch_review_inv now e m Hi) as H. by rewrite E in H.
Qed.

(** A task reaches [submitted] only through a review: in a machine driven
    by any sequence of dispatches, resumes and the conductor's bookkeeping on
    one task (no [Reset] in between), being in [submitted] means the history
    holds a submit event fired from [reviewing]. *)
Theorem submitted_only_after_review (ops : list machine_op) :
  Forall (fun o => is_reset o = false) ops ->
  state (run_ops ops NewMachine) = StateSubmitted ->
  reviewed (history (run_ops ops NewMachine)).
Proof.
  intros Hops. cut (review_inv (run_ops ops NewMachine)); [by intros []|].
  cut (review_inv NewMachine); [|split; simpl; [apply NewMachine_inv|done|done]].
  generalize NewMachine. induction Hops as [|o ops Ho _ IH]; intros m Hm; [done|].
  apply IH. by apply apply_op_review_inv.
Qed.

Lemma submitted_only_after_review_witness :
  state (run_ops sample_ops NewMachine) = StateSubmitted /\
  reviewed (history (run_ops sample_ops NewMachine)).
Proof.
  split; [by_eval|]. apply (submitted_only_after_review sample_ops).
  - by repeat constructor.
  - by_eval.
Defined.

(** The submission gate: the step into [submitted] passes both guards, so
    the work unit exists, its source names a provider and the quality gate was
    not failed. *)
Theorem submit_requires_provider_and_gate (now : Time) (m : Machine) :
  is_ok (Dispatch now EventSubmit m).2 = true ->
  state m = StateReviewing /\ state (Dispatch now EventSubmit m).1 = StateSubmitted /\
  exists wu src, workUnit m = Some wu /\ wu_Source wu = Some src /\ Provider src <> "" /\
    wu_QualityGatePassed wu <> Some false.
Proof.
  destruct (Dispatch now EventSubmit m) as [m' r] eqn:E; simpl. intros Hr.
  apply Dispatch_inv in E as [(e & -> & _)|(t & _ & Hin & Hg & _ & Hs & _)]; [done|].
  assert (Hfrom : forall key t, t ∈ table_lookup key -> key_Event key = EventSubmit ->
            key_From key = StateReviewing /\ tr_To t = StateSubmitted).
  { apply (table_forall (fun key t => key_Event key = EventSubmit ->
      key_From key = StateReviewing /\ tr_To t = StateSubmitted)). by_eval. }
  destruct (Hfrom _ _ Hin eq_refl) as [Hf Ht]. simpl in Hf.
  split_and!; [done|by rewrite Hs; unfold dispatch_target; rewrite decide_False by naive_solver|].
  rewrite Hf in Hin. apply list_elem_of_singleton in Hin as ->.
  apply EvaluateGuards_Forall in Hg. unfold tr_Guards in Hg. simpl in Hg.
  inversion_clear Hg as [|?? Hc Hg']. inversion_clear Hg' as [|?? Hq _]. simpl in *.
  destruct (workUnit m) as [wu|]; [|done]. unfold guardCanSubmit in Hc.
  destruct (wu_Source wu) as [src|] eqn:Es; [|done]. apply bool_decide_eq_true in Hc.
  exists wu, src. split_and!; [done|done|done|].
  unfold guardQualityGatePassed in Hq. by destruct (wu_QualityGatePassed wu) as [[]|].
Qed.

Lemma submit_requires_provider_and_gate_witness :
  let m := run_ops (take 7 sample_ops) NewMachine in
  is_ok (Dispatch 8%Z EventSubmit m).2 = true /\ state m = StateReviewing.
Proof.
  split; [by_eval|].
  by apply (submit_requires_provider_and_gate 8%Z (run_ops (take 7 sample_ops) NewMachine)).
Defined.

(** A wait or a pause is undone by the matching resume: after a successful
    [wait] or [pause], [DispatchWithResume] with [answer] or [resume] brings the
    machine back to the state it left, whatever that state was, and forgets the
    remembered state. *)
Theorem pause_resume_roundtrip (t1 t2 : Time) (ev back : Event) (m : Machine) :
  ev = EventWait \/ ev = EventPause ->
  back = EventAnswer \/ back = EventResume ->
  state m <> NoState ->
  is_ok (Dispatch t1 ev m).2 = true ->
  let m' := (Dispatch t1 ev m).1 in
  (DispatchWithResume t2 back m').2 = Ok tt /\
  state (DispatchWithResume t2 back m').1 = state m /\
  previousState (DispatchWithResume t2 back m').1 = NoState.
Proof.
  intros Hev Hback Hs. destruct (Dispatch t1 ev m) as [m' r] eqn:E; simpl. intros Hr.
  apply Dispatch_inv in E as [(e & -> & _)|(t & _ & _ & _ & _ & _ & _ & _ & _ & Hp & _)]; [done|].
  rewrite decide_True in Hp by done.
  unfold DispatchWithResume. rewrite decide_True by (by rewrite Hp). simpl. by rewrite Hp.
Qed.

Lemma pause_resume_roundtrip_witness :
  let m := run_ops (take 3 sample_ops) NewMachine in
  state m = StatePlanning /\
  state (DispatchWithResume 10%Z EventResume (Dispatch 9%Z EventPause m).1).1 = StatePlanning.
Proof.
  split; [by_eval|].
  apply (pause_resume_roundtrip 9%Z 10%Z EventPause EventResume
           (run_ops (take 3 sample_ops) NewMachine)); [by right|by right|by vm_compute|by_eval].
Defined.

(** Leaving a state for a re-entry and failing comes back to it: when the
    conductor recorded the state before the dispatch, an error or a stop
    afterwards restores exactly that state instead of the table's fixed
    target, and consumes the record. *)
Theorem reentry_rolls_back (t1 t2 : Time) (ev back : Event) (m : Machine) :
  back = EventError \/ back = EventStop ->
  ev <> EventError -> ev <> EventStop -> state m <> NoState ->
  let m1 := SetPriorStableState (state m) m in
  let m2 := (Dispatch t1 ev m1).1 in
  is_ok (Dispatch t1 ev m1).2 = true ->
  is_ok (Dispatch t2 back m2).2 = true ->
  state (Dispatch t2 back m2).1 = state m /\
  priorStableState (Dispatch t2 back m2).1 = NoState.
Proof.
  intros Hback He1 He2 Hs m1. destruct (Dispatch t1 ev m1) as [m2 r] eqn:E; simpl. intros Hr.
  apply Dispatch_inv in E as [(? & -> & _)|(t & _ & _ & _ & _ & _ & _ & _ & _ & _ & Hq)]; [done|].
  rewrite decide_False in Hq by naive_solver.
  destruct (Dispatch t2 back m2) as [m3 r3] eqn:E; simpl. intros Hr3.
  apply Dispatch_inv in E as [(? & -> & _)|(u & _ & _ & _ & _ & Hs3 & _ & _ & _ & _ & Hq3)]; [done|].
  rewrite decide_True in Hq3 by done. split; [|done].
  rewrite Hs3. unfold dispatch_target. by rewrite decide_True by (by rewrite Hq).
Qed.

Lemma reentry_rolls_back_witness :
  let m := run_ops sample_ops NewMachine in
  let m2 := (Dispatch 9%Z EventPlan (SetPriorStableState (state m) m)).1 in
  state m2 = StatePlanning /\ state (Dispatch 10%Z EventError m2).1 = state m.
Proof.
  intros m m2. split; [by_eval|].
  apply (reentry_rolls_back 9%Z 10%Z EventPlan EventError m);
    [by left|done|done|by vm_compute|by_eval|by_eval].
Defined.

(** [Reset] leaves the recorded prior stable state behind, so it leaks into
    the next task: a task abandoned while it is re-planned from [submitted],
    followed by a fresh task whose first planning run fails, ends in
    [submitted] although its history holds no submission. *)
Theorem reset_leaks_prior_state :
  let m := run_ops (sample_ops ++
    [OpRecordPrior; OpDispatch 9 EventPlan; OpReset;
     OpSetWorkUnit 10 (Some sample_unit); OpDispatch 11 EventStart;
     OpDispatch 12 EventPlan; OpDispatch 13 EventError])%Z NewMachine in
  state m = StateSubmitted /\ Forall (fun e => he_Event e <> EventSubmit) (history m).
Proof. split; [by_eval|]. by apply (bool_decide_unpack _); vm_compute. Qed.

(** [abort] does not clear the remembered state, so a resume later jumps
    over the table: after pause, abort and reset the task is [loaded], no
    transition from there is named resume, and [DispatchWithResume] still moves
    it back into [planning]. *)
Theorem stale_resume_bypasses_table :
  let m := run_ops (take 3 sample_ops ++
    [OpDispatch 4 EventPause; OpDispatch 5 EventAbort; OpDispatch 6 EventReset])%Z NewMachine in
  state m = StateLoaded /\ table_lookup (mkKey StateLoaded EventResume) = [] /\
  state (DispatchWithResume 7%Z EventResume m).1 = StatePlanning.
Proof. split_and!; by_eval. Qed.

(** [AvailableEvents] lists exactly the events [CanDispatch] accepts. *)
Theorem available_events_spec (ev : Event) (m : Machine) :
  ev ∈ AvailableEvents m <-> (CanDispatch ev m).1 = true.
Proof.
  rewrite (can_dispatch_ok_iff ev m). unfold AvailableEvents.
  rewrite list_elem_of_In, in_flat_map. split.
  - intros ([[f e] ts] & Hin & Hev). simpl in Hev.
    destruct (decide (f <> state m)) as [|Hf]; [done|].
    apply dec_stable in Hf as ->.
    destruct (existsb _ ts) eqn:Ex; [|done]. destruct Hev as [<-|[]].
    apply existsb_exists in Ex as (t & Ht & Hg). apply list_elem_of_In in Ht, Hin.
    exists t. by rewrite (table_lookup_entry _ _ Hin).
  - intros (t & Hin & Hg). exists (mkKey (state m) ev, table_lookup (mkKey (state m) ev)).
    split; [by apply list_elem_of_In, (table_lookup_elem _ t)|]. simpl.
    rewrite decide_False by naive_solver.
    replace (existsb _ _) with true; [by left|]. symmetry. apply existsb_exists.
    exists t. by rewrite <- list_elem_of_In.
Qed.

(** [NextStates] lists, without duplicates, exactly the states
    [CanTransition] accepts, and those are the targets of the table's
    transitions out of the state, guards aside. *)
Theorem next_states_spec (from to : State) :
  NoDup (NextStates from) /\
  (to ∈ NextStates from <-> CanTransition from to = true) /\
  (CanTransition from to = true <->
   exists ev t, t ∈ table_lookup (mkKey from ev) /\ tr_To t = to).
Proof.
  split_and!; [apply NextStates_NoDup| |apply CanTransition_lookup].
  rewrite CanTransition_lookup. apply NextStates_lookup.
Qed.

(** No declared state is a dead end: each has an outgoing transition, as
    its [Terminal: false] in the registry says, and from each the table leads,
    in finitely many transitions, back to [none], where a new task starts. *)
Theorem no_dead_end (s : State) :
  s ∈ all_states ->
  NextStates s <> [] /\ IsTerminal (ForceState s NewMachine) = false /\
  rtc (fun a b => CanTransition a b = true) s StateNone.
Proof.
  intros Hs.
  assert (Hall : forallb (fun s => negb (bool_decide (NextStates s = [])) &&
    negb (IsTerminal (ForceState s NewMachine)) && reaches_none 8 s) all_states = true) by by_eval.
  rewrite forallb_forall in Hall. apply list_elem_of_In, Hall in Hs.
  apply andb_true_iff in Hs as [[Hn Ht]%andb_true_iff Hr].
  split_and!; [|by apply negb_true_iff|by apply (reaches_none_sound 8)].
  by apply negb_true_iff, bool_decide_eq_false in Hn.
Qed.

Lemma no_dead_end_witness : NextStates StateFailed <> [].
Proof. apply (no_dead_end StateFailed). by apply (bool_decide_unpack _); vm_compute. Defined.
