(* ===== verification/Persist.v ===== *)
(** * Task persistence: the snapshot on disk and its conversions

    Translates the data of [internal/storage/task.go] and the conversions of
    [internal/conductor/conductor_state_convert.go]: [workUnitToTaskState]
    writes a work unit, its state and its history to the struct that is saved
    as task.yaml, [taskStateToWorkUnit] reads it back.  The YAML codec and the
    file system are not modelled: [SaveTaskState] and [LoadTaskState] are their
    effect on the struct. *)

From S2P Require Import Prelude WorkUnit Transitions Machine.

(** ** The on-disk structs (package storage) *)

Definition CurrentTaskStateVersion : Z := 1.

Record TaskHistoryEntry := mkTaskHistoryEntry {
  the_From : string;
  the_To : string;
  the_Event : string;
  the_Timestamp : Time
}.

Record TaskCheckpointMeta := {
  tcm_Message : string;
  tcm_State : string;
  tcm_CreatedAt : Time
}.

Record TaskApprovalRecord := {
  tar_ApprovedBy : string;
  tar_ApprovedAt : Time
}.

Record TaskSource := {
  tsrc_Provider : string;
  tsrc_Reference : string;
  tsrc_URL : string;
  tsrc_Content : string
}.

Record TaskHierarchySummary := {
  ths_ID : string;
  ths_Title : string;
  ths_Description : string;
  ths_URL : string;
  ths_Status : string
}.

Record TaskHierarchy := {
  th_Parent : option TaskHierarchySummary;
  th_Siblings : list TaskHierarchySummary
}.

Record TaskState := mkTaskState {
  tk_FormatVersion : Z;
  tk_State : string;
  tk_ID : string;
  tk_ExternalID : string;
  tk_Title : string;
  tk_Description : string;
  tk_Branch : string;
  tk_WorktreePath : string;
  tk_Specifications : list string;
  tk_Checkpoints : list string;
  tk_CheckpointMeta : go_map TaskCheckpointMeta;
  tk_RedoStack : list string;
  tk_Jobs : list string;
  tk_Metadata : go_map string;
  tk_Source : option TaskSource;
  tk_Hierarchy : option TaskHierarchy;
  tk_Approvals : go_map TaskApprovalRecord;
  tk_ChecklistChecked : list string;
  tk_Tags : list string;
  tk_Priority : Z;
  tk_DependsOn : list string;
  tk_QualityGatePassed : option bool;
  tk_VarPoolPath : string;
  tk_HasImplemented : bool;
  tk_TaskTraceID : string;
  tk_ProjectRoot : string;
  tk_History : list TaskHistoryEntry;
  tk_CreatedAt : Time;
  tk_UpdatedAt : Time
}.

#[export] Instance eta_TaskState : Eta TaskState := fun t =>
  mkTaskState (tk_FormatVersion t) (tk_State t) (tk_ID t) (tk_ExternalID t) (tk_Title t)
    (tk_Description t) (tk_Branch t) (tk_WorktreePath t) (tk_Specifications t)
    (tk_Checkpoints t) (tk_CheckpointMeta t) (tk_RedoStack t) (tk_Jobs t) (tk_Metadata t)
    (tk_Source t) (tk_Hierarchy t) (tk_Approvals t) (tk_ChecklistChecked t) (tk_Tags t)
    (tk_Priority t) (tk_DependsOn t) (tk_QualityGatePassed t) (tk_VarPoolPath t)
    (tk_HasImplemented t) (tk_TaskTraceID t) (tk_ProjectRoot t) (tk_History t)
    (tk_CreatedAt t) (tk_UpdatedAt t).

(** ** Conversions *)

Definition checkpoint_meta_to_storage (m : CheckpointMeta) : TaskCheckpointMeta :=
  {| tcm_Message := cm_Message m; tcm_State := cm_State m; tcm_CreatedAt := cm_CreatedAt m |}.

Definition checkpoint_meta_from_storage (m : TaskCheckpointMeta) : CheckpointMeta :=
  {| cm_Message := tcm_Message m; cm_State := tcm_State m; cm_CreatedAt := tcm_CreatedAt m |}.

(** The copying loop shared by the map conversions: a nil or empty map becomes
    nil, any other is rebuilt entry by entry. *)
Definition convert_map {A B} (f : A -> B) (m : go_map A) : go_map B :=
  match m with
  | None => None
  | Some m => if decide (size m = 0) then None else Some (f <$> m)
  end.

Definition convertCheckpointMetaToStorage : go_map CheckpointMeta -> go_map TaskCheckpointMeta :=
  convert_map checkpoint_meta_to_storage.

Definition convertCheckpointMetaFromStorage : go_map TaskCheckpointMeta -> go_map CheckpointMeta :=
  convert_map checkpoint_meta_from_storage.

Definition approval_to_storage (v : ApprovalRecord) : TaskApprovalRecord :=
  {| tar_ApprovedBy := ApprovedBy v; tar_ApprovedAt := ApprovedAt v |}.

Definition approval_from_storage (v : TaskApprovalRecord) : ApprovalRecord :=
  {| ApprovedBy := tar_ApprovedBy v; ApprovedAt := tar_ApprovedAt v |}.

Definition source_to_storage (s : Source) : TaskSource :=
  {| tsrc_Provider := Provider s; tsrc_Reference := Reference s; tsrc_URL := URL s;
     tsrc_Content := Content s |}.

Definition source_from_storage (s : TaskSource) : Source :=
  {| Provider := tsrc_Provider s; Reference := tsrc_Reference s; URL := tsrc_URL s;
     Content := tsrc_Content s |}.

Definition summary_to_storage (s : TaskSummary) : TaskHierarchySummary :=
  {| ths_ID := ts_ID s; ths_Title := ts_Title s; ths_Description := ts_Description s;
     ths_URL := ts_URL s; ths_Status := ts_Status s |}.

Definition summary_from_storage (s : TaskHierarchySummary) : TaskSummary :=
  {| ts_ID := ths_ID s; ts_Title := ths_Title s; ts_Description := ths_Description s;
     ts_URL := ths_URL s; ts_Status := ths_Status s |}.

Definition hierarchy_to_storage (h : HierarchyContext) : TaskHierarchy :=
  {| th_Parent := summary_to_storage <$> Parent h;
     th_Siblings := summary_to_storage <$> Siblings h |}.

Definition hierarchy_from_storage (h : TaskHierarchy) : HierarchyContext :=
  {| Parent := summary_from_storage <$> th_Parent h;
     Siblings := summary_from_storage <$> th_Siblings h |}.

Definition history_to_storage (h : HistoryEntry) : TaskHistoryEntry :=
  mkTaskHistoryEntry (he_From h) (he_To h) (he_Event h) (he_Timestamp h).

Definition history_from_storage (h : TaskHistoryEntry) : HistoryEntry :=
  mkHistoryEntry (the_From h) (the_To h) (the_Event h) (the_Timestamp h).

Definition workUnitToTaskState (st : State) (wu : WorkUnit) (history : list HistoryEntry)
  : TaskState :=
  {| tk_FormatVersion := 0;
     tk_State := st;
     tk_ID := wu_ID wu;
     tk_ExternalID := wu_ExternalID wu;
     tk_Title := wu_Title wu;
     tk_Description := wu_Description wu;
     tk_Branch := wu_Branch wu;
     tk_WorktreePath := wu_WorktreePath wu;
     tk_Specifications := wu_Specifications wu;
     tk_Checkpoints := wu_Checkpoints wu;
     tk_CheckpointMeta := convertCheckpointMetaToStorage (wu_CheckpointMeta wu);
     tk_RedoStack := wu_RedoStack wu;
     tk_Jobs := wu_Jobs wu;
     tk_Metadata := wu_Metadata wu;
     tk_Source := source_to_storage <$> wu_Source wu;
     tk_Hierarchy := hierarchy_to_storage <$> wu_Hierarchy wu;
     tk_Approvals := convert_map approval_to_storage (wu_Approvals wu);
     tk_ChecklistChecked := wu_ChecklistChecked wu;
     tk_Tags := wu_Tags wu;
     tk_Priority := wu_Priority wu;
     tk_DependsOn := wu_DependsOn wu;
     tk_QualityGatePassed := wu_QualityGatePassed wu;
     tk_VarPoolPath := wu_VarPoolPath wu;
     tk_HasImplemented := wu_HasImplemented wu;
     tk_TaskTraceID := wu_TaskTraceID wu;
     tk_ProjectRoot := "";
     tk_History := history_to_storage <$> history;
     tk_CreatedAt := wu_CreatedAt wu;
     tk_UpdatedAt := wu_UpdatedAt wu |}.

(** The fields the snapshot has no place for start from their zero values. *)
Definition taskStateToWorkUnit (ts : TaskState) : State * WorkUnit * list HistoryEntry :=
  let wu := zero_WorkUnit
    <| wu_ID := tk_ID ts |>
    <| wu_ExternalID := tk_ExternalID ts |>
    <| wu_Title := tk_Title ts |>
    <| wu_Description := tk_Description ts |>
    <| wu_Branch := tk_Branch ts |>
    <| wu_WorktreePath := tk_WorktreePath ts |>
    <| wu_Specifications := tk_Specifications ts |>
    <| wu_Checkpoints := tk_Checkpoints ts |>
    <| wu_CheckpointMeta := convertCheckpointMetaFromStorage (tk_CheckpointMeta ts) |>
    <| wu_RedoStack := tk_RedoStack ts |>
    <| wu_Jobs := tk_Jobs ts |>
    <| wu_Metadata := tk_Metadata ts |>
    <| wu_ChecklistChecked := tk_ChecklistChecked ts |>
    <| wu_Tags := tk_Tags ts |>
    <| wu_Priority := tk_Priority ts |>
    <| wu_DependsOn := tk_DependsOn ts |>
    <| wu_QualityGatePassed := tk_QualityGatePassed ts |>
    <| wu_VarPoolPath := tk_VarPoolPath ts |>
    <| wu_HasImplemented := tk_HasImplemented ts |>
    <| wu_TaskTraceID := tk_TaskTraceID ts |>
    <| wu_CreatedAt := tk_CreatedAt ts |>
    <| wu_UpdatedAt := tk_UpdatedAt ts |> in
  let wu := wu <| wu_Approvals := convert_map approval_from_storage (tk_Approvals ts) |> in
  let wu := wu <| wu_Metadata ::= fun m => match m with None => Some ∅ | Some _ => m end |> in
  let wu := wu <| wu_Source := source_from_storage <$> tk_Source ts |> in
  let wu := wu <| wu_Hierarchy := hierarchy_from_storage <$> tk_Hierarchy ts |> in
  (tk_State ts, wu, history_from_storage <$> tk_History ts).

(** ** Saving and loading *)

(** [SaveTaskState]: what is written is the struct stamped with the version. *)
Definition SaveTaskState (ts : TaskState) : TaskState :=
  ts <| tk_FormatVersion := CurrentTaskStateVersion |>.

(** [LoadTaskState] on the struct the file holds: state written by a newer
    version is refused, unversioned state is read as the current version. *)
Definition LoadTaskState (taskID : string) (ts : TaskState) : result string TaskState :=
  if (CurrentTaskStateVersion <? tk_FormatVersion ts)%Z then
    Err ("task " +:+ taskID +:+ ": state format version " +:+ pretty (tk_FormatVersion ts) +:+
         " is newer than supported version " +:+ pretty CurrentTaskStateVersion +:+
         ": upgrade kvelmo")
  else if (tk_FormatVersion ts =? 0)%Z then
    Ok (ts <| tk_FormatVersion := CurrentTaskStateVersion |>)
  else Ok ts.

(** ** Specification *)

(** A nil or empty map reads back as nil. *)
Definition trim_map {A} (m : go_map A) : go_map A :=
  match m with Some m => if decide (size m = 0) then None else Some m | None => None end.

(** What survives a restart: the fields of the snapshot, with the maps in
    their normal form; the rest are back at their zero values. *)
Definition persistent_part (wu : WorkUnit) : WorkUnit :=
  wu <| wu_PRID := "" |> <| wu_QualityGateError := "" |> <| wu_CancelledBy := "" |>
     <| wu_CancelledAt := 0%Z |> <| wu_ContextItems := [] |> <| wu_PhaseMetrics := None |>
     <| wu_RouteHistory := [] |> <| wu_Forks := [] |>
     <| wu_CheckpointMeta ::= trim_map |> <| wu_Approvals ::= trim_map |>
     <| wu_Metadata ::= fun m => match m with None => Some ∅ | Some _ => m end |>.

(** ** Lemmas *)

Lemma convert_map_roundtrip {A B} (f : A -> B) (g : B -> A) (m : go_map A) :
  (forall a, g (f a) = a) -> convert_map g (convert_map f m) = trim_map m.
Proof.
  intros Hgf. destruct m as [m|]; simpl; [|done].
  destruct (decide (size m = 0)) as [|Hm]; simpl; [done|].
  rewrite map_size_fmap, decide_False by done. f_equal.
  rewrite <- map_fmap_compose. rewrite <- (map_fmap_id m) at 2.
  apply map_fmap_ext. intros i x _. apply Hgf.
Qed.

Lemma trim_map_idemp {A} (m : go_map A) : trim_map (trim_map m) = trim_map m.
Proof. destruct m as [m|]; simpl; [|done]. by repeat (goal_decide; simpl). Qed.

Lemma option_fmap_roundtrip {A B} (f : A -> B) (g : B -> A) (o : option A) :
  (forall a, g (f a) = a) -> g <$> (f <$> o) = o.
Proof. intros H. destruct o; simpl; by rewrite ?H. Qed.

Lemma list_fmap_roundtrip {A B} (f : A -> B) (g : B -> A) (l : list A) :
  (forall a, g (f a) = a) -> g <$> (f <$> l) = l.
Proof. intros H. induction l as [|a l IH]; [done|]. by rewrite !fmap_cons, H, IH. Qed.

Lemma source_roundtrip s : source_from_storage (source_to_storage s) = s.
Proof. by destruct s. Qed.

Lemma summary_roundtrip s : summary_from_storage (summary_to_storage s) = s.
Proof. by destruct s. Qed.

Lemma hierarchy_roundtrip h : hierarchy_from_storage (hierarchy_to_storage h) = h.
Proof.
  destruct h as [p s]. unfold hierarchy_from_storage, hierarchy_to_storage; simpl.
  by rewrite option_fmap_roundtrip, list_fmap_roundtrip by apply summary_roundtrip.
Qed.

Lemma history_roundtrip h : history_from_storage (history_to_storage h) = h.
Proof. by destruct h. Qed.

Lemma save_load_fixed taskID st wu h :
  taskStateToWorkUnit (SaveTaskState (workUnitToTaskState st wu h)) =
    (st, persistent_part wu, h) /\
  LoadTaskState taskID (SaveTaskState (workUnitToTaskState st wu h)) =
    Ok (SaveTaskState (workUnitToTaskState st wu h)).
Proof.
  split; [|done]. unfold taskStateToWorkUnit, persistent_part; simpl.
  unfold convertCheckpointMetaFromStorage, convertCheckpointMetaToStorage.
  rewrite (convert_map_roundtrip checkpoint_meta_to_storage checkpoint_meta_from_storage)
    by (by intros []).
  rewrite (convert_map_roundtrip approval_to_storage approval_from_storage) by (by intros []).
  rewrite (option_fmap_roundtrip _ _ (wu_Source wu) source_roundtrip).
  rewrite (option_fmap_roundtrip _ _ (wu_Hierarchy wu) hierarchy_roundtrip).
  rewrite (list_fmap_roundtrip _ _ h history_roundtrip). done.
Qed.

(** ** Properties *)

(** C19: Saving and loading a task gives back its state, its history and the
    persistent part of its work unit: writing the snapshot, stamping it,
    accepting it on load and converting it back is the identity on everything
    the snapshot holds. *)
Theorem save_load_roundtrip (taskID : string) (st : State) (wu : WorkUnit) (h : list HistoryEntry) :
  exists ts, LoadTaskState taskID (SaveTaskState (workUnitToTaskState st wu h)) = Ok ts /\
    taskStateToWorkUnit ts = (st, persistent_part wu, h).
Proof.
  destruct (save_load_fixed taskID st wu h). by eexists.
Qed.

(** A restart loses nothing twice: the persistent part is a fixed point of
    saving and loading, so every later restart gives back the same work
    unit. *)
Theorem restart_is_idempotent (st : State) (wu : WorkUnit) (h : list HistoryEntry) :
  let wu' := persistent_part wu in
  taskStateToWorkUnit (SaveTaskState (workUnitToTaskState st wu' h)) = (st, wu', h).
Proof.
  cbv zeta. rewrite (proj1 (save_load_fixed "" st (persistent_part wu) h)).
  unfold persistent_part; simpl. rewrite !trim_map_idemp. by destruct (wu_Metadata wu).
Qed.

(** State of a newer format is refused instead of being read with fields
    dropped, and unversioned state is accepted as the current version. *)
Theorem load_version_policy (taskID : string) (ts : TaskState) :
  (is_ok (LoadTaskState taskID ts) = false <-> (CurrentTaskStateVersion < tk_FormatVersion ts)%Z) /\
  (tk_FormatVersion ts = 0%Z -> LoadTaskState taskID ts = Ok (SaveTaskState ts)).
Proof.
  unfold LoadTaskState, SaveTaskState, CurrentTaskStateVersion. split.
  - destruct (Z.ltb_spec 1 (tk_FormatVersion ts)); [done|].
    destruct (_ =? _)%Z; simpl; split; done || lia.
  - by intros ->.
Qed.
