(* ===== verification/Interfaces.v ===== *)
(** * Interfaces between the components

    What the conductor uses of the git repository, the worker pool's job
    control and the directory of task files, as classes over a type [W] of
    worlds.  The operations of [Git] and [TaskFiles] run git and the file system;
    those of [JobControl] are implemented by the worker pool.  The classes with
    [Laws] state the documented behaviour the theorems rely on. *)

From S2P Require Import Prelude WorkUnit Persist.

(** ** Operations *)

(** [internal/git.Repository]: [git_head] is the commit HEAD points to. *)
Class Git (W : Type) := {
  git_head : W -> string;
  git_Reset : string -> bool -> W -> W * result string unit;
  git_Commit : string -> W -> W * result string string;
  git_DeleteBranch : string -> W -> W * result string unit;
  git_RemoveWorktree : string -> bool -> W -> W * result string unit
}.

(** The part of [internal/worker.Pool] the task lifecycle calls. *)
Class JobControl (W : Type) := {
  pool_InterruptJob : string -> W -> W * result string unit;
  pool_CancelJob : string -> W -> W * result string unit
}.

(** The directory of task files: one task.yaml per task ID, with its
    modification time, and the variable pool's file.  A read that fails says
    whether the file was missing. *)
Inductive ReadError := NotExist | ReadFailure (msg : string).

Class TaskFiles (W : Type) := {
  fs_EnsureDir : string -> W -> W * result string unit;
  fs_SaveYAML : string -> TaskState -> W -> W * result string unit;
  fs_LoadYAML : string -> W -> result ReadError TaskState;
  fs_Remove : string -> W -> W * result ReadError unit;
  fs_ReadDir : W -> result ReadError (list (string * bool));
  fs_ModTime : string -> W -> option Time;
  varpool_Save : string -> W -> W * result string unit;
  WorkDir : string -> string
}.

(** ** Laws *)

(** [git reset --hard <sha>] moves HEAD to the commit, [git commit] reports the
    commit HEAD is at, and the operations on branches, worktrees, jobs and
    task files leave HEAD alone. *)
Class EnvLaws (W : Type) `{Git W, JobControl W, TaskFiles W} := {
  reset_head sha w w' : git_Reset sha true w = (w', Ok tt) -> git_head w' = sha;
  commit_head msg w w' sha : git_Commit msg w = (w', Ok sha) -> git_head w' = sha;
  ensure_head d w : git_head (fs_EnsureDir d w).1 = git_head w;
  save_head d ts w : git_head (fs_SaveYAML d ts w).1 = git_head w;
  varpool_head p w : git_head (varpool_Save p w).1 = git_head w
}.

(** What was written is what is read, and writing touches no other task. *)
Class FileLaws (W : Type) `{TaskFiles W} := {
  save_load d ts w w' : fs_SaveYAML d ts w = (w', Ok tt) -> fs_LoadYAML d w' = Ok ts;
  save_frame d d' ts w : d <> d' -> fs_LoadYAML d' (fs_SaveYAML d ts w).1 = fs_LoadYAML d' w;
  ensure_frame d d' w : fs_LoadYAML d' (fs_EnsureDir d w).1 = fs_LoadYAML d' w;
  varpool_frame p d' w : fs_LoadYAML d' (varpool_Save p w).1 = fs_LoadYAML d' w;
  remove_load d w w' : fs_Remove d w = (w', Ok tt) -> fs_LoadYAML d w' = Err NotExist
}.
