(* ===== verification/Conductor.v ===== *)
(** * The conductor: shared state, events and persistence

    Translates the part of [internal/conductor] that every operation of the
    task lifecycle uses: the [Conductor] record (conductor.go), [emit]
    (conductor_events.go), [persistState] and [LoadState] (conductor_state.go),
    the checkpoint metadata (conductor_job_helpers.go) and the store's
    operations on task.yaml (internal/storage/task.go).

    [c.workUnit] and the work unit inside [c.machine] are one pointer in the
    code, so the model has one location for it, the machine's.  [now] is the
    clock, read in order: [now 0] is the first [time.Now] of an operation. *)

From S2P Require Import Prelude WorkUnit Transitions Machine Persist Interfaces.

(** ** State *)

(** The timestamp, and the correlation and sub-task IDs no modelled operation
    sets, are left out. *)
Record ConductorEvent := mkEvent {
  ce_Type : string;
  ce_State : State;
  ce_JobID : string;
  ce_NodeID : string;
  ce_Message : string;
  ce_Data : string;
  ce_Error : string;
  ce_Phase : string;
  ce_FailureClass : string;
  ce_FailureMessage : string
}.

#[export] Instance eta_ConductorEvent : Eta ConductorEvent := fun e =>
  mkEvent (ce_Type e) (ce_State e) (ce_JobID e) (ce_NodeID e) (ce_Message e) (ce_Data e)
    (ce_Error e) (ce_Phase e) (ce_FailureClass e) (ce_FailureMessage e).

(** The fields most events set. *)
Definition mkConductorEvent (type : string) (st : State) (jobID msg data : string) : ConductorEvent :=
  mkEvent type st jobID "" msg data "" "" "" "".

Definition simple_event (type : string) (st : State) (msg : string) : ConductorEvent :=
  mkConductorEvent type st "" msg "".

Record QueuedTask := mkQueuedTask {
  qt_ID : string;
  qt_Source : string;
  qt_Title : string;
  qt_Priority : Z;
  qt_PreferredAgent : string;
  qt_AddedAt : Time;
  qt_Position : Z
}.

#[export] Instance eta_QueuedTask : Eta QueuedTask := fun t =>
  mkQueuedTask (qt_ID t) (qt_Source t) (qt_Title t) (qt_Priority t) (qt_PreferredAgent t)
    (qt_AddedAt t) (qt_Position t).

(** The fields the modelled operations use.  [events] is the buffered channel,
    [notified] what was handed to the listeners, [world] the environment
    behind the [git], [pool] and [store] pointers, of which the flags say
    whether they are set. *)
Record Conductor (W : Type) := mkConductor {
  machine : Machine;
  worktree : string;
  hasPool : bool;
  hasGit : bool;
  hasStore : bool;
  hasVarPool : bool;
  commitPrefix : string;
  activeJobID : string;
  taskQueue : list QueuedTask;
  closed : bool;
  events : list ConductorEvent;
  events_dropped : nat;
  notified : list ConductorEvent;
  world : W
}.
Arguments mkConductor {W}.
Arguments machine {W}.
Arguments worktree {W}.
Arguments hasPool {W}.
Arguments hasGit {W}.
Arguments hasStore {W}.
Arguments hasVarPool {W}.
Arguments commitPrefix {W}.
Arguments activeJobID {W}.
Arguments taskQueue {W}.
Arguments closed {W}.
Arguments events {W}.
Arguments events_dropped {W}.
Arguments notified {W}.
Arguments world {W}.

#[export] Instance eta_Conductor {W} : Eta (Conductor W) := fun c =>
  mkConductor (machine c) (worktree c) (hasPool c) (hasGit c) (hasStore c) (hasVarPool c)
    (commitPrefix c) (activeJobID c) (taskQueue c) (closed c) (events c) (events_dropped c)
    (notified c) (world c).

(** [c.workUnit]. *)
Definition cd_workUnit {W} (c : Conductor W) : option WorkUnit := workUnit (machine c).

(** A write through [c.workUnit]. *)
Definition upd_workUnit {W} (f : WorkUnit -> WorkUnit) (c : Conductor W) : Conductor W :=
  c <| machine ::= fun m => m <| workUnit ::= fmap f |> |>.

(** ** Events *)

Definition events_capacity : nat := 100.

(** The channel send is non-blocking, the listeners always get the event; the
    timestamp [emit] adds is not kept. *)
Definition emit {W} (e : ConductorEvent) (c : Conductor W) : Conductor W :=
  if closed c then c
  else
    let c := if length (events c) <? events_capacity
             then c <| events := events c ++ [e] |>
             else c <| events_dropped ::= S |> in
    c <| notified := notified c ++ [e] |>.

Definition truncateSHA (sha : string) (n : nat) : string :=
  if String.length sha <? n then sha else String.substring 0 n sha.

Definition isActivePhaseState (s : State) : bool :=
  go_switch s [(StatePlanning, true); (StateImplementing, true); (StateSimplifying, true);
    (StateOptimizing, true); (StateReviewing, true); (StateNone, false); (StateLoaded, false);
    (StatePlanned, false); (StateImplemented, false); (StateSubmitted, false);
    (StateFailed, false); (StateWaiting, false); (StatePaused, false)] false.

Definition NeedsRecovery {W} (c : Conductor W) : bool :=
  match cd_workUnit c with
  | None => false
  | Some _ => isActivePhaseState (state (machine c))
  end.

Definition RecoveryState {W} (c : Conductor W) : string :=
  match cd_workUnit c with
  | None => ""
  | Some _ => if isActivePhaseState (state (machine c)) then state (machine c) else ""
  end.

Definition formatCheckpointMessage {W} (message : string) (c : Conductor W) : string :=
  commitPrefix c +:+ " " +:+ message.

Definition recordCheckpointMeta (now : Time) (sha message st : string) (wu : WorkUnit)
  : WorkUnit :=
  let meta := match wu_CheckpointMeta wu with None => ∅ | Some m => m end in
  wu <| wu_CheckpointMeta := Some (<[sha := {| cm_Message := message; cm_State := st;
                                               cm_CreatedAt := now |}]> meta) |>.

(** ** The store and the conductor's use of it *)

Section store.
Context {W : Type} `{TaskFiles W}.
Local Open Scope go_scope.

(** [Store.SaveTaskState] on the files. *)
Definition store_SaveTaskState (ts : TaskState) (w : W) : W * result string unit :=
  match fs_EnsureDir (tk_ID ts) w with
  | (w, Err e) => (w, Err e)
  | (w, Ok _) => fs_SaveYAML (tk_ID ts) (SaveTaskState ts) w
  end.

Definition store_LoadTaskState (taskID : string) (w : W) : result ReadError TaskState :=
  match fs_LoadYAML taskID w with
  | Err e => Err e
  | Ok ts => match LoadTaskState taskID ts with
             | Err e => Err (ReadFailure e)
             | Ok ts => Ok ts
             end
  end.

Definition store_DeleteTaskState (taskID : string) (w : W) : W * result string unit :=
  match fs_Remove taskID w with
  | (w, Err NotExist) | (w, Ok _) => (w, Ok tt)
  | (w, Err (ReadFailure e)) => (w, Err e)
  end.

(** The scan for the task file modified last; [projectRoot] is empty for a
    store inside the project.  The zero [time.Time] is before every file
    time. *)
Definition find_newest (projectRoot : string) (w : W) (entries : list (string * bool))
  : string * option Time :=
  fold_left (fun acc (e : string * bool) =>
    let '(newest, newestTime) := acc in
    if negb e.2 then acc else
    match fs_ModTime e.1 w with
    | None => acc
    | Some mtime =>
        let skip := if decide (projectRoot = "") then false else
          match store_LoadTaskState e.1 w with
          | Err _ => true
          | Ok ts => bool_decide (tk_ProjectRoot ts <> projectRoot)
          end in
        if skip then acc
        else match newestTime with
             | Some t => if (t <? mtime)%Z then (e.1, Some mtime) else acc
             | None => (e.1, Some mtime)
             end
    end) entries ("", None).

Definition FindActiveTask (projectRoot : string) (w : W) : result string string :=
  match fs_ReadDir w with
  | Err NotExist => Ok ""
  | Err (ReadFailure e) => Err e
  | Ok entries => Ok (find_newest projectRoot w entries).1
  end.

Definition persistVarPool (c : Conductor W) : Conductor W :=
  match cd_workUnit c with
  | Some wu =>
      if hasVarPool c && hasStore c then
        let path := WorkDir (wu_ID wu) +:+ "/varpool.json" in
        let c := c <| world ::= fun w => (varpool_Save path w).1 |> in
        upd_workUnit (fun wu => wu <| wu_VarPoolPath := path |>) c
      else c
  | None => c
  end.

(** The snapshot that is written: the current work unit, state and history,
    tagged with the project. *)
Definition snapshot (c : Conductor W) (wu : WorkUnit) : TaskState :=
  workUnitToTaskState (state (machine c)) wu (history (machine c))
    <| tk_ProjectRoot := worktree c |>.

Definition persistState (c : Conductor W) : Conductor W :=
  if negb (hasStore c) then c else
  match cd_workUnit c with
  | None => c
  | Some _ =>
      let c := persistVarPool c in
      match cd_workUnit c with
      | None => c
      | Some wu => c <| world ::= fun w => (store_SaveTaskState (snapshot c wu) w).1 |>
      end
  end.

(** [loadVarPool] only fills the variable pool, creating it when a path is
    recorded. *)
Definition loadVarPool (c : Conductor W) : Conductor W :=
  match cd_workUnit c with
  | None => c
  | Some wu => if decide (wu_VarPoolPath wu = "") then c else c <| hasVarPool := true |>
  end.

Definition LoadState (now : nat -> Time) (projectRoot : string) (c : Conductor W)
  : Conductor W * result string unit :=
  if negb (hasStore c) then (c, Ok tt) else
  match FindActiveTask projectRoot (world c) with
  | Err e => (c, Err ("find active task: " +:+ e))
  | Ok taskID =>
      if decide (taskID = "") then (c, Ok tt) else
      match store_LoadTaskState taskID (world c) with
      | Err NotExist => (c, Ok tt)
      | Err (ReadFailure e) => (c, Err ("load task state: " +:+ e))
      | Ok ts =>
          let '(st, wu, h) := taskStateToWorkUnit ts in
          let c := c <| machine ::= fun m =>
            RestoreHistory h (SetWorkUnit (now 0) (Some wu) (ForceState st m)) |> in
          (loadVarPool c, Ok tt)
      end
  end.
End store.

(** ** Lemmas *)

(** The checkpoint and redo stacks, the part of the work unit the lifecycle
    operations move. *)
Definition stacks {W} (c : Conductor W) : option (list string * list string) :=
  (fun wu => (wu_Checkpoints wu, wu_RedoStack wu)) <$> cd_workUnit c.

Section lemmas.
Context {W : Type}.
Implicit Types c : Conductor W.

Lemma emit_frame e c :
  machine (emit e c) = machine c /\ world (emit e c) = world c /\ hasGit (emit e c) = hasGit c /\
  activeJobID (emit e c) = activeJobID c /\ hasStore (emit e c) = hasStore c.
Proof. unfold emit. destruct (closed c); [done|]. by destruct (_ <? events_capacity). Qed.

(** The buffered channel never holds more than its capacity. *)
Lemma emit_bounded e c :
  length (events c) <= events_capacity -> length (events (emit e c)) <= events_capacity.
Proof.
  unfold emit. intros Hl. destruct (closed c); [done|].
  destruct (Nat.ltb_spec (length (events c)) events_capacity); simpl; [|done].
  rewrite length_app. simpl. lia.
Qed.

Lemma stacks_emit e c : stacks (emit e c) = stacks c.
Proof. unfold stacks, cd_workUnit. by destruct (emit_frame e c) as [-> _]. Qed.

Lemma stacks_upd f c :
  stacks (upd_workUnit f c) =
  (fun wu => (wu_Checkpoints (f wu), wu_RedoStack (f wu))) <$> cd_workUnit c.
Proof. unfold stacks, cd_workUnit; simpl. by destruct (workUnit (machine c)). Qed.

Context `{TaskFiles W}.

Lemma persistVarPool_frame c :
  state (machine (persistVarPool c)) = state (machine c) /\
  history (machine (persistVarPool c)) = history (machine c) /\
  priorStableState (machine (persistVarPool c)) = priorStableState (machine c) /\
  stacks (persistVarPool c) = stacks c /\
  hasGit (persistVarPool c) = hasGit c /\ activeJobID (persistVarPool c) = activeJobID c.
Proof.
  unfold persistVarPool, stacks, cd_workUnit.
  destruct (workUnit (machine c)) eqn:Ew; [|by rewrite Ew].
  destruct (hasVarPool c && hasStore c); simpl; by rewrite ?Ew.
Qed.

Lemma persistState_frame c :
  state (machine (persistState c)) = state (machine c) /\
  history (machine (persistState c)) = history (machine c) /\
  priorStableState (machine (persistState c)) = priorStableState (machine c) /\
  stacks (persistState c) = stacks c /\
  hasGit (persistState c) = hasGit c /\ activeJobID (persistState c) = activeJobID c.
Proof.
  pose proof (persistVarPool_frame c) as Hv. unfold persistState.
  destruct (hasStore c); simpl; [|done].
  destruct (cd_workUnit c); [|done].
  destruct (cd_workUnit (persistVarPool c)); exact Hv.
Qed.

(** Writing the state touches no field of the work unit but the pool's path. *)
Lemma persistState_workUnit {A} (f : WorkUnit -> A) c :
  (forall wu p, f (wu <| wu_VarPoolPath := p |>) = f wu) ->
  option_map f (cd_workUnit (persistState c)) = option_map f (cd_workUnit c).
Proof.
  intros Hf. assert (Hv : option_map f (cd_workUnit (persistVarPool c)) =
    option_map f (cd_workUnit c)).
  { unfold persistVarPool, cd_workUnit. destruct (workUnit (machine c)) eqn:Ew;
      [|by rewrite Ew]. destruct (_ && _); simpl; rewrite Ew; [|done].
    simpl. f_equal. apply Hf. }
  unfold persistState. destruct (hasStore c); simpl; [|done].
  destruct (cd_workUnit c) eqn:Ew; simpl; [|by rewrite Ew].
  destruct (cd_workUnit (persistVarPool c)) eqn:Ev; simpl in *; [|done].
  change (option_map f (cd_workUnit (persistVarPool c)) = Some (f w)). by rewrite Ev.
Qed.

Context `{Git W} `{JobControl W} {HL : EnvLaws W}.

Lemma store_save_head ts w : git_head (store_SaveTaskState ts w).1 = git_head w.
Proof.
  unfold store_SaveTaskState. pose proof (ensure_head (tk_ID ts) w) as He.
  destruct (fs_EnsureDir _ _) as [w1 [?|?]]; simpl in *; [|done].
  by rewrite save_head.
Qed.

Lemma persistState_head c : git_head (world (persistState c)) = git_head (world c).
Proof.
  unfold persistState. destruct (hasStore c) eqn:Es; simpl; [|done].
  destruct (cd_workUnit c) as [wu|] eqn:Ew; [|done].
  assert (Hv : git_head (world (persistVarPool c)) = git_head (world c)).
  { unfold persistVarPool. rewrite Ew. destruct (hasVarPool c && hasStore c); [|done]. simpl.
    apply varpool_head. }
  destruct (cd_workUnit (persistVarPool c)); simpl; [|done].
  by rewrite store_save_head.
Qed.
End lemmas.

(** ** A simulated environment

    One commit counter, a HEAD and the task files: an instance of the
    interfaces for the concrete runs. *)
Record SimWorld := mkSim {
  sim_head : string;
  sim_next : Z;
  sim_files : gmap string TaskState;
  sim_jobs : list (string * string)
}.

#[export] Instance eta_SimWorld : Eta SimWorld := fun w =>
  mkSim (sim_head w) (sim_next w) (sim_files w) (sim_jobs w).

#[export] Instance sim_git : Git SimWorld := {
  git_head := sim_head;
  git_Reset sha _ w := (w <| sim_head := sha |>, Ok tt);
  git_Commit _ w := let sha := "sha-" +:+ pretty (sim_next w) in
    (w <| sim_head := sha |> <| sim_next ::= Z.succ |>, Ok sha);
  git_DeleteBranch _ w := (w, Ok tt);
  git_RemoveWorktree _ _ w := (w, Ok tt)
}.

#[export] Instance sim_jobcontrol : JobControl SimWorld := {
  pool_InterruptJob id w := (w <| sim_jobs ::= fun l => l ++ [("interrupt", id)] |>, Ok tt);
  pool_CancelJob id w := (w <| sim_jobs ::= fun l => l ++ [("cancel", id)] |>, Ok tt)
}.

#[export] Instance sim_taskfiles : TaskFiles SimWorld := {
  fs_EnsureDir _ w := (w, Ok tt);
  fs_SaveYAML id ts w := (w <| sim_files ::= <[id := ts]> |>, Ok tt);
  fs_LoadYAML id w := match sim_files w !! id with Some ts => Ok ts | None => Err NotExist end;
  fs_Remove id w := (w <| sim_files ::= delete id |>, Ok tt);
  fs_ReadDir w := Ok (map (fun e : string * TaskState => (e.1, true)) (map_to_list (sim_files w)));
  fs_ModTime id w := tk_UpdatedAt <$> sim_files w !! id;
  varpool_Save _ w := (w, Ok tt);
  WorkDir id := "work/" +:+ id
}.

#[export] Instance sim_envlaws : EnvLaws SimWorld.
Proof. split; simpl; intros; by simplify_eq/=. Qed.

#[export] Instance sim_filelaws : FileLaws SimWorld.
Proof.
  split; simpl; intros; simplify_eq/=; [by rewrite lookup_insert_eq| |done|done|].
  - by rewrite lookup_insert_ne.
  - by rewrite lookup_delete_eq.
Qed.

(** A conductor in [st] with everything set, whose repository is at the last
    of the checkpoints [cps]. *)
Definition sim_conductor (st : State) (cps redo : list string) : Conductor SimWorld :=
  mkConductor
    (ForceState st (SetWorkUnit 0%Z
       (Some (sample_unit <| wu_Checkpoints := cps |> <| wu_RedoStack := redo |>)) NewMachine))
    "repo" true true true true "[kvelmo]" "job-1" [] false [] 0 []
    (mkSim (default "" (last cps)) 10%Z ∅ []).

Definition sim_clock (n : nat) : Time := (100 + Z.of_nat n)%Z.

Definition undo_sample : Conductor SimWorld := sim_conductor StateImplemented ["a"; "b"; "c"] [].

(** ** Properties *)

(** A restart restores the task: when writing the snapshot succeeds, a
    conductor that loads it later (it is the active task of the project) is in
    the same state, with the same history and the persistent part of the work
    unit that was written. *)
Theorem persisted_state_restored {W} `{FileLaws W} (now : nat -> Time) (root : string)
    (c d : Conductor W) (wu : WorkUnit) :
  hasStore c = true -> hasStore d = true ->
  cd_workUnit (persistVarPool c) = Some wu -> wu_ID wu <> "" ->
  (store_SaveTaskState (snapshot (persistVarPool c) wu) (world (persistVarPool c))).2 = Ok tt ->
  world d = world (persistState c) ->
  FindActiveTask root (world d) = Ok (wu_ID wu) ->
  exists d', LoadState now root d = (d', Ok tt) /\
    state (machine d') = state (machine c) /\
    history (machine d') = history (machine c) /\
    cd_workUnit d' = Some (persistent_part wu <| wu_UpdatedAt := now 0 |>).
Proof.
  intros Hsc Hsd Hwu Hid Hsave Hw Hfind.
  assert (Hc : is_Some (cd_workUnit c)).
  { unfold persistVarPool in Hwu. destruct (cd_workUnit c) eqn:E; [done|].
    by rewrite E in Hwu. }
  destruct Hc as [wu0 Hc].
  assert (Hload : store_LoadTaskState (wu_ID wu) (world d) =
    Ok (SaveTaskState (snapshot (persistVarPool c) wu))).
  { rewrite Hw. unfold persistState. rewrite Hsc. simpl. rewrite Hc, Hwu. simpl.
    revert Hsave. unfold store_SaveTaskState, store_LoadTaskState.
    destruct (fs_EnsureDir _ _) as [w1 [[]|?]]; [|done]. intros Hsave.
    destruct (fs_SaveYAML _ _ w1) as [w2 r] eqn:E2. simpl in *. subst r.
    by rewrite (save_load _ _ _ _ E2). }
  unfold LoadState. rewrite Hsd. cbv beta iota delta [negb]. rewrite Hfind, decide_False, Hload by done.
  assert (Hconv : taskStateToWorkUnit (SaveTaskState (snapshot (persistVarPool c) wu)) =
    (state (machine c), persistent_part wu, history (machine c))).
  { destruct (persistVarPool_frame c) as (Hs & Hh & _). rewrite <- Hs, <- Hh.
    exact (proj1 (save_load_fixed "" _ _ _)). }
  cbv beta iota. rewrite Hconv.
  eexists. split; [done|].
  unfold loadVarPool, cd_workUnit; simpl. by destruct (decide (_ = "")).
Qed.

Definition restart_sample : Conductor SimWorld :=
  emit (simple_event "x" StatePlanned "x") undo_sample.

Lemma persisted_state_restored_witness :
  exists d', LoadState sim_clock "" (restart_sample <| machine := NewMachine |>
               <| world := world (persistState undo_sample) |>) = (d', Ok tt) /\
    state (machine d') = StateImplemented.
Proof.
  destruct (cd_workUnit (persistVarPool undo_sample)) as [wu|] eqn:E; [|by vm_compute in E].
  destruct (persisted_state_restored sim_clock "" undo_sample
    (restart_sample <| machine := NewMachine |> <| world := world (persistState undo_sample) |>) wu)
    as (d' & Hd & Hs & _); [done|done|done| |done|done| |].
  - by vm_compute in E; simplify_eq.
  - vm_compute in E. simplify_eq. by_eval.
  - exists d'. split; [exact Hd|]. by rewrite Hs.
Defined.
