(* ===== verification/Progress.v ===== *)
(** * Progress estimation

    Translates [internal/conductor/progress_estimator.go].  Every method holds
    the lock of its object for its whole body. *)

From S2P Require Import Prelude Floats.

(** ** The estimator *)

Definition second_ns : Z := 1000000000%Z.

(** [Duration.Seconds()] of the standard library. *)
Definition Seconds (d : Duration) : spec_float :=
  float_add (float_of_Z (Z.quot d second_ns)) (float_div (float_of_Z (Z.rem d second_ns)) (float_of_Z second_ns)).

Record ProgressEstimate := mkEstimate {
  Percent : spec_float;
  ETASeconds : Z;
  Signals : Z;
  Calibrated : bool
}.

Record ProgressEstimator := mkEstimator {
  startTime : Time;
  signals : Z;
  meanDuration : Duration
}.

Definition NewProgressEstimator (now : Time) (mean : Duration) : ProgressEstimator :=
  mkEstimator now 0 mean.

Definition Signal (e : ProgressEstimator) : ProgressEstimator :=
  mkEstimator (startTime e) (signals e + 1) (meanDuration e).

Definition ResetEstimator (now : Time) (mean : Duration) (e : ProgressEstimator) : ProgressEstimator :=
  mkEstimator now 0 mean.

Definition GetEstimate (now : Time) (e : ProgressEstimator) : ProgressEstimate :=
  if (0 <? meanDuration e)%Z then
    let elapsed := (now - startTime e)%Z in
    let ratio := float_div (float_of_Z elapsed) (float_of_Z (meanDuration e)) in
    let percent := float_mul ratio (float_of_Z 100) in
    let percent := cap_below (float_of_Z 0) (cap_above (float_of_Z 95) percent) in
    let remaining := (meanDuration e - elapsed)%Z in
    mkEstimate percent (Z.max (trunc (Seconds remaining)) 0) (signals e) true
  else
    let percent := float_mul (float_of_Z (signals e)) (float_of_Z 2) in
    let percent := cap_above (float_of_Z 90) percent in
    mkEstimate percent (-1) (signals e) false.

(** ** The calibrator *)

Notation ProgressCalibrator := (gmap string (list Duration)).

Definition Calibrate (phase : string) (d : Duration) (c : ProgressCalibrator) : ProgressCalibrator :=
  <[phase := default [] (c !! phase) ++ [d]]> c.

(** The sum is an int64. *)
Definition MeanDuration (phase : string) (c : ProgressCalibrator) : Duration :=
  match default [] (c !! phase) with
  | [] => 0%Z
  | ds => Z.quot (fold_left (fun total d => wrap64 (total + d)) ds 0%Z) (Z.of_nat (length ds))
  end.

(** ** Lemmas *)

(** A shown percentage is never above its cap, 95 with a calibration and 90
    without, and never below zero when calibrated. *)
Lemma estimate_capped now e :
  let r := GetEstimate now e in
  float_lt (float_of_Z (if Calibrated r then 95 else 90)) (Percent r) = false /\
  (Calibrated r = true -> float_lt (Percent r) (float_of_Z 0) = false /\ (0 <= ETASeconds r)%Z).
Proof.
  unfold GetEstimate. destruct (0 <? meanDuration e)%Z; cbn [Calibrated Percent ETASeconds].
  - split; [|split; [by apply cap_below_lt|lia]]. unfold cap_below.
    destruct (float_lt _ (float_of_Z 0)); [done|by apply cap_above_lt].
  - split; [by apply cap_above_lt|done].
Qed.
