(* ===== verification/Errors.v ===== *)
(** * Errors for the user and failure classes

    Translates [internal/conductor/errors.go].  An [error] is the text it
    prints: no caller in the conductor wraps a [UserError], so the [errors.As]
    of [EnrichError] never matches. *)

From S2P Require Import Prelude WorkUnit.

(** ** User errors *)

Record UserError := mkUserError {
  ue_Message : string;
  ue_Fix : string;
  ue_Code : string;
  ue_Cause : string
}.

Record errorPattern := pattern {
  ep_Contains : string;
  ep_Message : string;
  ep_Fix : string;
  ep_Code : string
}.

Definition errorPatterns : list errorPattern :=
  [ pattern "no available agents" "No AI agent is connected"
     ("Install Claude CLI: https://docs.anthropic.com/en/docs/claude-code/getting-started" +:+ nl +:+
     "Or run: kvelmo diagnose") "agent_unavailable";
    pattern "agent connect failed" "Could not connect to AI agent"
     ("Check that Claude is authenticated: claude auth login") "agent_connect";
    pattern "connect failed (both WebSocket and CLI)" "Could not connect to AI agent"
     ("Verify Claude CLI works: claude --version" +:+ nl +:+
     "Then authenticate: claude auth login") "agent_connect";
    pattern "no worker pool available" "No worker pool is running"
     ("Restart kvelmo: kvelmo serve") "pool_unavailable";
    pattern "pool stopped" "The worker pool has stopped"
     ("Restart kvelmo: kvelmo serve") "pool_stopped";
    pattern "push branch" "Git push failed"
     ("Check your git credentials and remote access." +:+ nl +:+
     "For GitHub: set token in Settings or run kvelmo config set providers.github.token <token>") "git_push";
    pattern "create PR" "Could not create pull request"
     ("Verify the branch has commits and the target branch exists." +:+ nl +:+
     "Check your provider token has sufficient permissions.") "pr_create";
    pattern "quality gate failed" "Code quality checks did not pass"
     ("Review the issues listed in the output and fix them." +:+ nl +:+
     "Or re-run review to try again: kvelmo review") "quality_gate";
    pattern "rate_limit" "API rate limit reached"
     ("Wait a few minutes and retry, or switch to a different model") "rate_limit";
    pattern "429" "API rate limit reached"
     ("Wait a few minutes and retry") "rate_limit";
    pattern "context_length" "Context window exceeded"
     ("Try simplifying the task or breaking it into smaller steps") "context_overflow";
    pattern "maximum context" "Context window exceeded"
     ("Reduce task scope or use kvelmo simplify first") "context_overflow";
    pattern "signal: killed" "Agent process was killed (likely OOM)"
     ("Check system memory. Consider using a smaller model or simpler task") "agent_killed";
    pattern "signal: terminated" "Agent process was terminated"
     ("Check if another process killed the agent. Retry with: kvelmo <phase>") "agent_terminated";
    pattern "context deadline exceeded" "Operation timed out"
     ("Increase timeout in settings or break the task into smaller steps") "timeout";
    pattern "authentication" "Authentication failed"
     ("Check your API key or re-authenticate: claude auth login") "auth_failed";
    pattern "unauthorized" "Authentication failed"
     ("Your API key may have expired. Re-authenticate: claude auth login") "auth_failed";
    pattern "no task loaded" "No task is loaded"
     ("Load a task first: kvelmo start --from <source>") "no_task";
    pattern "cannot plan" "Cannot start planning"
     ("Check the task state with: kvelmo status") "state_error";
    pattern "cannot implement" "Cannot start implementation"
     ("Run planning first: kvelmo plan") "state_error" ].

Definition EnrichError (err phase : string) : UserError :=
  match List.find (fun p => contains (ep_Contains p) err) errorPatterns with
  | Some p => mkUserError (ep_Message p) (ep_Fix p) (ep_Code p) err
  | None =>
      let msg := if decide (phase = "") then "An unexpected error occurred"
                 else "An error occurred during " +:+ phase in
      mkUserError msg "Check the output for details. Run: kvelmo diagnose" "unknown" err
  end.

(** ** Failure classes *)

Definition FailureClass := string.
Definition FailureClassHardStop : FailureClass := "hard_stop".
Definition FailureClassRecoverable : FailureClass := "recoverable".
Definition FailureClassDegraded : FailureClass := "degraded".
Definition FailureClassSkippable : FailureClass := "skippable".

Definition PhasePlan : string := "plan".
Definition PhaseImplement : string := "implement".
Definition PhaseSimplify : string := "simplify".
Definition PhaseOptimize : string := "optimize".
Definition PhaseReview : string := "review".

Definition recoverablePatterns : list string :=
  ["rate_limit"; "429"; "context_length"; "maximum context"; "context deadline exceeded";
   "connection refused"; "connection reset"; "temporary failure"; "i/o timeout"; "EOF"].
Definition skippablePatterns : list string :=
  ["no changes"; "nothing to simplify"; "nothing to optimize"; "empty diff"; "no modifications"].
Definition degradedPatterns : list string :=
  ["memory indexer"; "quality check unavailable"; "optional subsystem"].

Definition matches_any (patterns : list string) (s : string) : bool :=
  existsb (fun p => contains p s) patterns.

(** A nil error has no class. *)
Definition ClassifyError (err : option string) (phase : string) : FailureClass :=
  match err with
  | None => ""
  | Some errStr =>
      if matches_any recoverablePatterns errStr then FailureClassRecoverable
      else if bool_decide (phase = PhaseSimplify \/ phase = PhaseOptimize) &&
              matches_any skippablePatterns errStr then FailureClassSkippable
      else if matches_any degradedPatterns errStr then FailureClassDegraded
      else FailureClassHardStop
  end.

Example classify_timeout :
  ClassifyError (Some "post: context deadline exceeded") PhasePlan = FailureClassRecoverable.
Proof. by_eval. Qed.
Example classify_nothing_to_do :
  (ClassifyError (Some "no changes") PhaseOptimize, ClassifyError (Some "no changes") PhasePlan) =
  (FailureClassSkippable, FailureClassHardStop).
Proof. by_eval. Qed.
Example enrich_no_task : ue_Code (EnrichError "no task loaded" "plan") = "no_task".
Proof. by_eval. Qed.
