(* ===== verification/VarPool.v ===== *)
(** * The variable pool

    Translates [internal/varpool]: the typed key-value store that phases and
    graph nodes share.  Each method holds the pool's lock for its whole body, so
    it is a function on the map.  JSON text is produced by the parameter
    [marshal] (encoding/json). *)

From S2P Require Import Prelude Floats.

(** ** Data *)

(** What a Go [any] can hold here: [VInt] is an [int] or [int64], [VSlice] a
    [[]any], [VOther] any other type, as its JSON text. *)
Inductive Value :=
| VString (s : string)
| VFloat (f : spec_float)
| VInt (n : Z)
| VBool (b : bool)
| VSlice (l : list Value)
| VOther (json : string).

Definition VarType := string.
Definition TypeString : VarType := "string".
Definition TypeNumber : VarType := "number".
Definition TypeBool : VarType := "bool".
Definition TypeJSON : VarType := "json".

(** A zero [ExpiresAt] is no expiry. *)
Record Variable_ := mkVariable {
  v_Name : string;
  v_Type : VarType;
  v_Value : Value;
  v_SetBy : string;
  v_Timestamp : Time;
  v_ExpiresAt : option Time;
  v_ExecutionID : string
}.

#[export] Instance eta_Variable : Eta Variable_ := fun v =>
  mkVariable (v_Name v) (v_Type v) (v_Value v) (v_SetBy v) (v_Timestamp v) (v_ExpiresAt v)
    (v_ExecutionID v).

Notation VarMap := (gmap string Variable_).
Implicit Types (p : VarMap) (name setBy scope : string) (now : Time).

Definition detectType (value : Value) : VarType :=
  match value with
  | VString _ => TypeString
  | VFloat _ | VInt _ => TypeNumber
  | VBool _ => TypeBool
  | VSlice _ | VOther _ => TypeJSON
  end.

Definition toFloat64 (v : Value) : spec_float :=
  match v with VFloat f => f | VInt n => float_of_Z n | _ => float_zero end.

(** ** Operations *)

Definition new_variable now name (value : Value) setBy : Variable_ :=
  mkVariable name (detectType value) value setBy now None "".

Definition SetVar now name (value : Value) setBy p : VarMap :=
  <[name := new_variable now name value setBy]> p.

(** [!v.ExpiresAt.IsZero() && now.After(v.ExpiresAt)] *)
Definition expired now (v : Variable_) : bool :=
  match v_ExpiresAt v with Some t => (t <? now)%Z | None => false end.

Definition GetVar now name p : option Variable_ :=
  match p !! name with
  | None => None
  | Some v => if expired now v then None else Some v
  end.

Definition GetString now name p : string :=
  match GetVar now name p with Some v => match v_Value v with VString s => s | _ => "" end | None => "" end.

Definition GetNumber now name p : spec_float :=
  match GetVar now name p with Some v => toFloat64 (v_Value v) | None => float_zero end.

Definition GetBool now name p : bool :=
  match GetVar now name p with Some v => match v_Value v with VBool b => b | _ => false end | None => false end.

Definition Append now name (value : Value) setBy p : VarMap * result string unit :=
  match p !! name with
  | None => (<[name := mkVariable name TypeJSON (VSlice [value]) setBy now None ""]> p, Ok tt)
  | Some v =>
      match v_Value v with
      | VSlice l =>
          (<[name := v <| v_Value := VSlice (l ++ [value]) |> <| v_SetBy := setBy |>
                       <| v_Timestamp := now |>]> p, Ok tt)
      | _ => (p, Err ("varpool: cannot append to " +:+ name +:+ " (type " +:+ v_Type v +:+ ")"))
      end
  end.

Definition Increment now name (delta : spec_float) setBy p : VarMap * result string unit :=
  match p !! name with
  | None => (<[name := mkVariable name TypeNumber (VFloat delta) setBy now None ""]> p, Ok tt)
  | Some v =>
      if decide (v_Type v <> TypeNumber)
      then (p, Err ("varpool: cannot increment " +:+ name +:+ " (type " +:+ v_Type v +:+ ")"))
      else (<[name := v <| v_Value := VFloat (float_add (toFloat64 (v_Value v)) delta) |>
                        <| v_SetBy := setBy |> <| v_Timestamp := now |>]> p, Ok tt)
  end.

Definition Decrement now name (delta : spec_float) setBy p : VarMap * result string unit :=
  Increment now name (SFopp delta) setBy p.

Definition SetWithTTL now name (value : Value) setBy (ttl : Duration) p : VarMap :=
  let v := new_variable now name value setBy in
  <[name := if (0 <? ttl)%Z then v <| v_ExpiresAt := Some (now + ttl)%Z |> else v]> p.

Definition SetExecutionScoped now (executionID : string) name (value : Value) setBy p : VarMap :=
  <[name := new_variable now name value setBy <| v_ExecutionID := executionID |>]> p.

Definition ClearExecution (executionID : string) p : VarMap :=
  filter (fun e : string * Variable_ => v_ExecutionID e.2 <> executionID) p.

Definition CleanExpired now p : VarMap * nat :=
  let kept := filter (fun e : string * Variable_ => expired now e.2 = false) p in
  (kept, size p - size kept).

Definition DeleteVar name p : VarMap := delete name p.

Definition name_le (a b : Variable_) : Prop := String.le (v_Name a) (v_Name b).
#[export] Instance name_le_dec a b : Decision (name_le a b).
Proof. unfold name_le. apply _. Defined.

(** [slices.SortFunc] by name; the variables come in the order of a map range,
    here the order of the map's list. *)
Definition sort_by_name (l : list Variable_) : list Variable_ := merge_sort name_le l.

Definition ListVars p : list Variable_ := sort_by_name (map_to_list p).*2.
Definition LenVars p : nat := size p.

(** *** Scopes *)

Definition ScopeSystem : string := "sys".
Definition ScopePlan : string := "plan".
Definition ScopeImplement : string := "implement".
Definition ScopeSimplify : string := "simplify".
Definition ScopeOptimize : string := "optimize".
Definition ScopeReview : string := "review".

Definition scopedKey scope name : string := scope +:+ "." +:+ name.

Definition SetScoped now scope name (value : Value) setBy p : VarMap :=
  SetVar now (scopedKey scope name) value setBy p.
Definition GetScoped now scope name p : option Variable_ := GetVar now (scopedKey scope name) p.
Definition GetScopedString now scope name p : string := GetString now (scopedKey scope name) p.

(** [len(k) > len(prefix) && k[:len(prefix)] == prefix] *)
Definition in_scope scope (k : string) : bool :=
  let prefix := scope +:+ "." in
  (String.length prefix <? String.length k) && has_prefix k prefix.

Definition ClearScope scope p : VarMap :=
  filter (fun e : string * Variable_ => in_scope scope e.1 = false) p.

Definition ListScope scope p : list Variable_ :=
  sort_by_name (map_to_list (filter (fun e : string * Variable_ => in_scope scope e.1 = true) p)).*2.

Definition dot : Ascii.ascii := Ascii.ascii_of_nat 46.

(** [strings.Cut(name, ".")] *)
Fixpoint splitScope (name : string) : option (string * string) :=
  match name with
  | "" => None
  | String c rest =>
      if decide (c = dot) then Some ("", rest)
      else match splitScope rest with
           | Some (before, after) => Some (String c before, after)
           | None => None
           end
  end.

Definition scope_of (name : string) : string := match splitScope name with Some (s, _) => s | None => "" end.
Definition key_of (name : string) : string := match splitScope name with Some (_, k) => k | None => name end.

(** ** Lemmas *)

Lemma get_set now now' name value setBy p :
  GetVar now' name (SetVar now name value setBy p) = Some (new_variable now name value setBy).
Proof. unfold GetVar, SetVar. by rewrite lookup_insert_eq. Qed.

Lemma get_set_ne now now' name name' value setBy p :
  name <> name' -> GetVar now' name' (SetVar now name value setBy p) = GetVar now' name' p.
Proof. intros. unfold GetVar, SetVar. by rewrite lookup_insert_ne. Qed.

Lemma lookup_ClearScope scope p k :
  ClearScope scope p !! k = if in_scope scope k then None else p !! k.
Proof.
  unfold ClearScope. rewrite map_lookup_filter. destruct (p !! k); simpl.
  - destruct (in_scope scope k); [by rewrite option_guard_False|by rewrite option_guard_True].
  - by destruct (in_scope scope k).
Qed.

Lemma in_scope_key scope name : name <> "" -> in_scope scope (scopedKey scope name) = true.
Proof.
  intros Hn. unfold in_scope, scopedKey, has_prefix.
  assert (He : scope +:+ "." +:+ name = (scope +:+ ".") +:+ name) by (symmetry; apply string_app_assoc).
  rewrite He, prefix_app, andb_true_r. apply Nat.ltb_lt. rewrite (string_app_length (scope +:+ ".")).
  destruct name; [done|]. simpl. lia.
Qed.

(** The scope a name is cut at: the part before the first dot. *)
Lemma splitScope_key scope name :
  splitScope scope = None -> splitScope (scopedKey scope name) = Some (scope, name).
Proof.
  unfold scopedKey. induction scope as [|c scope IH]; [done|].
  change (String c scope +:+ "." +:+ name) with (String c (scope +:+ "." +:+ name)). simpl.
  case_decide; [done|]. destruct (splitScope scope) as [[]|] eqn:E; [done|].
  intros _. by rewrite IH.
Qed.

(** Two scopes without dots never share a key. *)
Lemma in_scope_other scope scope' name :
  splitScope scope = None -> splitScope scope' = None -> scope <> scope' ->
  in_scope scope (scopedKey scope' name) = false.
Proof.
  intros Hs Hs' Hne. apply not_true_is_false. unfold in_scope, has_prefix.
  intros [_ Hp]%andb_true_iff. apply Hne. clear Hne. unfold scopedKey in Hp.
  revert scope' Hs' Hp. induction scope as [|c scope IH]; intros [|c' scope'] Hs' Hp.
  - done.
  - apply (prefix_cons dot c') in Hp as [<- _]. discriminate Hs'.
  - apply (prefix_cons c dot (scope +:+ ".")) in Hp as [-> _]. discriminate Hs.
  - apply (prefix_cons c c' (scope +:+ ".") (scope' +:+ "." +:+ name)) in Hp as [<- Hp].
    simpl in Hs, Hs'. destruct (decide (c = dot)); [done|]. f_equal. apply IH; [| |done].
    + by destruct (splitScope scope) as [[]|].
    + by destruct (splitScope scope') as [[]|].
Qed.
