(* ===== verification/RespCache.v ===== *)
(** * The response cache

    Translates [internal/respcache/cache.go].  Each method is a body over the
    cache: the map of entries is behind the lock, the counters are atomics.
    [hashPrompt] is the hex SHA-256 of the prompt; the order in which a map
    range visits the entries and the clock are answers of the environment. *)

From S2P Require Import Prelude Proc ProcLocks.

(** ** State *)

Record CacheEntry := mkEntry {
  en_Prompt : string;
  en_Response : string;
  en_Phase : string;
  en_CreatedAt : Time;
  en_HitCount : Z
}.

#[export] Instance eta_CacheEntry : Eta CacheEntry := fun e =>
  mkEntry (en_Prompt e) (en_Response e) (en_Phase e) (en_CreatedAt e) (en_HitCount e).

Record Cache := mkCache {
  entries : gmap string CacheEntry;
  maxEntries : Z;
  ttl : Duration;
  hits : Z;
  misses : Z;
  tokensSaved : Z
}.

#[export] Instance eta_Cache : Eta Cache := fun c =>
  mkCache (entries c) (maxEntries c) (ttl c) (hits c) (misses c) (tokensSaved c).

Definition hour : Duration := 3600000000000%Z.

Definition NewCache (max : Z) (ttl : Duration) : Cache :=
  mkCache ∅ (if (max <=? 0)%Z then 1000%Z else max)
    (if (ttl <=? 0)%Z then (168 * hour)%Z else ttl) 0 0 0.

(** ** Eviction *)

(** The loop that keeps the oldest hash seen so far. *)
Definition oldest (m : gmap string CacheEntry) (keys : list string) : option (string * Time) :=
  fold_left (fun acc k =>
    match m !! k with
    | None => acc
    | Some e =>
        match acc with
        | None => Some (k, en_CreatedAt e)
        | Some (_, t) => if (en_CreatedAt e <? t)%Z then Some (k, en_CreatedAt e) else acc
        end
    end) keys None.

Definition evictOldest (order : list string) (c : Cache) : Cache :=
  match oldest (entries c) (range_keys order (entries c)) with
  | Some (k, _) => c <| entries ::= delete k |>
  | None => c
  end.

(** ** Methods *)

Inductive cache_query := CQNow | CQOrder.
Definition cache_answer (q : cache_query) : Type :=
  match q with CQNow => Time | CQOrder => list string end.

Notation cproc := (@proc Cache cache_query Empty_set cache_answer).

Section methods.
Context (hashPrompt : string -> string).
Local Open Scope proc_scope.

(** What [Get] finds under the read lock. *)
Inductive found := Missing | Expired | Hit (response : string).

Definition look (now : Time) (hash : string) (c : Cache) : found :=
  match entries c !! hash with
  | None => Missing
  | Some e => if (ttl c <? now - en_CreatedAt e)%Z then Expired else Hit (en_Response e)
  end.

Definition count_hit (hash : string) (c : Cache) : Cache :=
  c <| entries ::= alter (fun e => e <| en_HitCount ::= Z.succ |>) hash |>.

Definition Get (prompt : string) : cproc (option string) :=
  let hash := hashPrompt prompt in
  lock Read;;;
  let* now := ask CQNow in
  let* f := reads (look now hash) in
  match f with
  | Missing =>
      unlock Read;;;
      freely (fun c => c <| misses ::= Z.succ |>);;;
      Ret None
  | Expired =>
      unlock Read;;;
      (* the expired entry goes under the write lock, taken separately *)
      lock Write;;;
      writes (fun c => c <| entries ::= delete hash |>);;;
      unlock Write;;;
      freely (fun c => c <| misses ::= Z.succ |>);;;
      Ret None
  | Hit response =>
      freely (count_hit hash);;;
      unlock Read;;;
      freely (fun c => c <| hits ::= Z.succ |>);;;
      freely (fun c => c <| tokensSaved ::= fun n => n + Z.of_nat (String.length response) / 4 |>%Z);;;
      Ret (Some response)
  end.

Definition put_entry (now : Time) (order : list string) (prompt response phase : string) (c : Cache)
  : Cache :=
  let hash := hashPrompt prompt in
  match entries c !! hash with
  | Some e =>
      c <| entries ::= <[hash := e <| en_Response := response |> <| en_Phase := phase |>
                                   <| en_CreatedAt := now |>]> |>
  | None =>
      let c := if (maxEntries c <=? Z.of_nat (size (entries c)))%Z then evictOldest order c else c in
      c <| entries ::= <[hash := mkEntry prompt response phase now 0]> |>
  end.

Definition Put (prompt response phase : string) : cproc unit :=
  deferred (let* now := ask CQNow in
            let* order := ask CQOrder in
            writes (put_entry now order prompt response phase)).

Definition Clear : cproc unit :=
  lock Write;;;
  writes (fun c => c <| entries := ∅ |>);;;
  unlock Write;;;
  freely (fun c => c <| hits := 0%Z |>);;;
  freely (fun c => c <| misses := 0%Z |>);;;
  freely (fun c => c <| tokensSaved := 0%Z |>).

Definition Len : cproc nat :=
  lock Read;;; let* n := reads (fun c => size (entries c)) in unlock Read;;; Ret n.
End methods.

(** ** Interleaved calls *)

Inductive cache_call :=
| CallGet (prompt : string)
| CallPut (prompt response phase : string)
| CallClear
| CallLen.

Definition run_cache_call (hash : string -> string) (t : cache_call) : cproc unit :=
  match t with
  | CallGet p => discard (Get hash p)
  | CallPut p r ph => Put hash p r ph
  | CallClear => Clear
  | CallLen => discard Len
  end.

(** No cache call starts another. *)
Definition no_calls (t : Empty_set) : cproc unit := match t with end.

Definition cache_start (hash : string -> string) (c : Cache) (ts : list cache_call) :=
  start_config c (run_cache_call hash <$> ts).

(** ** Lemmas *)

(** The loop ends with a key whose entry is at least as old as every entry it
    visited. *)
Lemma oldest_spec m keys :
  match oldest m keys with
  | None => forall k, k ∈ keys -> m !! k = None
  | Some (k, t) =>
      k ∈ keys /\ (exists e, m !! k = Some e /\ en_CreatedAt e = t) /\
      forall k' e', k' ∈ keys -> m !! k' = Some e' -> (t <= en_CreatedAt e')%Z
  end.
Proof.
  unfold oldest. induction keys as [|k keys IH] using rev_ind; simpl; [by intros k ?%not_elem_of_nil|].
  rewrite fold_left_app. simpl.
  destruct (m !! k) as [e|] eqn:Ek.
  - destruct (fold_left _ keys None) as [[k0 t0]|] eqn:E.
    + destruct IH as (Hk0 & Hm0 & Hmin).
      destruct (Z.ltb_spec (en_CreatedAt e) t0).
      * split_and!; [set_solver|eauto|]. intros k' e' [Hk'| ->%list_elem_of_singleton]%elem_of_app He';
          [specialize (Hmin k' e' Hk' He'); lia|naive_solver lia].
      * split_and!; [set_solver|done|]. intros k' e' [Hk'| ->%list_elem_of_singleton]%elem_of_app He';
          [by eapply Hmin|naive_solver lia].
    + split_and!; [set_solver|eauto|]. intros k' e' [Hk'| ->%list_elem_of_singleton]%elem_of_app He';
        [by rewrite IH in He'|naive_solver lia].
  - destruct (fold_left _ keys None) as [[k0 t0]|] eqn:E.
    + destruct IH as (Hk0 & Hm0 & Hmin). split_and!; [set_solver|done|].
      intros k' e' [Hk'| ->%list_elem_of_singleton]%elem_of_app He'; [by eapply Hmin|congruence].
    + intros k' [Hk'| ->%list_elem_of_singleton]%elem_of_app; [by apply IH|done].
Qed.

(** One entry goes, an oldest one. *)
Lemma evictOldest_spec order c :
  entries c <> ∅ ->
  exists k e, entries c !! k = Some e /\ entries (evictOldest order c) = delete k (entries c) /\
    forall k' e', entries c !! k' = Some e' -> (en_CreatedAt e <= en_CreatedAt e')%Z.
Proof.
  intros Hne. pose proof (oldest_spec (entries c) (range_keys order (entries c))) as Ho.
  unfold evictOldest. destruct (oldest _ _) as [[k t]|].
  - destruct Ho as (_ & (e & He & <-) & Hmin). exists k, e. split_and!; [done|done|].
    intros k' e' He'. apply (Hmin k' e'); [by apply elem_of_range_keys|done].
  - destruct (map_choose _ Hne) as (k & v & Hv).
    rewrite (Ho k) in Hv; [done|]. by apply elem_of_range_keys.
Qed.

Lemma evict_settings order c :
  maxEntries (evictOldest order c) = maxEntries c /\ ttl (evictOldest order c) = ttl c.
Proof. unfold evictOldest. by destruct (oldest _ _) as [[]|]. Qed.

Definition bounded (c : Cache) : Prop :=
  (0 < maxEntries c)%Z /\ (Z.of_nat (size (entries c)) <= maxEntries c)%Z.

Lemma put_bounded hash now order p r ph c :
  bounded c -> bounded (put_entry hash now order p r ph c).
Proof.
  intros [Hpos Hb]. unfold put_entry, bounded.
  destruct (entries c !! hash p) as [e|] eqn:Ee; simpl.
  - split; [done|]. rewrite map_size_insert, Ee. simpl. lia.
  - destruct (Z.leb_spec (maxEntries c) (Z.of_nat (size (entries c)))).
    + destruct (evict_settings order c) as [Hm _]. simpl. rewrite Hm. split; [done|].
      assert (Hne : entries c <> ∅) by (intros E; rewrite E, map_size_empty in *; lia).
      destruct (evictOldest_spec order c Hne) as (k & e & Hk & -> & _).
      rewrite map_size_insert. pose proof (map_size_delete_Some k (entries c) ltac:(eauto)).
      assert (size (entries c) <> 0) by (by apply map_size_non_empty_iff).
      destruct (delete k (entries c) !! hash p); simpl; lia.
    + simpl. split; [done|]. rewrite map_size_insert, Ee. simpl. lia.
Qed.

Lemma bounded_size c c' :
  bounded c -> maxEntries c' = maxEntries c -> size (entries c') <= size (entries c) -> bounded c'.
Proof. unfold bounded. intros [? ?] ->. lia. Qed.

Lemma cache_calls_keep hash t : acts_keep bounded (fun _ => True) (run_cache_call hash t).
Proof.
  destruct t; unfold run_cache_call, Get, Put, Clear, Len; check_acts;
    try (by apply put_bounded); (eapply bounded_size; [eassumption|done|]; simpl).
  all: rewrite <- ?(size_dom (D := gset string)), ?dom_alter_L, ?dom_delete_L, ?dom_empty_L, ?size_empty; try lia.
  apply subseteq_size. set_solver.
Qed.

Lemma cache_calls_locked hash t :
  well_locked None (run_cache_call hash t) None /\ panic_free (run_cache_call hash t).
Proof.
  destruct t; unfold run_cache_call, Get, Put, Clear, Len, discard; split; try (by simpl);
    try (by check_locks); simpl; intros; try destruct (look _ _ _); simpl; auto.
Qed.

Lemma put_entry_found hash now order p r ph c :
  exists e, entries (put_entry hash now order p r ph c) !! hash p = Some e /\
    en_Response e = r /\ en_CreatedAt e = now /\ ttl (put_entry hash now order p r ph c) = ttl c.
Proof.
  unfold put_entry. destruct (entries c !! hash p) as [e|] eqn:Ee; simpl.
  - rewrite lookup_insert_eq. by eexists.
  - rewrite lookup_insert_eq. eexists. split_and!; [done|done|done|].
    case_match; [by destruct (evict_settings order c)|done].
Qed.

(** ** Properties *)

Definition settled (c : Cache) : @local Cache Empty_set := mkLocal c Unheld [] 0.

(** in every interleaving of [Get], [Put], [Clear] and [Len] calls on a new
    cache, whatever the clock and the order of map ranges, the cache never
    holds more entries than its maximum, no call panics, and two calls never
    access the entries at once with one of them writing. *)
Theorem cache_calls_safe hash max d ts c :
  rtc (step no_calls) (cache_start hash (NewCache max d) ts) c ->
  (Z.of_nat (size (entries (cf_shared c))) <= maxEntries (cf_shared c))%Z /\
  cf_crashed c = false /\
  forall i j p q a, cf_threads c !! i = Some p -> cf_threads c !! j = Some q ->
    accesses Writes p -> accesses a q -> a = Reads \/ a = Writes -> i = j.
Proof.
  intros Hr. unfold cache_start in Hr.
  assert (Hb : bounded (NewCache max d)).
  { unfold bounded, NewCache; simpl. rewrite map_size_empty. destruct (Z.leb_spec max 0); simpl; lia. }
  assert (Hlocked : Forall (fun p : cproc unit => well_locked None p None) (run_cache_call hash <$> ts)).
  { apply Forall_fmap, Forall_forall. intros t _. apply cache_calls_locked. }
  assert (Hpf : Forall panic_free (run_cache_call hash <$> ts)).
  { apply Forall_fmap, Forall_forall. intros t _. apply cache_calls_locked. }
  assert (Hk : Forall (acts_keep bounded (fun _ => True)) (run_cache_call hash <$> ts)).
  { apply Forall_fmap, Forall_forall. intros t _. apply cache_calls_keep. }
  destruct (steps_keep bounded (fun _ => True) no_calls _ _ _ (fun t => match t with end) Hk Hb Hr) as [[_ Hsz] _].
  destruct (no_crash_reachable no_calls (fun t => match t with end) _ _ _
    (fun t => match t with end) Hlocked Hpf Hr) as [Hc Hinv].
  split_and!; [exact Hsz|done|]. intros i j p q a. by eapply locked_race_free.
Qed.

(** what a lookup does, alone.  It returns a response only when the entry of
    the prompt is at most [ttl] old, and then that entry's; an expired entry is
    removed, and the hit and miss counters count it. *)
Theorem Get_spec hash env prompt c :
  let now := env 0 CQNow in
  let r := exec env (Get hash prompt) (settled c) in
  held_lock r.1 = Unheld /\
  match entries c !! hash prompt with
  | Some e =>
      if decide (now - en_CreatedAt e <= ttl c)%Z then
        r.2 = Done (Some (en_Response e)) /\
        entries (shared r.1) =
          alter (fun e => e <| en_HitCount ::= Z.succ |>) (hash prompt) (entries c) /\
        hits (shared r.1) = Z.succ (hits c) /\ misses (shared r.1) = misses c
      else
        r.2 = Done None /\ entries (shared r.1) = delete (hash prompt) (entries c) /\
        hits (shared r.1) = hits c /\ misses (shared r.1) = Z.succ (misses c)
  | None =>
      r.2 = Done None /\ entries (shared r.1) = entries c /\
      hits (shared r.1) = hits c /\ misses (shared r.1) = Z.succ (misses c)
  end.
Proof.
  cbn. unfold look. destruct (entries c !! hash prompt) as [e|]; [|done].
  destruct (Z.ltb_spec (ttl c) (env 0%nat CQNow - en_CreatedAt e)); case_decide; try lia; done.
Qed.

(** an answer that was stored is found again within the time to live, also
    when storing it evicted another entry; storing never touches the other
    prompts' entries beyond one eviction, of an oldest entry, made only at the
    capacity. *)
Theorem Put_then_Get hash (env env' : nat -> forall q, cache_answer q) prompt response phase c :
  let put := (exec env (Put hash prompt response phase) (settled c)).1 in
  (env' 0%nat CQNow - env 0%nat CQNow <= ttl c)%Z ->
  (exec env' (Get hash prompt) (settled (shared put))).2 = Done (Some response) /\
  (forall k e, k <> hash prompt -> entries c !! k = Some e ->
    entries (shared put) !! k = Some e \/
    entries c !! hash prompt = None /\ (maxEntries c <= Z.of_nat (size (entries c)))%Z /\
    entries (shared put) !! k = None /\
    (forall k' e', entries c !! k' = Some e' -> (en_CreatedAt e <= en_CreatedAt e')%Z)).
Proof.
  intros put Httl. subst put. split.
  - destruct (put_entry_found hash (env 0 CQNow) (env 1 CQOrder) prompt response phase c)
      as (e & He & Hr & Ht & Hd).
    cbn. unfold look. rewrite He, Ht, Hd.
    destruct (Z.ltb_spec (ttl c) (env' 0%nat CQNow - env 0%nat CQNow)); [lia|]. simpl. by rewrite Hr.
  - intros k e Hk He. cbn. unfold put_entry.
    destruct (entries c !! hash prompt) as [e0|] eqn:E0; simpl; [left; by rewrite lookup_insert_ne|].
    rewrite lookup_insert_ne by done.
    destruct (Z.leb_spec (maxEntries c) (Z.of_nat (size (entries c)))); [|by left].
    destruct (evictOldest_spec (env 1 CQOrder) c) as (k0 & e' & Hk0 & -> & Hmin).
    { intros E. by rewrite E, lookup_empty in He. }
    destruct (decide (k0 = k)) as [->|]; [right|left; by rewrite lookup_delete_ne].
    rewrite lookup_delete_eq. simplify_eq. eauto.
Qed.

Definition clock_at (now : Time) (n : nat) (q : cache_query) : cache_answer q :=
  match q with CQNow => now | CQOrder => [] end.

(** Two answers stored at once in a cache for one. *)
Definition small_cache_run :=
  run_schedule no_calls (clock_at 9%Z) 0 (replicate 5 1 ++ replicate 5 0)
    (cache_start id (NewCache 1%Z 2%Z) [CallPut "p" "r" "plan"; CallPut "q" "s" "plan"]).

Lemma cache_calls_safe_witness :
  match small_cache_run with
  | Some c => (Z.of_nat (size (entries (cf_shared c))) <= maxEntries (cf_shared c))%Z /\
              cf_crashed c = false /\ dom (entries (cf_shared c)) = {["p"]}
  | None => False
  end.
Proof.
  assert (Hd : match small_cache_run with
               | Some c => bool_decide (dom (entries (cf_shared c)) = {["p"]}) | None => false end = true)
    by by vm_compute.
  destruct small_cache_run as [c|] eqn:E; [|done]. apply bool_decide_eq_true in Hd.
  destruct (cache_calls_safe id 1%Z 2%Z [CallPut "p" "r" "plan"; CallPut "q" "s" "plan"] c) as (? & ? & _);
    [by eapply run_schedule_steps|]. done.
Defined.

Lemma Put_then_Get_witness :
  (exec (clock_at 5%Z) (Get id "p")
    (settled (shared (exec (clock_at 3%Z) (Put id "p" "r" "plan") (settled (NewCache 1%Z 2%Z))).1))).2 =
  Done (Some "r").
Proof.
  refine (proj1 (Put_then_Get id (clock_at 3%Z) (clock_at 5%Z) "p" "r" "plan" (NewCache 1%Z 2%Z) _)).
  by vm_compute.
Defined.

(** The window between the two locks of an expired [Get]: a [Put] that stores a
    fresh answer in between loses it, both calls having returned. *)
Lemma expired_get_drops_fresh_put :
  let stale := NewCache 10%Z 2%Z <| entries := {["p" := mkEntry "p" "old" "plan" 0%Z 0%Z]} |> in
  exists c, rtc (step no_calls) (cache_start id stale [CallGet "p"; CallPut "p" "new" "plan"]) c /\
    cf_threads c = [Ret tt; Ret tt] /\ entries (cf_shared c) = ∅.
Proof.
  intros stale.
  destruct (run_schedule no_calls (clock_at 9%Z) 0
    (replicate 4 0 ++ replicate 5 1 ++ replicate 4 0)
    (cache_start id stale [CallGet "p"; CallPut "p" "new" "plan"])) as [c|] eqn:E;
    [|by vm_compute in E].
  exists c. split; [by eapply run_schedule_steps|]. vm_compute in E. by injection E as <-.
Qed.

(** ** A call as one step

    What a lookup and a store do when nothing runs in between; the phases use
    the cache in this form. *)
Definition get_alone (hash : string) (now : Time) (c : Cache) : Cache * option string :=
  match look now hash c with
  | Missing => (c <| misses ::= Z.succ |>, None)
  | Expired => (c <| entries ::= delete hash |> <| misses ::= Z.succ |>, None)
  | Hit response =>
      (count_hit hash c <| hits ::= Z.succ |>
         <| tokensSaved ::= fun n => n + Z.of_nat (String.length response) / 4 |>%Z, Some response)
  end.

Lemma Get_alone hash env prompt c :
  exec env (Get hash prompt) (settled c) =
  let '(c', r) := get_alone (hash prompt) (env 0 CQNow) c in
  (mkLocal c' Unheld [] 1, Done r).
Proof. cbn. unfold get_alone. by destruct (look _ _ _). Qed.

Lemma Put_alone hash env prompt response phase c :
  exec env (Put hash prompt response phase) (settled c) =
  (mkLocal (put_entry hash (env 0 CQNow) (env 1 CQOrder) prompt response phase c) Unheld [] 2, Done tt).
Proof. done. Qed.
