(* ===== verification/Lifecycle.v ===== *)
(** * Undo, redo, checkpoints and the end of a task

    Translates [internal/conductor/conductor_lifecycle.go] (all operations but
    [UpdateTask]) and [Abandon] and [Delete] of conductor_submit_ops.go.  Each
    operation holds [c.mu] for its whole body, so it is one function from the
    conductor to the conductor it leaves and the error it returns. *)

From S2P Require Import Prelude WorkUnit Transitions Machine Persist Interfaces Conductor.

(** ** Operations *)

Section operations.
Context {W : Type} `{Git W} `{JobControl W} `{TaskFiles W}.
Implicit Types (c : Conductor W) (now : nat -> Time).

(** [c.git.Reset(ctx, sha, true)] behind its nil check. *)
Definition reset_repo (sha : string) c : Conductor W * result string unit :=
  if hasGit c then
    let '(w, r) := git_Reset sha true (world c) in (c <| world := w |>, r)
  else (c, Ok tt).

Definition dispatch (now : Time) (e : Event) c : Conductor W * result string unit :=
  let '(m, r) := Dispatch now e (machine c) in (c <| machine := m |>, r).

Definition Undo now c : Conductor W * result string unit :=
  match cd_workUnit c with
  | None => (c, Err "no task loaded")
  | Some wu =>
      let n := length (wu_Checkpoints wu) in
      if n <? 2 then (c, Err "no checkpoints to undo (need at least 2)") else
      let currentCheckpoint := nth (n - 1) (wu_Checkpoints wu) "" in
      let targetCheckpoint := nth (n - 2) (wu_Checkpoints wu) "" in
      match reset_repo targetCheckpoint c with
      | (c, Err e) => (c, Err ("git reset: " +:+ e))
      | (c, Ok _) =>
          match dispatch (now 0) EventUndo c with
          | (c, Err e) => (c, Err ("cannot undo: " +:+ e))
          | (c, Ok _) =>
              let c := upd_workUnit (fun wu => wu
                <| wu_Checkpoints ::= take (length (wu_Checkpoints wu) - 1) |>
                <| wu_RedoStack ::= fun s => s ++ [currentCheckpoint] |>) c in
              let c := persistState c in
              (emit (simple_event "undo_completed" (state (machine c))
                 ("Reverted to checkpoint " +:+ truncateSHA targetCheckpoint 8)) c, Ok tt)
          end
      end
  end.

Definition Redo now c : Conductor W * result string unit :=
  match cd_workUnit c with
  | None => (c, Err "no task loaded")
  | Some wu =>
      let n := length (wu_RedoStack wu) in
      if n =? 0 then (c, Err "no checkpoints to redo") else
      let checkpoint := nth (n - 1) (wu_RedoStack wu) "" in
      match reset_repo checkpoint c with
      | (c, Err e) => (c, Err ("git reset: " +:+ e))
      | (c, Ok _) =>
          match dispatch (now 0) EventRedo c with
          | (c, Err e) => (c, Err ("cannot redo: " +:+ e))
          | (c, Ok _) =>
              let c := upd_workUnit (fun wu => wu
                <| wu_RedoStack ::= take (length (wu_RedoStack wu) - 1) |>
                <| wu_Checkpoints ::= fun s => s ++ [checkpoint] |>) c in
              let c := persistState c in
              (emit (simple_event "redo_completed" (state (machine c))
                 ("Restored to checkpoint " +:+ truncateSHA checkpoint 8)) c, Ok tt)
          end
      end
  end.

(** The index of the first occurrence. *)
Fixpoint index_of (x : string) (l : list string) : option nat :=
  match l with
  | [] => None
  | y :: l => if decide (y = x) then Some 0 else S <$> index_of x l
  end.

Definition GotoCheckpoint now (sha : string) c : Conductor W * result string unit :=
  match cd_workUnit c with
  | None => (c, Err "no task loaded")
  | Some wu =>
      match index_of sha (wu_Checkpoints wu) with
      | None => (c, Err ("checkpoint " +:+ truncateSHA sha 8 +:+ " not found"))
      | Some idx =>
          let newer := drop (idx + 1) (wu_Checkpoints wu) in
          match reset_repo sha c with
          | (c, Err e) => (c, Err ("git reset: " +:+ e))
          | (c, Ok _) =>
              let c := if (CanDispatch EventUndo (machine c)).1
                       then (dispatch (now 0) EventUndo c).1 else c in
              let c := upd_workUnit (fun wu => wu
                <| wu_RedoStack ::= fun s => fold_left (fun s v => s ++ [v]) (rev newer) s |>
                <| wu_Checkpoints ::= take (idx + 1) |>) c in
              let c := persistState c in
              (emit (simple_event "checkpoint_goto" (state (machine c))
                 ("Restored to checkpoint " +:+ truncateSHA sha 8)) c, Ok tt)
          end
      end
  end.

(** [_ = c.pool.InterruptJob(c.activeJobID)] and its cancel, behind their guard. *)
Definition on_active_job (f : string -> W -> W * result string unit) c : Conductor W :=
  if hasPool c && bool_decide (activeJobID c <> "")
  then c <| world ::= fun w => (f (activeJobID c) w).1 |> else c.

Definition Stop now c : Conductor W * result string unit :=
  if negb (CanDispatch EventStop (machine c)).1
  then (c, Err "cannot stop: not in a stoppable state") else
  let c := on_active_job pool_InterruptJob c in
  let c := on_active_job pool_CancelJob c in
  let jobID := activeJobID c in
  let c := c <| activeJobID := "" |> in
  let c := upd_workUnit (fun wu => wu <| wu_CancelledBy := "user" |>
                                      <| wu_CancelledAt := now 0 |>) c in
  match dispatch (now 1) EventStop c with
  | (c, Err e) => (c, Err ("cannot stop: " +:+ e))
  | (c, Ok _) =>
      let c := persistState c in
      (emit (mkConductorEvent "task_stopped" (state (machine c)) jobID
         ("Operation stopped, returned to " +:+ state (machine c)) "") c, Ok tt)
  end.

Definition Abort now c : Conductor W * result string unit :=
  match dispatch (now 0) EventAbort c with
  | (c, Err e) => (c, Err ("cannot abort: " +:+ e))
  | (c, Ok _) =>
      let c := persistState c in
      (emit (simple_event "task_aborted" (state (machine c)) "Task aborted") c, Ok tt)
  end.

(** [Conductor.Reset]. *)
Definition ResetTask now c : Conductor W * result string unit :=
  if decide (state (machine c) <> StateFailed)
  then (c, Err "can only reset from failed state") else
  match dispatch (now 0) EventReset c with
  | (c, Err e) => (c, Err ("cannot reset: " +:+ e))
  | (c, Ok _) =>
      let c := persistState c in
      (emit (simple_event "task_reset" (state (machine c)) "Task reset to loaded state") c,
       Ok tt)
  end.

Definition CreateCheckpoint now (message : string) c : Conductor W * result string string :=
  if negb (hasGit c) then (c, Err "git not available") else
  match cd_workUnit c with
  | None => (c, Err "no task loaded")
  | Some _ =>
      match git_Commit (formatCheckpointMessage message c) (world c) with
      | (w, Err e) => (c <| world := w |>, Err ("create checkpoint: " +:+ e))
      | (w, Ok sha) =>
          let c := c <| world := w |> in
          let st := state (machine c) in
          let c := upd_workUnit (fun wu =>
            recordCheckpointMeta (now 0) sha message st
              (wu <| wu_Checkpoints ::= fun s => s ++ [sha] |>)
              <| wu_RedoStack := [] |> <| wu_UpdatedAt := now 1 |>) c in
          let c := persistState c in
          (emit (simple_event "checkpoint_created" (state (machine c))
             ("Checkpoint created: " +:+ truncateSHA sha 8)) c, Ok sha)
      end
  end.

(** The branch, worktree and task-file clean-up of [Abandon] and [Delete];
    the errors are only logged. *)
Definition delete_branch (wanted : bool) c : Conductor W :=
  match cd_workUnit c with
  | Some wu => if wanted && hasGit c && bool_decide (wu_Branch wu <> "")
               then c <| world ::= fun w => (git_DeleteBranch (wu_Branch wu) w).1 |> else c
  | None => c
  end.

Definition remove_worktree c : Conductor W :=
  match cd_workUnit c with
  | Some wu => if bool_decide (wu_WorktreePath wu <> "") && hasGit c
               then c <| world ::= fun w => (git_RemoveWorktree (wu_WorktreePath wu) true w).1 |>
               else c
  | None => c
  end.

Definition delete_task_state c : Conductor W :=
  match cd_workUnit c with
  | Some wu => if hasStore c
               then c <| world ::= fun w => (store_DeleteTaskState (wu_ID wu) w).1 |> else c
  | None => c
  end.

(** [c.machine.Reset(); c.workUnit = nil]. *)
Definition clear_task c : Conductor W := c <| machine ::= Machine.Reset |>.

Definition Abandon (keepBranch : bool) c : Conductor W * result string unit :=
  let c := match cd_workUnit c with
           | Some wu => if hasPool c
               then fold_left (fun c jobID =>
                      c <| world ::= fun w => (pool_CancelJob jobID w).1 |>) (wu_Jobs wu) c
               else c
           | None => c
           end in
  let c := delete_branch (negb keepBranch) c in
  let c := remove_worktree c in
  let c := delete_task_state c in
  let c := clear_task c in
  (emit (simple_event "task_abandoned" StateNone "Task abandoned") c, Ok tt).

Definition Delete (deleteBranch : bool) c : Conductor W * result string unit :=
  let st := state (machine c) in
  if decide (st <> StateSubmitted /\ st <> StateFailed /\ st <> StateNone)
  then (c, Err ("delete only allowed in terminal states (submitted, failed, none); " +:+
                "current state: " +:+ st)) else
  let c := delete_branch deleteBranch c in
  let c := remove_worktree c in
  let c := delete_task_state c in
  let c := clear_task c in
  (emit (simple_event "task_deleted" StateNone "Task deleted") c, Ok tt).
End operations.

(** ** The abstract timeline

    What the two stacks implement: one list of commits and a position in it.
    Undo and redo move the position, a jump sets it, a new checkpoint cuts the
    list at the position and extends it. *)
Module Timeline.
Record t := mk { commits : list string; pos : nat }.

Inductive op := Back | Forward | Jump (sha : string) | Record_ (sha : string).

Definition step (o : op) (tl : t) : option t :=
  match o with
  | Back => if pos tl <? 2 then None else Some (mk (commits tl) (pos tl - 1))
  | Forward => if length (commits tl) <=? pos tl then None else Some (mk (commits tl) (pos tl + 1))
  | Jump sha =>
      match index_of sha (take (pos tl) (commits tl)) with
      | Some i => Some (mk (commits tl) (i + 1))
      | None => None
      end
  | Record_ sha => Some (mk (take (pos tl) (commits tl) ++ [sha]) (pos tl + 1))
  end.

Definition abs (s : list string * list string) : t := mk (s.1 ++ rev s.2) (length s.1).

(** The commit the position is at. *)
Definition current (tl : t) : option string := commits tl !! (pos tl - 1).
End Timeline.

(** The four operations on the timeline, with the abstract step of each. *)
Inductive timeline_op := OUndo | ORedo | OGoto (sha : string) | OCreate (message : string).

Definition run_timeline_op {W} `{Git W} `{JobControl W} `{TaskFiles W} (now : nat -> Time)
    (o : timeline_op) (c : Conductor W) : Conductor W * result string string :=
  match o with
  | OUndo => let '(c, r) := Undo now c in (c, result_bind r (fun _ => Ok ""))
  | ORedo => let '(c, r) := Redo now c in (c, result_bind r (fun _ => Ok ""))
  | OGoto sha => let '(c, r) := GotoCheckpoint now sha c in (c, result_bind r (fun _ => Ok sha))
  | OCreate msg => CreateCheckpoint now msg c
  end.

Definition abstract_op (o : timeline_op) (res : string) : Timeline.op :=
  match o with
  | OUndo => Timeline.Back
  | ORedo => Timeline.Forward
  | OGoto _ => Timeline.Jump res
  | OCreate _ => Timeline.Record_ res
  end.

(** ** Lemmas *)

Lemma index_of_Some x l i : index_of x l = Some i -> l !! i = Some x /\ i < length l.
Proof.
  revert i. induction l as [|y l IH]; intros i; simpl; [done|].
  destruct (decide (y = x)) as [->|]; intros Hi; simplify_eq/=; [split; [done|lia]|].
  destruct (index_of x l) as [j|]; simplify_eq/=. destruct (IH j eq_refl). split; [done|lia].
Qed.

Lemma split_last_two {A} (l : list A) : 2 <= length l -> exists l' x y, l = l' ++ [x; y].
Proof.
  destruct l as [|y l _] using rev_ind; [simpl; lia|].
  destruct l as [|x l _] using rev_ind; [simpl; lia|].
  intros _. exists l, x, y. by rewrite <- app_assoc.
Qed.

Lemma pop_last_two {A} (d : A) l (x y : A) :
  let n := length (l ++ [x; y]) in
  nth (n - 1) (l ++ [x; y]) d = y /\ nth (n - 2) (l ++ [x; y]) d = x /\
  take (n - 1) (l ++ [x; y]) = l ++ [x].
Proof.
  rewrite length_app; simpl. split_and!.
  - rewrite app_nth2 by lia. by replace (_ - _ - _) with 1 by lia.
  - rewrite app_nth2 by lia. by replace (_ - _ - _) with 0 by lia.
  - rewrite take_app, take_ge by lia. by replace (_ - _ - _) with 1 by lia.
Qed.

Lemma split_last {A} (l : list A) : length l <> 0 -> exists l' x, l = l' ++ [x].
Proof. destruct l as [|x l _] using rev_ind; [done|]. intros _. by exists l, x. Qed.

Lemma pop_last {A} (d : A) l (x : A) :
  let n := length (l ++ [x]) in
  nth (n - 1) (l ++ [x]) d = x /\ take (n - 1) (l ++ [x]) = l.
Proof.
  rewrite length_app; simpl. replace (length l + 1 - 1) with (length l) by lia.
  by rewrite take_app_length, app_nth2, Nat.sub_diag by lia.
Qed.

Lemma fold_snoc {A} (l s : list A) : fold_left (fun s v => s ++ [v]) l s = s ++ l.
Proof.
  revert s. induction l as [|x l IH]; intros s; simpl; [by rewrite app_nil_r|].
  by rewrite IH, <- app_assoc.
Qed.

Section lemmas.
Context {W : Type} `{Git W} `{JobControl W} `{TaskFiles W}.
Implicit Types (c : Conductor W) (now : nat -> Time).

Lemma reset_repo_frame sha c c' r :
  reset_repo sha c = (c', r) ->
  machine c' = machine c /\ hasGit c' = hasGit c /\ hasStore c' = hasStore c.
Proof.
  unfold reset_repo. destruct (hasGit c) eqn:Eg.
  - destruct (git_Reset _ _ _). intros; by simplify_eq/=.
  - intros; by simplify_eq/=.
Qed.

Lemma on_active_job_machine f c : machine (on_active_job f c) = machine c.
Proof. unfold on_active_job. by destruct (_ && _). Qed.

Lemma stacks_machine c c' : machine c' = machine c -> stacks c' = stacks c.
Proof. unfold stacks, cd_workUnit. by intros ->. Qed.

Lemma dispatch_frame (now : Time) e c c' r :
  dispatch now e c = (c', r) ->
  stacks c' = stacks c /\ world c' = world c /\ hasGit c' = hasGit c /\
  (is_Some (cd_workUnit c') <-> is_Some (cd_workUnit c)).
Proof.
  unfold dispatch, stacks, cd_workUnit. destruct (Dispatch now e (machine c)) as [m r'] eqn:E.
  intros; simplify_eq/=.
  apply Dispatch_inv in E as [(?&?& -> &_)|(t&_&_&_&_&_&_&Hw&_)]; [done|].
  rewrite Hw. by destruct (workUnit (machine c)).
Qed.

(** The tail the operations share: the stacks change, the state is written
    and announced. *)
Lemma commit_frame f e c :
  let c' := emit e (persistState (upd_workUnit f c)) in
  stacks c' = (fun wu => (wu_Checkpoints (f wu), wu_RedoStack (f wu))) <$> cd_workUnit c /\
  hasGit c' = hasGit c.
Proof.
  simpl. rewrite stacks_emit.
  destruct (emit_frame e (persistState (upd_workUnit f c))) as (_ & _ & -> & _).
  destruct (persistState_frame (upd_workUnit f c)) as (_ & _ & _ & -> & -> & _).
  by rewrite stacks_upd.
Qed.

Lemma commit_head `{!EnvLaws W} f e c :
  git_head (world (emit e (persistState (upd_workUnit f c)))) = git_head (world c).
Proof.
  destruct (emit_frame e (persistState (upd_workUnit f c))) as (_ & -> & _).
  by rewrite persistState_head.
Qed.

Lemma reset_repo_head `{!EnvLaws W} sha c c' :
  reset_repo sha c = (c', Ok tt) -> hasGit c = true -> git_head (world c') = sha.
Proof.
  unfold reset_repo. intros Hr Hg. rewrite Hg in Hr.
  destruct (git_Reset _ _ _) as [w r] eqn:E. simplify_eq/=. by eapply reset_head.
Qed.

Lemma stacks_Some c cps redo :
  stacks c = Some (cps, redo) ->
  exists wu, cd_workUnit c = Some wu /\ wu_Checkpoints wu = cps /\ wu_RedoStack wu = redo.
Proof. unfold stacks. destruct (cd_workUnit c); intros; simplify_eq/=; eauto. Qed.

(** How each operation ends: refused, with the stacks as they were, or done,
    with the stacks moved and HEAD at the new last checkpoint. *)
Definition stacks_moved `{!EnvLaws W} c c' (s : list string * list string) : Prop :=
  stacks c' = Some s /\ (hasGit c = true -> Some (git_head (world c')) = last s.1).

Lemma Undo_inv `{!EnvLaws W} now c c' r :
  Undo now c = (c', r) ->
  (exists e, r = Err e /\ stacks c' = stacks c) \/
  (r = Ok tt /\ exists cps target cur redo,
     stacks c = Some (cps ++ [target; cur], redo) /\
     stacks_moved c c' (cps ++ [target], redo ++ [cur])).
Proof.
  unfold Undo. destruct (cd_workUnit c) as [wu|] eqn:Ew;
    [|by intros; simplify_eq; left; eexists].
  destruct (Nat.ltb_spec (length (wu_Checkpoints wu)) 2);
    [by intros; simplify_eq; left; eexists|].
  set (cur := nth (_ - 1) _ _). set (target := nth (_ - 2) _ _).
  destruct (reset_repo target c) as [c1 r1] eqn:E1.
  pose proof (reset_repo_frame _ _ _ _ E1) as (Hm1 & Hg1 & _).
  pose proof (stacks_machine _ _ Hm1) as Hs1.
  destruct r1 as [[]|e]; [|by intros; simplify_eq; left; eexists].
  destruct (dispatch (now 0) EventUndo c1) as [c2 r2] eqn:E2.
  pose proof (dispatch_frame _ _ _ _ _ E2) as (Hs2 & Hw2 & Hg2 & _).
  destruct r2 as [[]|e]; [|intros; simplify_eq; left; eexists; split; [done|congruence]].
  cbv zeta. match goal with |- context [upd_workUnit ?f c2] => set (upd := f) end.
  match goal with |- context [emit ?e _] => set (ev := e) end.
  intros; simplify_eq. right. split; [done|].
  set (n := length (wu_Checkpoints wu)) in *.
  destruct (split_last_two (wu_Checkpoints wu)) as (cps & x & y & Hcps); [done|].
  assert (cur = y /\ target = x /\
          take (n - 1) (wu_Checkpoints wu) = cps ++ [x]) as (Hcur & Htarget & Htake)
    by (unfold cur, target, n; rewrite Hcps; apply pop_last_two).
  exists cps, x, y, (wu_RedoStack wu).
  assert (Hs : stacks c2 = Some (wu_Checkpoints wu, wu_RedoStack wu))
    by (rewrite Hs2, Hs1; unfold stacks; by rewrite Ew).
  destruct (stacks_Some _ _ _ Hs) as (wu2 & Ew2 & Hc2 & Hr2).
  split; [unfold stacks; rewrite Ew; simpl; by rewrite <- Hcps|].
  destruct (commit_frame upd ev c2) as [Hst _]. split.
  - rewrite Hst, Ew2. unfold upd. simpl. rewrite Hc2, Hr2. f_equal.
    fold n. rewrite Htake. by apply (f_equal2 pair); rewrite ?Hcur.
  - intros Hg. rewrite commit_head, Hw2. simpl. rewrite last_snoc. f_equal.
    rewrite <- Htarget. by apply (reset_repo_head target c).
Qed.

Lemma Redo_inv `{!EnvLaws W} now c c' r :
  Redo now c = (c', r) ->
  (exists e, r = Err e /\ stacks c' = stacks c) \/
  (r = Ok tt /\ exists cps x redo,
     stacks c = Some (cps, redo ++ [x]) /\ stacks_moved c c' (cps ++ [x], redo)).
Proof.
  unfold Redo. destruct (cd_workUnit c) as [wu|] eqn:Ew;
    [|by intros; simplify_eq; left; eexists].
  destruct (Nat.eqb_spec (length (wu_RedoStack wu)) 0);
    [by intros; simplify_eq; left; eexists|].
  set (checkpoint := nth _ _ _).
  destruct (reset_repo checkpoint c) as [c1 r1] eqn:E1.
  pose proof (reset_repo_frame _ _ _ _ E1) as (Hm1 & Hg1 & _).
  pose proof (stacks_machine _ _ Hm1) as Hs1.
  destruct r1 as [[]|e]; [|by intros; simplify_eq; left; eexists].
  destruct (dispatch (now 0) EventRedo c1) as [c2 r2] eqn:E2.
  pose proof (dispatch_frame _ _ _ _ _ E2) as (Hs2 & Hw2 & Hg2 & _).
  destruct r2 as [[]|e]; [|intros; simplify_eq; left; eexists; split; [done|congruence]].
  cbv zeta. match goal with |- context [upd_workUnit ?f c2] => set (upd := f) end.
  match goal with |- context [emit ?e _] => set (ev := e) end.
  intros; simplify_eq. right. split; [done|].
  destruct (split_last (wu_RedoStack wu)) as (redo & x & Hredo); [done|].
  assert (checkpoint = x /\
          take (length (wu_RedoStack wu) - 1) (wu_RedoStack wu) = redo) as [Hx Htake]
    by (unfold checkpoint; rewrite Hredo; apply pop_last).
  exists (wu_Checkpoints wu), x, redo.
  assert (Hs : stacks c2 = Some (wu_Checkpoints wu, wu_RedoStack wu))
    by (rewrite Hs2, Hs1; unfold stacks; by rewrite Ew).
  destruct (stacks_Some _ _ _ Hs) as (wu2 & Ew2 & Hc2 & Hr2).
  split; [unfold stacks; rewrite Ew; simpl; by rewrite <- Hredo|].
  destruct (commit_frame upd ev c2) as [Hst _]. split.
  - rewrite Hst, Ew2. unfold upd. simpl. rewrite Hc2, Hr2. f_equal.
    by apply (f_equal2 pair); rewrite ?Hx.
  - intros Hg. rewrite commit_head, Hw2. simpl. rewrite last_snoc. f_equal.
    rewrite <- Hx. by apply (reset_repo_head checkpoint c).
Qed.

Lemma Goto_inv `{!EnvLaws W} now sha c c' r :
  GotoCheckpoint now sha c = (c', r) ->
  (exists e, r = Err e /\ stacks c' = stacks c) \/
  (r = Ok tt /\ exists cps redo i,
     stacks c = Some (cps, redo) /\ index_of sha cps = Some i /\
     stacks_moved c c' (take (i + 1) cps, redo ++ rev (drop (i + 1) cps))).
Proof.
  unfold GotoCheckpoint. destruct (cd_workUnit c) as [wu|] eqn:Ew;
    [|by intros; simplify_eq; left; eexists].
  destruct (index_of sha _) as [i|] eqn:Ei; [|by intros; simplify_eq; left; eexists].
  destruct (reset_repo sha c) as [c1 r1] eqn:E1.
  pose proof (reset_repo_frame _ _ _ _ E1) as (Hm1 & Hg1 & _).
  pose proof (stacks_machine _ _ Hm1) as Hs1.
  destruct r1 as [[]|e]; [|by intros; simplify_eq; left; eexists].
  cbv zeta. set (c2 := if (CanDispatch _ _).1 then _ else _).
  assert (Hs2 : stacks c2 = stacks c1 /\ world c2 = world c1).
  { unfold c2. destruct (CanDispatch _ _).1; [|done].
    destruct (dispatch (now 0) EventUndo c1) as [c3 r3] eqn:E3.
    by destruct (dispatch_frame _ _ _ _ _ E3) as (? & ? & _). }
  destruct Hs2 as [Hs2 Hw2].
  match goal with |- context [upd_workUnit ?f c2] => set (upd := f) end.
  match goal with |- context [emit ?e _] => set (ev := e) end.
  intros; simplify_eq. right. split; [done|].
  exists (wu_Checkpoints wu), (wu_RedoStack wu), i.
  assert (Hs : stacks c2 = Some (wu_Checkpoints wu, wu_RedoStack wu))
    by (rewrite Hs2, Hs1; unfold stacks; by rewrite Ew).
  destruct (stacks_Some _ _ _ Hs) as (wu2 & Ew2 & Hc2 & Hr2).
  split; [unfold stacks; by rewrite Ew|]. split; [done|].
  destruct (commit_frame upd ev c2) as [Hst _]. split.
  - rewrite Hst, Ew2. unfold upd. simpl. by rewrite Hc2, Hr2, fold_snoc.
  - intros Hg. rewrite commit_head, Hw2. simpl.
    destruct (index_of_Some _ _ _ Ei) as [Hi Hlt].
    rewrite Nat.add_1_r, (take_S_r _ _ _ Hi), last_snoc. f_equal.
    by apply (reset_repo_head sha c).
Qed.

Lemma Create_inv `{!EnvLaws W} now msg c c' r :
  CreateCheckpoint now msg c = (c', r) ->
  (exists e, r = Err e /\ stacks c' = stacks c) \/
  (exists sha cps redo, r = Ok sha /\ stacks c = Some (cps, redo) /\
     stacks_moved c c' (cps ++ [sha], [])).
Proof.
  unfold CreateCheckpoint. destruct (hasGit c); simpl;
    [|by intros; simplify_eq; left; eexists].
  destruct (cd_workUnit c) as [wu|] eqn:Ew; [|by intros; simplify_eq; left; eexists].
  destruct (git_Commit _ _) as [w [sha|e]] eqn:Ec;
    [|by intros; simplify_eq; left; eexists].
  match goal with |- context [upd_workUnit ?f ?c2] => set (upd := f); set (c2' := c2) end.
  match goal with |- context [emit ?e _] => set (ev := e) end.
  intros; simplify_eq. right. exists sha, (wu_Checkpoints wu), (wu_RedoStack wu).
  split; [done|]. split; [unfold stacks; by rewrite Ew|].
  destruct (commit_frame upd ev c2') as [Hst _]. split.
  - rewrite Hst. change (cd_workUnit c2') with (cd_workUnit c). by rewrite Ew.
  - intros Hg. rewrite commit_head. simpl. rewrite last_snoc. f_equal. by apply (Interfaces.commit_head _ _ _ _ Ec).
Qed.
End lemmas.

(** ** Properties *)

(** C9: The checkpoint and redo stacks implement a timeline: every undo, redo,
    jump and new checkpoint either fails and leaves both stacks as they were,
    or is exactly the step of the abstract timeline (a list of commits and a
    position), and then the repository's HEAD is the commit at the position. *)
Theorem lifecycle_refines_timeline {W} `{EnvLaws W} (now : nat -> Time) (o : timeline_op)
    (c c' : Conductor W) (r : result string string) (s : list string * list string) :
  run_timeline_op now o c = (c', r) ->
  stacks c = Some s ->
  match r with
  | Err _ => stacks c' = Some s
  | Ok res => exists s', stacks c' = Some s' /\
      Timeline.step (abstract_op o res) (Timeline.abs s) = Some (Timeline.abs s') /\
      (hasGit c = true -> Some (git_head (world c')) = last s'.1)
  end.
Proof.
  destruct o as [| |sha|msg]; simpl.
  - destruct (Undo now c) as [c1 r1] eqn:E. intros; simplify_eq.
    apply Undo_inv in E as [(e & -> & ?)|(-> & cps & x & y & redo & Hs & Hs' & Hh)]; simpl;
      [congruence|].
    eexists; split_and!; [done| |done]. simplify_eq. unfold Timeline.step, Timeline.abs; simpl.
    rewrite !length_app; simpl. destruct (Nat.ltb_spec (length cps + 2) 2); [lia|].
    rewrite rev_app_distr, <- !app_assoc. simpl. do 2 f_equal. lia.
  - destruct (Redo now c) as [c1 r1] eqn:E. intros; simplify_eq.
    apply Redo_inv in E as [(e & -> & ?)|(-> & cps & x & redo & Hs & Hs' & Hh)]; simpl;
      [congruence|].
    eexists; split_and!; [done| |done]. simplify_eq. unfold Timeline.step, Timeline.abs; simpl.
    rewrite rev_app_distr, !length_app, <- app_assoc; simpl.
    destruct (Nat.leb_spec (length cps + S (length (rev redo))) (length cps)); [lia|done].
  - destruct (GotoCheckpoint now sha c) as [c1 r1] eqn:E. intros; simplify_eq.
    apply Goto_inv in E as [(e & -> & ?)|(-> & cps & redo & i & Hs & Hi & Hs' & Hh)]; simpl;
      [congruence|].
    eexists; split_and!; [done| |done]. simplify_eq. unfold Timeline.step, Timeline.abs; simpl.
    rewrite take_app_length, Hi. destruct (index_of_Some _ _ _ Hi).
    rewrite rev_app_distr, rev_involutive, app_assoc, take_drop, length_take. do 2 f_equal. lia.
  - intros E ?. apply Create_inv in E as [(e & -> & ?)|(sha & cps & redo & -> & Hs & Hs' & Hh)];
      simpl; [congruence|].
    eexists; split_and!; [done| |done]. simplify_eq. unfold Timeline.step, Timeline.abs; simpl.
    by rewrite take_app_length, app_nil_r, length_app.
Qed.

Lemma lifecycle_refines_timeline_witness :
  let c' := (run_timeline_op sim_clock OUndo undo_sample).1 in
  run_timeline_op sim_clock OUndo undo_sample = (c', Ok "") /\
  exists s', stacks c' = Some s' /\
    Timeline.step (abstract_op OUndo "") (Timeline.abs (["a"; "b"; "c"], [])) =
      Some (Timeline.abs s') /\
    (hasGit undo_sample = true -> Some (git_head (world c')) = last s'.1).
Proof.
  intros c'. assert (Hrun : run_timeline_op sim_clock OUndo undo_sample = (c', Ok "")) by by_eval.
  split; [exact Hrun|].
  exact (lifecycle_refines_timeline sim_clock OUndo undo_sample c' (Ok "") (["a"; "b"; "c"], [])
           Hrun eq_refl).
Defined.

(** Where [Stop] leads, as its comment lists it. *)
Definition stop_target (st : State) : State :=
  go_switch st [(StatePlanning, StateLoaded); (StateImplementing, StatePlanned);
    (StateSimplifying, StateImplemented); (StateOptimizing, StateImplemented);
    (StateReviewing, StateImplemented)] NoState.

(** Stopping an operation succeeds only in an active phase; it forgets the
    job, marks the task as cancelled by the user and leaves the machine in the
    stable state recorded for a re-entry, or in the documented one. *)
Theorem stop_returns_to_stable {W} `{Git W} `{JobControl W} `{TaskFiles W}
    (now : nat -> Time) (c c' : Conductor W) :
  Stop now c = (c', Ok tt) ->
  isActivePhaseState (state (machine c)) = true /\
  activeJobID c' = "" /\
  state (machine c') =
    (if decide (priorStableState (machine c) = NoState) then stop_target (state (machine c))
     else priorStableState (machine c)) /\
  priorStableState (machine c') = NoState /\
  option_map wu_CancelledBy (cd_workUnit c') =
    (if cd_workUnit c then Some "user" else None).
Proof.
  unfold Stop. destruct (CanDispatch EventStop (machine c)) as [[] msg] eqn:Ecan; simpl; [|done].
  set (c1 := upd_workUnit _ _).
  assert (Hc1 : state (machine c1) = state (machine c) /\
    priorStableState (machine c1) = priorStableState (machine c) /\ activeJobID c1 = "" /\
    option_map wu_CancelledBy (cd_workUnit c1) = (if cd_workUnit c then Some "user" else None)).
  { unfold c1, cd_workUnit; simpl. rewrite !on_active_job_machine.
    by destruct (workUnit (machine c)). }
  destruct Hc1 as (Hst & Hpr & Hjob & Hby). unfold dispatch.
  destruct (Dispatch (now 1) EventStop (machine c1)) as [m r] eqn:E.
  destruct r as [[]|]; [|done]. cbv zeta.
  match goal with |- context [emit ?e (persistState ?c)] => set (ev := e); set (c2 := c) end.
  intros ?; simplify_eq.
  destruct (emit_frame ev (persistState c2)) as (Hm & _ & _ & Hj & _).
  destruct (persistState_frame c2) as (Hs2 & _ & Hp2 & _ & _ & Hj2).
  apply Dispatch_inv in E as [(? & ? & _)|(t & _ & Hin & _ & _ & Hs & _ & Hw & _ & _ & Hq)]; [done|].
  assert (Hfrom : forall key t, t ∈ table_lookup key -> key_Event key = EventStop ->
            isActivePhaseState (key_From key) = true /\ tr_To t = stop_target (key_From key)).
  { apply (table_forall (fun key t => key_Event key = EventStop ->
      isActivePhaseState (key_From key) = true /\ tr_To t = stop_target (key_From key))). by_eval. }
  destruct (Hfrom _ _ Hin eq_refl) as [Hact Hto].
  cbn [key_From] in Hact, Hto. rewrite Hst in Hact, Hto.
  split_and!; [done|by rewrite Hj, Hj2| | |].
  - rewrite Hm, Hs2. change (machine c2) with m. rewrite Hs. unfold dispatch_target.
    rewrite Hpr, Hto. destruct (decide (priorStableState (machine c) = NoState)).
    + by rewrite decide_False by naive_solver.
    + by rewrite decide_True by naive_solver.
  - rewrite Hm, Hp2. change (machine c2) with m. rewrite Hq. by rewrite decide_True by naive_solver.
  - assert (Hv : forall c : Conductor W, option_map wu_CancelledBy (cd_workUnit (persistState c)) =
      option_map wu_CancelledBy (cd_workUnit c)) by (intros; by apply persistState_workUnit).
    unfold cd_workUnit at 1. rewrite Hm. change (option_map wu_CancelledBy (cd_workUnit (persistState c2)) = if cd_workUnit c then Some "user" else None).
    rewrite Hv, <- Hby. unfold cd_workUnit. change (machine c2) with m. rewrite Hw.
    by destruct (workUnit (machine c1)).
Qed.

Lemma stop_returns_to_stable_witness :
  let c := sim_conductor StateImplementing ["a"] [] in
  state (machine (Stop sim_clock c).1) = StatePlanned /\ activeJobID (Stop sim_clock c).1 = "".
Proof.
  intros c.
  assert (E : Stop sim_clock c = ((Stop sim_clock c).1, Ok tt)) by by_eval.
  destruct (stop_returns_to_stable sim_clock c (Stop sim_clock c).1 E) as (_ & Hj & Hs & _).
  split; [rewrite Hs; by_eval|exact Hj].
Defined.

(** Undo resets the repository before it asks the state machine: in a
    state from which no undo transition leaves (here [planning], with an agent
    at work in the tree), the operation fails and leaves the stacks as they
    were, but HEAD has already been moved to the checkpoint before the last. *)
Theorem undo_moves_head_before_refusing :
  let c := sim_conductor StatePlanning ["a"; "b"] [] in
  let c' := (Undo sim_clock c).1 in
  (CanDispatch EventUndo (machine c)).1 = false /\
  is_ok (Undo sim_clock c).2 = false /\
  stacks c' = stacks c /\
  git_head (world c) = "b" /\ git_head (world c') = "a".
Proof. split_and!; by_eval. Qed.

Lemma cleanup_frame {W} `{Git W} `{JobControl W} `{TaskFiles W} b (c : Conductor W) :
  cd_workUnit (remove_worktree (delete_branch b c)) = cd_workUnit c /\
  hasStore (remove_worktree (delete_branch b c)) = hasStore c /\
  machine (remove_worktree (delete_branch b c)) = machine c.
Proof.
  unfold remove_worktree, delete_branch.
  destruct (cd_workUnit c) as [wu|] eqn:E; rewrite ?E; [|by rewrite ?E].
  destruct (b && hasGit c && _); unfold cd_workUnit in *; simpl; rewrite E;
    by destruct (_ && hasGit _).
Qed.

(** Deleting a task is refused outside [submitted], [failed] and [none]
    and then changes nothing; when it is done the machine is back in [none]
    without a work unit or a history, and the task file is gone if removing it
    succeeded, so the next start does not restore the task. *)
Theorem delete_clears_task {W} `{FileLaws W} `{Git W} `{JobControl W}
    (b : bool) (c c' : Conductor W) (r : result string unit) :
  Delete b c = (c', r) ->
  (state (machine c) ∉ [StateSubmitted; StateFailed; StateNone] -> is_ok r = false /\ c' = c) /\
  (state (machine c) ∈ [StateSubmitted; StateFailed; StateNone] ->
   r = Ok tt /\ state (machine c') = StateNone /\ cd_workUnit c' = None /\
   history (machine c') = [] /\
   forall wu w w', cd_workUnit c = Some wu -> hasStore c = true ->
     w = world (remove_worktree (delete_branch b c)) ->
     fs_Remove (wu_ID wu) w = (w', Ok tt) ->
     store_LoadTaskState (wu_ID wu) (world c') = Err NotExist).
Proof.
  unfold Delete. intros HD. rewrite !elem_of_cons.
  pose proof (not_elem_of_nil (state (machine c))) as Hnil.
  destruct (decide (state (machine c) <> StateSubmitted /\ _)) as [Hd|Hd]; simplify_eq.
  { split; [done|]. naive_solver. }
  split; [intros Hs; destruct Hd; naive_solver|]. intros _.
  match goal with |- context [emit ?e ?c1] =>
    destruct (emit_frame e c1) as (Hm & Hw & _); unfold cd_workUnit at 1 end.
  rewrite Hm, Hw. split_and!; [done..|].
  intros wu w w' Hwu Hst -> Hrm.
  destruct (cleanup_frame b c) as (Hf & Hs & _).
  unfold clear_task, delete_task_state. rewrite Hf, Hwu, Hs, Hst. simpl.
  unfold store_DeleteTaskState, store_LoadTaskState. rewrite Hrm. simpl.
  by rewrite (remove_load _ _ _ Hrm).
Qed.

Lemma delete_clears_task_witness :
  let c := sim_conductor StateFailed ["a"] [] in
  (Delete true c).2 = Ok tt /\ state (machine (Delete true c).1) = StateNone.
Proof.
  intros c. destruct (delete_clears_task true c (Delete true c).1 (Delete true c).2) as [_ Hd];
    [by destruct (Delete true c)|].
  destruct Hd as (Hr & Hs & _); [|by split].
  by apply (bool_decide_unpack _); vm_compute.
Defined.
