(* ===== verification/TaskQueue.v ===== *)
(** * The queue of pending tasks

    Translates [internal/conductor/queue.go].  The queue holds pointers to
    tasks no operation changes after they are added, so the model keeps the
    tasks themselves.  [marshal] stands for the JSON encoder. *)

From S2P Require Import Prelude WorkUnit Transitions Machine Persist Interfaces Conductor.

(** ** Operations *)

Section operations.
Context {W : Type} (marshal : QueuedTask -> string).
Implicit Types c : Conductor W.

(** [counter] is the process-wide [queueCounter]. *)
Definition QueueTask (now : nat -> Time) (counter : Z) (source title : string) c
  : Z * Conductor W * QueuedTask :=
  let counter := (counter + 1)%Z in
  let task := mkQueuedTask ("q-" +:+ pretty (now 0) +:+ "-" +:+ pretty counter) source title
                0%Z "" (now 1) 0%Z in
  let task := task <| qt_Position := Z.of_nat (S (length (taskQueue c))) |> in
  let c := c <| taskQueue := taskQueue c ++ [task] |> in
  let c := emit (mkConductorEvent "task_queued" (state (machine c)) ""
             ("Task queued at position " +:+ pretty (qt_Position task)) (marshal task)) c in
  (counter, c, task).

(** The loop over the queue with its splice. *)
Fixpoint remove_first (id : string) (q : list QueuedTask) : option (list QueuedTask) :=
  match q with
  | [] => None
  | t :: q => if decide (qt_ID t = id) then Some q else cons t <$> remove_first id q
  end.

Definition DequeueTask (id : string) c : Conductor W * result string unit :=
  match remove_first id (taskQueue c) with
  | Some q =>
      let c := c <| taskQueue := q |> in
      (emit (simple_event "task_dequeued" (state (machine c)) "Task removed from queue") c, Ok tt)
  | None => (c, Err ("queued task " +:+ id +:+ " not found"))
  end.

Definition ListQueue c : list QueuedTask :=
  imap (fun i t => t <| qt_Position := Z.of_nat (i + 1) |>) (taskQueue c).

Definition QueueLength c : nat := length (taskQueue c).

Fixpoint queue_index (id : string) (q : list QueuedTask) : option nat :=
  match q with
  | [] => None
  | t :: q => if decide (qt_ID t = id) then Some 0 else S <$> queue_index id q
  end.

Definition ReorderQueue (id : string) (newPosition : Z) c : Conductor W * result string unit :=
  if (newPosition <? 1)%Z || (Z.of_nat (length (taskQueue c)) <? newPosition)%Z
  then (c, Err ("position " +:+ pretty newPosition +:+ " out of range (1-" +:+
                pretty (Z.of_nat (length (taskQueue c))) +:+ ")")) else
  match queue_index id (taskQueue c) with
  | None => (c, Err ("queued task " +:+ id +:+ " not found"))
  | Some fromIdx =>
      match taskQueue c !! fromIdx with
      | None => (c, Err "index out of range")
      | Some task =>
          let remaining := take fromIdx (taskQueue c) ++ drop (fromIdx + 1) (taskQueue c) in
          let toIdx := Z.to_nat (newPosition - 1) in
          let reordered := take toIdx remaining ++ [task] ++ drop toIdx remaining in
          (c <| taskQueue := reordered |>, Ok tt)
      end
  end.

Definition popNextTask c : Conductor W * option QueuedTask :=
  match taskQueue c with
  | [] => (c, None)
  | next :: rest => (c <| taskQueue := rest |>, Some next)
  end.

(** What [MarshalQueue] encodes: the tasks as they are stored. *)
Definition MarshalQueue c : list string := marshal <$> taskQueue c.
End operations.

(** ** Runs of the queue *)

Inductive queue_op :=
| QPush (now : nat -> Time) (source title : string)
| QDequeue (id : string)
| QPop.

(** The queue after the operations, with what was pushed and what was popped,
    oldest first. *)
Record queue_run (W : Type) := mkRun {
  qr_counter : Z;
  qr_conductor : Conductor W;
  qr_pushed : list QueuedTask;
  qr_popped : list QueuedTask
}.
Arguments mkRun {W}.
Arguments qr_counter {W}.
Arguments qr_conductor {W}.
Arguments qr_pushed {W}.
Arguments qr_popped {W}.

Definition run_queue_op {W} (marshal : QueuedTask -> string) (o : queue_op) (s : queue_run W)
  : queue_run W :=
  match o with
  | QPush now source title =>
      let '(n, c, t) := QueueTask marshal now (qr_counter s) source title (qr_conductor s) in
      mkRun n c (qr_pushed s ++ [t]) (qr_popped s)
  | QDequeue id =>
      mkRun (qr_counter s) (DequeueTask id (qr_conductor s)).1 (qr_pushed s) (qr_popped s)
  | QPop =>
      let '(c, t) := popNextTask (qr_conductor s) in
      mkRun (qr_counter s) c (qr_pushed s) (qr_popped s ++ option_list t)
  end.

Definition run_queue {W} marshal (ops : list queue_op) (s : queue_run W) : queue_run W :=
  fold_left (fun s o => run_queue_op marshal o s) ops s.

(** ** Lemmas *)

Lemma queue_index_Some id q i :
  queue_index id q = Some i ->
  exists l1 t l2, q = l1 ++ t :: l2 /\ length l1 = i /\ qt_ID t = id /\
    Forall (fun u => qt_ID u <> id) l1.
Proof.
  revert i. induction q as [|t q IH]; intros i; simpl; [done|].
  destruct (decide (qt_ID t = id)) as [Ht|Ht]; intros Hi; simplify_eq/=.
  - by exists [], t, q.
  - destruct (queue_index id q) as [j|]; simplify_eq/=.
    destruct (IH j eq_refl) as (l1 & u & l2 & -> & <- & Hu & Hl).
    exists (t :: l1), u, l2. split_and!; [done|done|done|by constructor].
Qed.

Lemma queue_index_None id q : queue_index id q = None <-> Forall (fun t => qt_ID t <> id) q.
Proof.
  induction q as [|t q IH]; simpl; [done|]. rewrite Forall_cons, <- IH.
  destruct (decide (qt_ID t = id)); [naive_solver|].
  destruct (queue_index id q); simpl; naive_solver.
Qed.

Lemma remove_first_sublist id q q' : remove_first id q = Some q' -> sublist q' q.
Proof.
  revert q'. induction q as [|t q IH]; intros q'; simpl; [done|].
  destruct (decide (qt_ID t = id)); intros; simplify_eq/=; [by constructor|].
  destruct (remove_first id q); simplify_eq/=. constructor. by apply IH.
Qed.

Lemma emit_taskQueue {W} e (c : Conductor W) : taskQueue (emit e c) = taskQueue c.
Proof. unfold emit. destruct (closed c); [done|]. by destruct (_ <? events_capacity). Qed.

(** What is popped and what waits is a sublist of what was pushed, in order. *)
Lemma run_queue_op_fifo {W} marshal o (s : queue_run W) :
  sublist (qr_popped s ++ taskQueue (qr_conductor s)) (qr_pushed s) ->
  sublist (qr_popped (run_queue_op marshal o s) ++ taskQueue (qr_conductor (run_queue_op marshal o s)))
    (qr_pushed (run_queue_op marshal o s)).
Proof.
  intros Hs. destruct o as [now source title|id|]; simpl.
  - rewrite emit_taskQueue. simpl. rewrite app_assoc. by apply sublist_app.
  - unfold DequeueTask. destruct (remove_first id _) as [q|] eqn:E; simpl; [|done].
    rewrite emit_taskQueue. simpl. etrans; [|exact Hs].
    apply sublist_app; [done|by eapply remove_first_sublist].
  - unfold popNextTask. destruct (taskQueue (qr_conductor s)) as [|t q] eqn:E; simpl.
    + by rewrite E, app_nil_r.
    + by rewrite <- app_assoc.
Qed.

(** ** Properties *)

(** Reordering moves one task and nothing else: it fails, leaving the
    queue alone, exactly when the position is out of range or no task has the
    ID; otherwise the first task with that ID ends at the position asked for
    and the others keep their order. *)
Theorem reorder_queue_spec {W} (id : string) (p : Z) (c c' : Conductor W) (r : result string unit) :
  ReorderQueue id p c = (c', r) ->
  match r with
  | Err _ => c' = c /\
      (~ (1 <= p <= Z.of_nat (QueueLength c))%Z \/ Forall (fun t => qt_ID t <> id) (taskQueue c))
  | Ok _ => (1 <= p <= Z.of_nat (QueueLength c))%Z /\
      exists l1 t l2 m1 m2, taskQueue c = l1 ++ t :: l2 /\ qt_ID t = id /\
        Forall (fun u => qt_ID u <> id) l1 /\
        taskQueue c' = m1 ++ t :: m2 /\ Z.of_nat (length m1) = (p - 1)%Z /\ m1 ++ m2 = l1 ++ l2
  end.
Proof.
  unfold ReorderQueue, QueueLength. intros HR.
  destruct (Z.ltb_spec p 1); simpl in HR; [simplify_eq; split; [done|left; lia]|].
  destruct (Z.ltb_spec (Z.of_nat (length (taskQueue c))) p);
    [simplify_eq; split; [done|left; lia]|].
  destruct (queue_index id (taskQueue c)) as [i|] eqn:Ei;
    [|simplify_eq; split; [done|right; by apply queue_index_None]].
  destruct (queue_index_Some _ _ _ Ei) as (l1 & t & l2 & Hq & Hl & Ht & Hf).
  rewrite Hq, list_lookup_middle in HR by done. simplify_eq.
  rewrite Hq, length_app in *. simpl in *. split; [lia|].
  exists l1, t, l2. eexists _, _. split_and!; [done|done|done|done| |].
  - rewrite take_app_length, length_take, length_app, length_drop, length_app. simpl. lia.
  - rewrite take_drop, take_app_length. f_equal.
    by rewrite <- drop_drop, drop_app_length.
Qed.

Definition queue_sample : Conductor unit :=
  mkConductor NewMachine "" false false false false "" ""
    (map (fun i => mkQueuedTask i i i 0%Z "" 0%Z 0%Z) ["a"; "b"; "c"]) false [] 0 [] tt.

Lemma reorder_queue_spec_witness :
  map qt_ID (taskQueue (ReorderQueue "c" 1%Z queue_sample).1) = ["c"; "a"; "b"] /\
  (1 <= 1 <= Z.of_nat (QueueLength queue_sample))%Z.
Proof.
  split; [by_eval|].
  exact (proj1 (reorder_queue_spec "c" 1%Z queue_sample (ReorderQueue "c" 1%Z queue_sample).1 (Ok tt)
                  eq_refl)).
Defined.

(** The queue is first in, first out: over any run of additions, removals
    and pops from an empty queue, the popped tasks followed by the waiting
    ones are, in order, among the added ones. *)
Theorem queue_is_fifo {W} (marshal : QueuedTask -> string) (ops : list queue_op)
    (counter : Z) (c : Conductor W) :
  taskQueue c = [] ->
  let s := run_queue marshal ops (mkRun counter c [] []) in
  sublist (qr_popped s ++ taskQueue (qr_conductor s)) (qr_pushed s).
Proof.
  intros Hc. unfold run_queue.
  assert (H0 : sublist (qr_popped (mkRun counter c [] []) ++
    taskQueue (qr_conductor (mkRun counter c [] []))) (qr_pushed (mkRun counter c [] [])))
    by (simpl; by rewrite Hc).
  revert H0. generalize (mkRun counter c [] []) as s.
  induction ops as [|o ops IH]; intros s Hs; simpl; [done|].
  apply IH. by apply run_queue_op_fifo.
Qed.

Lemma queue_is_fifo_witness :
  let s := run_queue qt_ID [QPush Z.of_nat "a" ""; QPush Z.of_nat "b" ""; QPop; QPush Z.of_nat "c" "";
             QDequeue "q-0-2"] (mkRun 0%Z (queue_sample <| taskQueue := [] |>) [] []) in
  map qt_Source (qr_popped s ++ taskQueue (qr_conductor s)) = ["a"; "c"] /\
  sublist (qr_popped s ++ taskQueue (qr_conductor s)) (qr_pushed s).
Proof.
  intros s. split; [by_eval|]. by apply queue_is_fifo.
Defined.

(** [ListQueue] numbers the tasks 1, 2, ... in queue order, whatever
    positions the tasks were added with; [MarshalQueue], written for
    persistence, encodes the stored positions, which go stale: after the first
    of two tasks is removed it reports the remaining one at position 2. *)
Theorem list_queue_positions {W} (c : Conductor W) (i : nat) (t : QueuedTask) :
  (ListQueue c !! i = Some t ->
     qt_Position t = Z.of_nat (i + 1) /\ exists u, taskQueue c !! i = Some u /\ qt_ID u = qt_ID t) /\
  (let marshal u := pretty (qt_Position u) in
   let s := run_queue marshal [QPush Z.of_nat "a" ""; QPush Z.of_nat "b" ""; QPop]
              (mkRun 0%Z (queue_sample <| taskQueue := [] |>) [] []) in
   MarshalQueue marshal (qr_conductor s) = ["2"] /\
   map marshal (ListQueue (qr_conductor s)) = ["1"]).
Proof.
  split; [|split; by_eval].
  unfold ListQueue. rewrite list_lookup_imap. destruct (taskQueue c !! i) as [u|] eqn:E; simpl;
    [|done].
  intros; simplify_eq/=. eauto.
Qed.
