(* ===== verification/Checkpoints.v ===== *)
(** * The git checkpoint manager

    Translates [internal/git/checkpoint.go].  The repository's own methods run
    git, so they are the class [Repo] over a type of worlds; an error leaves
    whatever world the failed command left. *)

From S2P Require Import Prelude.

(** ** State *)

Record Checkpoint := mkCheckpoint {
  cp_ID : string;
  cp_CommitSHA : string;
  cp_Branch : string;
  cp_Message : string;
  cp_State : string;
  cp_CreatedAt : Time
}.

Record CheckpointManager (W : Type) := mkCM {
  repo : W;
  checkpoints : list Checkpoint;
  current : Z
}.
Arguments mkCM {W}.
Arguments repo {W}.
Arguments checkpoints {W}.
Arguments current {W}.

#[export] Instance eta_CheckpointManager {W} : Eta (CheckpointManager W) := fun m =>
  mkCM (repo m) (checkpoints m) (current m).

Class Repo (W : Type) := {
  StageAll : W -> W * result string unit;
  HasUncommittedChanges : W -> W * result string bool;
  RepoCommit : string -> W -> W * result string string;
  CurrentCommit : W -> W * result string string;
  CurrentBranch : W -> W * result string string;
  RepoReset : string -> bool -> W -> W * result string unit
}.

(** ** Operations *)

Section operations.
Context {W : Type} `{Repo W}.
Implicit Types m : CheckpointManager W.

Definition NewCheckpointManager (w : W) : CheckpointManager W := mkCM w [] (-1)%Z.

Definition lenZ m : Z := Z.of_nat (length (checkpoints m)).

(** A call on [m.repo], its error wrapped. *)
Definition on_repo {A} (what : string) (f : W -> W * result string A) m
  : CheckpointManager W * result string A :=
  let '(w, r) := f (repo m) in
  (m <| repo := w |>, match r with Ok a => Ok a | Err e => Err (what +:+ ": " +:+ e) end).

Definition Create (now : Time) (st message commitPrefix : string) m
  : CheckpointManager W * result string Checkpoint :=
  match on_repo "stage" StageAll m with
  | (m, Err e) => (m, Err e)
  | (m, Ok _) =>
  match on_repo "check changes" HasUncommittedChanges m with
  | (m, Err e) => (m, Err e)
  | (m, Ok has) =>
  let prefix := if decide (commitPrefix = "") then "[kvelmo]" else commitPrefix in
  match (if has : bool
         then on_repo "commit" (RepoCommit (prefix +:+ " " +:+ st +:+ ": " +:+ message)) m
         else on_repo "get commit" CurrentCommit m) with
  | (m, Err e) => (m, Err e)
  | (m, Ok sha) =>
  match on_repo "get branch" CurrentBranch m with
  | (m, Err e) => (m, Err e)
  | (m, Ok branch) =>
      let cp := mkCheckpoint ("cp-" +:+ pretty (lenZ m + 1)%Z) sha branch message st now in
      let m := if (current m <? lenZ m - 1)%Z
               then m <| checkpoints := take (Z.to_nat (current m + 1)) (checkpoints m) |>
               else m in
      let m := m <| checkpoints := checkpoints m ++ [cp] |> in
      (m <| current := (lenZ m - 1)%Z |>, Ok cp)
  end end end end.

Definition CanUndo m : bool := (0 <? current m)%Z.

Definition CanRedo m : bool := (current m <? lenZ m - 1)%Z.

(** [m.checkpoints[i]]: [None] where the code panics. *)
Definition checkpoint_at m (i : Z) : option Checkpoint :=
  if (i <? 0)%Z then None else checkpoints m !! Z.to_nat i.

(** The reset shared by [Undo] and [Redo], which move [current] by [d] first
    and move it back when the reset fails. *)
Definition move_to (d : Z) m : CheckpointManager W * result string Checkpoint :=
  let m := m <| current := (current m + d)%Z |> in
  match checkpoint_at m (current m) with
  | None => (m, Err "index out of range")
  | Some cp =>
      match on_repo "reset" (RepoReset (cp_CommitSHA cp) true) m with
      | (m, Err e) => (m <| current := (current m - d)%Z |>, Err e)
      | (m, Ok _) => (m, Ok cp)
      end
  end.

Definition Undo m : CheckpointManager W * result string Checkpoint :=
  if negb (CanUndo m) then (m, Err "nothing to undo") else move_to (-1)%Z m.

Definition Redo m : CheckpointManager W * result string Checkpoint :=
  if negb (CanRedo m) then (m, Err "nothing to redo") else move_to 1%Z m.

Definition List m : list Checkpoint := checkpoints m.

Definition Current m : option Checkpoint :=
  if (current m <? 0)%Z || (lenZ m <=? current m)%Z then None else checkpoint_at m (current m).

(** The loop of [GoTo]: the first checkpoint with the ID, with its index. *)
Fixpoint find_checkpoint (id : string) (i : Z) (l : list Checkpoint) : option (Z * Checkpoint) :=
  match l with
  | [] => None
  | cp :: l => if decide (cp_ID cp = id) then Some (i, cp) else find_checkpoint id (i + 1)%Z l
  end.

Definition GoTo (id : string) m : CheckpointManager W * result string Checkpoint :=
  match find_checkpoint id 0%Z (checkpoints m) with
  | None => (m, Err ("checkpoint not found: " +:+ id))
  | Some (i, cp) =>
      match on_repo "reset" (RepoReset (cp_CommitSHA cp) true) m with
      | (m, Err e) => (m, Err e)
      | (m, Ok _) => (m <| current := i |>, Ok cp)
      end
  end.

Inductive cm_op := CCreate (now : Time) (st message prefix : string) | CUndo | CRedo | CGoTo (id : string).

Definition run_cm_op (o : cm_op) m : CheckpointManager W * result string Checkpoint :=
  match o with
  | CCreate now st msg prefix => Create now st msg prefix m
  | CUndo => Undo m
  | CRedo => Redo m
  | CGoTo id => GoTo id m
  end.

Definition run_cm (ops : list cm_op) m : CheckpointManager W :=
  fold_left (fun m o => (run_cm_op o m).1) ops m.
End operations.

(** ** Invariant *)

(** [current] is -1 exactly while there is no checkpoint, and otherwise the
    index of one. *)
Definition cm_inv {W} (m : CheckpointManager W) : Prop :=
  (checkpoints m = [] /\ current m = -1)%Z \/
  (0 <= current m < Z.of_nat (length (checkpoints m)))%Z.

Section lemmas.
Context {W : Type} `{Repo W}.
Implicit Types m : CheckpointManager W.

Lemma on_repo_frame {A} what (f : W -> W * result string A) m m' r :
  on_repo what f m = (m', r) -> checkpoints m' = checkpoints m /\ current m' = current m.
Proof. unfold on_repo. destruct (f (repo m)). intros; by simplify_eq/=. Qed.

(** What [Create] leaves: on an error the list and the position it found; on
    success the list cut at the position and extended. *)
Lemma cm_Create_inv now st msg prefix m m' r :
  cm_inv m -> Create now st msg prefix m = (m', r) ->
  (exists e, r = Err e /\ checkpoints m' = checkpoints m /\ current m' = current m) \/
  (exists cp, r = Ok cp /\
     cp_ID cp = "cp-" +:+ pretty (lenZ m + 1)%Z /\
     checkpoints m' = take (Z.to_nat (current m + 1)) (checkpoints m) ++ [cp] /\
     current m' = (current m + 1)%Z).
Proof.
  intros Hi. unfold Create.
  destruct (on_repo "stage" _ _) as [m1 [?|e]] eqn:E1;
    apply on_repo_frame in E1 as [Hc1 Hn1]; [|intros; simplify_eq; left; eauto].
  destruct (on_repo "check changes" _ _) as [m2 [has|e]] eqn:E2;
    apply on_repo_frame in E2 as [Hc2 Hn2]; [|intros; simplify_eq; left; naive_solver congruence].
  destruct (if has : bool then _ else _) as [m3 [sha|e]] eqn:E3;
    (assert (checkpoints m3 = checkpoints m2 /\ current m3 = current m2) as [Hc3 Hn3]
       by (destruct has; by apply on_repo_frame in E3));
    [|intros; simplify_eq; left; naive_solver congruence].
  destruct (on_repo "get branch" _ _) as [m4 [branch|e]] eqn:E4;
    apply on_repo_frame in E4 as [Hc4 Hn4]; [|intros; simplify_eq; left; naive_solver congruence].
  assert (Hcs : checkpoints m4 = checkpoints m) by congruence.
  assert (Hn : current m4 = current m) by congruence.
  cbv zeta. intros HR. right. simplify_eq/=. eexists. split; [done|].
  unfold lenZ; simpl. rewrite Hcs, Hn. split; [done|].
  destruct (Z.ltb_spec (current m) (Z.of_nat (length (checkpoints m)) - 1)); simpl.
  - rewrite length_app, length_take. simpl. split; [done|].
    destruct Hi as [[Hl ?]|?]; [rewrite Hl in *; simpl in *; lia|lia].
  - rewrite Hcs. destruct Hi as [[Hl Hm]|?].
    + rewrite Hl, Hm. by split.
    + rewrite take_ge by lia. split; [done|]. rewrite length_app. simpl. lia.
Qed.

Lemma checkpoint_at_Some m i cp :
  checkpoint_at m i = Some cp -> (0 <= i < Z.of_nat (length (checkpoints m)))%Z.
Proof.
  unfold checkpoint_at. destruct (Z.ltb_spec i 0); [done|].
  intros ?%lookup_lt_Some. lia.
Qed.

Lemma move_to_inv d m m' r :
  move_to d m = (m', r) -> (0 <= current m + d < Z.of_nat (length (checkpoints m)))%Z ->
  checkpoints m' = checkpoints m /\
  ((exists e, r = Err e /\ current m' = current m) \/
   (exists cp, r = Ok cp /\ current m' = (current m + d)%Z /\
      checkpoint_at m (current m + d) = Some cp)).
Proof.
  unfold move_to. intros HR Hb. cbv zeta in HR.
  destruct (checkpoint_at _ _) as [cp|] eqn:Ec.
  - destruct (on_repo _ _ _) as [m1 [?|e]] eqn:E1; apply on_repo_frame in E1 as [Hc1 Hn1];
      simplify_eq/=; split; try done; [right; eauto|left].
    eexists; split; [done|]. rewrite Hn1. simpl. lia.
  - exfalso. unfold checkpoint_at in Ec. simpl in Ec.
    destruct (Z.ltb_spec (current m + d) 0); [lia|].
    apply lookup_ge_None in Ec. lia.
Qed.

Lemma find_checkpoint_Some id i l j cp :
  find_checkpoint id i l = Some (j, cp) ->
  (i <= j < i + Z.of_nat (length l))%Z /\ l !! Z.to_nat (j - i) = Some cp /\ cp_ID cp = id.
Proof.
  revert i. induction l as [|c l IH]; intros i; simpl; [done|].
  destruct (decide (cp_ID c = id)); intros HF; simplify_eq.
  - rewrite Z.sub_diag. split_and!; [lia|lia|done|done].
  - destruct (IH _ HF) as (Hb & Hl & Hid). split_and!; [lia|lia| |done].
    by replace (Z.to_nat (j - i)) with (S (Z.to_nat (j - (i + 1)))) by lia.
Qed.
End lemmas.

Lemma run_cm_op_inv {W} `{Repo W} o (m : CheckpointManager W) :
  cm_inv m -> cm_inv (run_cm_op o m).1.
Proof.
  intros Hi. destruct (run_cm_op o m) as [m' r] eqn:E; simpl.
  destruct o as [now st msg prefix| | |id]; simpl in E.
  - apply cm_Create_inv in E as [(e & _ & Hc & Hn)|(cp & _ & _ & Hc & Hn)]; [| |done].
    + unfold cm_inv. by rewrite Hc, Hn.
    + right. rewrite Hc, Hn, length_app, length_take. simpl.
      destruct Hi as [[-> ->]|]; simpl; lia.
  - unfold Undo in E. destruct (CanUndo m) eqn:Eu; simpl in E; [|by simplify_eq].
    apply Z.ltb_lt in Eu. unfold cm_inv.
    apply move_to_inv in E as (Hc & [(e & _ & Hn)|(cp & _ & Hn & _)]); rewrite ?Hc, ?Hn;
      destruct Hi as [[? ?]|?]; try lia; right; lia.
  - unfold Redo in E. destruct (CanRedo m) eqn:Eu; simpl in E; [|by simplify_eq].
    apply Z.ltb_lt in Eu. unfold lenZ in Eu. unfold cm_inv.
    apply move_to_inv in E as (Hc & [(e & _ & Hn)|(cp & _ & Hn & _)]); rewrite ?Hc, ?Hn;
      destruct Hi as [[Hl ?]|?]; try (rewrite Hl in *; simpl in *); try lia; right; lia.
  - unfold GoTo in E. destruct (find_checkpoint _ _ _) as [[j cp]|] eqn:Ef; [|by simplify_eq].
    apply find_checkpoint_Some in Ef as (Hb & _).
    destruct (on_repo _ _ _) as [m1 [?|e]] eqn:E1; apply on_repo_frame in E1 as [Hc1 Hn1];
      simplify_eq; unfold cm_inv; simpl; rewrite ?Hc1, ?Hn1; [right; lia|done].
Qed.

(** ** A simulated repository *)

Record SimRepo := { sr_head : string; sr_next : Z }.

#[export] Instance sim_repo : Repo SimRepo := {
  StageAll w := (w, Ok tt);
  HasUncommittedChanges w := (w, Ok true);
  RepoCommit _ w := let sha := "sha-" +:+ pretty (sr_next w) in
    ({| sr_head := sha; sr_next := Z.succ (sr_next w) |}, Ok sha);
  CurrentCommit w := (w, Ok (sr_head w));
  CurrentBranch w := (w, Ok "main");
  RepoReset sha _ w := ({| sr_head := sha; sr_next := sr_next w |}, Ok tt)
}.

Definition new_sim : CheckpointManager SimRepo :=
  NewCheckpointManager {| sr_head := "sha-0"; sr_next := 1%Z |}.

Definition create_n (n : nat) : list cm_op := repeat (CCreate 0%Z "planned" "m" "") n.

(** ** Properties *)

(** In every run of the checkpoint manager [current] is -1 exactly while
    there is no checkpoint and a valid index otherwise, so the accesses of
    [Undo], [Redo] and [Current] never run out of range, and [Current] is nil
    only before the first checkpoint. *)
Theorem checkpoint_manager_inv {W} `{Repo W} (ops : list cm_op) (w : W) :
  let m := run_cm ops (NewCheckpointManager w) in
  cm_inv m /\ (Current m = None <-> checkpoints m = []).
Proof.
  cbv zeta. assert (Hm : cm_inv (run_cm ops (NewCheckpointManager w))).
  { unfold run_cm. assert (H0 : cm_inv (NewCheckpointManager w)) by by left.
    revert H0. generalize (NewCheckpointManager w). induction ops as [|o ops IH]; intros m Hm;
      simpl; [done|]. apply IH. by apply run_cm_op_inv. }
  split; [done|]. revert Hm. generalize (run_cm ops (NewCheckpointManager w)) as m.
  intros m [[Hl Hc]|Hb]; unfold Current, lenZ.
  - rewrite Hc, Hl. done.
  - destruct (Z.ltb_spec (current m) 0); [lia|].
    destruct (Z.leb_spec (Z.of_nat (length (checkpoints m))) (current m)); [lia|]. simpl.
    unfold checkpoint_at. destruct (Z.ltb_spec (current m) 0); [lia|].
    rewrite lookup_ge_None. split; [lia|]. intros Hn. rewrite Hn in *. simpl in *. lia.
Qed.

(** Undo then redo come back to where they started: the same list, the
    same position, and the checkpoint [Redo] returns is the one that was
    current. *)
Theorem checkpoint_undo_redo {W} `{Repo W} (m m1 m2 : CheckpointManager W) (cp1 cp2 : Checkpoint) :
  cm_inv m ->
  Undo m = (m1, Ok cp1) -> Redo m1 = (m2, Ok cp2) ->
  checkpoints m2 = checkpoints m /\ current m2 = current m /\ Current m = Some cp2.
Proof.
  intros Hi. unfold Undo, Redo. destruct (CanUndo m) eqn:Eu; simpl; [|done].
  apply Z.ltb_lt in Eu. intros H1. destruct (CanRedo m1) eqn:Er; simpl; [|done].
  apply Z.ltb_lt in Er. unfold lenZ in Er. intros H2.
  destruct Hi as [[? ?]|Hb]; [lia|].
  apply move_to_inv in H1 as (Hc & [(e & ? & _)|(cp & _ & Hn & Hat)]); [done| |lia].
  rewrite Hc in Er.
  apply move_to_inv in H2 as (Hc2 & [(e & ? & _)|(cp' & ? & Hn2 & Hat2)]); [done| |rewrite Hc; lia].
  simplify_eq. split_and!; [congruence|lia|].
  unfold Current, lenZ. destruct (Z.ltb_spec (current m) 0); [lia|].
  destruct (Z.leb_spec (Z.of_nat (length (checkpoints m))) (current m)); [lia|]. simpl.
  rewrite <- Hat2. unfold checkpoint_at. rewrite Hc.
  by replace (current m1 + 1)%Z with (current m) by lia.
Qed.

Lemma checkpoint_undo_redo_witness :
  let m := run_cm (create_n 2) new_sim in
  current (Redo (Undo m).1).1 = current m /\ current m = 1%Z.
Proof.
  intros m. split; [|by_eval].
  destruct (Undo m) as [m1 [cp1|e]] eqn:E1; [|by vm_compute in E1].
  destruct (Redo m1) as [m2 [cp2|e]] eqn:E2; [|by vm_compute in E1; simplify_eq; vm_compute in E2].
  simpl. rewrite E2. simpl. apply (checkpoint_undo_redo m m1 m2 cp1 cp2); [|done|done].
  right. by vm_compute.
Defined.

(** Checkpoint IDs are not unique: [Create] numbers the new checkpoint by
    the length of the list before it cuts the undone ones off, so creating
    three checkpoints, undoing one and creating two more gives the last two the
    same ID, and going to that ID lands on the earlier of them. *)
Theorem checkpoint_ids_collide :
  let m := run_cm (create_n 3 ++ [CUndo] ++ create_n 2) new_sim in
  map cp_ID (checkpoints m) = ["cp-1"; "cp-2"; "cp-4"; "cp-4"] /\
  map cp_CommitSHA (checkpoints m) = ["sha-1"; "sha-2"; "sha-4"; "sha-5"] /\
  option_map cp_CommitSHA (Current m) = Some "sha-5" /\
  sr_head (repo (GoTo "cp-4" m).1) = "sha-4".
Proof. split_and!; by_eval. Qed.
