(* ===== verification/Graph.v ===== *)
(** * Dependency graphs of nodes

    Translates [internal/graph/graph.go].  A Go map is a [gmap]; a loop that
    ranges over [g.Nodes] visits the keys in an unspecified order, which is the
    argument [order] of the definitions: [order i] is the order of the [i]-th
    loop.  The theorems hold for every order that lists the keys.  Error values
    keep the data of the message instead of its text. *)

From S2P Require Import Prelude.

(** ** Data *)

Definition NodeID := string.

Inductive ErrorStrategy := ErrorFail | ErrorDefaultValue | ErrorRetryThenFail.

#[export] Instance ErrorStrategy_eq_dec : EqDecision ErrorStrategy.
Proof. solve_decision. Defined.

Definition IterationCheck := string -> bool.

Definition ConditionFunc := gmap NodeID string -> bool.

Record SubTaskConfig := {
  stc_Title : string;
  stc_Description : string;
  stc_Phases : list string;
  stc_Branch : string;
  stc_Metadata : go_map string
}.

Record Node := mkNode {
  ID : NodeID;
  Label : string;
  JobType : string;
  Prompt : string;
  DependsOn : list NodeID;
  Condition : option ConditionFunc;
  Frozen : bool;
  FailBranch : option NodeID;
  MaxIterations : Z;
  IterationCheckFn : option IterationCheck;
  Strategy : ErrorStrategy;
  DefaultOutput : string;
  MaxRetries : Z;
  RetryDelay : Duration;
  RequiresApproval : bool;
  ApprovalPrompt : string;
  ApprovalTimeout : Duration;
  SubTask : option SubTaskConfig
}.

#[export] Instance eta_Node : Eta Node := fun n =>
  mkNode (ID n) (Label n) (JobType n) (Prompt n) (DependsOn n) (Condition n) (Frozen n)
    (FailBranch n) (MaxIterations n) (IterationCheckFn n) (Strategy n) (DefaultOutput n) (MaxRetries n)
    (RetryDelay n) (RequiresApproval n) (ApprovalPrompt n) (ApprovalTimeout n) (SubTask n).

Definition IsSubTask (n : Node) : bool := match SubTask n with Some _ => true | None => false end.

Inductive EdgeState := EdgeUnknown | EdgeTaken | EdgeSkipped.

#[export] Instance EdgeState_eq_dec : EqDecision EdgeState.
Proof. solve_decision. Defined.

Record Edge := mkEdge { edge_From : NodeID; edge_To : NodeID }.

Record Graph := mkGraph {
  Nodes : gmap NodeID Node;
  edges : list Edge;
  failEdges : gmap NodeID NodeID;
  depCounts : gmap NodeID nat
}.

#[export] Instance eta_Graph : Eta Graph := fun g =>
  mkGraph (Nodes g) (edges g) (failEdges g) (depCounts g).

Inductive GraphError :=
| EDuplicate (id : NodeID)
| EEmpty
| EUnknownDep (node dep : NodeID)
| EOwnFailBranch (node : NodeID)
| EUnknownFailBranch (node target : NodeID)
| EFailBranchNotDependent (target node : NodeID)
| EPromptAndSubTask (node : NodeID)
| ENoIterationCheck (node : NodeID) (max : Z)
| ENegativeIterations (node : NodeID)
| ERetriesNotPositive (node : NodeID) (max : Z)
| ECycle (node : NodeID)
| EPanic.

(** ** Construction *)

Definition New : Graph := mkGraph ∅ [] ∅ ∅.

Definition AddNode (n : Node) (g : Graph) : result GraphError Graph :=
  match Nodes g !! ID n with
  | Some _ => Err (EDuplicate (ID n))
  | None => Ok (g <| Nodes := <[ID n := n]> (Nodes g) |>)
  end.

(** The node with everything but the arguments at its zero value. *)
Definition simple_node (id label jobType prompt : string) : Node :=
  mkNode id label jobType prompt [] None false None 0%Z None ErrorFail "" 0%Z 0%Z false "" 0%Z None.

Definition SingleNode (id label jobType prompt : string) : Graph :=
  match AddNode (simple_node id label jobType prompt) New with Ok g => g | Err _ => New end.

(** The nodes in the order of the keys [o]. *)
Definition nodes_in (o : list NodeID) (g : Graph) : list Node :=
  omap (fun id => Nodes g !! id) o.

Definition buildEdges (o : list NodeID) (g : Graph) : Graph :=
  let g := g <| edges := [] |> <| failEdges := ∅ |> in
  fold_left (fun g node =>
    let g := g <| edges ::= fun es => es ++ map (fun dep => mkEdge dep (ID node)) (DependsOn node) |> in
    match FailBranch node with
    | Some target => g <| failEdges ::= <[ID node := target]> |>
    | None => g
    end) (nodes_in o g) g.

(** ** Queries *)

Definition FailBranchTarget (id : NodeID) (g : Graph) : option NodeID := failEdges g !! id.

Definition IsFailBranchEdge (from to : NodeID) (g : Graph) : bool :=
  match failEdges g !! from with Some target => bool_decide (target = to) | None => false end.

Definition FailErrorKey (id : NodeID) : NodeID := "__fail_error:" +:+ id.

Definition all_nodes (g : Graph) : list Node := (map_to_list (Nodes g)).*2.

(** The loops collect and sort, so the order of the range does not show. *)
Definition Roots (g : Graph) : list NodeID :=
  sort_strings (ID <$> filter (fun n => DependsOn n = []) (all_nodes g)).

Definition Dependents (id : NodeID) (g : Graph) : list NodeID :=
  sort_strings (ID <$> filter (fun n => id ∈ DependsOn n) (all_nodes g)).

Definition NodeCount (g : Graph) : nat := size (Nodes g).

Definition NodeIDs (g : Graph) : list NodeID := sort_strings (map_to_list (Nodes g)).*1.

Definition TransitiveDepCount (id : NodeID) (g : Graph) : nat := default 0 (depCounts g !! id).

(** ** Transitive dependent counts *)

(** The [reverse] map: for each ID the nodes that list it, once per listing. *)
Definition reverse_map (o : list NodeID) (g : Graph) : gmap NodeID (list NodeID) :=
  fold_left (fun rev node =>
    fold_left (fun rev dep => <[dep := default [] (rev !! dep) ++ [ID node]]> rev)
      (DependsOn node) rev) (nodes_in o g) ∅.

Definition rev_deps (rev : gmap NodeID (list NodeID)) (id : NodeID) : list NodeID :=
  default [] (rev !! id).

(** The breadth-first search; [None] when the fuel runs out. *)
Fixpoint bfs (fuel : nat) (rev : gmap NodeID (list NodeID)) (visited : gset NodeID)
    (queue : list NodeID) : option (gset NodeID) :=
  match queue with
  | [] => Some visited
  | cur :: queue =>
      match fuel with
      | 0 => None
      | S fuel =>
          if decide (cur ∈ visited) then bfs fuel rev visited queue
          else bfs fuel rev ({[cur]} ∪ visited) (queue ++ rev_deps rev cur)
      end
  end.

(** Each node's list enters the queue once when the node is visited, and the
    start's once more at the beginning. *)
Definition edge_count (g : Graph) : nat := sum_list_with (fun n => length (DependsOn n)) (all_nodes g).

Definition bfs_fuel (g : Graph) : nat := 2 * edge_count g.

Definition computeDepCounts (order : nat -> list NodeID) (g : Graph) : Graph :=
  let rev := reverse_map (order 0) g in
  let counts := fold_left (fun counts id =>
    match bfs (bfs_fuel g) rev ∅ (rev_deps rev id) with
    | Some visited => <[id := size visited]> counts
    | None => counts
    end) (order 1) ∅ in
  g <| depCounts := counts |>.

(** ** Cycle detection *)

Definition Color := nat.
Definition white : Color := 0.
Definition gray : Color := 1.
Definition black : Color := 2.

Definition color_of (color : gmap NodeID Color) (id : NodeID) : Color := default white (color !! id).

(** The inner loop on its stack of frames, top first; [None] when the fuel
    runs out. *)
Fixpoint dfs_loop (fuel : nat) (g : Graph) (color : gmap NodeID Color)
    (stack : list (NodeID * nat)) : option (result GraphError (gmap NodeID Color)) :=
  match stack with
  | [] => Some (Ok color)
  | (id, depIndex) :: rest =>
      match fuel with
      | 0 => None
      | S fuel =>
          match Nodes g !! id with
          | None => Some (Err EPanic)
          | Some node =>
              match DependsOn node !! depIndex with
              | None => dfs_loop fuel g (<[id := black]> color) rest
              | Some dep =>
                  let stack := (id, S depIndex) :: rest in
                  if decide (color_of color dep = white)
                  then dfs_loop fuel g (<[dep := gray]> color) ((dep, 0) :: stack)
                  else if decide (color_of color dep = gray) then Some (Err (ECycle dep))
                  else dfs_loop fuel g color stack
              end
          end
      end
  end.

(** Each node is pushed once and looked at once more than it has
    dependencies. *)
Definition dfs_fuel (g : Graph) : nat :=
  sum_list_with (fun n => S (length (DependsOn n))) (all_nodes g).

Fixpoint dfs_starts (g : Graph) (color : gmap NodeID Color) (ids : list NodeID)
  : option (result GraphError (gmap NodeID Color)) :=
  match ids with
  | [] => Some (Ok color)
  | startID :: ids =>
      if decide (color_of color startID <> white) then dfs_starts g color ids
      else match dfs_loop (dfs_fuel g) g (<[startID := gray]> color) [(startID, 0)] with
           | None => None
           | Some (Err e) => Some (Err e)
           | Some (Ok color) => dfs_starts g color ids
           end
  end.

Definition detectCycles (g : Graph) : option (result GraphError unit) :=
  match dfs_starts g ∅ (NodeIDs g) with
  | None => None
  | Some (Err e) => Some (Err e)
  | Some (Ok _) => Some (Ok tt)
  end.

(** ** Validation *)

(** A loop that returns at the first error. *)
Fixpoint first_error {A} (check : A -> option GraphError) (l : list A) : option GraphError :=
  match l with
  | [] => None
  | x :: l => match check x with Some e => Some e | None => first_error check l end
  end.

Definition check_deps (g : Graph) (node : Node) : option GraphError :=
  first_error (fun dep => match Nodes g !! dep with
                          | Some _ => None
                          | None => Some (EUnknownDep (ID node) dep)
                          end) (DependsOn node).

Definition check_fail_branch (g : Graph) (node : Node) : option GraphError :=
  match FailBranch node with
  | None => None
  | Some target =>
      if decide (target = ID node) then Some (EOwnFailBranch (ID node)) else
      match Nodes g !! target with
      | None => Some (EUnknownFailBranch (ID node) target)
      | Some targetNode =>
          if slice_contains (DependsOn targetNode) (ID node) then None
          else Some (EFailBranchNotDependent target (ID node))
      end
  end.

Definition check_sub_task (node : Node) : option GraphError :=
  if IsSubTask node && bool_decide (Prompt node <> "")
  then Some (EPromptAndSubTask (ID node)) else None.

Definition check_iteration (node : Node) : option GraphError :=
  if (0 <? MaxIterations node)%Z && (if IterationCheckFn node then false else true)
  then Some (ENoIterationCheck (ID node) (MaxIterations node))
  else if (MaxIterations node <? 0)%Z then Some (ENegativeIterations (ID node)) else None.

Definition check_strategy (node : Node) : option GraphError :=
  if bool_decide (Strategy node = ErrorRetryThenFail) && (MaxRetries node <=? 0)%Z
  then Some (ERetriesNotPositive (ID node) (MaxRetries node)) else None.

(** On success the graph comes back with its derived fields; a failed
    validation leaves it as it was. *)
Definition Validate (order : nat -> list NodeID) (g : Graph) : option (result GraphError Graph) :=
  if decide (size (Nodes g) = 0) then Some (Err EEmpty) else
  match first_error (check_deps g) (nodes_in (order 0) g) with Some e => Some (Err e) | None =>
  match first_error (check_fail_branch g) (nodes_in (order 1) g) with Some e => Some (Err e) | None =>
  match first_error check_sub_task (nodes_in (order 2) g) with Some e => Some (Err e) | None =>
  match first_error check_iteration (nodes_in (order 3) g) with Some e => Some (Err e) | None =>
  match first_error check_strategy (nodes_in (order 4) g) with Some e => Some (Err e) | None =>
  match detectCycles g with
  | None => None
  | Some (Err e) => Some (Err e)
  | Some (Ok _) => Some (Ok (computeDepCounts (fun i => order (6 + i)) (buildEdges (order 5) g)))
  end end end end end end.

(** ** Specification *)

(** Each key is the ID of its node: [AddNode] is the only way in. *)
Definition well_keyed (g : Graph) : Prop := forall k n, Nodes g !! k = Some n -> ID n = k.

(** [a] lists [b] in its [DependsOn]. *)
Definition depends (g : Graph) (a b : NodeID) : Prop :=
  exists n, Nodes g !! a = Some n /\ b ∈ DependsOn n.

Definition acyclic (g : Graph) : Prop := forall a, ~ tc (depends g) a a.

Definition closed_refs (g : Graph) : Prop := forall a b, depends g a b -> is_Some (Nodes g !! b).

Definition is_order (o : list NodeID) (g : Graph) : Prop := o ≡ₚ (map_to_list (Nodes g)).*1.

(** A list in which the dependencies of every entry come after it. *)
Fixpoint topological (g : Graph) (l : list NodeID) : Prop :=
  match l with
  | [] => True
  | a :: l => a ∉ l /\ (forall b, depends g a b -> b ∈ l) /\ topological g l
  end.

(** ** Lemmas: the graph as a relation *)

Lemma topological_tc g l a b :
  topological g l -> a ∈ l -> tc (depends g) a b ->
  b ∈ l /\ forall l1 l2, l = l1 ++ a :: l2 -> b ∈ l2.
Proof.
  intros Hl Ha Htc. revert Ha. induction Htc as [a b Hab|a c b Hac Hcb IH]; intros Ha.
  - assert (H : forall l1 l2, l = l1 ++ a :: l2 -> b ∈ l2).
    { intros l1 l2 ->. clear Ha. induction l1 as [|x l1 IH]; simpl in *; [by apply Hl|].
      apply IH, Hl. }
    split; [|done]. apply list_elem_of_split in Ha as (l1 & l2 & Heq).
    specialize (H l1 l2 Heq). rewrite Heq, elem_of_app, elem_of_cons. auto.
  - assert (H : forall l1 l2, l = l1 ++ a :: l2 -> c ∈ l2).
    { intros l1 l2 ->. clear Ha IH. induction l1 as [|x l1 IH']; simpl in *; [by apply Hl|].
      apply IH', Hl. }
    assert (Hc : c ∈ l).
    { apply list_elem_of_split in Ha as (l1 & l2 & Heq).
      specialize (H l1 l2 Heq). rewrite Heq, elem_of_app, elem_of_cons. auto. }
    destruct (IH Hc) as [Hb Hsuf]. split; [done|]. intros l1 l2 Heq.
    specialize (H _ _ Heq). apply list_elem_of_split in H as (l3 & l4 & ->).
    specialize (Hsuf (l1 ++ a :: l3) l4). rewrite elem_of_app, elem_of_cons.
    right; right. apply Hsuf. by rewrite Heq, <- app_assoc.
Qed.

Lemma topological_NoDup g l : topological g l -> NoDup l.
Proof. induction l; simpl; [constructor|]. intros (? & _ & ?). constructor; auto. Qed.

Lemma topological_acyclic g l :
  topological g l -> (forall a, is_Some (Nodes g !! a) -> a ∈ l) -> acyclic g.
Proof.
  intros Hl Hall a Htc.
  assert (Ha : a ∈ l).
  { apply Hall. apply tc_nsteps in Htc as (n & ? & Hs). destruct n; [lia|].
    inversion Hs as [|? ? ? ? (nd & Hn & _)]; subst. by eexists. }
  destruct (topological_tc g l a a Hl Ha Htc) as [_ Hsuf].
  apply list_elem_of_split in Ha as (l1 & l2 & Heq). specialize (Hsuf l1 l2 Heq).
  apply topological_NoDup in Hl. rewrite Heq, NoDup_app in Hl.
  destruct Hl as (_ & _ & Hl). by inversion Hl.
Qed.

Lemma elem_of_all_nodes g n :
  well_keyed g -> n ∈ all_nodes g <-> Nodes g !! ID n = Some n.
Proof.
  intros Hk. unfold all_nodes. rewrite list_elem_of_fmap. split.
  - intros ([k m] & -> & Hm). apply elem_of_map_to_list in Hm. simpl. by rewrite (Hk k m Hm).
  - intros Hn. exists (ID n, n). by rewrite elem_of_map_to_list.
Qed.

Lemma elem_of_NodeIDs g k : k ∈ NodeIDs g <-> is_Some (Nodes g !! k).
Proof.
  unfold NodeIDs. rewrite elem_of_sort_strings, list_elem_of_fmap. split.
  - intros ([k' n] & -> & Hm). apply elem_of_map_to_list in Hm. by eexists.
  - intros [n Hn]. exists (k, n). by rewrite elem_of_map_to_list.
Qed.

Lemma elem_of_order o g k : is_order o g -> k ∈ o <-> is_Some (Nodes g !! k).
Proof.
  intros Ho. rewrite Ho, <- elem_of_NodeIDs. unfold NodeIDs. by rewrite elem_of_sort_strings.
Qed.

Lemma elem_of_nodes_in o g n :
  well_keyed g -> is_order o g -> n ∈ nodes_in o g <-> Nodes g !! ID n = Some n.
Proof.
  intros Hk Ho. unfold nodes_in. rewrite list_elem_of_omap. split.
  - intros (k & _ & Hn). by rewrite (Hk k n Hn).
  - intros Hn. exists (ID n). rewrite (elem_of_order o g) by done. split; [by eexists|done].
Qed.

Lemma Dependents_spec g id k :
  well_keyed g -> k ∈ Dependents id g <-> depends g k id.
Proof.
  intros Hk. unfold Dependents, depends. rewrite elem_of_sort_strings, list_elem_of_fmap.
  split.
  - intros (n & -> & Hn). apply list_elem_of_filter in Hn as [Hd Hn].
    apply elem_of_all_nodes in Hn; [|done]. eauto.
  - intros (n & Hn & Hd). exists n. rewrite list_elem_of_filter, elem_of_all_nodes by done.
    rewrite (Hk k n Hn). eauto.
Qed.

(** ** Lemmas: the depth-first search *)

Lemma sum_list_with_change {A} (f f' : A -> nat) (l : list A) (x : A) :
  NoDup l -> x ∈ l -> (forall y, y ∈ l -> y <> x -> f y = f' y) ->
  sum_list_with f l + f' x = sum_list_with f' l + f x.
Proof.
  induction 1 as [|y l Hy Hl IH]; [by intros ?%not_elem_of_nil|].
  intros [->|Hx]%elem_of_cons Hf; simpl.
  - assert (sum_list_with f l = sum_list_with f' l); [|lia].
    clear IH Hl. induction l as [|z l IH]; simpl; [done|].
    rewrite IH, (Hf z); [done| | | |]; try set_solver.
  - assert (y <> x) by (by intros ->). rewrite (Hf y) by set_solver.
    specialize (IH Hx ltac:(intros; apply Hf; set_solver)). lia.
Qed.

Section dfs.
Context (g : Graph).

Definition keys : list NodeID := (map_to_list (Nodes g)).*1.

Definition weight (id : NodeID) : nat :=
  match Nodes g !! id with Some n => S (length (DependsOn n)) | None => 0 end.

Definition white_sum (color : gmap NodeID Color) : nat :=
  sum_list_with (fun k => if decide (color_of color k = white) then weight k else 0) keys.

(** The steps that are left: every white node still to be explored and what
    remains of each frame. *)
Definition dfs_measure (color : gmap NodeID Color) (stack : list (NodeID * nat)) : nat :=
  white_sum color + sum_list_with (fun f : NodeID * nat => weight f.1 - f.2) stack.

Lemma keys_NoDup : NoDup keys.
Proof. apply NoDup_fst_map_to_list. Qed.

Lemma elem_of_keys k : k ∈ keys <-> is_Some (Nodes g !! k).
Proof. rewrite <- elem_of_NodeIDs. unfold NodeIDs. by rewrite elem_of_sort_strings. Qed.

Lemma dfs_fuel_weight : dfs_fuel g = sum_list_with weight keys.
Proof.
  unfold dfs_fuel, all_nodes, keys.
  assert (H : forall l, (forall kn, kn ∈ l -> Nodes g !! kn.1 = Some kn.2) ->
    sum_list_with (fun n => S (length (DependsOn n))) l.*2 = sum_list_with weight l.*1).
  { induction l as [|[k n] l IH]; intros Hl; [done|]. rewrite !fmap_cons. cbn [sum_list_with].
    rewrite IH by (intros; apply Hl; set_solver). f_equal. unfold weight; simpl.
    assert (Hk : Nodes g !! k = Some n) by (apply (Hl (k, n)); set_solver). by rewrite Hk. }
  apply H. intros [k n] Hkn. by apply elem_of_map_to_list in Hkn.
Qed.

Lemma white_sum_bound color : white_sum color <= dfs_fuel g.
Proof.
  rewrite dfs_fuel_weight. unfold white_sum. induction keys as [|k l IH]; simpl; [done|].
  destruct (decide _); lia.
Qed.

Lemma color_of_insert color k c k' :
  color_of (<[k := c]> color) k' = if decide (k = k') then c else color_of color k'.
Proof.
  unfold color_of. destruct (decide (k = k')) as [->|].
  - by rewrite lookup_insert_eq.
  - by rewrite lookup_insert_ne.
Qed.

Lemma white_sum_visit color k c :
  is_Some (Nodes g !! k) -> color_of color k = white -> c <> white ->
  white_sum color = white_sum (<[k := c]> color) + weight k.
Proof.
  intros Hk Hw Hc. unfold white_sum.
  pose proof (sum_list_with_change
    (fun j => if decide (color_of color j = white) then weight j else 0)
    (fun j => if decide (color_of (<[k := c]> color) j = white) then weight j else 0)
    keys k keys_NoDup (proj2 (elem_of_keys k) Hk)) as Hs.
  cbv beta in Hs. rewrite color_of_insert, (decide_True _ _ eq_refl) in Hs.
  rewrite (decide_False _ _ Hc), (decide_True _ _ Hw), Nat.add_0_r in Hs. apply Hs. intros y _ Hy.
  rewrite color_of_insert. by destruct (decide (k = y)) as [->|].
Qed.

Lemma white_sum_keep color k c :
  color_of color k <> white -> c <> white -> white_sum (<[k := c]> color) = white_sum color.
Proof.
  intros Hk Hc. unfold white_sum. induction keys as [|j l IH]; simpl; [done|].
  rewrite IH, color_of_insert. destruct (decide (k = j)) as [->|]; [|done].
  by rewrite !decide_False by done.
Qed.

(** The frames of the stack above [child]'s: each node is known, its index is
    in range, it depends on the node above it, and its dependencies before
    the index are finished or that node. *)
Fixpoint frames_ok (fin : list NodeID) (child : option NodeID) (stack : list (NodeID * nat))
  : Prop :=
  match stack with
  | [] => True
  | (a, i) :: rest =>
      (exists n, Nodes g !! a = Some n /\ i <= length (DependsOn n) /\
         forall j d, j < i -> DependsOn n !! j = Some d -> d ∈ fin \/ child = Some d) /\
      (forall c, child = Some c -> depends g a c) /\
      frames_ok fin (Some a) rest
  end.

(** [fin] lists the finished nodes, the last finished first. *)
Record dfs_inv (color : gmap NodeID Color) (stack : list (NodeID * nat)) (fin : list NodeID)
  : Prop := {
  di_colors : forall k, color_of color k = white \/ color_of color k = gray \/
                        color_of color k = black;
  di_black : forall k, color_of color k = black <-> k ∈ fin;
  di_gray : forall k, color_of color k = gray <-> k ∈ stack.*1;
  di_nodup : NoDup stack.*1;
  di_topo : topological g fin;
  di_frames : frames_ok fin None stack
}.

Lemma frames_ok_mono fin fin' child stack :
  (forall k, k ∈ fin -> k ∈ fin') -> frames_ok fin child stack -> frames_ok fin' child stack.
Proof.
  intros Hf. revert child. induction stack as [|[a i] rest IH]; intros child; simpl; [done|].
  intros ((n & Hn & Hi & Hd) & Hc & Hr). split_and!; [|done|auto].
  exists n. split_and!; [done|done|]. intros j d Hj Hdj. destruct (Hd j d Hj Hdj); auto.
Qed.

(** Once the child is finished it no longer needs to be singled out. *)
Lemma frames_ok_pop fin a rest :
  frames_ok fin (Some a) rest -> frames_ok (a :: fin) None rest.
Proof.
  destruct rest as [|[b i] rest]; simpl; [done|].
  intros ((n & Hn & Hi & Hd) & _ & Hr). split_and!; [|done|].
  - exists n. split_and!; [done|done|]. intros j d Hj Hdj. rewrite elem_of_cons.
    destruct (Hd j d Hj Hdj) as [|?]; simplify_eq; auto.
  - eapply frames_ok_mono; [|exact Hr]. set_solver.
Qed.

Lemma dfs_inv_pop color a i rest fin n :
  dfs_inv color ((a, i) :: rest) fin ->
  Nodes g !! a = Some n -> DependsOn n !! i = None ->
  dfs_inv (<[a := black]> color) rest (a :: fin).
Proof.
  intros [Hcol Hbl Hgr Hnd Htopo Hfr] Hn Hi. simpl in *.
  destruct Hfr as ((n' & Hn' & _ & Hd) & _ & Hr). simplify_eq.
  apply NoDup_cons in Hnd as [Ha Hnd]. apply lookup_ge_None in Hi.
  assert (Hag : color_of color a = gray) by (apply Hgr; set_solver).
  split; [| | |done| |by apply frames_ok_pop].
  - intros k. rewrite color_of_insert. destruct (decide _); auto.
  - intros k. rewrite color_of_insert, elem_of_cons, <- Hbl. destruct (decide (a = k)); naive_solver.
  - intros k. rewrite color_of_insert. specialize (Hgr k). rewrite elem_of_cons in Hgr.
    destruct (decide (a = k)) as [->|]; [|naive_solver]. split; [done|by intros ?%Ha].
  - simpl. split_and!; [|intros b Hb|done].
    + rewrite <- Hbl. by rewrite Hag.
    + destruct Hb as (n2 & ? & Hb); simplify_eq. apply list_elem_of_lookup in Hb as [j Hj].
      assert (j < i) by (apply lookup_lt_Some in Hj; lia).
      by destruct (Hd j b ltac:(done) Hj).
Qed.

Lemma frames_ok_next fin a i rest n :
  frames_ok fin None ((a, i) :: rest) -> Nodes g !! a = Some n ->
  forall dep, DependsOn n !! i = Some dep -> depends g a dep /\
  frames_ok fin (Some dep) ((a, S i) :: rest) /\
  (dep ∈ fin -> frames_ok fin None ((a, S i) :: rest)).
Proof.
  simpl. intros ((n' & Hn' & Hi & Hd) & _ & Hr) Hn dep Hdep.
  assert (n' = n) as -> by congruence.
  assert (Had : depends g a dep) by (exists n; split; [done|by eapply list_elem_of_lookup_2]).
  pose proof (lookup_lt_Some _ _ _ Hdep).
  assert (Hstep : forall j d, j < S i -> DependsOn n !! j = Some d -> d ∈ fin \/ Some dep = Some d).
  { intros j d Hj Hjd. destruct (decide (j = i)) as [->|]; [right; congruence|].
    destruct (Hd j d ltac:(lia) Hjd); [by left|done]. }
  split; [done|split].
  - split_and!; [exists n; split_and!; [done|lia|exact Hstep]|naive_solver|done].
  - intros Hf. split_and!; [exists n; split_and!; [done|lia|]|done|done].
    intros j d Hj Hjd. left. by destruct (Hstep j d Hj Hjd) as [|?]; simplify_eq.
Qed.

Lemma dfs_inv_push color a i rest fin n dep :
  closed_refs g ->
  dfs_inv color ((a, i) :: rest) fin ->
  Nodes g !! a = Some n -> DependsOn n !! i = Some dep -> color_of color dep = white ->
  dfs_inv (<[dep := gray]> color) ((dep, 0) :: (a, S i) :: rest) fin.
Proof.
  intros Hrefs [Hcol Hbl Hgr Hnd Htopo Hfr] Hn Hi Hw.
  destruct (frames_ok_next _ _ _ _ _ Hfr Hn dep Hi) as (Had & Hfr' & _).
  destruct (Hrefs a dep Had) as [nd Hnd'].
  assert (Hne : dep ∉ ((a, i) :: rest).*1) by (rewrite <- Hgr, Hw; done).
  split; [| | | |done|].
  - intros k. rewrite color_of_insert. destruct (decide _); auto.
  - intros k. rewrite color_of_insert, <- Hbl. destruct (decide (dep = k)) as [->|]; [|done].
    by rewrite Hw.
  - intros k. rewrite color_of_insert. specialize (Hgr k). simpl in *.
    rewrite elem_of_cons. destruct (decide (dep = k)) as [->|]; naive_solver.
  - simpl in *. by constructor.
  - split_and!; [exists nd; split_and!; [done|lia|intros; lia]|done|exact Hfr'].
Qed.

Lemma dfs_inv_skip color a i rest fin n dep :
  dfs_inv color ((a, i) :: rest) fin ->
  Nodes g !! a = Some n -> DependsOn n !! i = Some dep -> color_of color dep = black ->
  dfs_inv color ((a, S i) :: rest) fin.
Proof.
  intros [Hcol Hbl Hgr Hnd Htopo Hfr] Hn Hi Hb.
  destruct (frames_ok_next _ _ _ _ _ Hfr Hn dep Hi) as (_ & _ & Hfr').
  split; auto. by apply Hfr', Hbl.
Qed.

(** A node on the stack reaches the node at its top. *)
Lemma frames_reach fin child stack k c :
  frames_ok fin child stack -> child = Some c -> k ∈ stack.*1 -> tc (depends g) k c.
Proof.
  revert child c. induction stack as [|[a i] rest IH]; intros child c Hfr Hc Hk; simpl in *;
    [by apply not_elem_of_nil in Hk|].
  destruct Hfr as (_ & Hdep & Hr). specialize (Hdep c Hc).
  apply elem_of_cons in Hk as [->|Hk]; [by apply tc_once|].
  eapply tc_r; [|exact Hdep]. by apply (IH (Some a) a Hr eq_refl).
Qed.

Lemma dfs_inv_cycle color a i rest fin n dep :
  dfs_inv color ((a, i) :: rest) fin ->
  Nodes g !! a = Some n -> DependsOn n !! i = Some dep -> color_of color dep = gray ->
  tc (depends g) dep dep.
Proof.
  intros [Hcol Hbl Hgr Hnd Htopo Hfr] Hn Hi Hg.
  destruct (frames_ok_next _ _ _ _ _ Hfr Hn dep Hi) as (Had & Hfr' & _).
  apply (frames_reach fin (Some dep) ((a, S i) :: rest) dep dep Hfr' eq_refl).
  apply Hgr in Hg. exact Hg.
Qed.

(** The inner loop with enough fuel ends: either on a cycle or with every
    node of the stack finished. *)
Lemma dfs_loop_spec (Hrefs : closed_refs g) fuel color stack fin :
  dfs_inv color stack fin -> dfs_measure color stack <= fuel ->
  exists r, dfs_loop fuel g color stack = Some r /\
    match r with
    | Err e => exists d, e = ECycle d /\ tc (depends g) d d
    | Ok color' => exists fin', dfs_inv color' [] fin' /\
        (forall k, k ∈ fin \/ k ∈ stack.*1 -> k ∈ fin')
    end.
Proof.
  revert color stack fin. induction fuel as [|fuel IH]; intros color stack fin Hinv Hm;
    (destruct stack as [|[a i] rest]; [simpl; eexists; split; [done|]; exists fin; split; [done|];
      intros k [?|?%not_elem_of_nil]; done|]);
    pose proof (di_frames _ _ _ Hinv) as ((n & Hn & Hi & _) & _).
  { exfalso. unfold dfs_measure in Hm. simpl in Hm. unfold weight in Hm. rewrite Hn in Hm. lia. }
  assert (Hw : weight a = S (length (DependsOn n))) by (unfold weight; by rewrite Hn).
  simpl. rewrite Hn. destruct (DependsOn n !! i) as [dep|] eqn:Hd.
  - pose proof (lookup_lt_Some _ _ _ Hd) as Hlt.
    destruct (di_colors _ _ _ Hinv dep) as [Hc|[Hc|Hc]]; rewrite Hc; simpl.
    + destruct (IH (<[dep := gray]> color) ((dep, 0) :: (a, S i) :: rest) fin) as (r & -> & Hr).
      { by eapply dfs_inv_push. }
      { assert (Hdep : is_Some (Nodes g !! dep))
          by (apply (Hrefs a); exists n; split; [done|by eapply list_elem_of_lookup_2]).
        unfold dfs_measure in *. simpl in *.
        rewrite (white_sum_visit color dep gray Hdep Hc) in Hm by done. lia. }
      exists r. split; [done|]. destruct r as [color'|e]; [|done].
      destruct Hr as (fin' & ? & Hk). exists fin'. split; [done|]. set_solver.
    + eexists. split; [done|]. exists dep. split; [done|]. by eapply dfs_inv_cycle.
    + destruct (IH color ((a, S i) :: rest) fin) as (r & -> & Hr).
      { by eapply dfs_inv_skip. }
      { unfold dfs_measure in *. simpl in *. lia. }
      exists r. split; [done|]. destruct r as [color'|e]; [|done].
      destruct Hr as (fin' & ? & Hk). exists fin'. split; [done|]. set_solver.
  - destruct (IH (<[a := black]> color) rest (a :: fin)) as (r & -> & Hr).
    { by eapply dfs_inv_pop. }
    { unfold dfs_measure in *. simpl in *.
      rewrite white_sum_keep by (done || (rewrite (proj2 (di_gray _ _ _ Hinv a)); set_solver)).
      lia. }
    exists r. split; [done|]. destruct r as [color'|e]; [|done].
    destruct Hr as (fin' & ? & Hk). exists fin'. split; [done|]. set_solver.
Qed.
End dfs.

Section cycles.
Context (g : Graph) (Hrefs : closed_refs g).

Lemma dfs_inv_start color fin k :
  dfs_inv g color [] fin -> is_Some (Nodes g !! k) -> color_of color k = white ->
  dfs_inv g (<[k := gray]> color) [(k, 0)] fin.
Proof.
  intros [Hcol Hbl Hgr Hnd Htopo Hfr] [n Hn] Hw. split; [| | | |done|].
  - intros j. rewrite color_of_insert. destruct (decide _); auto.
  - intros j. rewrite color_of_insert, <- Hbl. destruct (decide (k = j)) as [->|]; [|done].
    by rewrite Hw.
  - intros j. rewrite color_of_insert. specialize (Hgr j). simpl in *.
    rewrite list_elem_of_singleton. destruct (decide (k = j)) as [->|]; [done|].
    rewrite Hgr. split; [by intros ?%not_elem_of_nil|by intros ->].
  - apply NoDup_singleton.
  - simpl. split_and!; [exists n; split_and!; [done|lia|intros; lia]|done|done].
Qed.

Lemma dfs_starts_spec ids color fin :
  (forall k, k ∈ ids -> is_Some (Nodes g !! k)) ->
  dfs_inv g color [] fin ->
  exists r, dfs_starts g color ids = Some r /\
    match r with
    | Err e => exists d, e = ECycle d /\ tc (depends g) d d
    | Ok color' => exists fin', topological g fin' /\ forall k, k ∈ fin \/ k ∈ ids -> k ∈ fin'
    end.
Proof.
  revert color fin. induction ids as [|k ids IH]; intros color fin Hids Hinv; simpl.
  { eexists; split; [done|]. exists fin. split; [apply Hinv|]. set_solver. }
  goal_decide as [Hw|Hw%dec_stable].
  - destruct (IH color fin) as (r & -> & Hr); [set_solver|done|].
    exists r; split; [done|]. destruct r as [|e]; [|done].
    destruct Hr as (fin' & Ht & Hk). exists fin'. split; [done|].
    assert (k ∈ fin).
    { apply (di_black _ _ _ _ Hinv). destruct (di_colors _ _ _ _ Hinv k) as [|[Hg|]]; [done| |done].
      apply (di_gray _ _ _ _ Hinv) in Hg. by apply not_elem_of_nil in Hg. }
    set_solver.
  - assert (Hk : is_Some (Nodes g !! k)) by (apply Hids; set_solver).
    destruct (dfs_loop_spec g Hrefs (dfs_fuel g) (<[k := gray]> color) [(k, 0)] fin)
      as (r & -> & Hr).
    { by apply dfs_inv_start. }
    { pose proof (white_sum_bound g color).
      rewrite (white_sum_visit g color k gray Hk Hw) in H by done.
      unfold dfs_measure. simpl. lia. }
    destruct r as [color'|e]; [|by eexists].
    destruct Hr as (fin' & Hinv' & Hk').
    destruct (IH color' fin') as (r & -> & Hr); [set_solver|done|].
    exists r; split; [done|]. destruct r as [|e]; [|done].
    destruct Hr as (fin'' & Ht & Hk''). exists fin''. split; [done|].
    intros j [Hj|Hj]; apply Hk''; [left; apply Hk'; by left|].
    apply elem_of_cons in Hj as [->|?]; [left; apply Hk'; right; set_solver|by right].
Qed.

Lemma detectCycles_spec :
  (detectCycles g = Some (Ok tt) /\ acyclic g) \/
  (exists d, detectCycles g = Some (Err (ECycle d)) /\ tc (depends g) d d).
Proof.
  unfold detectCycles.
  destruct (dfs_starts_spec (NodeIDs g) ∅ []) as (r & -> & Hr).
  - intros k. by rewrite elem_of_NodeIDs.
  - split; try done; simpl.
    + intros k. unfold color_of. rewrite lookup_empty. by left.
    + intros k. unfold color_of. rewrite lookup_empty. split; [done|by intros ?%not_elem_of_nil].
    + intros k. unfold color_of. rewrite lookup_empty. split; [done|by intros ?%not_elem_of_nil].
    + constructor.
  - destruct r as [color|e]; [left|right].
    + split; [done|]. destruct Hr as (fin & Ht & Hk).
      apply (topological_acyclic g fin Ht). intros a Ha. apply Hk. right.
      by apply elem_of_NodeIDs.
    + destruct Hr as (d & -> & Hd). eauto.
Qed.
End cycles.

(** ** Lemmas: validation *)

Lemma first_error_None {A} (check : A -> option GraphError) l :
  first_error check l = None <-> forall x, x ∈ l -> check x = None.
Proof.
  induction l as [|x l IH]; simpl.
  - split; [by intros _ y ?%not_elem_of_nil|done].
  - destruct (check x) eqn:E; split; try done.
    + intros H. rewrite (H x) in E by set_solver. done.
    + intros Hl y [->|Hy]%elem_of_cons; [done|]. by apply IH.
    + intros H. apply IH. intros; apply H. set_solver.
Qed.

Lemma check_deps_None g n :
  check_deps g n = None <-> forall d, d ∈ DependsOn n -> is_Some (Nodes g !! d).
Proof.
  unfold check_deps. rewrite first_error_None. split; intros H d Hd; specialize (H d Hd).
  - by destruct (Nodes g !! d).
  - by destruct H as [m ->].
Qed.

(** What the fail-branch of a node has to be. *)
Definition fail_branch_ok (g : Graph) (n : Node) : Prop :=
  forall target, FailBranch n = Some target ->
    target <> ID n /\ exists t, Nodes g !! target = Some t /\ ID n ∈ DependsOn t.

Lemma check_fail_branch_None g n : check_fail_branch g n = None <-> fail_branch_ok g n.
Proof.
  unfold check_fail_branch, fail_branch_ok. destruct (FailBranch n) as [target|]; [|naive_solver].
  destruct (decide (target = ID n)) as [->|Hne]; [naive_solver|].
  destruct (Nodes g !! target) as [t|] eqn:Et; [|naive_solver].
  unfold slice_contains. destruct (decide (ID n ∈ DependsOn t)) as [Hd|Hd].
  - rewrite bool_decide_true by done. split; [|done]. intros _ u Hu; simplify_eq. eauto.
  - rewrite bool_decide_false by done. split; [done|]. intros H.
    destruct (H target eq_refl) as (_ & u & Hu & ?). by simplify_eq.
Qed.

Definition node_config_ok (n : Node) : Prop :=
  (IsSubTask n = true -> Prompt n = "") /\
  (0 <= MaxIterations n)%Z /\ ((0 < MaxIterations n)%Z -> is_Some (IterationCheckFn n)) /\
  (Strategy n = ErrorRetryThenFail -> (0 < MaxRetries n)%Z).

Lemma check_sub_task_None n :
  check_sub_task n = None <-> (IsSubTask n = true -> Prompt n = "").
Proof.
  unfold check_sub_task. destruct (IsSubTask n); simpl; [|done].
  destruct (decide (Prompt n = "")) as [Hp|Hp].
  - rewrite bool_decide_false by auto. done.
  - rewrite bool_decide_true by done. split; [done|]. intros H. by destruct (Hp (H eq_refl)).
Qed.

Lemma check_iteration_None n :
  check_iteration n = None <->
  (0 <= MaxIterations n)%Z /\ ((0 < MaxIterations n)%Z -> is_Some (IterationCheckFn n)).
Proof.
  unfold check_iteration.
  destruct (Z.ltb_spec (MaxIterations n) 0) as [Hneg|Hpos].
  - destruct (Z.ltb_spec 0 (MaxIterations n)); [lia|]. simpl. split; [done|]. lia.
  - destruct (IterationCheckFn n) as [f|].
    + rewrite andb_false_r. split; [|done]. intros _. split; [lia|]. by eexists.
    + rewrite andb_true_r. destruct (Z.ltb_spec 0 (MaxIterations n)).
      * split; [done|]. intros [_ Hc]. by destruct (Hc ltac:(lia)).
      * split; [|done]. intros _. split; [lia|]. lia.
Qed.

Lemma check_strategy_None n :
  check_strategy n = None <-> (Strategy n = ErrorRetryThenFail -> (0 < MaxRetries n)%Z).
Proof.
  unfold check_strategy. destruct (decide (Strategy n = ErrorRetryThenFail)) as [He|He].
  - rewrite bool_decide_true by done. simpl.
    destruct (Z.leb_spec (MaxRetries n) 0) as [Hm|Hm].
    + split; [done|]. intros Hp. specialize (Hp He). lia.
    + split; [|done]. intros _ _. lia.
  - rewrite bool_decide_false by done. naive_solver.
Qed.

(** ** Lemmas: transitive dependents *)

(** [bfs] from a queue, on any reverse adjacency. *)
Section bfs.
Context (rev : gmap NodeID (list NodeID)).

Definition radj (a b : NodeID) : Prop := b ∈ rev_deps rev a.

(** The dependents of the nodes that are still to be visited. *)
Definition unvisited_weight (K : list NodeID) (visited : gset NodeID) : nat :=
  sum_list_with (fun k => if decide (k ∈ visited) then 0 else length (rev_deps rev k)) K.

Lemma unvisited_weight_visit K visited cur :
  NoDup K -> cur ∉ visited -> cur ∈ K \/ rev_deps rev cur = [] ->
  unvisited_weight K visited =
  unvisited_weight K ({[cur]} ∪ visited) + length (rev_deps rev cur).
Proof.
  intros HK Hcur Hcase. unfold unvisited_weight.
  set (f := fun k => if decide (k ∈ visited) then 0 else length (rev_deps rev k)).
  set (f' := fun k => if decide (k ∈ {[cur]} ∪ visited) then 0 else length (rev_deps rev k)).
  assert (Hff : forall y, y <> cur -> f y = f' y).
  { intros y Hy. unfold f, f'.
    destruct (decide (y ∈ visited)), (decide (y ∈ {[cur]} ∪ visited)); set_solver. }
  assert (Hfc : f cur = length (rev_deps rev cur)) by (unfold f; by rewrite decide_False).
  assert (Hfc' : f' cur = 0) by (unfold f'; rewrite decide_True by set_solver; done).
  destruct (decide (cur ∈ K)) as [HcK|HcK].
  - pose proof (sum_list_with_change f f' K cur HK HcK ltac:(auto)). lia.
  - destruct Hcase as [|Hnil]; [done|]. rewrite Hnil, Nat.add_0_r.
    clear HK. induction K as [|k l IHl]; simpl; [done|].
    rewrite IHl by set_solver. by rewrite Hff by set_solver.
Qed.

Lemma bfs_spec K fuel visited queue :
  NoDup K -> (forall k, rev_deps rev k <> [] -> k ∈ K) ->
  length queue + unvisited_weight K visited <= fuel ->
  exists V, bfs fuel rev visited queue = Some V /\
    visited ⊆ V /\ (forall q, q ∈ queue -> q ∈ V) /\
    (forall x, x ∈ V -> x ∈ visited \/ exists q, q ∈ queue /\ rtc radj q x) /\
    ((forall v x, v ∈ visited -> radj v x -> x ∈ visited \/ x ∈ queue) ->
     forall v x, v ∈ V -> radj v x -> x ∈ V).
Proof.
  intros HK Hdom. revert visited queue. induction fuel as [|fuel IH];
    intros visited queue Hf; (destruct queue as [|cur queue]; [simpl; exists visited;
      split_and!; [done|done|set_solver|auto|intros Hc v x Hv Hx; destruct (Hc v x Hv Hx); set_solver]|]);
    simpl in *; [lia|].
  goal_decide as [Hcur|Hcur].
  - destruct (IH visited queue ltac:(lia)) as (V & -> & H1 & H2 & H3 & H4).
    exists V. split_and!; [done|done|set_solver| |].
    + intros x Hx. destruct (H3 x Hx) as [|(q & ? & ?)]; [by left|right]. exists q. set_solver.
    + intros Hc. apply H4. intros v x Hv Hx. destruct (Hc v x Hv Hx); set_solver.
  - rewrite (unvisited_weight_visit K visited cur HK Hcur) in Hf.
    2:{ destruct (decide (cur ∈ K)) as [|HcK]; [by left|right].
        destruct (rev_deps rev cur) eqn:E; [done|]. destruct HcK. apply Hdom. by rewrite E. }
    destruct (IH ({[cur]} ∪ visited) (queue ++ rev_deps rev cur)) as (V & -> & H1 & H2 & H3 & H4).
    { rewrite length_app. lia. }
    exists V. split_and!; [done|set_solver| | |].
    + intros q [->|Hq]%elem_of_cons; set_solver.
    + intros x Hx. destruct (H3 x Hx) as [Hv|(q & Hq & Hr)].
      * apply elem_of_union in Hv as [->%elem_of_singleton|]; [right|by left].
        exists cur. split; [set_solver|done].
      * right. apply elem_of_app in Hq as [Hq|Hq]; [exists q; set_solver|].
        exists cur. split; [set_solver|]. by eapply rtc_l.
    + intros Hc. apply H4. intros v x Hv Hx.
      apply elem_of_union in Hv as [->%elem_of_singleton|Hv]; [set_solver|].
      destruct (Hc v x Hv Hx); set_solver.
Qed.
End bfs.

Lemma nodes_in_perm o g : is_order o g -> nodes_in o g ≡ₚ all_nodes g.
Proof.
  intros Ho. unfold nodes_in. rewrite Ho. unfold all_nodes.
  assert (H : forall l, (forall kn, kn ∈ l -> Nodes g !! kn.1 = Some kn.2) ->
    omap (fun id => Nodes g !! id) l.*1 = l.*2).
  { induction l as [|[k n] l IH]; intros Hl; [done|]. simpl.
    assert (Hkn : Nodes g !! k = Some n) by (apply (Hl (k, n)); set_solver).
    rewrite Hkn. simpl. f_equal. apply IH. set_solver. }
  rewrite H; [done|]. intros [k n] Hkn. by apply elem_of_map_to_list in Hkn.
Qed.

(** The listings of [id] among the dependencies of [n]. *)
Definition listings (id : NodeID) (n : Node) : list NodeID :=
  (fun _ => ID n) <$> filter (fun d => d = id) (DependsOn n).

Lemma reverse_map_deps o g id :
  rev_deps (reverse_map o g) id = flat_map (listings id) (nodes_in o g).
Proof.
  unfold reverse_map.
  assert (Hin : forall n deps rev, rev_deps (fold_left (fun rev dep =>
      <[dep := default [] (rev !! dep) ++ [ID n]]> rev) deps rev) id =
    rev_deps rev id ++ ((fun _ => ID n) <$> filter (fun d => d = id) deps)).
  { intros n deps. induction deps as [|d deps IH]; intros rev; simpl; [by rewrite app_nil_r|].
    rewrite IH. unfold rev_deps. destruct (decide (d = id)) as [->|Hd].
    - rewrite lookup_insert_eq, filter_cons_True by done. simpl. by rewrite <- app_assoc.
    - rewrite lookup_insert_ne, filter_cons_False by done. done. }
  assert (Hout : forall ns rev, rev_deps (fold_left (fun rev node =>
      fold_left (fun rev dep => <[dep := default [] (rev !! dep) ++ [ID node]]> rev)
        (DependsOn node) rev) ns rev) id = rev_deps rev id ++ flat_map (listings id) ns).
  { induction ns as [|n ns IH]; intros rev; simpl; [by rewrite app_nil_r|].
    by rewrite IH, Hin, <- app_assoc. }
  rewrite Hout. unfold rev_deps at 1. by rewrite lookup_empty.
Qed.

Lemma elem_of_rev_deps o g id x :
  well_keyed g -> is_order o g -> x ∈ rev_deps (reverse_map o g) id <-> depends g x id.
Proof.
  intros Hk Ho. rewrite reverse_map_deps, list_elem_of_In, in_flat_map. unfold listings. split.
  - intros (n & Hn & Hx). apply list_elem_of_In in Hn, Hx.
    apply list_elem_of_fmap in Hx as (d & -> & Hd). apply list_elem_of_filter in Hd as [-> Hd].
    apply elem_of_nodes_in in Hn; [|done|done]. by exists n.
  - intros (n & Hn & Hd). exists n. rewrite <- !list_elem_of_In.
    pose proof (Hk _ _ Hn) as <-. split; [by apply elem_of_nodes_in|].
    apply list_elem_of_fmap. exists id. split; [done|]. by apply list_elem_of_filter.
Qed.

Lemma sum_list_with_plus {A} (f h : A -> nat) l :
  sum_list_with (fun x => f x + h x) l = sum_list_with f l + sum_list_with h l.
Proof. induction l; simpl; lia. Qed.

Lemma sum_list_with_ext {A} (f h : A -> nat) l :
  (forall x, f x = h x) -> sum_list_with f l = sum_list_with h l.
Proof. intros H. induction l; simpl; by rewrite ?H, ?IHl. Qed.

Lemma sum_listings n K :
  NoDup K -> sum_list_with (fun id => length (listings id n)) K <= length (DependsOn n).
Proof.
  intros HK. unfold listings. induction (DependsOn n) as [|d deps IH]; cbn [length].
  { change (sum_list_with (fun _ : NodeID => 0) K <= 0). clear HK. induction K; simpl; lia. }
  assert (Hd : sum_list_with (fun id => if decide (d = id) then 1 else 0) K <= 1).
  { clear IH. induction HK as [|k K Hk HK IHK]; simpl; [lia|].
    destruct (decide (d = k)) as [->|]; [|lia].
    assert (Hz : sum_list_with (fun id => if decide (k = id) then 1 else 0) K = 0); [|lia].
    clear IHK HK. induction K as [|j K IHK]; simpl; [done|].
    rewrite decide_False by set_solver. apply IHK. set_solver. }
  assert (Hs : forall id, length ((fun _ : NodeID => ID n) <$> filter (fun x => x = id) (d :: deps)) =
    (if decide (d = id) then 1 else 0) +
    length ((fun _ : NodeID => ID n) <$> filter (fun x => x = id) deps)).
  { intros id. destruct (decide (d = id)).
    - by rewrite filter_cons_True.
    - by rewrite filter_cons_False. }
  rewrite (sum_list_with_ext _ _ K Hs),
    (sum_list_with_plus (fun id => if decide (d = id) then 1 else 0)). lia.
Qed.

Lemma sum_rev_deps o g K :
  is_order o g -> NoDup K ->
  sum_list_with (fun id => length (rev_deps (reverse_map o g) id)) K <= edge_count g.
Proof.
  intros Ho HK. unfold edge_count. rewrite <- (nodes_in_perm o g Ho).
  assert (Hs : forall ns, sum_list_with (fun id => length (flat_map (listings id) ns)) K <=
    sum_list_with (fun n => length (DependsOn n)) ns).
  { induction ns as [|n ns IH]; simpl; [clear HK; induction K; simpl; lia|].
    pose proof (sum_listings n K HK). etrans; [|apply Nat.add_le_mono; [exact H|exact IH]].
    rewrite <- sum_list_with_plus. apply Nat.eq_le_incl, sum_list_with_ext.
    intros k. by rewrite length_app. }
  etrans; [|apply Hs]. apply Nat.eq_le_incl, sum_list_with_ext.
  intros k. by rewrite reverse_map_deps.
Qed.

(** The search from one node finds its transitive dependents and ends. *)
Lemma bfs_dependents o g id :
  well_keyed g -> is_order o g ->
  exists V : gset NodeID,
    bfs (bfs_fuel g) (reverse_map o g) ∅ (rev_deps (reverse_map o g) id) = Some V /\
    forall x, x ∈ V <-> tc (depends g) x id.
Proof.
  intros Hk Ho. set (rev := reverse_map o g).
  set (K := elements (dom rev)).
  assert (HK : NoDup K) by apply NoDup_elements.
  assert (Hdom : forall k, rev_deps rev k <> [] -> k ∈ K).
  { intros k Hne. apply elem_of_elements, elem_of_dom. unfold rev_deps in Hne.
    destruct (rev !! k); [by eexists|done]. }
  pose proof (sum_rev_deps o g K Ho HK) as Hsum.
  destruct (bfs_spec rev K (bfs_fuel g) ∅ (rev_deps rev id) HK Hdom) as (V & HV & _ & H2 & H3 & H4).
  { unfold bfs_fuel. assert (Hq : length (rev_deps rev id) <= edge_count g).
    { destruct (decide (id ∈ K)) as [HiK|HiK].
      - etrans; [|exact Hsum].
        apply (sum_list_with_in id (fun id => length (rev_deps rev id)) K HiK).
      - destruct (rev_deps rev id) eqn:E; simpl; [lia|].
        destruct HiK. apply Hdom. by rewrite E. }
    enough (unvisited_weight rev K ∅ <= edge_count g) by lia.
    etrans; [|exact Hsum]. unfold unvisited_weight, rev. clear. induction K as [|k K IH]; simpl; [done|].
    destruct (decide (k ∈ (∅ : gset NodeID))); lia. }
  exists V. split; [done|].
  assert (Hadj : forall a b, radj rev a b <-> depends g b a)
    by (intros; unfold radj, rev; by apply elem_of_rev_deps).
  intros x. split.
  - intros Hx. destruct (H3 x Hx) as [Hx'|(q & Hq & Hr)]; [set_solver|].
    apply Hadj in Hq. clear -Hq Hr Hadj. induction Hr as [q|q y x Hqy Hyx IH]; [by apply tc_once|].
    assert (Hyid : tc (depends g) y id) by (eapply tc_l; [by apply Hadj|by apply tc_once]).
    clear IH Hqy Hq. induction Hyx as [y|y z x Hyz _ IH]; [done|]. apply IH.
    eapply tc_l; [by apply Hadj|done].
  - intros Hx. assert (Hclosed : forall v x, v ∈ V -> radj rev v x -> x ∈ V)
      by (apply H4; set_solver).
    remember id as z eqn:Hz in Hx. induction Hx as [x y Hxy|x y z Hxy _ IH]; subst.
    + apply H2. by apply elem_of_rev_deps.
    + eapply Hclosed; [by apply IH|by apply Hadj].
Qed.

(** ** Lemmas: the derived fields *)

Lemma foldl_insert_lookup {A} (f : NodeID -> option A) (l : list NodeID) (m : gmap NodeID A) id :
  fold_left (fun m k => match f k with Some v => <[k := v]> m | None => m end) l m !! id =
  (if decide (id ∈ l) then match f id with Some v => Some v | None => m !! id end else m !! id).
Proof.
  revert m. induction l as [|k l IH]; intros m; simpl; [done|].
  rewrite IH. destruct (decide (id = k)) as [->|Hk].
  - rewrite (decide_True (P := k ∈ k :: l)) by set_solver.
    destruct (f k) eqn:Ef; destruct (decide (k ∈ l)); by rewrite ?lookup_insert_eq.
  - assert (Hl : match f k with Some v => <[k := v]> m | None => m end !! id = m !! id)
      by (destruct (f k); [by rewrite lookup_insert_ne|done]).
    rewrite Hl. destruct (decide (id ∈ l)); [rewrite decide_True|rewrite decide_False]; set_solver.
Qed.

Lemma computeDepCounts_spec order g id :
  well_keyed g -> is_order (order 0) g -> is_order (order 1) g -> is_Some (Nodes g !! id) ->
  exists V : gset NodeID, (forall x, x ∈ V <-> tc (depends g) x id) /\
    TransitiveDepCount id (computeDepCounts order g) = size V.
Proof.
  intros Hk Ho0 Ho1 Hid. destruct (bfs_dependents (order 0) g id Hk Ho0) as (V & HV & Hx).
  exists V. split; [done|]. unfold TransitiveDepCount, computeDepCounts; simpl.
  pose proof (foldl_insert_lookup (fun id => size <$>
    bfs (bfs_fuel g) (reverse_map (order 0) g) ∅ (rev_deps (reverse_map (order 0) g) id))
    (order 1) ∅ id) as Hl.
  rewrite (decide_True _ _ (proj2 (elem_of_order _ g id Ho1) Hid)), HV in Hl. simpl in Hl.
  match goal with |- default 0 (fold_left ?f _ _ !! _) = _ => rewrite (fold_left_pointwise f
    (fun m k => match size <$> bfs (bfs_fuel g) (reverse_map (order 0) g) ∅
       (rev_deps (reverse_map (order 0) g) k) with Some v => <[k := v]> m | None => m end)) end.
  - by rewrite Hl.
  - intros m k. cbv beta. by case_match.
Qed.

Lemma buildEdges_Nodes o g : Nodes (buildEdges o g) = Nodes g.
Proof.
  unfold buildEdges.
  match goal with |- Nodes (fold_left ?f _ _) = _ =>
    assert (H : forall ns h, Nodes (fold_left f ns h) = Nodes h) end.
  { induction ns as [|n ns IH]; intros h; simpl; [done|]. rewrite IH. by destruct (FailBranch n). }
  by rewrite H.
Qed.

(** The fail branch the node [k] declares. *)
Definition fail_target (g : Graph) (k : NodeID) : option NodeID :=
  match Nodes g !! k with Some n => FailBranch n | None => None end.

Lemma buildEdges_failEdges o g k :
  well_keyed g -> is_order o g ->
  failEdges (buildEdges o g) !! k = fail_target g k.
Proof.
  intros Hk Ho. unfold buildEdges.
  assert (H : forall ns h,
    failEdges (fold_left (fun g node =>
      let g := g <| edges ::= fun es => es ++ map (fun dep => mkEdge dep (ID node)) (DependsOn node) |> in
      match FailBranch node with
      | Some target => g <| failEdges ::= <[ID node := target]> |>
      | None => g
      end) ns h) =
    fold_left (fun (m : gmap NodeID NodeID) n =>
      match FailBranch n with Some t => <[ID n := t]> m | None => m end) ns (failEdges h)).
  { induction ns as [|n ns IH]; intros h; simpl; [done|]. rewrite IH. by destruct (FailBranch n). }
  rewrite H. simpl. clear H. change (nodes_in o _) with (nodes_in o g).
  assert (H : forall l m, (forall j, j ∈ l -> is_Some (Nodes g !! j)) ->
    fold_left (fun (m : gmap NodeID NodeID) n =>
      match FailBranch n with Some t => <[ID n := t]> m | None => m end) (nodes_in l g) m =
    fold_left (fun (m : gmap NodeID NodeID) j =>
      match fail_target g j with Some t => <[j := t]> m | None => m end) l m).
  { induction l as [|j l IH]; intros m Hl; simpl; [done|].
    destruct (Hl j ltac:(set_solver)) as [n Hn]. unfold fail_target at 2. rewrite Hn. simpl.
    rewrite (Hk j n Hn). apply IH. set_solver. }
  rewrite H by (intros j; by rewrite (elem_of_order o g)).
  rewrite (foldl_insert_lookup (fun j => fail_target g j)), lookup_empty.
  destruct (decide (k ∈ o)) as [|Hn].
  - by destruct (fail_target g k).
  - rewrite (elem_of_order o g), <- eq_None_not_Some in Hn by done. unfold fail_target. by rewrite Hn.
Qed.

(** ** Properties *)

(** A graph [Validate] is to accept, with no reference to how it is checked. *)
Record graph_ok (g : Graph) : Prop := {
  gok_nonempty : Nodes g <> ∅;
  gok_refs : closed_refs g;
  gok_nodes : forall k n, Nodes g !! k = Some n -> fail_branch_ok g n /\ node_config_ok n;
  gok_acyclic : acyclic g
}.

(** C11: Cycle detection is exact: the search ends, it accepts a graph exactly
    when no node depends on itself through any number of steps, and the node
    it names in the error does. *)
Theorem detect_cycles_correct (g : Graph) :
  closed_refs g ->
  exists r, detectCycles g = Some r /\
    (r = Ok tt <-> acyclic g) /\
    (forall e, r = Err e -> exists d, e = ECycle d /\ tc (depends g) d d).
Proof.
  intros Hr. destruct (detectCycles_spec g Hr) as [[-> Ha]|(d & -> & Hd)].
  - eexists; split_and!; [done|done|done].
  - eexists; split_and!; [done| |].
    + split; [done|]. intros Ha. by destruct (Ha d).
    + intros e He. simplify_eq. eauto.
Qed.

Definition two_nodes (deps_a deps_b : list NodeID) : Graph :=
  mkGraph {[ "a" := simple_node "a" "A" "implement" "p" <| DependsOn := deps_a |>;
             "b" := simple_node "b" "B" "implement" "p" <| DependsOn := deps_b |> ]} [] ∅ ∅.

Lemma two_nodes_refs da db :
  Forall (fun d => d = "a" \/ d = "b") (da ++ db) -> closed_refs (two_nodes da db).
Proof.
  intros HF x y (n & Hn & Hy). cbn [Nodes two_nodes] in Hn. rewrite Forall_forall in HF.
  assert (Hy' : y = "a" \/ y = "b").
  { apply HF. rewrite elem_of_app. apply lookup_insert_Some in Hn as [[<- <-]|[_ Hn]]; [by left|].
    apply lookup_singleton_Some in Hn as [<- <-]. by right. }
  destruct Hy' as [-> | ->]; by eexists.
Qed.

Lemma detect_cycles_correct_witness :
  detectCycles (two_nodes ["b"] ["a"]) = Some (Err (ECycle "a")) /\
  exists r, detectCycles (two_nodes ["b"] []) = Some r /\ (r = Ok tt <-> acyclic (two_nodes ["b"] [])).
Proof.
  split; [by_eval|].
  destruct (detect_cycles_correct (two_nodes ["b"] [])) as (r & Hr & Hiff & _).
  - apply two_nodes_refs. constructor; [by right|constructor].
  - by exists r.
Defined.

(** Whatever order the ranges take, validation ends and its verdict is exact. *)
Lemma Validate_result (g : Graph) (order : nat -> list NodeID) :
  well_keyed g -> (forall i, is_order (order i) g) ->
  exists r, Validate order g = Some r /\ (is_ok r = true <-> graph_ok g).
Proof.
  intros Hk Ho. unfold Validate.
  assert (Hall : forall (check : Node -> option GraphError) i,
    first_error check (nodes_in (order i) g) = None <->
    forall k n, Nodes g !! k = Some n -> check n = None).
  { intros check i. rewrite first_error_None. split.
    - intros H k n Hn. apply H. rewrite elem_of_nodes_in by done. by rewrite (Hk k n Hn).
    - intros H n Hn. apply (H (ID n)). by rewrite elem_of_nodes_in in Hn by done. }
  destruct (decide (size (Nodes g) = 0)) as [Hs|Hs].
  { eexists; split; [done|]. split; [done|]. intros []. by apply map_size_empty_iff in Hs. }
  repeat match goal with
  | |- context [first_error ?c (nodes_in (order ?i) g)] =>
      let E := fresh "E" in destruct (first_error c (nodes_in (order i) g)) eqn:E;
      [eexists; split; [reflexivity|]; split; [done|]; intros Hg; exfalso;
       pose proof (proj2 (Hall c i)) as Hf; rewrite E in Hf; discriminate Hf;
       intros k n Hn; destruct (gok_nodes _ Hg k n Hn) as [? (? & ? & ? & ?)];
       first [apply check_deps_None; intros d Hd; apply (gok_refs _ Hg k); by exists n
             |by apply check_fail_branch_None|by apply check_sub_task_None
             |by apply check_iteration_None|by apply check_strategy_None]|]
  end.
  rewrite Hall in E, E0, E1, E2, E3.
  assert (Hr : closed_refs g).
  { intros a b (n & Hn & Hb). apply (proj1 (check_deps_None g n) (E a n Hn) b Hb). }
  destruct (detectCycles_spec g Hr) as [[-> Ha]|(d & -> & Hd)]; eexists; (split; [done|]).
  - split; [|done]. intros _. split; [|done| |done].
    + intros Hn. by rewrite Hn, map_size_empty in Hs.
    + intros k n Hn. split; [by apply check_fail_branch_None, (E0 k)|].
      split; [by apply check_sub_task_None, (E1 k)|].
      destruct (proj1 (check_iteration_None n) (E2 k n Hn)). split_and!; [done|done|].
      by apply check_strategy_None, (E3 k).
  - split; [done|]. intros Hg. by destruct (gok_acyclic _ Hg d).
Qed.

(** C10: Validation is exact and independent of map order: it has one verdict,
    which [Validate] reaches whatever order the ranges over the node map take,
    and it accepts exactly the graphs that have a node, only known
    dependencies, well-placed fail branches, consistent node settings and no
    cycle. *)
Theorem validate_iff (g : Graph) :
  well_keyed g ->
  exists accepted, (accepted = true <-> graph_ok g) /\
    forall order, (forall i, is_order (order i) g) -> is_ok <$> Validate order g = Some accepted.
Proof.
  intros Hk. destruct (Validate_result g (fun _ => (map_to_list (Nodes g)).*1) Hk) as (r & _ & Hr).
  { intros _. by unfold is_order. }
  exists (is_ok r). split; [exact Hr|]. intros order Ho.
  destruct (Validate_result g order Hk Ho) as (r' & -> & Hr'). simpl. f_equal.
  apply eq_true_iff_eq. by rewrite Hr, Hr'.
Qed.

Lemma two_nodes_keyed da db : well_keyed (two_nodes da db).
Proof.
  intros k n Hn. cbn [Nodes two_nodes] in Hn.
  apply lookup_insert_Some in Hn as [[<- <-]|[_ Hn]]; [done|].
  by apply lookup_singleton_Some in Hn as [<- <-].
Qed.

Lemma two_nodes_order da db : is_order ["b"; "a"] (two_nodes da db).
Proof.
  unfold is_order, two_nodes. cbn [Nodes].
  rewrite map_to_list_insert by (by apply lookup_singleton_ne).
  rewrite map_to_list_singleton. apply perm_swap.
Qed.

Lemma validate_iff_witness :
  let g := two_nodes ["b"] [] in
  is_ok <$> Validate (fun _ => ["b"; "a"]) g = Some true /\ graph_ok g.
Proof.
  intros g. assert (He : is_ok <$> Validate (fun _ => ["b"; "a"]) g = Some true) by by_eval.
  destruct (validate_iff g) as (accepted & Hacc & Hv); [apply two_nodes_keyed|].
  split; [exact He|]. apply Hacc. rewrite Hv in He; [|intros _; apply two_nodes_order].
  by injection He.
Defined.

Lemma Validate_Ok order g g' :
  Validate order g = Some (Ok g') ->
  g' = computeDepCounts (fun i => order (6 + i)) (buildEdges (order 5) g).
Proof.
  unfold Validate. destruct (decide _); [done|].
  repeat (destruct (first_error _ _); [done|]).
  destruct (detectCycles g) as [[[]|]|]; intros; by simplify_eq.
Qed.

Lemma Validate_Nodes order g g' : Validate order g = Some (Ok g') -> Nodes g' = Nodes g.
Proof. intros HV. apply Validate_Ok in HV. subst g'. apply (buildEdges_Nodes (order 5) g). Qed.

Lemma depends_Nodes g h a b : Nodes h = Nodes g -> depends h a b <-> depends g a b.
Proof. unfold depends. by intros ->. Qed.

Lemma tc_depends_Nodes g h a b : Nodes h = Nodes g -> tc (depends h) a b <-> tc (depends g) a b.
Proof.
  intros Hn. split; induction 1 as [x y Hxy|x y z Hxy _ IH];
    rewrite ?(depends_Nodes g h) in Hxy by done; try (by apply tc_once);
    try (by eapply tc_l); rewrite <- ?(depends_Nodes g h) in Hxy by done;
    [by apply tc_once|by eapply tc_l].
Qed.

(** The graph a validation accepts, with its counts. *)
Lemma Validate_counts g g' order :
  well_keyed g -> (forall i, is_order (order i) g) ->
  closed_refs g -> acyclic g -> Validate order g = Some (Ok g') ->
  Nodes g' = Nodes g /\
  (forall k, is_Some (Nodes g !! k) -> exists V : gset NodeID,
     (forall x, x ∈ V <-> tc (depends g) x k) /\ TransitiveDepCount k g' = size V) /\
  (forall a b, depends g a b -> TransitiveDepCount a g' < TransitiveDepCount b g').
Proof.
  intros Hk Ho Hrefs Hac HV. apply Validate_Ok in HV. subst g'.
  set (h := buildEdges (order 5) g).
  assert (Hn : Nodes h = Nodes g) by apply buildEdges_Nodes.
  assert (Hcount : forall k, is_Some (Nodes g !! k) -> exists V : gset NodeID,
    (forall x, x ∈ V <-> tc (depends g) x k) /\
    TransitiveDepCount k (computeDepCounts (fun i => order (6 + i)) h) = size V).
  { intros k Hs. destruct (computeDepCounts_spec (fun i => order (6 + i)) h k) as (V & HV & Hc).
    - unfold well_keyed. by rewrite Hn.
    - unfold is_order. rewrite Hn. apply Ho.
    - unfold is_order. rewrite Hn. apply Ho.
    - by rewrite Hn.
    - exists V. split; [|done]. intros x. by rewrite HV, (tc_depends_Nodes g h). }
  split; [done|]. split; [exact Hcount|].
  intros a b Hab. pose proof Hab as (n & Ha & _).
  destruct (Hcount a) as (Va & HVa & ->); [by eexists|].
  destruct (Hcount b (Hrefs a b Hab)) as (Vb & HVb & ->).
  apply subset_size. split.
  - intros x Hx. apply HVb. apply HVa in Hx. by eapply tc_r.
  - intros Hsub. assert (Hin : a ∈ Vb) by (apply HVb; by apply tc_once).
    by apply (Hac a), HVa, Hsub.
Qed.

(** What [Validate] derives does not depend on map order and is right: the
    nodes are untouched, the fail-branch table holds the declared branches,
    the count of a node is the number of nodes that transitively depend on it,
    and so a node always counts more than every node waiting for it. *)
Theorem validate_derives (g g' : Graph) (order : nat -> list NodeID) :
  well_keyed g -> (forall i, is_order (order i) g) ->
  Validate order g = Some (Ok g') ->
  Nodes g' = Nodes g /\
  (forall k, FailBranchTarget k g' = fail_target g k) /\
  (forall k, is_Some (Nodes g !! k) -> exists V : gset NodeID,
     (forall x, x ∈ V <-> tc (depends g) x k) /\ TransitiveDepCount k g' = size V) /\
  (forall a b, depends g a b -> TransitiveDepCount a g' < TransitiveDepCount b g').
Proof.
  intros Hk Ho HV.
  assert (Hg : graph_ok g).
  { destruct (Validate_result g order Hk Ho) as (r & Hr & Hok). rewrite HV in Hr. simplify_eq.
    by apply Hok. }
  destruct (Validate_counts g g' order Hk Ho (gok_refs _ Hg) (gok_acyclic _ Hg) HV) as (Hn & Hc & Hlt).
  split_and!; [done| |done|done].
  intros k. apply Validate_Ok in HV. subst g'. by apply buildEdges_failEdges.
Qed.

Lemma validate_derives_witness :
  exists g', Validate (fun _ => ["b"; "a"]) (two_nodes ["b"] []) = Some (Ok g') /\
    TransitiveDepCount "a" g' < TransitiveDepCount "b" g'.
Proof.
  destruct (Validate (fun _ => ["b"; "a"]) (two_nodes ["b"] [])) as [[g'|e]|] eqn:E;
    [|by vm_compute in E|by vm_compute in E].
  exists g'. split; [done|].
  destruct (validate_derives (two_nodes ["b"] []) g' (fun _ => ["b"; "a"])) as (_ & _ & _ & Hlt);
    [apply two_nodes_keyed|intros _; apply two_nodes_order|exact E|].
  apply Hlt. eexists. split; [reflexivity|]. by left.
Defined.
