(* ===== verification/GraphDef.v ===== *)
(** * Graph definitions

    Translates [internal/graph/parse.go]: from the parsed YAML records to a
    validated graph, and the expansion of [{{var}}] placeholders.  The YAML
    decoder and the file read are not modelled. *)

From S2P Require Import Prelude Graph.

(** ** Data *)

Record NodeDef := mkNodeDef {
  nd_ID : string;
  nd_Label : string;
  nd_JobType : string;
  nd_Prompt : string;
  nd_DependsOn : list string;
  nd_Frozen : bool;
  nd_FailBranch : string;
  nd_MaxIterations : Z;
  nd_ErrorStrategy : string;
  nd_DefaultOutput : string;
  nd_MaxRetries : Z;
  nd_RetryDelay : Duration;
  nd_RequiresApproval : bool;
  nd_ApprovalPrompt : string;
  nd_ApprovalTimeout : Duration;
  nd_SubTask : option SubTaskConfig
}.

#[export] Instance eta_NodeDef : Eta NodeDef := fun n =>
  mkNodeDef (nd_ID n) (nd_Label n) (nd_JobType n) (nd_Prompt n) (nd_DependsOn n) (nd_Frozen n)
    (nd_FailBranch n) (nd_MaxIterations n) (nd_ErrorStrategy n) (nd_DefaultOutput n)
    (nd_MaxRetries n) (nd_RetryDelay n) (nd_RequiresApproval n) (nd_ApprovalPrompt n)
    (nd_ApprovalTimeout n) (nd_SubTask n).

Record GraphDef := mkGraphDef { gd_Phase : string; gd_Nodes : list NodeDef }.

Inductive DefError :=
| DNoNodes
| DNoID (i : nat)
| DAddNode (id : string) (e : GraphError)
| DValidate (e : GraphError).

(** ** Strings *)

Definition ascii_lower (c : Ascii.ascii) : Ascii.ascii :=
  let n := Ascii.nat_of_ascii c in
  if (65 <=? n) && (n <=? 90) then Ascii.ascii_of_nat (n + 32) else c.

(** [strings.ToLower] as a comparison with an ASCII word sees it: the ASCII
    letters, and U+0130 (bytes C4 B0), which Go lowers to [i]; other letters
    never lower to one of the words' letters and are kept. *)
Fixpoint to_lower (s : string) : string :=
  match s with
  | "" => ""
  | String c rest =>
      match rest with
      | String d rest' =>
          if decide (Ascii.nat_of_ascii c = 196 /\ Ascii.nat_of_ascii d = 176)
          then String (Ascii.ascii_of_nat 105) (to_lower rest')
          else String (ascii_lower c) (to_lower rest)
      | "" => String (ascii_lower c) ""
      end
  end.

(** [strings.ReplaceAll] for a non-empty [old]: [skip] counts the bytes of the
    match that are still to be passed over. *)
Fixpoint replace_from (skip : nat) (old new s : string) : string :=
  match s with
  | "" => ""
  | String c rest =>
      match skip with
      | S skip => replace_from skip old new rest
      | 0 => if String.prefix old s
             then new +:+ replace_from (String.length old - 1) old new rest
             else String c (replace_from 0 old new rest)
      end
  end.

Definition ReplaceAll (s old new : string) : string := replace_from 0 old new s.

(** ** Operations *)

Definition JobTypePlan : string := "plan".
Definition JobTypeImplement : string := "implement".
Definition JobTypeReview : string := "review".
Definition JobTypeSimplify : string := "simplify".
Definition JobTypeOptimize : string := "optimize".
Definition JobTypeDryRun : string := "dry_run".

Definition resolveJobType (s : string) : string :=
  go_switch (to_lower s)
    [(JobTypePlan, JobTypePlan); (JobTypeImplement, JobTypeImplement);
     (JobTypeReview, JobTypeReview); (JobTypeSimplify, JobTypeSimplify);
     (JobTypeOptimize, JobTypeOptimize); (JobTypeDryRun, JobTypeDryRun);
     ("dryrun", JobTypeDryRun)] s.

Definition resolveErrorStrategy (s : string) : ErrorStrategy :=
  go_switch (to_lower s)
    [("default_value", ErrorDefaultValue); ("retry_then_fail", ErrorRetryThenFail)] ErrorFail.

(** The node made from its definition. *)
Definition node_of_def (nd : NodeDef) : Node :=
  {| ID := nd_ID nd;
     Label := if decide (nd_Label nd = "") then nd_ID nd else nd_Label nd;
     JobType := resolveJobType (nd_JobType nd);
     Prompt := nd_Prompt nd;
     DependsOn := nd_DependsOn nd;
     Condition := None;
     Frozen := nd_Frozen nd;
     FailBranch := if decide (nd_FailBranch nd = "") then None else Some (nd_FailBranch nd);
     MaxIterations := nd_MaxIterations nd;
     IterationCheckFn := if (0 <? nd_MaxIterations nd)%Z then Some (fun _ => true) else None;
     Strategy := resolveErrorStrategy (nd_ErrorStrategy nd);
     DefaultOutput := nd_DefaultOutput nd;
     MaxRetries := nd_MaxRetries nd;
     RetryDelay := nd_RetryDelay nd;
     RequiresApproval := nd_RequiresApproval nd;
     ApprovalPrompt := nd_ApprovalPrompt nd;
     ApprovalTimeout := nd_ApprovalTimeout nd;
     SubTask := nd_SubTask nd |}.

(** The loop over the definitions, [i] the index of the next one. *)
Fixpoint add_defs (i : nat) (nds : list NodeDef) (g : Graph) : result DefError Graph :=
  match nds with
  | [] => Ok g
  | nd :: nds =>
      if decide (nd_ID nd = "") then Err (DNoID i) else
      match AddNode (node_of_def nd) g with
      | Err e => Err (DAddNode (nd_ID nd) e)
      | Ok g => add_defs (S i) nds g
      end
  end.

Definition BuildFromDef (order : nat -> list NodeID) (def : GraphDef)
  : option (result DefError Graph) :=
  match gd_Nodes def with
  | [] => Some (Err DNoNodes)
  | _ =>
      match add_defs 0 (gd_Nodes def) New with
      | Err e => Some (Err e)
      | Ok g =>
          match Validate order g with
          | None => None
          | Some (Err e) => Some (Err (DValidate e))
          | Some (Ok g) => Some (Ok g)
          end
      end
  end.

(** The loop over the variables, in the order the map's range takes. *)
Definition expandVars (s : string) (vars : list (string * string)) : string :=
  fold_left (fun s (kv : string * string) => ReplaceAll s ("{{" +:+ kv.1 +:+ "}}") kv.2) vars s.

Definition ExpandPromptVars (vars : list (string * string)) (g : Graph) : Graph :=
  g <| Nodes ::= fmap (fun n => n <| Prompt ::= fun p => expandVars p vars |>) |>.

(** ** Lemmas *)

(** The nodes of the definitions, without any check. *)
Definition defs_map (nds : list NodeDef) : gmap NodeID Node :=
  list_to_map (map (fun nd => (nd_ID nd, node_of_def nd)) nds).

Lemma New_keyed : well_keyed New.
Proof. intros k n Hn. cbn [Nodes New] in Hn. by rewrite lookup_empty in Hn. Qed.

Lemma AddNode_keyed n g g' : well_keyed g -> AddNode n g = Ok g' -> well_keyed g'.
Proof.
  unfold AddNode. intros Hk. destruct (Nodes g !! ID n); [done|]. intros ?; simplify_eq.
  intros k m; simpl. intros [[<- <-]|[_ ?]]%lookup_insert_Some; [done|by apply Hk].
Qed.

Lemma add_defs_keyed i nds g g' : well_keyed g -> add_defs i nds g = Ok g' -> well_keyed g'.
Proof.
  revert i g. induction nds as [|nd nds IH]; intros i g Hk; simpl; [by intros; simplify_eq|].
  destruct (decide (nd_ID nd = "")); [done|].
  destruct (AddNode _ g) as [g1|] eqn:E; [|done]. apply IH. by eapply AddNode_keyed.
Qed.

Lemma add_defs_ok_iff i nds g :
  (exists g', add_defs i nds g = Ok g') <->
  Forall (fun nd => nd_ID nd <> "") nds /\ NoDup (map nd_ID nds) /\
  Forall (fun nd => Nodes g !! (nd_ID nd : NodeID) = None) nds.
Proof.
  revert i g. induction nds as [|nd nds IH]; intros i g; simpl.
  { split; [by repeat split; constructor|by eexists]. }
  rewrite !Forall_cons, NoDup_cons.
  destruct (decide (nd_ID nd = "")) as [He|]; [split; [by intros []|by intros ((Hne & _) & _)]|].
  unfold AddNode. simpl. destruct (Nodes g !! (nd_ID nd : NodeID)) eqn:E;
    [split; [by intros []|by intros (_ & _ & Hn & _)]|].
  rewrite IH. simpl. split.
  - intros (Hne & Hnd & Hf). split_and!; [done|done| |done|done|].
    + intros (nd' & Heq & Hin)%list_elem_of_fmap. rewrite Forall_forall in Hf.
      specialize (Hf nd' Hin). by apply lookup_insert_None in Hf as [_ []].
    + eapply Forall_impl; [exact Hf|]. simpl. intros nd' Hl.
      by apply lookup_insert_None in Hl as [? _].
  - intros ((_ & Hne) & (Hni & Hnd) & (_ & Hf)). split_and!; [done|done|].
    rewrite Forall_forall in *. intros nd' Hin. rewrite lookup_insert_ne; [by apply Hf|].
    intros Heq. apply Hni. rewrite Heq. by apply list_elem_of_fmap_2.
Qed.

Lemma defs_map_None nds id : id ∉ map nd_ID nds -> defs_map nds !! id = None.
Proof.
  intros Hid. apply not_elem_of_list_to_map_1. rewrite <- list_fmap_compose. exact Hid.
Qed.

Lemma add_defs_nodes i nds g g' :
  add_defs i nds g = Ok g' -> Nodes g' = defs_map nds ∪ Nodes g /\
  edges g' = edges g /\ failEdges g' = failEdges g /\ depCounts g' = depCounts g.
Proof.
  revert i g. induction nds as [|nd nds IH]; intros i g.
  { simpl. intros; simplify_eq. unfold defs_map. simpl. by rewrite (left_id_L ∅ (∪)). }
  intros Hadd. assert (Hex : exists g', add_defs i (nd :: nds) g = Ok g') by eauto.
  apply add_defs_ok_iff in Hex as (_ & Hnd & _). simpl in Hnd. apply NoDup_cons in Hnd as [Hni _].
  simpl in Hadd. destruct (decide (nd_ID nd = "")); [done|]. unfold AddNode in Hadd. simpl in Hadd.
  destruct (Nodes g !! (nd_ID nd : NodeID)) eqn:E; [done|].
  apply IH in Hadd as (HN & ? & ? & ?). split_and!; [|done..].
  rewrite HN. simpl. change (defs_map (nd :: nds)) with (<[nd_ID nd := node_of_def nd]> (defs_map nds)).
  rewrite <- insert_union_l, insert_union_r; [done|]. by apply defs_map_None.
Qed.

(** ** Properties *)

(** Building from a definition accepts exactly the definitions whose node
    IDs are present and distinct and whose nodes make a valid graph; the graph
    has exactly the nodes of the definitions. *)
Theorem build_from_def_iff (def : GraphDef) (order : nat -> list NodeID) :
  let g0 := New <| Nodes := defs_map (gd_Nodes def) |> in
  (forall i, is_order (order i) g0) ->
  exists r, BuildFromDef order def = Some r /\
    (is_ok r = true <->
       Forall (fun nd => nd_ID nd <> "") (gd_Nodes def) /\ NoDup (map nd_ID (gd_Nodes def)) /\
       graph_ok g0) /\
    (forall g, r = Ok g -> Nodes g = defs_map (gd_Nodes def)).
Proof.
  intros g0 Ho. unfold BuildFromDef. destruct (gd_Nodes def) as [|nd nds] eqn:Ed.
  { eexists; split_and!; [done| |done]. split; [done|]. intros (_ & _ & Hg).
    by destruct (gok_nonempty _ Hg). }
  pose proof (add_defs_ok_iff 0 (nd :: nds) New) as Hiff.
  assert (Hempty : Forall (fun nd => Nodes New !! (nd_ID nd : NodeID) = None) (nd :: nds))
    by (apply Forall_forall; intros; apply lookup_empty).
  destruct (add_defs 0 (nd :: nds) New) as [g1|e] eqn:Ea.
  - destruct (add_defs_nodes _ _ _ _ Ea) as (HN & He & Hf & Hd).
    cbn [Nodes New] in HN. rewrite (right_id_L ∅ (∪)) in HN.
    assert (g1 = g0) as -> by (destruct g1; unfold g0; simpl in *; subst; rewrite ?Ed; done).
    assert (Hk : well_keyed g0) by (eapply add_defs_keyed; [|exact Ea]; apply New_keyed).
    destruct (Validate_result g0 order Hk Ho) as (r & Hr & Hok).
    rewrite Hr. destruct r as [g|e].
    + eexists; split_and!; [done| |].
      * destruct (proj1 Hiff ltac:(by eexists)) as (? & ? & _). simpl in *. tauto.
      * intros g' ?; simplify_eq. rewrite (Validate_Nodes _ _ _ Hr).
        unfold g0. simpl. by rewrite ?Ed.
    + eexists; split_and!; [done| |done]. split; [done|].
      intros (_ & _ & Hg). by apply Hok in Hg.
  - eexists; split_and!; [done| |done]. split; [done|].
    intros (H1 & H2 & _). destruct (proj2 Hiff) as [? ?]; [|done]. by split_and!.
Qed.

Definition sample_def (id : string) (deps : list string) : NodeDef :=
  mkNodeDef id "" "Implement" "p" deps false "" 0%Z "" "" 0%Z 0%Z false "" 0%Z None.

Lemma build_from_def_iff_witness :
  let def := mkGraphDef "implement" [sample_def "a" []; sample_def "b" ["a"]] in
  exists r, BuildFromDef (fun _ => ["b"; "a"]) def = Some r /\ is_ok r = true /\
    (forall g, r = Ok g -> Nodes g = defs_map (gd_Nodes def)).
Proof.
  intros def. destruct (build_from_def_iff def (fun _ => ["b"; "a"])) as (r & Hr & _ & Hn).
  - intros _. unfold is_order. etrans; [apply perm_swap|].
    change (map_to_list _) with (map_to_list (<["a" := node_of_def (sample_def "a" [])]>
      {["b" := node_of_def (sample_def "b" ["a"])]} : gmap NodeID Node)).
    rewrite map_to_list_insert by (by apply lookup_singleton_ne).
    by rewrite map_to_list_singleton.
  - exists r. split; [exact Hr|]. split; [|exact Hn].
    assert (He : (is_ok <$> BuildFromDef (fun _ => ["b"; "a"]) def) = Some true) by by_eval.
    rewrite Hr in He. by injection He.
Defined.

Lemma replace_from_none old new s :
  (forall pre post, s = pre +:+ post -> String.prefix old post = false) ->
  replace_from 0 old new s = s.
Proof.
  induction s as [|c s IH]; intros Hs; [done|]. cbn [replace_from].
  rewrite (Hs "" (String c s) eq_refl). f_equal. apply IH.
  intros pre post ->. by apply (Hs (String c pre) post).
Qed.

(** Unknown variables are left as they are: a prompt in which none of the
    placeholders occurs is expanded to itself, whatever the order of the
    variables. *)
Theorem expand_vars_unknown (s : string) (vars : list (string * string)) :
  (forall k v pre post, (k, v) ∈ vars -> s = pre +:+ post ->
     String.prefix ("{{" +:+ k +:+ "}}") post = false) ->
  expandVars s vars = s.
Proof.
  unfold expandVars, ReplaceAll. induction vars as [|[k v] vars IH]; intros Hs; [done|].
  cbn [fold_left fst snd]. rewrite replace_from_none.
  - apply IH. intros k' v' pre post Hin. apply (Hs k' v'). by right.
  - intros pre post. apply (Hs k v). by left.
Qed.

Lemma expand_vars_unknown_witness :
  expandVars "x" [("a", "1")] = "x".
Proof.
  apply (expand_vars_unknown "x" [("a", "1")]).
  intros k v pre post Hin Hs. apply list_elem_of_singleton in Hin. injection Hin as -> ->.
  destruct pre as [|c [|c' pre]]; vm_compute in Hs; [by subst post| |by inversion Hs].
  injection Hs as _ Hs. by subst post.
Defined.

(** The expansion of a prompt depends on the order the variable map is
    ranged over when a value contains a placeholder, so two runs of the same
    graph can get different prompts. *)
Theorem expand_vars_order_dependent :
  let a := ("a", "{{b}}") in let b := ("b", "x") in
  expandVars "{{a}}" [a; b] = "x" /\ expandVars "{{a}}" [b; a] = "{{b}}".
Proof. split; by_eval. Qed.
