(* ===== verification/Names.v ===== *)
(** * Names: sources, slugs, branches and commit prefixes

    Translates [Parse] of [internal/provider/provider.go] and the naming helpers
    of [internal/conductor/conductor_job_helpers.go].  Regular expressions and
    the parser of URLs are parameters. *)

From S2P Require Import Prelude Floats WorkUnit.
From S2P Require GraphDef.

(** [regexp.Compile] and [MatchString], and [url.Parse] with the host and the
    path of its result. *)
Class TextLibs := {
  regexp_match : string -> string -> result string bool;
  url_parse : string -> result string (string * string)
}.

(** ** Strings *)

Definition dash : Ascii.ascii := Eval cbv in Ascii.ascii_of_nat 45.
Definition slash : Ascii.ascii := Eval cbv in Ascii.ascii_of_nat 47.

(** [strings.ToLower] as the loop of [slugify] sees it, which drops every byte
    outside ASCII: the ASCII letters, and the two other characters Go lowers to
    one of them, U+0130 (bytes C4 B0) and U+212A (E2 84 AA). *)
Fixpoint slug_lower (s : string) : string :=
  match s with
  | "" => ""
  | String a rest =>
      let keep := String (GraphDef.ascii_lower a) (slug_lower rest) in
      match rest with
      | String b rest2 =>
          if decide (Ascii.nat_of_ascii a = 196 /\ Ascii.nat_of_ascii b = 176)
          then String (Ascii.ascii_of_nat 105) (slug_lower rest2) else
          match rest2 with
          | String c rest3 =>
              if decide (Ascii.nat_of_ascii a = 226 /\ Ascii.nat_of_ascii b = 132 /\ Ascii.nat_of_ascii c = 170)
              then String (Ascii.ascii_of_nat 107) (slug_lower rest3) else keep
          | "" => keep
          end
      | "" => keep
      end
  end.

Fixpoint filter_chars (p : Ascii.ascii -> bool) (s : string) : string :=
  match s with
  | "" => ""
  | String c s => if p c then String c (filter_chars p s) else filter_chars p s
  end.

(** [strings.TrimLeft] and [strings.TrimRight] with one character. *)
Fixpoint trim_left (d : Ascii.ascii) (s : string) : string :=
  match s with
  | "" => ""
  | String c rest => if decide (c = d) then trim_left d rest else s
  end.

Fixpoint trim_right (d : Ascii.ascii) (s : string) : string :=
  match s with
  | "" => ""
  | String c rest =>
      match trim_right d rest with
      | "" => if decide (c = d) then "" else String c ""
      | t => String c t
      end
  end.

Definition trim (d : Ascii.ascii) (s : string) : string := trim_right d (trim_left d s).

(** [strings.CutPrefix] *)
Fixpoint CutPrefix (s p : string) : option string :=
  match p, s with
  | "", _ => Some s
  | String a p, String b s => if decide (a = b) then CutPrefix s p else None
  | _, "" => None
  end.

(** [strings.Split] with one character; [cur] is the part being read. *)
Fixpoint split_from (d : Ascii.ascii) (cur s : string) : list string :=
  match s with
  | "" => [cur]
  | String c rest => if decide (c = d) then cur :: split_from d "" rest else split_from d (cur +:+ String c "") rest
  end.

Definition Split (d : Ascii.ascii) (s : string) : list string := split_from d "" s.

(** ** Slugs *)

Definition slug_char (c : Ascii.ascii) : bool :=
  let n := Ascii.nat_of_ascii c in
  (97 <=? n) && (n <=? 122) || (48 <=? n) && (n <=? 57) || bool_decide (c = dash).

(** The loop that collapses dashes; every round makes the string shorter. *)
Fixpoint collapse_rounds (fuel : nat) (s : string) : string :=
  match fuel with
  | 0 => s
  | S fuel => if contains "--" s then collapse_rounds fuel (GraphDef.ReplaceAll s "--" "-") else s
  end.

Definition collapse (s : string) : string := collapse_rounds (String.length s) s.

(** A slug is ASCII when its length is looked at, so its runes are its bytes. *)
Definition slugify (s : string) : string :=
  let s := slug_lower s in
  let s := GraphDef.ReplaceAll s " " "-" in
  let s := GraphDef.ReplaceAll s "_" "-" in
  let slug := trim dash (collapse (filter_chars slug_char s)) in
  if decide (50 < String.length slug) then trim_right dash (String.substring 0 50 slug) else slug.

(** ** Branches, commits and pull requests *)

Definition branch_key (wu : WorkUnit) : string :=
  if decide (wu_ExternalID wu = "") then wu_ID wu else wu_ExternalID wu.

Definition task_type (wu : WorkUnit) : string :=
  match wu_Source wu with Some src => Provider src | None => "local" end.

Definition generateBranchName (setting : string) (wu : WorkUnit) : string :=
  let pattern := if decide (setting = "") then "feature/{key}--{slug}" else setting in
  let key := branch_key wu in
  let r := pattern in
  let r := if decide (key = "")
           then GraphDef.ReplaceAll (GraphDef.ReplaceAll r "{key}--" "") "{key}-" "" else r in
  let r := GraphDef.ReplaceAll r "{key}" key in
  let r := GraphDef.ReplaceAll r "{slug}" (slugify (wu_Title wu)) in
  let r := GraphDef.ReplaceAll r "{type}" (task_type wu) in
  trim_right dash (collapse r).

Definition validateBranchName `{TextLibs} (name pattern : string) : option string :=
  if decide (pattern = "") then None else
  match regexp_match pattern name with
  | Err e => Some ("invalid branch validation pattern " +:+ quote pattern +:+ ": " +:+ e)
  | Ok true => None
  | Ok false => Some ("generated branch name " +:+ quote name +:+ " does not match required pattern " +:+ pattern)
  end.

Definition interpolatedCommitPrefix (setting : string) (wu : option WorkUnit) : string :=
  if decide (setting = "") then "[kvelmo]" else
  let key := from_option wu_ExternalID "" wu in
  if decide (key = "")
  then GraphDef.ReplaceAll (GraphDef.ReplaceAll setting "{key}" "") "[]" "[kvelmo]"
  else GraphDef.ReplaceAll setting "{key}" key.

Definition interpolatePRTitle (pattern : string) (wu : option WorkUnit) (title : string) : string :=
  if decide (pattern = "") then "[kvelmo] " +:+ title else
  let key := from_option wu_ExternalID "" wu in
  let r := pattern in
  let r := if decide (key = "")
           then GraphDef.ReplaceAll (GraphDef.ReplaceAll r "[{key}] " "") "{key} " "" else r in
  let r := GraphDef.ReplaceAll r "{key}" key in
  let r := GraphDef.ReplaceAll r "{title}" title in
  let r := GraphDef.ReplaceAll r "{type}" (from_option task_type "local" wu) in
  GraphDef.ReplaceAll r "{slug}" (from_option (fun w => slugify (wu_Title w)) "" wu).

Definition buildGitConventionInstructions (commitPrefix commitPattern : string) (wu : option WorkUnit) : string :=
  let prefix := interpolatedCommitPrefix commitPrefix wu in
  let lines :=
    (if decide (prefix <> "[kvelmo]" /\ prefix <> "")
     then ["- Prefix all commit messages with: " +:+ prefix] else []) ++
    (if decide (commitPattern = "") then []
     else ["- All commit messages must match this pattern: " +:+ commitPattern]) in
  if decide (lines = []) then "" else
  nl +:+ nl +:+ "## Git Conventions" +:+ nl +:+ nl +:+ join_with nl lines +:+ nl.

(** ** Sources *)

(** [getStatusFromLabels] *)
Fixpoint getStatusFromLabels (labels : list string) : string :=
  match labels with
  | [] => ""
  | label :: labels =>
      match CutPrefix label "status:" with Some after => after | None => getStatusFromLabels labels end
  end.

Definition NameGitHub : string := "github".
Definition NameGitLab : string := "gitlab".
Definition NameLinear : string := "linear".
Definition NameWrike : string := "wrike".
Definition NameJira : string := "jira".
Definition NameAzureDevOps : string := "azuredevops".
Definition NameFile : string := "file".
Definition NameEmpty : string := "empty".

(** What [NewRegistry] registers. *)
Definition registered : list string :=
  [NameFile; NameGitHub; NameGitLab; NameWrike; NameLinear; NameJira; NameAzureDevOps; NameEmpty].

Definition path_parts (path : string) : list string := Split slash (trim slash path).

Definition parse_github (path : string) : option (string * string) :=
  match path_parts path with
  | owner :: repo :: _ :: number :: _ => Some (NameGitHub, owner +:+ "/" +:+ repo +:+ "#" +:+ number)
  | _ => None
  end.

(** The loop over the parts; [i] is the index of the first of [rest]. *)
Fixpoint parse_gitlab (parts : list string) (i : nat) (rest : list string) : option (string * string) :=
  match rest with
  | [] => None
  | p :: rest =>
      if (bool_decide (p = "issues") || bool_decide (p = "merge_requests")) &&
         (2 <=? i) && (i + 1 <? length parts)
      then
        let owner := join_with "/" (take (i - 1) parts) in
        let sep := if decide (p = "issues") then "#" else "!" in
        Some (NameGitLab, owner +:+ sep +:+ nth (i + 1) parts "")
      else parse_gitlab parts (S i) rest
  end.

Definition parse_wrike (path : string) : option (string * string) :=
  pair NameWrike <$>
    List.find (fun p => has_prefix p "task-" || has_prefix p "IEAA") (Split slash path).

(** The part after the first part [word] that has one. *)
Fixpoint part_after (word : string) (parts : list string) : option string :=
  match parts with
  | p :: ((q :: _) as rest) => if decide (p = word) then Some q else part_after word rest
  | _ => None
  end.

(** The first part after an "issue" that has a dash. *)
Fixpoint parse_linear (parts : list string) : option (string * string) :=
  match parts with
  | p :: ((q :: _) as rest) =>
      if decide (p = "issue")
      then match Split dash q with
           | team :: number :: _ => Some (NameLinear, team +:+ "-" +:+ number)
           | _ => parse_linear rest
           end
      else parse_linear rest
  | _ => None
  end.

(** The first of the alternatives that yields a result. *)
Fixpoint first_some {A} (l : list (option A)) : option A :=
  match l with
  | [] => None
  | Some x :: _ => Some x
  | None :: l => first_some l
  end.

Definition parse_url (host path : string) : option (string * string) :=
  let on (word : string) (r : option (string * string)) := if contains word host then r else None in
  first_some
    [on "github.com" (parse_github path);
     on NameGitLab (parse_gitlab (path_parts path) 0 (path_parts path));
     on "wrike.com" (parse_wrike path);
     on "atlassian.net" (pair NameJira <$> part_after "browse" (path_parts path));
     (if contains "dev.azure.com" host || contains "visualstudio.com" host
      then pair NameAzureDevOps <$> part_after "edit" (path_parts path) else None);
     on "linear.app" (parse_linear (path_parts path))].

Definition shorthands : list (string * string) :=
  [(NameGitHub +:+ ":", NameGitHub); (NameGitLab +:+ ":", NameGitLab); (NameWrike +:+ ":", NameWrike);
   (NameLinear +:+ ":", NameLinear); ("ln:", NameLinear); (NameJira +:+ ":", NameJira);
   (NameAzureDevOps +:+ ":", NameAzureDevOps); ("ado:", NameAzureDevOps)].

(** The first of the prefixes [source] begins with. *)
Fixpoint cut_first (prefixes : list (string * string)) (source : string) : option (string * string) :=
  match prefixes with
  | [] => None
  | (p, name) :: rest =>
      match CutPrefix source p with Some id => Some (name, id) | None => cut_first rest source end
  end.

Definition Parse `{TextLibs} (source : string) : result string (string * string) :=
  match cut_first [("file:", NameFile); ("empty:", NameEmpty)] source with
  | Some r => Ok r
  | None =>
      if has_prefix source "http://" || has_prefix source "https://" then
        match url_parse source with
        | Err e => Err ("parse url: " +:+ e)
        | Ok (host, path) =>
            match parse_url host path with
            | Some r => Ok r
            | None => Err ("unsupported URL: " +:+ source)
            end
        end
      else
        match cut_first shorthands source with
        | Some r => Ok r
        | None => Err ("unknown source format: " +:+ source)
        end
  end.

(** ** Lemmas *)

Fixpoint all_chars (p : Ascii.ascii -> bool) (s : string) : bool :=
  match s with "" => true | String c s => p c && all_chars p s end.

Definition starts_with (d : Ascii.ascii) (s : string) : bool :=
  match s with "" => false | String c _ => bool_decide (c = d) end.

(** What collapsing dashes is for: one pass that drops a dash before a dash. *)
Fixpoint squeeze (s : string) : string :=
  match s with
  | "" => ""
  | String c rest => if bool_decide (c = dash) && starts_with dash rest then squeeze rest else String c (squeeze rest)
  end.

Definition halve (s : string) : string := GraphDef.ReplaceAll s "--" "-".

Lemma halve_dashes r : halve (String dash (String dash r)) = String dash (halve r).
Proof. unfold halve, GraphDef.ReplaceAll. cbn [GraphDef.replace_from String.prefix]. by destruct r. Qed.

Lemma prefix_dashes c r :
  String.prefix "--" (String c r) = bool_decide (c = dash) && starts_with dash r.
Proof.
  unfold starts_with, dash. cbn [String.prefix].
  destruct (Ascii.ascii_dec _ c) as [<-|Hc]; [|by rewrite bool_decide_false by congruence].
  rewrite bool_decide_true by done. destruct r as [|d r]; [done|]. cbn [String.prefix andb].
  destruct (Ascii.ascii_dec _ d) as [<-|Hd]; [by destruct r|]. by rewrite bool_decide_false by congruence.
Qed.

Lemma halve_other c r :
  bool_decide (c = dash) && starts_with dash r = false -> halve (String c r) = String c (halve r).
Proof.
  intros H. unfold halve, GraphDef.ReplaceAll. rewrite <- prefix_dashes in H. cbn [GraphDef.replace_from].
  by rewrite H.
Qed.

Lemma dashes_cases s :
  s = "" \/ (exists r, s = String dash (String dash r)) \/
  exists c r, s = String c r /\ bool_decide (c = dash) && starts_with dash r = false.
Proof.
  destruct s as [|c r]; [by left|right]. destruct (bool_decide (c = dash) && starts_with dash r) eqn:E; [left|right].
  - apply andb_true_iff in E as [->%bool_decide_eq_true Hr]. destruct r as [|d r]; [done|].
    apply bool_decide_eq_true in Hr as ->. by exists r.
  - by exists c, r.
Qed.

Lemma squeeze_halve n s :
  String.length s <= n ->
  squeeze (halve s) = squeeze s /\ starts_with dash (halve s) = starts_with dash s /\
  String.length (halve s) <= String.length s.
Proof.
  revert s. induction n as [|n IH]; intros s; [destruct s; [done|simpl; lia]|].
  destruct (dashes_cases s) as [->|[[r ->]|(c & r & -> & E)]]; [done| |]; intros Hn; simpl in Hn.
  - rewrite halve_dashes. destruct (IH r) as (H1 & H2 & H3); [lia|].
    cbn [squeeze starts_with String.length]. rewrite H2, H1. split_and!; [done|done|lia].
  - rewrite halve_other by done. destruct (IH r) as (H1 & H2 & H3); [lia|].
    cbn [squeeze starts_with String.length]. rewrite H2, E, H1. split_and!; [done|done|lia].
Qed.

Lemma contains_dashes c r :
  contains "--" (String c r) = bool_decide (c = dash) && starts_with dash r || contains "--" r.
Proof. rewrite <- prefix_dashes. done. Qed.

Lemma halve_shorter s : contains "--" s = true -> String.length (halve s) < String.length s.
Proof.
  induction s as [|c r IH]; [done|]. rewrite contains_dashes.
  destruct (dashes_cases (String c r)) as [|[[r' E]|(c' & r' & [= <- <-] & E)]]; [done| |].
  - rewrite E, halve_dashes. intros _. simpl. pose proof (squeeze_halve _ r' (le_n _)). lia.
  - rewrite E, halve_other by done. intros H%IH. simpl. lia.
Qed.

Lemma squeeze_id s : contains "--" s = false -> squeeze s = s.
Proof.
  induction s as [|c r IH]; [done|]. rewrite contains_dashes. intros [E H]%orb_false_iff.
  cbn [squeeze]. by rewrite E, IH.
Qed.

Lemma squeeze_starts s : starts_with dash (squeeze s) = starts_with dash s.
Proof.
  induction s as [|c r IH]; [done|]. cbn [squeeze].
  destruct (bool_decide (c = dash) && starts_with dash r) eqn:E; [|done].
  apply andb_true_iff in E as [Ec Er]. by rewrite IH, Er; cbn [starts_with].
Qed.

Lemma squeeze_clean s : contains "--" (squeeze s) = false.
Proof.
  induction s as [|c r IH]; [done|]. cbn [squeeze].
  destruct (bool_decide (c = dash) && starts_with dash r) eqn:E; [done|].
  by rewrite contains_dashes, squeeze_starts, E, IH.
Qed.

(** The loop reaches the fixed point before the fuel is used up. *)
Lemma collapse_squeeze s : collapse s = squeeze s.
Proof.
  unfold collapse. generalize (le_n (String.length s)). generalize (String.length s) at 2 3.
  intros n. revert s. induction n as [|n IH]; intros s Hn; [by destruct s; [|simpl in Hn; lia]|].
  cbn [collapse_rounds]. destruct (contains "--" s) eqn:E; [|by rewrite squeeze_id].
  fold (halve s). pose proof (halve_shorter s E). rewrite IH by lia. by apply (squeeze_halve _ s (le_n _)).
Qed.

(** *** Parts of strings *)

Lemma all_chars_app p a b : all_chars p (a +:+ b) = all_chars p a && all_chars p b.
Proof.
  induction a as [|c a IH]; [done|]. cbn [all_chars].
  change (p c && all_chars p (a +:+ b) = p c && all_chars p a && all_chars p b). by rewrite IH, andb_assoc.
Qed.

Lemma all_chars_filter p s : all_chars p (filter_chars p s) = true.
Proof. induction s as [|c s IH]; [done|]. cbn. destruct (p c) eqn:E; [cbn; by rewrite E|done]. Qed.

Lemma filter_chars_id p s : all_chars p s = true -> filter_chars p s = s.
Proof. induction s as [|c s IH]; [done|]. cbn. intros [-> H]%andb_true_iff. by rewrite IH. Qed.

Lemma all_chars_squeeze p s : all_chars p s = true -> all_chars p (squeeze s) = true.
Proof.
  induction s as [|c s IH]; [done|]. cbn [all_chars squeeze]. intros [Hc H]%andb_true_iff.
  case_match; [by apply IH|]. cbn. by rewrite Hc, IH.
Qed.

Lemma contains_app p a b : contains p (a +:+ b) = false -> contains p a = false /\ contains p b = false.
Proof.
  induction a as [|c a IH]; intros H.
  - split; [|done]. destruct p; [|done]. by destruct b.
  - change (String.prefix p (String c (a +:+ b)) || contains p (a +:+ b) = false) in H.
    apply orb_false_iff in H as [Hp Hc]. destruct (IH Hc) as [Ha Hb]. split; [|done]. cbn [contains].
    rewrite Ha, orb_false_r. destruct (String.prefix p (String c a)) eqn:E; [|done].
    apply (prefix_app_l _ _ b) in E. by rewrite <- Hp.
Qed.

Lemma trim_left_suffix d s : exists a, s = a +:+ trim_left d s.
Proof.
  induction s as [|c s [a IH]]; [by exists ""|]. cbn [trim_left].
  destruct (decide (c = d)); [|by exists ""]. exists (String c a). exact (f_equal (String c) IH).
Qed.

Lemma trim_left_starts d s : starts_with d (trim_left d s) = false.
Proof. induction s as [|c s IH]; [done|]. cbn. case_decide; [done|]. by apply bool_decide_eq_false. Qed.

Lemma trim_left_id d s : starts_with d s = false -> trim_left d s = s.
Proof. destruct s as [|c s]; [done|]. cbn. intros H%bool_decide_eq_false. by rewrite decide_False. Qed.

Lemma trim_right_prefix d s : exists b, s = trim_right d s +:+ b.
Proof.
  induction s as [|c s [b IH]]; [by exists ""|]. cbn [trim_right].
  destruct (trim_right d s) as [|x t].
  - case_decide; [by exists (String c s)|]. by exists s.
  - exists b. exact (f_equal (String c) IH).
Qed.

Lemma trim_right_idem d s : trim_right d (trim_right d s) = trim_right d s.
Proof.
  induction s as [|c s IH]; [done|]. cbn [trim_right]. destruct (trim_right d s) as [|x t].
  - case_decide; [done|]. cbn. by rewrite decide_False.
  - change (match trim_right d (String x t) with
            | "" => if decide (c = d) then "" else String c ""
            | String a b => String c (String a b) end = String c (String x t)). by rewrite IH.
Qed.

Lemma substring_prefix n s : exists b, s = String.substring 0 n s +:+ b.
Proof.
  revert s. induction n as [|n IH]; intros s; [exists s; by destruct s|].
  destruct s as [|c s]; [by exists ""|]. destruct (IH s) as [b E]. exists b. exact (f_equal (String c) E).
Qed.

Lemma substring_length n s : String.length (String.substring 0 n s) <= n.
Proof.
  revert s. induction n as [|n IH]; intros s; [by destruct s|]. destruct s as [|c s]; [simpl; lia|].
  specialize (IH s). simpl. lia.
Qed.

Lemma starts_with_prefix d a b : starts_with d (a +:+ b) = false -> starts_with d a = false.
Proof. by destruct a. Qed.

Lemma prefix_length_le (s a b : string) : s = a +:+ b -> String.length a <= String.length s.
Proof. intros ->. induction a; simpl; [lia|]. by apply le_n_S. Qed.

(** *** Slugs *)

Definition slug_ok (s : string) : Prop :=
  all_chars slug_char s = true /\ contains "--" s = false /\
  starts_with dash s = false /\ trim_right dash s = s /\ String.length s <= 50.

(** A prefix of a string with these three properties has them. *)
Definition slug_like (s : string) : Prop :=
  all_chars slug_char s = true /\ contains "--" s = false /\ starts_with dash s = false.

Lemma slug_like_prefix a b : slug_like (a +:+ b) -> slug_like a.
Proof.
  intros (H1 & H2 & H3). rewrite all_chars_app in H1. apply andb_true_iff in H1 as [H1 _].
  split_and!; [done|by apply contains_app in H2 as [? _]|by eapply starts_with_prefix].
Qed.

Lemma slug_like_trim s : slug_like s -> slug_like (trim_right dash s).
Proof. destruct (trim_right_prefix dash s) as [b E]. rewrite E at 1. apply slug_like_prefix. Qed.

Lemma slug_char_lower c : slug_char c = true ->
  GraphDef.ascii_lower c = c /\ Ascii.nat_of_ascii c < 128 /\ c <> Ascii.ascii_of_nat 32 /\ c <> Ascii.ascii_of_nat 95.
Proof. destruct c as [[] [] [] [] [] [] [] []]; vm_compute; try done; intros _; repeat split; try done; lia. Qed.

Lemma slug_lower_id s : all_chars slug_char s = true -> slug_lower s = s.
Proof.
  induction s as [|a s IH]; [done|]. cbn [all_chars]. intros [Ha Hs]%andb_true_iff.
  apply slug_char_lower in Ha as (Hl & Hn & _). specialize (IH Hs). cbn [slug_lower].
  rewrite Hl, IH. destruct s as [|b s]; [done|]. rewrite decide_False by lia. destruct s as [|c s]; [done|].
  by rewrite decide_False by lia.
Qed.

Lemma replace_absent x new s : all_chars (fun c => negb (bool_decide (c = x))) s = true ->
  GraphDef.ReplaceAll s (String x "") new = s.
Proof.
  unfold GraphDef.ReplaceAll. induction s as [|c s IH]; [done|]. cbn [all_chars GraphDef.replace_from].
  intros [Hc%negb_true_iff%bool_decide_eq_false Hs]%andb_true_iff. cbn [String.prefix].
  destruct (Ascii.ascii_dec x c); [congruence|]. by rewrite IH.
Qed.

Lemma all_chars_weaken (p q : Ascii.ascii -> bool) s :
  (forall c, p c = true -> q c = true) -> all_chars p s = true -> all_chars q s = true.
Proof.
  intros Hpq. induction s as [|c s IH]; [done|]. cbn [all_chars].
  intros [Hc Hs]%andb_true_iff. by rewrite (Hpq _ Hc), (IH Hs).
Qed.

Lemma slug_no_blank x s : x = Ascii.ascii_of_nat 32 \/ x = Ascii.ascii_of_nat 95 ->
  all_chars slug_char s = true -> all_chars (fun c => negb (bool_decide (c = x))) s = true.
Proof.
  intros Hx. apply all_chars_weaken. intros c (_ & _ & H1 & H2)%slug_char_lower.
  apply negb_true_iff, bool_decide_eq_false. destruct Hx; congruence.
Qed.

(** a slug has at most 50 characters, all of them lower-case letters, digits
    and dashes, no dash at either end and no two in a row; and the slugs are
    exactly the texts [slugify] leaves as they are. *)
Theorem slugify_spec (s : string) :
  slug_ok (slugify s) /\ (slug_ok s <-> slugify s = s).
Proof.
  assert (Hok : forall s, slug_ok (slugify s)).
  { clear s. intros s. unfold slugify. cbv zeta.
    set (u := GraphDef.ReplaceAll _ "_" "-"). set (slug := trim dash _).
    assert (Hs : slug_like slug).
    { unfold slug, trim. apply slug_like_trim. rewrite collapse_squeeze.
      set (v := squeeze _). destruct (trim_left_suffix dash v) as [a E].
      pose proof (all_chars_squeeze _ _ (all_chars_filter slug_char u)) as Hc. fold v in Hc.
      pose proof (squeeze_clean (filter_chars slug_char u)) as Hd. fold v in Hd.
      rewrite E, all_chars_app in Hc. apply andb_true_iff in Hc as [_ Hc].
      rewrite E in Hd. apply contains_app in Hd as [_ Hd].
      split_and!; [done|done|apply trim_left_starts]. }
    assert (Hr : trim_right dash slug = slug) by apply trim_right_idem.
    case_decide as Hl; [|destruct Hs as (? & ? & ?); split_and!; auto; lia].
    destruct (substring_prefix 50 slug) as [b E]. rewrite E in Hs. apply slug_like_prefix in Hs.
    destruct (slug_like_trim _ Hs) as (? & ? & ?). split_and!; auto; [apply trim_right_idem|].
    destruct (trim_right_prefix dash (String.substring 0 50 slug)) as [b' E'].
    apply prefix_length_le in E'. pose proof (substring_length 50 slug). lia. }
  split; [apply Hok|]. split; [|intros <-; apply Hok]. intros (Hc & Hd & Hs & Ht & Hn).
  unfold slugify. rewrite slug_lower_id by done.
  rewrite !(replace_absent _ _ s) by (apply slug_no_blank; [by vm_compute; auto|done]).
  rewrite filter_chars_id, collapse_squeeze, squeeze_id by done. unfold trim.
  rewrite trim_left_id, Ht by done. by rewrite decide_False by lia.
Qed.

(** A branch name has no two dashes in a row and does not end with one. *)
Lemma branch_name_clean setting wu :
  contains "--" (generateBranchName setting wu) = false /\
  trim_right dash (generateBranchName setting wu) = generateBranchName setting wu.
Proof.
  unfold generateBranchName. cbv zeta. rewrite collapse_squeeze. set (v := squeeze _).
  split; [|apply trim_right_idem]. destruct (trim_right_prefix dash v) as [b E].
  pose proof (squeeze_clean _ : contains "--" v = false) as H. rewrite E in H. by apply contains_app in H as [? _].
Qed.

(** *** Sources *)

Definition no_char (d : Ascii.ascii) (s : string) : bool := all_chars (fun c => negb (bool_decide (c = d))) s.

Lemma split_from_word d w : no_char d w = true -> forall cur rest,
  split_from d cur (w +:+ rest) = split_from d (cur +:+ w) rest.
Proof.
  induction w as [|c w IH]; intros H cur rest; [by rewrite string_app_nil|].
  apply andb_true_iff in H as [Hc%negb_true_iff%bool_decide_eq_false Hw]. rewrite string_app_cons.
  cbn [split_from]. rewrite decide_False by done. rewrite IH by done. f_equal. by rewrite string_app_assoc.
Qed.

Lemma split_from_join d ws cur :
  ws <> [] -> Forall (fun w => no_char d w = true) ws ->
  split_from d cur (join_with (String d "") ws) = (cur +:+ hd "" ws) :: tl ws.
Proof.
  revert cur. induction ws as [|w ws IH]; intros cur Hne Hws; [done|].
  apply Forall_cons in Hws as [Hw Hws]. destruct ws as [|w' ws].
  - change (join_with (String d "") [w]) with w. rewrite <- (string_app_nil w) at 1.
    by rewrite split_from_word by done.
  - change (join_with (String d "") (w :: w' :: ws))
      with (w +:+ (String d "" +:+ join_with (String d "") (w' :: ws))).
    rewrite split_from_word by done. cbn [hd tl].
    change (String d "" +:+ join_with (String d "") (w' :: ws))
      with (String d (join_with (String d "") (w' :: ws))).
    cbn [split_from]. rewrite decide_True by done. f_equal. rewrite IH by done. done.
Qed.

(** [strings.Split] undoes [strings.Join] when no part contains the separator. *)
Lemma split_join d ws :
  ws <> [] -> Forall (fun w => no_char d w = true) ws -> Split d (join_with (String d "") ws) = ws.
Proof. intros Hne Hws. unfold Split. rewrite split_from_join by done. by destruct ws. Qed.

Section parse.
Context `{L : TextLibs}.

Lemma CutPrefix_app p s : CutPrefix (p +:+ s) p = Some s.
Proof.
  induction p as [|c p IH]; [by destruct s|]. rewrite string_app_cons. cbn [CutPrefix]. by rewrite decide_True.
Qed.

Lemma cut_first_name prefixes s name id :
  cut_first prefixes s = Some (name, id) -> name ∈ map snd prefixes.
Proof.
  induction prefixes as [|[p n] l IH]; [done|]. cbn [cut_first]. destruct (CutPrefix s p).
  - intros [= -> _]. by left.
  - intros H. right. by apply IH.
Qed.

Lemma first_some_elem {A} (l : list (option A)) x : first_some l = Some x -> Some x ∈ l.
Proof. induction l as [|[y|] l IH]; [done| |]; [intros [= ->]; by left|intros H; right; by apply IH]. Qed.

Lemma parse_gitlab_name parts i rest r : parse_gitlab parts i rest = Some r -> r.1 = NameGitLab.
Proof.
  revert i. induction rest as [|p rest IH]; intros i; [done|]. cbn [parse_gitlab].
  case_match; [by intros [= <-]|apply IH].
Qed.

Lemma parse_linear_name parts r : parse_linear parts = Some r -> r.1 = NameLinear.
Proof.
  induction parts as [|p parts IH]; [done|]. cbn [parse_linear]. destruct parts as [|q parts]; [done|].
  case_decide; [|exact IH]. destruct (Split dash q) as [|? [|? ?]]; [exact IH..|by intros [= <-]].
Qed.

Lemma parse_url_name host path r : parse_url host path = Some r -> r.1 ∈ registered.
Proof.
  intros H%first_some_elem. unfold parse_url in H.
  repeat (apply elem_of_cons in H as [H|H]; [repeat case_match; try done|]); [..|by apply not_elem_of_nil in H].
  - unfold parse_github in H. split_cases_in H. by apply (bool_decide_unpack _).
  - symmetry in H. apply parse_gitlab_name in H as ->. by apply (bool_decide_unpack _).
  - unfold parse_wrike in H. symmetry in H. apply fmap_Some in H as (? & _ & ->). by apply (bool_decide_unpack _).
  - symmetry in H. apply fmap_Some in H as (? & _ & ->). by apply (bool_decide_unpack _).
  - symmetry in H. apply fmap_Some in H as (? & _ & ->). by apply (bool_decide_unpack _).
  - symmetry in H. apply parse_linear_name in H as ->. by apply (bool_decide_unpack _).
Qed.

Lemma included (l k : list string) x : bool_decide (Forall (fun y => y ∈ k) l) = true -> x ∈ l -> x ∈ k.
Proof. intros H%bool_decide_eq_true Hx. by apply (proj1 (Forall_forall _ _) H). Qed.

(** What [Parse] accepts has a provider in the registry, so looking the provider
    up cannot fail. *)
Lemma Parse_registered source name id : Parse source = Ok (name, id) -> name ∈ registered.
Proof.
  unfold Parse. destruct (cut_first [_; _] source) as [[n i]|] eqn:E1.
  { intros [= -> ->]. apply cut_first_name in E1. by apply (included _ registered) in E1. }
  case_match.
  - destruct (url_parse source) as [[host path]|]; [|done]. destruct (parse_url host path) as [r|] eqn:E; [|done].
    intros [= ->]. by apply parse_url_name in E.
  - destruct (cut_first shorthands source) as [[n i]|] eqn:E2; [|done]. intros [= -> ->].
    apply cut_first_name in E2. by apply (included _ registered) in E2.
Qed.

Lemma Parse_shorthand p name id :
  (p, name) ∈ [("file:", NameFile); ("empty:", NameEmpty)] ++ shorthands -> Parse (p +:+ id) = Ok (name, id).
Proof.
  intros H. unfold shorthands in H. cbn [app] in H.
  repeat (apply elem_of_cons in H as [[= -> ->]|H]; [destruct id; reflexivity|]).
  by apply not_elem_of_nil in H.
Qed.

Lemma trim_right_id d w : no_char d w = true -> trim_right d w = w.
Proof.
  induction w as [|c w IH]; [done|]. intros [Hc%negb_true_iff%bool_decide_eq_false Hw]%andb_true_iff.
  cbn [trim_right]. rewrite (IH Hw). destruct w; [by rewrite decide_False|done].
Qed.

Lemma trim_right_app d a w : w <> "" -> trim_right d w = w -> trim_right d (a +:+ w) = a +:+ w.
Proof.
  intros Hne Hw. induction a as [|c a IH]; [done|]. rewrite string_app_cons. cbn [trim_right]. rewrite IH.
  destruct (a +:+ w) as [|x t] eqn:E; [|done]. destruct a; [|done]. by destruct w.
Qed.

Lemma path_parts_four a b c d :
  Forall (fun w => no_char slash w = true) [a; b; c; d] -> a <> "" -> d <> "" ->
  path_parts ("/" +:+ join_with "/" [a; b; c; d]) = [a; b; c; d].
Proof.
  intros Hw Ha Hd. unfold path_parts, trim.
  assert (Hl : trim_left slash ("/" +:+ join_with "/" [a; b; c; d]) = join_with "/" [a; b; c; d]).
  { change (trim_left slash ("/" +:+ join_with "/" [a; b; c; d]))
      with (trim_left slash (join_with "/" [a; b; c; d])). apply trim_left_id.
    apply Forall_cons in Hw as [Hw _]. destruct a as [|x a]; [done|].
    by apply andb_true_iff in Hw as [Hx%negb_true_iff _]. }
  rewrite Hl. rewrite <- (split_join slash [a; b; c; d]) at 2 by done. f_equal.
  change (String slash "") with "/".
  assert (E : join_with "/" [a; b; c; d] = (a +:+ "/" +:+ b +:+ "/" +:+ c +:+ "/") +:+ d)
    by (by rewrite !string_app_assoc).
  rewrite E. apply trim_right_app; [done|]. apply trim_right_id.
  by do 3 apply Forall_cons in Hw as [_ Hw]; apply Forall_cons in Hw as [Hw _].
Qed.

(** whatever source is accepted, its provider is registered; each
    shorthand names its provider and keeps the rest as the identifier; and the
    URL of a GitHub issue or pull request means what its shorthand
    "github:owner/repo#number" means. *)
Theorem Parse_spec :
  (forall source name id, Parse source = Ok (name, id) -> name ∈ registered) /\
  (forall p name id, (p, name) ∈ [("file:", NameFile); ("empty:", NameEmpty)] ++ shorthands ->
     Parse (p +:+ id) = Ok (name, id)) /\
  (forall rest host owner repo kind number,
     url_parse ("https://" +:+ rest) = Ok (host, "/" +:+ join_with "/" [owner; repo; kind; number]) ->
     contains "github.com" host = true ->
     Forall (fun w => no_char slash w = true) [owner; repo; kind; number] -> owner <> "" -> number <> "" ->
     Parse ("https://" +:+ rest) = Parse ("github:" +:+ (owner +:+ "/" +:+ repo +:+ "#" +:+ number))).
Proof.
  split; [exact Parse_registered|]. split; [exact Parse_shorthand|].
  intros rest host owner repo kind number Hu Hh Hw Ho Hn.
  rewrite (Parse_shorthand "github:" NameGitHub) by by apply (bool_decide_unpack _).
  unfold Parse. change (cut_first [("file:", NameFile); ("empty:", NameEmpty)] ("https://" +:+ rest))
    with (@None (string * string)). cbv beta iota.
  replace (has_prefix ("https://" +:+ rest) "https://") with true by (symmetry; apply prefix_app).
  rewrite orb_true_r, Hu. unfold parse_url, parse_github. rewrite Hh, path_parts_four by done. done.
Qed.
End parse.

Definition sim_libs : TextLibs :=
  {| regexp_match _ _ := Ok true;
     url_parse s := if contains "github" s then Ok ("github.com", "/o/r/pull/5")
                    else Ok ("gitlab.com", "/owner/repo/issues/1") |}.

(** The three parts of [Parse_spec] at a library that knows two URLs. *)
Lemma Parse_spec_witness :
  @Parse sim_libs "https://github.com/o/r/pull/5" = @Parse sim_libs "github:o/r#5" /\ "jira" ∈ registered.
Proof.
  destruct (@Parse_spec sim_libs) as (H1 & H2 & H3). split.
  - apply (H3 "github.com/o/r/pull/5" "github.com" "o" "r" "pull" "5"); [done..| |done|done].
    by apply (bool_decide_unpack _).
  - apply (H1 ("jira:" +:+ "K-1") "jira" "K-1"). apply H2. by apply (bool_decide_unpack _).
Defined.

(** The issue URL of a project that is not below "/-/" loses the project. *)
Lemma Parse_gitlab_without_dash :
  @Parse sim_libs "https://gitlab.com/owner/repo/issues/1" = Ok (NameGitLab, "owner#1").
Proof. done. Qed.
