(* ===== verification/Text.v ===== *)
(** * Lines of text

    The lines of a file as [bufio.Scanner] delivers them, [strings.TrimSpace], and
    the lemmas on them that the readers of logs and of .env files share; then decimal
    numbers in text: the digits at its start, [strconv.Atoi] of digits, and how these
    read back what [%d] prints. *)

From S2P Require Import Prelude Names.

(** ** The scanner *)

Definition is_newline (c : Ascii.ascii) : bool := Ascii.nat_of_ascii c =? 10.

(** The lines of a file, the last one also when no line feed ends it; [cur] is
    the line being read. *)
Fixpoint raw_lines (cur s : string) : list string :=
  match s with
  | "" => if decide (cur = "") then [] else [cur]
  | String c s => if is_newline c then cur :: raw_lines "" s else raw_lines (cur +:+ String c "") s
  end.

Definition dropCR (s : string) : string :=
  if has_suffix s (String (Ascii.ascii_of_nat 13) "") then String.substring 0 (String.length s - 1) s else s.

(** [bufio.MaxScanTokenSize] *)
Definition MaxScanTokenSize : nat := Z.to_nat 65536.

(** What a [bufio.Scanner] delivers, and whether it stops at a line that is too
    long. *)
Fixpoint scan (lines : list string) : list string * bool :=
  match lines with
  | [] => ([], false)
  | l :: lines =>
      if decide (String.length l < MaxScanTokenSize)
      then let '(ts, err) := scan lines in (dropCR l :: ts, err) else ([], true)
  end.

Definition scan_file (content : string) : list string * bool := scan (raw_lines "" content).

(** ** Spaces *)

(** [unicode.IsSpace] on UTF-8: U+0009 to U+000D and the space; U+0085 and U+00A0; and
    U+1680, U+2000 to U+200A, U+2028, U+2029, U+202F, U+205F and U+3000. *)
Definition is_space (c : Ascii.ascii) : bool :=
  let n := Ascii.nat_of_ascii c in (9 <=? n) && (n <=? 13) || (n =? 32).
Definition is_space2 (c d : Ascii.ascii) : bool :=
  let n := Ascii.nat_of_ascii d in (Ascii.nat_of_ascii c =? 194) && ((n =? 133) || (n =? 160)).
Definition is_space3 (c d e : Ascii.ascii) : bool :=
  let k := Ascii.nat_of_ascii c in let m := Ascii.nat_of_ascii d in let n := Ascii.nat_of_ascii e in
  (k =? 225) && (m =? 154) && (n =? 128) ||
  (k =? 226) && (m =? 128) && ((128 <=? n) && (n <=? 138) || (n =? 168) || (n =? 169) || (n =? 175)) ||
  (k =? 226) && (m =? 129) && (n =? 159) || (k =? 227) && (m =? 128) && (n =? 128).

Fixpoint trim_space_left (s : string) : string :=
  match s with
  | "" => ""
  | String c r =>
      if is_space c then trim_space_left r else
      match r with
      | "" => s
      | String d r =>
          if is_space2 c d then trim_space_left r else
          match r with
          | "" => s
          | String e r => if is_space3 c d e then trim_space_left r else s
          end
      end
  end.

(** Cut where only spaces follow. *)
Fixpoint trim_space_right (s : string) : string :=
  match s with
  | "" => ""
  | String c r => if decide (trim_space_left s = "") then "" else String c (trim_space_right r)
  end.

(** [strings.TrimSpace] *)
Definition TrimSpace (s : string) : string := trim_space_right (trim_space_left s).

(** U+00A0 and U+3000 are white space; a byte of them alone is not. *)
Example TrimSpace_unicode :
  let nbsp := String (Ascii.ascii_of_nat 194) (String (Ascii.ascii_of_nat 160) "") in
  let wide := String (Ascii.ascii_of_nat 227) (String (Ascii.ascii_of_nat 128) (String (Ascii.ascii_of_nat 128) "")) in
  TrimSpace (nbsp +:+ " a b " +:+ wide +:+ nl) = "a b" /\ TrimSpace (String (Ascii.ascii_of_nat 160) "") <> "".
Proof. by vm_compute. Qed.

(** [strings.TrimPrefix] *)
Definition TrimPrefix (s p : string) : string :=
  if has_prefix s p then String.substring (String.length p) (String.length s - String.length p) s else s.

(** ** Lemmas *)

Lemma substring_app a b : String.substring (String.length a) (String.length b) (a +:+ b) = b.
Proof.
  induction a as [|c a IH]; [|exact IH].
  change ("" +:+ b) with b. change (String.length "") with 0. induction b as [|c b IH]; [done|]. cbn. by rewrite IH.
Qed.

Lemma CutPrefix_none s p : has_prefix s p = false -> CutPrefix s p = None.
Proof.
  revert p. induction s as [|c s IH]; intros [|d p] H; try done. cbn [CutPrefix]. case_decide as E; [|done]. subst d.
  apply IH. revert H. unfold has_prefix. cbn. by destruct (Ascii.ascii_dec c c).
Qed.

Lemma has_suffix_app a b : has_suffix (a +:+ b) b = true.
Proof.
  unfold has_suffix. rewrite string_app_length. apply andb_true_iff. split; [apply Nat.leb_le; lia|].
  replace (String.length a + String.length b - String.length b) with (String.length a) by lia.
  apply bool_decide_eq_true, substring_app.
Qed.

Lemma contains_middle sub a b : contains sub (a +:+ (sub +:+ b)) = true.
Proof.
  induction a as [|c a IH].
  - change ("" +:+ (sub +:+ b)) with (sub +:+ b). pose proof (prefix_app sub b) as H.
    destruct (sub +:+ b); cbn [contains]; by rewrite H.
  - rewrite string_app_cons. cbn [contains]. by rewrite IH, orb_true_r.
Qed.

Lemma string_snoc s : s <> "" -> exists a c, s = a +:+ String c "".
Proof.
  induction s as [|c s IH]; [done|]. intros _. destruct (decide (s = "")) as [->|Hs]; [by exists "", c|].
  destruct (IH Hs) as (a & d & ->). by exists (String c a), d.
Qed.

Lemma substring_0_app a b : String.substring 0 (String.length a) (a +:+ b) = a.
Proof.
  induction a as [|c a IH]; [by destruct b|]. rewrite string_app_cons. cbn [String.length String.substring]. by rewrite IH.
Qed.

Lemma has_suffix_char a c d : has_suffix (a +:+ String c "") (String d "") = bool_decide (c = d).
Proof.
  unfold has_suffix. rewrite string_app_length. cbn [String.length].
  replace (String.length a + 1 - 1) with (String.length a) by lia.
  pose proof (substring_app a (String c "")) as E. cbn [String.length] in E. rewrite E.
  replace (1 <=? String.length a + 1) with true by (symmetry; apply Nat.leb_le; lia). cbn.
  apply bool_decide_ext. split; [by intros [= ->]|by intros ->].
Qed.

Lemma has_suffix_app_ne a s c : s <> "" -> has_suffix (a +:+ s) (String c "") = has_suffix s (String c "").
Proof. intros (b & d & ->)%string_snoc. by rewrite <- string_app_assoc, !has_suffix_char. Qed.

(** *** Spaces *)

Lemma string_length_ind (P : string -> Prop) : (forall s, (forall t, String.length t < String.length s -> P t) -> P s) -> forall s, P s.
Proof. intros H s. remember (String.length s) as n eqn:E. revert s E. induction (lt_wf n) as [n _ IH]. intros s ->. apply H. intros t Ht. by eapply IH. Qed.

Definition is_ascii (c : Ascii.ascii) : bool := Ascii.nat_of_ascii c <? 128.

(** An ASCII character ends every character before it. *)
Lemma ascii_alone c : is_ascii c = true ->
  (forall d, is_space2 c d = false) /\ (forall d, is_space2 d c = false) /\
  (forall d e, is_space3 c d e = false) /\ (forall d e, is_space3 d c e = false) /\ (forall d e, is_space3 d e c = false).
Proof.
  intros H. unfold is_ascii in H. apply Nat.ltb_lt in H. unfold is_space2, is_space3. cbv zeta.
  assert (forall k, 128 <= k -> (Ascii.nat_of_ascii c =? k) = false) as E by (intros k Hk; apply Nat.eqb_neq; lia).
  assert ((128 <=? Ascii.nat_of_ascii c) = false) as El by (apply Nat.leb_gt; lia).
  split_and!; intros; rewrite ?El, !E by lia; rewrite ?andb_false_r; done.
Qed.

Lemma trim_left_length s : String.length (trim_space_left s) <= String.length s.
Proof.
  induction s as [s IH] using string_length_ind. destruct s as [|c [|d [|e r]]]; [done|..].
  - cbn. destruct (is_space c); cbn; lia.
  - pose proof (IH (String d "") ltac:(cbn; lia)) as H1. cbn in *. destruct (is_space c); [lia|]. destruct (is_space2 c d); cbn; lia.
  - pose proof (IH (String d (String e r)) ltac:(cbn; lia)) as H1. pose proof (IH (String e r) ltac:(cbn; lia)) as H2.
    pose proof (IH r ltac:(cbn; lia)) as H3. cbn in *. destruct (is_space c); [lia|]. destruct (is_space2 c d); [lia|].
    destruct (is_space3 c d e); cbn; lia.
Qed.

Lemma trim_right_length s : String.length (trim_space_right s) <= String.length s.
Proof. induction s as [|c s IH]; [done|]. cbn [trim_space_right]. case_decide; cbn; lia. Qed.

(** What is trimmed on the left is a word that spaces separate from nothing before it. *)
Lemma trim_left_ascii a c b : is_ascii c = true ->
  trim_space_left (a +:+ String c b) = if decide (trim_space_left a = "") then trim_space_left (String c b) else trim_space_left a +:+ String c b.
Proof.
  intros Hc. destruct (ascii_alone c Hc) as (_ & H2 & _ & H3 & H4).
  induction a as [a IH] using string_length_ind. destruct a as [|x [|y [|z a]]].
  - by rewrite decide_True.
  - change (String x "" +:+ String c b) with (String x (String c b)). cbn [trim_space_left]. destruct (is_space x); [by rewrite decide_True|].
    rewrite H2, decide_False by done. destruct b; [done|]. by rewrite H3.
  - change (String x (String y "") +:+ String c b) with (String x (String y (String c b))).
    change (trim_space_left (String x (String y (String c b)))) with (if is_space x then trim_space_left (String y "" +:+ String c b) else
      if is_space2 x y then trim_space_left (String c b) else if is_space3 x y c then trim_space_left b else String x (String y (String c b))).
    change (trim_space_left (String x (String y ""))) with (if is_space x then trim_space_left (String y "") else if is_space2 x y then "" else String x (String y "")).
    destruct (is_space x); [apply IH; cbn; lia|]. destruct (is_space2 x y); [by rewrite decide_True|]. by rewrite H4, decide_False.
  - rewrite !string_app_cons.
    change (trim_space_left (String x (String y (String z (a +:+ String c b))))) with
      (if is_space x then trim_space_left (String y (String z a) +:+ String c b) else if is_space2 x y then trim_space_left (String z a +:+ String c b) else
       if is_space3 x y z then trim_space_left (a +:+ String c b) else String x (String y (String z (a +:+ String c b)))).
    change (trim_space_left (String x (String y (String z a)))) with
      (if is_space x then trim_space_left (String y (String z a)) else if is_space2 x y then trim_space_left (String z a) else
       if is_space3 x y z then trim_space_left a else String x (String y (String z a))).
    destruct (is_space x); [apply IH; cbn; lia|]. destruct (is_space2 x y); [apply IH; cbn; lia|].
    destruct (is_space3 x y z); [apply IH; cbn; lia|]. by rewrite decide_False.
Qed.

Lemma trim_left_word c b : is_ascii c = true -> is_space c = false -> trim_space_left (String c b) = String c b.
Proof.
  intros Hc Hs. destruct (ascii_alone c Hc) as (H2 & _ & H3 & _). cbn [trim_space_left]. rewrite Hs.
  destruct b as [|d [|e b]]; [done|by rewrite H2|by rewrite H2, H3].
Qed.

Lemma trim_right_ascii a c b : is_ascii c = true -> is_space c = false -> trim_space_right (a +:+ String c b) = a +:+ String c (trim_space_right b).
Proof.
  intros Hc Hs. assert (forall a', trim_space_left (a' +:+ String c b) <> "") as Hne.
  { intros a'. rewrite trim_left_ascii, trim_left_word by done. case_decide as E; [done|]. by destruct (trim_space_left a'). }
  induction a as [|x a IH].
  - change ("" +:+ String c b) with (String c b). cbn [trim_space_right]. rewrite decide_False; [done|exact (Hne "")].
  - rewrite !string_app_cons. cbn [trim_space_right]. rewrite decide_False, IH; [done|exact (Hne (String x a))].
Qed.

Lemma trim_right_snoc_space a c : is_ascii c = true -> is_space c = true -> trim_space_right (a +:+ String c "") = trim_space_right a.
Proof.
  intros Hc Hs. assert (trim_space_left (String c "") = "") as Hsp by (cbn; by rewrite Hs).
  induction a as [|x a IH].
  - change ("" +:+ String c "") with (String c ""). cbn [trim_space_right]. by rewrite decide_True.
  - rewrite string_app_cons. cbn [trim_space_right]. rewrite <- (string_app_cons x a (String c "")), trim_left_ascii, Hsp, IH by done.
    destruct (decide (trim_space_left (String x a) = "")) as [E|E]; [by rewrite decide_True|]. rewrite decide_False; [done|].
    by destruct (trim_space_left (String x a)).
Qed.

(** Splitting and joining again. *)
Lemma split_from_cons d cur s : exists w ws, split_from d cur s = w :: ws.
Proof. revert cur. induction s as [|c s IH]; intros cur; cbn [split_from]; [by eexists _, _|]. case_decide; [by eexists _, _|apply IH]. Qed.

Lemma join_split_from d cur s : join_with (String d "") (split_from d cur s) = cur +:+ s.
Proof.
  revert cur. induction s as [|c s IH]; intros cur; [by rewrite string_app_nil|]. cbn [split_from]. case_decide as Hc.
  - subst c. specialize (IH ""). destruct (split_from_cons d "" s) as (w & ws & Hw). rewrite Hw in *.
    cbn [join_with] in *. by rewrite IH.
  - by rewrite IH, string_app_assoc.
Qed.

Lemma join_split d s : join_with (String d "") (Split d s) = s.
Proof. apply join_split_from. Qed.

Lemma Split_cons d s : exists w ws, Split d s = w :: ws.
Proof. apply split_from_cons. Qed.

Definition no_newline (s : string) : bool := all_chars (fun c => negb (is_newline c)) s.

Definition CR : string := String (Ascii.ascii_of_nat 13) "".

(** A line that is delivered as it was written. *)
Definition good_line (d : string) : Prop :=
  d <> "" /\ no_newline d = true /\ has_suffix d CR = false /\ String.length d < MaxScanTokenSize.

Fixpoint unlines (ds : list string) : string :=
  match ds with [] => "" | d :: ds => d +:+ nl +:+ unlines ds end.

Lemma unlines_snoc ds d : unlines (ds ++ [d]) = unlines ds +:+ (d +:+ nl).
Proof.
  induction ds as [|d' ds IH]; cbn [unlines app]; [by rewrite string_app_nil|].
  by rewrite IH, !string_app_assoc.
Qed.

Lemma raw_lines_word d : no_newline d = true -> forall cur rest,
  raw_lines cur (d +:+ rest) = raw_lines (cur +:+ d) rest.
Proof.
  induction d as [|c d IH]; intros H cur rest; [by rewrite string_app_nil|].
  apply andb_true_iff in H as [Hc%negb_true_iff Hd]. rewrite string_app_cons. cbn [raw_lines]. rewrite Hc.
  rewrite IH by done. f_equal. by rewrite string_app_assoc.
Qed.

Lemma raw_lines_unlines_plain ls : Forall (fun l => no_newline l = true) ls -> raw_lines "" (unlines ls) = ls.
Proof.
  induction 1 as [|d ds Hd _ IH]; [done|]. cbn [unlines]. rewrite raw_lines_word by done.
  change ("" +:+ d) with d. change (raw_lines d (nl +:+ unlines ds)) with (d :: raw_lines "" (unlines ds)).
  by rewrite IH.
Qed.

Lemma raw_lines_unlines ds : Forall good_line ds -> raw_lines "" (unlines ds) = ds.
Proof. intros H. apply raw_lines_unlines_plain. eapply Forall_impl; [exact H|]. by intros d (_ & ? & _). Qed.

Lemma scan_good ds : Forall good_line ds -> scan ds = (ds, false).
Proof.
  induction 1 as [|d ds (_ & _ & Hc & Hl) _ IH]; [done|]. cbn [scan]. rewrite decide_True, IH by done.
  unfold dropCR. fold CR. by rewrite Hc.
Qed.

Lemma scan_unlines ds : Forall good_line ds -> scan_file (unlines ds) = (ds, false).
Proof. intros H. unfold scan_file. by rewrite raw_lines_unlines, scan_good. Qed.

Lemma scan_too_long ls l rest : MaxScanTokenSize <= String.length l -> (scan (ls ++ l :: rest)).2 = true.
Proof.
  intros Hl. induction ls as [|l' ls IH]; cbn [app scan].
  - rewrite decide_False by lia. done.
  - case_decide; [|done]. by destruct (scan (ls ++ l :: rest)).
Qed.

(** ** Decimal numbers *)

Notation char := Ascii.ascii.

Definition digit_value (c : char) : option Z :=
  let n := Ascii.nat_of_ascii c in
  if (48 <=? n) && (n <=? 57) then Some (Z.of_nat n - 48)%Z else None.

(** The digits that a text starts with, and what follows them. *)
Fixpoint span_digits (s : string) : string * string :=
  match s with
  | String c rest =>
      match digit_value c with
      | Some _ => let '(ds, rest') := span_digits rest in (String c ds, rest')
      | None => ("", s)
      end
  | "" => ("", "")
  end.

Fixpoint decimal (acc : Z) (ds : string) : Z :=
  match ds with
  | String c ds => decimal (acc * 10 + default 0 (digit_value c))%Z ds
  | "" => acc
  end.

(** [strconv.Atoi] of digits; [None] out of range. *)
Definition Atoi (ds : string) : option Z :=
  let n := decimal 0 ds in if (n <=? max_int64)%Z then Some n else None.

(** [\d+] *)
Definition some_digits (s : string) : option (string * string) :=
  match span_digits s with ("", _) => None | r => Some r end.

(** *** Lemmas *)

Definition all_digits (s : string) : bool := all_chars (fun c => bool_decide (is_Some (digit_value c))) s.
Definition no_digit_first (s : string) : Prop := match s with String c _ => digit_value c = None | "" => True end.

Lemma pretty_char_value x : (x < 10)%N -> digit_value (pretty_N_char x) = Some (Z.of_N x).
Proof.
  intros H. assert (x = 0 \/ x = 1 \/ x = 2 \/ x = 3 \/ x = 4 \/ x = 5 \/ x = 6 \/ x = 7 \/ x = 8 \/ x = 9)%N as Hx by lia.
  destruct Hx as [->|[->|[->|[->|[->|[->|[->|[->|[->| ->]]]]]]]]]; reflexivity.
Qed.

Lemma pretty_go_digits x s : all_digits s = true ->
  all_digits (pretty_N_go x s) = true /\ decimal 0 (pretty_N_go x s) = decimal (Z.of_N x) s.
Proof.
  revert s. induction (N.lt_wf_0 x) as [x _ IH]; intros s Hs. destruct (decide (x = 0)%N) as [->|Hx]; [done|].
  assert (x mod 10 < 10)%N as Hm by (apply N.mod_lt; lia). pose proof (pretty_char_value _ Hm) as Hc.
  rewrite pretty_N_go_step by lia. destruct (IH (x / 10)%N) with (s := String (pretty_N_char (x mod 10)) s) as [H1 H2].
  - apply N.div_lt; lia.
  - unfold all_digits in *. cbn. by rewrite Hc, Hs.
  - split; [exact H1|]. rewrite H2. cbn [decimal]. rewrite Hc. cbn [default]. f_equal.
    unfold id. pose proof (N.div_mod x 10 ltac:(done)). lia.
Qed.

Lemma pretty_digits n : (0 <= n)%Z -> pretty n <> "" /\ all_digits (pretty n) = true /\ decimal 0 (pretty n) = n.
Proof.
  intros Hn. destruct n as [|p|p]; [by split_and!|..|lia]. change (pretty (Z.pos p)) with (pretty (N.pos p)).
  unfold pretty, pretty_N. rewrite decide_False by done. destruct (pretty_go_digits (N.pos p) "" eq_refl) as [H1 H2]. split_and!.
  - intros E. rewrite E in H2. done.
  - exact H1.
  - rewrite H2. done.
Qed.

Lemma span_digits_app ds rest : all_digits ds = true -> no_digit_first rest -> span_digits (ds +:+ rest) = (ds, rest).
Proof.
  intros Hd Hr. induction ds as [|c ds IH].
  - change ("" +:+ rest) with rest. destruct rest as [|c rest]; [done|]. cbn in *. by rewrite Hr.
  - cbn in Hd. apply andb_true_iff in Hd as [[d Hc]%bool_decide_eq_true Hd]. rewrite string_app_cons. cbn [span_digits].
    by rewrite Hc, IH.
Qed.

Lemma some_digits_pretty n rest : (0 <= n)%Z -> no_digit_first rest -> some_digits (pretty n +:+ rest) = Some (pretty n, rest).
Proof.
  intros Hn Hr. destruct (pretty_digits n Hn) as (Hne & Hd & _). unfold some_digits. rewrite span_digits_app by done.
  by destruct (pretty n).
Qed.

Lemma Atoi_pretty n : (0 <= n <= max_int64)%Z -> Atoi (pretty n) = Some n.
Proof.
  intros Hn. unfold Atoi. destruct (pretty_digits n) as (_ & _ & ->); [lia|]. destruct (n <=? max_int64)%Z eqn:E; [done|]. lia.
Qed.
