(* ===== verification/ActivityLog.v ===== *)
(** * The activity log

    Translates [internal/activitylog] (log.go, verify.go, query.go): the writer
    of daily files of JSON lines, each line naming the hash of the line before,
    the verification of these chains, and the queries.  JSON and SHA-256 are
    parameters.  What a write does to the file, and whether a file can be opened
    or removed, is said by the environment. *)

From S2P Require Import Prelude Names Text.

(** ** Dates

    A point in time with the offset of its zone in seconds, as [time.Time]
    carries it. *)
Record Stamp := mkStamp { at_ns : Z; zone : Z }.

Definition ns_per_second : Z := 1000000000.
Definition ns_per_day : Z := 86400 * ns_per_second.

(** The days since 1970-01-01 of a date of the Gregorian calendar, and back: the
    year starts in March and an era has 400 years. *)
Definition days_from_civil (y m d : Z) : Z :=
  (let y := if m <=? 2 then y - 1 else y in
   let era := y / 400 in
   let yoe := y - era * 400 in
   let doy := (153 * (if 2 <? m then m - 3 else m + 9) + 2) / 5 + d - 1 in
   let doe := yoe * 365 + yoe / 4 - yoe / 100 + doy in
   era * 146097 + doe - 719468)%Z.

Definition civil_from_days (z : Z) : Z * Z * Z :=
  (let z := z + 719468 in
   let era := z / 146097 in
   let doe := z - era * 146097 in
   let yoe := (doe - doe / 1460 + doe / 36524 - doe / 146096) / 365 in
   let doy := doe - (365 * yoe + yoe / 4 - yoe / 100) in
   let mp := (5 * doy + 2) / 153 in
   let d := doy - (153 * mp + 2) / 5 + 1 in
   let m := if mp <? 10 then mp + 3 else mp - 9 in
   ((if m <=? 2 then yoe + era * 400 + 1 else yoe + era * 400), m, d))%Z.

(** A number with leading zeros up to a width, for numbers that are not negative. *)
Fixpoint zeros (n : nat) : string := match n with 0 => "" | S n => "0" +:+ zeros n end.
Definition padded (width : nat) (n : Z) : string :=
  let s := pretty n in zeros (width - String.length s) +:+ s.

(** [Format] with the layout 2006-01-02. *)
Definition format_date (t : Stamp) : string :=
  let '(y, m, d) := civil_from_days ((at_ns t + zone t * ns_per_second) / ns_per_day) in
  padded 4 y +:+ "-" +:+ padded 2 m +:+ "-" +:+ padded 2 d.

Example date_epoch : format_date (mkStamp 0 0) = "1970-01-01". Proof. reflexivity. Qed.
Example date_leap : format_date (mkStamp (19782 * ns_per_day) 0) = "2024-02-29". Proof. reflexivity. Qed.

(** [time.Parse] with this layout; the result is in UTC. *)
Definition digit (c : Ascii.ascii) : option Z :=
  let n := Ascii.nat_of_ascii c in
  if (48 <=? n) && (n <=? 57) then Some (Z.of_nat (n - 48)) else None.

Fixpoint digits (acc : Z) (s : string) : option Z :=
  match s with
  | "" => Some acc
  | String c s => match digit c with Some d => digits (acc * 10 + d)%Z s | None => None end
  end.

Definition leap (y : Z) : bool := (y mod 4 =? 0)%Z && (negb (y mod 100 =? 0)%Z || (y mod 400 =? 0)%Z).
Definition days_in (m y : Z) : Z :=
  if (m =? 2)%Z then (if leap y then 29 else 28) else
  if bool_decide (m ∈ [4; 6; 9; 11]%Z) then 30 else 31.

Definition parse_date (s : string) : option Z :=
  if negb (String.length s =? 10) then None else
  if negb (bool_decide (String.substring 4 1 s = "-") && bool_decide (String.substring 7 1 s = "-")) then None else
  match digits 0 (String.substring 0 4 s), digits 0 (String.substring 5 2 s), digits 0 (String.substring 8 2 s) with
  | Some y, Some m, Some d =>
      if ((1 <=? m) && (m <=? 12) && (1 <=? d) && (d <=? days_in m y))%Z
      then Some (days_from_civil y m d * ns_per_day)%Z else None
  | _, _, _ => None
  end.

Example parse_leap : parse_date "2024-02-29" = Some (19782 * ns_per_day)%Z. Proof. reflexivity. Qed.
Example parse_no_leap : parse_date "2023-02-29" = None. Proof. reflexivity. Qed.

(** ** Entries and files *)

Record Entry := mkEntry {
  Timestamp : Stamp;
  Method : string;
  CorrelationID : string;
  DurationMs : Z;
  Error : string;
  ParamsSize : Z;
  UserID : string;
  TaskID : string;
  AgentModel : string;
  FilesAffected : list string;
  TaskTraceID : string;
  ParentEntryID : string;
  PrevHash : string
}.
#[export] Instance eta_Entry : Eta Entry := fun e =>
  mkEntry (Timestamp e) (Method e) (CorrelationID e) (DurationMs e) (Error e) (ParamsSize e) (UserID e)
    (TaskID e) (AgentModel e) (FilesAffected e) (TaskTraceID e) (ParentEntryID e) (PrevHash e).

(** The directory: the content of its files; a directory in it has none. *)
Notation Dir := (gmap string (option string)).

(** [encoding/json] on entries, and the hex digits of SHA-256. *)
Class Codec := {
  marshal : Entry -> option string;
  unmarshal : string -> option Entry;
  sha256_hex : string -> string
}.

Definition filePrefix : string := "activity-".
Definition fileExt : string := ".jsonl".

Definition is_log_file (name : string) : bool := has_prefix name filePrefix && has_suffix name fileExt.

(** [logFilesSorted] *)
Definition logFilesSorted (d : Dir) : list string :=
  sort_strings (omap (fun e : string * option string =>
    match e.2 with Some _ => if is_log_file e.1 then Some e.1 else None | None => None end) (map_to_list d)).

Definition file_of_day (day : string) : string := filePrefix +:+ day +:+ fileExt.

Definition dayFromFileName (name : string) : string :=
  let name := if has_prefix name filePrefix
              then String.substring (String.length filePrefix) (String.length name - String.length filePrefix) name
              else name in
  if has_suffix name fileExt then String.substring 0 (String.length name - String.length fileExt) name else name.

Definition non_empty (lines : list string) : list string := filter (fun l => l <> "") lines.

Section log.
Context `{C : Codec}.

(** ** The writer *)

(** [lastHashFromFile]; the error of the scanner is not looked at. *)
Definition lastHashFromFile (content : string) : string :=
  match last (non_empty (scan_file content).1) with Some l => sha256_hex l | None => "" end.

(** What the environment does to one call of [writeEntry]: whether the file
    opens, which files can be removed, and how many bytes are written ([None] for
    all). *)
Record IO := mkIO { io_open : bool; io_remove : string -> bool; io_written : option nat }.

Record Writer := mkWriter { currentDay : string; currentFile : option string; prevHash : string }.

(** [openFileForDay] *)
Definition openFileForDay (io : IO) (day : string) (d : Dir) (w : Writer) : Dir * Writer :=
  let name := file_of_day day in
  let opens := io_open io && match d !! name with Some None => false | _ => true end in
  if negb opens then (d, mkWriter (currentDay w) None (prevHash w)) else
  let content := match d !! name with Some (Some s) => s | _ => "" end in
  (<[name := Some content]> d, mkWriter day (Some name) (lastHashFromFile content)).

(** [cleanup] *)
Definition cleanup (io : IO) (maxFiles : nat) (d : Dir) : Dir :=
  let files := logFilesSorted d in
  fold_left (fun d name => if io_remove io name then delete name d else d) (take (length files - maxFiles) files) d.

(** A write to an open file; one that has been removed takes it away with it. *)
Definition append_to (name : string) (bytes : string) (d : Dir) : Dir :=
  match d !! name with
  | Some (Some s) => <[name := Some (s +:+ bytes)]> d
  | _ => d
  end.

Definition writeEntry (io : IO) (maxFiles : nat) (e : Entry) (st : Dir * Writer) : Dir * Writer :=
  let '(d, w) := st in
  let day := format_date (Timestamp e) in
  let '(d, w) := if decide (day <> currentDay w)
                 then let '(d, w) := openFileForDay io day d w in (cleanup io maxFiles d, w)
                 else (d, w) in
  match currentFile w with
  | None => (d, w)
  | Some name =>
      match marshal (e <| PrevHash := prevHash w |>) with
      | None => (d, w)
      | Some data =>
          let line := data +:+ nl in
          let bytes := match io_written io with None => line | Some n => String.substring 0 n line end in
          (append_to name bytes d, mkWriter (currentDay w) (Some name) (sha256_hex data))
      end
  end.

(** The entries a writer takes from the channel, with what happens to each. *)
Definition write_all (maxFiles : nat) (es : list (IO * Entry)) (st : Dir * Writer) : Dir * Writer :=
  fold_left (fun st (p : IO * Entry) => writeEntry p.1 maxFiles p.2 st) es st.

Definition new_writer : Writer := mkWriter "" None "".

Definition channelCapacity : nat := 1000.

(** [Record]: the channel of the log. *)
Definition Record_ (e : Entry) (entries : list Entry) : list Entry :=
  if length entries <? channelCapacity then entries ++ [e] else entries.

(** ** Verification *)

Inductive ChainError := BadJSON (line : nat) | Broken (line : nat) (want got : string) | TooLong.

(** The loop of [verifyFile] over the lines of the scanner. *)
Fixpoint verify_lines (lineNum : nat) (prev : string) (lines : list string)
  : nat * string * option ChainError :=
  match lines with
  | [] => (lineNum, prev, None)
  | line :: lines =>
      let lineNum := S lineNum in
      if decide (line = "") then verify_lines lineNum prev lines else
      match unmarshal line with
      | None => (lineNum, "", Some (BadJSON lineNum))
      | Some e =>
          if decide (PrevHash e <> prev) then (lineNum, "", Some (Broken lineNum prev (PrevHash e))) else
          verify_lines lineNum (sha256_hex line) lines
      end
  end.

Definition verifyFile (content : string) (prev : string) (startLine : nat) : nat * string * option ChainError :=
  let '(lines, err) := scan_file content in
  match verify_lines startLine prev lines with
  | (n, h, None) => if err then (n, "", Some TooLong) else (n, h, None)
  | r => r
  end.

Record ChainResult := mkChainResult { Valid : bool; EntriesRead : nat; ErrorLine : nat; ErrorMsg : option ChainError }.

(** The loop over the files. *)
Fixpoint verify_files (d : Dir) (files : list string) (prev : string) (line : nat) : ChainResult :=
  match files with
  | [] => mkChainResult true line 0 None
  | f :: files =>
      match verifyFile (default "" (mjoin (d !! f))) prev line with
      | (n, h, None) => verify_files d files h n
      | (n, _, Some e) => mkChainResult false n n (Some e)
      end
  end.

Definition VerifyChain (d : Dir) : ChainResult := verify_files d (logFilesSorted d) "" 0.

Definition VerifyChainForFile (content : string) : ChainResult :=
  match verifyFile content "" 0 with
  | (n, _, None) => mkChainResult true n 0 None
  | (n, _, Some e) => mkChainResult false n n (Some e)
  end.

(** ** Queries *)

Record QueryOptions := mkQuery { Since : Z; MethodPattern : string; ErrorsOnly : bool; Limit : Z }.

(** [readFile]: malformed lines are skipped. *)
Definition readFile (content : string) : list Entry * bool :=
  let '(lines, err) := scan_file content in (omap unmarshal (non_empty lines), err).

Definition bar : Ascii.ascii := Eval cbv in Ascii.ascii_of_nat 124.

Definition matchesMethodPattern (method pattern : string) : bool :=
  bool_decide (pattern = "") ||
  existsb (fun p => contains (TrimSpace p) method) (Split bar pattern).

Definition cutoff (now : Z) (o : QueryOptions) : Z := (now - Since o)%Z.

Definition query_keeps (now : Z) (o : QueryOptions) (e : Entry) : bool :=
  negb ((0 <? Since o)%Z && (at_ns (Timestamp e) <? cutoff now o)%Z) &&
  negb (ErrorsOnly o && bool_decide (Error e = "")) &&
  matchesMethodPattern (Method e) (MethodPattern o).

(** The entries of one file, the newest first; [true] when the limit is reached. *)
Fixpoint query_entries (now : Z) (o : QueryOptions) (es : list Entry) (results : list Entry) : list Entry * bool :=
  match es with
  | [] => (results, false)
  | e :: es =>
      if query_keeps now o e then
        let results := results ++ [e] in
        if (0 <? Limit o)%Z && (Limit o <=? Z.of_nat (length results))%Z then (results, true)
        else query_entries now o es results
      else query_entries now o es results
  end.

(** A file that ends before the cutoff, by its name. *)
Definition too_old (now : Z) (o : QueryOptions) (name : string) : bool :=
  (0 <? Since o)%Z &&
  match parse_date (dayFromFileName name) with
  | Some day => (day + ns_per_day - 1 <? cutoff now o)%Z
  | None => false
  end.

(** The loop over the files, the newest first. *)
Fixpoint query_files (now : Z) (o : QueryOptions) (d : Dir) (files : list string) (results : list Entry)
  : option (list Entry) :=
  match files with
  | [] => Some results
  | f :: files =>
      if too_old now o f then Some results else
      let '(es, err) := readFile (default "" (mjoin (d !! f))) in
      if err : bool then None else
      match query_entries now o (rev es) results with
      | (results, true) => Some results
      | (results, false) => query_files now o d files results
      end
  end.

Definition Query (now : Z) (o : QueryOptions) (d : Dir) : option (list Entry) :=
  query_files now o d (rev (logFilesSorted d)) [].

Fixpoint read_all (d : Dir) (files : list string) : option (list (list Entry)) :=
  match files with
  | [] => Some []
  | f :: files =>
      let '(es, err) := readFile (default "" (mjoin (d !! f))) in
      if err : bool then None else (cons es) <$> read_all d files
  end.

Definition ListByTaskTrace (traceID : string) (d : Dir) : option (list Entry) :=
  (fun ess => filter (fun e => TaskTraceID e = traceID) (concat ess)) <$> read_all d (logFilesSorted d).
End log.

(** ** Lemmas: strings and lines *)

Lemma log_file_of_day day : is_log_file (file_of_day day) = true.
Proof.
  unfold is_log_file, file_of_day. apply andb_true_iff. split; [apply prefix_app|].
  rewrite <- string_app_assoc. apply has_suffix_app.
Qed.

Lemma non_empty_good ds : Forall good_line ds -> non_empty ds = ds.
Proof.
  intros H. unfold non_empty. induction H as [|d ds [Hd _] _ IH]; [done|].
  rewrite filter_cons_True by done. by rewrite IH.
Qed.

(** ** Lemmas: chains *)

(** What the theorems use of JSON and SHA-256: an entry is encoded as one line
    that is not empty and keeps the hash in it; a hash has digits. *)
Class CodecLaws {C : Codec} := {
  marshal_line e d : marshal e = Some d -> d <> "" /\ no_newline d = true /\ has_suffix d CR = false;
  marshal_hash e d : marshal e = Some d ->
    (PrevHash e = "" \/ exists x, PrevHash e = sha256_hex x) -> PrevHash <$> unmarshal d = Some (PrevHash e);
  sha256_digits x : sha256_hex x <> ""
}.

Section chains.
Context {C : Codec} {L : CodecLaws}.

Fixpoint chained (prev : string) (ds : list string) : Prop :=
  match ds with
  | [] => True
  | d :: ds => PrevHash <$> unmarshal d = Some prev /\ chained (sha256_hex d) ds
  end.

Definition last_hash (prev : string) (ds : list string) : string :=
  match last ds with Some d => sha256_hex d | None => prev end.

Lemma last_hash_cons prev d ds : last_hash prev (d :: ds) = last_hash (sha256_hex d) ds.
Proof. unfold last_hash. rewrite last_cons. by destruct (last ds). Qed.

Lemma chained_snoc prev ds d :
  chained prev ds -> PrevHash <$> unmarshal d = Some (last_hash prev ds) -> chained prev (ds ++ [d]).
Proof.
  revert prev. induction ds as [|d' ds IH]; intros prev; cbn [chained app]; [done|].
  intros [Hd Hc] Hl. split; [done|]. apply IH; [done|]. by rewrite last_hash_cons in Hl.
Qed.

Lemma verify_lines_chained n prev ds :
  Forall good_line ds -> chained prev ds ->
  verify_lines n prev ds = (n + length ds, last_hash prev ds, None).
Proof.
  intros Hg. revert n prev. induction Hg as [|d ds [Hd _] _ IH]; intros n prev; cbn [chained verify_lines length].
  - intros _. by rewrite Nat.add_0_r.
  - intros [Hu Hc]. rewrite decide_False by done. destruct (unmarshal d) as [e|]; [|done].
    injection Hu as Hu. rewrite decide_False by (intros Hne; by apply Hne). rewrite IH by done.
    rewrite last_hash_cons. do 2 f_equal. lia.
Qed.

Lemma verifyFile_chained n prev ds :
  Forall good_line ds -> chained prev ds ->
  verifyFile (unlines ds) prev n = (n + length ds, last_hash prev ds, None).
Proof. intros Hg Hc. unfold verifyFile. by rewrite scan_unlines, verify_lines_chained. Qed.

Lemma lastHash_unlines ds : Forall good_line ds -> lastHashFromFile (unlines ds) = last_hash "" ds.
Proof. intros Hg. unfold lastHashFromFile. by rewrite scan_unlines, non_empty_good by done. Qed.

(** A file that is a chain of its own. *)
Definition own_chain (content : string) (ds : list string) : Prop :=
  content = unlines ds /\ Forall good_line ds /\ chained "" ds.

Definition own_chains (d : Dir) : Prop :=
  forall name content, d !! name = Some (Some content) -> is_log_file name = true ->
    exists ds, own_chain content ds.

(** The writer remembers the hash of the last line of its file. *)
Definition in_step (d : Dir) (w : Writer) : Prop :=
  forall name, currentFile w = Some name ->
    is_log_file name = true /\
    (prevHash w = "" \/ exists x, prevHash w = sha256_hex x) /\
    forall content ds, d !! name = Some (Some content) -> own_chain content ds -> prevHash w = last_hash "" ds.

Definition shrinks (d d' : Dir) : Prop := forall name, d' !! name = None \/ d' !! name = d !! name.

Lemma cleanup_shrinks io n d : shrinks d (cleanup io n d).
Proof.
  unfold cleanup. generalize (take (length (logFilesSorted d) - n) (logFilesSorted d)). intros l.
  assert (H : forall d1, shrinks d d1 ->
    shrinks d (fold_left (fun d name => if io_remove io name then delete name d else d) l d1)).
  { induction l as [|x l IH]; intros d1 H1; [done|]. cbn [fold_left]. apply IH.
    destruct (io_remove io x); [|done]. intros name. destruct (decide (name = x)) as [->|Hne].
    - left. apply lookup_delete_eq.
    - rewrite lookup_delete_ne by done. apply H1. }
  apply H. intros name. by right.
Qed.

Lemma own_chains_shrinks d d' : shrinks d d' -> own_chains d -> own_chains d'.
Proof. intros Hs Ho name content Hl. destruct (Hs name) as [E|E]; [congruence|]. apply Ho. congruence. Qed.

Lemma in_step_shrinks d d' w : shrinks d d' -> in_step d w -> in_step d' w.
Proof.
  intros Hs Hi name Hn. destruct (Hi name Hn) as (H1 & H2 & H3). split_and!; [done..|].
  intros content ds Hl. destruct (Hs name) as [E|E]; [congruence|]. apply H3. congruence.
Qed.

Lemma last_hash_form ds : last_hash "" ds = "" \/ exists x, last_hash "" ds = sha256_hex x.
Proof. unfold last_hash. destruct (last ds); [right; by eexists|by left]. Qed.

Lemma unlines_inj ds ds' : Forall good_line ds -> Forall good_line ds' -> unlines ds = unlines ds' -> ds = ds'.
Proof. intros H H' E. rewrite <- (raw_lines_unlines ds), <- (raw_lines_unlines ds') by done. by rewrite E. Qed.

Lemma open_in_step io day d w d' w' :
  openFileForDay io day d w = (d', w') -> own_chains d -> own_chains d' /\ in_step d' w'.
Proof.
  unfold openFileForDay. destruct (negb _) eqn:E; intros [= <- <-] Ho; [by split|].
  set (name := file_of_day day). set (content := match d !! name with Some (Some s) => s | _ => "" end).
  assert (Hc : exists ds, own_chain content ds).
  { unfold content. destruct (d !! name) as [[s|]|] eqn:El;
      [apply (Ho _ _ El), log_file_of_day|by exists []..]. }
  split.
  - intros n c. destruct (decide (n = name)) as [->|Hne].
    + rewrite lookup_insert_eq. by intros [= <-] _.
    + rewrite lookup_insert_ne by done. apply Ho.
  - intros n [= <-]. fold name. destruct Hc as (ds & Hd & Hg & Hch). cbn [prevHash]. rewrite Hd.
    rewrite lastHash_unlines by done. split_and!; [apply log_file_of_day|apply last_hash_form|].
    intros c ds'. rewrite lookup_insert_eq. intros [= <-] (E' & Hg' & _).
    f_equal. apply unlines_inj; congruence.
Qed.

(** An entry whose line the scanner will read. *)
Definition fits (e : Entry) : Prop :=
  forall h d, (h = "" \/ exists x, h = sha256_hex x) ->
    marshal (e <| PrevHash := h |>) = Some d -> String.length d < MaxScanTokenSize.

Lemma write_in_step io n e d w d' w' :
  io_written io = None -> fits e -> writeEntry io n e (d, w) = (d', w') ->
  own_chains d -> in_step d w -> own_chains d' /\ in_step d' w'.
Proof.
  intros Hio Hf Hw Ho Hi. unfold writeEntry in Hw.
  destruct (if decide (format_date (Timestamp e) <> currentDay w) then _ else (d, w)) as [d1 w1] eqn:E1.
  assert (H1 : own_chains d1 /\ in_step d1 w1).
  { destruct (decide _); [|by simplify_eq]. destruct (openFileForDay _ _ d w) as [d2 w2] eqn:E2.
    destruct (open_in_step _ _ _ _ _ _ E2 Ho) as [Ho2 Hi2]. simplify_eq.
    pose proof (cleanup_shrinks io n d2). split; [by eapply own_chains_shrinks|by eapply in_step_shrinks]. }
  destruct H1 as [Ho1 Hi1]. destruct (currentFile w1) as [name|] eqn:Ec; [|by simplify_eq].
  destruct (marshal _) as [data|] eqn:Em; [|by simplify_eq]. rewrite Hio in Hw. simplify_eq.
  destruct (Hi1 name Ec) as (Hlog & Hform & Hlast).
  assert (Hgood : good_line data).
  { destruct (marshal_line _ _ Em) as (? & ? & ?). split_and!; [done..|]. by apply (Hf _ _ Hform Em). }
  pose proof (marshal_hash _ _ Em Hform) as Hhash. cbn in Hhash.
  assert (Happ : forall c ds, d1 !! name = Some (Some c) -> own_chain c ds ->
    own_chain (c +:+ (data +:+ nl)) (ds ++ [data])).
  { intros c ds Hl Hown. pose proof (Hlast _ _ Hl Hown) as Hp. destruct Hown as (-> & Hg & Hch).
    split_and!; [by rewrite unlines_snoc|by apply Forall_app; split; [|apply Forall_singleton]|].
    apply chained_snoc; [done|]. by rewrite <- Hp. }
  unfold append_to. destruct (d1 !! name) as [[c|]|] eqn:El.
  - destruct (Ho1 _ _ El Hlog) as [ds Hown]. pose proof (Happ _ _ eq_refl Hown) as Hnew. split.
    + intros m c'. destruct (decide (m = name)) as [->|Hne].
      * rewrite lookup_insert_eq. intros [= <-] _. by eexists.
      * rewrite lookup_insert_ne by done. apply Ho1.
    + intros m [= <-]. split_and!; [done|right; by eexists|]. intros c' ds'. rewrite lookup_insert_eq.
      intros [= <-] Hown'. destruct Hnew as (E & Hg & _), Hown' as (E' & Hg' & _).
      rewrite (unlines_inj ds' (ds ++ [data])) by congruence. unfold last_hash. by rewrite last_snoc.
  - split; [done|]. intros m [= <-]. split_and!; [done|right; by eexists|]. intros; congruence.
  - split; [done|]. intros m [= <-]. split_and!; [done|right; by eexists|]. intros; congruence.
Qed.

(** *** Sessions of the writer *)

(** Every call writes its line whole, and a line the scanner can read. *)
Definition complete (es : list (IO * Entry)) : Prop :=
  Forall (fun p : IO * Entry => io_written p.1 = None /\ fits p.2) es.

Definition run_sessions (maxFiles : nat) (ss : list (list (IO * Entry))) (d : Dir) : Dir :=
  fold_left (fun d es => (write_all maxFiles es (d, new_writer)).1) ss d.

Lemma write_all_in_step n es d w :
  complete es -> own_chains d -> in_step d w ->
  own_chains (write_all n es (d, w)).1 /\ in_step (write_all n es (d, w)).1 (write_all n es (d, w)).2.
Proof.
  intros Hc. revert d w. induction Hc as [|[io e] es [Hio Hf] _ IH]; intros d w Ho Hi; [done|].
  unfold write_all in *. cbn [fold_left fst snd] in *. destruct (writeEntry io n e (d, w)) as [d' w'] eqn:E.
  eapply write_in_step in E as [Ho' Hi']; [|done..]. by apply IH.
Qed.

Lemma sessions_own_chains n ss d : Forall complete ss -> own_chains d -> own_chains (run_sessions n ss d).
Proof.
  intros Hs. revert d. induction Hs as [|es ss Hes _ IH]; intros d Ho; [done|]. cbn. apply IH.
  apply write_all_in_step; [done..|]. intros name; discriminate.
Qed.

Lemma own_chains_empty : own_chains ∅.
Proof. intros name content. by rewrite lookup_empty. Qed.

Lemma own_chain_verifies content ds : own_chain content ds -> VerifyChainForFile content = mkChainResult true (length ds) 0 None.
Proof. intros (-> & Hg & Hc). unfold VerifyChainForFile. by rewrite verifyFile_chained. Qed.

(** *** The directory as one chain *)

Lemma log_files_elem name d : name ∈ logFilesSorted d -> is_log_file name = true /\ exists c, d !! name = Some (Some c).
Proof.
  unfold logFilesSorted. rewrite elem_of_sort_strings, list_elem_of_omap.
  intros ([k [c|]] & Hin%elem_of_map_to_list & Hf); [|done]. simpl in Hf.
  destruct (is_log_file k) eqn:E; [|done]. injection Hf as <-. split; [done|by eexists].
Qed.

Definition content_of (d : Dir) (f : string) : string := default "" (mjoin (d !! f)).

(** The log files with something in them. *)
Definition used_files (d : Dir) (files : list string) : list string := filter (fun f => content_of d f <> "") files.

Lemma unlines_nil ds : Forall good_line ds -> unlines ds = "" -> ds = [].
Proof. intros H E. apply (unlines_inj ds []); [done|by constructor|done]. Qed.

Lemma verifyFile_restart n prev d ds :
  Forall good_line (d :: ds) -> chained "" (d :: ds) -> prev <> "" ->
  exists n' h e, verifyFile (unlines (d :: ds)) prev n = (n', h, Some e).
Proof.
  intros Hg [Hu _] Hp. unfold verifyFile. rewrite scan_unlines by done. cbn [verify_lines].
  apply Forall_cons in Hg as [[Hd _] _]. rewrite decide_False by done.
  destruct (unmarshal d) as [e|]; [|done]. injection Hu as Hu. rewrite Hu, decide_True by done.
  by do 3 eexists.
Qed.

Lemma verify_files_iff d files prev n :
  (forall f, f ∈ files -> exists ds, own_chain (content_of d f) ds) ->
  Valid (verify_files d files prev n) = true <->
  length (used_files d files) <= (if decide (prev = "") then 1 else 0).
Proof.
  revert prev n. induction files as [|f files IH]; intros prev n Hown; cbn [verify_files].
  { split; [|done]. intros _. unfold used_files. rewrite filter_nil. simpl. lia. }
  destruct (Hown f) as (ds & Hc & Hg & Hch); [by left|].
  assert (Hrest : forall g, g ∈ files -> exists ds, own_chain (content_of d g) ds) by (intros; apply Hown; by right).
  fold (content_of d f). unfold used_files. rewrite Hc. destruct ds as [|l ds].
  - change (verifyFile (unlines []) prev n) with (n, prev, @None ChainError).
    rewrite filter_cons_False by (by rewrite Hc; intros H). by apply IH.
  - rewrite filter_cons_True by (rewrite Hc; by destruct l). cbn [length].
    destruct (decide (prev = "")) as [->|Hp].
    + rewrite verifyFile_chained by done. rewrite IH by done. fold (used_files d files).
      rewrite decide_False; [lia|]. unfold last_hash. destruct (last (l :: ds)) eqn:E; [apply sha256_digits|].
      by apply last_None in E.
    + destruct (verifyFile_restart n prev l ds) as (n' & h & e & ->); [done..|]. simpl. split; [done|lia].
Qed.

(** whatever entries are logged, in any number of sessions and with any
    files that cannot be opened or removed, as long as writes are complete: every
    file of the log verifies alone; but the log verifies as a whole only when at
    most one of its files has entries, because each file starts a chain of its
    own and the verification of the directory expects one chain. *)
Theorem log_verification maxFiles ss :
  Forall complete ss ->
  let d := run_sessions maxFiles ss ∅ in
  (forall name content, d !! name = Some (Some content) -> is_log_file name = true ->
     Valid (VerifyChainForFile content) = true) /\
  (Valid (VerifyChain d) = true <-> length (used_files d (logFilesSorted d)) <= 1).
Proof.
  intros Hs d. assert (Ho : own_chains d) by (apply sessions_own_chains; [done|apply own_chains_empty]). split.
  - intros name content Hl Hlog. destruct (Ho _ _ Hl Hlog) as [ds Hd]. by rewrite (own_chain_verifies _ _ Hd).
  - apply verify_files_iff. intros f [Hlog [c Hl]]%log_files_elem. unfold content_of. rewrite Hl. by apply (Ho f).
Qed.

(** *** Tampering *)

Lemma verify_lines_inv n prev lines n' h :
  verify_lines n prev lines = (n', h, None) -> chained prev (non_empty lines).
Proof.
  revert n prev. induction lines as [|l lines IH]; intros n prev; [done|]. cbn [verify_lines].
  unfold non_empty. destruct (decide (l = "")) as [->|Hl].
  { rewrite filter_cons_False by (by intros H). apply IH. }
  rewrite filter_cons_True by done. fold (non_empty lines).
  destruct (unmarshal l) as [e|] eqn:E; [|done]. destruct (decide _) as [|Hp%dec_stable]; [done|].
  intros Hv. cbn [chained]. rewrite E. split; [by rewrite <- Hp|by eapply IH].
Qed.

Lemma chained_app_last prev ds d : chained prev (ds ++ [d]) ->
  chained prev ds /\ PrevHash <$> unmarshal d = Some (last_hash prev ds).
Proof.
  revert prev. induction ds as [|d' ds IH]; intros prev; cbn [app chained]; [by intros [? _]|].
  intros [Hd Hc]. apply IH in Hc as [Hc Hl]. by rewrite last_hash_cons.
Qed.

Definition collision (ds ds' : list string) : Prop :=
  exists x y, x ∈ ds /\ y ∈ ds' /\ x <> y /\ sha256_hex x = sha256_hex y.

Lemma collision_app ds ds' e e' : collision ds ds' -> collision (ds ++ e) (ds' ++ e').
Proof. intros (x & y & Hx & Hy & H). exists x, y. rewrite !elem_of_app. auto. Qed.

Lemma same_last_hash ds ds' :
  chained "" ds -> chained "" ds' -> last_hash "" ds = last_hash "" ds' -> ds = ds' \/ collision ds ds'.
Proof.
  revert ds'. induction ds as [|d ds IH] using rev_ind; intros ds' Hc Hc' Hl.
  - destruct ds' as [|d' ds' _] using rev_ind; [by left|]. unfold last_hash in Hl. rewrite last_snoc in Hl.
    by apply symmetry, sha256_digits in Hl.
  - destruct ds' as [|d' ds' _] using rev_ind.
    { unfold last_hash in Hl. rewrite last_snoc in Hl. by apply sha256_digits in Hl. }
    unfold last_hash in Hl. rewrite !last_snoc in Hl. destruct (decide (d = d')) as [->|Hne].
    + apply chained_app_last in Hc as [Hc Hp], Hc' as [Hc' Hp'].
      destruct (IH ds' Hc Hc') as [->|Hcol]; [congruence|by left|right; by apply collision_app].
    + right. exists d, d'. rewrite !elem_of_app. split_and!; [right; by left..|done|done].
Qed.

Definition log_lines (content : string) : list string := non_empty (scan_file content).1.

Lemma verified_chained content : Valid (VerifyChainForFile content) = true -> chained "" (log_lines content).
Proof.
  unfold VerifyChainForFile, verifyFile, log_lines. destruct (scan_file content) as [lines err]. simpl.
  destruct (verify_lines 0 "" lines) as [[n h] [e|]] eqn:E; [done|]. intros _. by eapply verify_lines_inv.
Qed.

(** C25: a chain is tamper-evident: of two files that verify and end with the same
    line, either all lines are the same, or the files hold two different lines
    with one hash. *)
Theorem chain_tamper_evident content content' :
  Valid (VerifyChainForFile content) = true -> Valid (VerifyChainForFile content') = true ->
  last (log_lines content) = last (log_lines content') ->
  log_lines content = log_lines content' \/ collision (log_lines content) (log_lines content').
Proof.
  intros H%verified_chained H'%verified_chained Hl. apply same_last_hash; [done..|].
  unfold last_hash. by rewrite Hl.
Qed.
End chains.

(** *** Queries *)

Section queries.
Context {C : Codec} (now : Z) (o : QueryOptions).

(** The entries of the files, the newest first. *)
Definition entries_of (d : Dir) (f : string) : list Entry := (readFile (content_of d f)).1.
Definition newest_first (d : Dir) (files : list string) : list Entry :=
  concat (map (fun f => rev (entries_of d f)) files).

Definition limited (l : list Entry) : list Entry := if (0 <? Limit o)%Z then take (Z.to_nat (Limit o)) l else l.
Definition full (l : list Entry) : bool := (0 <? Limit o)%Z && (Limit o <=? Z.of_nat (length l))%Z.
Notation kept := (List.filter (query_keeps now o)).

Lemma limited_full l l' : full l = true -> limited (l ++ l') = limited l.
Proof.
  unfold full, limited. intros [-> H]%andb_true_iff. apply Z.leb_le in H. apply take_app_le. lia.
Qed.

Lemma limited_room l : full l = false -> limited l = l.
Proof.
  unfold full, limited. destruct (0 <? Limit o)%Z; [|done]. cbn [andb]. intros H%Z.leb_gt. apply take_ge. lia.
Qed.

Lemma limited_exact l e : full l = false -> full (l ++ [e]) = true -> limited (l ++ [e]) = l ++ [e].
Proof.
  unfold full, limited. destruct (0 <? Limit o)%Z eqn:E; [|done]. cbn [andb]. intros H%Z.leb_gt _.
  apply take_ge. rewrite length_app. simpl. lia.
Qed.

Lemma query_entries_spec es r :
  full r = false ->
  exists r' b, query_entries now o es r = (r', b) /\ r' = limited (r ++ kept es) /\ b = full (r ++ kept es) /\
    (b = false -> r' = r ++ kept es).
Proof.
  revert r. induction es as [|e es IH]; intros r Hr; cbn [query_entries List.filter].
  - exists r, false. rewrite app_nil_r, Hr, limited_room by done. by split_and!.
  - destruct (query_keeps now o e); [|by apply IH]. fold (full (r ++ [e])).
    destruct (full (r ++ [e])) eqn:Ef.
    + exists (r ++ [e]), true. replace (r ++ e :: kept es) with ((r ++ [e]) ++ kept es) by by rewrite <- app_assoc.
      rewrite limited_full by done. split_and!; [done|by rewrite limited_exact| |done].
      unfold full in *. rewrite length_app. apply andb_true_iff in Ef as [-> Ef%Z.leb_le]. symmetry.
      apply Z.leb_le. lia.
    + destruct (IH (r ++ [e]) Ef) as (r' & b & H1 & H2 & H3 & H4). exists r', b.
      by rewrite <- app_assoc in H2, H3, H4.
Qed.

(** No entry of a file, or of an older one, is from after the day the file is
    named for. *)
Definition dated (d : Dir) (files : list string) : Prop :=
  forall pre f post day e, files = pre ++ f :: post -> parse_date (dayFromFileName f) = Some day ->
    e ∈ newest_first d (f :: post) -> (at_ns (Timestamp e) <= day + ns_per_day - 1)%Z.

Lemma old_files_dropped d f post :
  dated d (f :: post) -> too_old now o f = true -> kept (newest_first d (f :: post)) = [].
Proof.
  intros Hd Ho. unfold too_old in Ho. apply andb_true_iff in Ho as [Hs Ho].
  destruct (parse_date (dayFromFileName f)) as [day|] eqn:Ep; [|done]. apply Z.ltb_lt in Ho.
  assert (H : Forall (fun e => query_keeps now o e = false) (newest_first d (f :: post))).
  { apply Forall_forall. intros e He. pose proof (Hd [] f post day e eq_refl Ep He) as Hle.
    unfold query_keeps. rewrite Hs. replace (at_ns (Timestamp e) <? cutoff now o)%Z with true; [done|].
    symmetry. apply Z.ltb_lt. lia. }
  induction H as [|e l He _ IH]; [done|]. cbn. by rewrite He.
Qed.

Lemma query_files_spec d files r :
  (forall f, f ∈ files -> (readFile (content_of d f)).2 = false) -> dated d files -> full r = false ->
  query_files now o d files r = Some (limited (r ++ kept (newest_first d files))).
Proof.
  revert r. induction files as [|f files IH]; intros r Hok Hd Hr; cbn [query_files].
  { cbn. by rewrite app_nil_r, limited_room. }
  destruct (too_old now o f) eqn:Eo.
  { rewrite old_files_dropped by done. by rewrite app_nil_r, limited_room. }
  fold (content_of d f). specialize (Hok f ltac:(by left)) as Hf.
  destruct (readFile (content_of d f)) as [es err] eqn:Er. simpl in Hf. subst err.
  assert (Hn : newest_first d (f :: files) = rev es ++ newest_first d files).
  { unfold newest_first, entries_of. cbn [map concat]. by rewrite Er. }
  rewrite Hn, List.filter_app, app_assoc.
  destruct (query_entries_spec (rev es) r Hr) as (r' & b & -> & -> & -> & Hb).
  destruct (full (r ++ kept (rev es))) eqn:Ef; [by rewrite (limited_full (r ++ kept (rev es)))|].
  rewrite limited_room by done. apply IH; [intros g Hg; apply Hok; by right| |done].
  intros pre g post day e -> Hp He. by apply (Hd (f :: pre) g post day e).
Qed.

(** when every file can be read and no entry is from after the end, in UTC,
    of the day its file is named for, a query answers with exactly the entries
    that pass its filters, the newest first, cut at the limit. *)
Theorem query_spec d :
  (forall f, f ∈ logFilesSorted d -> (readFile (content_of d f)).2 = false) ->
  dated d (rev (logFilesSorted d)) -> (0 <= Limit o)%Z ->
  Query now o d = Some (limited (kept (newest_first d (rev (logFilesSorted d))))).
Proof.
  intros Hok Hd Hl. unfold Query. rewrite query_files_spec; [done| |done|].
  - intros f Hf. apply Hok. apply list_elem_of_In, in_rev, list_elem_of_In, Hf.
  - unfold full. destruct (0 <? Limit o)%Z eqn:E; [|done]. cbn. apply Z.ltb_lt in E. apply Z.leb_gt. lia.
Qed.
End queries.

(** ** A simulated codec and concrete runs *)

(** An entry is encoded as a brace and its hash, when that is short; the rest of
    it is [sample]. *)
Definition sim_codec (sample : Entry) : Codec := {|
  marshal e := if no_newline (PrevHash e) && negb (has_suffix ("{" +:+ PrevHash e) CR) &&
                  (String.length (PrevHash e) <? 10)
               then Some ("{" +:+ PrevHash e) else None;
  unmarshal s := match s with String _ h => Some (sample <| PrevHash := h |>) | "" => None end;
  sha256_hex s := if Nat.even (String.length s) then "a" else "bb"
|}.

Lemma sim_codec_laws sample : @CodecLaws (sim_codec sample).
Proof.
  split; simpl.
  - intros e d. destruct (no_newline (PrevHash e)) eqn:E1; [|done]. destruct (has_suffix _ CR) eqn:E2; [done|].
    destruct (_ <? _); [|done]. intros [= <-]. by split_and!.
  - intros e d. destruct (_ && _); [|done]. by intros [= <-].
  - intros x. by destruct (Nat.even _).
Qed.

Lemma sim_fits sample e : @fits (sim_codec sample) e.
Proof.
  intros h d _. cbn [marshal sim_codec]. destruct (_ && _) eqn:E; [|done]. intros [= <-].
  apply andb_true_iff in E as [_ E%Nat.ltb_lt]. change (PrevHash (e <| PrevHash := h |>)) with h in *.
  rewrite string_app_length. change (String.length "{") with 1. unfold MaxScanTokenSize. lia.
Qed.

Definition sample_at (ns zone_ : Z) : Entry :=
  mkEntry (mkStamp ns zone_) "task.start" "" 0 "" 0 "" "" "" [] "" "" "".

Definition sim_io : IO := mkIO true (fun _ => true) None.

(** 2024-02-29 and the day after. *)
Definition day1 : Entry := sample_at (19782 * ns_per_day + 3600 * ns_per_second) 0.
Definition day2 : Entry := sample_at (19783 * ns_per_day + 3600 * ns_per_second) 0.

Definition sim_sessions : list (list (IO * Entry)) := [[(sim_io, day1); (sim_io, day1)]; [(sim_io, day1); (sim_io, day2)]].

Lemma log_verification_witness :
  let d := @run_sessions (sim_codec day1) 30 sim_sessions ∅ in
  (forall name content, d !! name = Some (Some content) -> is_log_file name = true ->
     Valid (@VerifyChainForFile (sim_codec day1) content) = true) /\
  (Valid (@VerifyChain (sim_codec day1) d) = true <-> length (used_files d (logFilesSorted d)) <= 1).
Proof.
  apply (@log_verification (sim_codec day1) (sim_codec_laws day1) 30 sim_sessions).
  unfold sim_sessions. repeat apply Forall_cons_2; try apply Forall_nil_2; (split; [reflexivity|apply sim_fits]).
Defined.

(** The log of that witness has three lines on one day and one on the next, and
    the verification of the directory finds the fourth line broken. *)
Lemma two_days_break_the_log :
  let d := @run_sessions (sim_codec day1) 30 sim_sessions ∅ in
  d !! "activity-2024-02-29.jsonl" = Some (Some ("{" +:+ nl +:+ "{bb" +:+ nl +:+ "{bb" +:+ nl)) /\
  @VerifyChain (sim_codec day1) d = mkChainResult false 4 4 (Some (Broken 4 "bb" "")).
Proof. by vm_compute. Qed.

(** Two files that verify and end alike, with a collision of the simulated hash. *)
Definition forged : string := "x" +:+ nl +:+ "{bb" +:+ nl.
Definition genuine : string := "{" +:+ nl +:+ "{bb" +:+ nl.

Lemma chain_tamper_evident_witness :
  log_lines genuine = log_lines forged \/ @collision (sim_codec day1) (log_lines genuine) (log_lines forged).
Proof. apply (@chain_tamper_evident (sim_codec day1) (sim_codec_laws day1) genuine forged); by vm_compute. Defined.

(** An hour before midnight in a zone eight hours behind UTC, and half an hour
    later: the query of the last hour does not find the entry. *)
Definition west : Entry := sample_at (19783 * ns_per_day + 25200 * ns_per_second) (-28800).

Lemma query_skips_recent_file :
  let d := @run_sessions (sim_codec west) 30 [[(sim_io, west)]] ∅ in
  let now := (at_ns (Timestamp west) + 1800 * ns_per_second)%Z in
  let o := mkQuery (3600 * ns_per_second) "" false 0 in
  query_keeps now o west = true /\
  @read_all (sim_codec west) d (logFilesSorted d) = Some [[west]] /\
  @Query (sim_codec west) now o d = Some [].
Proof. by vm_compute. Qed.

Lemma query_spec_witness :
  let d := @run_sessions (sim_codec day1) 30 [[(sim_io, day1); (sim_io, day1)]] ∅ in
  let now := (at_ns (Timestamp day1) + 1800 * ns_per_second)%Z in
  let o := mkQuery (3600 * ns_per_second) "stop | start" false 1 in
  @Query (sim_codec day1) now o d =
    Some (limited o (List.filter (query_keeps now o) (@newest_first (sim_codec day1) d (rev (logFilesSorted d))))).
Proof.
  apply (@query_spec (sim_codec day1)).
  - intros f Hf. apply list_elem_of_In in Hf. vm_compute in Hf. destruct Hf as [<-|[]]. by vm_compute.
  - assert (E : rev (logFilesSorted (@run_sessions (sim_codec day1) 30 [[(sim_io, day1); (sim_io, day1)]] ∅)) =
                ["activity-2024-02-29.jsonl"]) by by vm_compute.
    rewrite E. intros pre f post day e Ef Hp He. destruct pre as [|? [|? ?]]; [|discriminate Ef..].
    injection Ef as <- <-.
    apply list_elem_of_In in He. vm_compute in Hp, He. injection Hp as <-.
    by destruct He as [<-|[<-|[]]].
  - by vm_compute.
Defined.
