(* ===== verification/SettingsData.v ===== *)
(** * The settings

    The structs of [settings/types.go] and [settings/types_providers.go].  The
    fields of a struct carry its abbreviation, since many structs share field
    names.  A pointer to a bool is an option, a nil map or slice an empty one, an
    [int] an integer. *)

From S2P Require Import Prelude Floats.

(** Its state that persists across sessions. *)
Record UISettings := mkUISettings {
  ui_OnboardingDismissed : bool
}.
#[export] Instance eta_UISettings : Eta UISettings := fun r =>
  mkUISettings (ui_OnboardingDismissed r).
Definition zero_UISettings : UISettings :=
  mkUISettings false.

Record TUISettings := mkTUISettings {
  tui_Layout : string
}.
#[export] Instance eta_TUISettings : Eta TUISettings := fun r =>
  mkTUISettings (tui_Layout r).
Definition zero_TUISettings : TUISettings :=
  mkTUISettings "".

Record ClaudeMCPAgentConfig := mkClaudeMCPAgentConfig {
  mcp_Model : string;
  mcp_PermissionMode : string;
  mcp_ExtraArgs : list string;
  mcp_SystemPromptOverride : string;
  mcp_MCPServerCommand : list string;
  mcp_StrictMCPConfig : option bool
}.
#[export] Instance eta_ClaudeMCPAgentConfig : Eta ClaudeMCPAgentConfig := fun r =>
  mkClaudeMCPAgentConfig (mcp_Model r) (mcp_PermissionMode r) (mcp_ExtraArgs r)
    (mcp_SystemPromptOverride r) (mcp_MCPServerCommand r) (mcp_StrictMCPConfig r).
Definition zero_ClaudeMCPAgentConfig : ClaudeMCPAgentConfig :=
  mkClaudeMCPAgentConfig "" "" [] "" [] None.

Record ConsensusConfig := mkConsensusConfig {
  cc_Enabled : bool;
  cc_Agents : list string;
  cc_MinAgreement : Z
}.

Record ResponseCacheSettings := mkResponseCacheSettings {
  rc_Enabled : bool;
  rc_MaxEntries : Z;
  rc_TTLHours : Z
}.

Record CustomAgent := mkCustomAgent {
  ca_Extends : string;
  ca_Description : string;
  ca_Args : list string;
  ca_Env : gmap string string
}.
#[export] Instance eta_CustomAgent : Eta CustomAgent := fun r =>
  mkCustomAgent (ca_Extends r) (ca_Description r) (ca_Args r) (ca_Env r).
Definition zero_CustomAgent : CustomAgent :=
  mkCustomAgent "" "" [] ∅.

(** [OpenAIAgentConfig] and [AnthropicAgentConfig], which have the same fields. *)
Record APIAgentConfig := mkAPIAgentConfig {
  api_APIKey : string;
  api_BaseURL : string;
  api_Model : string
}.
#[export] Instance eta_APIAgentConfig : Eta APIAgentConfig := fun r =>
  mkAPIAgentConfig (api_APIKey r) (api_BaseURL r) (api_Model r).
Definition zero_APIAgentConfig : APIAgentConfig :=
  mkAPIAgentConfig "" "" "".

Record OllamaAgentConfig := mkOllamaAgentConfig {
  ol_BaseURL : string;
  ol_Model : string
}.
#[export] Instance eta_OllamaAgentConfig : Eta OllamaAgentConfig := fun r =>
  mkOllamaAgentConfig (ol_BaseURL r) (ol_Model r).
Definition zero_OllamaAgentConfig : OllamaAgentConfig :=
  mkOllamaAgentConfig "" "".

Record AgentSettings := mkAgentSettings {
  ag_Default : string;
  ag_Allowed : list string;
  ag_Strategy : string;
  ag_PhaseStrategy : gmap string string;
  ag_PhaseAgent : gmap string string;
  ag_Consensus : option ConsensusConfig;
  ag_ResponseCache : option ResponseCacheSettings;
  ag_TokenBudget : Z;
  ag_TaskTokenBudget : Z;
  ag_OpenAI : APIAgentConfig;
  ag_Anthropic : APIAgentConfig;
  ag_Ollama : OllamaAgentConfig;
  ag_ClaudeMCP : ClaudeMCPAgentConfig
}.
#[export] Instance eta_AgentSettings : Eta AgentSettings := fun r =>
  mkAgentSettings (ag_Default r) (ag_Allowed r) (ag_Strategy r) (ag_PhaseStrategy r) (ag_PhaseAgent r)
    (ag_Consensus r) (ag_ResponseCache r) (ag_TokenBudget r) (ag_TaskTokenBudget r) (ag_OpenAI r)
    (ag_Anthropic r) (ag_Ollama r) (ag_ClaudeMCP r).
Definition zero_AgentSettings : AgentSettings :=
  mkAgentSettings "" [] "" ∅ ∅ None None 0%Z 0%Z zero_APIAgentConfig zero_APIAgentConfig
    zero_OllamaAgentConfig zero_ClaudeMCPAgentConfig.

Record GitHubConfig := mkGitHubConfig {
  gh_Token : string;
  gh_Owner : string;
  gh_AllowTicketComment : bool;
  gh_StatusSync : bool;
  gh_StatusMapping : gmap string string
}.
#[export] Instance eta_GitHubConfig : Eta GitHubConfig := fun r =>
  mkGitHubConfig (gh_Token r) (gh_Owner r) (gh_AllowTicketComment r) (gh_StatusSync r)
    (gh_StatusMapping r).
Definition zero_GitHubConfig : GitHubConfig :=
  mkGitHubConfig "" "" false false ∅.

Record GitLabConfig := mkGitLabConfig {
  gl_Token : string;
  gl_BaseURL : string;
  gl_AllowTicketComment : bool;
  gl_StatusSync : bool;
  gl_StatusMapping : gmap string string
}.
#[export] Instance eta_GitLabConfig : Eta GitLabConfig := fun r =>
  mkGitLabConfig (gl_Token r) (gl_BaseURL r) (gl_AllowTicketComment r) (gl_StatusSync r)
    (gl_StatusMapping r).
Definition zero_GitLabConfig : GitLabConfig :=
  mkGitLabConfig "" "" false false ∅.

Record WrikeConfig := mkWrikeConfig {
  wr_Token : string;
  wr_IncludeParentContext : bool;
  wr_IncludeSiblingContext : bool;
  wr_AllowTicketComment : bool
}.
#[export] Instance eta_WrikeConfig : Eta WrikeConfig := fun r =>
  mkWrikeConfig (wr_Token r) (wr_IncludeParentContext r) (wr_IncludeSiblingContext r)
    (wr_AllowTicketComment r).
Definition zero_WrikeConfig : WrikeConfig :=
  mkWrikeConfig "" false false false.

Record LinearConfig := mkLinearConfig {
  li_Token : string;
  li_Team : string;
  li_IncludeParentContext : bool;
  li_IncludeSiblingContext : bool;
  li_AllowTicketComment : bool;
  li_StatusSync : bool;
  li_StatusMapping : gmap string string
}.
#[export] Instance eta_LinearConfig : Eta LinearConfig := fun r =>
  mkLinearConfig (li_Token r) (li_Team r) (li_IncludeParentContext r) (li_IncludeSiblingContext r)
    (li_AllowTicketComment r) (li_StatusSync r) (li_StatusMapping r).
Definition zero_LinearConfig : LinearConfig :=
  mkLinearConfig "" "" false false false false ∅.

Record JiraConfig := mkJiraConfig {
  ji_Token : string;
  ji_Email : string;
  ji_BaseURL : string;
  ji_AllowTicketComment : bool;
  ji_StatusSync : bool;
  ji_StatusMapping : gmap string string
}.
#[export] Instance eta_JiraConfig : Eta JiraConfig := fun r =>
  mkJiraConfig (ji_Token r) (ji_Email r) (ji_BaseURL r) (ji_AllowTicketComment r) (ji_StatusSync r)
    (ji_StatusMapping r).
Definition zero_JiraConfig : JiraConfig :=
  mkJiraConfig "" "" "" false false ∅.

Record AzureDevOpsConfig := mkAzureDevOpsConfig {
  ado_Token : string;
  ado_BaseURL : string;
  ado_Organization : string;
  ado_Project : string;
  ado_Repository : string;
  ado_AllowTicketComment : bool;
  ado_StatusSync : bool;
  ado_StatusMapping : gmap string string
}.
#[export] Instance eta_AzureDevOpsConfig : Eta AzureDevOpsConfig := fun r =>
  mkAzureDevOpsConfig (ado_Token r) (ado_BaseURL r) (ado_Organization r) (ado_Project r)
    (ado_Repository r) (ado_AllowTicketComment r) (ado_StatusSync r) (ado_StatusMapping r).
Definition zero_AzureDevOpsConfig : AzureDevOpsConfig :=
  mkAzureDevOpsConfig "" "" "" "" "" false false ∅.

Record ProviderSettings := mkProviderSettings {
  pr_Default : string;
  pr_GitHub : GitHubConfig;
  pr_GitLab : GitLabConfig;
  pr_Wrike : WrikeConfig;
  pr_Linear : LinearConfig;
  pr_Jira : JiraConfig;
  pr_AzureDevOps : AzureDevOpsConfig
}.
#[export] Instance eta_ProviderSettings : Eta ProviderSettings := fun r =>
  mkProviderSettings (pr_Default r) (pr_GitHub r) (pr_GitLab r) (pr_Wrike r) (pr_Linear r) (pr_Jira r)
    (pr_AzureDevOps r).
Definition zero_ProviderSettings : ProviderSettings :=
  mkProviderSettings "" zero_GitHubConfig zero_GitLabConfig zero_WrikeConfig zero_LinearConfig
    zero_JiraConfig zero_AzureDevOpsConfig.

Record PRSection := mkPRSection {
  sec_Title : string;
  sec_Content : string
}.

Record ProvisionSettings := mkProvisionSettings {
  pv_Enabled : option bool;
  pv_CopyPatterns : list string;
  pv_SymlinkPatterns : list string;
  pv_SetupCommands : list string
}.
#[export] Instance eta_ProvisionSettings : Eta ProvisionSettings := fun r =>
  mkProvisionSettings (pv_Enabled r) (pv_CopyPatterns r) (pv_SymlinkPatterns r) (pv_SetupCommands r).
Definition zero_ProvisionSettings : ProvisionSettings :=
  mkProvisionSettings None [] [] [].

Record GitSettings := mkGitSettings {
  git_BaseBranch : string;
  git_BranchPattern : string;
  git_CommitPrefix : string;
  git_CommitPattern : string;
  git_PRTitlePattern : string;
  git_PRRequiredSections : list string;
  git_BranchValidationPattern : string;
  git_CreateBranch : option bool;
  git_AutoCommit : option bool;
  git_SignCommits : option bool;
  git_AllowPRComment : option bool;
  git_PRCustomSections : list PRSection;
  git_Provision : ProvisionSettings
}.
#[export] Instance eta_GitSettings : Eta GitSettings := fun r =>
  mkGitSettings (git_BaseBranch r) (git_BranchPattern r) (git_CommitPrefix r) (git_CommitPattern r)
    (git_PRTitlePattern r) (git_PRRequiredSections r) (git_BranchValidationPattern r) (git_CreateBranch r)
    (git_AutoCommit r) (git_SignCommits r) (git_AllowPRComment r) (git_PRCustomSections r)
    (git_Provision r).
Definition zero_GitSettings : GitSettings :=
  mkGitSettings "" "" "" "" "" [] "" None None None None [] zero_ProvisionSettings.

Record RecordingSettings := mkRecordingSettings {
  rec_Enabled : bool;
  rec_Dir : string
}.
#[export] Instance eta_RecordingSettings : Eta RecordingSettings := fun r =>
  mkRecordingSettings (rec_Enabled r) (rec_Dir r).
Definition zero_RecordingSettings : RecordingSettings :=
  mkRecordingSettings false "".

Record ActivityLogSettings := mkActivityLogSettings {
  al_Enabled : bool;
  al_MaxFiles : Z;
  al_ForwardURL : string;
  al_ForwardAuth : string
}.
#[export] Instance eta_ActivityLogSettings : Eta ActivityLogSettings := fun r =>
  mkActivityLogSettings (al_Enabled r) (al_MaxFiles r) (al_ForwardURL r) (al_ForwardAuth r).
Definition zero_ActivityLogSettings : ActivityLogSettings :=
  mkActivityLogSettings false 0%Z "" "".

Record MetricsHistorySettings := mkMetricsHistorySettings {
  mh_Enabled : bool;
  mh_IntervalMin : Z;
  mh_RetentionDays : Z
}.
#[export] Instance eta_MetricsHistorySettings : Eta MetricsHistorySettings := fun r =>
  mkMetricsHistorySettings (mh_Enabled r) (mh_IntervalMin r) (mh_RetentionDays r).
Definition zero_MetricsHistorySettings : MetricsHistorySettings :=
  mkMetricsHistorySettings false 0%Z 0%Z.

Record StorageSettings := mkStorageSettings {
  sto_SaveInProject : option bool;
  sto_OutcomeLinking : option bool;
  sto_SpecOutputPath : string;
  sto_PlanOutputPath : string;
  sto_CommitSpecs : option bool;
  sto_ChangelogPath : string;
  sto_Recording : RecordingSettings;
  sto_ActivityLog : ActivityLogSettings;
  sto_MetricsHistory : MetricsHistorySettings
}.
#[export] Instance eta_StorageSettings : Eta StorageSettings := fun r =>
  mkStorageSettings (sto_SaveInProject r) (sto_OutcomeLinking r) (sto_SpecOutputPath r)
    (sto_PlanOutputPath r) (sto_CommitSpecs r) (sto_ChangelogPath r) (sto_Recording r) (sto_ActivityLog r)
    (sto_MetricsHistory r).
Definition zero_StorageSettings : StorageSettings :=
  mkStorageSettings None None "" "" None "" zero_RecordingSettings zero_ActivityLogSettings
    zero_MetricsHistorySettings.

Record ExternalReviewConfig := mkExternalReviewConfig {
  er_Mode : string;
  er_Command : string
}.
#[export] Instance eta_ExternalReviewConfig : Eta ExternalReviewConfig := fun r =>
  mkExternalReviewConfig (er_Mode r) (er_Command r).
Definition zero_ExternalReviewConfig : ExternalReviewConfig :=
  mkExternalReviewConfig "" "".

Record RiskBasedApprovalSettings := mkRiskBasedApprovalSettings {
  rb_Enabled : bool;
  rb_AutoApproveThreshold : spec_float;
  rb_HighRiskThreshold : spec_float
}.

Record DocRequirement := mkDocRequirement {
  dr_Trigger : string;
  dr_Requires : string
}.

Record PolicySettings := mkPolicySettings {
  pol_RequiredPhases : list string;
  pol_SensitivePaths : list string;
  pol_MinSpecSections : Z;
  pol_RequireSecurityScan : bool;
  pol_ApprovalRequired : gmap string bool;
  pol_ReviewChecklist : list string;
  pol_RequireSignedCommits : bool;
  pol_DocRequirements : list DocRequirement;
  pol_RiskBasedApproval : option RiskBasedApprovalSettings
}.
#[export] Instance eta_PolicySettings : Eta PolicySettings := fun r =>
  mkPolicySettings (pol_RequiredPhases r) (pol_SensitivePaths r) (pol_MinSpecSections r)
    (pol_RequireSecurityScan r) (pol_ApprovalRequired r) (pol_ReviewChecklist r)
    (pol_RequireSignedCommits r) (pol_DocRequirements r) (pol_RiskBasedApproval r).
Definition zero_PolicySettings : PolicySettings :=
  mkPolicySettings [] [] 0%Z false ∅ [] false [] None.

Record RetrySettings := mkRetrySettings {
  re_MaxAttempts : Z;
  re_BackoffSeconds : Z
}.
#[export] Instance eta_RetrySettings : Eta RetrySettings := fun r =>
  mkRetrySettings (re_MaxAttempts r) (re_BackoffSeconds r).
Definition zero_RetrySettings : RetrySettings :=
  mkRetrySettings 0%Z 0%Z.

Record CISettings := mkCISettings {
  ci_WatchEnabled : bool;
  ci_PollIntervalSec : Z;
  ci_AutoFix : bool;
  ci_MaxFixAttempts : Z
}.
#[export] Instance eta_CISettings : Eta CISettings := fun r =>
  mkCISettings (ci_WatchEnabled r) (ci_PollIntervalSec r) (ci_AutoFix r) (ci_MaxFixAttempts r).
Definition zero_CISettings : CISettings :=
  mkCISettings false 0%Z false 0%Z.

Record TransitionHook := mkTransitionHook {
  th_Command : string;
  th_Description : string;
  th_Required : bool
}.

Record AdversarialReviewSettings := mkAdversarialReviewSettings {
  adv_Enabled : bool;
  adv_Personas : list string;
  adv_Agent : string;
  adv_BlockOnFindings : bool
}.

Record ForkingSettings := mkForkingSettings {
  fk_Enabled : bool;
  fk_MaxForks : Z
}.

Record TaskGroupSettings := mkTaskGroupSettings {
  tg_Enabled : bool;
  tg_SyncSubmit : bool
}.

Record GuardrailConfig := mkGuardrailConfig {
  gr_Pre : list string;
  gr_Post : list string
}.

Record FailureClassificationSettings := mkFailureClassificationSettings {
  fc_Enabled : bool;
  fc_FlakyRetries : Z;
  fc_HistoryWindow : Z
}.
#[export] Instance eta_FailureClassificationSettings : Eta FailureClassificationSettings := fun r =>
  mkFailureClassificationSettings (fc_Enabled r) (fc_FlakyRetries r) (fc_HistoryWindow r).
Definition zero_FailureClassificationSettings : FailureClassificationSettings :=
  mkFailureClassificationSettings false 0%Z 0%Z.

Record AutoFixSettings := mkAutoFixSettings {
  af_Enabled : bool;
  af_MaxAttempts : Z;
  af_Phases : list string
}.
#[export] Instance eta_AutoFixSettings : Eta AutoFixSettings := fun r =>
  mkAutoFixSettings (af_Enabled r) (af_MaxAttempts r) (af_Phases r).
Definition zero_AutoFixSettings : AutoFixSettings :=
  mkAutoFixSettings false 0%Z [].

Record WorkflowSettings := mkWorkflowSettings {
  wf_UseWorktreeIsolation : option bool;
  wf_AutoAdvance : option bool;
  wf_SkipPhases : list string;
  wf_ExternalReview : ExternalReviewConfig;
  wf_Policy : PolicySettings;
  wf_Retry : RetrySettings;
  wf_PhasePolicies : gmap string string;
  wf_CI : CISettings;
  wf_Hooks : gmap string (list TransitionHook);
  wf_HoldTheLine : option bool;
  wf_FailureClassification : FailureClassificationSettings;
  wf_AutoFix : AutoFixSettings;
  wf_ProgressEstimation : option bool;
  wf_PhaseGuardrails : gmap string GuardrailConfig;
  wf_AdversarialReview : option AdversarialReviewSettings;
  wf_Forking : option ForkingSettings;
  wf_TaskGroups : option TaskGroupSettings
}.
#[export] Instance eta_WorkflowSettings : Eta WorkflowSettings := fun r =>
  mkWorkflowSettings (wf_UseWorktreeIsolation r) (wf_AutoAdvance r) (wf_SkipPhases r)
    (wf_ExternalReview r) (wf_Policy r) (wf_Retry r) (wf_PhasePolicies r) (wf_CI r) (wf_Hooks r)
    (wf_HoldTheLine r) (wf_FailureClassification r) (wf_AutoFix r) (wf_ProgressEstimation r)
    (wf_PhaseGuardrails r) (wf_AdversarialReview r) (wf_Forking r) (wf_TaskGroups r).
Definition zero_WorkflowSettings : WorkflowSettings :=
  mkWorkflowSettings None None [] zero_ExternalReviewConfig zero_PolicySettings zero_RetrySettings ∅
    zero_CISettings ∅ None zero_FailureClassificationSettings zero_AutoFixSettings None ∅ None None None.

Record SecuritySettings := mkSecuritySettings {
  se_CanaryEnabled : bool;
  se_RedactionEnabled : option bool;
  se_RedactionExtra : list string
}.
#[export] Instance eta_SecuritySettings : Eta SecuritySettings := fun r =>
  mkSecuritySettings (se_CanaryEnabled r) (se_RedactionEnabled r) (se_RedactionExtra r).
Definition zero_SecuritySettings : SecuritySettings :=
  mkSecuritySettings false None [].

Record WatchdogSettings := mkWatchdogSettings {
  wd_Enabled : bool;
  wd_IntervalSec : Z;
  wd_WindowSize : Z;
  wd_ThresholdMB : Z
}.
#[export] Instance eta_WatchdogSettings : Eta WatchdogSettings := fun r =>
  mkWatchdogSettings (wd_Enabled r) (wd_IntervalSec r) (wd_WindowSize r) (wd_ThresholdMB r).
Definition zero_WatchdogSettings : WatchdogSettings :=
  mkWatchdogSettings false 0%Z 0%Z 0%Z.

Record WebhookEndpoint := mkWebhookEndpoint {
  wh_URL : string;
  wh_Format : string;
  wh_Events : list string
}.

Record NotifySettings := mkNotifySettings {
  no_Enabled : option bool;
  no_Silent : bool;
  no_Webhooks : list WebhookEndpoint;
  no_OnFailure : bool;
  no_Terminal : option bool;
  no_Desktop : bool;
  no_Events : list string
}.
#[export] Instance eta_NotifySettings : Eta NotifySettings := fun r =>
  mkNotifySettings (no_Enabled r) (no_Silent r) (no_Webhooks r) (no_OnFailure r) (no_Terminal r)
    (no_Desktop r) (no_Events r).
Definition zero_NotifySettings : NotifySettings :=
  mkNotifySettings None false [] false None false [].

Record WorkerSettings := mkWorkerSettings {
  wk_Max : Z
}.
#[export] Instance eta_WorkerSettings : Eta WorkerSettings := fun r =>
  mkWorkerSettings (wk_Max r).
Definition zero_WorkerSettings : WorkerSettings :=
  mkWorkerSettings 0%Z.

Record Settings := mkSettings {
  s_Version : Z;
  s_Preset : string;
  s_Identity : string;
  s_Agent : AgentSettings;
  s_Providers : ProviderSettings;
  s_Git : GitSettings;
  s_Workers : WorkerSettings;
  s_Storage : StorageSettings;
  s_Workflow : WorkflowSettings;
  s_Notify : NotifySettings;
  s_Watchdog : WatchdogSettings;
  s_Security : SecuritySettings;
  s_UI : UISettings;
  s_TUI : TUISettings;
  s_Environment : string;
  s_CustomAgents : gmap string CustomAgent
}.
#[export] Instance eta_Settings : Eta Settings := fun r =>
  mkSettings (s_Version r) (s_Preset r) (s_Identity r) (s_Agent r) (s_Providers r) (s_Git r) (s_Workers r)
    (s_Storage r) (s_Workflow r) (s_Notify r) (s_Watchdog r) (s_Security r) (s_UI r) (s_TUI r)
    (s_Environment r) (s_CustomAgents r).
Definition zero_Settings : Settings :=
  mkSettings 0%Z "" "" zero_AgentSettings zero_ProviderSettings zero_GitSettings zero_WorkerSettings
    zero_StorageSettings zero_WorkflowSettings zero_NotifySettings zero_WatchdogSettings
    zero_SecuritySettings zero_UISettings zero_TUISettings "" ∅.
(** [any], as the settings use it: what YAML, JSON and the readers of settings
    deliver.  A [map[string]any] is a list in the order of its range. *)
Inductive any :=
| ANil
| ABool (b : bool)
| AInt (n : Z)
| AFloat (f : spec_float)
| AString (s : string)
| AStrings (l : list string)
| AList (l : list any)
| AMap (m : list (string * any))
| AStringMap (m : gmap string string)
| ABoolMap (m : gmap string bool)
| AAgents (m : gmap string CustomAgent).

(** [BoolValue] *)
Definition BoolValue (p : option bool) (defaultVal : bool) : bool := default defaultVal p.

Definition ExternalReviewAsk : string := "ask".
Definition ExternalReviewAlways : string := "always".
Definition ExternalReviewNever : string := "never".

Definition ScopeGlobal : string := "global".
Definition ScopeProject : string := "project".
