(* ===== verification/SettingsMerge.v ===== *)
(** * Merging, defaults, presets and validation of settings

    Translates [Merge] (settings/storage_merge.go), [DefaultSettings]
    (defaults.go), [ApplyPreset] (presets.go), [Validate] (validate.go),
    [InjectEnvVars] (dotenv.go) and the merging part of [LoadEffective]
    (storage.go). *)

From S2P Require Import Prelude Floats SettingsData.

(** ** Merge

    [Merge] writes into [dst]; a field of [src] that is set wins.  The pointers,
    slices and maps that [dst] then shares with [src] are never written through. *)

Definition over (src dst : string) : string := if decide (src = "") then dst else src.
Definition over_list {A} (src dst : list A) : list A := match src with [] => dst | _ => src end.
Definition over_ptr {A} (src dst : option A) : option A := match src with Some _ => src | None => dst end.
Definition over_pos (src dst : Z) : Z := if (0 <? src)%Z then src else dst.
(** A plain bool can only be switched on. *)
Definition turn_on (src dst : bool) : bool := src || dst.
(** [maps.Copy] *)
Definition copy_map {V} (src dst : gmap string V) : gmap string V := src ∪ dst.

Definition mergeGitHubConfig (dst src : GitHubConfig) : GitHubConfig := {|
  gh_Token := over (gh_Token src) (gh_Token dst);
  gh_Owner := over (gh_Owner src) (gh_Owner dst);
  gh_AllowTicketComment := turn_on (gh_AllowTicketComment src) (gh_AllowTicketComment dst);
  gh_StatusSync := turn_on (gh_StatusSync src) (gh_StatusSync dst);
  gh_StatusMapping := copy_map (gh_StatusMapping src) (gh_StatusMapping dst)
|}.

Definition mergeGitLabConfig (dst src : GitLabConfig) : GitLabConfig := {|
  gl_Token := over (gl_Token src) (gl_Token dst);
  gl_BaseURL := over (gl_BaseURL src) (gl_BaseURL dst);
  gl_AllowTicketComment := turn_on (gl_AllowTicketComment src) (gl_AllowTicketComment dst);
  gl_StatusSync := turn_on (gl_StatusSync src) (gl_StatusSync dst);
  gl_StatusMapping := copy_map (gl_StatusMapping src) (gl_StatusMapping dst)
|}.

Definition mergeWrikeConfig (dst src : WrikeConfig) : WrikeConfig := {|
  wr_Token := over (wr_Token src) (wr_Token dst);
  wr_IncludeParentContext := turn_on (wr_IncludeParentContext src) (wr_IncludeParentContext dst);
  wr_IncludeSiblingContext := turn_on (wr_IncludeSiblingContext src) (wr_IncludeSiblingContext dst);
  wr_AllowTicketComment := turn_on (wr_AllowTicketComment src) (wr_AllowTicketComment dst)
|}.

Definition mergeLinearConfig (dst src : LinearConfig) : LinearConfig := {|
  li_Token := over (li_Token src) (li_Token dst);
  li_Team := over (li_Team src) (li_Team dst);
  li_IncludeParentContext := turn_on (li_IncludeParentContext src) (li_IncludeParentContext dst);
  li_IncludeSiblingContext := turn_on (li_IncludeSiblingContext src) (li_IncludeSiblingContext dst);
  li_AllowTicketComment := turn_on (li_AllowTicketComment src) (li_AllowTicketComment dst);
  li_StatusSync := turn_on (li_StatusSync src) (li_StatusSync dst);
  li_StatusMapping := copy_map (li_StatusMapping src) (li_StatusMapping dst)
|}.

Definition mergeJiraConfig (dst src : JiraConfig) : JiraConfig := {|
  ji_Token := over (ji_Token src) (ji_Token dst);
  ji_Email := over (ji_Email src) (ji_Email dst);
  ji_BaseURL := over (ji_BaseURL src) (ji_BaseURL dst);
  ji_AllowTicketComment := turn_on (ji_AllowTicketComment src) (ji_AllowTicketComment dst);
  ji_StatusSync := turn_on (ji_StatusSync src) (ji_StatusSync dst);
  ji_StatusMapping := copy_map (ji_StatusMapping src) (ji_StatusMapping dst)
|}.

Definition mergeAzureDevOpsConfig (dst src : AzureDevOpsConfig) : AzureDevOpsConfig := {|
  ado_Token := over (ado_Token src) (ado_Token dst);
  ado_BaseURL := over (ado_BaseURL src) (ado_BaseURL dst);
  ado_Organization := over (ado_Organization src) (ado_Organization dst);
  ado_Project := over (ado_Project src) (ado_Project dst);
  ado_Repository := over (ado_Repository src) (ado_Repository dst);
  ado_AllowTicketComment := turn_on (ado_AllowTicketComment src) (ado_AllowTicketComment dst);
  ado_StatusSync := turn_on (ado_StatusSync src) (ado_StatusSync dst);
  ado_StatusMapping := copy_map (ado_StatusMapping src) (ado_StatusMapping dst)
|}.

Definition merge_providers (dst src : ProviderSettings) : ProviderSettings := {|
  pr_Default := over (pr_Default src) (pr_Default dst);
  pr_GitHub := mergeGitHubConfig (pr_GitHub dst) (pr_GitHub src);
  pr_GitLab := mergeGitLabConfig (pr_GitLab dst) (pr_GitLab src);
  pr_Wrike := mergeWrikeConfig (pr_Wrike dst) (pr_Wrike src);
  pr_Linear := mergeLinearConfig (pr_Linear dst) (pr_Linear src);
  pr_Jira := mergeJiraConfig (pr_Jira dst) (pr_Jira src);
  pr_AzureDevOps := mergeAzureDevOpsConfig (pr_AzureDevOps dst) (pr_AzureDevOps src)
|}.

(** Of the agent settings only two fields are merged. *)
Definition merge_agent (dst src : AgentSettings) : AgentSettings :=
  dst <| ag_Default ::= over (ag_Default src) |> <| ag_Allowed ::= over_list (ag_Allowed src) |>.

Definition merge_git (dst src : GitSettings) : GitSettings := {|
  git_BaseBranch := over (git_BaseBranch src) (git_BaseBranch dst);
  git_BranchPattern := over (git_BranchPattern src) (git_BranchPattern dst);
  git_CommitPrefix := over (git_CommitPrefix src) (git_CommitPrefix dst);
  git_CommitPattern := over (git_CommitPattern src) (git_CommitPattern dst);
  git_PRTitlePattern := over (git_PRTitlePattern src) (git_PRTitlePattern dst);
  git_PRRequiredSections := over_list (git_PRRequiredSections src) (git_PRRequiredSections dst);
  git_BranchValidationPattern := over (git_BranchValidationPattern src) (git_BranchValidationPattern dst);
  git_CreateBranch := over_ptr (git_CreateBranch src) (git_CreateBranch dst);
  git_AutoCommit := over_ptr (git_AutoCommit src) (git_AutoCommit dst);
  git_SignCommits := over_ptr (git_SignCommits src) (git_SignCommits dst);
  git_AllowPRComment := over_ptr (git_AllowPRComment src) (git_AllowPRComment dst);
  git_PRCustomSections := git_PRCustomSections dst;
  git_Provision := git_Provision dst
|}.

Definition merge_storage (dst src : StorageSettings) : StorageSettings := {|
  sto_SaveInProject := over_ptr (sto_SaveInProject src) (sto_SaveInProject dst);
  sto_OutcomeLinking := sto_OutcomeLinking dst;
  sto_SpecOutputPath := over (sto_SpecOutputPath src) (sto_SpecOutputPath dst);
  sto_PlanOutputPath := over (sto_PlanOutputPath src) (sto_PlanOutputPath dst);
  sto_CommitSpecs := over_ptr (sto_CommitSpecs src) (sto_CommitSpecs dst);
  sto_ChangelogPath := over (sto_ChangelogPath src) (sto_ChangelogPath dst);
  sto_Recording := sto_Recording dst;
  sto_ActivityLog := sto_ActivityLog dst;
  sto_MetricsHistory := sto_MetricsHistory dst
|}.

Definition merge_policy (dst src : PolicySettings) : PolicySettings := {|
  pol_RequiredPhases := over_list (pol_RequiredPhases src) (pol_RequiredPhases dst);
  pol_SensitivePaths := over_list (pol_SensitivePaths src) (pol_SensitivePaths dst);
  pol_MinSpecSections := over_pos (pol_MinSpecSections src) (pol_MinSpecSections dst);
  pol_RequireSecurityScan := turn_on (pol_RequireSecurityScan src) (pol_RequireSecurityScan dst);
  pol_ApprovalRequired := copy_map (pol_ApprovalRequired src) (pol_ApprovalRequired dst);
  pol_ReviewChecklist := over_list (pol_ReviewChecklist src) (pol_ReviewChecklist dst);
  pol_RequireSignedCommits := pol_RequireSignedCommits dst;
  pol_DocRequirements := over_list (pol_DocRequirements src) (pol_DocRequirements dst);
  pol_RiskBasedApproval := pol_RiskBasedApproval dst
|}.

Definition merge_review (dst src : ExternalReviewConfig) : ExternalReviewConfig := {|
  er_Mode := over (er_Mode src) (er_Mode dst);
  er_Command := over (er_Command src) (er_Command dst)
|}.

Definition merge_workflow (dst src : WorkflowSettings) : WorkflowSettings := {|
  wf_UseWorktreeIsolation := over_ptr (wf_UseWorktreeIsolation src) (wf_UseWorktreeIsolation dst);
  wf_AutoAdvance := wf_AutoAdvance dst;
  wf_SkipPhases := wf_SkipPhases dst;
  wf_ExternalReview := merge_review (wf_ExternalReview dst) (wf_ExternalReview src);
  wf_Policy := merge_policy (wf_Policy dst) (wf_Policy src);
  wf_Retry := wf_Retry dst;
  wf_PhasePolicies := wf_PhasePolicies dst;
  wf_CI := wf_CI dst;
  wf_Hooks := copy_map (wf_Hooks src) (wf_Hooks dst);
  wf_HoldTheLine := over_ptr (wf_HoldTheLine src) (wf_HoldTheLine dst);
  wf_FailureClassification := wf_FailureClassification dst;
  wf_AutoFix := wf_AutoFix dst;
  wf_ProgressEstimation := wf_ProgressEstimation dst;
  wf_PhaseGuardrails := copy_map (wf_PhaseGuardrails src) (wf_PhaseGuardrails dst);
  wf_AdversarialReview := wf_AdversarialReview dst;
  wf_Forking := wf_Forking dst;
  wf_TaskGroups := wf_TaskGroups dst
|}.

Definition Merge (dst src : Settings) : Settings := {|
  s_Version := s_Version dst;
  s_Preset := over (s_Preset src) (s_Preset dst);
  s_Identity := s_Identity dst;
  s_Agent := merge_agent (s_Agent dst) (s_Agent src);
  s_Providers := merge_providers (s_Providers dst) (s_Providers src);
  s_Git := merge_git (s_Git dst) (s_Git src);
  s_Workers := mkWorkerSettings (over_pos (wk_Max (s_Workers src)) (wk_Max (s_Workers dst)));
  s_Storage := merge_storage (s_Storage dst) (s_Storage src);
  s_Workflow := merge_workflow (s_Workflow dst) (s_Workflow src);
  s_Notify := s_Notify dst;
  s_Watchdog := s_Watchdog dst;
  s_Security := s_Security dst;
  s_UI := mkUISettings (turn_on (ui_OnboardingDismissed (s_UI src)) (ui_OnboardingDismissed (s_UI dst)));
  s_TUI := s_TUI dst;
  s_Environment := s_Environment dst;
  s_CustomAgents := copy_map (s_CustomAgents src) (s_CustomAgents dst)
|}.

(** A file that does not exist is not merged. *)
Definition merge_opt (dst : Settings) (src : option Settings) : Settings :=
  match src with Some s => Merge dst s | None => dst end.

(** ** Defaults and presets *)

Definition CurrentConfigVersion : Z := 1.
Definition providerDefault : string := "github".

Definition DefaultSettings : Settings := {|
  s_Version := CurrentConfigVersion;
  s_Preset := "";
  s_Identity := "";
  s_Agent := zero_AgentSettings <| ag_Default := "claude-mcp" |>
               <| ag_Allowed := ["claude"; "claude-sdk"; "claude-mcp"; "codex"] |>;
  s_Providers := zero_ProviderSettings <| pr_Default := providerDefault |>
                   <| pr_GitLab := zero_GitLabConfig <| gl_BaseURL := "https://gitlab.com" |> |>
                   <| pr_Wrike := mkWrikeConfig "" true true false |>
                   <| pr_Linear := zero_LinearConfig <| li_IncludeParentContext := true |>
                                     <| li_IncludeSiblingContext := true |> |>;
  s_Git := mkGitSettings "" "feature/{key}--{slug}" "[{key}]" "" "[{key}] {title}" [] ""
             (Some true) (Some true) (Some false) (Some false) [] zero_ProvisionSettings;
  s_Workers := mkWorkerSettings 3;
  s_Storage := zero_StorageSettings <| sto_SaveInProject := Some false |>;
  s_Workflow := zero_WorkflowSettings <| wf_UseWorktreeIsolation := Some true |>
                  <| wf_ExternalReview := mkExternalReviewConfig ExternalReviewAsk "coderabbit" |>;
  s_Notify := zero_NotifySettings;
  s_Watchdog := mkWatchdogSettings true 30 10 200;
  s_Security := zero_SecuritySettings;
  s_UI := zero_UISettings;
  s_TUI := zero_TUISettings;
  s_Environment := "";
  s_CustomAgents := ∅
|}.

Definition compliancePreset : Settings :=
  zero_Settings
    <| s_Storage := zero_StorageSettings
         <| sto_ActivityLog := mkActivityLogSettings true 365 "" "" |>
         <| sto_MetricsHistory := mkMetricsHistorySettings true 0 365 |> |>
    <| s_Workflow := zero_WorkflowSettings
         <| wf_Policy := zero_PolicySettings
              <| pol_RequireSecurityScan := true |>
              <| pol_RequireSignedCommits := true |>
              <| pol_ApprovalRequired := {["submit" := true]} |>
              <| pol_ReviewChecklist := ["security review"; "tests passing"; "docs updated"] |> |> |>.

Definition fastPreset : Settings :=
  zero_Settings <| s_Workers := mkWorkerSettings 5 |>
    <| s_Workflow := zero_WorkflowSettings <| wf_AutoAdvance := Some true |> |>.

Definition soloPreset : Settings := zero_Settings <| s_Workers := mkWorkerSettings 1 |>.

Definition PresetNames : list string := ["compliance"; "fast"; "solo"].

Definition ApplyPreset (name : string) : option Settings :=
  if decide (name = "compliance") then Some compliancePreset else
  if decide (name = "fast") then Some fastPreset else
  if decide (name = "solo") then Some soloPreset else None.

(** ** Validation *)

Definition got (text : string) (n : Z) : string := text +:+ " (got " +:+ pretty n +:+ ")".

Definition agentNames : list string := ["claude"; "claude-mcp"; "claude-sdk"; "codex"; "custom"].

Definition issue_if (c : bool) (text : string) : list string := if c then [text] else [].

Definition Validate (s : Settings) : list string :=
  let max := wk_Max (s_Workers s) in
  let w := s_Watchdog s in
  let log := sto_ActivityLog (s_Storage s) in
  let agent := ag_Default (s_Agent s) in
  issue_if (max <? 1)%Z (got "workers.max must be >= 1" max) ++
  issue_if (10 <? max)%Z (got "workers.max should be <= 10" max) ++
  (if wd_Enabled w then
     issue_if (wd_ThresholdMB w <? 50)%Z (got "watchdog.threshold_mb must be >= 50" (wd_ThresholdMB w)) ++
     issue_if (wd_IntervalSec w <? 5)%Z (got "watchdog.interval_sec must be >= 5" (wd_IntervalSec w)) ++
     issue_if (wd_WindowSize w <? 3)%Z (got "watchdog.window_size must be >= 3" (wd_WindowSize w))
   else []) ++
  issue_if (al_Enabled log && (al_MaxFiles log <? 1)%Z)
    (got "storage.activity_log.max_files must be >= 1" (al_MaxFiles log)) ++
  issue_if (negb (bool_decide (agent = "")) && negb (slice_contains agentNames agent) &&
              negb (bool_decide (is_Some (s_CustomAgents s !! agent))))
    ("agent.default " +:+ quote agent +:+ " is not a recognized agent (valid: claude, claude-mcp, " +:+
       "claude-sdk, codex, custom, or a custom agent name)") ++
  issue_if (negb (bool_decide (s_Preset s = "")) && negb (slice_contains PresetNames (s_Preset s)))
    ("preset " +:+ quote (s_Preset s) +:+ " is not recognized (valid: " +:+ join_with ", " PresetNames +:+ ")").
