(* ===== verification/SettingsPaths.v ===== *)
(** * Reading and writing settings by path

    Translates the setters of [settings/setters.go] and
    [settings/setters_providers.go] with [SetValue], [GetValue] and
    [applyEnvOverrides] (storage_merge.go). *)

From S2P Require Import Prelude Floats SettingsData SettingsMerge.
From S2P Require GraphDef.

(** ** Values *)

Definition setBool (value : any) (path : string) : result string bool :=
  match value with ABool b => Ok b | _ => Err (path +:+ " must be a boolean") end.

Definition setString (value : any) (path : string) : result string string :=
  match value with AString s => Ok s | _ => Err (path +:+ " must be a string") end.

(** [int(v)]; outside the range the lowest integer, as on amd64. *)
Definition int_of_float (f : spec_float) : Z :=
  let n := trunc f in if ((- 2 ^ 63 <=? n) && (n <=? max_int64))%Z then n else (- 2 ^ 63)%Z.

Definition setInt (value : any) (path : string) : result string Z :=
  match value with
  | AInt n => Ok n
  | AFloat f =>
      if float_lt f (float_of_Z (- 2 ^ 63)) || float_lt (float_of_Z (2 ^ 63)) f
      then Err (path +:+ " value out of range") else
      if negb (SFeqb f (float_of_Z (int_of_float f))) then Err (path +:+ " must be a whole number")
      else Ok (int_of_float f)
  | _ => Err (path +:+ " must be an integer")
  end.

Definition indexed (path : string) (i : nat) : string := path +:+ "[" +:+ pretty (Z.of_nat i) +:+ "]".

(** The strings of a list, with the index of the first other item. *)
Fixpoint strings_of (i : nat) (l : list any) : nat + list string :=
  match l with
  | [] => inr []
  | AString s :: l => match strings_of (S i) l with inl j => inl j | inr ss => inr (s :: ss) end
  | _ :: _ => inl i
  end.

Definition setStringSlice (value : any) (path : string) : result string (list string) :=
  match value with
  | AStrings l => Ok l
  | AList l =>
      match strings_of 0 l with
      | inl i => Err (indexed path i +:+ " must be a string")
      | inr ss => Ok ss
      end
  | _ => Err (path +:+ " must be a string array")
  end.

(** The map of the values that [f] accepts, or the first key it does not. *)
Fixpoint map_of {V} (f : any -> option V) (l : list (string * any)) : string + gmap string V :=
  match l with
  | [] => inr ∅
  | (k, v) :: l =>
      match f v with
      | None => inl k
      | Some x => match map_of f l with inl k' => inl k' | inr m => inr (<[k := x]> m) end
      end
  end.

Definition as_string (v : any) : option string := match v with AString s => Some s | _ => None end.
Definition as_bool (v : any) : option bool := match v with ABool b => Some b | _ => None end.

Definition setStatusMapping (value : any) (path : string) : result string (gmap string string) :=
  match value with
  | AStringMap m => Ok m
  | AMap l =>
      match map_of as_string l with
      | inl k => Err (path +:+ "." +:+ k +:+ " must be a string")
      | inr m => Ok m
      end
  | _ => Err (path +:+ " must be a map of string->string")
  end.

(** ** Setters *)

Record setter := mkSetter { set : Settings -> any -> result string Settings; get : Settings -> any }.

Definition assign {A} (r : result string A) (put : A -> Settings) : result string Settings :=
  match r with Ok a => Ok (put a) | Err e => Err e end.

Definition string_at (path : string) (field : Settings -> string) (put : string -> Settings -> Settings) :=
  (path, mkSetter (fun c v => assign (setString v path) (fun x => put x c)) (fun c => AString (field c))).

Definition bool_at (path : string) (field : Settings -> bool) (put : bool -> Settings -> Settings) :=
  (path, mkSetter (fun c v => assign (setBool v path) (fun x => put x c)) (fun c => ABool (field c))).

Definition boolptr_at (path : string) (dflt : bool) (field : Settings -> option bool)
  (put : option bool -> Settings -> Settings) :=
  (path, mkSetter (fun c v => assign (setBool v path) (fun x => put (Some x) c))
           (fun c => ABool (BoolValue (field c) dflt))).

Definition int_at (path : string) (field : Settings -> Z) (put : Z -> Settings -> Settings) :=
  (path, mkSetter (fun c v => assign (setInt v path) (fun x => put x c)) (fun c => AInt (field c))).

Definition strings_at (path : string) (field : Settings -> list string) (put : list string -> Settings -> Settings) :=
  (path, mkSetter (fun c v => assign (setStringSlice v path) (fun x => put x c)) (fun c => AStrings (field c))).

Definition status_at (path : string) (field : Settings -> gmap string string)
  (put : gmap string string -> Settings -> Settings) :=
  (path, mkSetter (fun c v => assign (setStatusMapping v path) (fun x => put x c)) (fun c => AStringMap (field c))).

Definition set_review (f : ExternalReviewConfig -> ExternalReviewConfig) : Settings -> Settings :=
  set_field s_Workflow (set_field wf_ExternalReview f).

Definition review_mode : setter := {|
  set c value :=
    match value with
    | AString s =>
        if slice_contains [ExternalReviewAsk; ExternalReviewAlways; ExternalReviewNever] s
        then Ok (set_review (set_field er_Mode (fun _ => s)) c)
        else Err "workflow.external_review.mode must be one of: ask, always, never"
    | _ => Err "workflow.external_review.mode must be a string"
    end;
  get c :=
    let mode := er_Mode (wf_ExternalReview (s_Workflow c)) in
    AString (if decide (mode = "") then ExternalReviewAsk else mode)
|}.

Definition backslash : string := String (Ascii.ascii_of_nat 92) "".

Definition review_command : setter := {|
  set c value :=
    match value with
    | AString s =>
        if contains "/" s || contains backslash s
        then Err ("workflow.external_review.command must be a plain name, not a path: " +:+ quote s)
        else Ok (set_review (set_field er_Command (fun _ => s)) c)
    | _ => Err "workflow.external_review.command must be a string"
    end;
  get c :=
    let command := er_Command (wf_ExternalReview (s_Workflow c)) in
    AString (if decide (command = "") then "coderabbit" else command)
|}.

Definition approval_required : setter := {|
  set c value :=
    match value with
    | AMap m =>
        match map_of as_bool m with
        | inl k => Err ("workflow.policy.approval_required." +:+ k +:+ " must be a boolean")
        | inr m => Ok (set_field s_Workflow (set_field wf_Policy (set_field pol_ApprovalRequired (fun _ => m))) c)
        end
    | _ => Err "workflow.policy.approval_required must be a map of event->boolean"
    end;
  get c := ABoolMap (pol_ApprovalRequired (wf_Policy (s_Workflow c)))
|}.

(** The value of a key of a [map[string]any]. *)
Fixpoint field_of (key : string) (m : list (string * any)) : any :=
  match m with
  | [] => ANil
  | (k, v) :: m => if decide (k = key) then v else field_of key m
  end.

(** One agent; fields of other types are ignored, items of other types are not. *)
Definition agent_of (name : string) (m : list (string * any)) : result string CustomAgent :=
  let text key := default "" (as_string (field_of key m)) in
  let args :=
    match field_of "args" m with
    | AList l =>
        match strings_of 0 l with
        | inl i => Err ("custom_agents." +:+ name +:+ "." +:+ indexed "args" i +:+ " must be a string")
        | inr ss => Ok ss
        end
    | _ => Ok []
    end in
  let env :=
    match field_of "env" m with
    | AMap l =>
        match map_of as_string l with
        | inl k => Err ("custom_agents." +:+ name +:+ ".env." +:+ k +:+ " must be a string")
        | inr m => Ok m
        end
    | _ => Ok ∅
    end in
  match args, env with
  | Err e, _ | Ok _, Err e => Err e
  | Ok args, Ok env => Ok (mkCustomAgent (text "extends") (text "description") args env)
  end.

Fixpoint agents_of (l : list (string * any)) : result string (gmap string CustomAgent) :=
  match l with
  | [] => Ok ∅
  | (name, AMap m) :: l =>
      match agent_of name m with
      | Err e => Err e
      | Ok a => match agents_of l with Err e => Err e | Ok agents => Ok (<[name := a]> agents) end
      end
  | (name, _) :: _ => Err ("custom_agents." +:+ name +:+ " must be an object")
  end.

Definition custom_agents : setter := {|
  set c value :=
    match value with
    | AMap m => assign (agents_of m) (fun agents => set_field s_CustomAgents (fun _ => agents) c)
    | _ => Err "custom_agents must be an object"
    end;
  get c := AAgents (s_CustomAgents c)
|}.

(** [setterMap] as setters.go declares it. *)
Definition setters : list (string * setter) := [
    string_at "agent.default" (fun c => ag_Default (s_Agent c))
      (fun v => set_field s_Agent (set_field ag_Default (fun _ => v)));
    strings_at "agent.allowed" (fun c => ag_Allowed (s_Agent c))
      (fun v => set_field s_Agent (set_field ag_Allowed (fun _ => v)));
    string_at "git.base_branch" (fun c => git_BaseBranch (s_Git c))
      (fun v => set_field s_Git (set_field git_BaseBranch (fun _ => v)));
    string_at "git.branch_pattern" (fun c => git_BranchPattern (s_Git c))
      (fun v => set_field s_Git (set_field git_BranchPattern (fun _ => v)));
    string_at "git.commit_prefix" (fun c => git_CommitPrefix (s_Git c))
      (fun v => set_field s_Git (set_field git_CommitPrefix (fun _ => v)));
    string_at "git.commit_pattern" (fun c => git_CommitPattern (s_Git c))
      (fun v => set_field s_Git (set_field git_CommitPattern (fun _ => v)));
    string_at "git.pr_title_pattern" (fun c => git_PRTitlePattern (s_Git c))
      (fun v => set_field s_Git (set_field git_PRTitlePattern (fun _ => v)));
    string_at "git.branch_validation_pattern" (fun c => git_BranchValidationPattern (s_Git c))
      (fun v => set_field s_Git (set_field git_BranchValidationPattern (fun _ => v)));
    boolptr_at "git.create_branch" true (fun c => git_CreateBranch (s_Git c))
      (fun v => set_field s_Git (set_field git_CreateBranch (fun _ => v)));
    boolptr_at "git.auto_commit" true (fun c => git_AutoCommit (s_Git c))
      (fun v => set_field s_Git (set_field git_AutoCommit (fun _ => v)));
    boolptr_at "git.sign_commits" false (fun c => git_SignCommits (s_Git c))
      (fun v => set_field s_Git (set_field git_SignCommits (fun _ => v)));
    boolptr_at "git.allow_pr_comment" false (fun c => git_AllowPRComment (s_Git c))
      (fun v => set_field s_Git (set_field git_AllowPRComment (fun _ => v)));
    int_at "workers.max" (fun c => wk_Max (s_Workers c))
      (fun v => set_field s_Workers (set_field wk_Max (fun _ => v)));
    boolptr_at "storage.save_in_project" false (fun c => sto_SaveInProject (s_Storage c))
      (fun v => set_field s_Storage (set_field sto_SaveInProject (fun _ => v)));
    string_at "storage.spec_output_path" (fun c => sto_SpecOutputPath (s_Storage c))
      (fun v => set_field s_Storage (set_field sto_SpecOutputPath (fun _ => v)));
    string_at "storage.plan_output_path" (fun c => sto_PlanOutputPath (s_Storage c))
      (fun v => set_field s_Storage (set_field sto_PlanOutputPath (fun _ => v)));
    boolptr_at "storage.commit_specs" false (fun c => sto_CommitSpecs (s_Storage c))
      (fun v => set_field s_Storage (set_field sto_CommitSpecs (fun _ => v)));
    string_at "storage.changelog_path" (fun c => sto_ChangelogPath (s_Storage c))
      (fun v => set_field s_Storage (set_field sto_ChangelogPath (fun _ => v)));
    boolptr_at "workflow.use_worktree_isolation" true (fun c => wf_UseWorktreeIsolation (s_Workflow c))
      (fun v => set_field s_Workflow (set_field wf_UseWorktreeIsolation (fun _ => v)));
    ("workflow.external_review.mode", review_mode);
    ("workflow.external_review.command", review_command);
    ("workflow.policy.approval_required", approval_required);
    strings_at "workflow.policy.review_checklist" (fun c => pol_ReviewChecklist (wf_Policy (s_Workflow c)))
      (fun v => set_field s_Workflow (set_field wf_Policy (set_field pol_ReviewChecklist (fun _ => v))));
    bool_at "ui.onboarding_dismissed" (fun c => ui_OnboardingDismissed (s_UI c))
      (fun v => set_field s_UI (set_field ui_OnboardingDismissed (fun _ => v)));
    ("custom_agents", custom_agents)
].

(** What the [init] of setters_providers.go adds. *)
Definition providerSetters : list (string * setter) := [
    string_at "providers.default" (fun c => pr_Default (s_Providers c))
      (fun v => set_field s_Providers (set_field pr_Default (fun _ => v)));
    string_at "providers.github.token" (fun c => gh_Token (pr_GitHub (s_Providers c)))
      (fun v => set_field s_Providers (set_field pr_GitHub (set_field gh_Token (fun _ => v))));
    string_at "providers.github.owner" (fun c => gh_Owner (pr_GitHub (s_Providers c)))
      (fun v => set_field s_Providers (set_field pr_GitHub (set_field gh_Owner (fun _ => v))));
    bool_at "providers.github.allow_ticket_comment" (fun c => gh_AllowTicketComment (pr_GitHub (s_Providers c)))
      (fun v => set_field s_Providers (set_field pr_GitHub (set_field gh_AllowTicketComment (fun _ => v))));
    bool_at "providers.github.status_sync" (fun c => gh_StatusSync (pr_GitHub (s_Providers c)))
      (fun v => set_field s_Providers (set_field pr_GitHub (set_field gh_StatusSync (fun _ => v))));
    status_at "providers.github.status_mapping" (fun c => gh_StatusMapping (pr_GitHub (s_Providers c)))
      (fun v => set_field s_Providers (set_field pr_GitHub (set_field gh_StatusMapping (fun _ => v))));
    string_at "providers.gitlab.token" (fun c => gl_Token (pr_GitLab (s_Providers c)))
      (fun v => set_field s_Providers (set_field pr_GitLab (set_field gl_Token (fun _ => v))));
    string_at "providers.gitlab.base_url" (fun c => gl_BaseURL (pr_GitLab (s_Providers c)))
      (fun v => set_field s_Providers (set_field pr_GitLab (set_field gl_BaseURL (fun _ => v))));
    bool_at "providers.gitlab.allow_ticket_comment" (fun c => gl_AllowTicketComment (pr_GitLab (s_Providers c)))
      (fun v => set_field s_Providers (set_field pr_GitLab (set_field gl_AllowTicketComment (fun _ => v))));
    bool_at "providers.gitlab.status_sync" (fun c => gl_StatusSync (pr_GitLab (s_Providers c)))
      (fun v => set_field s_Providers (set_field pr_GitLab (set_field gl_StatusSync (fun _ => v))));
    status_at "providers.gitlab.status_mapping" (fun c => gl_StatusMapping (pr_GitLab (s_Providers c)))
      (fun v => set_field s_Providers (set_field pr_GitLab (set_field gl_StatusMapping (fun _ => v))));
    string_at "providers.wrike.token" (fun c => wr_Token (pr_Wrike (s_Providers c)))
      (fun v => set_field s_Providers (set_field pr_Wrike (set_field wr_Token (fun _ => v))));
    bool_at "providers.wrike.include_parent_context" (fun c => wr_IncludeParentContext (pr_Wrike (s_Providers c)))
      (fun v => set_field s_Providers (set_field pr_Wrike (set_field wr_IncludeParentContext (fun _ => v))));
    bool_at "providers.wrike.include_sibling_context" (fun c => wr_IncludeSiblingContext (pr_Wrike (s_Providers c)))
      (fun v => set_field s_Providers (set_field pr_Wrike (set_field wr_IncludeSiblingContext (fun _ => v))));
    bool_at "providers.wrike.allow_ticket_comment" (fun c => wr_AllowTicketComment (pr_Wrike (s_Providers c)))
      (fun v => set_field s_Providers (set_field pr_Wrike (set_field wr_AllowTicketComment (fun _ => v))));
    string_at "providers.linear.token" (fun c => li_Token (pr_Linear (s_Providers c)))
      (fun v => set_field s_Providers (set_field pr_Linear (set_field li_Token (fun _ => v))));
    string_at "providers.linear.team" (fun c => li_Team (pr_Linear (s_Providers c)))
      (fun v => set_field s_Providers (set_field pr_Linear (set_field li_Team (fun _ => v))));
    bool_at "providers.linear.include_parent_context" (fun c => li_IncludeParentContext (pr_Linear (s_Providers c)))
      (fun v => set_field s_Providers (set_field pr_Linear (set_field li_IncludeParentContext (fun _ => v))));
    bool_at "providers.linear.include_sibling_context" (fun c => li_IncludeSiblingContext (pr_Linear (s_Providers c)))
      (fun v => set_field s_Providers (set_field pr_Linear (set_field li_IncludeSiblingContext (fun _ => v))));
    bool_at "providers.linear.allow_ticket_comment" (fun c => li_AllowTicketComment (pr_Linear (s_Providers c)))
      (fun v => set_field s_Providers (set_field pr_Linear (set_field li_AllowTicketComment (fun _ => v))));
    bool_at "providers.linear.status_sync" (fun c => li_StatusSync (pr_Linear (s_Providers c)))
      (fun v => set_field s_Providers (set_field pr_Linear (set_field li_StatusSync (fun _ => v))));
    status_at "providers.linear.status_mapping" (fun c => li_StatusMapping (pr_Linear (s_Providers c)))
      (fun v => set_field s_Providers (set_field pr_Linear (set_field li_StatusMapping (fun _ => v))));
    string_at "providers.jira.token" (fun c => ji_Token (pr_Jira (s_Providers c)))
      (fun v => set_field s_Providers (set_field pr_Jira (set_field ji_Token (fun _ => v))));
    string_at "providers.jira.email" (fun c => ji_Email (pr_Jira (s_Providers c)))
      (fun v => set_field s_Providers (set_field pr_Jira (set_field ji_Email (fun _ => v))));
    string_at "providers.jira.base_url" (fun c => ji_BaseURL (pr_Jira (s_Providers c)))
      (fun v => set_field s_Providers (set_field pr_Jira (set_field ji_BaseURL (fun _ => v))));
    bool_at "providers.jira.allow_ticket_comment" (fun c => ji_AllowTicketComment (pr_Jira (s_Providers c)))
      (fun v => set_field s_Providers (set_field pr_Jira (set_field ji_AllowTicketComment (fun _ => v))));
    bool_at "providers.jira.status_sync" (fun c => ji_StatusSync (pr_Jira (s_Providers c)))
      (fun v => set_field s_Providers (set_field pr_Jira (set_field ji_StatusSync (fun _ => v))));
    status_at "providers.jira.status_mapping" (fun c => ji_StatusMapping (pr_Jira (s_Providers c)))
      (fun v => set_field s_Providers (set_field pr_Jira (set_field ji_StatusMapping (fun _ => v))));
    string_at "providers.azuredevops.token" (fun c => ado_Token (pr_AzureDevOps (s_Providers c)))
      (fun v => set_field s_Providers (set_field pr_AzureDevOps (set_field ado_Token (fun _ => v))));
    string_at "providers.azuredevops.base_url" (fun c => ado_BaseURL (pr_AzureDevOps (s_Providers c)))
      (fun v => set_field s_Providers (set_field pr_AzureDevOps (set_field ado_BaseURL (fun _ => v))));
    string_at "providers.azuredevops.organization" (fun c => ado_Organization (pr_AzureDevOps (s_Providers c)))
      (fun v => set_field s_Providers (set_field pr_AzureDevOps (set_field ado_Organization (fun _ => v))));
    string_at "providers.azuredevops.project" (fun c => ado_Project (pr_AzureDevOps (s_Providers c)))
      (fun v => set_field s_Providers (set_field pr_AzureDevOps (set_field ado_Project (fun _ => v))));
    string_at "providers.azuredevops.repository" (fun c => ado_Repository (pr_AzureDevOps (s_Providers c)))
      (fun v => set_field s_Providers (set_field pr_AzureDevOps (set_field ado_Repository (fun _ => v))));
    bool_at "providers.azuredevops.allow_ticket_comment" (fun c => ado_AllowTicketComment (pr_AzureDevOps (s_Providers c)))
      (fun v => set_field s_Providers (set_field pr_AzureDevOps (set_field ado_AllowTicketComment (fun _ => v))));
    bool_at "providers.azuredevops.status_sync" (fun c => ado_StatusSync (pr_AzureDevOps (s_Providers c)))
      (fun v => set_field s_Providers (set_field pr_AzureDevOps (set_field ado_StatusSync (fun _ => v))));
    status_at "providers.azuredevops.status_mapping" (fun c => ado_StatusMapping (pr_AzureDevOps (s_Providers c)))
      (fun v => set_field s_Providers (set_field pr_AzureDevOps (set_field ado_StatusMapping (fun _ => v))))
].

Definition setterMap : list (string * setter) := setters ++ providerSetters.

Fixpoint setter_of (path : string) (l : list (string * setter)) : option setter :=
  match l with
  | [] => None
  | (p, e) :: l => if decide (p = path) then Some e else setter_of path l
  end.

Definition SetValue (s : Settings) (path : string) (value : any) : result string Settings :=
  match setter_of path setterMap with
  | None => Err ("unknown path: " +:+ path)
  | Some e => set e s value
  end.

Definition GetValue (s : Settings) (path : string) : result string any :=
  match setter_of path setterMap with
  | None => Err ("unknown path: " +:+ path)
  | Some e => Ok (get e s)
  end.

(** ** Environment variables *)

(** [strconv.ParseBool] *)
Definition ParseBool (s : string) : option bool :=
  if slice_contains ["1"; "t"; "T"; "TRUE"; "true"; "True"] s then Some true else
  if slice_contains ["0"; "f"; "F"; "FALSE"; "false"; "False"] s then Some false else None.

(** [strconv.Atoi] *)
Fixpoint digits_of (acc : Z) (s : string) : option Z :=
  match s with
  | "" => Some acc
  | String c s =>
      let n := Ascii.nat_of_ascii c in
      if (48 <=? n) && (n <=? 57) then digits_of (acc * 10 + Z.of_nat (n - 48))%Z s else None
  end.

Definition Atoi (s : string) : option Z :=
  let '(sign, body) :=
    match s with
    | String c rest =>
        if decide (Ascii.nat_of_ascii c = 45) then ((-1)%Z, rest) else
        if decide (Ascii.nat_of_ascii c = 43) then (1%Z, rest) else (1%Z, s)
    | "" => (1%Z, s)
    end in
  if decide (body = "") then None else
  match digits_of 0 body with
  | Some n => if ((- 2 ^ 63 <=? sign * n) && (sign * n <=? max_int64))%Z then Some (sign * n)%Z else None
  | None => None
  end.

(** The suffix of a KVELMO_ variable and the path it sets. *)
Definition envOverrides : list (string * string) := [
    ("AGENT_DEFAULT", "agent.default");
    ("PROVIDERS_DEFAULT", "providers.default");
    ("PROVIDERS_GITHUB_OWNER", "providers.github.owner");
    ("PROVIDERS_GITLAB_BASE_URL", "providers.gitlab.base_url");
    ("PROVIDERS_LINEAR_TEAM", "providers.linear.team");
    ("GIT_BASE_BRANCH", "git.base_branch");
    ("GIT_BRANCH_PATTERN", "git.branch_pattern");
    ("GIT_COMMIT_PREFIX", "git.commit_prefix");
    ("GIT_COMMIT_PATTERN", "git.commit_pattern");
    ("GIT_PR_TITLE_PATTERN", "git.pr_title_pattern");
    ("GIT_BRANCH_VALIDATION_PATTERN", "git.branch_validation_pattern");
    ("GIT_CREATE_BRANCH", "git.create_branch");
    ("GIT_AUTO_COMMIT", "git.auto_commit");
    ("GIT_SIGN_COMMITS", "git.sign_commits");
    ("GIT_ALLOW_PR_COMMENT", "git.allow_pr_comment");
    ("WORKERS_MAX", "workers.max");
    ("STORAGE_SAVE_IN_PROJECT", "storage.save_in_project");
    ("STORAGE_SPEC_OUTPUT_PATH", "storage.spec_output_path");
    ("STORAGE_PLAN_OUTPUT_PATH", "storage.plan_output_path");
    ("STORAGE_COMMIT_SPECS", "storage.commit_specs");
    ("STORAGE_CHANGELOG_PATH", "storage.changelog_path");
    ("WORKFLOW_USE_WORKTREE_ISOLATION", "workflow.use_worktree_isolation");
    ("WORKFLOW_EXTERNAL_REVIEW_MODE", "workflow.external_review.mode");
    ("WORKFLOW_EXTERNAL_REVIEW_COMMAND", "workflow.external_review.command")
].

Definition boolOverrides : list string :=
  ["git.create_branch"; "git.auto_commit"; "git.sign_commits"; "git.allow_pr_comment"; "storage.save_in_project";
   "storage.commit_specs"; "workflow.use_worktree_isolation"].

(** What a variable says for a path; one that cannot be parsed says nothing. *)
Definition override_value (path val : string) : option any :=
  if slice_contains boolOverrides path then ABool <$> ParseBool val else
  if decide (path = "workers.max") then AInt <$> Atoi val else Some (AString val).

Definition apply_override (lookup : string -> option string) (s : Settings) (ov : string * string) : Settings :=
  match lookup ("KVELMO_" +:+ ov.1) ≫= override_value ov.2 with
  | None => s
  | Some v => match SetValue s ov.2 v with Ok s => s | Err _ => s end
  end.

Definition applyEnvOverrides (lookup : string -> option string) (s : Settings) : Settings :=
  fold_left (apply_override lookup) envOverrides s.

Example Atoi_signed : Atoi "-12" = Some (-12)%Z /\ Atoi "+7" = Some 7%Z /\ Atoi "1x" = None /\ Atoi "-" = None.
Proof. by vm_compute. Qed.

(** ** Lemmas *)

(** How a value that is accepted is read back. *)
Inductive reads_as : any -> any -> Prop :=
| ra_same v : (match v with ABool _ | AInt _ | AString _ | AStrings _ | AStringMap _ => True | _ => False end) ->
    reads_as v v
| ra_float f n : SFeqb f (float_of_Z n) = true -> reads_as (AFloat f) (AInt n)
| ra_list l : reads_as (AList (AString <$> l)) (AStrings l)
| ra_strings l m : map_of as_string l = inr m -> reads_as (AMap l) (AStringMap m)
| ra_bools l m : map_of as_bool l = inr m -> reads_as (AMap l) (ABoolMap m)
| ra_agents l m : agents_of l = Ok m -> reads_as (AMap l) (AAgents m)
| ra_default_command : reads_as (AString "") (AString "coderabbit").

Lemma strings_of_inv i l ss : strings_of i l = inr ss -> l = AString <$> ss.
Proof.
  revert i ss. induction l as [|v l IH]; intros i ss; cbn; [by intros [= <-]|].
  destruct v; try done. destruct (strings_of (S i) l) as [j|ss'] eqn:E; [done|]. intros [= <-]. cbn. by rewrite (IH _ _ E).
Qed.

Lemma assigned_inv {A} (r : result string A) put c : assign r put = Ok c -> exists a, r = Ok a /\ c = put a.
Proof. destruct r; cbn; [|done]. intros [= <-]. by eexists. Qed.

Lemma setBool_inv v p b : setBool v p = Ok b -> v = ABool b.
Proof. destruct v; cbn; try done. by intros [= ->]. Qed.
Lemma setString_inv v p s : setString v p = Ok s -> v = AString s.
Proof. destruct v; cbn; try done. by intros [= ->]. Qed.

Lemma setInt_reads v p n : setInt v p = Ok n -> reads_as v (AInt n).
Proof.
  destruct v; cbn [setInt]; try done; [intros [= ->]; by constructor|].
  destruct (_ || _); [done|]. destruct (SFeqb f _) eqn:E; cbn [negb]; [|done]. intros [= <-]. by constructor.
Qed.

Lemma setStringSlice_reads v p l : setStringSlice v p = Ok l -> reads_as v (AStrings l).
Proof.
  destruct v as [| | | | | |vs| | | |]; cbn; try done; [intros [= ->]; by constructor|].
  destruct (strings_of 0 vs) as [i|ss] eqn:E; [done|]. intros [= <-]. apply strings_of_inv in E as ->. constructor.
Qed.

Lemma setStatusMapping_reads v p m : setStatusMapping v p = Ok m -> reads_as v (AStringMap m).
Proof.
  destruct v; cbn; try done; [|intros [= ->]; by constructor].
  destruct (map_of as_string m0) eqn:E; [done|]. intros [= <-]. by constructor.
Qed.

(** A setter stores what it accepts, and what is read at the other paths stays. *)
Definition stores_well (e : string * setter) : Prop :=
  forall c v c', set e.2 c v = Ok c' ->
    reads_as v (get e.2 c') /\
    Forall (fun e' : string * setter => e'.1 = e.1 \/ get e'.2 c' = get e'.2 c) setterMap.

Ltac same_elsewhere := repeat (apply Forall_cons_2; [first [right; reflexivity | left; reflexivity]|]); apply Forall_nil_2.

Ltac read_back Hx :=
  first [ apply setString_inv in Hx as -> | apply setBool_inv in Hx as -> | idtac ];
  first [ exact (setInt_reads _ _ _ Hx) | exact (setStringSlice_reads _ _ _ Hx)
        | exact (setStatusMapping_reads _ _ _ Hx) | constructor; exact I ].

Ltac plain_setter :=
  intros ? ? ? [? [Hx ->]]%assigned_inv; split; [read_back Hx | same_elsewhere].

Lemma review_mode_stores : stores_well ("workflow.external_review.mode", review_mode).
Proof.
  intros c v c'. cbn [snd set review_mode]. destruct v; try done.
  destruct (slice_contains _ _) eqn:E; [|done]. intros [= <-]. split; [|same_elsewhere].
  cbn. apply bool_decide_eq_true in E. destruct (decide (s = "")) as [->|]; [by vm_compute in E; set_solver|].
  by constructor.
Qed.

Lemma review_command_stores : stores_well ("workflow.external_review.command", review_command).
Proof.
  intros c v c'. cbn [snd set review_command]. destruct v; try done.
  destruct (_ || _); [done|]. intros [= <-]. split; [|same_elsewhere].
  cbn. destruct (decide (s = "")) as [->|]; constructor; exact I.
Qed.

Lemma approval_required_stores : stores_well ("workflow.policy.approval_required", approval_required).
Proof.
  intros c v c'. cbn [snd set approval_required]. destruct v; try done.
  destruct (map_of as_bool m) eqn:E; [done|]. intros [= <-]. split; [by constructor|same_elsewhere].
Qed.

Lemma custom_agents_stores : stores_well ("custom_agents", custom_agents).
Proof.
  intros c v c'. cbn [snd set custom_agents]. destruct v; try done.
  intros (x & Hx & ->)%assigned_inv. split; [by constructor|same_elsewhere].
Qed.

Lemma setters_store : Forall stores_well setterMap.
Proof.
  unfold setterMap at 1, setters, providerSetters. cbn [app].
  repeat (apply Forall_cons_2;
    [first [exact review_mode_stores | exact review_command_stores | exact approval_required_stores
           | exact custom_agents_stores | plain_setter]|]).
  apply Forall_nil_2.
Qed.

Lemma setter_of_elem path l e : setter_of path l = Some e -> (path, e) ∈ l.
Proof.
  induction l as [|[p e'] l IH]; [done|]. cbn. destruct (decide (p = path)) as [->|]; [|right; by apply IH].
  intros [= ->]. by left.
Qed.

Lemma paths_distinct : NoDup setterMap.*1.
Proof. by apply (bool_decide_eq_true_1 _); vm_compute. Qed.

Lemma SetValue_inv s path v s' :
  SetValue s path v = Ok s' ->
  (exists w, GetValue s' path = Ok w /\ reads_as v w) /\ (forall q, q <> path -> GetValue s' q = GetValue s q).
Proof.
  unfold SetValue, GetValue. destruct (setter_of path setterMap) as [e|] eqn:E; [|done]. intros Hs.
  apply setter_of_elem in E. pose proof setters_store as Hall. rewrite Forall_forall in Hall.
  destruct (Hall _ E s v s' Hs) as [Hr Hq]. split; [by eexists|]. intros q Hne.
  destruct (setter_of q setterMap) as [e'|] eqn:E'; [|done]. f_equal. apply setter_of_elem in E'.
  rewrite Forall_forall in Hq. by destruct (Hq _ E').
Qed.

(** Whether a value is accepted does not depend on the settings. *)
Definition accepts (path : string) (v : any) : bool := is_ok (SetValue zero_Settings path v).

Definition uniform (e : string * setter) : Prop := forall s s' v, is_ok (set e.2 s v) = is_ok (set e.2 s' v).

Lemma assign_uniform {A} (r : result string A) put put' : is_ok (assign r put) = is_ok (assign r put').
Proof. by destruct r. Qed.

Lemma setters_uniform : Forall uniform setterMap.
Proof.
  unfold setterMap, setters, providerSetters. cbn [app].
  repeat (apply Forall_cons_2;
    [intros s s' v; first [apply assign_uniform
       | cbn [snd set review_mode review_command approval_required custom_agents];
         destruct v; first [reflexivity | apply assign_uniform | by destruct (slice_contains _ _)
                           | by destruct (_ || _) | by destruct (map_of as_bool m)]]|]).
  apply Forall_nil_2.
Qed.

Lemma SetValue_accepts s path v : is_ok (SetValue s path v) = accepts path v.
Proof.
  unfold accepts, SetValue. destruct (setter_of path setterMap) as [e|] eqn:E; [|done].
  apply setter_of_elem in E. pose proof setters_uniform as H. rewrite Forall_forall in H. apply (H _ E).
Qed.

(** *** Overrides *)

Lemma override_paths_distinct : NoDup envOverrides.*2.
Proof. by apply (bool_decide_eq_true_1 _); vm_compute. Qed.

Lemma apply_override_other lookup s ov q : q <> ov.2 -> GetValue (apply_override lookup s ov) q = GetValue s q.
Proof.
  intros Hq. unfold apply_override. destruct (_ ≫= _) as [v|]; [|done].
  destruct (SetValue s ov.2 v) as [s'|] eqn:E; [|done]. by apply SetValue_inv in E as [_ ->].
Qed.

Lemma apply_overrides_other lookup ovs s q :
  q ∉ ovs.*2 -> GetValue (fold_left (apply_override lookup) ovs s) q = GetValue s q.
Proof.
  revert s. induction ovs as [|ov ovs IH]; intros s Hq; [done|]. cbn in Hq |- *.
  apply not_elem_of_cons in Hq as [Hq Hqs]. rewrite IH by done. by apply apply_override_other.
Qed.

(** The variable of a path decides on it: an accepted value is read there. *)
Lemma apply_overrides_at lookup ovs s ov :
  NoDup ovs.*2 -> ov ∈ ovs ->
  match lookup ("KVELMO_" +:+ ov.1) ≫= override_value ov.2 with
  | Some v =>
      if accepts ov.2 v
      then exists w, GetValue (fold_left (apply_override lookup) ovs s) ov.2 = Ok w /\ reads_as v w
      else GetValue (fold_left (apply_override lookup) ovs s) ov.2 = GetValue s ov.2
  | None => GetValue (fold_left (apply_override lookup) ovs s) ov.2 = GetValue s ov.2
  end.
Proof.
  revert s. induction ovs as [|ov' ovs IH]; intros s Hn Hin; [by apply not_elem_of_nil in Hin|].
  cbn in Hn |- *. apply NoDup_cons in Hn as [Hn' Hn]. apply elem_of_cons in Hin as [<-|Hin].
  - rewrite apply_overrides_other by done. unfold apply_override.
    destruct (_ ≫= _) as [v|]; [|done]. rewrite <- (SetValue_accepts s).
    destruct (SetValue s ov.2 v) as [s'|e] eqn:E; [by apply SetValue_inv in E as [? _]|done].
  - assert (Hne : ov.2 <> ov'.2). { intros E. apply Hn'. rewrite <- E. by apply list_elem_of_fmap_2. }
    specialize (IH (apply_override lookup s ov') Hn Hin). by rewrite (apply_override_other lookup s ov') in IH.
Qed.

(** ** Properties *)

(** C22: writing a setting changes what is read at its path and nowhere else: an
    accepted value is read back as it was written (a whole float as an integer, a
    list or an object from JSON as its strings, booleans or agents, the empty
    review command as the default), and a rejected one or an unknown path leaves
    no settings behind. *)
Theorem SetValue_GetValue s path v s' :
  SetValue s path v = Ok s' ->
  (exists w, GetValue s' path = Ok w /\ reads_as v w) /\
  (forall q, q <> path -> GetValue s' q = GetValue s q).
Proof. exact (SetValue_inv s path v s'). Qed.

Lemma SetValue_GetValue_witness :
  exists s', SetValue DefaultSettings "workers.max" (AFloat (float_of_Z 7)) = Ok s' /\
  (exists w, GetValue s' "workers.max" = Ok w /\ reads_as (AFloat (float_of_Z 7)) w) /\
  (forall q, q <> "workers.max" -> GetValue s' q = GetValue DefaultSettings q).
Proof.
  eexists. split; [by vm_compute|].
  apply (SetValue_GetValue DefaultSettings "workers.max" (AFloat (float_of_Z 7))). by vm_compute.
Defined.
