(* ===== verification/EnvFiles.v ===== *)
(** * Files of environment variables

    Translates the .env files of [settings/envmap.go] and [settings/dotenv.go]:
    reading them, the environment of a process, saving one variable, and masking
    tokens.  A file is [None] when it does not exist. *)

From S2P Require Import Prelude Names Text.
From S2P Require GraphDef.

Notation EnvMap := (gmap string string).

(** ** Reading *)

(** [strings.Index(line, "=")] as the two parts around it. *)
Fixpoint cut_equals (s : string) : option (string * string) :=
  match s with
  | "" => None
  | String c rest =>
      if decide (Ascii.nat_of_ascii c = 61) then Some ("", rest)
      else (fun p : string * string => (String c p.1, p.2)) <$> cut_equals rest
  end.

Definition quote_char : Ascii.ascii := Ascii.ascii_of_nat 34.
Definition apostrophe : Ascii.ascii := Ascii.ascii_of_nat 39.

(** [len(value) >= 2] with the character at both ends. *)
Definition wrapped_in (c : Ascii.ascii) (s : string) : bool :=
  (2 <=? String.length s) && has_prefix s (String c "") && has_suffix s (String c "").

Definition strip_ends (s : string) : string := String.substring 1 (String.length s - 2) s.

Definition backslash : string := String (Ascii.ascii_of_nat 92) "".
Definition tab : string := String (Ascii.ascii_of_nat 9) "".

Definition unquote (value : string) : string :=
  if wrapped_in quote_char value then
    let value := strip_ends value in
    let value := GraphDef.ReplaceAll value (backslash +:+ "n") nl in
    let value := GraphDef.ReplaceAll value (backslash +:+ "t") tab in
    GraphDef.ReplaceAll value (backslash +:+ backslash) backslash
  else if wrapped_in apostrophe value then strip_ends value else value.

(** The key of a line that is not empty, no comment and has a name before its
    first equals sign, and what follows that sign. *)
Definition line_key (line : string) : option (string * string) :=
  let line := TrimSpace line in
  if has_prefix line "#" then None else
  match cut_equals line with
  | None | Some ("", _) => None
  | Some (key, value) => Some (TrimSpace key, value)
  end.

Definition parse_line (line : string) : option (string * string) :=
  (fun p : string * string => (p.1, unquote (TrimSpace p.2))) <$> line_key line.

Definition put_all (pairs : list (string * string)) (env : EnvMap) : EnvMap :=
  fold_left (fun env (p : string * string) => <[p.1 := p.2]> env) pairs env.

(** [loadEnvFileInto]; the error of the scanner is returned. *)
Definition loadEnvFileInto (file : option string) (env : EnvMap) : result string EnvMap :=
  match file with
  | None => Ok env
  | Some content =>
      let '(lines, err) := scan_file content in
      if err : bool then Err "bufio.Scanner: token too long" else Ok (put_all (omap parse_line lines) env)
  end.

(** [LoadEnvMap]: the project's file over the global one; without a project its
    file is not read. *)
Definition LoadEnvMap (global : option string) (project : option (option string)) : result string EnvMap :=
  match loadEnvFileInto global ∅ with
  | Err e => Err e
  | Ok env => match project with None => Ok env | Some file => loadEnvFileInto file env end
  end.

(** ** The environment of a process *)

Definition passthroughEnvKeys : list string :=
  ["HOME"; "PATH"; "TERM"; "LANG"; "LC_ALL"; "LC_CTYPE"; "TMPDIR"; "TZ"; "USER"; "LOGNAME"; "SHELL"].

Definition host_base (lookup : string -> option string) : EnvMap :=
  fold_left (fun m k => match lookup k with Some v => <[k := v]> m | None => m end) passthroughEnvKeys ∅.

Definition process_map (lookup : string -> option string) (files : result string EnvMap) (overrides : EnvMap) : EnvMap :=
  let base := host_base lookup in
  overrides ∪ (match files with Ok env => env ∪ base | Err _ => base end).

Definition ProcessEnv (lookup : string -> option string) (files : result string EnvMap) (overrides : EnvMap) : list string :=
  sort_strings ((fun p : string * string => p.1 +:+ "=" +:+ p.2) <$> map_to_list (process_map lookup files overrides)).

(** ** Saving one variable *)

Definition assignment (key value : string) : string := key +:+ "=" +:+ value.

Definition sets_key (key line : string) : bool :=
  match line_key line with Some (k, _) => bool_decide (k = key) | None => false end.

(** [saveEnvVarToFile] up to the write: the new content. *)
Definition saved_lines (key value : string) (lines : list string) : list string :=
  let replaced := (fun l => if sets_key key l then assignment key value else l) <$> lines in
  if existsb (sets_key key) lines then replaced else replaced ++ [assignment key value].

Definition with_newline (content : string) : string := if has_suffix content nl then content else content +:+ nl.

Definition saveEnvVarToFile (file : option string) (key value : string) : result string string :=
  match file with
  | None => Ok (with_newline (assignment key value))
  | Some content =>
      let '(lines, err) := scan_file content in
      if err : bool then Err "read env file: bufio.Scanner: token too long"
      else Ok (with_newline (join_with nl (saved_lines key value lines)))
  end.

(** ** Masks *)

Definition MaskToken (token : string) : string :=
  let n := String.length token in
  if n <? 8 then (if decide (token = "") then "" else "***")
  else String.substring 0 4 token +:+ "***" +:+ String.substring (n - 4) 4 token.

Definition IsMaskedToken (token : string) : bool := contains "***" token.

Definition dq : string := String quote_char "".

Example parse_quoted :
  parse_line ("  KEY = " +:+ dq +:+ "a b" +:+ dq +:+ " ") = Some ("KEY", "a b") /\
  parse_line "# KEY=1" = None /\ parse_line "=1" = None /\ parse_line "A=b=c" = Some ("A", "b=c").
Proof. by vm_compute. Qed.

(** ** Lemmas: spaces *)

Lemma space_left_id s : String.length s <= String.length (trim_space_left s) -> trim_space_left s = s.
Proof.
  destruct s as [|c [|d [|e r]]]; [done|..].
  - cbn. destruct (is_space c); [cbn; lia|done].
  - pose proof (trim_left_length (String d "")) as H1. cbn in *. destruct (is_space c); [lia|]. destruct (is_space2 c d); [cbn; lia|done].
  - pose proof (trim_left_length (String d (String e r))) as H1. pose proof (trim_left_length (String e r)) as H2.
    pose proof (trim_left_length r) as H3. cbn in *.
    destruct (is_space c); [lia|]. destruct (is_space2 c d); [lia|]. destruct (is_space3 c d e); [lia|done].
Qed.

(** A string that [TrimSpace] leaves as it is. *)
Definition trimmed (s : string) : Prop := TrimSpace s = s.

Lemma trimmed_ends s : trimmed s -> trim_space_left s = s /\ trim_space_right s = s.
Proof.
  unfold trimmed, TrimSpace. intros H. assert (Hl : trim_space_left s = s).
  { apply space_left_id. rewrite <- H at 1. apply trim_right_length. }
  split; [done|]. by rewrite Hl in H.
Qed.

Lemma TrimSpace_snoc_space a c : is_ascii c = true -> is_space c = true -> TrimSpace (a +:+ String c "") = TrimSpace a.
Proof.
  intros Ha Hc. unfold TrimSpace. rewrite trim_left_ascii by done. case_decide as E.
  - rewrite E. cbn. by rewrite Hc.
  - by apply trim_right_snoc_space.
Qed.

(** Two trimmed texts with a character between them. *)
Lemma TrimSpace_between a c b :
  a <> "" -> is_ascii c = true -> is_space c = false -> trimmed a -> trimmed b -> trimmed (a +:+ String c b).
Proof.
  intros Ha Hc Hs [Hla _]%trimmed_ends [_ Hrb]%trimmed_ends. unfold trimmed, TrimSpace.
  rewrite trim_left_ascii by done. rewrite decide_False by congruence. by rewrite Hla, trim_right_ascii, Hrb.
Qed.

Lemma dropCR_cases s : dropCR s = s \/ exists a, s = a +:+ CR /\ dropCR s = a.
Proof.
  unfold dropCR. fold CR. destruct (decide (s = "")) as [->|Hs]; [by left|].
  destruct (string_snoc s Hs) as (a & c & ->). unfold CR. rewrite has_suffix_char. case_bool_decide as Hc; [|by left].
  right. exists a. rewrite Hc. split; [done|]. rewrite string_app_length. cbn [String.length].
  replace (String.length a + 1 - 1) with (String.length a) by lia. apply substring_0_app.
Qed.

Lemma TrimSpace_dropCR s : TrimSpace (dropCR s) = TrimSpace s.
Proof. destruct (dropCR_cases s) as [->|(a & -> & ->)]; [done|]. symmetry. by apply TrimSpace_snoc_space. Qed.

Lemma parse_line_dropCR s : parse_line (dropCR s) = parse_line s.
Proof. unfold parse_line, line_key. by rewrite TrimSpace_dropCR. Qed.

(** ** Lemmas: reading back *)

(** A key and a value that a line of the file carries as they are. *)
Record plain (key value : string) : Prop := {
  pl_key : key <> "" /\ trimmed key /\ no_newline key = true;
  pl_name : has_prefix key "#" = false /\ cut_equals key = None;
  pl_value : trimmed value /\ unquote value = value /\ no_newline value = true;
  pl_length : String.length (assignment key value) < MaxScanTokenSize }.

Lemma cut_equals_app key value : cut_equals key = None -> cut_equals (key +:+ "=" +:+ value) = Some (key, value).
Proof.
  induction key as [|c key IH]; [by intros _|]. rewrite string_app_cons. cbn [cut_equals].
  destruct (decide _); [done|]. intros H. destruct (cut_equals key); [done|]. by rewrite IH.
Qed.

Lemma has_prefix_hash a b : a <> "" -> has_prefix (a +:+ b) "#" = has_prefix a "#".
Proof.
  destruct a as [|c a]; [done|]. intros _. rewrite string_app_cons. unfold has_prefix. cbn. case_match; [|done].
  by destruct (a +:+ b), a.
Qed.

Lemma parse_line_assignment key value : plain key value -> parse_line (assignment key value) = Some (key, value).
Proof.
  intros [(Hk & Htk & _) (Hh & Hc) (Htv & Hq & _) _]. unfold parse_line, line_key, assignment.
  assert (TrimSpace (key +:+ "=" +:+ value) = key +:+ "=" +:+ value) as -> by (change ("=" +:+ value) with (String (Ascii.ascii_of_nat 61) value); by apply TrimSpace_between).
  rewrite has_prefix_hash, Hh, (cut_equals_app _ _ Hc) by done.
  destruct key as [|c key]; [done|]. cbn [fmap option_fmap option_map fst snd].
  by rewrite Htk, Htv, Hq.
Qed.

Lemma parse_line_key line : line_key line = None <-> parse_line line = None.
Proof. unfold parse_line. by destruct (line_key line). Qed.

Lemma sets_key_spec key line : sets_key key line = true <-> exists value, parse_line line = Some (key, value).
Proof.
  unfold sets_key, parse_line. destruct (line_key line) as [[k v]|]; cbn.
  - rewrite bool_decide_eq_true. split; [intros ->; by eexists|by intros [? [= -> _]]].
  - by split; [|intros [? ?]].
Qed.

(** ** Lemmas: the lines of the file that is written *)

Lemma raw_lines_no_newline cur s : no_newline cur = true -> Forall (fun l => no_newline l = true) (raw_lines cur s).
Proof.
  revert cur. induction s as [|c s IH]; intros cur Hcur; cbn [raw_lines].
  - destruct (decide _); by repeat constructor.
  - destruct (is_newline c) eqn:Hc; [by constructor; [|apply IH]|].
    apply IH. unfold no_newline. rewrite all_chars_app. apply andb_true_iff. split; [exact Hcur|]. cbn. by rewrite Hc.
Qed.

Lemma scan_lines lines ts : scan lines = (ts, false) -> Forall (fun l => no_newline l = true) lines ->
  ts = dropCR <$> lines /\ Forall (fun l => no_newline l = true /\ String.length l < MaxScanTokenSize) ts.
Proof.
  revert ts. induction lines as [|l lines IH]; intros ts; cbn [scan]; [by intros [= <-] _|].
  destruct (decide _) as [Hl|]; [|done]. destruct (scan lines) as [ts' err]. intros [= <- ->] [Hn Hns]%Forall_cons.
  destruct (IH ts' eq_refl Hns) as [-> H]. split; [done|]. constructor; [|exact H].
  destruct (dropCR_cases l) as [->|(a & -> & ->)]; [done|].
  unfold no_newline in *. rewrite all_chars_app in Hn. apply andb_true_iff in Hn as [Hn _].
  rewrite string_app_length in Hl. split; [done|lia].
Qed.

Lemma scan_short lines : Forall (fun l => String.length l < MaxScanTokenSize) lines ->
  scan lines = (dropCR <$> lines, false).
Proof. induction 1 as [|l lines Hl _ IH]; [done|]. cbn [scan]. by rewrite decide_True, IH. Qed.

Lemma parse_scanned (lines : list string) : omap parse_line (dropCR <$> lines) = omap parse_line lines.
Proof. induction lines as [|l lines IH]; [done|]. cbn. by rewrite parse_line_dropCR, IH. Qed.

Lemma join_snoc ls l : join_with nl (ls ++ [l]) = unlines ls +:+ l.
Proof.
  induction ls as [|d ls IH]; [done|]. destruct ls as [|d' ls]; [cbn; by rewrite string_app_assoc|].
  change (join_with nl ((d :: d' :: ls) ++ [l])) with (d +:+ nl +:+ join_with nl ((d' :: ls) ++ [l])).
  rewrite IH. cbn [unlines]. by rewrite !string_app_assoc.
Qed.

Lemma no_newline_suffix s : no_newline s = true -> has_suffix s nl = false.
Proof.
  destruct (decide (s = "")) as [->|Hs]; [done|]. destruct (string_snoc s Hs) as (a & c & ->).
  unfold no_newline, nl. rewrite all_chars_app, has_suffix_char, andb_true_iff. intros [_ H].
  apply bool_decide_eq_false. by intros ->.
Qed.

(** The file that is written ends every line; an empty last line is lost. *)
Lemma with_newline_join ls l : no_newline l = true ->
  with_newline (join_with nl (ls ++ [l])) = unlines (ls ++ [l]) \/
  l = "" /\ with_newline (join_with nl (ls ++ [l])) = unlines ls.
Proof.
  intros Hl. rewrite join_snoc, unlines_snoc. unfold with_newline. destruct (decide (l = "")) as [->|Hne].
  - rewrite string_app_nil. destruct (decide (ls = [])) as [->|Hls]; [by left|].
    destruct (exists_last Hls) as (ls' & d & ->). right. split; [done|]. rewrite unlines_snoc.
    by rewrite <- (string_app_assoc (unlines ls')), has_suffix_app.
  - left. unfold nl at 1. rewrite has_suffix_app_ne by done. fold nl. rewrite no_newline_suffix by done.
    by rewrite string_app_assoc.
Qed.

Lemma reread (ls : list string) : ls <> [] -> Forall (fun l => no_newline l = true /\ String.length l < MaxScanTokenSize) ls ->
  exists ts, scan_file (with_newline (join_with nl ls)) = (ts, false) /\ omap parse_line ts = omap parse_line ls.
Proof.
  intros Hne H. destruct (exists_last Hne) as (init & l & ->). apply Forall_and in H as [Hn Hl].
  assert (forall s ls', s = unlines ls' -> ls' `prefix_of` init ++ [l] ->
    scan_file s = (dropCR <$> ls', false)) as Hscan.
  { intros s ls' -> [k Hk]. rewrite Hk in Hn, Hl. apply Forall_app in Hn as [Hn _], Hl as [Hl _].
    unfold scan_file. by rewrite raw_lines_unlines_plain, scan_short. }
  assert (no_newline l = true) as Hnl by by apply Forall_app in Hn as [_ Hn]; inversion Hn.
  destruct (with_newline_join init l Hnl) as [E|[-> E]]; eexists; (split; [apply (Hscan _ _ E)|]).
  - done.
  - apply parse_scanned.
  - by exists [""].
  - rewrite parse_scanned, omap_app. cbn. by rewrite app_nil_r.
Qed.

(** ** Lemmas: the variable that is replaced *)

Section Replace.
Context (key value : string).

Definition replace_pair (p : string * string) : string * string := if decide (p.1 = key) then (key, value) else p.

Definition replace_line (l : string) : string := if sets_key key l then assignment key value else l.

Lemma put_all_set pairs (env env' : EnvMap) :
  env' = <[key := value]> env -> put_all (replace_pair <$> pairs) env' = <[key := value]> (put_all pairs env).
Proof.
  revert env env'. induction pairs as [|[k v] pairs IH]; intros env env' ->; [done|].
  cbn. apply IH. unfold replace_pair. cbn. destruct (decide (k = key)) as [->|Hk]; cbn.
  - by rewrite !insert_insert_eq.
  - by rewrite insert_insert_ne.
Qed.

Lemma put_all_replace pairs (env : EnvMap) : key ∈ pairs.*1 ->
  put_all (replace_pair <$> pairs) env = <[key := value]> (put_all pairs env).
Proof.
  revert env. induction pairs as [|[k v] pairs IH]; intros env Hin; [by apply not_elem_of_nil in Hin|].
  change (put_all (replace_pair <$> pairs) (<[(replace_pair (k, v)).1 := (replace_pair (k, v)).2]> env) =
          <[key := value]> (put_all pairs (<[k := v]> env))).
  unfold replace_pair at 2 3. cbn. destruct (decide (k = key)) as [->|Hk].
  - cbn. apply put_all_set. by rewrite insert_insert_eq.
  - apply IH. cbn in Hin. by apply elem_of_cons in Hin as [<-|Hin].
Qed.

Lemma put_all_snoc pairs (env : EnvMap) : put_all (pairs ++ [(key, value)]) env = <[key := value]> (put_all pairs env).
Proof. unfold put_all. by rewrite fold_left_app. Qed.

Hypothesis Hplain : plain key value.

Lemma parse_replaced (lines : list string) :
  omap parse_line (replace_line <$> lines) = replace_pair <$> omap parse_line lines.
Proof.
  induction lines as [|l lines IH]; [done|]. cbn. unfold replace_line at 1.
  destruct (sets_key key l) eqn:Hs.
  - rewrite parse_line_assignment by done. apply sets_key_spec in Hs as [v Hv]. rewrite Hv. cbn.
    unfold replace_pair at 1. cbn. by rewrite decide_True, IH.
  - destruct (parse_line l) as [[k v]|] eqn:Hl; [|exact IH]. cbn. unfold replace_pair at 1. cbn.
    rewrite IH, decide_False; [done|]. intros ->. apply not_true_iff_false in Hs. apply Hs, sets_key_spec. by exists v.
Qed.

Lemma found_key (lines : list string) : existsb (sets_key key) lines = true -> key ∈ (omap parse_line lines).*1.
Proof.
  intros (l & Hin & [v Hv]%sets_key_spec)%existsb_exists.
  apply list_elem_of_fmap. exists (key, v). split; [done|]. apply list_elem_of_omap. exists l.
  by rewrite list_elem_of_In.
Qed.

Lemma replace_line_absent (lines : list string) : existsb (sets_key key) lines = false -> replace_line <$> lines = lines.
Proof.
  induction lines as [|l lines IH]; [done|]. cbn [existsb]. intros [Hl Hf]%orb_false_iff.
  rewrite fmap_cons, IH by done. unfold replace_line. by rewrite Hl.
Qed.

Lemma saved_pairs (lines : list string) env :
  put_all (omap parse_line (saved_lines key value lines)) env = <[key := value]> (put_all (omap parse_line lines) env).
Proof.
  unfold saved_lines. fold replace_line. destruct (existsb _ _) eqn:Hf.
  - rewrite parse_replaced. by apply put_all_replace, found_key.
  - rewrite omap_app, replace_line_absent by done. cbn [omap list_omap].
    rewrite parse_line_assignment by done. apply put_all_snoc.
Qed.

Lemma saved_short lines :
  Forall (fun l => no_newline l = true /\ String.length l < MaxScanTokenSize) lines ->
  Forall (fun l => no_newline l = true /\ String.length l < MaxScanTokenSize) (saved_lines key value lines).
Proof.
  destruct Hplain as [(_ & _ & Hk) _ (_ & _ & Hv) Hl]. intros H.
  assert (no_newline (assignment key value) = true /\ String.length (assignment key value) < MaxScanTokenSize) as Ha.
  { split; [|done]. unfold assignment, no_newline in *. rewrite !all_chars_app. by rewrite Hk, Hv. }
  unfold saved_lines.
  assert (Forall (fun l => no_newline l = true /\ String.length l < MaxScanTokenSize) (replace_line <$> lines)) as Hr.
  { apply Forall_fmap. apply (Forall_impl _ _ _ H). intros l Hline. unfold compose, replace_line. by destruct (sets_key key l). }
  case_match; [exact Hr|]. apply Forall_app. split; [exact Hr|by constructor].
Qed.
End Replace.

Lemma saved_nonempty key value lines : saved_lines key value lines <> [].
Proof.
  unfold saved_lines. destruct (existsb _ _) eqn:E; [by destruct lines|]. intros H. by apply app_eq_nil in H as [].
Qed.

Lemma saved_reads_back file key value env e :
  plain key value -> loadEnvFileInto file env = Ok e ->
  exists content, saveEnvVarToFile file key value = Ok content /\
    loadEnvFileInto (Some content) env = Ok (<[key := value]> e).
Proof.
  intros Hp Hload.
  assert (forall lines, Forall (fun l => no_newline l = true /\ String.length l < MaxScanTokenSize) lines ->
    put_all (omap parse_line lines) env = e ->
    loadEnvFileInto (Some (with_newline (join_with nl (saved_lines key value lines)))) env = Ok (<[key := value]> e)) as Hsave.
  { intros lines Hl <-.
    destruct (reread (saved_lines key value lines)) as (ts & Hts & Ep); [apply saved_nonempty|by apply saved_short|].
    cbn [loadEnvFileInto]. rewrite Hts, Ep. by rewrite saved_pairs. }
  destruct file as [content|]; cbn [loadEnvFileInto saveEnvVarToFile] in *.
  - destruct (scan_file content) as [lines err] eqn:Hscan. destruct err; [done|]. injection Hload as Hload.
    eexists. split; [done|]. apply Hsave; [|done].
    by destruct (scan_lines _ _ Hscan (raw_lines_no_newline "" content eq_refl)).
  - eexists. split; [done|]. injection Hload as ->. by apply (Hsave []).
Qed.

(** ** Theorems *)

(** saving a variable to a .env file and reading the file gives the environment
    the file gave before with that one variable set.  Comments, other variables and
    broken lines do not matter, several lines for the variable neither, and a file
    that can be read can be saved; the key and the value have to be ones that a line
    can carry (no line feed, no spaces or quotes around the value). *)
Theorem saveEnv_roundtrip file key value env e :
  plain key value -> loadEnvFileInto file env = Ok e ->
  exists content, saveEnvVarToFile file key value = Ok content /\
    loadEnvFileInto (Some content) env = Ok (<[key := value]> e).
Proof. exact (saved_reads_back file key value env e). Qed.

Definition sample_file : string := "# tokens" +:+ nl +:+ "A = 1" +:+ nl +:+ "B=2" +:+ CR +:+ nl +:+ "A=3".

Lemma saveEnv_roundtrip_witness :
  exists content, saveEnvVarToFile (Some sample_file) "A" "x y" = Ok content /\
    loadEnvFileInto (Some content) ∅ = Ok (<["A" := "x y"]> (<["A" := "3"]> (<["B" := "2"]> (<["A" := "1"]> ∅)))).
Proof.
  apply (saveEnv_roundtrip (Some sample_file) "A" "x y" ∅); [|by vm_compute].
  split; [done..|]. apply Nat.ltb_lt. by vm_compute.
Defined.

(** ** The environment of a process *)

Lemma host_base_lookup lookup key :
  host_base lookup !! key = if bool_decide (key ∈ passthroughEnvKeys) then lookup key else None.
Proof.
  unfold host_base. assert (forall ks m,
    fold_left (fun m k => match lookup k with Some v => <[k := v]> m | None => m end) ks m !! key =
      match (if bool_decide (key ∈ ks) then lookup key else None) with Some v => Some v | None => (m : EnvMap) !! key end) as H.
  { induction ks as [|k ks IH]; intros m; [done|]. cbn [fold_left]. rewrite IH. destruct (decide (k = key)) as [->|Hk].
    - rewrite (bool_decide_true (key ∈ key :: ks)) by left.
      destruct (lookup key) eqn:E; [rewrite lookup_insert_eq|]; by destruct (bool_decide _).
    - rewrite (bool_decide_ext (key ∈ k :: ks) (key ∈ ks)) by (rewrite elem_of_cons; naive_solver).
      destruct (lookup k) eqn:E; [by rewrite lookup_insert_ne|done]. }
  rewrite H, lookup_empty. by destruct (if bool_decide _ then _ else _).
Qed.

(** a variable of a spawned process is an override, or else comes from the
    .env files, or else is on the short list and comes from the host; so a host
    variable that is not on the list does not reach the process, and two hosts
    that agree on the list spawn the process with the same environment. *)
Theorem ProcessEnv_isolated lookup lookup' files overrides :
  (forall key, process_map lookup files overrides !! key =
     match overrides !! key with
     | Some v => Some v
     | None => match (match files with Ok env => env !! key | Err _ => None end) with
               | Some v => Some v
               | None => if bool_decide (key ∈ passthroughEnvKeys) then lookup key else None
               end
     end) /\
  ((forall key, key ∈ passthroughEnvKeys -> lookup key = lookup' key) ->
   ProcessEnv lookup files overrides = ProcessEnv lookup' files overrides).
Proof.
  assert (forall lk key, process_map lk files overrides !! key =
     match overrides !! key with
     | Some v => Some v
     | None => match (match files with Ok env => env !! key | Err _ => None end) with
               | Some v => Some v
               | None => if bool_decide (key ∈ passthroughEnvKeys) then lk key else None
               end
     end) as H.
  { intros lk key. unfold process_map. rewrite lookup_union. destruct files as [env|].
    - rewrite lookup_union, host_base_lookup.
      destruct (overrides !! key), (env !! key), (if bool_decide _ then _ else _); reflexivity.
    - rewrite host_base_lookup. destruct (overrides !! key), (if bool_decide _ then _ else _); reflexivity. }
  split; [apply H|]. intros Hag. unfold ProcessEnv. f_equal. f_equal. f_equal. apply map_eq. intros key.
  rewrite !H. destruct (bool_decide_reflect (key ∈ passthroughEnvKeys)); [by rewrite Hag|done].
Qed.

Definition sim_host (key : string) : option string :=
  if decide (key = "HOME") then Some "/home/me" else if decide (key = "AWS_SECRET_ACCESS_KEY") then Some "s3cr3t" else None.

Lemma ProcessEnv_isolated_witness :
  ProcessEnv sim_host (Ok ∅) ∅ = ProcessEnv (fun k => if decide (k = "HOME") then Some "/home/me" else None) (Ok ∅) ∅.
Proof.
  apply (ProcessEnv_isolated sim_host (fun k => if decide (k = "HOME") then Some "/home/me" else None) (Ok ∅) ∅).
  intros key Hk. unfold sim_host. destruct (decide (key = "HOME")); [done|].
  destruct (decide (key = "AWS_SECRET_ACCESS_KEY")) as [->|]; [|done].
  apply (bool_decide_eq_true_2 _) in Hk. by vm_compute in Hk.
Defined.

(** ** Concrete runs *)

(** A token with a line feed sets another variable as well; one in quotes loses
    them; and an escaped backslash before an [n] becomes a line feed. *)
Lemma newline_injects :
  saveEnvVarToFile None "TOKEN" ("x" +:+ nl +:+ "PATH=/evil") = Ok ("TOKEN=x" +:+ nl +:+ "PATH=/evil" +:+ nl) /\
  loadEnvFileInto (Some ("TOKEN=x" +:+ nl +:+ "PATH=/evil" +:+ nl)) ∅ = Ok (<["PATH" := "/evil"]> (<["TOKEN" := "x"]> ∅)).
Proof. by vm_compute. Qed.

Lemma quotes_lost :
  saveEnvVarToFile None "TOKEN" "'secret'" = Ok ("TOKEN='secret'" +:+ nl) /\
  loadEnvFileInto (Some ("TOKEN='secret'" +:+ nl)) ∅ = Ok {["TOKEN" := "secret"]}.
Proof. by vm_compute. Qed.

Lemma escaped_backslash :
  unquote (dq +:+ "C:" +:+ backslash +:+ backslash +:+ "new" +:+ dq) = "C:" +:+ backslash +:+ nl +:+ "ew".
Proof. by vm_compute. Qed.

(** The mask of a token of eight characters shows all of them. *)
Lemma mask_reveals token : String.length token = 8 ->
  exists a b, token = a +:+ b /\ MaskToken token = a +:+ "***" +:+ b.
Proof.
  intros Hl. exists (String.substring 0 4 token), (String.substring 4 4 token).
  do 9 (destruct token as [|? token]; try discriminate Hl). by split.
Qed.
