(* ===== verification/SettingsEffective.v ===== *)
(** * The effective settings

    Translates [LoadEffective] (settings/storage.go), [InjectEnvVars] (dotenv.go)
    and the resolver of single keys (cascade.go), and shows which settings reach
    the program.  What is in the files, the .env files and the environment are
    arguments. *)

From S2P Require Import Prelude Floats SettingsData SettingsMerge SettingsPaths.

(** ** LoadEffective *)

Notation EnvMap := (gmap string string).

Definition env_get (m : EnvMap) (key : string) : string := default "" (m !! key).

(** One token, when the .env files have it. *)
Definition inject (env : EnvMap) (key : string) (put : string -> Settings -> Settings) (s : Settings) : Settings :=
  if decide (env_get env key = "") then s else put (env_get env key) s.

Definition InjectEnvVars (s : Settings) (env : EnvMap) : Settings :=
  inject env "OPENAI_API_KEY" (fun k => set_field s_Agent (set_field ag_OpenAI (set_field api_APIKey (fun _ => k))))
  (inject env "ANTHROPIC_API_KEY" (fun k => set_field s_Agent (set_field ag_Anthropic (set_field api_APIKey (fun _ => k))))
  (inject env "LINEAR_TOKEN" (fun k => set_field s_Providers (set_field pr_Linear (set_field li_Token (fun _ => k))))
  (inject env "WRIKE_TOKEN" (fun k => set_field s_Providers (set_field pr_Wrike (set_field wr_Token (fun _ => k))))
  (inject env "GITLAB_TOKEN" (fun k => set_field s_Providers (set_field pr_GitLab (set_field gl_Token (fun _ => k))))
  (inject env "GITHUB_TOKEN" (fun k => set_field s_Providers (set_field pr_GitHub (set_field gh_Token (fun _ => k)))) s))))).

(** The preset named by the project or else by the global settings. *)
Definition preset_name (global project : option Settings) : string :=
  over (default "" (s_Preset <$> project)) (over (default "" (s_Preset <$> global)) "").

Definition merged (global project : option Settings) : Settings :=
  let name := preset_name global project in
  let effective := if decide (name = "") then DefaultSettings else merge_opt DefaultSettings (ApplyPreset name) in
  merge_opt (merge_opt effective global) project.

Definition LoadEffective (lookup : string -> option string) (env : result string EnvMap)
  (global project : result string (option Settings)) : result string (Settings * option Settings * option Settings) :=
  match env with
  | Err e => Err ("load env: " +:+ e)
  | Ok envMap =>
      match global with
      | Err e => Err ("load global: " +:+ e)
      | Ok global =>
          match project with
          | Err e => Err ("load project: " +:+ e)
          | Ok project =>
              Ok (applyEnvOverrides lookup (InjectEnvVars (merged global project) envMap), global, project)
          end
      end
  end.

(** ** The resolver of single keys *)

Record SettingDefinition := mkDefinition {
  def_Key : string;
  def_DataType : string;
  DefaultValue : any;
  Scopes : list string
}.

Definition bothScopes : list string := [ScopeGlobal; ScopeProject].

Definition DefaultDefinitions : list SettingDefinition := [
  mkDefinition "agent.default" "string" (AString "claude") bothScopes;
  mkDefinition "agent.strategy" "string" (AString "direct") bothScopes;
  mkDefinition "workflow.auto_advance" "bool" (ABool false) bothScopes;
  mkDefinition "workflow.use_worktree_isolation" "bool" (ABool true) bothScopes;
  mkDefinition "git.branch_pattern" "string" (AString "feature/{key}--{slug}") bothScopes;
  mkDefinition "git.commit_prefix" "string" (AString "[{key}]") bothScopes;
  mkDefinition "git.auto_commit" "bool" (ABool true) bothScopes;
  mkDefinition "git.create_branch" "bool" (ABool true) bothScopes;
  mkDefinition "workers.max" "int" (AInt 3) bothScopes;
  mkDefinition "notify.enabled" "bool" (ABool false) bothScopes;
  mkDefinition "notify.terminal" "bool" (ABool true) bothScopes;
  mkDefinition "storage.save_in_project" "bool" (ABool false) bothScopes;
  mkDefinition "workflow.hold_the_line" "bool" (ABool true) bothScopes;
  mkDefinition "agent.token_budget" "int" (AInt 0) bothScopes;
  mkDefinition "agent.task_token_budget" "int" (AInt 0) bothScopes
].

(** [CascadeResolver.definitions] *)
Notation CascadeResolver := (gmap string SettingDefinition).

Definition RegisterDefinitions (defs : list SettingDefinition) (r : CascadeResolver) : CascadeResolver :=
  fold_left (fun r d => <[def_Key d := d]> r) defs r.

Definition NewCascadeResolver : CascadeResolver := RegisterDefinitions DefaultDefinitions ∅.

Record ResolvedSetting := mkResolved { rs_Key : string; rs_Value : any; rs_Source : string }.

Definition set_string (s : string) : option any := if decide (s = "") then None else Some (AString s).

(** [getSettingFromConfig] *)
Definition getSettingFromConfig (key : string) (s : Settings) : option any :=
  go_switch key
    [("agent.default", set_string (ag_Default (s_Agent s)));
     ("agent.strategy", set_string (ag_Strategy (s_Agent s)));
     ("workflow.auto_advance", ABool <$> wf_AutoAdvance (s_Workflow s));
     ("workflow.use_worktree_isolation", ABool <$> wf_UseWorktreeIsolation (s_Workflow s));
     ("workflow.hold_the_line", ABool <$> wf_HoldTheLine (s_Workflow s));
     ("git.branch_pattern", set_string (git_BranchPattern (s_Git s)));
     ("git.commit_prefix", set_string (git_CommitPrefix (s_Git s)));
     ("git.auto_commit", ABool <$> git_AutoCommit (s_Git s));
     ("git.create_branch", ABool <$> git_CreateBranch (s_Git s));
     ("workers.max", if (0 <? wk_Max (s_Workers s))%Z then Some (AInt (wk_Max (s_Workers s))) else None);
     ("notify.enabled", ABool <$> no_Enabled (s_Notify s));
     ("notify.terminal", ABool <$> no_Terminal (s_Notify s));
     ("storage.save_in_project", ABool <$> sto_SaveInProject (s_Storage s))]
    None.

Definition in_scope (scope : string) (def : SettingDefinition) (key : string) (s : option Settings) : option any :=
  s ← s; if slice_contains (Scopes def) scope then getSettingFromConfig key s else None.

Definition resolve (key : string) (def : SettingDefinition) (project global : option Settings) : ResolvedSetting :=
  match in_scope ScopeProject def key project with
  | Some v => mkResolved key v ScopeProject
  | None =>
      match in_scope ScopeGlobal def key global with
      | Some v => mkResolved key v ScopeGlobal
      | None => mkResolved key (DefaultValue def) "default"
      end
  end.

Definition GetResolved (r : CascadeResolver) (key : string) (project global : option Settings) : ResolvedSetting :=
  match r !! key with
  | None => mkResolved "" ANil ""
  | Some def => resolve key def project global
  end.

Definition GetAllResolved (r : CascadeResolver) (project global : option Settings) : list ResolvedSetting :=
  (fun key => GetResolved r key project global) <$> sort_strings (map_to_list r).*1.

(** ** Lemmas: merging *)

Lemma over_assoc c b a : over c (over b a) = over (over c b) a.
Proof. unfold over. repeat destruct (decide _); congruence. Qed.
Lemma over_idem b a : over b (over b a) = over b a.
Proof. unfold over. by destruct (decide _). Qed.
Lemma over_list_assoc {A} (c b a : list A) : over_list c (over_list b a) = over_list (over_list c b) a.
Proof. by destruct c, b. Qed.
Lemma over_list_idem {A} (b a : list A) : over_list b (over_list b a) = over_list b a.
Proof. by destruct b. Qed.
Lemma over_ptr_assoc {A} (c b a : option A) : over_ptr c (over_ptr b a) = over_ptr (over_ptr c b) a.
Proof. by destruct c, b. Qed.
Lemma over_ptr_idem {A} (b a : option A) : over_ptr b (over_ptr b a) = over_ptr b a.
Proof. by destruct b. Qed.
Lemma over_pos_assoc c b a : over_pos c (over_pos b a) = over_pos (over_pos c b) a.
Proof. unfold over_pos. destruct (Z.ltb_spec 0 c); [by destruct (Z.ltb_spec 0 c); [|lia]|done]. Qed.
Lemma over_pos_idem b a : over_pos b (over_pos b a) = over_pos b a.
Proof. unfold over_pos. by destruct (0 <? b)%Z. Qed.
Lemma turn_on_assoc c b a : turn_on c (turn_on b a) = turn_on (turn_on c b) a.
Proof. apply orb_assoc. Qed.
Lemma turn_on_idem b a : turn_on b (turn_on b a) = turn_on b a.
Proof. by destruct b. Qed.
Lemma copy_map_assoc {V} (c b a : gmap string V) : copy_map c (copy_map b a) = copy_map (copy_map c b) a.
Proof. apply map_union_assoc. Qed.
Lemma copy_map_idem {V} (b a : gmap string V) : copy_map b (copy_map b a) = copy_map b a.
Proof. unfold copy_map. by rewrite map_union_assoc, map_union_idemp. Qed.
Lemma copy_map_empty {V} (a : gmap string V) : copy_map ∅ a = a.
Proof. apply map_empty_union. Qed.

Create HintDb merging.
#[export] Hint Rewrite over_assoc @over_list_assoc @over_ptr_assoc over_pos_assoc turn_on_assoc @copy_map_assoc
  : merge_assoc.
#[export] Hint Rewrite over_idem @over_list_idem @over_ptr_idem over_pos_idem turn_on_idem @copy_map_idem : merge_idem.

Ltac unfold_merge :=
  unfold Merge, merge_agent, merge_providers, merge_git, merge_storage, merge_workflow, merge_policy, merge_review,
    mergeGitHubConfig, mergeGitLabConfig, mergeWrikeConfig, mergeLinearConfig, mergeJiraConfig,
    mergeAzureDevOpsConfig; cbn.

Lemma Merge_assoc a b c : Merge (Merge a b) c = Merge a (Merge b c).
Proof. unfold_merge. autorewrite with merge_assoc. reflexivity. Qed.

Lemma Merge_idem a b : Merge (Merge a b) b = Merge a b.
Proof. unfold_merge. autorewrite with merge_idem. reflexivity. Qed.

Lemma Merge_zero a : Merge a zero_Settings = a.
Proof.
  unfold_merge. rewrite !(left_id_L ∅ (∪)).
  destruct a as [? ? ? [] [? [] [] [] [] [] []] [] [] [] [? ? ? [] [] ? ? ? ? ? ? ? ? ? ? ? ?] ? ? ? [] ? ? ?]. reflexivity.
Qed.

(** *** Settings that no merge reads *)

(** The fields that [Merge] leaves to its first argument. *)
Definition unmerged (s : Settings) :=
  let a := s_Agent s in let g := s_Git s in let t := s_Storage s in let w := s_Workflow s in
  ((s_Version s, s_Identity s, s_Environment s, s_Notify s, s_Watchdog s, s_Security s, s_TUI s),
   (ag_Strategy a, ag_PhaseStrategy a, ag_PhaseAgent a, ag_Consensus a, ag_ResponseCache a, ag_TokenBudget a,
    ag_TaskTokenBudget a, ag_Ollama a, ag_ClaudeMCP a),
   (git_PRCustomSections g, git_Provision g),
   (sto_OutcomeLinking t, sto_Recording t, sto_ActivityLog t, sto_MetricsHistory t),
   (wf_AutoAdvance w, wf_SkipPhases w, wf_Retry w, wf_PhasePolicies w, wf_CI w, wf_FailureClassification w,
    wf_AutoFix w, wf_ProgressEstimation w, wf_AdversarialReview w, wf_Forking w, wf_TaskGroups w),
   (pol_RequireSignedCommits (wf_Policy w), pol_RiskBasedApproval (wf_Policy w))).

Lemma unmerged_merge dst src : unmerged (Merge dst src) = unmerged dst.
Proof. reflexivity. Qed.

Lemma unmerged_merge_opt dst src : unmerged (merge_opt dst src) = unmerged dst.
Proof. by destruct src. Qed.

Lemma unmerged_merged global project : unmerged (merged global project) = unmerged DefaultSettings.
Proof. unfold merged. rewrite !unmerged_merge_opt. destruct (decide _); [done|]. by rewrite unmerged_merge_opt. Qed.

(** What every injection keeps. *)
Lemma inject_keeps {A} (f : Settings -> A) env key put s :
  (forall k s, f (put k s) = f s) -> f (inject env key put s) = f s.
Proof. intros H. unfold inject. by destruct (decide _). Qed.

Lemma unmerged_inject s env : unmerged (InjectEnvVars s env) = unmerged s.
Proof. unfold InjectEnvVars. by rewrite !(inject_keeps unmerged) by reflexivity. Qed.

Lemma review_mode_inv s v s' : set review_mode s v = Ok s' -> exists m, s' = set_review (set_field er_Mode (fun _ => m)) s.
Proof. cbn [set review_mode]. destruct v; try done. destruct (slice_contains _ _); [|done]. intros [= <-]. by eexists. Qed.

Lemma review_command_inv s v s' :
  set review_command s v = Ok s' -> exists c, s' = set_review (set_field er_Command (fun _ => c)) s.
Proof. cbn [set review_command]. destruct v; try done. destruct (_ || _); [done|]. intros [= <-]. by eexists. Qed.

(** What every setting keeps that a KVELMO_ variable can set. *)
Definition kept_by_overrides {A} (f : Settings -> A) : Prop :=
  Forall (fun ov : string * string => forall s v s', SetValue s ov.2 v = Ok s' -> f s' = f s) envOverrides.

Ltac kept_by_overrides :=
  unfold kept_by_overrides, envOverrides;
  repeat (apply Forall_cons_2;
    [intros ? ? ? Hs;
     first [apply review_mode_inv in Hs as (? & ->); reflexivity
           |apply review_command_inv in Hs as (? & ->); reflexivity
           |apply assigned_inv in Hs as (? & ? & ->); reflexivity]|]);
  apply Forall_nil_2.

Lemma overrides_keep {A} (f : Settings -> A) lookup s : kept_by_overrides f -> f (applyEnvOverrides lookup s) = f s.
Proof.
  unfold applyEnvOverrides. intros H. revert s.
  induction H as [|ov ovs Hov _ IH]; intros s; [done|]. cbn [fold_left]. rewrite IH. unfold apply_override.
  destruct (_ ≫= _) as [v|]; [|done]. destruct (SetValue s ov.2 v) as [s'|] eqn:E; [|done]. by eapply Hov.
Qed.

Lemma unmerged_overrides lookup s : unmerged (applyEnvOverrides lookup s) = unmerged s.
Proof. apply overrides_keep. kept_by_overrides. Qed.

(** *** The resolver and the merge *)

(** What the merge starts from: the defaults with a preset. *)
Definition start_with (name : string) : Settings :=
  if decide (name = "") then DefaultSettings else merge_opt DefaultSettings (ApplyPreset name).

Lemma start_with_cases name :
  start_with name = DefaultSettings \/
  name <> "" /\ (start_with name = Merge DefaultSettings compliancePreset \/
                 start_with name = Merge DefaultSettings fastPreset \/
                 start_with name = Merge DefaultSettings soloPreset).
Proof.
  unfold start_with, ApplyPreset. destruct (decide (name = "")); [by left|].
  repeat (destruct (decide _); [right; by auto|]). by left.
Qed.

(** The keys for which the resolver knows the field and the merge keeps it. *)
Definition agreed : list string :=
  ["workflow.use_worktree_isolation"; "git.branch_pattern"; "git.commit_prefix"; "git.auto_commit";
   "git.create_branch"; "workers.max"; "storage.save_in_project"].

(** [v] is what the first of the files that says something says, or [d]. *)
Definition first_set (project global : option Settings) (read : Settings -> option any) (d : any) : any :=
  default d (over_ptr (project ≫= read) (global ≫= read)).

Lemma resolve_first_set key d dt project global :
  rs_Value (resolve key (mkDefinition key dt d bothScopes) project global) =
    first_set project global (getSettingFromConfig key) d.
Proof.
  unfold resolve, first_set. change (in_scope ScopeProject (mkDefinition key dt d bothScopes) key project)
    with (project ≫= getSettingFromConfig key).
  change (in_scope ScopeGlobal (mkDefinition key dt d bothScopes) key global) with (global ≫= getSettingFromConfig key).
  by destruct (project ≫= _), (global ≫= _).
Qed.

Lemma first_set_ext project global read read' d :
  (forall s, read' s = read s) -> first_set project global read d = first_set project global read' d.
Proof. intros H. unfold first_set. destruct project as [p|], global as [g|]; unfold mbind, option_bind; by rewrite ?H. Qed.

(** A field of each kind, as the merge and as the resolver see it. *)
Lemma string_first_set (field : Settings -> string) start project global :
  (forall a b, field (Merge a b) = over (field b) (field a)) ->
  AString (field (merge_opt (merge_opt start global) project)) =
    first_set project global (fun s => set_string (field s)) (AString (field start)).
Proof.
  intros H. unfold first_set, set_string. destruct project as [p|], global as [g|]; cbn; rewrite ?H; unfold over;
    repeat destruct (decide _); cbn; congruence.
Qed.

Lemma bool_first_set (field : Settings -> option bool) d start project global :
  (forall a b, field (Merge a b) = over_ptr (field b) (field a)) -> field start = Some d ->
  forall d', ABool (BoolValue (field (merge_opt (merge_opt start global) project)) d') =
    first_set project global (fun s => ABool <$> field s) (ABool d).
Proof.
  intros H Hs d'. unfold first_set, BoolValue. destruct project as [p|], global as [g|]; cbn; rewrite ?H, ?Hs;
    try destruct (field p); try destruct (field g); cbn; congruence.
Qed.

Definition read_max (s : Settings) : option any :=
  if (0 <? wk_Max (s_Workers s))%Z then Some (AInt (wk_Max (s_Workers s))) else None.

Lemma max_first_set start project global :
  AInt (wk_Max (s_Workers (merge_opt (merge_opt start global) project))) =
    first_set project global read_max (AInt (wk_Max (s_Workers start))).
Proof.
  unfold first_set, read_max. destruct project as [p|], global as [g|]; cbn; unfold over_pos;
    repeat destruct (_ <? _)%Z; reflexivity.
Qed.

(** A field that no preset sets. *)
Lemma start_with_field {A} (field : Settings -> A) name :
  field (Merge DefaultSettings compliancePreset) = field DefaultSettings ->
  field (Merge DefaultSettings fastPreset) = field DefaultSettings ->
  field (Merge DefaultSettings soloPreset) = field DefaultSettings ->
  field (start_with name) = field DefaultSettings.
Proof. intros H1 H2 H3. by destruct (start_with_cases name) as [->|[_ [->|[->| ->]]]]. Qed.

Lemma agree_string key dt (field : Settings -> string) project global :
  NewCascadeResolver !! key = Some (mkDefinition key dt (AString (field DefaultSettings)) bothScopes) ->
  (forall s, getSettingFromConfig key s = set_string (field s)) ->
  (forall s, GetValue s key = Ok (AString (field s))) ->
  (forall a b, field (Merge a b) = over (field b) (field a)) ->
  (forall name, field (start_with name) = field DefaultSettings) ->
  GetValue (merged global project) key = Ok (rs_Value (GetResolved NewCascadeResolver key project global)).
Proof.
  intros Hd Hc Hg Hm Hs. unfold merged, GetResolved. fold (start_with (preset_name global project)).
  rewrite Hd, Hg, resolve_first_set, (string_first_set field), Hs by done.
  f_equal. by apply first_set_ext.
Qed.

Lemma agree_bool key dt d d' (field : Settings -> option bool) project global :
  NewCascadeResolver !! key = Some (mkDefinition key dt (ABool d) bothScopes) ->
  (forall s, getSettingFromConfig key s = ABool <$> field s) ->
  (forall s, GetValue s key = Ok (ABool (BoolValue (field s) d'))) ->
  (forall a b, field (Merge a b) = over_ptr (field b) (field a)) ->
  (forall name, field (start_with name) = Some d) ->
  GetValue (merged global project) key = Ok (rs_Value (GetResolved NewCascadeResolver key project global)).
Proof.
  intros Hd Hc Hg Hm Hs. unfold merged, GetResolved. fold (start_with (preset_name global project)).
  rewrite Hd, Hg, resolve_first_set, (bool_first_set field d) by done.
  f_equal. by apply first_set_ext.
Qed.

Ltac agree lem field :=
  apply (lem field);
  [reflexivity | reflexivity | reflexivity | reflexivity | intros name; apply (start_with_field field name); reflexivity].

Lemma cascade_agrees key project global :
  key ∈ agreed -> (key = "workers.max" -> preset_name global project = "") ->
  GetValue (merged global project) key = Ok (rs_Value (GetResolved NewCascadeResolver key project global)).
Proof.
  intros Hkey Hmax. unfold agreed in Hkey. rewrite !elem_of_cons in Hkey.
  destruct Hkey as [->|[->|[->|[->|[->|[->|[->|[]%not_elem_of_nil]]]]]]].
  - agree (agree_bool "workflow.use_worktree_isolation" "bool" true true) (fun s => wf_UseWorktreeIsolation (s_Workflow s)).
  - agree (agree_string "git.branch_pattern" "string") (fun s => git_BranchPattern (s_Git s)).
  - agree (agree_string "git.commit_prefix" "string") (fun s => git_CommitPrefix (s_Git s)).
  - agree (agree_bool "git.auto_commit" "bool" true true) (fun s => git_AutoCommit (s_Git s)).
  - agree (agree_bool "git.create_branch" "bool" true true) (fun s => git_CreateBranch (s_Git s)).
  - unfold merged, GetResolved. rewrite Hmax by done.
    replace (NewCascadeResolver !! "workers.max") with (Some (mkDefinition "workers.max" "int" (AInt 3) bothScopes)) by reflexivity.
    rewrite resolve_first_set. exact (f_equal Ok (max_first_set DefaultSettings project global)).
  - agree (agree_bool "storage.save_in_project" "bool" false false) (fun s => sto_SaveInProject (s_Storage s)).
Qed.

Lemma inject_other key s env : key ∈ envOverrides.*2 -> GetValue (InjectEnvVars s env) key = GetValue s key.
Proof.
  intros Hk. cbn in Hk. rewrite !elem_of_cons in Hk.
  repeat (destruct Hk as [->|Hk];
    [unfold InjectEnvVars; do 6 (etrans; [apply (inject_keeps (fun s => GetValue s _)); reflexivity|]); reflexivity|]).
  by apply not_elem_of_nil in Hk.
Qed.

(** ** Properties *)

(** merging settings is associative and idempotent, and merging settings that
    say nothing changes nothing: what the files together say does not depend on
    how they are grouped, only on their order. *)
Theorem Merge_action dst a b :
  Merge dst zero_Settings = dst /\ Merge (Merge dst a) a = Merge dst a /\
  Merge (Merge dst a) b = Merge dst (Merge a b).
Proof. split_and!; [apply Merge_zero|apply Merge_idem|apply Merge_assoc]. Qed.

(** the value a setting takes effect with, for every setting that a KVELMO_
    variable can set: what the variable says when it is set, parses and is
    accepted; else what the merged files say; and for the keys the resolver knows
    as well, that is the value the resolver shows: the project's, or else the
    global one, or else the default of its definition. *)
Theorem effective_value lookup env global project e suffix key :
  LoadEffective lookup (Ok env) (Ok global) (Ok project) = Ok (e, global, project) ->
  (suffix, key) ∈ envOverrides ->
  match lookup ("KVELMO_" +:+ suffix) ≫= override_value key with
  | Some v =>
      if accepts key v then exists w, GetValue e key = Ok w /\ reads_as v w
      else GetValue e key = GetValue (merged global project) key
  | None => GetValue e key = GetValue (merged global project) key
  end /\
  (key ∈ agreed -> (key = "workers.max" -> preset_name global project = "") ->
   GetValue (merged global project) key = Ok (rs_Value (GetResolved NewCascadeResolver key project global))).
Proof.
  unfold LoadEffective. intros [= <-] Hin. split; [|apply cascade_agrees]. unfold applyEnvOverrides.
  pose proof (apply_overrides_at lookup envOverrides (InjectEnvVars (merged global project) env) (suffix, key)
    override_paths_distinct Hin) as H. cbn [fst snd] in H.
  rewrite inject_other in H by exact (list_elem_of_fmap_2 snd _ _ Hin). exact H.
Qed.

(** the settings that [Merge] forgets take effect with their defaults,
    whatever the files, the presets, the .env files and the environment say. *)
Theorem forgotten_settings lookup env global project e g p :
  LoadEffective lookup env global project = Ok (e, g, p) -> unmerged e = unmerged DefaultSettings.
Proof.
  unfold LoadEffective. destruct env as [env|], global as [global|], project as [project|]; try done.
  intros [= <- <- <-]. by rewrite unmerged_overrides, unmerged_inject, unmerged_merged.
Qed.

(** ** Concrete runs *)

Definition sim_global : Settings :=
  zero_Settings <| s_Preset := "fast" |>
    <| s_Git := zero_GitSettings <| git_AutoCommit := Some true |> |>.
Definition sim_project : Settings :=
  zero_Settings
    <| s_Git := zero_GitSettings <| git_AutoCommit := Some false |> |>
    <| s_Agent := zero_AgentSettings <| ag_Strategy := "reflective" |> |>
    <| s_Workflow := zero_WorkflowSettings <| wf_AutoAdvance := Some true |> |>.

Definition sim_lookup (name : string) : option string :=
  if decide (name = "KVELMO_WORKERS_MAX") then Some "8" else None.

Definition sim_effective : Settings := applyEnvOverrides sim_lookup (InjectEnvVars (merged (Some sim_global) (Some sim_project)) ∅).

Lemma effective_value_witness :
  let key := "git.auto_commit" in
  GetValue sim_effective key = GetValue (merged (Some sim_global) (Some sim_project)) key /\
  (key ∈ agreed -> (key = "workers.max" -> preset_name (Some sim_global) (Some sim_project) = "") ->
   GetValue (merged (Some sim_global) (Some sim_project)) key =
     Ok (rs_Value (GetResolved NewCascadeResolver key (Some sim_project) (Some sim_global)))).
Proof.
  refine (effective_value sim_lookup ∅ (Some sim_global) (Some sim_project) sim_effective "GIT_AUTO_COMMIT" "git.auto_commit" eq_refl _).
  apply (bool_decide_eq_true_1 _). by vm_compute.
Defined.

Lemma forgotten_settings_witness : unmerged sim_effective = unmerged DefaultSettings.
Proof. exact (forgotten_settings sim_lookup (Ok ∅) (Ok (Some sim_global)) (Ok (Some sim_project)) sim_effective _ _ eq_refl). Defined.

(** The strategy and the automatic advance that the project asks for, and that
    the resolver shows, do not take effect; neither does what the presets are for. *)
Lemma resolver_shows_forgotten :
  rs_Value (GetResolved NewCascadeResolver "agent.strategy" (Some sim_project) (Some sim_global)) = AString "reflective" /\
  ag_Strategy (s_Agent sim_effective) = "" /\
  rs_Value (GetResolved NewCascadeResolver "workflow.auto_advance" (Some sim_project) (Some sim_global)) = ABool true /\
  wf_AutoAdvance (s_Workflow sim_effective) = None.
Proof. by vm_compute. Qed.

Lemma presets_forgotten :
  al_Enabled (sto_ActivityLog (s_Storage compliancePreset)) = true /\
  pol_RequireSignedCommits (wf_Policy (s_Workflow compliancePreset)) = true /\
  al_Enabled (sto_ActivityLog (s_Storage (Merge DefaultSettings compliancePreset))) = false /\
  pol_RequireSignedCommits (wf_Policy (s_Workflow (Merge DefaultSettings compliancePreset))) = false /\
  wf_AutoAdvance (s_Workflow fastPreset) = Some true /\
  wf_AutoAdvance (s_Workflow (Merge DefaultSettings fastPreset)) = None.
Proof. by vm_compute. Qed.

(** The default agent of the resolver is not the default of the settings, and its
    token budgets are never read from the files. *)
Lemma resolver_defaults_differ :
  rs_Value (GetResolved NewCascadeResolver "agent.default" None None) = AString "claude" /\
  GetValue (merged None None) "agent.default" = Ok (AString "claude-mcp") /\
  rs_Value (GetResolved NewCascadeResolver "agent.token_budget" None
    (Some (zero_Settings <| s_Agent := zero_AgentSettings <| ag_TokenBudget := 5000%Z |> |>))) = AInt 0.
Proof. by vm_compute. Qed.

(** A plain bool of the global settings cannot be switched off by a project. *)
Lemma plain_bool_stays_on :
  let on := zero_Settings <| s_Providers := zero_ProviderSettings <| pr_Wrike := mkWrikeConfig "" true true true |> |> in
  let off := zero_Settings in
  wr_AllowTicketComment (pr_Wrike (s_Providers (merged (Some on) (Some off)))) = true /\
  wr_IncludeParentContext (pr_Wrike (s_Providers (merged None (Some off)))) = true.
Proof. by vm_compute. Qed.

(** The defaults are valid. *)
Lemma defaults_valid : Validate DefaultSettings = [].
Proof. by vm_compute. Qed.
