(* ===== verification/Migrate.v ===== *)
(** * Migrating settings files

    Translates settings/version.go: the version of a decoded settings file, the chain
    of migrations, and the migration of a file.  YAML is a parameter; a value that is
    neither null nor a number is its text. *)

From S2P Require Import Prelude Floats.

(** ** Data *)

Definition CurrentConfigVersion : Z := 1.

Inductive Raw := RNull | RInt (n : Z) | RInt64 (n : Z) | RFloat (f : spec_float) | ROther (text : string).

Notation RawMap := (gmap string Raw).

(** [Apply] changes the map it is given: what it leaves, and an error. *)
Record ConfigMigration := mkMigration { From : Z; To : Z; Apply : RawMap -> RawMap * option string }.

Definition configMigrations : list ConfigMigration := [mkMigration 0 1 (fun raw => (raw, None))].

(** ** The chain *)

(** [int(n)] of a float64 that an int holds. *)
Definition configVersionOf (raw : RawMap) : Z :=
  match raw !! "version" with
  | Some (RInt n) | Some (RInt64 n) => n
  | Some (RFloat f) => trunc f
  | _ => 0%Z
  end.

Definition migrationFor (chain : list ConfigMigration) (from : Z) : option ConfigMigration :=
  List.find (fun m => (From m =? from)%Z) chain.

(** The loop, from [current] for [steps] versions: the map it leaves, and the error. *)
Fixpoint run_chain (chain : list ConfigMigration) (steps : nat) (current : Z) (raw : RawMap) : RawMap * option string :=
  match steps with
  | 0 => (raw, None)
  | S steps =>
      match migrationFor chain current with
      | None => (raw, Some ("no config migration registered for version " +:+ pretty current +:+ "→" +:+ pretty (current + 1)%Z))
      | Some mig =>
          if negb (To mig =? current + 1)%Z
          then (raw, Some ("config migration from " +:+ pretty current +:+ " must advance to " +:+ pretty (current + 1)%Z +:+
                           ", got To=" +:+ pretty (To mig)))
          else
            match Apply mig raw with
            | (raw, Some err) => (raw, Some ("config migration " +:+ pretty (From mig) +:+ "→" +:+ pretty (To mig) +:+ ": " +:+ err))
            | (raw, None) => run_chain chain steps (To mig) raw
            end
      end
  end.

(** The map, and whether a migration ran or the error. *)
Definition migrateRawTo (raw : RawMap) (chain : list ConfigMigration) (target : Z) : RawMap * (string + bool) :=
  let current := configVersionOf raw in
  if (target <? current)%Z
  then (raw, inl ("config version " +:+ pretty current +:+ " is newer than supported version " +:+ pretty target +:+ ": upgrade kvelmo"))
  else if (current =? target)%Z then (raw, inr false)
  else
    match run_chain chain (Z.to_nat (target - current)) current raw with
    | (raw, Some err) => (raw, inl err)
    | (raw, None) => (<["version" := RInt target]> raw, inr true)
    end.

(** ** Files *)

(** [yaml.Unmarshal] into a map, which is nil for an empty file; [yaml.Marshal]; and
    what decoding the bytes into the settings and saving them in their order gives. *)
Class Yaml := {
  unmarshal : string -> string + option RawMap;
  marshal : RawMap -> string + string;
  canonical : string -> string + string
}.

Section Files.
Context `{Yaml}.

(** The bytes and whether they changed, or the error. *)
Definition MigrateConfigData (data : string) : string + (string * bool) :=
  match unmarshal data with
  | inl err => inl ("parse config for migration: " +:+ err)
  | inr None => inr (data, false)
  | inr (Some raw) =>
      match migrateRawTo raw configMigrations CurrentConfigVersion with
      | (_, inl err) => inl err
      | (_, inr false) => inr (data, false)
      | (raw, inr true) =>
          match marshal raw with
          | inl err => inl ("marshal migrated config: " +:+ err)
          | inr out => inr (out, true)
          end
      end
  end.

(** A file that is read, is missing, or cannot be read. *)
Inductive FileRead := Content (data : string) | NotExist | ReadError (err : string).

(** The content to write, if any, and whether the file was migrated or the error.
    [canonical] sets the version when it is missing; [save] is the error of writing. *)
Definition MigrateConfigFile (save : option string) (file : FileRead) : option string * (string + bool) :=
  match file with
  | NotExist => (None, inr false)
  | ReadError err => (None, inl ("read config: " +:+ err))
  | Content data =>
      match MigrateConfigData data with
      | inl err => (None, inl err)
      | inr (_, false) => (None, inr false)
      | inr (migrated, true) =>
          match canonical migrated with
          | inl err => (None, inl ("parse migrated config: " +:+ err))
          | inr out => match save with Some err => (None, inl err) | None => (Some out, inr true) end
          end
      end
  end.
End Files.

(** ** Lemmas *)

(** The migrations that lead from one version to another, applied in turn. *)
Inductive migrates (chain : list ConfigMigration) : Z -> RawMap -> Z -> RawMap -> Prop :=
| migrates_none v raw : migrates chain v raw v raw
| migrates_step v raw mig raw1 v' raw' :
    migrationFor chain v = Some mig -> To mig = (v + 1)%Z -> Apply mig raw = (raw1, None) ->
    migrates chain (v + 1) raw1 v' raw' -> migrates chain v raw v' raw'.

Lemma migrates_le chain v raw v' raw' : migrates chain v raw v' raw' -> (v <= v')%Z.
Proof. induction 1; lia. Qed.

Lemma run_chain_iff chain steps : forall current raw raw',
  run_chain chain steps current raw = (raw', None) <-> migrates chain current raw (current + Z.of_nat steps) raw'.
Proof.
  induction steps as [|steps IH]; intros current raw raw'; cbn [run_chain].
  - rewrite Z.add_0_r. split; [intros [= ->]; constructor|]. inversion 1 as [|? ? ? ? ? ? _ _ _ Hm]; subst; [done|]. apply migrates_le in Hm. lia.
  - split.
    + destruct (migrationFor chain current) as [mig|] eqn:Em; [|done]. destruct (Z.eqb_spec (To mig) (current + 1)) as [Et|]; [|done].
      cbn [negb]. destruct (Apply mig raw) as [raw1 [err|]] eqn:Ea; [done|]. intros Hr%IH.
      econstructor; [done..|]. rewrite Et in Hr. by replace (current + Z.of_nat (S steps))%Z with (current + 1 + Z.of_nat steps)%Z by lia.
    + inversion 1 as [|? ? mig raw1 ? ? Em Et Ea Hm]; subst; [lia|]. rewrite Em, Et, Z.eqb_refl, Ea. cbn [negb]. apply IH.
      by replace (current + 1 + Z.of_nat steps)%Z with (current + Z.of_nat (S steps))%Z by lia.
Qed.

Lemma version_stamped raw v : configVersionOf (<["version" := RInt v]> raw) = v.
Proof. unfold configVersionOf. by rewrite lookup_insert_eq. Qed.

Lemma current_data `{Yaml} data raw : unmarshal data = inr (Some raw) -> configVersionOf raw = CurrentConfigVersion -> MigrateConfigData data = inr (data, false).
Proof. intros Hu Hv. unfold MigrateConfigData, migrateRawTo. by rewrite Hu, Hv. Qed.

Lemma unversioned_data `{Yaml} data raw out : unmarshal data = inr (Some raw) -> configVersionOf raw = 0%Z ->
  marshal (<["version" := RInt CurrentConfigVersion]> raw) = inr out -> MigrateConfigData data = inr (out, true).
Proof.
  intros Hu Hv Ho. unfold MigrateConfigData, migrateRawTo. rewrite Hu, Hv.
  change (run_chain configMigrations (Z.to_nat (CurrentConfigVersion - 0)) 0 raw) with (raw, @None string). cbn match.
  change (CurrentConfigVersion <? 0)%Z with false. change (0 =? CurrentConfigVersion)%Z with false. cbn match. by rewrite Ho.
Qed.

(** ** Theorems *)

(** a migration succeeds just when the file is not newer and the chain has a
    working step for every version in between; it applies these steps in order,
    stamps the target, and a second one then does nothing. *)
Theorem migrate_spec raw chain target raw' changed :
  migrateRawTo raw chain target = (raw', inr changed) <->
  (configVersionOf raw = target /\ raw' = raw /\ changed = false) \/
  (changed = true /\ (configVersionOf raw < target)%Z /\ migrateRawTo raw' chain target = (raw', inr false) /\
   exists migrated, migrates chain (configVersionOf raw) raw target migrated /\ raw' = <["version" := RInt target]> migrated).
Proof.
  assert (forall m, migrateRawTo (<["version" := RInt target]> m) chain target = (<["version" := RInt target]> m, inr false)) as Hid.
  { intros m. unfold migrateRawTo. by rewrite version_stamped, Z.ltb_irrefl, Z.eqb_refl. }
  split.
  - intros H. assert (changed = true -> migrateRawTo raw' chain target = (raw', inr false)) as Hagain.
    { revert H. unfold migrateRawTo at 1. repeat case_match; by intros [= <- <-]. }
    revert H. unfold migrateRawTo. destruct (Z.ltb_spec target (configVersionOf raw)); [done|].
    destruct (Z.eqb_spec (configVersionOf raw) target); [intros [= <- <-]; by left|].
    destruct (run_chain _ _ _ _) as [m [err|]] eqn:E; [done|]. intros [= <- <-]. right. apply run_chain_iff in E.
    rewrite Z2Nat.id, Zplus_minus in E by lia. split_and!; [done|lia|by apply Hagain|]. by exists m.
  - intros [(<- & -> & ->)|(-> & Hlt & _ & m & Hm & ->)]; unfold migrateRawTo.
    + by rewrite Z.ltb_irrefl, Z.eqb_refl.
    + destruct (Z.ltb_spec target (configVersionOf raw)); [lia|]. destruct (Z.eqb_spec (configVersionOf raw) target); [lia|].
      replace target with (configVersionOf raw + Z.of_nat (Z.to_nat (target - configVersionOf raw)))%Z in Hm by lia.
      apply run_chain_iff in Hm. by rewrite Hm.
Qed.

(** with the migrations of this version, a file without a version, or with
    version 0, gets the version and nothing else changes; one of this version is left
    alone; every other version, also a negative one, is an error, and then nothing is
    written. *)
Theorem current_migrations `{Yaml} data raw :
  unmarshal data = inr (Some raw) ->
  match MigrateConfigData data with
  | inr (out, true) => configVersionOf raw = 0%Z /\ marshal (<["version" := RInt 1]> raw) = inr out
  | inr (out, false) => configVersionOf raw = 1%Z /\ out = data
  | inl err => (configVersionOf raw < 0 \/ 1 < configVersionOf raw)%Z \/ (exists e, marshal (<["version" := RInt 1]> raw) = inl e)
  end.
Proof.
  intros Hu. unfold MigrateConfigData. rewrite Hu. unfold migrateRawTo, CurrentConfigVersion.
  destruct (Z.ltb_spec 1 (configVersionOf raw)); [by left; right|].
  destruct (Z.eqb_spec (configVersionOf raw) 1); [done|].
  destruct (decide (configVersionOf raw = 0%Z)) as [E|E].
  - rewrite E. change (run_chain configMigrations (Z.to_nat (1 - 0)) 0 raw) with (raw, @None string). cbn.
    destruct (marshal _) eqn:Em; [by right; eexists|done].
  - destruct (Z.to_nat (1 - configVersionOf raw)) as [|steps] eqn:En; [lia|]. cbn [run_chain configMigrations migrationFor List.find].
    unfold migrationFor. cbn [List.find From]. destruct (Z.eqb_spec 0 (configVersionOf raw)); [lia|]. left. lia.
Qed.

Definition demo_chain : list ConfigMigration :=
  [mkMigration 0 1 (fun raw => (raw, None));
   mkMigration 1 2 (fun raw => (match raw !! "old" with Some v => <["new" := v]> (delete "old" raw) | None => raw end, None))].

Lemma migrate_spec_witness : migrateRawTo {["old" := ROther "x"]} demo_chain 2 = ({["new" := ROther "x"; "version" := RInt 2]}, inr true) /\
  (configVersionOf {["old" := ROther "x"]} < 2)%Z.
Proof.
  assert (migrateRawTo {["old" := ROther "x"]} demo_chain 2 = ({["new" := ROther "x"; "version" := RInt 2]}, inr true)) as H by by vm_compute.
  split; [exact H|]. by apply migrate_spec in H as [(? & ? & ?)|(_ & ? & _)].
Defined.

#[local] Instance demo_yaml : Yaml := {
  unmarshal s := inr (Some (if decide (s = "v1") then {["version" := RInt 1]} else {["version" := RNull]}));
  marshal raw := inr (match raw !! "version" with Some (RInt n) => "v" +:+ pretty n | _ => "?" end);
  canonical s := inr s
}.

Lemma current_migrations_witness : MigrateConfigData "old" = inr ("v1", true) /\ configVersionOf {["version" := RNull]} = 0%Z.
Proof.
  pose proof (current_migrations "old" {["version" := RNull]} eq_refl) as H.
  assert (MigrateConfigData "old" = inr ("v1", true)) as E by by vm_compute. rewrite E in H. split; [exact E|exact (proj1 H)].
Defined.

(** A version that is written as a text counts as none, and is replaced. *)
Lemma text_version_replaced : migrateRawTo {["version" := ROther "7"]} configMigrations 1 = ({["version" := RInt 1]}, inr true).
Proof. by vm_compute. Qed.
