(* ===== verification/SettingsSet.v ===== *)
(** * Requests for the settings

    Translates settings.get and settings.set (internal/socket/global_settings.go)
    with the files they read and write (settings/storage.go), the paths of tokens
    (storage_merge.go) and their masks (dotenv.go).  The files are a map from path
    to content; YAML is an argument - of maps, with which Migrate.v brings a file to the
    current version, and of settings - and reading and writing files does not fail. *)

From S2P Require Import Prelude Floats Names Text SettingsData SettingsMerge SettingsPaths EnvFiles SettingsEffective.
From S2P Require Migrate.

(** ** Tokens *)

Definition SensitivePaths : list (string * string) := [
  ("providers.github.token", "GITHUB_TOKEN"); ("providers.gitlab.token", "GITLAB_TOKEN");
  ("providers.wrike.token", "WRIKE_TOKEN"); ("providers.linear.token", "LINEAR_TOKEN");
  ("providers.jira.token", "JIRA_TOKEN"); ("providers.azuredevops.token", "AZURE_DEVOPS_TOKEN");
  ("agent.anthropic.api_key", "ANTHROPIC_API_KEY"); ("agent.openai.api_key", "OPENAI_API_KEY")].

Definition sensitive (path : string) : option string :=
  snd <$> List.find (fun p : string * string => bool_decide (p.1 = path)) SensitivePaths.

Definition IsSensitivePath (path : string) : bool := match sensitive path with Some _ => true | None => false end.

Definition GetEnvVarForPath (path : string) : string := default "" (sensitive path).

Definition MaskSettings (s : Settings) : Settings :=
  let tokens := s_Providers s in let keys := s_Agent s in
  s <| s_Providers := tokens
         <| pr_GitHub := (pr_GitHub tokens) <| gh_Token := MaskToken (gh_Token (pr_GitHub tokens)) |> |>
         <| pr_GitLab := (pr_GitLab tokens) <| gl_Token := MaskToken (gl_Token (pr_GitLab tokens)) |> |>
         <| pr_Wrike := (pr_Wrike tokens) <| wr_Token := MaskToken (wr_Token (pr_Wrike tokens)) |> |>
         <| pr_Linear := (pr_Linear tokens) <| li_Token := MaskToken (li_Token (pr_Linear tokens)) |> |> |>
    <| s_Agent := keys
         <| ag_Anthropic := (ag_Anthropic keys) <| api_APIKey := MaskToken (api_APIKey (ag_Anthropic keys)) |> |>
         <| ag_OpenAI := (ag_OpenAI keys) <| api_APIKey := MaskToken (api_APIKey (ag_OpenAI keys)) |> |> |>.

(** ** Files *)

Definition Join (dir name : string) : string := if decide (dir = "") then name else dir +:+ "/" +:+ name.

Definition ProjectPath (root : string) : string := Join root ".valksor/kvelmo.yaml".
Definition ProjectEnvPath (root : string) : string := Join root ".valksor/.env".

Notation Files := (gmap string string).

Section Codec.
(** The base directory ([paths.BaseDir]), YAML of maps, [yaml.Marshal] of settings and
    [yaml.Unmarshal] into settings. *)
Context `{Migrate.Yaml} (BaseDir : string) (marshal : Settings -> string) (unmarshal : string -> string + Settings).

Definition GlobalPath : string := Join BaseDir "kvelmo.yaml".
Definition GlobalEnvPath : string := Join BaseDir ".env".

Definition Load (fs : Files) (path : string) : result string (option Settings) :=
  match fs !! path with
  | None => Ok None
  | Some data =>
      match Migrate.MigrateConfigData data with
      | inl e => Err ("migrate settings: " +:+ e)
      | inr (migrated, _) =>
          match unmarshal migrated with
          | inl e => Err ("parse settings: " +:+ e)
          | inr s => Ok (Some (if decide (s_Version s = 0%Z) then s <| s_Version := CurrentConfigVersion |> else s))
          end
      end
  end.

Definition Save (fs : Files) (path : string) (s : Settings) : Files := <[path := marshal s]> fs.

Definition env_at (fs : Files) (root : string) : result string EnvMap :=
  LoadEnvMap (fs !! GlobalEnvPath) (if decide (root = "") then None else Some (fs !! ProjectEnvPath root)).

(** [LoadEffective] on the files. *)
Definition load_effective (lookup : string -> option string) (fs : Files) (root : string) :=
  LoadEffective lookup (env_at fs root) (Load fs GlobalPath) (Load fs (ProjectPath root)).

(** ** Setting *)

Record SetParams := mkSetParams { p_Scope : string; p_Values : list (string * any); p_ProjectPath : string }.

Inductive Response :=
| RPCError (code : Z) (message : string)
| RPCResult (effective : Settings) (global project : option Settings).

Definition ErrCodeInvalidParams : Z := (-32602)%Z.
Definition ErrCodeInternal : Z := (-32603)%Z.

Definition is_masked (value : any) : bool := match value with AString v => IsMaskedToken v | _ => false end.

(** The loop over the values, in the order of the map's iteration: the .env file
    and the settings, or the answer at which it stops. *)
Fixpoint apply_values (values : list (string * any)) (file : option string) (current : Settings)
  : option string * (Response + Settings) :=
  match values with
  | [] => (file, inr current)
  | (path, value) :: rest =>
      if is_masked value then apply_values rest file current
      else if IsSensitivePath path then
        match value with
        | AString v =>
            if decide (v = "") then apply_values rest file current
            else match saveEnvVarToFile file (GetEnvVarForPath path) v with
                 | Err e => (file, inl (RPCError ErrCodeInternal ("save env var: " +:+ e)))
                 | Ok content => apply_values rest (Some content) current
                 end
        | _ => apply_values rest file current
        end
      else match SetValue current path value with
           | Err e => (file, inl (RPCError ErrCodeInvalidParams e))
           | Ok current => apply_values rest file current
           end
  end.

Definition respond (lookup : string -> option string) (fs : Files) (root : string) : Response :=
  match load_effective lookup fs root with
  | Err e => RPCError ErrCodeInternal e
  | Ok (effective, global, project) =>
      RPCResult (MaskSettings effective) (MaskSettings <$> global) (MaskSettings <$> project)
  end.

(** The first of the registered worktrees, by path. *)
Definition first_worktree (worktrees : list string) : string := default "" (head (sort_strings worktrees)).

Definition put_file (fs : Files) (path : string) (file : option string) : Files :=
  match file with Some content => <[path := content]> fs | None => fs end.

Definition handleSettingsSet (lookup : string -> option string) (worktrees : list string) (req : option SetParams)
  (fs : Files) : Files * Response :=
  match req with
  | None => (fs, RPCError ErrCodeInvalidParams "params required")
  | Some params =>
      let scope := p_Scope params in
      if negb (bool_decide (scope = ScopeGlobal)) && negb (bool_decide (scope = ScopeProject))
      then (fs, RPCError ErrCodeInvalidParams "scope must be 'global' or 'project'") else
      let is_project := bool_decide (scope = ScopeProject) in
      let root := if is_project && bool_decide (p_ProjectPath params = "") then first_worktree worktrees
                  else p_ProjectPath params in
      if is_project && bool_decide (root = "")
      then (fs, RPCError ErrCodeInvalidParams "project_path required for project scope") else
      let path := if is_project then ProjectPath root else GlobalPath in
      let env_path := if is_project then ProjectEnvPath root else GlobalEnvPath in
      match Load fs path with
      | Err e => (fs, RPCError ErrCodeInternal e)
      | Ok current =>
          let '(file, r) := apply_values (p_Values params) (fs !! env_path) (default zero_Settings current) in
          let fs := put_file fs env_path file in
          match r with
          | inl response => (fs, response)
          | inr current => let fs := Save fs path current in (fs, respond lookup fs root)
          end
      end
  end.

Definition handleSettingsGet (lookup : string -> option string) (worktrees : list string) (project_path : string)
  (fs : Files) : Response :=
  respond lookup fs (if decide (project_path = "") then first_worktree worktrees else project_path).
End Codec.

(** ** Lemmas: tokens *)

(** The token at a sensitive path. *)
Definition token_at (path : string) (s : Settings) : string :=
  let p := s_Providers s in let a := s_Agent s in
  go_switch path
    [("providers.github.token", gh_Token (pr_GitHub p)); ("providers.gitlab.token", gl_Token (pr_GitLab p));
     ("providers.wrike.token", wr_Token (pr_Wrike p)); ("providers.linear.token", li_Token (pr_Linear p));
     ("providers.jira.token", ji_Token (pr_Jira p)); ("providers.azuredevops.token", ado_Token (pr_AzureDevOps p));
     ("agent.anthropic.api_key", api_APIKey (ag_Anthropic a)); ("agent.openai.api_key", api_APIKey (ag_OpenAI a))] "".

(** Settings as they come from YAML, which never carries a token. *)
Definition no_tokens (s : Settings) : Prop := forall path var, (path, var) ∈ SensitivePaths -> token_at path s = "".



(** One case for each token. *)
Ltac each_token Hin tac :=
  unfold SensitivePaths in Hin; rewrite !elem_of_cons in Hin;
  repeat (destruct Hin as [[= -> ->]|Hin]; [tac|]);
  by apply not_elem_of_nil in Hin.









(** ** Lemmas: setting *)

Definition tokens (s : Settings) : list string := (fun p : string * string => token_at p.1 s) <$> SensitivePaths.

Definition keeps_tokens (e : string * setter) : Prop :=
  IsSensitivePath e.1 = true \/ forall s v s', set e.2 s v = Ok s' -> tokens s' = tokens s.

Lemma approval_required_keeps : keeps_tokens ("workflow.policy.approval_required", approval_required).
Proof.
  right. intros s v s'. cbn [snd set approval_required]. destruct v; try done.
  destruct (map_of as_bool m); [done|]. by intros [= <-].
Qed.

Lemma custom_agents_keep : keeps_tokens ("custom_agents", custom_agents).
Proof. right. intros s v s'. cbn [snd set custom_agents]. destruct v; try done. by intros (x & _ & ->)%assigned_inv. Qed.

Lemma setters_keep_tokens : Forall keeps_tokens setterMap.
Proof.
  unfold setterMap, setters, providerSetters. cbn [app].
  repeat (apply Forall_cons_2;
    [first [exact approval_required_keeps | exact custom_agents_keep | left; reflexivity
           |right; intros ? ? ? Hs;
            first [apply review_mode_inv in Hs as (? & ->) | apply review_command_inv in Hs as (? & ->)
                  |apply assigned_inv in Hs as (? & ? & ->)]; reflexivity]|]).
  apply Forall_nil_2.
Qed.

Lemma SetValue_keeps_tokens s path v s' : IsSensitivePath path = false -> SetValue s path v = Ok s' -> tokens s' = tokens s.
Proof.
  unfold SetValue. destruct (setter_of path setterMap) as [e|] eqn:E; [|done]. intros Hp.
  apply setter_of_elem in E. pose proof setters_keep_tokens as H. rewrite Forall_forall in H.
  destruct (H _ E) as [H'|H']; [cbn in H'; congruence|apply H'].
Qed.

Lemma apply_values_tokens values : forall file s file' s',
  apply_values values file s = (file', inr s') -> tokens s' = tokens s.
Proof.
  induction values as [|[path v] values IH]; intros file s file' s'; cbn [apply_values]; [by intros [= _ <-]|].
  destruct (is_masked v); [apply IH|]. destruct (IsSensitivePath path) eqn:Hp.
  - destruct v; try apply IH. destruct (decide _); [apply IH|]. destruct (saveEnvVarToFile _ _ _); [apply IH|done].
  - destruct (SetValue s path v) as [s1|] eqn:E; [|done]. intros H. rewrite (IH _ _ _ _ H).
    by apply (SetValue_keeps_tokens s path v).
Qed.

Lemma sensitive_spec path var : (path, var) ∈ SensitivePaths -> IsSensitivePath path = true /\ GetEnvVarForPath path = var.
Proof. intros Hin. each_token Hin ltac:(by split). Qed.

(** ** Lemmas: files *)



(** What the program relies on of YAML: the settings that are written are read again,
    both ways and also after the version was stamped on them; a written map has its
    version; both ways of reading find the same version, none in an empty file; and no
    token comes from YAML (the fields are tagged [yaml:"-"]). *)
Class YamlLaws `{Migrate.Yaml} (marshal : Settings -> string) (unmarshal : string -> string + Settings) : Prop := {
  settings_read s : exists s', unmarshal (marshal s) = inr s';
  settings_raw s : exists raw, Migrate.unmarshal (marshal s) = inr (Some raw) /\ Migrate.configVersionOf raw = s_Version s;
  settings_stamped s raw v : Migrate.unmarshal (marshal s) = inr (Some raw) ->
    exists out s', Migrate.marshal (<["version" := Migrate.RInt v]> raw) = inr out /\ unmarshal out = inr s';
  raw_version raw out : Migrate.marshal raw = inr out ->
    exists raw', Migrate.unmarshal out = inr (Some raw') /\ Migrate.configVersionOf raw' = Migrate.configVersionOf raw;
  same_version data raw s : Migrate.unmarshal data = inr (Some raw) -> unmarshal data = inr s -> s_Version s = Migrate.configVersionOf raw;
  no_version data s : Migrate.unmarshal data = inr None -> unmarshal data = inr s -> s_Version s = 0%Z;
  unmarshal_no_tokens data s : unmarshal data = inr s -> no_tokens s
}.

Section Saving.
Context `{Migrate.Yaml} (BaseDir : string) (marshal : Settings -> string) (unmarshal : string -> string + Settings).
Context `{!YamlLaws marshal unmarshal}.
Context (lookup : string -> option string) (worktrees : list string) (root : string).

(** The project has .env files of its own. *)
Hypothesis own_env : ProjectEnvPath root <> GlobalEnvPath BaseDir.
Hypothesis some_root : root <> "".








End Saving.

(** ** Concrete runs *)

(** A YAML that keeps the version, in unary after its sign, and the preset. *)
Fixpoint marks (n : nat) (rest : string) : string := match n with 0 => "." +:+ rest | S n => "i" +:+ marks n rest end.
Fixpoint count_marks (s : string) : nat * string :=
  match s with
  | String c s => if decide (c = Ascii.ascii_of_nat 105) then let '(n, rest) := count_marks s in (S n, rest) else (0, s)
  | "" => (0, "")
  end.

Definition sim_text (v : Z) (preset : string) : string := (if (v <? 0)%Z then "-" else "+") +:+ marks (Z.to_nat (Z.abs v)) preset.
Definition sim_parts (data : string) : Z * string :=
  match data with
  | String c s => let '(n, rest) := count_marks s in ((if decide (c = Ascii.ascii_of_nat 45) then - Z.of_nat n else Z.of_nat n)%Z, rest)
  | "" => (0%Z, "")
  end.

Definition sim_marshal (s : Settings) : string := sim_text (s_Version s) (s_Preset s).
Definition sim_unmarshal (data : string) : string + Settings :=
  inr (zero_Settings <| s_Version := (sim_parts data).1 |> <| s_Preset := (sim_parts data).2 |>).

#[local] Instance sim_yaml : Migrate.Yaml := {
  Migrate.unmarshal data := inr (Some (<["version" := Migrate.RInt (sim_parts data).1]> {["preset" := Migrate.ROther (sim_parts data).2]}));
  Migrate.marshal raw := inr (sim_text (Migrate.configVersionOf raw) (match raw !! "preset" with Some (Migrate.ROther t) => t | _ => "" end));
  Migrate.canonical data := inr data
}.

Lemma count_marks_marks n rest : count_marks (marks n rest) = (n, rest).
Proof. induction n as [|n IH]; [done|]. cbn [marks]. change ("i" +:+ marks n rest) with (String (Ascii.ascii_of_nat 105) (marks n rest)). cbn [count_marks]. by rewrite decide_True, IH. Qed.

Lemma sim_parts_text v preset : sim_parts (sim_text v preset) = (v, preset).
Proof.
  unfold sim_text. destruct (Z.ltb_spec v 0).
  - change ("-" +:+ marks (Z.to_nat (Z.abs v)) preset) with (String (Ascii.ascii_of_nat 45) (marks (Z.to_nat (Z.abs v)) preset)).
    cbn [sim_parts]. rewrite count_marks_marks, decide_True by done. f_equal. lia.
  - change ("+" +:+ marks (Z.to_nat (Z.abs v)) preset) with (String (Ascii.ascii_of_nat 43) (marks (Z.to_nat (Z.abs v)) preset)).
    cbn [sim_parts]. rewrite count_marks_marks, decide_False by done. f_equal. lia.
Qed.

#[local] Instance sim_laws : YamlLaws sim_marshal sim_unmarshal.
Proof.
  split.
  - intros s. by eexists.
  - intros s. eexists. split; [done|]. rewrite Migrate.version_stamped. unfold sim_marshal. by rewrite sim_parts_text.
  - intros s raw v _. by eexists _, _.
  - intros raw out [= <-]. eexists. split; [done|]. by rewrite Migrate.version_stamped, sim_parts_text.
  - intros data raw s [= <-] [= <-]. by rewrite Migrate.version_stamped.
  - done.
  - intros data s [= <-] path var Hin. each_token Hin ltac:(reflexivity).
Qed.


Definition no_lookup (_ : string) : option string := None.


(** ** Properties of the loop *)

Lemma MaskToken_masked token : token <> "" -> IsMaskedToken (MaskToken token) = true.
Proof.
  intros Hne. unfold MaskToken. destruct (_ <? _); [by rewrite decide_False|].
  unfold IsMaskedToken. apply (contains_middle "***").
Qed.

(** C21: whatever values a request sets, in whatever order they are applied, no
    token enters the settings that are written to YAML, and the tokens that a
    client received masked and sends back are left as they are. *)
Theorem tokens_stay_out_of_yaml values file current file' current' shown :
  apply_values values file current = (file', inr current') ->
  (forall path var, (path, var) ∈ SensitivePaths -> token_at path current' = token_at path current) /\
  apply_values (((fun p => (p.1, AString (MaskToken (token_at p.1 shown)))) <$> SensitivePaths) ++ values) file current =
    (file', inr current').
Proof.
  intros H. split.
  - apply apply_values_tokens in H. unfold tokens in H. intros path var Hin.
    apply list_elem_of_lookup_1 in Hin as [i Hi].
    assert ((tokens current') !! i = (tokens current) !! i) as E by (unfold tokens; by rewrite H).
    unfold tokens in E. rewrite !list_lookup_fmap, Hi in E. by injection E.
  - assert (forall pre, (forall p, p ∈ pre -> p ∈ SensitivePaths) ->
      apply_values (((fun p : string * string => (p.1, AString (MaskToken (token_at p.1 shown)))) <$> pre) ++ values)
        file current = (file', inr current')) as Hpre; [|by apply Hpre].
    induction pre as [|[path var] pre IH]; intros Hsub; [exact H|].
    assert ((path, var) ∈ SensitivePaths) as Hin by (apply Hsub; left).
    rewrite fmap_cons. cbn [app apply_values fst is_masked].
    destruct (decide (token_at path shown = "")) as [->|Hne].
    + destruct (sensitive_spec _ _ Hin) as [-> _]. cbn. apply IH. intros p Hp. apply Hsub. by right.
    + rewrite MaskToken_masked by done. apply IH. intros p Hp. apply Hsub. by right.
Qed.

Definition sim_values : list (string * any) :=
  [("providers.github.token", AString "ghp_x"); ("workers.max", AInt 4)].

Lemma tokens_stay_out_of_yaml_witness :
  let r := apply_values sim_values None zero_Settings in
  exists current', r = (Some ("GITHUB_TOKEN=ghp_x" +:+ nl), inr current') /\
  (forall path var, (path, var) ∈ SensitivePaths -> token_at path current' = token_at path zero_Settings) /\
  apply_values (((fun p => (p.1, AString (MaskToken (token_at p.1 DefaultSettings)))) <$> SensitivePaths) ++ sim_values)
    None zero_Settings = (Some ("GITHUB_TOKEN=ghp_x" +:+ nl), inr current').
Proof.
  eexists. split; [by vm_compute|].
  apply (tokens_stay_out_of_yaml sim_values None zero_Settings). by vm_compute.
Defined.

(** A request that is refused has saved the tokens that came before the value at
    fault, and Go's order of iteration decides which those are. *)
Lemma refused_request_saves_tokens :
  let token := ("providers.github.token", AString "ghp_x") in let bad := ("no.such.path", AString "") in
  apply_values [token; bad] None zero_Settings =
    (Some ("GITHUB_TOKEN=ghp_x" +:+ nl), inl (RPCError ErrCodeInvalidParams "unknown path: no.such.path")) /\
  apply_values [bad; token] None zero_Settings =
    (None, inl (RPCError ErrCodeInvalidParams "unknown path: no.such.path")).
Proof. by vm_compute. Qed.

(** A project's first settings are saved as they are, without a version. *)
Lemma first_save_unversioned :
  (handleSettingsSet "/b" sim_marshal sim_unmarshal no_lookup [] (Some (mkSetParams ScopeProject [("workers.max", AInt 4)] "/p")) ∅).1 !! "/p/.valksor/kvelmo.yaml"
    = Some (sim_text 0 "").
Proof. by vm_compute. Qed.

(** The Jira token that was saved is not the one that is used. *)
Lemma jira_token_unused :
  token_at "providers.jira.token" (InjectEnvVars DefaultSettings {["JIRA_TOKEN" := "secret"]}) = "" /\
  ji_Token (pr_Jira (s_Providers (MaskSettings (zero_Settings <| s_Providers :=
    zero_ProviderSettings <| pr_Jira := zero_JiraConfig <| ji_Token := "secret" |> |> |>)))) = "secret".
Proof. by vm_compute. Qed.
