(* ===== verification/Regex.v ===== *)
(** * Regular expressions

    Go's regular expressions as the source uses them, for ASCII text: their syntax,
    what they match, and a matcher by derivatives that is proved to decide it.  An
    assertion ([^], [$], [\b]) looks at the characters around a position, so that
    what an expression matches depends on the character before the text and the one
    after it. *)

From S2P Require Import Prelude.

(** ** Expressions *)

(** A class of characters: ranges of codes. *)
Definition ranges := list (nat * nat).

Definition in_ranges (rs : ranges) (c : Ascii.ascii) : bool :=
  let n := Ascii.nat_of_ascii c in existsb (fun r => (r.1 <=? n) && (n <=? r.2)) rs.

Inductive regex :=
| RNone
| REmpty
| RClass (rs : ranges)
| RCat (r1 r2 : regex)
| RAlt (r1 r2 : regex)
| RStar (r : regex)
| RBegin
| REnd
| RBoundary.

(** [\w], [\s] and [.] *)
Definition word_ranges : ranges := [(48, 57); (65, 90); (95, 95); (97, 122)].
Definition space_ranges : ranges := [(9, 10); (12, 13); (32, 32)].
Definition dot_ranges : ranges := [(0, 9); (11, 255)].
Definition all_ranges : ranges := [(0, 255)].

Notation char := Ascii.ascii.

(** Whether there is a word character. *)
Definition is_word (c : option char) : bool := match c with Some c => in_ranges word_ranges c | None => false end.

(** The character after and before a point in a text with neighbours. *)
Definition next (s : list char) (n : option char) : option char := match s with [] => n | c :: _ => Some c end.
Definition prev (p : option char) (s : list char) : option char := match List.rev s with [] => p | c :: _ => Some c end.

(** [matches p r s n]: [r] matches [s] between the characters [p] and [n]. *)
Inductive matches : option char -> regex -> list char -> option char -> Prop :=
| m_empty p n : matches p REmpty [] n
| m_class p rs c n : in_ranges rs c = true -> matches p (RClass rs) [c] n
| m_cat p r1 r2 s1 s2 n :
    matches p r1 s1 (next s2 n) -> matches (prev p s1) r2 s2 n -> matches p (RCat r1 r2) (s1 ++ s2) n
| m_left p r1 r2 s n : matches p r1 s n -> matches p (RAlt r1 r2) s n
| m_right p r1 r2 s n : matches p r2 s n -> matches p (RAlt r1 r2) s n
| m_stop p r n : matches p (RStar r) [] n
| m_more p r c s1 s2 n :
    matches p r (c :: s1) (next s2 n) -> matches (prev p (c :: s1)) (RStar r) s2 n ->
    matches p (RStar r) ((c :: s1) ++ s2) n
| m_begin n : matches None RBegin [] n
| m_end p : matches p REnd [] None
| m_boundary p n : is_word p <> is_word n -> matches p RBoundary [] n.

(** [MatchString]: somewhere in the text. *)
Definition occurs (r : regex) (s : list char) : Prop :=
  exists a m b, s = a ++ m ++ b /\ matches (prev None a) r m (next b None).

(** ** The matcher *)

Definition cat (r1 r2 : regex) : regex :=
  match r1, r2 with RNone, _ | _, RNone => RNone | REmpty, r => r | r, REmpty => r | _, _ => RCat r1 r2 end.

Definition alt (r1 r2 : regex) : regex :=
  match r1, r2 with RNone, r => r | r, RNone => r | _, _ => RAlt r1 r2 end.

Definition is_none (c : option char) : bool := match c with None => true | Some _ => false end.

Fixpoint nullable (p : option char) (r : regex) (n : option char) : bool :=
  match r with
  | RNone | RClass _ => false
  | REmpty | RStar _ => true
  | RCat r1 r2 => nullable p r1 n && nullable p r2 n
  | RAlt r1 r2 => nullable p r1 n || nullable p r2 n
  | RBegin => is_none p
  | REnd => is_none n
  | RBoundary => xorb (is_word p) (is_word n)
  end.

(** What is left to match after [c]. *)
Fixpoint deriv (p : option char) (c : char) (r : regex) : regex :=
  match r with
  | RNone | REmpty | RBegin | REnd | RBoundary => RNone
  | RClass rs => if in_ranges rs c then REmpty else RNone
  | RCat r1 r2 => alt (cat (deriv p c r1) r2) (if nullable p r1 (Some c) then deriv p c r2 else RNone)
  | RAlt r1 r2 => alt (deriv p c r1) (deriv p c r2)
  | RStar r => cat (deriv p c r) (RStar r)
  end.

Fixpoint matcher (p : option char) (r : regex) (s : list char) (n : option char) : bool :=
  match s with [] => nullable p r n | c :: s => matcher (Some c) (deriv p c r) s n end.

Definition anything : regex := RStar (RClass all_ranges).

Definition search (r : regex) (s : list char) : bool := matcher None (RCat anything (RCat r anything)) s None.

(** ** The matcher is right *)

Lemma next_app s1 s2 n : next (s1 ++ s2) n = next s1 (next s2 n).
Proof. by destruct s1. Qed.

Lemma prev_snoc p s c : prev p (s ++ [c]) = Some c.
Proof. unfold prev. by rewrite rev_unit. Qed.

Lemma prev_cons p c s : prev p (c :: s) = prev (Some c) s.
Proof.
  destruct (decide (s = [])) as [->|Hs]; [done|]. destruct (exists_last Hs) as (s' & d & ->).
  by rewrite (app_comm_cons s' [d] c), !prev_snoc.
Qed.

Lemma prev_app p s1 s2 : prev p (s1 ++ s2) = prev (prev p s1) s2.
Proof.
  destruct (decide (s2 = [])) as [->|Hs]; [by rewrite app_nil_r|]. destruct (exists_last Hs) as (s' & d & ->).
  by rewrite app_assoc, !prev_snoc.
Qed.

Lemma matches_cat_inv p r1 r2 s n : matches p (RCat r1 r2) s n ->
  exists s1 s2, s = s1 ++ s2 /\ matches p r1 s1 (next s2 n) /\ matches (prev p s1) r2 s2 n.
Proof. inversion 1; subst. eauto 10. Qed.

Lemma matches_alt_iff p r1 r2 s n : matches p (RAlt r1 r2) s n <-> matches p r1 s n \/ matches p r2 s n.
Proof. split; [by inversion 1; subst; auto|intros [?|?]; by constructor]. Qed.

Lemma matches_none p s n : ~ matches p RNone s n.
Proof. by inversion 1. Qed.

Lemma matches_cat p r1 r2 s n : matches p (cat r1 r2) s n <-> matches p (RCat r1 r2) s n.
Proof.
  assert (forall r, matches p r s n <-> matches p (RCat REmpty r) s n) as He.
  { intros r. split.
    - intros H. by apply (m_cat p REmpty r [] s n); [constructor|].
    - intros (s1 & s2 & -> & H1 & H2)%matches_cat_inv. by inversion H1; subst. }
  assert (forall r, matches p r s n <-> matches p (RCat r REmpty) s n) as He'.
  { intros r. split.
    - intros H. rewrite <- (app_nil_r s). apply m_cat; [done|constructor].
    - intros (s1 & s2 & -> & H1 & H2)%matches_cat_inv. inversion H2; subst. by rewrite app_nil_r. }
  assert (forall r, ~ matches p (RCat RNone r) s n) as Hn.
  { intros r (s1 & s2 & _ & H & _)%matches_cat_inv. by apply matches_none in H. }
  assert (forall r, ~ matches p (RCat r RNone) s n) as Hn'.
  { intros r (s1 & s2 & _ & _ & H)%matches_cat_inv. by apply matches_none in H. }
  pose proof (matches_none p s n).
  destruct r1, r2; cbn [cat]; first [reflexivity | apply He | apply He' | naive_solver].
Qed.

Lemma matches_alt p r1 r2 s n : matches p (alt r1 r2) s n <-> matches p r1 s n \/ matches p r2 s n.
Proof.
  pose proof (matches_none p s n).
  destruct r1, r2; cbn [alt]; first [apply matches_alt_iff | naive_solver].
Qed.

Lemma xorb_differ a b : xorb a b = true <-> a <> b.
Proof. by destruct a, b. Qed.

Lemma nullable_spec r : forall p n, nullable p r n = true <-> matches p r [] n.
Proof.
  induction r as [| |rs|r1 IH1 r2 IH2|r1 IH1 r2 IH2|r IH| | |]; intros p n; cbn [nullable].
  - split; [done|by inversion 1].
  - split; [intros _; constructor|done].
  - split; [done|by inversion 1].
  - rewrite andb_true_iff, IH1, IH2. split.
    + intros [H1 H2]. by apply (m_cat p r1 r2 [] [] n).
    + intros (s1 & s2 & E & H1 & H2)%matches_cat_inv. symmetry in E. apply app_eq_nil in E as [-> ->]. done.
  - by rewrite orb_true_iff, IH1, IH2, matches_alt_iff.
  - split; [intros _; constructor|done].
  - destruct p; cbn; (split; [done|by inversion 1]) || (split; [intros _; constructor|done]).
  - destruct n; cbn; (split; [done|by inversion 1]) || (split; [intros _; constructor|done]).
  - rewrite xorb_differ. split; [by constructor|by inversion 1].
Qed.

Lemma deriv_spec r : forall p c s n, matches (Some c) (deriv p c r) s n <-> matches p r (c :: s) n.
Proof.
  induction r as [| |rs|r1 IH1 r2 IH2|r1 IH1 r2 IH2|r IH| | |]; intros p c s n; cbn [deriv];
    try (split; [by intros []%matches_none|by inversion 1]).
  - split.
    + destruct (in_ranges rs c) eqn:E; [|by intros []%matches_none]. inversion 1; subst. by constructor.
    + inversion 1; subst. replace (in_ranges rs c) with true by done. constructor.
  - rewrite matches_alt, matches_cat. split.
    + intros [(s1 & s2 & -> & H1 & H2)%matches_cat_inv|H].
      * apply (m_cat p r1 r2 (c :: s1) s2 n); [by apply IH1|by rewrite prev_cons].
      * destruct (nullable p r1 (Some c)) eqn:E; [|by apply matches_none in H].
        apply (m_cat p r1 r2 [] (c :: s) n); [by apply nullable_spec|by apply IH2].
    + intros (s1 & s2 & E & H1 & H2)%matches_cat_inv. destruct s1 as [|c' s1].
      * right. cbn in E. subst s2. apply (nullable_spec r1 p (Some c)) in H1. rewrite H1. by apply IH2.
      * left. injection E as <- ->. apply m_cat; [by apply IH1|by rewrite <- (prev_cons p)].
  - by rewrite matches_alt, matches_alt_iff, IH1, IH2.
  - rewrite matches_cat. split.
    + intros (s1 & s2 & -> & H1 & H2)%matches_cat_inv.
      apply (m_more p r c s1 s2 n); [by apply IH|by rewrite prev_cons].
    + inversion 1; subst. apply m_cat; [by apply IH|by rewrite <- (prev_cons p)].
Qed.

Lemma matcher_spec s : forall p r n, matcher p r s n = true <-> matches p r s n.
Proof.
  induction s as [|c s IH]; intros p r n; cbn [matcher]; [apply nullable_spec|]. by rewrite IH, deriv_spec.
Qed.

Lemma matches_anything p s n : matches p anything s n.
Proof.
  revert p. induction s as [|c s IH]; intros p; [constructor|].
  apply (m_more p (RClass all_ranges) c [] s n); [|apply IH]. constructor.
  unfold in_ranges. cbn. pose proof (Ascii.nat_ascii_bounded c). rewrite orb_false_r. apply Nat.leb_le. lia.
Qed.

Lemma search_spec r s : search r s = true <-> occurs r s.
Proof.
  unfold search, occurs. rewrite matcher_spec. split.
  - intros (a & t & -> & _ & (m & b & -> & Hm & _)%matches_cat_inv)%matches_cat_inv. eauto.
  - intros (a & m & b & -> & Hm). apply m_cat; [apply matches_anything|]. apply m_cat; [done|apply matches_anything].
Qed.

(** ** Syntax *)

(** The other case of the letters of a class, for [(?i)]. *)
Definition shifted (lo hi : nat) (up : bool) (r : nat * nat) : ranges :=
  let a := Nat.max lo r.1 in let b := Nat.min hi r.2 in
  if a <=? b then [if up then (a - 32, b - 32) else (a + 32, b + 32)] else [].

Definition fold_ranges (rs : ranges) : ranges :=
  rs ++ List.flat_map (fun r => shifted 65 90 false r ++ shifted 97 122 true r) rs.

Fixpoint fold_case (r : regex) : regex :=
  match r with
  | RClass rs => RClass (fold_ranges rs)
  | RCat r1 r2 => RCat (fold_case r1) (fold_case r2)
  | RAlt r1 r2 => RAlt (fold_case r1) (fold_case r2)
  | RStar r => RStar (fold_case r)
  | r => r
  end.

Definition code (c : char) : nat := Ascii.nat_of_ascii c.

Definition literal (n : nat) : regex := RClass [(n, n)].

(** After a backslash. *)
Definition escape (n : nat) : regex :=
  if n =? 98 then RBoundary else            (* b *)
  if n =? 115 then RClass space_ranges else (* s *)
  if n =? 119 then RClass word_ranges else  (* w *)
  if n =? 100 then RClass [(48, 57)] else   (* d *)
  literal n.

(** After a backslash in a class. *)
Definition class_escape (n : nat) : ranges :=
  if n =? 115 then space_ranges else if n =? 119 then word_ranges else if n =? 100 then [(48, 57)] else [(n, n)].

(** The items of a class up to its bracket; a dash before the bracket is a dash. *)
Fixpoint parse_class (s : list nat) : option (ranges * list nat) :=
  match s with
  | [] => None
  | 93 :: s => Some ([], s)
  | 92 :: n :: s => match parse_class s with Some (rs, rest) => Some (class_escape n ++ rs, rest) | None => None end
  | a :: 45 :: b :: s' =>
      if b =? 93 then Some ([(a, a); (45, 45)], s') else
      match parse_class s' with Some (rs, rest) => Some ((a, b) :: rs, rest) | None => None end
  | a :: s => match parse_class s with Some (rs, rest) => Some ((a, a) :: rs, rest) | None => None end
  end.

(** The characters outside a class.  ([fold_case] comes after: a negated class may
    not name letters under [(?i)].) *)
Definition complement (rs : ranges) : ranges :=
  (fun n => (n, n)) <$> List.filter (fun n => negb (in_ranges rs (Ascii.ascii_of_nat n))) (seq 0 256).

(** A count up to a character that is no digit. *)
Fixpoint parse_count (acc : nat) (s : list nat) : nat * list nat :=
  match s with
  | d :: s' => if (48 <=? d) && (d <=? 57) then parse_count (acc * 10 + (d - 48)) s' else (acc, s)
  | [] => (acc, [])
  end.

(** [n] times, and up to [n] times. *)
Definition times (n : nat) (r : regex) : regex := Nat.iter n (RCat r) REmpty.
Definition up_to (n : nat) (r : regex) : regex := Nat.iter n (fun t => RAlt (RCat r t) REmpty) REmpty.

(** What may follow an atom: [*], [+], [?] or a count. *)
Definition parse_repeat (r : regex) (s : list nat) : regex * list nat :=
  match s with
  | 42 :: s => (RStar r, s)
  | 43 :: s => (RCat r (RStar r), s)
  | 63 :: s => (RAlt r REmpty, s)
  | 123 :: s' =>
      let '(n, rest) := parse_count 0 s' in
      match rest with
      | 125 :: rest => (times n r, rest)
      | 44 :: 125 :: rest => (cat (times n r) (RStar r), rest)
      | 44 :: rest => let '(m, rest) := parse_count 0 rest in
                      match rest with 125 :: rest => (cat (times n r) (up_to (m - n) r), rest) | _ => (r, s) end
      | _ => (r, s)
      end
  | _ => (r, s)
  end.

Definition parse_atom (parse_alt : list nat -> option (regex * list nat)) (s : list nat) : option (regex * list nat) :=
  match s with
  | [] => None
  | 40 :: 63 :: 58 :: s | 40 :: s =>
      match parse_alt s with Some (r, 41 :: s) => Some (r, s) | _ => None end
  | 91 :: 94 :: s => match parse_class s with Some (rs, s) => Some (RClass (complement rs), s) | None => None end
  | 91 :: s => match parse_class s with Some (rs, s) => Some (RClass rs, s) | None => None end
  | 92 :: n :: s => Some (escape n, s)
  | 46 :: s => Some (RClass dot_ranges, s)
  | 94 :: s => Some (RBegin, s)
  | 36 :: s => Some (REnd, s)
  | n :: s => Some (literal n, s)
  end.

(** An expression up to a closing parenthesis or the end; [fuel] bounds the atoms
    and the nesting. *)
Fixpoint parse_alt (fuel : nat) (acc : regex) (s : list nat) : option (regex * list nat) :=
  match fuel with
  | O => None
  | S fuel =>
      match s with
      | [] | 41 :: _ => Some (acc, s)
      | 124 :: s =>
          match parse_alt fuel REmpty s with Some (r, s) => Some (RAlt acc r, s) | None => None end
      | _ =>
          match parse_atom (parse_alt fuel REmpty) s with
          | Some (r, s) => let '(r, s) := parse_repeat r s in parse_alt fuel (cat acc r) s
          | None => None
          end
      end
  end.

(** [regexp.Compile] *)
Definition Compile (pattern : string) : option regex :=
  let s := code <$> String.list_ascii_of_string pattern in
  let '(fold, s) := match s with 40 :: 63 :: 105 :: 41 :: s => (true, s) | _ => (false, s) end in
  match parse_alt (S (length s)) REmpty s with
  | Some (r, []) => Some (if fold : bool then fold_case r else r)
  | _ => None
  end.

(** [regexp.MustCompile(pattern).MatchString(text)] *)
Definition MatchString (pattern text : string) : bool :=
  match Compile pattern with Some r => search r (String.list_ascii_of_string text) | None => false end.

Example match_examples :
  MatchString "\bgit\s+reset\s+--hard" "cd x && git  reset --hard HEAD" = true /\
  MatchString "\bhalt\b" "asphalt" = false /\ MatchString "(?i)\brm\s+-[a-z]*r" "RM -fR x" = true /\
  MatchString "[0-7]?[0-7]{2}[1-7]\b" "chmod 755" = true /\ MatchString "(ba)?sh$" "a.sh " = false /\
  MatchString "x[^\s_-]{2,3}y" "x-ay" = false /\ MatchString "x[^\s_]{2,3}y" "x-ay" = true /\
  MatchString "^[a\-]{2,}$" "a-a" = true /\ MatchString "^a{1,2}$" "aaa" = false.
Proof. by vm_compute. Qed.
