(* ===== verification/Paths.v ===== *)
(** * File paths

    [filepath.Clean], [Join], [Base], [Ext] and [IsAbs] of Go's standard library on
    Unix, and what makes a path lie under a directory. *)

From S2P Require Import Prelude Names Text.

Definition IsAbs (path : string) : bool := has_prefix path "/".

(** One component: [out] are the components kept, the last one first. *)
Definition clean_step (rooted : bool) (out : list string) (p : string) : list string :=
  if decide (p = "" \/ p = ".") then out else
  if decide (p = "..") then
    match out with
    | [] => if rooted then [] else [".."]
    | q :: rest => if decide (q = "..") then ".." :: out else rest
    end
  else p :: out.

Definition clean_parts (rooted : bool) (parts : list string) : list string :=
  List.rev (fold_left (clean_step rooted) parts []).

(** The path of components. *)
Definition of_parts (rooted : bool) (ps : list string) : string :=
  if rooted : bool then "/" +:+ join_with "/" ps else
  match ps with [] => "." | _ => join_with "/" ps end.

Definition parts_of (path : string) : list string := clean_parts (IsAbs path) (Split slash path).

Definition Clean (path : string) : string := of_parts (IsAbs path) (parts_of path).

(** [filepath.Join] of two elements. *)
Definition Join2 (a b : string) : string :=
  if decide (a = "") then (if decide (b = "") then "" else Clean b)
  else if decide (b = "") then Clean a else Clean (a +:+ "/" +:+ b).

(** The path without slashes at its end, and its last element. *)
Definition Base (path : string) : string :=
  if decide (path = "") then "." else
  match List.rev (List.filter (fun p => negb (bool_decide (p = ""))) (Split slash path)) with
  | [] => "/"
  | p :: _ => p
  end.

(** [filepath.Ext]: from the last dot of the last element. *)
Definition Ext (path : string) : string :=
  let last_part := List.last (Split slash path) "" in
  let pieces := Split (Ascii.ascii_of_nat 46) last_part in
  match pieces with
  | [] | [_] => ""
  | _ => "." +:+ List.last pieces ""
  end.

Example clean_examples :
  Clean "" = "." /\ Clean "/../a//./b/../c/" = "/a/c" /\ Clean "../../etc" = "../../etc" /\
  Clean "a/.." = "." /\ Join2 "/w" "../x" = "/x" /\ Base "/a/b/" = "b" /\ Base "//" = "/" /\
  Ext "/a.b/c" = "" /\ Ext "x/.env" = ".env" /\ Ext "a.tar.gz" = ".gz".
Proof. by vm_compute. Qed.

(** ** Components *)

(** A component that is a name. *)
Definition name_part (p : string) : Prop := p <> "" /\ p <> "." /\ p <> ".." /\ no_char slash p = true.

(** What [Clean] leaves: names, after parents if the path is relative. *)
Definition clean_form (rooted : bool) (ps : list string) : Prop :=
  exists k ns, ps = replicate k ".." ++ ns /\ Forall name_part ns /\ (rooted = true -> k = 0).

Lemma clean_form_names ps : clean_form true ps <-> Forall name_part ps.
Proof.
  split.
  - intros (k & ns & -> & H & Hk). by rewrite (Hk eq_refl).
  - intros H. by exists 0, ps.
Qed.

Lemma split_from_no_char d s cur : no_char d cur = true -> Forall (fun p => no_char d p = true) (split_from d cur s).
Proof.
  revert cur. induction s as [|c s IH]; intros cur Hcur; cbn [split_from]; [by constructor|].
  destruct (decide _) as [->|Hc]; [constructor; [done|by apply IH]|]. apply IH.
  unfold no_char in *. rewrite all_chars_app, Hcur. cbn. by rewrite bool_decide_false.
Qed.

Lemma split_from_app d a b cur : split_from d cur (a +:+ String d b) = split_from d cur a ++ Split d b.
Proof.
  revert cur. induction a as [|c a IH]; intros cur.
  - change ("" +:+ String d b) with (String d b). cbn [split_from]. by rewrite decide_True.
  - rewrite string_app_cons. cbn [split_from]. destruct (decide _); cbn [app]; by rewrite IH.
Qed.

Lemma split_app d a b : Split d (a +:+ String d b) = Split d a ++ Split d b.
Proof. apply split_from_app. Qed.

(** A text without the separator is the last part. *)
Lemma split_key d s q : no_char d q = true -> Split d (s +:+ String d q) = Split d s ++ [q].
Proof.
  intros Hq. rewrite split_app. f_equal. change q with (join_with (String d "") [q]) at 1. apply split_join; [done|by constructor].
Qed.

Lemma join_inj d s q s' q' : no_char d q = true -> no_char d q' = true -> s +:+ String d q = s' +:+ String d q' -> s = s' /\ q = q'.
Proof.
  intros Hq Hq' E. apply (f_equal (Split d)) in E. rewrite !split_key in E by done. apply app_inj_tail in E as [E ->].
  split; [|done]. by rewrite <- (join_split d s), <- (join_split d s'), E.
Qed.

(** The components kept so far, the last one first. *)
Definition kept (rooted : bool) (out : list string) : Prop :=
  exists k ns, out = List.rev ns ++ replicate k ".." /\ Forall name_part ns /\ (rooted = true -> k = 0).

Lemma kept_form rooted out : kept rooted out -> clean_form rooted (List.rev out).
Proof.
  intros (k & ns & -> & H & Hk). exists k, ns. split_and!; [|done..].
  rewrite rev_app_distr, rev_involutive. f_equal. clear. induction k as [|k IH]; [done|].
  cbn [replicate List.rev]. rewrite IH. clear. induction k as [|k IH]; [done|]. cbn. by rewrite IH.
Qed.

Lemma clean_step_kept rooted out p : no_char slash p = true -> kept rooted out -> kept rooted (clean_step rooted out p).
Proof.
  intros Hp (k & ns & -> & Hns & Hk). unfold clean_step. destruct (decide (p = "" \/ p = ".")) as [|Hn]; [by exists k, ns|].
  destruct (decide (p = "..")) as [->|Hpp].
  - destruct ns as [|n ns _] using rev_ind.
    + cbn [List.rev app]. destruct k as [|k]; cbn [replicate].
      * destruct rooted; [by exists 0, []|by exists 1, []].
      * rewrite decide_True by done. exists (S (S k)), []. split_and!; [done..|]. intros Hr. by specialize (Hk Hr).
    + rewrite rev_unit. cbn [app]. apply Forall_app in Hns as [Hns Hn']. inversion Hn' as [|? ? (_ & _ & Hne & _)]; subst.
      rewrite decide_False by done. by exists k, ns.
  - exists k, (ns ++ [p]). rewrite rev_unit. split_and!; [done| |done]. apply Forall_app. split; [done|].
    constructor; [|done]. unfold name_part. naive_solver.
Qed.

Lemma clean_steps_kept rooted parts out : Forall (fun p => no_char slash p = true) parts -> kept rooted out ->
  kept rooted (fold_left (clean_step rooted) parts out).
Proof.
  intros H. revert out. induction H as [|p parts Hp _ IH]; intros out Hout; [done|]. cbn [fold_left].
  by apply IH, clean_step_kept.
Qed.

Lemma parts_of_form path : clean_form (IsAbs path) (parts_of path).
Proof.
  apply kept_form, clean_steps_kept; [by apply split_from_no_char|]. by exists 0, [].
Qed.

(** ** Cleaning twice *)

Lemma name_steps rooted ns out : Forall name_part ns -> fold_left (clean_step rooted) ns out = List.rev ns ++ out.
Proof.
  intros H. revert out. induction H as [|p ns (H1 & H2 & H3 & _) _ IH]; intros out; [done|]. cbn [fold_left].
  unfold clean_step at 2. rewrite decide_False by naive_solver. rewrite decide_False by done.
  rewrite IH. cbn [List.rev]. by rewrite <- app_assoc.
Qed.

Lemma parent_steps k j : fold_left (clean_step false) (replicate k "..") (replicate j "..") = replicate (k + j) "..".
Proof.
  revert j. induction k as [|k IH]; intros j; [done|]. cbn [replicate fold_left].
  assert (clean_step false (replicate j "..") ".." = replicate (S j) "..") as -> by by destruct j.
  rewrite IH. f_equal. lia.
Qed.

Lemma rev_replicate {A} k (x : A) : List.rev (replicate k x) = replicate k x.
Proof.
  induction k as [|k IH]; [done|]. cbn [replicate List.rev]. rewrite IH. clear. induction k as [|k IH]; [done|].
  cbn. by rewrite IH.
Qed.

Lemma clean_parts_form rooted ps : clean_form rooted ps -> clean_parts rooted ps = ps.
Proof.
  intros (k & ns & -> & H & Hk). unfold clean_parts. rewrite fold_left_app, name_steps by done.
  rewrite rev_app_distr, rev_involutive. f_equal. destruct rooted; [by rewrite Hk|].
  pose proof (parent_steps k 0) as E. cbn [replicate] in E. by rewrite E, rev_replicate, Nat.add_0_r.
Qed.

Lemma clean_form_no_slash rooted ps : clean_form rooted ps -> Forall (fun p => no_char slash p = true) ps.
Proof.
  intros (k & ns & -> & H & _). apply Forall_app. split; [by apply Forall_replicate|].
  eapply Forall_impl; [exact H|]. by intros p (_ & _ & _ & Hp).
Qed.

(** Splitting what [of_parts] builds. *)
Lemma split_of_parts rooted ps : clean_form rooted ps ->
  Split slash (of_parts rooted ps) = (if rooted then [""] else []) ++ match ps with [] => [if rooted then "" else "."] | _ => ps end.
Proof.
  intros H%clean_form_no_slash. destruct rooted; cbn [of_parts].
  - change ("/" +:+ join_with "/" ps) with ("" +:+ String slash (join_with "/" ps)). rewrite split_app. f_equal.
    destruct ps as [|p ps]; [done|]. by apply (split_join slash).
  - destruct ps as [|p ps]; [done|]. by apply (split_join slash).
Qed.

Lemma clean_form_nonempty rooted ps : clean_form rooted ps -> Forall (fun p => p <> "" /\ p <> ".") ps.
Proof.
  intros (k & ns & -> & H & _). apply Forall_app. split; [by apply Forall_replicate|].
  eapply Forall_impl; [exact H|]. by intros p (? & ? & _).
Qed.

Lemma IsAbs_of_parts rooted ps : clean_form rooted ps -> IsAbs (of_parts rooted ps) = rooted.
Proof.
  intros H. destruct rooted; [cbn [of_parts]; by destruct (join_with "/" ps)|].
  pose proof (clean_form_no_slash _ _ H) as Hs. apply clean_form_nonempty in H.
  destruct ps as [|p ps]; [done|]. apply Forall_cons in H as [[Hp _] _]. apply Forall_cons in Hs as [Hs _].
  destruct p as [|c p]; [done|]. cbn in Hs. apply andb_true_iff in Hs as [Hc%negb_true_iff%bool_decide_eq_false _].
  assert (exists t, of_parts false (String c p :: ps) = String c t) as [t ->]; [by destruct ps; eexists|].
  unfold IsAbs, has_prefix. cbn [String.prefix]. case_match; [by destruct Hc|done].
Qed.

(** The components of a cleaned path are those of the path. *)
Lemma parts_of_parts rooted ps : clean_form rooted ps -> parts_of (of_parts rooted ps) = ps.
Proof.
  intros H. unfold parts_of. rewrite (IsAbs_of_parts _ _ H), (split_of_parts _ _ H).
  transitivity (clean_parts rooted ps); [|by apply clean_parts_form].
  unfold clean_parts. f_equal. rewrite fold_left_app. destruct rooted, ps; reflexivity.
Qed.

Lemma parts_of_Clean path : parts_of (Clean path) = parts_of path.
Proof. apply parts_of_parts, parts_of_form. Qed.

Lemma IsAbs_Clean path : IsAbs (Clean path) = IsAbs path.
Proof. apply IsAbs_of_parts, parts_of_form. Qed.

Lemma Clean_idem path : Clean (Clean path) = Clean path.
Proof. unfold Clean at 1. by rewrite IsAbs_Clean, parts_of_Clean. Qed.

(** ** Lying under a directory *)

(** [path] is [dir] or below it, component by component. *)
Definition under (dir path : string) : Prop :=
  IsAbs path = IsAbs dir /\ exists rest, parts_of path = parts_of dir ++ rest /\ Forall name_part rest.

Lemma under_refl dir : under dir dir.
Proof. split; [done|]. exists []. by rewrite app_nil_r. Qed.

Lemma under_Clean dir path : under (Clean dir) (Clean path) <-> under dir path.
Proof. unfold under. by rewrite !IsAbs_Clean, !parts_of_Clean. Qed.

Lemma prefix_cut a b : has_prefix b a = true -> exists t, b = a +:+ t.
Proof.
  revert b. induction a as [|c a IH]; intros b; [by exists b|]. destruct b as [|d b]; [done|].
  unfold has_prefix. cbn. destruct (Ascii.ascii_dec c d) as [->|]; [|done]. intros H.
  destruct (IH b H) as [t ->]. by exists t.
Qed.

(** A cleaned absolute path that starts with a cleaned directory and a slash. *)
Lemma under_prefix dir path :
  IsAbs dir = true -> has_prefix (Clean path) (Clean dir +:+ "/") = true -> under dir path.
Proof.
  intros Hd Hp. apply prefix_cut in Hp as [t Ht]. rewrite string_app_assoc in Ht.
  assert (IsAbs path = true) as Hpath.
  { rewrite <- IsAbs_Clean, Ht. unfold Clean at 1. rewrite Hd. cbn [of_parts].
    rewrite string_app_assoc. by destruct (join_with "/" (parts_of dir) +:+ ("/" +:+ t)). }
  split; [congruence|].
  pose proof (parts_of_form path) as Fp. pose proof (parts_of_form dir) as Fd. rewrite Hpath in Fp. rewrite Hd in Fd.
  assert (Split slash (Clean path) = Split slash (Clean dir) ++ Split slash t) as E.
  { rewrite Ht. exact (split_app slash (Clean dir) t). }
  unfold Clean in E. rewrite Hpath, Hd, !split_of_parts in E by done.
  injection E as E. destruct (parts_of dir) as [|d ds] eqn:Ed.
  - exists (parts_of path). split; [done|]. by apply clean_form_names.
  - destruct (parts_of path) as [|p ps].
    + cbn in E. injection E as E _. apply clean_form_nonempty in Fd. by inversion Fd as [|? ? []].
    + exists (Split slash t). split; [exact E|]. apply clean_form_names in Fp. rewrite E in Fp.
      by apply Forall_app in Fp as [_ Fp].
Qed.

(** What lies under a directory other than the root is the directory or starts with
    it and a slash. *)
Lemma join_with_app sep a b : a <> [] -> b <> [] -> join_with sep (a ++ b) = join_with sep a +:+ sep +:+ join_with sep b.
Proof.
  intros Ha Hb. induction a as [|p [|p' a] IH]; [done| |].
  - cbn [app]. by destruct b.
  - change (join_with sep ((p :: p' :: a) ++ b)) with (p +:+ sep +:+ join_with sep ((p' :: a) ++ b)).
    rewrite IH by done. change (join_with sep (p :: p' :: a)) with (p +:+ sep +:+ join_with sep (p' :: a)).
    by rewrite !string_app_assoc.
Qed.

Lemma under_prefix_inv dir path :
  IsAbs dir = true -> Clean dir <> "/" -> under dir path ->
  Clean path = Clean dir \/ exists t, Clean path = Clean dir +:+ "/" +:+ t.
Proof.
  intros Hd Hroot [Habs (rest & Hp & _)]. unfold Clean in *. rewrite Habs, Hd, Hp in *. cbn [of_parts] in *.
  assert (parts_of dir <> []) as Hne by by (intros E; rewrite E in Hroot).
  destruct rest as [|r rest]; [left; by rewrite app_nil_r|right].
  exists (join_with "/" (r :: rest)). rewrite join_with_app by done. by rewrite string_app_assoc.
Qed.
