(* ===== verification/PathGuard.v ===== *)
(** * Paths that clients ask for

    Translates internal/socket/validate.go: [ValidatePath] follows the links of a
    requested path and refuses what they lead to outside the base directory.  A file
    system maps the names of a path, from the root on, to what is there; permissions
    are left out, so that a look at a path only fails when the path leads nowhere. *)

From S2P Require Import Prelude Names Text Paths.

(** ** File systems *)

Inductive Node := File | Dir | Link (target : string).

Definition Fs : Type := list string -> option Node.

(** The root is a directory. *)
Definition at_ (fs : Fs) (ps : list string) : option Node := match ps with [] => Some Dir | _ => fs ps end.

Inductive WalkError := NotExist | NotDirectory | TooManyLinks.

Definition parent (ps : list string) : list string := List.rev (List.tl (List.rev ps)).

(** Where the path [todo] leads from the directory [dest], following at most [links]
    links: [walkSymlinks] of package filepath, and the kernel's lookup. *)
Fixpoint walk (fs : Fs) (links : nat) : list string -> list string -> result WalkError (list string) :=
  fix go dest todo :=
    match todo with
    | [] => Ok dest
    | c :: rest =>
        if decide (c = "" \/ c = ".") then go dest rest else
        if decide (c = "..") then go (parent dest) rest else
        match at_ fs (dest ++ [c]) with
        | None => Err NotExist
        | Some Dir => go (dest ++ [c]) rest
        | Some File => match rest with [] => Ok (dest ++ [c]) | _ => Err NotDirectory end
        | Some (Link target) =>
            match links with
            | 0 => Err TooManyLinks
            | S links => walk fs links (if IsAbs target then [] else dest) (Split slash target ++ rest)
            end
        end
    end.

(** The two limits: of package filepath and of Linux. *)
Definition go_links : nat := 255.
Definition kernel_links : nat := 40.

Definition EvalSymlinks (fs : Fs) (path : string) : result WalkError string :=
  match walk fs go_links [] (Split slash path) with Ok ps => Ok (of_parts true ps) | Err e => Err e end.

(** What opening [path] opens. *)
Definition opened (fs : Fs) (path : string) : result WalkError (list string) := walk fs kernel_links [] (Split slash path).
Definition Stat (fs : Fs) (path : string) : bool := is_ok (opened fs path).

(** ** Validation *)

Inductive PathError :=
| ResolveBase (e : WalkError)
| ResolvePath (e : WalkError)
| NoAncestor (path : string)
| Escapes (requested : string).

(** [filepath.Abs]; [cwd] is the working directory of the process. *)
Definition Abs (cwd path : string) : string := if IsAbs path then Clean path else Join2 cwd path.

(** [filepath.Dir] of a cleaned absolute path. *)
Definition Dir_of (path : string) : string := of_parts true (parent (parts_of path)).

(** The loop of [resolveNonExistentPath]; [nonExistent] has the last name first in Go
    and is kept here in the order of the path.  Each round drops a name. *)
Fixpoint find_ancestor (fs : Fs) (fuel : nat) (absPath current : string) (nonExistent : list string) : result PathError string :=
  if Stat fs current then
    match EvalSymlinks fs current with
    | Err e => Err (ResolvePath e)
    | Ok realCurrent => Ok (fold_left Join2 nonExistent realCurrent)
    end
  else
    let nonExistent := Base current :: nonExistent in
    let up := Dir_of current in
    if decide (up = current) then Err (NoAncestor absPath) else
    match fuel with 0 => Err (NoAncestor absPath) | S fuel => find_ancestor fs fuel absPath up nonExistent end.

Definition resolveNonExistentPath (fs : Fs) (absPath : string) : result PathError string :=
  find_ancestor fs (length (parts_of absPath)) absPath absPath [].

Definition ValidatePath (fs : Fs) (cwd basePath requestedPath : string) : result PathError string :=
  let absBase := Abs cwd basePath in
  match EvalSymlinks fs absBase with
  | Err e => Err (ResolveBase e)
  | Ok realBase =>
      if decide (requestedPath = "") then Ok realBase else
      let absRequested := if IsAbs requestedPath then Clean requestedPath else Clean (Join2 absBase requestedPath) in
      let real := match EvalSymlinks fs absRequested with
        | Ok p => Ok p
        | Err NotExist => resolveNonExistentPath fs absRequested
        | Err e => Err (ResolvePath e)
        end in
      match real with
      | Err e => Err e
      | Ok realRequested =>
          let baseWithSep := if has_suffix realBase "/" then realBase else realBase +:+ "/" in
          if negb (bool_decide (realRequested = realBase)) && negb (has_prefix realRequested baseWithSep)
          then Err (Escapes requestedPath) else Ok realRequested
      end
  end.

Inductive RootsError := NoRoots | NotWithin (requested : string).

Fixpoint first_valid (fs : Fs) (cwd : string) (roots : list string) (requestedPath : string) : option string :=
  match roots with
  | [] => None
  | root :: roots => match ValidatePath fs cwd root requestedPath with Ok valid => Some valid | Err _ => first_valid fs cwd roots requestedPath end
  end.

Definition ValidatePathWithRoots (fs : Fs) (cwd : string) (roots : list string) (requestedPath : string) : result RootsError string :=
  match roots with
  | [] => Err NoRoots
  | _ => match first_valid fs cwd roots requestedPath with Some valid => Ok valid | None => Err (NotWithin requestedPath) end
  end.

(** ** Paths of names *)

Lemma join_name ps c : Forall name_part ps -> name_part c -> Join2 (of_parts true ps) c = of_parts true (ps ++ [c]).
Proof.
  intros Hps Hc. assert (clean_form true ps) as Fp by by apply clean_form_names.
  assert (clean_form true (ps ++ [c])) as Fpc by (apply clean_form_names; by rewrite Forall_app, Forall_singleton).
  assert (of_parts true ps <> "") as Hne by (cbn [of_parts]; by destruct (join_with "/" ps)).
  unfold Join2. rewrite decide_False by done. rewrite decide_False by apply Hc.
  assert (IsAbs (of_parts true ps +:+ "/" +:+ c) = true) as Ha by (cbn [of_parts]; rewrite string_app_assoc; by destruct (join_with "/" ps +:+ ("/" +:+ c))).
  unfold Clean. rewrite Ha. f_equal. unfold parts_of. rewrite Ha.
  change (of_parts true ps +:+ "/" +:+ c) with (of_parts true ps +:+ String slash c).
  rewrite (split_key slash _ c) by apply Hc. rewrite (split_of_parts _ _ Fp). transitivity (clean_parts true (ps ++ [c])); [|by apply clean_parts_form].
  unfold clean_parts. f_equal. rewrite !fold_left_app. f_equal. by destruct ps.
Qed.

Lemma join_names ms : forall ps, Forall name_part ps -> Forall name_part ms -> fold_left Join2 ms (of_parts true ps) = of_parts true (ps ++ ms).
Proof.
  induction ms as [|m ms IH]; intros ps Hp Hm; cbn [fold_left]; [by rewrite app_nil_r|]. apply Forall_cons in Hm as [Hm Hms].
  rewrite join_name, IH by (rewrite ?Forall_app, ?Forall_singleton; done). by rewrite <- app_assoc.
Qed.

Lemma parent_snoc ps c : parent (ps ++ [c]) = ps.
Proof. unfold parent. rewrite rev_app_distr. cbn. apply rev_involutive. Qed.

Lemma Dir_of_snoc ps c : Forall name_part (ps ++ [c]) -> Dir_of (of_parts true (ps ++ [c])) = of_parts true ps.
Proof. intros H. unfold Dir_of. by rewrite parts_of_parts, parent_snoc by by apply clean_form_names. Qed.

Lemma Base_snoc ps c : Forall name_part (ps ++ [c]) -> Base (of_parts true (ps ++ [c])) = c.
Proof.
  intros H. pose proof (proj2 (clean_form_names _) H) as F. unfold Base.
  rewrite decide_False by (cbn [of_parts]; by destruct (join_with "/" (ps ++ [c]))). rewrite (split_of_parts _ _ F).
  apply Forall_app in H as [_ Hc]. apply Forall_cons in Hc as [(Hc & _) _].
  assert (match ps ++ [c] with [] => [""] | _ => ps ++ [c] end = ps ++ [c]) as -> by by destruct ps.
  rewrite app_assoc, List.filter_app, rev_app_distr. cbn. by rewrite bool_decide_false.
Qed.

Lemma of_parts_inj ps qs : Forall name_part ps -> Forall name_part qs -> of_parts true ps = of_parts true qs -> ps = qs.
Proof.
  intros Hp%clean_form_names Hq%clean_form_names E. apply (f_equal parts_of) in E. by rewrite !parts_of_parts in E.
Qed.

(** ** Walks *)

Definition component (c : string) : Prop := no_char slash c = true.

(** The names lead through directories only, the last one excepted: no link is left. *)
Definition all_dirs (fs : Fs) (ps : list string) : Prop :=
  Forall name_part ps /\ forall qs rs, ps = qs ++ rs -> at_ fs qs = Some Dir.
Definition real (fs : Fs) (ps : list string) : Prop :=
  all_dirs fs ps \/ exists qs c, ps = qs ++ [c] /\ all_dirs fs qs /\ name_part c /\ at_ fs ps = Some File.

Lemma real_names fs ps : real fs ps -> Forall name_part ps.
Proof. intros [[H _]|(qs & c & -> & [H _] & Hc & _)]; [done|]. by rewrite Forall_app, Forall_singleton. Qed.

Lemma all_dirs_nil fs : all_dirs fs [].
Proof. split; [done|]. by intros [|] rs. Qed.

Lemma all_dirs_snoc fs ps c : all_dirs fs ps -> name_part c -> at_ fs (ps ++ [c]) = Some Dir -> all_dirs fs (ps ++ [c]).
Proof.
  intros [H1 H2] Hc Hd. split; [by rewrite Forall_app, Forall_singleton|]. intros qs rs E.
  destruct rs as [|r rs _] using rev_ind; [rewrite app_nil_r in E; by subst|].
  rewrite app_assoc in E. apply app_inj_tail in E as [-> _]. by apply (H2 qs rs).
Qed.

Lemma all_dirs_parent fs ps : all_dirs fs ps -> all_dirs fs (parent ps).
Proof.
  intros [H1 H2]. destruct ps as [|c ps _] using rev_ind; [apply all_dirs_nil|]. rewrite parent_snoc.
  apply Forall_app in H1 as [H1 _]. split; [done|]. intros qs rs ->. apply (H2 qs (rs ++ [c])). by rewrite <- app_assoc.
Qed.

Lemma split_components s : Forall component (Split slash s).
Proof. by apply split_from_no_char. Qed.

Lemma component_name c : component c -> ~ (c = "" \/ c = ".") -> c <> ".." -> name_part c.
Proof. intros Hc Hn Hp. split_and!; [naive_solver|naive_solver|done|done]. Qed.

(** The equations of [walk]. *)
Lemma walk_nil fs l dest : walk fs l dest [] = Ok dest.
Proof. by destruct l. Qed.
Lemma walk_cons fs l dest c rest : walk fs l dest (c :: rest) =
  if decide (c = "" \/ c = ".") then walk fs l dest rest else
  if decide (c = "..") then walk fs l (parent dest) rest else
  match at_ fs (dest ++ [c]) with
  | None => Err NotExist
  | Some Dir => walk fs l (dest ++ [c]) rest
  | Some File => match rest with [] => Ok (dest ++ [c]) | _ => Err NotDirectory end
  | Some (Link target) => match l with 0 => Err TooManyLinks | S l => walk fs l (if IsAbs target then [] else dest) (Split slash target ++ rest) end
  end.
Proof. by destruct l. Qed.

(** Induction on a walk: on the links left, then on the components to go. *)
Lemma walk_ind (P : nat -> list string -> Prop) :
  (forall l, P l []) ->
  (forall l c rest, P l rest -> (forall l' rest', l = S l' -> P l' rest') -> P l (c :: rest)) ->
  forall l todo, P l todo.
Proof.
  intros Hn Hc l. induction l as [|l IHl]; intros todo; (induction todo as [|c rest IH]; [apply Hn|apply Hc; [done|]]).
  - intros l' rest' E. discriminate E.
  - intros l' rest' E. injection E as <-. apply IHl.
Qed.

Lemma walk_real fs l todo : forall dest ps, all_dirs fs dest -> Forall component todo -> walk fs l dest todo = Ok ps -> real fs ps.
Proof.
  revert l todo. apply (walk_ind (fun l todo => forall dest ps, all_dirs fs dest -> Forall component todo -> walk fs l dest todo = Ok ps -> real fs ps)).
  { intros l dest ps Hd _. rewrite walk_nil. intros [= <-]. by left. }
  intros l c rest IH IHl dest ps Hd Ht. apply Forall_cons in Ht as [Hc Ht]. rewrite walk_cons.
  case_decide as Hn; [by apply IH|]. case_decide as Hp; [apply IH; [by apply all_dirs_parent|done]|].
  pose proof (component_name c Hc Hn Hp) as Hname. destruct (at_ fs (dest ++ [c])) as [[| |t]|] eqn:E; [| | |done].
  - destruct rest; [|done]. intros [= <-]. right. by exists dest, c.
  - apply IH; [by apply all_dirs_snoc|done].
  - destruct l as [|l]; [done|]. apply (IHl l _ eq_refl); [destruct (IsAbs t); [apply all_dirs_nil|done]|].
    apply Forall_app. split; [apply split_components|done].
Qed.

(** More links do not change a walk that had enough. *)
Lemma walk_mono fs l todo : forall l' dest, l <= l' -> walk fs l dest todo <> Err TooManyLinks -> walk fs l' dest todo = walk fs l dest todo.
Proof.
  revert l todo. apply (walk_ind (fun l todo => forall l' dest, l <= l' -> walk fs l dest todo <> Err TooManyLinks -> walk fs l' dest todo = walk fs l dest todo)).
  { intros l l' dest _ _. by rewrite !walk_nil. }
  intros l c rest IH IHl l' dest Hl. rewrite !walk_cons.
  case_decide; [by apply IH|]. case_decide; [by apply IH|]. destruct (at_ fs (dest ++ [c])) as [[| |t]|]; [done|by apply IH| |done].
  destruct l as [|l]; [done|]. destruct l' as [|l']; [lia|]. apply (IHl l _ eq_refl). lia.
Qed.

(** A walk goes on from where its first part leads, unless that is a file. *)
Lemma walk_app fs l a : forall dest ps, walk fs l dest a = Ok ps ->
  exists n, n <= l /\ forall l' b, walk fs (n + l') dest (a ++ b) = walk fs l' ps b \/ b <> [] /\ walk fs (n + l') dest (a ++ b) = Err NotDirectory.
Proof.
  revert l a. apply (walk_ind (fun l a => forall dest ps, walk fs l dest a = Ok ps -> exists n, n <= l /\
    forall l' b, walk fs (n + l') dest (a ++ b) = walk fs l' ps b \/ b <> [] /\ walk fs (n + l') dest (a ++ b) = Err NotDirectory)).
  { intros l dest ps. rewrite walk_nil. intros [= ->]. exists 0. split; [lia|]. intros l' b. by left. }
  intros l c rest IH IHl dest ps. rewrite walk_cons. cbn [app].
  case_decide as Hn; [|case_decide as Hp; [|destruct (at_ fs (dest ++ [c])) as [[| |t]|] eqn:E; [| | |done]]].
  - intros H. destruct (IH _ _ H) as (n & Hl & Hw). exists n. split; [done|]. intros l' b. rewrite walk_cons, decide_True by done. apply Hw.
  - intros H. destruct (IH _ _ H) as (n & Hl & Hw). exists n. split; [done|]. intros l' b. rewrite walk_cons, decide_False, decide_True by done. apply Hw.
  - destruct rest; [|done]. intros [= <-]. exists 0. split; [lia|]. intros l' b. rewrite walk_cons, decide_False, decide_False, E by done.
    destruct b; [left; by rewrite walk_nil|by right].
  - intros H. destruct (IH _ _ H) as (n & Hl & Hw). exists n. split; [done|]. intros l' b. rewrite walk_cons, decide_False, decide_False, E by done. apply Hw.
  - destruct l as [|l]; [done|]. intros H. destruct (IHl l _ eq_refl _ _ H) as (n & Hl & Hw). exists (S n). split; [lia|].
    intros l' b. rewrite walk_cons, decide_False, decide_False, E by done. change (S n + l') with (S (n + l')). cbn match. rewrite app_assoc. apply Hw.
Qed.

Lemma walk_dirs fs l dest rs b : all_dirs fs (dest ++ rs) -> walk fs l dest (rs ++ b) = walk fs l (dest ++ rs) b.
Proof.
  revert dest. induction rs as [|c rs IH]; intros dest Hd; [by rewrite app_nil_r|].
  replace (dest ++ c :: rs) with ((dest ++ [c]) ++ rs) in * by by rewrite <- app_assoc. cbn [app]. rewrite walk_cons.
  pose proof Hd as [Hn Hat]. apply Forall_app in Hn as [Hn _]. apply Forall_app in Hn as [_ Hn]. apply Forall_cons in Hn as [(H1 & H2 & H3 & _) _].
  rewrite decide_False by naive_solver. rewrite decide_False by done. rewrite (Hat (dest ++ [c]) rs eq_refl). by apply IH.
Qed.

(** What is real leads to itself. *)
Lemma real_walk fs l ps : real fs ps -> walk fs l [] ps = Ok ps.
Proof.
  intros [Hd|(qs & c & -> & Hd & (H1 & H2 & H3 & _) & E)].
  - pose proof (walk_dirs fs l [] ps [] Hd) as W. rewrite app_nil_r, walk_nil in W. exact W.
  - rewrite (walk_dirs fs l [] qs [c] Hd), walk_cons. rewrite decide_False by naive_solver. rewrite decide_False by done. cbn [app]. by rewrite E.
Qed.

Lemma walk_path fs l ps : Forall name_part ps -> walk fs l [] (Split slash (of_parts true ps)) = walk fs l [] ps.
Proof.
  intros H%clean_form_names. rewrite (split_of_parts _ _ H). cbn [app]. rewrite walk_cons, decide_True by (by left).
  destruct ps; [|done]. by rewrite walk_cons, decide_True by (by left).
Qed.

Lemma EvalSymlinks_real fs path q : EvalSymlinks fs path = Ok q -> exists ps, q = of_parts true ps /\ real fs ps /\ walk fs go_links [] (Split slash path) = Ok ps.
Proof.
  unfold EvalSymlinks. destruct (walk _ _ _ _) as [ps|] eqn:E; [|done]. intros [= <-]. exists ps. split_and!; [done| |done].
  eapply walk_real; [apply all_dirs_nil|apply split_components|exact E].
Qed.

Lemma opened_real fs ps : real fs ps -> opened fs (of_parts true ps) = Ok ps.
Proof. intros H. unfold opened. rewrite walk_path by by eapply real_names. by apply real_walk. Qed.

(** ** The missing part of a path *)

Lemma find_ancestor_spec fs absPath fuel : forall cps ms, length cps <= fuel -> Forall name_part (cps ++ ms) ->
  exists found missing ps, cps = found ++ missing /\ walk fs kernel_links [] found = Ok ps /\
    find_ancestor fs fuel absPath (of_parts true cps) ms = Ok (of_parts true (ps ++ missing ++ ms)).
Proof.
  assert (Hfound : forall fuel cps ms, Forall name_part (cps ++ ms) -> Stat fs (of_parts true cps) = true ->
    exists ps, walk fs kernel_links [] cps = Ok ps /\ find_ancestor fs fuel absPath (of_parts true cps) ms = Ok (of_parts true (ps ++ ms))).
  { intros fuel' cps ms Hn Hs. apply Forall_app in Hn as [Hc Hm]. assert (find_ancestor fs fuel' absPath (of_parts true cps) ms =
      match EvalSymlinks fs (of_parts true cps) with Err e => Err (ResolvePath e) | Ok r => Ok (fold_left Join2 ms r) end) as ->.
    { destruct fuel'; cbn [find_ancestor]; by rewrite Hs. }
    unfold Stat, opened in Hs. rewrite walk_path in Hs by done. destruct (walk fs kernel_links [] cps) as [ps|] eqn:E; [|done].
    exists ps. split; [done|]. unfold EvalSymlinks. rewrite walk_path by done.
    rewrite (walk_mono fs kernel_links) by (by rewrite ?E || (unfold kernel_links, go_links; lia)). rewrite E. f_equal. apply join_names; [|done].
    eapply real_names, (walk_real fs kernel_links cps []); [apply all_dirs_nil| |exact E]. eapply Forall_impl; [exact Hc|]. by intros c (_ & _ & _ & ?). }
  induction fuel as [|fuel IH]; intros cps ms Hl Hn.
  - destruct cps; [|cbn in Hl; lia]. destruct (Hfound 0 [] ms Hn) as (ps & Hw & Hf); [|by exists [], [], ps].
    unfold Stat, opened. by rewrite walk_path, walk_nil.
  - destruct (Stat fs (of_parts true cps)) eqn:Es.
    + destruct (Hfound (S fuel) cps ms Hn Es) as (ps & Hw & Hf). exists cps, [], ps. by rewrite app_nil_r.
    + destruct cps as [|c cps _] using rev_ind; [unfold Stat, opened in Es; by rewrite walk_path, walk_nil in Es by done|].
      cbn [find_ancestor]. rewrite Es. assert (Forall name_part (cps ++ [c])) as Hc by by apply Forall_app in Hn as [? _].
      rewrite Base_snoc, Dir_of_snoc by done. rewrite decide_False.
      * rewrite length_app in Hl. cbn in Hl. destruct (IH cps (c :: ms)) as (f & m & ps & -> & Hw & Hf); [lia|by rewrite <- app_assoc in Hn|].
        exists f, (m ++ [c]), ps. rewrite <- !app_assoc. split_and!; [done|done|exact Hf].
      * intros E. apply of_parts_inj in E; [|by apply Forall_app in Hc as [? _]|done]. apply (f_equal length) in E. rewrite length_app in E. cbn in E. lia.
Qed.

(** Opening what [resolveNonExistentPath] gives for a path that does not exist opens nothing. *)
Lemma resolve_missing fs ps : Forall name_part ps -> walk fs go_links [] ps = Err NotExist ->
  exists qs, resolveNonExistentPath fs (of_parts true ps) = Ok (of_parts true qs) /\ Forall name_part qs /\ is_ok (opened fs (of_parts true qs)) = false.
Proof.
  intros Hn Hw. unfold resolveNonExistentPath. rewrite parts_of_parts by by apply clean_form_names.
  destruct (find_ancestor_spec fs (of_parts true ps) (length ps) ps []) as (f & m & qs & -> & Hf & ->); [done|by rewrite app_nil_r|].
  rewrite app_nil_r. exists (qs ++ m). split; [done|]. apply Forall_app in Hn as [Hnf Hnm].
  assert (real fs qs) as Hr. { apply (walk_real fs kernel_links f [] qs (all_dirs_nil fs)); [|done]. eapply Forall_impl; [exact Hnf|]. by intros c (_ & _ & _ & ?). }
  assert (Forall name_part (qs ++ m)) as Hqm by (apply Forall_app; split; [by eapply real_names|done]). split; [done|].
  unfold opened. rewrite walk_path by done.
  destruct (walk_app fs kernel_links f [] qs Hf) as (n & Hle & Happ). destruct (Happ (go_links - n) m) as [E|[_ E]];
    replace (n + (go_links - n)) with go_links in E by (unfold go_links, kernel_links in *; lia); rewrite Hw in E; [|done].
  destruct (walk_app fs kernel_links qs [] qs (real_walk _ _ _ Hr)) as (n' & Hle' & Happ').
  destruct (walk fs kernel_links [] (qs ++ m)) as [loc|] eqn:Ew; [|done]. exfalso.
  destruct (Happ' (kernel_links - n') m) as [E'|[_ E']]; replace (n' + (kernel_links - n')) with kernel_links in E' by lia; rewrite Ew in E'; [|done].
  rewrite (walk_mono fs (kernel_links - n') m (go_links - n)) in E; [by rewrite <- E' in E|unfold go_links, kernel_links in *; lia|by rewrite <- E'].
Qed.

(** ** The check against the base *)

Definition requested_path (cwd basePath requestedPath : string) : string :=
  if IsAbs requestedPath then Clean requestedPath else Clean (Join2 (Abs cwd basePath) requestedPath).

Lemma IsAbs_Join2 a b : IsAbs a = true -> IsAbs (Join2 a b) = true.
Proof.
  intros Ha. assert (a <> "") as Hne by (by intros ->). unfold Join2. rewrite decide_False by done.
  case_decide; rewrite IsAbs_Clean; [done|]. apply prefix_cut in Ha as [t ->]. rewrite string_app_assoc. by destruct (t +:+ ("/" +:+ b)).
Qed.

Lemma requested_names cwd basePath requestedPath : IsAbs cwd = true ->
  exists ps, requested_path cwd basePath requestedPath = of_parts true ps /\ Forall name_part ps.
Proof.
  intros Hc. assert (IsAbs (Abs cwd basePath) = true) as Ha.
  { unfold Abs. destruct (IsAbs basePath) eqn:E; [by rewrite IsAbs_Clean|by apply IsAbs_Join2]. }
  unfold requested_path. destruct (IsAbs requestedPath) eqn:E.
  - exists (parts_of requestedPath). unfold Clean. rewrite E. split; [done|]. apply clean_form_names. rewrite <- E. apply parts_of_form.
  - pose proof (IsAbs_Join2 _ requestedPath Ha) as Hj. exists (parts_of (Join2 (Abs cwd basePath) requestedPath)).
    unfold Clean. rewrite Hj. split; [done|]. apply clean_form_names. rewrite <- Hj. apply parts_of_form.
Qed.

Lemma Clean_of_parts ps : Forall name_part ps -> Clean (of_parts true ps) = of_parts true ps.
Proof. intros H%clean_form_names. unfold Clean. by rewrite IsAbs_of_parts, parts_of_parts. Qed.

Lemma IsAbs_names ps : Forall name_part ps -> IsAbs (of_parts true ps) = true.
Proof. intros H%clean_form_names. by apply IsAbs_of_parts. Qed.

Definition with_sep (base : string) : string := if has_suffix base "/" then base else base +:+ "/".
Definition within (base path : string) : bool := bool_decide (path = base) || has_prefix path (with_sep base).

Lemma join_suffix ps : Forall name_part ps -> ps <> [] -> has_suffix (of_parts true ps) "/" = false.
Proof.
  intros H Hne. destruct ps as [|c ps _] using rev_ind; [done|]. apply Forall_app in H as [Hp Hc]. apply Forall_singleton in Hc as (Hc & _ & _ & Hs).
  cbn [of_parts].
  assert (has_suffix c "/" = false) as Hcs.
  { destruct (string_snoc c Hc) as (b & d & ->). rewrite has_suffix_char. apply bool_decide_eq_false. intros ->.
    unfold no_char in Hs. rewrite all_chars_app in Hs. apply andb_true_iff in Hs as [_ Hs]. cbn in Hs. by rewrite bool_decide_true in Hs. }
  destruct ps as [|p ps]; [cbn [app join_with]; by rewrite has_suffix_app_ne|].
  rewrite join_with_app by done. cbn [join_with]. rewrite <- !string_app_assoc. by rewrite has_suffix_app_ne.
Qed.

(** The comparison of texts is the one of names. *)
Lemma within_under bs ps : Forall name_part bs -> Forall name_part ps ->
  within (of_parts true bs) (of_parts true ps) = true <-> under (of_parts true bs) (of_parts true ps).
Proof.
  intros Hb Hp. pose proof (Clean_of_parts _ Hb) as Cb. pose proof (Clean_of_parts _ Hp) as Cp. pose proof (IsAbs_names _ Hb) as Ib. pose proof (IsAbs_names _ Hp) as Ip.
  unfold within, with_sep. destruct (decide (bs = [])) as [->|Hne].
  - split; intros _.
    + split; [congruence|]. exists ps. by rewrite parts_of_parts by by apply clean_form_names.
    + apply orb_true_iff. right. exact Ip.
  - rewrite join_suffix by done. rewrite orb_true_iff, bool_decide_eq_true. split.
    + intros [->|H]; [apply under_refl|]. apply under_prefix; [done|]. by rewrite Cb, Cp.
    + intros H. apply under_prefix_inv in H; [|done|].
      * rewrite Cb, Cp in H. destruct H as [->|[t ->]]; [by left|right]. rewrite <- string_app_assoc. apply prefix_app.
      * rewrite Cb. intros E. apply (of_parts_inj bs []) in E; done.
Qed.

Lemma ValidatePath_eq fs cwd basePath requestedPath : ValidatePath fs cwd basePath requestedPath =
  match EvalSymlinks fs (Abs cwd basePath) with
  | Err e => Err (ResolveBase e)
  | Ok root =>
      if decide (requestedPath = "") then Ok root else
      match match EvalSymlinks fs (requested_path cwd basePath requestedPath) with
        | Ok p => Ok p
        | Err NotExist => resolveNonExistentPath fs (requested_path cwd basePath requestedPath)
        | Err e => Err (ResolvePath e)
        end with
      | Err e => Err e
      | Ok p => if within root p then Ok p else Err (Escapes requestedPath)
      end
  end.
Proof.
  unfold ValidatePath. fold (requested_path cwd basePath requestedPath). destruct (EvalSymlinks fs (Abs cwd basePath)); [|done]. case_decide; [done|].
  destruct (match EvalSymlinks fs (requested_path cwd basePath requestedPath) with Ok p => _ | Err e => _ end) as [p|]; [|done].
  unfold within, with_sep. by destruct (bool_decide _), (has_prefix _ _).
Qed.

(** What a validated path opens is the path itself, without a link on the way. *)
Definition opens_itself (fs : Fs) (path : string) : Prop := forall loc, opened fs path = Ok loc -> of_parts true loc = path.

Lemma validated fs cwd basePath requestedPath p : IsAbs cwd = true -> ValidatePath fs cwd basePath requestedPath = Ok p ->
  exists root, EvalSymlinks fs (Abs cwd basePath) = Ok root /\ under root p /\ opens_itself fs p.
Proof.
  intros Hcwd. rewrite ValidatePath_eq. destruct (EvalSymlinks fs (Abs cwd basePath)) as [root|] eqn:Eb; [|done].
  destruct (EvalSymlinks_real _ _ _ Eb) as (bs & -> & Hbs & _). pose proof (real_names _ _ Hbs) as Hbn.
  assert (Hreal : forall ps, real fs ps -> opens_itself fs (of_parts true ps)) by (intros ps H loc; rewrite (opened_real fs ps H); by intros [= <-]).
  case_decide as Hr; [intros [= <-]; eexists; split_and!; [done|apply under_refl|by apply Hreal]|].
  assert (Hin : forall ps, Forall name_part ps -> opens_itself fs (of_parts true ps) -> (if within (of_parts true bs) (of_parts true ps) then Ok (of_parts true ps) else Err (Escapes requestedPath)) = Ok p ->
    exists root, Ok (of_parts true bs) = Ok (E := WalkError) root /\ under root p /\ opens_itself fs p).
  { intros ps Hn Ho. destruct (within _ _) eqn:Ew; [|done]. intros [= <-]. eexists. split_and!; [done|by apply within_under|done]. }
  destruct (requested_names cwd basePath requestedPath Hcwd) as (rs & -> & Hrs).
  destruct (EvalSymlinks fs (of_parts true rs)) as [q|[]] eqn:Eq; [| |done..].
  - destruct (EvalSymlinks_real _ _ _ Eq) as (ps & -> & Hps & _). apply Hin; [by eapply real_names|by apply Hreal].
  - unfold EvalSymlinks in Eq. rewrite walk_path in Eq by done. destruct (walk fs go_links [] rs) as [|[]] eqn:Ew; [done| |done..].
    destruct (resolve_missing fs rs Hrs Ew) as (qs & -> & Hqs & Hno). apply Hin; [done|]. intros loc E. by rewrite E in Hno.
Qed.

(** ** Theorems *)

(** whatever path a client asks for, and wherever the links of the file system lead: an
    accepted path lies in the real directory of one of the allowed roots, and opening
    it opens that path and nothing that a link leads to.  The loop that looks for an
    existing ancestor always finds one. *)
Theorem roots_contained (fs : Fs) (cwd : string) (roots : list string) (requestedPath p : string) :
  IsAbs cwd = true -> ValidatePathWithRoots fs cwd roots requestedPath = Ok p ->
  exists root dir, root ∈ roots /\ EvalSymlinks fs (Abs cwd root) = Ok dir /\ under dir p /\ opens_itself fs p.
Proof.
  intros Hcwd. assert (forall rs, first_valid fs cwd rs requestedPath = Some p -> exists root, root ∈ rs /\ ValidatePath fs cwd root requestedPath = Ok p) as Hf.
  { induction rs as [|r rs IH]; [done|]. cbn. destruct (ValidatePath fs cwd r requestedPath) eqn:E.
    - intros [= ->]. exists r. split; [by left|done].
    - intros (root & ? & ?)%IH. exists root. split; [by right|done]. }
  unfold ValidatePathWithRoots. destruct roots as [|r rs]; [done|]. destruct (first_valid fs cwd (r :: rs) requestedPath) eqn:E; [|done].
  intros [= ->]. destruct (Hf _ E) as (root & Hin & Hv). destruct (validated _ _ _ _ _ Hcwd Hv) as (dir & ? & ? & ?). by exists root, dir.
Qed.

(** a path that exists is accepted, as the path it really is, exactly when that lies in
    the real base directory; a path that does not exist is never refused for want of
    an existing ancestor. *)
Theorem existing_exact (fs : Fs) (cwd basePath requestedPath dir q : string) :
  IsAbs cwd = true -> requestedPath <> "" ->
  EvalSymlinks fs (Abs cwd basePath) = Ok dir -> EvalSymlinks fs (requested_path cwd basePath requestedPath) = Ok q ->
  (under dir q -> ValidatePath fs cwd basePath requestedPath = Ok q) /\ (~ under dir q -> ValidatePath fs cwd basePath requestedPath = Err (Escapes requestedPath)).
Proof.
  intros Hcwd Hne Eb Eq. rewrite ValidatePath_eq, Eb, decide_False, Eq by done.
  destruct (EvalSymlinks_real _ _ _ Eb) as (bs & -> & Hbs & _). destruct (EvalSymlinks_real _ _ _ Eq) as (ps & -> & Hps & _).
  rewrite <- within_under by by eapply real_names. by destruct (within _ _).
Qed.

Lemma ancestor_found (fs : Fs) (cwd basePath requestedPath absPath : string) : IsAbs cwd = true -> ValidatePath fs cwd basePath requestedPath <> Err (NoAncestor absPath).
Proof.
  intros Hcwd. rewrite ValidatePath_eq. destruct (EvalSymlinks fs (Abs cwd basePath)); [|done]. case_decide; [done|].
  destruct (requested_names cwd basePath requestedPath Hcwd) as (rs & -> & Hrs).
  destruct (EvalSymlinks fs (of_parts true rs)) as [q|[]] eqn:Eq; [by destruct (within _ _)| |done..].
  unfold EvalSymlinks in Eq. rewrite walk_path in Eq by done. destruct (walk fs go_links [] rs) as [|[]] eqn:Ew; [done| |done..].
  destruct (resolve_missing fs rs Hrs Ew) as (qs & -> & _). by destruct (within _ _).
Qed.

(** ** A file system *)

Definition example_fs : Fs := fun ps =>
  if decide (ps = ["w"]) then Some Dir else if decide (ps = ["w"; "f"]) then Some File else
  if decide (ps = ["w"; "up"]) then Some (Link "..") else if decide (ps = ["w"; "loop"]) then Some (Link "loop") else
  if decide (ps = ["w"; "new"]) then Some (Link "/etc/new") else if decide (ps = ["etc"]) then Some Dir else
  if decide (ps = ["in"]) then Some (Link "w") else if decide (ps = ["etc"; "passwd"]) then Some File else None.

Lemma roots_contained_witness :
  ValidatePathWithRoots example_fs "/" ["etc/x"; "/in"] "up/w/f" = Ok "/w/f" /\
  (exists root dir, root ∈ ["etc/x"; "/in"] /\ EvalSymlinks example_fs (Abs "/" root) = Ok dir /\ under dir "/w/f" /\ opens_itself example_fs "/w/f").
Proof.
  assert (ValidatePathWithRoots example_fs "/" ["etc/x"; "/in"] "up/w/f" = Ok "/w/f") as H by by vm_compute.
  split; [exact H|]. by apply (roots_contained example_fs "/" ["etc/x"; "/in"] "up/w/f" "/w/f").
Defined.

(** A link out of the directory, a loop, a path beside it; and a link to a file that is
    not there yet: it is accepted, although it leads outside - who creates the file
    at the accepted path creates it there. *)
Example links_refused :
  ValidatePath example_fs "/" "/w" "up/etc/passwd" = Err (Escapes "up/etc/passwd") /\
  ValidatePath example_fs "/" "/w" "loop" = Err (ResolvePath TooManyLinks) /\ ValidatePath example_fs "/" "/w" "../etc" = Err (Escapes "../etc") /\
  ValidatePath example_fs "/" "/w" "f/x" = Err (ResolvePath NotDirectory) /\ ValidatePath example_fs "/" "/w" "d/x" = Ok "/w/d/x".
Proof. by vm_compute. Qed.

Theorem dangling_link_accepted : ValidatePath example_fs "/" "/w" "new" = Ok "/w/new" /\ example_fs ["w"; "new"] = Some (Link "/etc/new").
Proof. by vm_compute. Qed.
