(* ===== verification/Permission.v ===== *)
(** * Permissions of agents' tools

    Translates the detection of dangerous operations (src/agent/permission/dangerous.go)
    and the evaluation of permission requests (src/agent/agent.go).  The regular
    expressions are the source's strings, compiled by Regex.v; text is ASCII. *)

From S2P Require Import Prelude SettingsData Names Text Regex Paths.
From S2P Require GraphDef.

(** ** Danger *)

Inductive DangerLevel := Safe | Caution | Dangerous.

#[export] Instance DangerLevel_eq_dec : EqDecision DangerLevel.
Proof. solve_decision. Defined.

Definition DangerLevel_String (d : DangerLevel) : string :=
  match d with Safe => "safe" | Caution => "caution" | Dangerous => "dangerous" end.

Record Result := mkResult { Level : DangerLevel; Reason : string }.

Definition safe : Result := mkResult Safe "".

(** A tool's input, decoded from JSON. *)
Notation Input := (gmap string any).

(** [input[key].(string)] *)
Definition string_at (input : Input) (key : string) : option string :=
  match input !! key with Some (AString s) => Some s | _ => None end.

Notation to_lower := GraphDef.to_lower.

(** *** Commands *)

Definition dangerousPatterns : list (string * string) := [
  ("(?i)\brm\s+-[a-z]*r[a-z]*f[a-z]*\s+(/\s*$|/(home|usr|var|etc|bin|sbin|lib|opt|root)(/|$)|~|\*)", "Recursive delete with dangerous target");
  ("(?i)\brm\s+-[a-z]*f[a-z]*r[a-z]*\s+(/\s*$|/(home|usr|var|etc|bin|sbin|lib|opt|root)(/|$)|~|\*)", "Recursive delete with dangerous target");
  ("(?i)\brm\s+--recursive\s+(/\s*$|/(home|usr|var|etc|bin|sbin|lib|opt|root)(/|$)|~|\*)", "Recursive delete with dangerous target");
  ("\bdd\s+.*of=/dev/", "Direct disk write");
  ("\bmkfs\b", "Filesystem format");
  ("\bfdisk\b", "Partition modification");
  ("\bparted\b", "Partition modification");
  ("\breboot\b", "System reboot");
  ("\bshutdown\b", "System shutdown");
  ("\bhalt\b", "System halt");
  ("\bpoweroff\b", "System poweroff");
  ("\binit\s+0\b", "System shutdown via init");
  ("\bsystemctl\s+(poweroff|reboot|halt)\b", "System power control");
  (":\s*\(\s*\)\s*\{", "Fork bomb");
  (">/dev/sd[a-z]", "Direct disk overwrite");
  ("\bchmod\s+777\s+/", "World-writable root");
  ("\bchown\s+.*\s+/", "Change root ownership")
].

Definition cautionPatterns : list (string * string) := [
  ("\brm\s+-[a-z]*r", "Recursive delete");
  ("\brm\s+--recursive", "Recursive delete");
  ("\bgit\s+push\s+.*--force", "Force push may overwrite remote history");
  ("\bgit\s+push\s+-f\b", "Force push may overwrite remote history");
  ("\bgit\s+reset\s+--hard", "Hard reset discards uncommitted changes");
  ("\bgit\s+clean\s+-[a-z]*f", "Git clean removes untracked files");
  ("\bgit\s+checkout\s+--\s+\.", "Checkout discards all local changes");
  ("\bkill\s+-9\b", "Force kill process");
  ("\bkill\s+-KILL\b", "Force kill process");
  ("\bkillall\b", "Kill all matching processes");
  ("\bpkill\b", "Kill processes by pattern");
  ("\bchmod\s+[0-7]?[0-7]{2}[1-7]\b", "World-accessible permissions");
  ("\bsudo\b", "Elevated privileges");
  ("\bdoas\b", "Elevated privileges");
  ("\bsu\s+-?\s*\w*$", "Switch user");
  ("\bcurl\s+.*\|\s*(ba)?sh", "Pipe to shell");
  ("\bwget\s+.*\|\s*(ba)?sh", "Pipe to shell");
  ("\bnpm\s+publish\b", "Publish to npm");
  ("\bdocker\s+push\b", "Push docker image");
  ("\bdocker\s+system\s+prune\b", "Docker system cleanup")
].

(** The reason of the first pattern that matches. *)
Definition first_match (patterns : list (string * string)) (cmd : string) : option string :=
  snd <$> List.find (fun p => MatchString p.1 cmd) patterns.

Definition matchDangerousCommand : string -> option string := first_match dangerousPatterns.
Definition matchCautionCommand : string -> option string := first_match cautionPatterns.

Definition detectCommand (cmd : string) : Result :=
  match matchDangerousCommand cmd with
  | Some reason => mkResult Dangerous reason
  | None => match matchCautionCommand cmd with Some reason => mkResult Caution reason | None => safe end
  end.

Definition detectBashDanger (input : Input) : Result :=
  match string_at input "command" with Some cmd => detectCommand cmd | None => safe end.

(** *** Paths *)

Definition dangerousPaths : list string :=
  ["/etc/passwd"; "/etc/shadow"; "/etc/sudoers"; "/proc/"; "/sys/"; "/dev/"; "/.ssh/"; "/.gnupg/"].

Definition cautionPaths : list string :=
  [".env"; "credentials"; "secrets"; ".secret"; "password"; "api_key"; "apikey"; "private_key"; "id_rsa"; "id_ed25519"].

(** [strings.CutSuffix(pattern, "/")] *)
Definition cut_slash (pattern : string) : option string :=
  if has_suffix pattern "/" then Some (String.substring 0 (String.length pattern - 1) pattern) else None.

Definition matchDangerousPath (path pattern : string) : bool :=
  match (if has_prefix pattern "/." then cut_slash pattern else None) with
  | Some trimmed => contains pattern path || has_suffix path trimmed
  | None =>
      match cut_slash pattern with
      | Some dirPattern => bool_decide (path = dirPattern) || has_prefix path pattern
      | None => bool_decide (path = pattern) || has_prefix path (pattern +:+ "/")
      end
  end.

Definition caution_path (baseName lowerPath pattern : string) : bool :=
  if decide (pattern = ".env") then bool_decide (baseName = ".env") || has_prefix baseName ".env."
  else contains pattern lowerPath.

Definition detectPathDanger (path : string) : Result :=
  let cleanPath := Clean path in
  let lowerPath := to_lower cleanPath in
  match List.find (matchDangerousPath lowerPath) dangerousPaths with
  | Some pattern => mkResult Dangerous ("Modifies system file: " +:+ pattern)
  | None =>
      match List.find (caution_path (to_lower (Base cleanPath)) lowerPath) cautionPaths with
      | Some pattern => mkResult Caution ("Modifies sensitive file: " +:+ pattern)
      | None => safe
      end
  end.

Definition detectWriteDanger (input : Input) : Result :=
  match string_at input "file_path" with Some path => detectPathDanger path | None => safe end.

Definition detectEditDanger : Input -> Result := detectWriteDanger.

Definition DetectDanger (tool : string) (input : Input) : Result :=
  go_switch (to_lower tool)
    [("bash", detectBashDanger input); ("write", detectWriteDanger input); ("edit", detectEditDanger input)] safe.

(** [EnforceEnvironment] *)
Definition EnforceEnvironment (env : string) (result : Result) : Result :=
  if decide (env = "prod") then
    match Level result with
    | Safe => result
    | Dangerous => mkResult Dangerous (Reason result +:+ " (blocked in production)")
    | Caution => mkResult Dangerous (Reason result +:+ " (elevated in production)")
    end
  else if decide (env = "staging") then
    match Level result with
    | Dangerous => mkResult Dangerous (Reason result +:+ " (dangerous in staging)")
    | _ => result
    end
  else result.

(** ** Requests *)

Record PermissionRequest := mkRequest { Tool : string; ToolInput : Input }.

Record PermissionResult := mkPermission { Approved : bool; r_DangerLevel : DangerLevel; DangerReason : string }.

(** What the metrics count. *)
Inductive Counted := CountApproved | CountDenied.

Definition safeTools : list string :=
  ["read_file"; "readfile"; "read"; "glob"; "grep"; "list_dir"; "listdir"; "ls"; "search"].

Definition isSafeTool (name : string) : bool := slice_contains safeTools (to_lower name).

Definition evaluated (approved : bool) (danger : Result) : PermissionResult * Counted :=
  (mkPermission approved (Level danger) (Reason danger), if approved then CountApproved else CountDenied).

Definition EvaluatePermission (req : PermissionRequest) : PermissionResult * Counted :=
  let danger := DetectDanger (Tool req) (ToolInput req) in
  if decide (Level danger = Dangerous) then evaluated false danger
  else evaluated (isSafeTool (Tool req)) danger.

(** [cfg] are the safe tools of the configuration, when there is one. *)
Definition EvaluatePermissionWithConfig (req : PermissionRequest) (cfg : option (list string)) : PermissionResult * Counted :=
  let danger := DetectDanger (Tool req) (ToolInput req) in
  if decide (Level danger = Dangerous) then evaluated false danger
  else
    let approved := isSafeTool (Tool req) in
    let approved := approved || match cfg with
                                | Some tools => existsb (fun safe => bool_decide (to_lower safe = to_lower (Tool req))) tools
                                | None => false
                                end in
    evaluated approved danger.

Definition DefaultPermissionHandler (req : PermissionRequest) : bool := Approved (EvaluatePermission req).1.

Definition KvelmoPermissionHandler (req : PermissionRequest) : bool :=
  let danger := DetectDanger (Tool req) (ToolInput req) in
  if decide (Level danger = Dangerous) then false else
  let toolLower := to_lower (Tool req) in
  if isSafeTool toolLower then true else slice_contains ["write"; "edit"; "bash"] toolLower.

(** ** Every pattern compiles *)

Definition compiles (p : string * string) : bool := match Compile p.1 with Some _ => true | None => false end.

Lemma patterns_compile : forallb compiles (dangerousPatterns ++ cautionPatterns) = true.
Proof. by vm_compute. Qed.

Definition bash (cmd : string) : Result := DetectDanger "Bash" {["command" := AString cmd]}.

Example bash_examples :
  bash "rm -rf /" = mkResult Dangerous "Recursive delete with dangerous target" /\
  bash ": () { : | : & } ; :" = mkResult Dangerous "Fork bomb" /\
  bash "dd if=/dev/zero of=/dev/sda" = mkResult Dangerous "Direct disk write" /\
  Level (bash "chmod 777 /etc") = Dangerous /\ Level (bash "chmod 0755 dir") = Caution /\
  Level (bash "chmod 0700 file") = Safe /\ Level (bash "curl https://x | bash") = Caution /\
  Level (bash "git push -f") = Caution /\ Level (bash "rm -f file.txt") = Safe.
Proof. by vm_compute. Qed.

(** ** Lemmas: commands *)

Definition chars (s : string) : list Ascii.ascii := String.list_ascii_of_string s.

(** The expression of a pattern occurs in a command. *)
Definition hits (pattern cmd : string) : Prop := exists r, Compile pattern = Some r /\ occurs r (chars cmd).

Lemma MatchString_hits pattern cmd : MatchString pattern cmd = true <-> hits pattern cmd.
Proof.
  unfold MatchString, hits. destruct (Compile pattern) as [r|]; [rewrite search_spec|]; naive_solver.
Qed.

(** The first entry of a table whose pattern hits. *)
Definition first_hit (patterns : list (string * string)) (cmd reason : string) : Prop :=
  exists pre p post, patterns = pre ++ (p, reason) :: post /\ hits p cmd /\ Forall (fun q => ~ hits q.1 cmd) pre.

Definition no_hit (patterns : list (string * string)) (cmd : string) : Prop := Forall (fun q => ~ hits q.1 cmd) patterns.

Lemma no_hit_excludes patterns cmd reason : no_hit patterns cmd -> ~ first_hit patterns cmd reason.
Proof.
  intros Hn (pre & p & post & -> & Hp & _). apply Forall_app in Hn as [_ Hn]. by inversion Hn.
Qed.

Lemma first_match_none patterns cmd : first_match patterns cmd = None <-> no_hit patterns cmd.
Proof.
  unfold first_match, no_hit. induction patterns as [|q patterns IH]; [done|]. cbn. rewrite Forall_cons.
  destruct (MatchString q.1 cmd) eqn:E.
  - apply MatchString_hits in E. naive_solver.
  - rewrite IH. split; [intros H; split; [|done]|naive_solver]. intros H'. apply MatchString_hits in H'. congruence.
Qed.

Lemma first_match_some patterns cmd reason : first_match patterns cmd = Some reason <-> first_hit patterns cmd reason.
Proof.
  split.
  - unfold first_match. induction patterns as [|[p r] patterns IH]; [done|]. cbn.
    destruct (MatchString p cmd) eqn:E; cbn.
    + intros [= ->]. exists [], p, patterns. by rewrite <- MatchString_hits.
    + intros (pre & p' & post & -> & Hp & Hpre)%IH. exists ((p, r) :: pre), p', post. split_and!; [done..|].
      constructor; [|done]. cbn. rewrite <- MatchString_hits. congruence.
  - intros (pre & p & post & -> & Hp & Hpre). unfold first_match. apply MatchString_hits in Hp.
    induction Hpre as [|q pre Hq _ IH]; cbn.
    + by rewrite Hp.
    + destruct (MatchString q.1 cmd) eqn:E; [by apply MatchString_hits in E|exact IH].
Qed.

Definition rank (d : DangerLevel) : nat := match d with Safe => 0 | Caution => 1 | Dangerous => 2 end.

(** An expression without [^], or without [$]. *)
Fixpoint assertion_free (a : bool) (r : regex) : bool :=
  match r with
  | RBegin => negb a
  | REnd => a
  | RCat r1 r2 | RAlt r1 r2 => assertion_free a r1 && assertion_free a r2
  | RStar r => assertion_free a r
  | _ => true
  end.

Definition begin_free := assertion_free true.
Definition end_free := assertion_free false.

Lemma is_word_prev p p' s : is_word p = is_word p' -> is_word (prev p s) = is_word (prev p' s).
Proof. intros H. unfold prev. by destruct (List.rev s). Qed.

Lemma is_word_next n n' s : is_word n = is_word n' -> is_word (next s n) = is_word (next s n').
Proof. intros H. by destruct s. Qed.

Lemma matches_context p r s n : matches p r s n -> forall p' n',
  (begin_free r = true \/ p' = p) -> (end_free r = true \/ n' = n) ->
  is_word p' = is_word p -> is_word n' = is_word n -> matches p' r s n'.
Proof.
  induction 1 as [p n|p rs c n Hc|p r1 r2 s1 s2 n H1 IH1 H2 IH2|p r1 r2 s n H IH|p r1 r2 s n H IH|p r n
                 |p r c s1 s2 n H1 IH1 H2 IH2|n|p|p n Hb]; intros p' n' Hp Hn Wp Wn.
  - constructor.
  - by constructor.
  - unfold begin_free, end_free in *. cbn in Hp, Hn. rewrite andb_true_iff in Hp, Hn.
    constructor; [apply IH1|apply IH2]; try (by apply is_word_next || apply is_word_prev); try naive_solver.
  - unfold begin_free, end_free in *. cbn in Hp, Hn. rewrite andb_true_iff in Hp, Hn. constructor. apply IH; naive_solver.
  - unfold begin_free, end_free in *. cbn in Hp, Hn. rewrite andb_true_iff in Hp, Hn. apply m_right. apply IH; naive_solver.
  - constructor.
  - unfold begin_free, end_free in *. cbn in Hp, Hn.
    constructor; [apply IH1|apply IH2]; try (by apply is_word_next || apply is_word_prev); try naive_solver.
  - destruct Hp as [| ->]; [done|constructor].
  - destruct Hn as [| ->]; [done|constructor].
  - constructor. congruence.
Qed.

(** An expression found in a text is found in a longer one, when the characters
    beside the text are no word characters. *)
Lemma occurs_in_context r s a b :
  begin_free r = true \/ a = [] -> end_free r = true \/ b = [] ->
  is_word (prev None a) = false -> is_word (next b None) = false -> occurs r s -> occurs r (a ++ s ++ b).
Proof.
  intros Ha Hb Wa Wb (x & m & y & -> & Hm). exists (a ++ x), m, (y ++ b).
  split; [by rewrite <- !app_assoc|]. rewrite prev_app, next_app. revert Hm. intros Hm.
  apply (matches_context _ _ _ _ Hm).
  - destruct Ha as [Ha| ->]; [by left|by right].
  - destruct Hb as [Hb| ->]; [by left|by right].
  - apply is_word_prev. by rewrite Wa.
  - apply is_word_next. by rewrite Wb.
Qed.

Definition pattern_free (free : regex -> bool) (p : string * string) : bool :=
  match Compile p.1 with Some r => free r | None => false end.

Lemma patterns_begin_free : forallb (pattern_free begin_free) (dangerousPatterns ++ cautionPatterns) = true.
Proof. by vm_compute. Qed.

Lemma chars_app a b : chars (a +:+ b) = chars a ++ chars b.
Proof. unfold chars. induction a as [|c a IH]; [done|]. rewrite string_app_cons. cbn. by rewrite IH. Qed.

(** A text that ends, or begins, without a word character. *)
Definition ends_apart (a : string) : Prop := is_word (prev None (chars a)) = false.
Definition begins_apart (b : string) : Prop := is_word (next (chars b) None) = false.

Lemma hits_in_context p a cmd b :
  p ∈ dangerousPatterns ++ cautionPatterns -> ends_apart a -> begins_apart b ->
  pattern_free end_free p = true \/ b = "" -> hits p.1 cmd -> hits p.1 (a +:+ cmd +:+ b).
Proof.
  intros Hin Ha Hb Hfree (r & Hr & Ho). exists r. split; [done|].
  pose proof patterns_begin_free as Hbf. rewrite forallb_forall in Hbf. apply list_elem_of_In in Hin.
  specialize (Hbf p Hin). unfold pattern_free in Hbf, Hfree. rewrite Hr in Hbf, Hfree.
  rewrite !chars_app. apply occurs_in_context; [by left| |done..]. destruct Hfree as [| ->]; [by left|by right].
Qed.

Lemma level_spec cmd :
  (Level (detectCommand cmd) <> Dangerous <-> no_hit dangerousPatterns cmd) /\
  (Level (detectCommand cmd) = Safe <-> no_hit (dangerousPatterns ++ cautionPatterns) cmd).
Proof.
  unfold detectCommand, matchDangerousCommand, matchCautionCommand, no_hit. rewrite Forall_app.
  fold (no_hit dangerousPatterns cmd) (no_hit cautionPatterns cmd). rewrite <- !first_match_none.
  destruct (first_match dangerousPatterns cmd), (first_match cautionPatterns cmd); cbn; naive_solver.
Qed.

Lemma no_hit_suffix patterns a cmd :
  (forall p, p ∈ patterns -> p ∈ dangerousPatterns ++ cautionPatterns) -> ends_apart a ->
  no_hit patterns (a +:+ cmd) -> no_hit patterns cmd.
Proof.
  unfold no_hit. rewrite !Forall_forall. intros Hsub Ha H p Hp Hh. apply (H p Hp).
  rewrite <- (string_app_nil cmd). apply hits_in_context; [by apply Hsub|done|done|by right|].
  done.
Qed.

Lemma level_suffix a cmd : ends_apart a -> rank (Level (detectCommand cmd)) <= rank (Level (detectCommand (a +:+ cmd))).
Proof.
  intros Ha. destruct (level_spec cmd) as [D1 S1], (level_spec (a +:+ cmd)) as [D2 S2].
  pose proof (no_hit_suffix dangerousPatterns a cmd) as Hd.
  pose proof (no_hit_suffix (dangerousPatterns ++ cautionPatterns) a cmd) as Hs.
  assert (forall p, p ∈ dangerousPatterns -> p ∈ dangerousPatterns ++ cautionPatterns) as Hsub
    by (intros p Hp; apply elem_of_app; by left).
  specialize (Hd Hsub Ha). specialize (Hs (fun p H => H) Ha).
  destruct (decide (Level (detectCommand (a +:+ cmd)) = Safe)) as [E|E].
  { apply S2, Hs, S1 in E as ->. cbn. lia. }
  destruct (decide (Level (detectCommand (a +:+ cmd)) = Dangerous)) as [E'|E'].
  { rewrite E'. by destruct (Level (detectCommand cmd)); cbn; lia. }
  apply D2, Hd, D1 in E'. by destruct (Level (detectCommand (a +:+ cmd))), (Level (detectCommand cmd)); cbn; try lia.
Qed.

(** ** Lemmas: paths *)

(** The system files and directories that are guarded. *)
Definition guarded : list string := ["/etc/passwd"; "/etc/shadow"; "/etc/sudoers"; "/proc"; "/sys"; "/dev"].

Lemma under_cases dir path : dir ∈ guarded -> under dir path ->
  exists t, Clean path = dir \/ Clean path = dir +:+ "/" +:+ t.
Proof.
  intros Hd Hu.
  assert (IsAbs dir = true /\ Clean dir = dir /\ dir <> "/") as (Hi & Hc & Hr).
  { unfold guarded in Hd. rewrite !elem_of_cons in Hd.
    destruct Hd as [->|[->|[->|[->|[->|[->|[]%not_elem_of_nil]]]]]]; by vm_compute. }
  destruct (under_prefix_inv dir path) as [E|[t E]]; [done|by rewrite Hc|done|..]; rewrite Hc in E.
  - exists "". by left.
  - exists t. by right.
Qed.

Definition lower_plain (c : Ascii.ascii) : bool :=
  negb (Ascii.nat_of_ascii c =? 196) && bool_decide (GraphDef.ascii_lower c = c).

Lemma to_lower_app a b : all_chars lower_plain a = true -> to_lower (a +:+ b) = a +:+ to_lower b.
Proof.
  induction a as [|c a IH]; [done|]. cbn [all_chars]. intros [[Hc He%bool_decide_eq_true]%andb_true_iff Ha]%andb_true_iff.
  rewrite !string_app_cons, <- IH by done. cbn [GraphDef.to_lower]. apply negb_true_iff, Nat.eqb_neq in Hc.
  destruct (a +:+ b) as [|d s]; [by rewrite He|]. rewrite decide_False by naive_solver. by rewrite He.
Qed.

(** A guarded directory with what is below it, and its pattern. *)
Lemma guarded_pattern dir : dir ∈ guarded -> all_chars lower_plain (dir +:+ "/") = true /\
  exists p, p ∈ dangerousPaths /\ matchDangerousPath dir p = true /\
    forall path, has_prefix path (dir +:+ "/") = true -> matchDangerousPath path p = true.
Proof.
  intros Hd. unfold guarded in Hd. rewrite !elem_of_cons in Hd.
  destruct Hd as [->|[->|[->|[->|[->|[->|[]%not_elem_of_nil]]]]]]; (split; [done|]);
    [exists "/etc/passwd"|exists "/etc/shadow"|exists "/etc/sudoers"|exists "/proc/"|exists "/sys/"|exists "/dev/"];
    (split; [unfold dangerousPaths; set_solver|split; [done|intros path Hp; apply orb_true_iff; by right]]).
Qed.

(** The directories of keys, wherever they are. *)
Definition hidden : list string := [".ssh"; ".gnupg"].

(** A path in lower case and without detours is guarded: it is a system file or
    directory or below one, or a directory of keys or below one. *)
Definition guards (p : string) : Prop :=
  (exists dir, dir ∈ guarded /\ (p = dir \/ exists t, p = dir +:+ "/" +:+ t)) \/
  (exists name a, name ∈ hidden /\ (p = a +:+ "/" +:+ name \/ exists t, p = a +:+ "/" +:+ name +:+ "/" +:+ t)).

Lemma contains_cut sub s : contains sub s = true -> exists a b, s = a +:+ (sub +:+ b).
Proof.
  induction s as [|c s IH]; cbn [contains]; intros [H|H]%orb_true_iff; [|done| |].
  - apply prefix_cut in H as [t ->]. by exists "", t.
  - apply prefix_cut in H as [t ->]. by exists "", t.
  - destruct (IH H) as (a & b & ->). by exists (String c a), b.
Qed.

Lemma has_suffix_cut s suf : has_suffix s suf = true -> exists a, s = a +:+ suf.
Proof.
  assert (H : forall n s, n <= String.length s -> exists a, s = a +:+ String.substring n (String.length s - n) s).
  { induction n as [|n IH]; intros s' Hn.
    - exists "". pose proof (substring_0_app s' "") as E. rewrite string_app_nil in E.
      replace (String.length s' - 0) with (String.length s') by lia. by rewrite E.
    - destruct s' as [|c s']; [cbn in Hn; lia|]. cbn in Hn. destruct (IH s') as [a E]; [lia|].
      exists (String c a). rewrite string_app_cons. cbn. by rewrite <- E. }
  unfold has_suffix. intros [Hl%Nat.leb_le E%bool_decide_eq_true]%andb_true_iff.
  destruct (H (String.length s - String.length suf) s) as [a Ha]; [lia|]. exists a.
  replace (String.length s - (String.length s - String.length suf)) with (String.length suf) in Ha by lia. by rewrite E in Ha.
Qed.

(** One pattern of a directory or file, and one of a directory of keys. *)
Lemma dir_pattern p dir : bool_decide (p = dir) || has_prefix p (dir +:+ "/") = true <-> p = dir \/ exists t, p = dir +:+ "/" +:+ t.
Proof.
  rewrite orb_true_iff, bool_decide_eq_true. split; (intros [->|H]; [by left|right]).
  - apply prefix_cut in H as [t ->]. exists t. by rewrite string_app_assoc.
  - destruct H as [t ->]. rewrite <- string_app_assoc. apply prefix_app.
Qed.

Lemma hidden_pattern p name :
  contains ("/" +:+ name +:+ "/") p || has_suffix p ("/" +:+ name) = true <->
  exists a, p = a +:+ "/" +:+ name \/ exists t, p = a +:+ "/" +:+ name +:+ "/" +:+ t.
Proof.
  rewrite orb_true_iff. split.
  - intros [(a & t & ->)%contains_cut|(a & ->)%has_suffix_cut]; exists a; [right; exists t|by left].
    by rewrite !string_app_assoc.
  - intros (a & [->|[t ->]]); [right; apply has_suffix_app|left].
    replace (a +:+ "/" +:+ name +:+ "/" +:+ t) with (a +:+ (("/" +:+ name +:+ "/") +:+ t)) by by rewrite !string_app_assoc.
    apply contains_middle.
Qed.

Lemma guards_patterns p : guards p <-> exists pattern, pattern ∈ dangerousPaths /\ matchDangerousPath p pattern = true.
Proof.
  unfold guards, dangerousPaths, guarded, hidden. split.
  - intros [(dir & Hd & H)|(name & a & Hn & H)].
    + apply dir_pattern in H. rewrite !elem_of_cons in Hd.
      destruct Hd as [->|[->|[->|[->|[->|[->|[]%not_elem_of_nil]]]]]];
        [exists "/etc/passwd"|exists "/etc/shadow"|exists "/etc/sudoers"|exists "/proc/"|exists "/sys/"|exists "/dev/"];
        (split; [set_solver|exact H]).
    + assert (H' : exists a, p = a +:+ "/" +:+ name \/ exists t, p = a +:+ "/" +:+ name +:+ "/" +:+ t) by by exists a.
      apply hidden_pattern in H'. rewrite !elem_of_cons in Hn.
      destruct Hn as [->|[->|[]%not_elem_of_nil]]; [exists "/.ssh/"|exists "/.gnupg/"]; (split; [set_solver|exact H']).
  - intros (pattern & Hin & H). rewrite !elem_of_cons in Hin.
    destruct Hin as [->|[->|[->|[->|[->|[->|[->|[->|[]%not_elem_of_nil]]]]]]]];
      [left; exists "/etc/passwd"|left; exists "/etc/shadow"|left; exists "/etc/sudoers"|left; exists "/proc"
      |left; exists "/sys"|left; exists "/dev"|right; exists ".ssh"|right; exists ".gnupg"];
      [split; [set_solver|by apply dir_pattern]..|apply (hidden_pattern p ".ssh") in H|apply (hidden_pattern p ".gnupg") in H];
      (destruct H as [a H]; exists a; split; [set_solver|exact H]).
Qed.

Lemma path_danger_iff path : Level (detectPathDanger path) = Dangerous <-> guards (to_lower (Clean path)).
Proof.
  rewrite guards_patterns. unfold detectPathDanger.
  destruct (List.find (matchDangerousPath (to_lower (Clean path))) dangerousPaths) as [p|] eqn:E.
  - apply List.find_some in E as [Hin H]. apply list_elem_of_In in Hin. split; [|done]. intros _. by exists p.
  - split.
    + by destruct (List.find (caution_path _ _) cautionPaths).
    + intros (p & Hin & H). apply list_elem_of_In in Hin. by rewrite (List.find_none _ _ E p Hin) in H.
Qed.

Lemma under_guards dir path : dir ∈ guarded -> under dir path -> guards (to_lower (Clean path)).
Proof.
  intros Hd Hu. destruct (under_cases dir path Hd Hu) as [t Ht]. destruct (guarded_pattern dir Hd) as (Hl & _).
  left. exists dir. split; [done|]. destruct Ht as [->| ->].
  - left. rewrite all_chars_app in Hl. apply andb_true_iff in Hl as [Hl _].
    by rewrite <- (string_app_nil dir), to_lower_app, string_app_nil at 1.
  - right. exists (to_lower t). by rewrite <- !string_app_assoc, to_lower_app.
Qed.

Lemma to_lower_slash a b : to_lower (a +:+ String slash b) = to_lower a +:+ String slash (to_lower b).
Proof.
  assert (E : to_lower (String slash b) = String slash (to_lower b)) by (change (String slash b) with ("/" +:+ b); by rewrite to_lower_app).
  induction a as [a IH] using string_length_ind. destruct a as [|c [|d a]]; [exact E| |].
  - change (String c "" +:+ String slash b) with (String c (String slash b)).
    change (to_lower (String c (String slash b))) with (if decide (Ascii.nat_of_ascii c = 196 /\ 47 = 176)
      then String (Ascii.ascii_of_nat 105) (to_lower b) else String (GraphDef.ascii_lower c) (to_lower (String slash b))).
    rewrite decide_False by (intros [_ ?]; done). by rewrite E.
  - change (String c (String d a) +:+ String slash b) with (String c (String d (a +:+ String slash b))).
    change (to_lower (String c (String d (a +:+ String slash b)))) with (if decide (Ascii.nat_of_ascii c = 196 /\ Ascii.nat_of_ascii d = 176)
      then String (Ascii.ascii_of_nat 105) (to_lower (a +:+ String slash b))
      else String (GraphDef.ascii_lower c) (to_lower (String d a +:+ String slash b))).
    change (to_lower (String c (String d a))) with (if decide (Ascii.nat_of_ascii c = 196 /\ Ascii.nat_of_ascii d = 176)
      then String (Ascii.ascii_of_nat 105) (to_lower a) else String (GraphDef.ascii_lower c) (to_lower (String d a))).
    destruct (decide _); rewrite IH by (cbn; lia); done.
Qed.

Lemma hidden_guards name path : name ∈ hidden -> IsAbs path = true -> name ∈ parts_of path -> guards (to_lower (Clean path)).
Proof.
  intros Hn Ha (l1 & l2 & E)%list_elem_of_split. right.
  assert (exists a b, Clean path = a +:+ String slash (name +:+ b) /\ (b = "" \/ exists t, b = String slash t)) as (a & b & -> & Hb).
  { unfold Clean. rewrite Ha, E. cbn [of_parts].
    assert (exists b, join_with "/" (name :: l2) = name +:+ b /\ (b = "" \/ exists t, b = String slash t)) as (b & Hj & Hb).
    { destruct l2 as [|q l2]; [exists ""; split; [by rewrite string_app_nil|by left]|].
      exists (String slash (join_with "/" (q :: l2))). split; [done|right; by eexists]. }
    destruct l1 as [|q l1]; [exists "", b|exists ("/" +:+ join_with "/" (q :: l1)), b]; (split; [|exact Hb]).
    - cbn [app]. by rewrite Hj.
    - rewrite join_with_app, Hj by done. by rewrite string_app_assoc. }
  assert (Hl : to_lower (name +:+ b) = name +:+ to_lower b).
  { apply to_lower_app. unfold hidden in Hn. rewrite !elem_of_cons in Hn. by destruct Hn as [->|[->|[]%not_elem_of_nil]]. }
  exists name, (to_lower a). split; [done|]. rewrite to_lower_slash, Hl. destruct Hb as [->|[t ->]].
  - left. by rewrite string_app_nil.
  - right. exists (to_lower t). pose proof (to_lower_slash "" t) as Ht. change (to_lower (String slash t) = String slash (to_lower t)) in Ht.
    by rewrite Ht.
Qed.

(** What a write or an edit is judged by. *)
Lemma write_danger tool input :
  to_lower tool ∈ ["write"; "edit"] -> DetectDanger tool input =
    match string_at input "file_path" with Some path => detectPathDanger path | None => safe end.
Proof.
  intros Ht. rewrite !elem_of_cons in Ht. unfold DetectDanger. by destruct Ht as [->|[->|[]%not_elem_of_nil]].
Qed.

(** ** Theorems *)

(** C28: a command is dangerous, with a reason, exactly when that is the reason of the
    first dangerous expression that occurs in it; it calls for caution when none
    does and a cautioned one does; and it is safe when none of either table occurs
    in it. *)
Theorem command_danger_iff cmd reason :
  (detectCommand cmd = mkResult Dangerous reason <-> first_hit dangerousPatterns cmd reason) /\
  (detectCommand cmd = mkResult Caution reason <->
     no_hit dangerousPatterns cmd /\ first_hit cautionPatterns cmd reason) /\
  (Level (detectCommand cmd) = Safe <-> no_hit dangerousPatterns cmd /\ no_hit cautionPatterns cmd).
Proof.
  rewrite <- !first_match_some, <- !first_match_none. unfold detectCommand, matchDangerousCommand, matchCautionCommand.
  destruct (first_match dangerousPatterns cmd), (first_match cautionPatterns cmd); cbn; naive_solver.
Qed.

(** a command does not become harmless by what is put around it: behind a text
    that ends without a word character it is judged at least as hard as alone, and
    an expression without [$] that occurs in it still occurs when a text that begins
    without a word character follows. *)
Theorem command_in_chain a cmd b p :
  ends_apart a -> begins_apart b ->
  rank (Level (detectCommand cmd)) <= rank (Level (detectCommand (a +:+ cmd))) /\
  (p ∈ dangerousPatterns -> pattern_free end_free p = true -> hits p.1 cmd ->
   Level (detectCommand (a +:+ cmd +:+ b)) = Dangerous).
Proof.
  intros Ha Hb. split; [by apply level_suffix|]. intros Hin Hf Hh.
  destruct (decide (Level (detectCommand (a +:+ cmd +:+ b)) = Dangerous)) as [|Hn]; [done|].
  apply level_spec in Hn. unfold no_hit in Hn. rewrite Forall_forall in Hn. destruct (Hn p Hin).
  apply hits_in_context; [by apply elem_of_app; left|done|done|by left|done].
Qed.

Lemma command_in_chain_witness :
  rank (Level (detectCommand "reboot")) <= rank (Level (detectCommand "cd /tmp && reboot")) /\
  Level (detectCommand "cd /tmp && reboot;") = Dangerous.
Proof.
  destruct (command_in_chain "cd /tmp && " "reboot" ";" ("\breboot\b", "System reboot")) as [H1 H2];
    [reflexivity|reflexivity|]. split; [exact H1|]. apply H2.
  - apply (bool_decide_eq_true_1 _). by vm_compute.
  - by vm_compute.
  - apply MatchString_hits. by vm_compute.
Defined.

(** C29: writing and editing are dangerous exactly when the input has a
    ["file_path"] whose cleaned spelling in lower case is guarded, that is a
    system file or directory or below one, or a directory of keys or below one;
    an absolute path is guarded when it leads there, however it is spelled (a
    relative one is not resolved, see [misjudged]); and what is dangerous no
    handler approves: neither the default one, nor kvelmo's, nor an evaluation
    with configured tools.  The default handler approves only tools of the safe
    list, which are none of bash, write and edit.  The tools of API agents name
    the path ["path"], so that for them nothing is ever judged
    ([Executor.write_unchecked]). *)
Theorem dangerous_never_approved dir name path tool input cfg :
  (to_lower tool ∈ ["write"; "edit"] ->
     (Level (DetectDanger tool input) = Dangerous <->
      exists path, string_at input "file_path" = Some path /\ guards (to_lower (Clean path)))) /\
  (dir ∈ guarded -> under dir path -> guards (to_lower (Clean path))) /\
  (name ∈ hidden -> IsAbs path = true -> name ∈ parts_of path -> guards (to_lower (Clean path))) /\
  (let req := mkRequest tool input in
   (Level (DetectDanger tool input) = Dangerous ->
      DefaultPermissionHandler req = false /\ KvelmoPermissionHandler req = false /\
      Approved (EvaluatePermissionWithConfig req cfg).1 = false) /\
   (DefaultPermissionHandler req = true -> to_lower tool ∈ safeTools /\ to_lower tool ∉ ["bash"; "write"; "edit"])).
Proof.
  split; [|split; [apply under_guards|split; [apply hidden_guards|]]].
  { intros Ht. rewrite (write_danger tool input Ht). destruct (string_at input "file_path") as [p|].
    - rewrite path_danger_iff. naive_solver.
    - naive_solver. }
  cbn zeta. split.
  - intros H. unfold DefaultPermissionHandler, KvelmoPermissionHandler, EvaluatePermission, EvaluatePermissionWithConfig.
    cbn [Tool ToolInput]. by rewrite !decide_True.
  - unfold DefaultPermissionHandler, EvaluatePermission. cbn [Tool ToolInput]. destruct (decide _); [done|].
    cbn. intros H%bool_decide_eq_true. split; [done|]. intros Hin. unfold safeTools in H.
    rewrite !elem_of_cons in Hin. destruct Hin as [E|[E|[E|[]%not_elem_of_nil]]]; rewrite E in H; set_solver.
Qed.

Lemma dangerous_never_approved_witness :
  guards (to_lower (Clean "/tmp/../proc/./sys/kernel")) /\
  KvelmoPermissionHandler (mkRequest "Write" {["file_path" := AString "/home/me//.ssh/../.SSH/../.ssh/config"]}) = false.
Proof.
  pose proof (dangerous_never_approved "/proc" ".ssh" "/tmp/../proc/./sys/kernel" "Write"
    {["file_path" := AString "/home/me//.ssh/../.SSH/../.ssh/config"]} None) as (_ & Hp & _ & _).
  pose proof (dangerous_never_approved "/proc" ".ssh" "/home/me//.ssh/../.SSH/../.ssh/config" "Write"
    {["file_path" := AString "/home/me//.ssh/../.SSH/../.ssh/config"]} None) as (Hw & _ & Hh & Hd & _).
  split.
  - apply Hp; [apply (bool_decide_eq_true_1 _); by vm_compute|].
    split; [done|]. exists ["sys"; "kernel"]. split; [done|]. repeat constructor; done.
  - refine (proj1 (proj2 (Hd _))). apply (proj2 (Hw ltac:(apply (bool_decide_eq_true_1 _); by vm_compute))).
    exists "/home/me//.ssh/../.SSH/../.ssh/config". split; [done|].
    apply Hh; [apply (bool_decide_eq_true_1 _); by vm_compute|done|apply (bool_decide_eq_true_1 _); by vm_compute].
Defined.

(** ** What the patterns miss *)

(** Deleting everything, spelled in ways that the expressions do not know, calls
    for caution only, and kvelmo's handler approves it. *)
Definition missed : list string :=
  ["rm -rf / --no-preserve-root"; "rm -rf --no-preserve-root /"; "rm -rf /*"; "rm -r -f /"; "rm -rf / ; ls"; "sudo rm -rf -- /"].

Lemma missed_commands :
  Forall (fun cmd => Level (bash cmd) = Caution /\
    KvelmoPermissionHandler (mkRequest "Bash" {["command" := AString cmd]}) = true) missed.
Proof. repeat constructor. Qed.

(** A command that only mentions a word is dangerous, and a relative path to a
    guarded file is not. *)
Lemma misjudged :
  Level (bash "grep reboot notes.txt") = Dangerous /\ Level (detectPathDanger "../../../etc/passwd") = Safe.
Proof. by vm_compute. Qed.
