(* ===== verification/Executor.v ===== *)
(** * The tools of API agents

    Translates src/agent/apiagent/executor.go.  The disk maps the cleaned paths of
    regular files to their content; what the operating system answers beyond it
    (faults, directories, the commands run) is the record [OS].  There are no
    symbolic links. *)

From S2P Require Import Prelude Floats SettingsData SettingsPaths Names Text Paths Permission.
From S2P Require GraphDef.

(** ** The standard library *)

(** [strings.Count] of a non-empty text: [skip] bytes of an occurrence are left. *)
Fixpoint count_from (skip : nat) (sub s : string) : nat :=
  match s with
  | "" => 0
  | String _ rest =>
      match skip with
      | S skip => count_from skip sub rest
      | 0 => if String.prefix sub s then S (count_from (String.length sub - 1) sub rest)
             else count_from 0 sub rest
      end
  end.

Definition Count (s sub : string) : nat := count_from 0 sub s.

Definition drop_string (n : nat) (s : string) : string := String.substring n (String.length s - n) s.

(** [strings.Replace] of the first occurrence. *)
Fixpoint Replace1 (s old new : string) : string :=
  if String.prefix old s then new +:+ drop_string (String.length old) s else
  match s with
  | "" => ""
  | String c rest => String c (Replace1 rest old new)
  end.

(** [filepath.Rel] of absolute paths. *)
Fixpoint drop_common (base targ : list string) : list string * list string :=
  match base, targ with
  | b :: base', t :: targ' => if decide (b = t) then drop_common base' targ' else (base, targ)
  | _, _ => (base, targ)
  end.

Definition Rel (basepath targpath : string) : option string :=
  if decide (Clean basepath = Clean targpath) then Some "." else
  if decide (IsAbs basepath <> IsAbs targpath) then None else
  let '(base, targ) := drop_common (parts_of basepath) (parts_of targpath) in
  if decide (head base = Some "..") then None else
  Some (join_with "/" (((fun _ => "..") <$> base) ++ targ)).

(** [filepath.Dir]: what is before the last slash, cleaned. *)
Definition Dir (path : string) : string :=
  Clean (join_with "/" (take (length (Split slash path) - 1) (Split slash path)) +:+
         (if contains "/" path then "/" else "")).

(** *** [filepath.Match] *)

Inductive glob_token :=
| GStar
| GAny
| GChar (c : Ascii.ascii)
| GClass (negated : bool) (ranges : list (Ascii.ascii * Ascii.ascii)).

Definition esc : Ascii.ascii := Ascii.ascii_of_nat 92.
Definition chr (s : string) : Ascii.ascii := match s with String c _ => c | "" => esc end.

(** [getEsc]: a character of a class, with what follows it. *)
Definition getEsc (s : list Ascii.ascii) : option (Ascii.ascii * list Ascii.ascii) :=
  match s with
  | [] => None
  | c :: rest =>
      if decide (c = chr "-" \/ c = chr "]") then None else
      match (if decide (c = esc) then rest else s) with
      | d :: (_ :: _) as rest' => Some (d, rest')
      | _ => None
      end
  end.

(** The ranges of a class up to its bracket. *)
Fixpoint glob_ranges (fuel : nat) (s : list Ascii.ascii) (acc : list (Ascii.ascii * Ascii.ascii)) :
  option (list (Ascii.ascii * Ascii.ascii) * list Ascii.ascii) :=
  match fuel with
  | 0 => None
  | S fuel =>
      match s, acc with
      | c :: rest, _ :: _ => if decide (c = chr "]") then Some (List.rev acc, rest) else glob_range fuel s acc
      | _, _ => glob_range fuel s acc
      end
  end
with glob_range (fuel : nat) (s : list Ascii.ascii) (acc : list (Ascii.ascii * Ascii.ascii)) :
  option (list (Ascii.ascii * Ascii.ascii) * list Ascii.ascii) :=
  match fuel with
  | 0 => None
  | S fuel =>
      match getEsc s with
      | Some (lo, c :: rest) =>
          if decide (c = chr "-") then
            match getEsc rest with
            | Some (hi, rest) => glob_ranges fuel rest ((lo, hi) :: acc)
            | None => None
            end
          else glob_ranges fuel (c :: rest) ((lo, lo) :: acc)
      | _ => None
      end
  end.

(** The tokens of a pattern; [None]: [ErrBadPattern].  Each step consumes a
    character, so the pattern's length is fuel enough. *)
Fixpoint glob_parse (fuel : nat) (s : list Ascii.ascii) : option (list glob_token) :=
  match fuel with
  | 0 => Some []
  | S fuel =>
      match s with
      | [] => Some []
      | c :: rest =>
          if decide (c = chr "*") then cons GStar <$> glob_parse fuel rest else
          if decide (c = chr "?") then cons GAny <$> glob_parse fuel rest else
          if decide (c = esc) then
            match rest with d :: rest => cons (GChar d) <$> glob_parse fuel rest | [] => None end else
          if decide (c = chr "[") then
            let '(negated, rest) :=
              match rest with d :: rest' => if decide (d = chr "^") then (true, rest') else (false, rest) | [] => (false, rest) end in
            match glob_ranges (2 * length s) rest [] with
            | Some (ranges, rest) => cons (GClass negated ranges) <$> glob_parse fuel rest
            | None => None
            end
          else cons (GChar c) <$> glob_parse fuel rest
      end
  end.

Definition in_range (c : Ascii.ascii) (r : Ascii.ascii * Ascii.ascii) : bool :=
  (Ascii.nat_of_ascii r.1 <=? Ascii.nat_of_ascii c) && (Ascii.nat_of_ascii c <=? Ascii.nat_of_ascii r.2).

Definition token_matches (t : glob_token) (c : Ascii.ascii) : bool :=
  match t with
  | GStar | GAny => negb (bool_decide (c = slash))
  | GChar d => bool_decide (c = d)
  | GClass negated ranges => xorb negated (existsb (in_range c) ranges)
  end.

Fixpoint glob_matches (ts : list glob_token) (s : list Ascii.ascii) : bool :=
  match ts with
  | [] => bool_decide (s = [])
  | GStar :: ts =>
      (fix star s := glob_matches ts s || match s with c :: s => negb (bool_decide (c = slash)) && star s | [] => false end) s
  | t :: ts => match s with c :: s => token_matches t c && glob_matches ts s | [] => false end
  end.

Definition Match (pattern name : string) : option bool :=
  let p := chars pattern in (fun ts => glob_matches ts (chars name)) <$> glob_parse (length p) p.

Example glob_examples :
  Match "*.go" "main.go" = Some true /\ Match "*.go" "main.go.txt" = Some false /\ Match "a?c" "abc" = Some true /\
  Match "[a-c]x" "bx" = Some true /\ Match "[^a-c]*" "bx" = Some false /\ Match "\*" "*" = Some true /\
  Match "[a" "b" = None /\ Match "[]a]" "a" = None /\ Match "*" "a/b" = Some false /\
  Rel "/w" "/w/a/b" = Some "a/b" /\ Rel "/w/x" "/w/a" = Some "../a" /\
  Dir "/a/b/c" = "/a/b" /\ Dir "/a" = "/" /\ Dir "a" = "." /\ Dir "/a/b/" = "/a/b" /\
  Count "aaa" "aa" = 1 /\ Replace1 "xaay" "a" "b" = "xbay".
Proof. by vm_compute. Qed.

(** ** The executor *)

Notation Disk := (gmap string string).

(** An entry met by [filepath.WalkDir], in the order of the walk.  A directory that
    cannot be listed has no entries, and an entry that cannot be read is no entry. *)
#[local] Unset Elimination Schemes.
Inductive Entry :=
| EFile (name : string)
| EDir (name : string) (entries : list Entry).
#[local] Set Elimination Schemes.

Record OS := mkOS {
  read_fault : Disk -> string -> option string;
  mkdir_fault : Disk -> string -> option string;
  (** A write that fails, with what it leaves in the file if it touched it. *)
  write_fault : Disk -> string -> option (string * option string);
  (** The working directory, the command and the timeout: what the disk becomes,
      the two outputs, and the error. *)
  run_bash : Disk -> string -> string -> Z -> Disk * (string * string * option string);
  run_grep : Disk -> list string -> string;
  read_dir : Disk -> string -> string + list (string * bool);
  list_glob : Disk -> string -> string + list string;
  tree : Disk -> string -> option Entry
}.

(** [Returns output err], or a panic that nothing recovers. *)
Inductive Out := Returns (output : string) (err : option string) | Panics.

Definition fails (err : string) : Out := Returns "" (Some err).
Definition returns (output : string) : Out := Returns output None.

Definition os_read (os : OS) (d : Disk) (path : string) : string + string :=
  match read_fault os d path with
  | Some e => inl e
  | None => match d !! path with Some content => inr content | None => inl ("open " +:+ path +:+ ": no such file or directory") end
  end.

(** [os.WriteFile] *)
Definition os_write (os : OS) (d : Disk) (path content : string) : Disk * option string :=
  match write_fault os d path with
  | Some (e, Some left_over) => (<[path := left_over]> d, Some e)
  | Some (e, None) => (d, Some e)
  | None => (<[path := content]> d, None)
  end.

Record ToolExecutor := mkExecutor {
  WorkDir : string;
  PermissionHandler : option (PermissionRequest -> bool);
  ExecTimeout : Z
}.

(** [path, _ := input[key].(string)] *)
Definition text_at (input : Input) (key : string) : string := default "" (string_at input key).

(** [if f, ok := input[key].(float64); ok && f > 0] *)
Definition positive_at (input : Input) (key : string) : option spec_float :=
  match input !! key with Some (AFloat f) => if float_lt float_zero f then Some f else None | _ => None end.

Definition canonicalToolName (toolName : string) : string :=
  go_switch (to_lower toolName)
    [("bash", "bash"); ("read", "read"); ("read_file", "read"); ("readfile", "read");
     ("write", "write"); ("write_file", "write"); ("writefile", "write");
     ("edit", "edit"); ("edit_file", "edit"); ("editfile", "edit");
     ("glob", "glob"); ("grep", "grep"); ("ls", "ls"); ("list_dir", "ls"); ("listdir", "ls")] (to_lower toolName).

Definition permissionToolName : string -> string := canonicalToolName.

Definition escapes (path : string) : string := "path " +:+ quote path +:+ " escapes working directory".

Definition resolvePath (e : ToolExecutor) (path : string) : string + string :=
  let resolved := if IsAbs path then Clean path else Clean (Join2 (WorkDir e) path) in
  let workDir := Clean (WorkDir e) in
  if negb (bool_decide (resolved = workDir)) && negb (has_prefix resolved (workDir +:+ "/")) then inl (escapes path)
  else inr resolved.

(** The directory that a search starts in: [input["path"]], or the working one. *)
Definition search_dir (e : ToolExecutor) (input : Input) : string + string :=
  let p := text_at input "path" in if decide (p = "") then inr (WorkDir e) else resolvePath e p.

(** *** bash *)

Definition Second : Z := 1000000000.

Definition execBash (os : OS) (e : ToolExecutor) (d : Disk) (input : Input) (timeout : Z) : Disk * Out :=
  let command := text_at input "command" in
  if decide (command = "") then (d, fails "bash: command is required") else
  let timeout := match positive_at input "timeout" with
                 | Some t => wrap64 (int_of_float t * Second)
                 | None => timeout
                 end in
  let '(d, (stdout, stderr, err)) := run_bash os d (WorkDir e) command timeout in
  let output := if decide (stderr = "") then stdout
                else (if decide (stdout = "") then "" else stdout +:+ nl) +:+ "STDERR: " +:+ stderr in
  match err with
  | Some err => (d, Returns output (Some ("bash: " +:+ err +:+ nl +:+ output)))
  | None => (d, returns output)
  end.

(** *** read *)

Fixpoint spaces (n : nat) : string := match n with 0 => "" | S n => " " +:+ spaces n end.

(** [%6d], a tab, the line and a line feed. *)
Definition numbered (i : nat) (line : string) : string :=
  let n := pretty (Z.of_nat (S i)) in
  spaces (6 - String.length n) +:+ n +:+ String (Ascii.ascii_of_nat 9) (line +:+ nl).

Fixpoint numbered_from (i : nat) (lines : list string) : string :=
  match lines with [] => "" | l :: lines => numbered i l +:+ numbered_from (S i) lines end.

(** Lines [offset] up to [end_], from 0; an index below 0 panics. *)
Definition print_lines (lines : list string) (offset end_ : Z) : Out :=
  if decide (end_ <= offset)%Z then returns "" else
  if decide (offset < 0)%Z then Panics else
  returns (numbered_from (Z.to_nat offset) (take (Z.to_nat (end_ - offset)) (drop (Z.to_nat offset) lines))).

Definition line_feed : Ascii.ascii := Ascii.ascii_of_nat 10.

Definition read_window (input : Input) (lines : list string) : Out :=
  let n := Z.of_nat (length lines) in
  let window offset :=
    let limit := match positive_at input "limit" with Some l => int_of_float l | None => wrap64 (n - offset) end in
    print_lines lines offset (Z.min (wrap64 (offset + limit)) n) in
  match positive_at input "offset" with
  | Some o =>
      let offset := wrap64 (int_of_float o - 1) in
      if decide (n <= offset)%Z
      then fails ("read_file: offset " +:+ pretty (int_of_float o) +:+ " exceeds file length " +:+ pretty n)
      else window offset
  | None => window 0%Z
  end.

Definition execReadFile (os : OS) (e : ToolExecutor) (d : Disk) (input : Input) : Out :=
  let path := text_at input "path" in
  if decide (path = "") then fails "read_file: path is required" else
  match resolvePath e path with
  | inl err => fails ("read_file: " +:+ err)
  | inr path =>
      match os_read os d path with
      | inl err => fails ("read_file: " +:+ err)
      | inr data => read_window input (Split line_feed data)
      end
  end.

(** *** write and edit *)

Definition execWriteFile (os : OS) (e : ToolExecutor) (d : Disk) (input : Input) : Disk * Out :=
  let path := text_at input "path" in
  if decide (path = "") then (d, fails "write_file: path is required") else
  let content := text_at input "content" in
  match resolvePath e path with
  | inl err => (d, fails ("write_file: " +:+ err))
  | inr path =>
      match mkdir_fault os d (Dir path) with
      | Some err => (d, fails ("write_file: create directory: " +:+ err))
      | None =>
          match os_write os d path content with
          | (d, Some err) => (d, fails ("write_file: " +:+ err))
          | (d, None) => (d, returns ("Wrote " +:+ pretty (Z.of_nat (String.length content)) +:+ " bytes to " +:+ path))
          end
      end
  end.

Definition execEditFile (os : OS) (e : ToolExecutor) (d : Disk) (input : Input) : Disk * Out :=
  let path := text_at input "path" in
  if decide (path = "") then (d, fails "edit_file: path is required") else
  let oldStr := text_at input "old_string" in
  let newStr := text_at input "new_string" in
  if decide (oldStr = "") then (d, fails "edit_file: old_string is required") else
  match resolvePath e path with
  | inl err => (d, fails ("edit_file: " +:+ err))
  | inr path =>
      match os_read os d path with
      | inl err => (d, fails ("edit_file: " +:+ err))
      | inr content =>
          let count := Count content oldStr in
          if decide (count = 0) then (d, fails ("edit_file: old_string not found in " +:+ path)) else
          if decide (1 < count)
          then (d, fails ("edit_file: old_string found " +:+ pretty (Z.of_nat count) +:+ " times in " +:+ path +:+ " (must be unique)"))
          else
            match os_write os d path (Replace1 content oldStr newStr) with
            | (d, Some err) => (d, fails ("edit_file: " +:+ err))
            | (d, None) => (d, returns ("Edited " +:+ path))
            end
      end
  end.

(** *** glob *)

Definition bad_pattern : string := "syntax error in pattern".
Definition not_relative (dir path : string) : string := "Rel: can't make " +:+ path +:+ " relative to " +:+ dir.

(** A file that the walk meets: its path relative to [dir] if its name matches, or
    the error that stops the walk. *)
Definition visit_file (dir suffix path name : string) : string + list string :=
  match Rel dir path with
  | None => inl (not_relative dir path)
  | Some rel =>
      if decide (suffix = "") then inr [rel] else
      match Match suffix name with
      | None => inl bad_pattern
      | Some matched => inr (if matched then [rel] else [])
      end
  end.

(** [filepath.WalkDir] with this function. *)
Fixpoint walk (dir suffix path : string) (entry : Entry) : string + list string :=
  match entry with
  | EFile name => visit_file dir suffix path name
  | EDir name entries =>
      match Rel dir path with
      | None => inl (not_relative dir path)
      | Some _ =>
          if has_prefix name "." && negb (bool_decide (name = ".")) then inr [] else
          (fix walk_all entries :=
             match entries with
             | [] => inr []
             | (EFile child | EDir child _) as entry :: entries =>
                 match walk dir suffix (Join2 path child) entry with
                 | inl err => inl err
                 | inr ms => match walk_all entries with inl err => inl err | inr ms' => inr (ms ++ ms') end
                 end
             end) entries
      end
  end.

(** What follows the first [**], without a slash before it. *)
Fixpoint after_stars (pattern : string) : string :=
  match pattern with
  | String _ rest => if has_prefix pattern "**" then drop_string 2 pattern else after_stars rest
  | "" => ""
  end.

Definition found (matches : list string) : string :=
  match matches with [] => "No matches found" | _ => join_with nl matches end.

Definition globWalk (os : OS) (d : Disk) (dir pattern : string) : Out :=
  let suffix := TrimPrefix (after_stars pattern) "/" in
  match match tree os d dir with Some entry => walk dir suffix dir entry | None => inr [] end with
  | inl err => fails ("glob: " +:+ err)
  | inr matches =>
      if decide (500 < length matches)
      then returns (join_with nl (take 500 matches) +:+ nl +:+ "... (" +:+ pretty (Z.of_nat (length matches - 500)) +:+ " more files)")
      else returns (found matches)
  end.

Definition execGlob (os : OS) (e : ToolExecutor) (d : Disk) (input : Input) : Out :=
  let pattern := text_at input "pattern" in
  if decide (pattern = "") then fails "glob: pattern is required" else
  match search_dir e input with
  | inl err => fails ("glob: " +:+ err)
  | inr dir =>
      if contains "**" pattern then globWalk os d dir pattern else
      match list_glob os d (Join2 dir pattern) with
      | inl err => fails ("glob: " +:+ err)
      | inr matches => returns (found ((fun m => default m (Rel dir m)) <$> matches))
      end
  end.

(** *** grep and ls *)

Definition grep_args (input : Input) (pattern dir : string) : list string :=
  let glob := text_at input "glob" in
  ["-rn"; "--color=never"] ++ (if decide (glob = "") then [] else ["--include=" +:+ glob]) ++ [pattern; dir].

Definition grep_output (output : string) : string :=
  if decide (output = "") then "No matches found" else
  let lines := Split line_feed output in
  if decide (200 < length lines)
  then join_with nl (take 200 lines) +:+ nl +:+ "... (" +:+ pretty (Z.of_nat (length lines - 200)) +:+ " more lines)"
  else output.

Definition execGrep (os : OS) (e : ToolExecutor) (d : Disk) (input : Input) : Out :=
  let pattern := text_at input "pattern" in
  if decide (pattern = "") then fails "grep: pattern is required" else
  match search_dir e input with
  | inl err => fails ("grep: " +:+ err)
  | inr dir => returns (grep_output (run_grep os d (grep_args input pattern dir)))
  end.

Definition list_line (entry : string * bool) : string := entry.1 +:+ (if entry.2 : bool then "/" else "") +:+ nl.

Definition execListDir (os : OS) (e : ToolExecutor) (d : Disk) (input : Input) : Out :=
  match search_dir e input with
  | inl err => fails ("list_dir: " +:+ err)
  | inr dir =>
      match read_dir os d dir with
      | inl err => fails ("list_dir: " +:+ err)
      | inr entries => returns (String.concat "" (list_line <$> entries))
      end
  end.

(** *** Execute *)

(** The tool of a canonical name. *)
Definition dispatch (os : OS) (e : ToolExecutor) (d : Disk) (toolName : string) (input : Input) : Disk * Out :=
  let timeout := if decide (ExecTimeout e = 0%Z) then (120 * Second)%Z else ExecTimeout e in
  go_switch (canonicalToolName toolName)
    [("bash", execBash os e d input timeout); ("read", (d, execReadFile os e d input));
     ("write", execWriteFile os e d input); ("edit", execEditFile os e d input);
     ("glob", (d, execGlob os e d input)); ("grep", (d, execGrep os e d input));
     ("ls", (d, execListDir os e d input))] (d, fails ("unknown tool: " +:+ toolName)).

(** Why a call is refused. *)
Definition refusal (e : ToolExecutor) (toolName : string) (input : Input) : option string :=
  if decide (WorkDir e = "") then Some "tool executor: WorkDir is not set" else
  let req := mkRequest (permissionToolName toolName) input in
  let result := (EvaluatePermission req).1 in
  if decide (r_DangerLevel result = Dangerous) then Some ("dangerous operation denied: " +:+ DangerReason result) else
  match PermissionHandler e with
  | Some handler =>
      if negb (Approved result) && negb (handler req) then Some ("permission denied for tool: " +:+ toolName) else None
  | None => None
  end.

Definition Execute (os : OS) (e : ToolExecutor) (d : Disk) (toolName : string) (input : Input) : Disk * Out :=
  match refusal e toolName input with
  | Some err => (d, fails err)
  | None => dispatch os e d toolName input
  end.

(** ** Lemmas *)

(** *** Occurrences *)

Lemma drop_app a t : drop_string (String.length a) (a +:+ t) = t.
Proof. unfold drop_string. rewrite string_app_length, Nat.add_comm, Nat.add_sub. apply substring_app. Qed.

Lemma has_prefix_iff s p : has_prefix s p = true <-> exists t, s = p +:+ t.
Proof. split; [apply prefix_cut|]. intros [t ->]. apply prefix_app. Qed.

Lemma count_skip a sub t : count_from (String.length a) sub (a +:+ t) = count_from 0 sub t.
Proof. induction a as [|c a IH]; [done|]. rewrite string_app_cons. exact IH. Qed.

Lemma Count_here sub t : sub <> "" -> Count (sub +:+ t) sub = S (Count t sub).
Proof.
  intros Hs. destruct sub as [|c sub]; [done|]. pose proof (prefix_app (String c sub) t) as Hp.
  unfold Count. rewrite string_app_cons in *. cbn [count_from]. rewrite Hp.
  cbn [String.length]. rewrite Nat.sub_succ, Nat.sub_0_r. by rewrite count_skip.
Qed.

(** The first occurrence of [sub] in [s] lies between [a] and [b]. *)
Definition first_occurrence (sub s a b : string) : Prop :=
  s = a +:+ sub +:+ b /\ forall a' b', s = a' +:+ sub +:+ b' -> String.length a <= String.length a'.

Lemma Count_none s sub : sub <> "" -> (Count s sub = 0 <-> contains sub s = false).
Proof.
  intros Hs. unfold Count. induction s as [|c s IH]; [by destruct sub|]. cbn [count_from contains].
  destruct (String.prefix sub (String c s)); [done|]. exact IH.
Qed.

Lemma first_found s sub : sub <> "" -> contains sub s = true -> exists a b,
  first_occurrence sub s a b /\ Count s sub = S (Count b sub) /\ forall new, Replace1 s sub new = a +:+ new +:+ b.
Proof.
  intros Hs. induction s as [|c s IH]; [by destruct sub|]. cbn [contains].
  destruct (String.prefix sub (String c s)) eqn:Hp.
  - intros _. destruct (proj1 (has_prefix_iff _ _) Hp) as [b Hb]. exists "", b. split_and!.
    + split; [done|]. intros a' b' _. cbn. lia.
    + rewrite Hb. by apply Count_here.
    + intros new. cbn [Replace1]. rewrite Hp, Hb. by rewrite drop_app.
  - intros (a & b & [Ha Hmin] & Hc & Hr)%IH. exists (String c a), b. split_and!.
    + split; [by rewrite string_app_cons, <- Ha|]. intros a' b' E. destruct a' as [|c' a'].
      * change ("" +:+ ?x) with x in E. rewrite E, prefix_app in Hp. done.
      * rewrite string_app_cons in E. injection E as _ E. apply Hmin in E. cbn. lia.
    + unfold Count in *. cbn [count_from]. by rewrite Hp.
    + intros new. cbn [Replace1]. by rewrite Hp, Hr, string_app_cons.
Qed.

Lemma first_unique sub s a b a' b' : first_occurrence sub s a b -> first_occurrence sub s a' b' -> a = a' /\ b = b'.
Proof.
  intros [E H] [E' H']. pose proof (H _ _ E') as L1. pose proof (H' _ _ E) as L2.
  assert (String.length a = String.length a') as L by lia. clear H H' L1 L2. subst s.
  revert a' L E'. induction a as [|c a IH]; intros [|c' a'] L E; try done.
  - split; [done|]. rewrite <- (drop_app sub b), <- (drop_app sub b').
    change ("" +:+ ?x) with x in E. by rewrite E.
  - rewrite !string_app_cons in E. injection E as -> E. injection L as L. by destruct (IH a' L E) as [-> ->].
Qed.

(** *** Containment *)

(** A path as the executor reads it. *)
Definition target (e : ToolExecutor) (path : string) : string :=
  if IsAbs path then path else WorkDir e +:+ "/" +:+ path.

Lemma resolvePath_Clean e path r : WorkDir e <> "" -> path <> "" -> resolvePath e path = inr r -> r = Clean (target e path).
Proof.
  intros Hw Hp. unfold resolvePath, target, Join2. rewrite !decide_False by done. rewrite Clean_idem.
  case_match; [done|]. intros [= <-]. by destruct (IsAbs path).
Qed.

Lemma resolvePath_under e path r : IsAbs (WorkDir e) = true -> path <> "" -> resolvePath e path = inr r ->
  under (WorkDir e) r /\ Clean r = r.
Proof.
  intros Hw Hp Hr. assert (WorkDir e <> "") as Hne by (by intros E; rewrite E in Hw).
  pose proof (resolvePath_Clean _ _ _ Hne Hp Hr) as ->. rewrite Clean_idem. split; [|done].
  apply (under_Clean (WorkDir e)). rewrite Clean_idem.
  unfold resolvePath, target, Join2 in *. rewrite !decide_False in Hr by done. rewrite Clean_idem in Hr.
  set (p := if IsAbs path then path else _) in *.
  assert ((if IsAbs path then Clean path else Clean (WorkDir e +:+ "/" +:+ path)) = Clean p) as E by (unfold p; by destruct (IsAbs path)).
  rewrite E in Hr. destruct (decide (Clean p = Clean (WorkDir e))) as [Ec|Ec]; [rewrite Ec; apply under_refl|].
  rewrite bool_decide_false in Hr by done. cbn [negb andb] in Hr.
  destruct (has_prefix (Clean p) (Clean (WorkDir e) +:+ "/")) eqn:Hpre; [|done].
  apply (under_Clean (WorkDir e) p). by apply under_prefix.
Qed.

Lemma resolvePath_accepts e path : IsAbs (WorkDir e) = true -> Clean (WorkDir e) <> "/" -> path <> "" ->
  under (WorkDir e) (target e path) -> resolvePath e path = inr (Clean (target e path)).
Proof.
  intros Hw Hroot Hp Hu. assert (WorkDir e <> "") as Hne by (by intros E; rewrite E in Hw).
  unfold resolvePath, Join2. rewrite !decide_False by done. rewrite Clean_idem. unfold target in *.
  set (p := if IsAbs path then path else _) in *.
  assert ((if IsAbs path then Clean path else Clean (WorkDir e +:+ "/" +:+ path)) = Clean p) as -> by (unfold p; by destruct (IsAbs path)).
  destruct (under_prefix_inv _ _ Hw Hroot Hu) as [->|[t ->]]; [by rewrite bool_decide_true|].
  rewrite <- (string_app_assoc (Clean (WorkDir e)) "/" t). unfold has_prefix. rewrite prefix_app. by rewrite andb_false_r.
Qed.

(** A disk that differs from [d] at one path of the working directory at most. *)
Definition within (e : ToolExecutor) (d d' : Disk) : Prop :=
  forall p, d' !! p <> d !! p -> under (WorkDir e) p /\ Clean p = p.

Lemma within_refl e d : within e d d.
Proof. by intros p H. Qed.

Lemma os_write_within os e d path content : under (WorkDir e) path -> Clean path = path ->
  within e d (os_write os d path content).1.
Proof.
  intros Hu Hc p. unfold os_write. destruct (decide (p = path)) as [->|Hp]; [done|].
  destruct (write_fault os d path) as [[err [l|]]|]; cbn; by rewrite ?lookup_insert_ne by done.
Qed.

Lemma execWriteFile_within os e d input : IsAbs (WorkDir e) = true -> within e d (execWriteFile os e d input).1.
Proof.
  intros Hw. unfold execWriteFile. case_decide as Hp; [apply within_refl|].
  destruct (resolvePath _ _) as [err|path] eqn:Hr; [apply within_refl|].
  destruct (mkdir_fault _ _ _); [apply within_refl|]. destruct (resolvePath_under _ _ _ Hw Hp Hr) as [Hu Hc].
  pose proof (os_write_within os e d path (text_at input "content") Hu Hc) as H.
  destruct (os_write _ _ _ _) as [d' [err|]]; exact H.
Qed.

Lemma execEditFile_within os e d input : IsAbs (WorkDir e) = true -> within e d (execEditFile os e d input).1.
Proof.
  intros Hw. unfold execEditFile. case_decide as Hp; [apply within_refl|]. case_decide; [apply within_refl|].
  destruct (resolvePath _ _) as [err|path] eqn:Hr; [apply within_refl|].
  destruct (os_read _ _ _) as [err|content]; [apply within_refl|]. do 2 (case_decide; [apply within_refl|]).
  destruct (resolvePath_under _ _ _ Hw Hp Hr) as [Hu Hc].
  pose proof (os_write_within os e d path (Replace1 content (text_at input "old_string") (text_at input "new_string")) Hu Hc) as Hin.
  destruct (os_write _ _ _ _) as [d' [err|]]; exact Hin.
Qed.

(** Calls by the name of their tool. *)
Lemma go_switch_ind {A} (P : A -> Prop) s cases dflt :
  P dflt -> Forall (fun c => s = c.1 -> P c.2) cases -> P (go_switch s cases dflt).
Proof.
  intros Hd H. induction H as [|[k v] cases Hv _ IH]; [done|]. cbn. case_decide; [by apply Hv|exact IH].
Qed.

#[local] Ltac by_tool P := apply (go_switch_ind P); [|repeat (apply Forall_cons_2; [cbn [fst snd]; intros Ht|]); [..|apply Forall_nil_2]].

Lemma dispatch_within os e d tool input : IsAbs (WorkDir e) = true -> canonicalToolName tool <> "bash" ->
  within e d (dispatch os e d tool input).1.
Proof.
  intros Hw Hb. unfold dispatch. by_tool (fun r : Disk * Out => within e d r.1); try apply within_refl;
    [done|by apply execWriteFile_within|by apply execEditFile_within].
Qed.

(** *** What the file tools see *)

Definition same_under (e : ToolExecutor) (d1 d2 : Disk) : Prop := forall p, under (WorkDir e) p -> d1 !! p = d2 !! p.

(** The operating system's faults do not tell two disks apart. *)
Definition same_faults (os : OS) (d1 d2 : Disk) : Prop :=
  forall p, read_fault os d1 p = read_fault os d2 p /\ mkdir_fault os d1 p = mkdir_fault os d2 p /\
    write_fault os d1 p = write_fault os d2 p.

Lemma os_read_same os e d1 d2 path : same_faults os d1 d2 -> same_under e d1 d2 -> under (WorkDir e) path ->
  os_read os d1 path = os_read os d2 path.
Proof. intros Hf Hs Hu. unfold os_read. destruct (Hf path) as [-> _]. by rewrite (Hs path Hu). Qed.

Lemma os_write_same os e d1 d2 path content : same_faults os d1 d2 -> same_under e d1 d2 ->
  (os_write os d1 path content).2 = (os_write os d2 path content).2 /\
  same_under e (os_write os d1 path content).1 (os_write os d2 path content).1.
Proof.
  intros Hf Hs. unfold os_write. destruct (Hf path) as (_ & _ & ->). destruct (write_fault os d2 path) as [[err [l|]]|]; cbn;
    (split; [done|]; intros p Hp; destruct (decide (p = path)) as [->|]; rewrite ?lookup_insert_eq, ?lookup_insert_ne by done; auto).
Qed.

Definition same_results (e : ToolExecutor) (r1 r2 : Disk * Out) : Prop := r1.2 = r2.2 /\ same_under e r1.1 r2.1.

Lemma execReadFile_same os e d1 d2 input : IsAbs (WorkDir e) = true -> same_faults os d1 d2 -> same_under e d1 d2 ->
  execReadFile os e d1 input = execReadFile os e d2 input.
Proof.
  intros Hw Hf Hs. unfold execReadFile. case_decide as Hp; [done|]. destruct (resolvePath _ _) as [|path] eqn:Hr; [done|].
  destruct (resolvePath_under _ _ _ Hw Hp Hr) as [Hu _]. by rewrite (os_read_same os e d1 d2).
Qed.

Lemma execWriteFile_same os e d1 d2 input : same_faults os d1 d2 -> same_under e d1 d2 ->
  same_results e (execWriteFile os e d1 input) (execWriteFile os e d2 input).
Proof.
  intros Hf Hs. unfold execWriteFile, same_results. case_decide; [done|]. destruct (resolvePath _ _) as [|path]; [done|].
  destruct (Hf (Dir path)) as (_ & -> & _). destruct (mkdir_fault _ _ _); [done|].
  destruct (os_write_same os e d1 d2 path (text_at input "content") Hf Hs) as [E1 E2].
  destruct (os_write os d1 _ _) as [d1' [?|]], (os_write os d2 _ _) as [d2' [?|]]; cbn in *; by simplify_eq.
Qed.

Lemma execEditFile_same os e d1 d2 input : IsAbs (WorkDir e) = true -> same_faults os d1 d2 -> same_under e d1 d2 ->
  same_results e (execEditFile os e d1 input) (execEditFile os e d2 input).
Proof.
  intros Hw Hf Hs. unfold execEditFile, same_results. case_decide as Hp; [done|]. case_decide; [done|].
  destruct (resolvePath _ _) as [|path] eqn:Hr; [done|]. destruct (resolvePath_under _ _ _ Hw Hp Hr) as [Hu _].
  rewrite (os_read_same os e d1 d2) by done. destruct (os_read os d2 path) as [|content]; [done|]. do 2 (case_decide; [done|]).
  destruct (os_write_same os e d1 d2 path (Replace1 content (text_at input "old_string") (text_at input "new_string")) Hf Hs) as [E1 E2].
  destruct (os_write os d1 _ _) as [d1' [?|]], (os_write os d2 _ _) as [d2' [?|]]; cbn in *; by simplify_eq.
Qed.

(** Two calls by the same name. *)
Lemma go_switch_ind2 {A} (P : A -> A -> Prop) s cases1 cases2 dflt1 dflt2 :
  P dflt1 dflt2 -> Forall2 (fun c1 c2 => c1.1 = c2.1 /\ (s = c1.1 -> P c1.2 c2.2)) cases1 cases2 ->
  P (go_switch s cases1 dflt1) (go_switch s cases2 dflt2).
Proof.
  intros Hd H. induction H as [|[k1 v1] [k2 v2] cases1 cases2 [Hk Hv] _ IH]; [done|]. cbn in *. subst k2.
  case_decide; [by apply Hv|exact IH].
Qed.

Lemma dispatch_same os e d1 d2 tool input : IsAbs (WorkDir e) = true -> same_faults os d1 d2 -> same_under e d1 d2 ->
  canonicalToolName tool ∈ ["read"; "write"; "edit"] ->
  same_results e (dispatch os e d1 tool input) (dispatch os e d2 tool input).
Proof.
  intros Hw Hf Hs Ht. unfold dispatch. apply (go_switch_ind2 (same_results e)); [done|].
  repeat (apply Forall2_cons_2; [split; [done|]; cbn [fst snd]; intros E|]); [..|apply Forall2_nil_2];
    try (apply (bool_decide_eq_true _) in Ht; rewrite E in Ht; discriminate Ht).
  - split; [by apply execReadFile_same|done].
  - by apply execWriteFile_same.
  - by apply execEditFile_same.
Qed.

(** *** Reading back *)

Lemma read_window_all input lines : lines <> [] -> (Z.of_nat (length lines) < 2 ^ 63)%Z ->
  input !! "offset" = None -> input !! "limit" = None -> read_window input lines = returns (numbered_from 0 lines).
Proof.
  intros Hne Hl Ho Hlim. unfold read_window, positive_at. rewrite Ho, Hlim, Z.sub_0_r, Z.add_0_l.
  rewrite (wrap64_id (Z.of_nat (length lines))) by lia. rewrite (wrap64_id (Z.of_nat (length lines))) by lia.
  rewrite Z.min_id. unfold print_lines. destruct lines as [|l lines]; [done|].
  rewrite decide_False by (cbn [length]; lia). rewrite decide_False by lia. rewrite Z.sub_0_r, Nat2Z.id.
  change (Z.to_nat 0) with 0. rewrite drop_0, firstn_all. done.
Qed.

(** Between the first line and the line before it. *)
Lemma read_window_fraction input lines f : lines <> [] -> (Z.of_nat (length lines) < max_int64)%Z ->
  input !! "offset" = Some (AFloat f) -> float_lt float_zero f = true -> int_of_float f = 0%Z -> input !! "limit" = None ->
  read_window input lines = Panics.
Proof.
  intros Hne Hl Ho Hf Hi Hlim. unfold max_int64 in Hl. unfold read_window, positive_at. rewrite Ho, Hf, Hi, Hlim.
  rewrite (wrap64_id (0 - 1)) by lia. rewrite decide_False by lia.
  rewrite (wrap64_id (Z.of_nat (length lines) - _)) by lia. rewrite (wrap64_id (_ + _)) by lia.
  unfold print_lines. destruct lines as [|l lines]; [done|]. cbn [length] in *.
  rewrite decide_False by lia. by rewrite decide_True by lia.
Qed.

Lemma refusal_read e tool input : WorkDir e <> "" -> canonicalToolName tool = "read" -> refusal e tool input = None.
Proof.
  intros Hw Ht. unfold refusal, permissionToolName. rewrite decide_False by done. rewrite Ht. by destruct (PermissionHandler e).
Qed.

Lemma dispatch_read os e d tool input : canonicalToolName tool = "read" -> dispatch os e d tool input = (d, execReadFile os e d input).
Proof. intros Ht. unfold dispatch. by rewrite Ht. Qed.

Lemma dispatch_write os e d tool input : canonicalToolName tool = "write" -> dispatch os e d tool input = execWriteFile os e d input.
Proof. intros Ht. unfold dispatch. by rewrite Ht. Qed.

Lemma dispatch_edit os e d tool input : canonicalToolName tool = "edit" -> dispatch os e d tool input = execEditFile os e d input.
Proof. intros Ht. unfold dispatch. by rewrite Ht. Qed.

(** What a write that succeeds has done. *)
Lemma execWriteFile_inv os e d input d' msg : execWriteFile os e d input = (d', returns msg) ->
  exists path, text_at input "path" <> "" /\ resolvePath e (text_at input "path") = inr path /\
    d' = <[path := text_at input "content"]> d.
Proof.
  unfold execWriteFile. case_decide as Hp; [done|]. destruct (resolvePath _ _) as [|path]; [done|].
  destruct (mkdir_fault _ _ _); [done|]. unfold os_write. destruct (write_fault _ _ _) as [[err [l|]]|]; [done..|].
  intros [= <- _]. by exists path.
Qed.

Lemma Execute_success os e d tool input d' msg : Execute os e d tool input = (d', returns msg) ->
  refusal e tool input = None /\ dispatch os e d tool input = (d', returns msg).
Proof. unfold Execute. by destruct (refusal e tool input). Qed.

Lemma Execute_WorkDir e tool input : refusal e tool input = None -> WorkDir e <> "".
Proof. unfold refusal. by case_decide. Qed.

(** An operating system without faults, in which nothing else answers. *)
Definition plain_os : OS := {|
  read_fault _ _ := None; mkdir_fault _ _ := None; write_fault _ _ := None;
  run_bash d _ _ _ := (d, ("", "", None)); run_grep _ _ := "";
  read_dir _ _ := inr []; list_glob _ _ := inr []; tree _ _ := None
|}.

Definition worker : ToolExecutor := mkExecutor "/w" (Some KvelmoPermissionHandler) 0.

(** ** Theorems *)

(** C27: whatever a tool other than bash is asked, only files below the working
    directory change, and they are named by their cleaned paths; a refused call
    changes nothing; and reading, writing and editing neither see nor depend on a
    file outside: on two disks that agree below the working directory the answers
    are the same and the disks still agree. *)
Theorem file_tools_contained os e d tool input :
  IsAbs (WorkDir e) = true -> canonicalToolName tool <> "bash" ->
  within e d (Execute os e d tool input).1 /\
  (refusal e tool input <> None -> (Execute os e d tool input).1 = d) /\
  forall d2, canonicalToolName tool ∈ ["read"; "write"; "edit"] -> same_faults os d d2 -> same_under e d d2 ->
    same_results e (Execute os e d tool input) (Execute os e d2 tool input).
Proof.
  intros Hw Hb. unfold Execute. destruct (refusal e tool input).
  - split; [apply within_refl|]. split; [done|]. intros d2 _ _ Hs. by split.
  - split; [by apply dispatch_within|]. split; [done|]. intros d2 Ht Hf Hs. by apply dispatch_same.
Qed.

Lemma file_tools_contained_witness :
  within worker {["/etc/hosts" := "h"]}
    (Execute plain_os worker {["/etc/hosts" := "h"]} "Write" {["path" := AString "a/../b.txt"; "content" := AString "x"]}).1 /\
  (Execute plain_os worker {["/etc/hosts" := "h"]} "Write" {["path" := AString "../etc/hosts"; "content" := AString "x"]}).1
    = {["/etc/hosts" := "h"]} /\
  (Execute plain_os worker {["/etc/hosts" := "h"]} "Read" {["path" := AString "/etc/hosts"]}).2
    = (Execute plain_os worker ∅ "Read" {["path" := AString "/etc/hosts"]}).2.
Proof.
  split; [|split].
  - apply (file_tools_contained plain_os worker); [done|by vm_compute].
  - by vm_compute.
  - apply (file_tools_contained plain_os worker {["/etc/hosts" := "h"]} "Read" {["path" := AString "/etc/hosts"]}).
    + done.
    + by vm_compute.
    + by apply (bool_decide_eq_true_1 _); vm_compute.
    + by intros p.
    + intros p [Hi (rest & Hp & _)]. destruct (decide (p = "/etc/hosts")) as [->|]; [by vm_compute in Hp|].
      by rewrite lookup_singleton_ne, lookup_empty by done.
Defined.

(** a path is accepted exactly when it lies below the working directory,
    component by component, and then the cleaned path is used; so neither [..] nor
    a sibling directory that starts with the same letters leads outside. *)
Theorem resolvePath_spec e path r :
  IsAbs (WorkDir e) = true -> Clean (WorkDir e) <> "/" -> path <> "" ->
  resolvePath e path = inr r <-> under (WorkDir e) (target e path) /\ r = Clean (target e path).
Proof.
  intros Hw Hroot Hp. split.
  - intros Hr. assert (WorkDir e <> "") as Hne by (by intros E; rewrite E in Hw).
    destruct (resolvePath_under _ _ _ Hw Hp Hr) as [Hu _]. pose proof (resolvePath_Clean _ _ _ Hne Hp Hr) as ->.
    split; [|done]. apply under_Clean. apply under_Clean in Hu. by rewrite Clean_idem in Hu.
  - intros [Hu ->]. by apply resolvePath_accepts.
Qed.

Lemma resolvePath_spec_witness :
  under "/w" "/w/a/../b" /\ ~ under "/w" "/w/../wx/b".
Proof.
  split.
  - apply (resolvePath_spec worker "a/../b" "/w/b"); done.
  - intros Hu. assert (resolvePath worker "../wx/b" = inr "/wx/b") as E; [|by vm_compute in E].
    apply (resolvePath_spec worker "../wx/b" "/wx/b"); [done..|]. split; [exact Hu|done].
Defined.

(** an edit takes place exactly when the old text occurs in the file and not
    again behind its first occurrence; then the first occurrence alone is replaced.
    When it does not occur, or occurs again, the edit fails and nothing changes. *)
Theorem edit_spec os e d input path content :
  text_at input "path" <> "" -> text_at input "old_string" <> "" ->
  resolvePath e (text_at input "path") = inr path -> os_read os d path = inr content -> write_fault os d path = None ->
  (forall a b, first_occurrence (text_at input "old_string") content a b -> contains (text_at input "old_string") b = false ->
     execEditFile os e d input = (<[path := a +:+ text_at input "new_string" +:+ b]> d, returns ("Edited " +:+ path))) /\
  (contains (text_at input "old_string") content = false \/
   (exists a b, first_occurrence (text_at input "old_string") content a b /\ contains (text_at input "old_string") b = true) ->
   exists err, execEditFile os e d input = (d, fails err)).
Proof.
  intros Hp Ho Hr Hread Hw. unfold execEditFile. rewrite decide_False, decide_False, Hr, Hread by done.
  unfold os_write. rewrite Hw. split.
  - intros a b Hfirst Hb. destruct (first_found content (text_at input "old_string") Ho) as (a' & b' & Hf' & Hc & Hrep).
    { destruct Hfirst as [-> _]. apply contains_middle. }
    destruct (first_unique _ _ _ _ _ _ Hfirst Hf') as [<- <-]. apply Count_none in Hb; [|done].
    rewrite Hc, Hb, Hrep. by rewrite decide_False, decide_False by lia.
  - intros [Hn|(a & b & Hfirst & Hb)].
    + apply Count_none in Hn; [|done]. rewrite Hn, decide_True by done. by eexists.
    + destruct (first_found content (text_at input "old_string") Ho) as (a' & b' & Hf' & Hc & _).
      { destruct Hfirst as [-> _]. apply contains_middle. }
      destruct (first_unique _ _ _ _ _ _ Hfirst Hf') as [<- <-].
      assert (Count b (text_at input "old_string") <> 0) by (rewrite Count_none by done; congruence).
      rewrite decide_False, decide_True by lia. by eexists.
Qed.

Lemma edit_spec_witness :
  execEditFile plain_os worker {["/w/f" := "one two"]}
    {["path" := AString "f"; "old_string" := AString "two"; "new_string" := AString "2"]}
  = ({["/w/f" := "one 2"]}, returns "Edited /w/f").
Proof.
  destruct (edit_spec plain_os worker {["/w/f" := "one two"]}
    {["path" := AString "f"; "old_string" := AString "two"; "new_string" := AString "2"]} "/w/f" "one two") as [H _]; [done..|].
  rewrite (H "one " ""); [by vm_compute| |done]. split; [done|].
  intros a' b' E. do 4 (destruct a' as [|? a']; [by vm_compute in E|]). cbn. lia.
Defined.

(** what a Write has put into a file a Read shows: every line behind its number,
    and the lines joined again are the content. *)
Theorem write_then_read os e d d' msg wtool rtool input input' :
  canonicalToolName wtool = "write" -> canonicalToolName rtool = "read" ->
  Execute os e d wtool input = (d', returns msg) ->
  text_at input' "path" = text_at input "path" -> input' !! "offset" = None -> input' !! "limit" = None ->
  (forall p, read_fault os d' p = None) ->
  (Z.of_nat (length (Split line_feed (text_at input "content"))) < 2 ^ 63)%Z ->
  Execute os e d' rtool input' = (d', returns (numbered_from 0 (Split line_feed (text_at input "content")))) /\
  join_with nl (Split line_feed (text_at input "content")) = text_at input "content".
Proof.
  intros Hwt Hrt Hx Hp Ho Hl Hf Hlen. split; [|apply (join_split line_feed)].
  apply Execute_success in Hx as [Href Hx]. rewrite dispatch_write in Hx by done.
  destruct (execWriteFile_inv _ _ _ _ _ _ Hx) as (path & Hne & Hr & ->).
  unfold Execute. rewrite refusal_read, dispatch_read by first [done|by eapply Execute_WorkDir].
  unfold execReadFile. rewrite Hp, decide_False, Hr by done. unfold os_read. rewrite Hf, lookup_insert_eq.
  rewrite read_window_all; [done| |done..]. destruct (Split_cons line_feed (text_at input "content")) as (w & ws & ->). done.
Qed.

Lemma write_then_read_witness :
  (Execute plain_os worker {["/w/a" := "two" +:+ nl +:+ "lines"]} "read_file" {["path" := AString "a"]}).2
  = returns (numbered 0 "two" +:+ numbered 1 "lines").
Proof.
  destruct (write_then_read plain_os worker ∅ {["/w/a" := "two" +:+ nl +:+ "lines"]} "Wrote 9 bytes to /w/a" "Write" "read_file"
    {["path" := AString "a"; "content" := AString ("two" +:+ nl +:+ "lines")]} {["path" := AString "a"]}) as [H _];
    [by vm_compute|by vm_compute|by vm_compute|done..|by vm_compute|]. rewrite H. by vm_compute.
Defined.

(** ** What goes wrong *)

(** The paths of [Write] and [Edit] are never judged: the executor's tools take
    [path], the detection reads [file_path]. *)
Lemma write_unchecked tool input : canonicalToolName tool ∈ ["write"; "edit"] -> input !! "file_path" = None ->
  Level (DetectDanger (permissionToolName tool) input) = Safe.
Proof.
  intros Ht Hn. unfold permissionToolName. rewrite !elem_of_cons in Ht.
  destruct Ht as [->|[->|[]%not_elem_of_nil]]; unfold DetectDanger; cbn;
    unfold detectEditDanger, detectWriteDanger, string_at; by rewrite Hn.
Qed.

(** A fractional offset below 1 stops the process. *)
Lemma fractional_offset_panics e content : WorkDir e = "/w" -> (Z.of_nat (length (Split line_feed content)) < max_int64)%Z ->
  Execute plain_os e {["/w/f" := content]} "Read" {["path" := AString "/w/f"; "offset" := AFloat (float_dec 5 1)]}
  = ({["/w/f" := content]}, Panics).
Proof.
  intros Hw Hl. unfold Execute. rewrite refusal_read, dispatch_read by (by rewrite ?Hw).
  unfold execReadFile. rewrite decide_False by done.
  assert (resolvePath e (text_at {["path" := AString "/w/f"; "offset" := AFloat (float_dec 5 1)]} "path") = inr "/w/f") as ->.
  { unfold resolvePath. rewrite Hw. by vm_compute. }
  change (os_read plain_os {["/w/f" := content]} "/w/f") with (inr content : string + string). cbv iota beta.
  rewrite (read_window_fraction _ _ (float_dec 5 1)); try done.
  by destruct (Split_cons line_feed content) as (w & ws & ->).
Qed.

(** [strings.Count] does not see overlapping occurrences: the text is not unique
    and the edit takes place. *)
Lemma overlap_is_edited :
  execEditFile plain_os worker {["/w/f" := "aaa"]} {["path" := AString "f"; "old_string" := AString "aa"; "new_string" := AString "b"]}
  = ({["/w/f" := "ba"]}, returns "Edited /w/f").
Proof. by vm_compute. Qed.

(** A glob pattern leaves the working directory, and a grep pattern is an option. *)
Lemma patterns_leave os d :
  execGlob os worker d {["pattern" := AString "../home/*"]}
  = match list_glob os d "/home/*" with
    | inl err => fails ("glob: " +:+ err)
    | inr matches => returns (found ((fun m => default m (Rel "/w" m)) <$> matches))
    end /\
  grep_args {["pattern" := AString "--file=/etc/shadow"]} "--file=/etc/shadow" "/w"
  = ["-rn"; "--color=never"; "--file=/etc/shadow"; "/w"].
Proof. done. Qed.

(** Under the root directory, or the relative one, no other path is accepted. *)
Lemma root_accepts_nothing :
  resolvePath (mkExecutor "/" None 0) "/etc/hosts" = inl (escapes "/etc/hosts") /\
  resolvePath (mkExecutor "." None 0) "main.go" = inl (escapes "main.go").
Proof. done. Qed.

(** A search of a hidden working directory finds nothing. *)
Lemma hidden_root_is_skipped :
  walk "/w/.cache" "" "/w/.cache" (EDir ".cache" [EFile "a.go"]) = inr [] /\
  walk "/w/cache" "" "/w/cache" (EDir "cache" [EFile "a.go"; EDir "sub" [EFile "b.go"]; EDir ".git" [EFile "c.go"]]) = inr ["a.go"; "sub/b.go"].
Proof. done. Qed.
