(* ===== verification/AgentLoop.v ===== *)
(** * The conversation of an API agent

    Translates src/agent/apiagent/base.go with the messages and chunks it uses
    (messages.go, provider.go).  What a provider and its server answer, the moments
    at which an interruption is seen, and the room in the events' channel are
    arguments; the tools are those of Executor.v. *)

From S2P Require Import Prelude Floats SettingsData Permission Executor.

(** ** Data *)

Inductive Role := RoleSystem | RoleUser | RoleAssistant | RoleTool.

Record ToolCall := mkCall { tc_ID : string; tc_Name : string; tc_Input : Input }.
Record ToolResult := mkToolResult { ToolCallID : string; tr_Content : string; IsError : bool }.

Record Message := mkMessage {
  m_Role : Role;
  m_Content : string;
  m_ToolCalls : list ToolCall;
  m_ToolResult : option ToolResult
}.

Record UsageData := mkUsage { InputTokens : Z; OutputTokens : Z }.

(** A chunk by its type; [ToolUse] and [Usage] are nil-able pointers. *)
Inductive Chunk :=
| ChunkText (text : string)
| ChunkToolUse (use : option ToolCall)
| ChunkDone (usage : option UsageData)
| ChunkError (err : string).

Inductive EventType :=
| EventStream | EventAssistant | EventToolUse | EventToolResult | EventPermission | EventComplete | EventError
| EventInit | EventKeepAlive | EventSubagent | EventProgress | EventToolProgress | EventInterrupted | EventPromptSuggestion.

#[export] Instance EventType_eq_dec : EqDecision EventType.
Proof. solve_decision. Defined.

(** An event without its time. *)
Record Event := mkEvent { ev_Type : EventType; ev_Content : string; ev_Data : gmap string any; ev_Error : string }.

Record APIConfig := mkConfig {
  Model : string;
  c_WorkDir : string;
  MaxTurns : Z;
  TokenBudget : Z;
  SystemPrompt : string
}.

(** One turn's exchange: where it fails, or the chunks of the stream, each with what
    [interrupted] is when it arrives. *)
Inductive Answer :=
| BuildFails (err : string)
| RequestFails (err : string)
| StatusNotOK (code : Z)
| ParseFails (err : string)
| Stream (chunks : list (bool * Chunk)).

(** ** The agent *)

Record Base := mkBase { provider : string; config : APIConfig; executor : ToolExecutor; connected : bool }.

(** [NewBase], with the executor's timeout. *)
Definition NewBase (name : string) (cfg : APIConfig) (execTimeout : Z) : Base :=
  let cfg := mkConfig (Model cfg) (c_WorkDir cfg) (if decide (MaxTurns cfg = 0%Z) then 50%Z else MaxTurns cfg)
               (TokenBudget cfg) (SystemPrompt cfg) in
  let execTimeout := if decide (execTimeout = 0%Z) then (120 * Second)%Z else execTimeout in
  mkBase name cfg (mkExecutor (c_WorkDir cfg) (Some KvelmoPermissionHandler) execTimeout) false.

(** [Connect] of a provider that needs no setup, [Close], and [WithWorkDir], whose
    copy is not connected. *)
Definition Connect (b : Base) : Base := mkBase (provider b) (config b) (executor b) true.
Definition Close (b : Base) : Base := mkBase (provider b) (config b) (executor b) false.

Definition WithWorkDir (b : Base) (dir : string) : Base :=
  let cfg := config b in
  mkBase (provider b) (mkConfig (Model cfg) dir (MaxTurns cfg) (TokenBudget cfg) (SystemPrompt cfg))
    (mkExecutor dir (PermissionHandler (executor b)) (ExecTimeout (executor b))) false.

Definition truncateOutput (s : string) (maxLen : nat) : string :=
  if decide (String.length s <= maxLen) then s else String.substring 0 maxLen s +:+ "... (truncated)".

Definition control (t : EventType) : bool :=
  match t with EventError | EventComplete | EventInterrupted | EventInit => true | _ => false end.

(** ** The conversation *)

(** The state of [conversationLoop]; [asked] are the messages of every request
    built, [executed] counts the tools run, and [emitted] the events emitted. *)
Record Conv := mkConv {
  disk : Disk;
  messages : list Message;
  delivered : list Event;
  emitted : nat;
  totalInputTokens : Z;
  totalOutputTokens : Z;
  asked : list (list Message);
  executed : nat
}.

#[export] Instance eta_Conv : Eta Conv := fun c =>
  mkConv (disk c) (messages c) (delivered c) (emitted c) (totalInputTokens c) (totalOutputTokens c) (asked c) (executed c).

(** How a turn ends. *)
Inductive Turn := Again (c : Conv) | Stop (c : Conv) | Crash (c : Conv).

Section conversation.
Context (b : Base).
(** The tools' operating system, by the number of the tool call. *)
Context (os : nat -> OS).
(** The answer to a request of a turn. *)
Context (ask : nat -> list Message -> Answer).
(** What [interrupted] is before a turn. *)
Context (interrupted : nat -> bool).
(** Whether the channel has room for an event. *)
Context (room : nat -> bool).
(** [DefaultSystemPrompt] *)
Context (DefaultSystemPrompt : string -> string).

(** The channel has 32 places.  A control event is sent with a blocking send: it is
    taken as delivered, as the program's readers receive until the last event.
    There are two of them, as [conversation_ends] shows: the first event, which finds
    the channel empty, and the last one, so that only the last can wait, for ever if
    the channel is full and its reader is gone, with all the rest done. *)
Definition emit (e : Event) (c : Conv) : Conv :=
  let c' := c <| emitted := S (emitted c) |> in
  if control (ev_Type e) || room (emitted c) then c' <| delivered := delivered c ++ [e] |> else c'.

Definition emitError (msg : string) (c : Conv) : Conv := emit (mkEvent EventError "" ∅ msg) c.

Definition event (t : EventType) (content : string) (data : gmap string any) : Event := mkEvent t content data "".

Definition any_input (input : Input) : any := AMap (map_to_list input).

(** What a turn collects from the stream. *)
Record Collected := mkCollected { text : string; toolCalls : list ToolCall; hadToolUse : bool; turnUsage : option UsageData }.

(** The chunks of a stream; [inl]: the conversation ends. *)
Fixpoint collect (chunks : list (bool * Chunk)) (t : Collected) (c : Conv) : Conv + Collected * Conv :=
  match chunks with
  | [] => inr (t, c)
  | (stopped, chunk) :: chunks =>
      if stopped : bool then inl (emit (event EventInterrupted "" ∅) c) else
      match chunk with
      | ChunkText s =>
          collect chunks (mkCollected (text t +:+ s) (toolCalls t) (hadToolUse t) (turnUsage t)) (emit (event EventStream s ∅) c)
      | ChunkToolUse None => collect chunks (mkCollected (text t) (toolCalls t) true (turnUsage t)) c
      | ChunkToolUse (Some use) =>
          collect chunks (mkCollected (text t) (toolCalls t ++ [use]) true (turnUsage t))
            (emit (event EventToolUse (tc_Name use)
               {["tool_call_id" := AString (tc_ID use); "tool" := AString (tc_Name use); "input" := any_input (tc_Input use)]}) c)
      | ChunkError err => inl (emitError err c)
      | ChunkDone usage => collect chunks (mkCollected (text t) (toolCalls t) (hadToolUse t) usage) c
      end
  end.

Definition nothing_collected : Collected := mkCollected "" [] false None.

Definition add_usage (u : option UsageData) (c : Conv) : Conv :=
  match u with
  | Some u => c <| totalInputTokens := wrap64 (totalInputTokens c + InputTokens u) |>
                <| totalOutputTokens := wrap64 (totalOutputTokens c + OutputTokens u) |>
  | None => c
  end.

(** One tool call; [None]: the tool panics. *)
Definition run_call (tc : ToolCall) (c : Conv) : option Conv :=
  let '(d, out) := Execute (os (executed c)) (executor b) (disk c) (tc_Name tc) (tc_Input tc) in
  match out with
  | Panics => None
  | Returns output err =>
      let isError := if err then true else false in
      let content := default output err in
      Some (emit (event EventToolResult (tc_Name tc)
                    {["tool_call_id" := AString (tc_ID tc); "tool" := AString (tc_Name tc); "is_error" := ABool isError;
                      "output" := AString (truncateOutput content 500)]})
              (c <| disk := d |> <| executed := S (executed c) |>
                 <| messages := messages c ++ [mkMessage RoleTool "" [] (Some (mkToolResult (tc_ID tc) content isError))] |>))
  end.

Fixpoint run_calls (calls : list ToolCall) (c : Conv) : Turn :=
  match calls with
  | [] => Again c
  | tc :: calls => match run_call tc c with Some c => run_calls calls c | None => Crash c end
  end.

Definition used (c : Conv) : Z := wrap64 (totalInputTokens c + totalOutputTokens c).

(** The end of a turn whose stream has been read. *)
Definition finish_turn (t : Collected) (c : Conv) : Turn :=
  let c := add_usage (turnUsage t) c in
  let c := c <| messages := messages c ++ [mkMessage RoleAssistant (text t) (toolCalls t) None] |> in
  if hadToolUse t then run_calls (toolCalls t) c else
  Stop (emit (event EventComplete ""
                {["input_tokens" := AInt (totalInputTokens c); "output_tokens" := AInt (totalOutputTokens c); "total_tokens" := AInt (used c)]})
          (emit (event EventAssistant (text t) ∅) c)).

Definition turn_body (turn : nat) (c : Conv) : Turn :=
  let number := pretty (Z.of_nat (S turn)) in
  if decide (0 < TokenBudget (config b) <= used c)%Z
  then Stop (emitError ("token budget exceeded: used " +:+ pretty (used c) +:+ " of " +:+ pretty (TokenBudget (config b)) +:+ " tokens") c) else
  if interrupted turn then Stop (emit (event EventInterrupted "" ∅) c) else
  let c := c <| asked := asked c ++ [messages c] |> in
  match ask turn (messages c) with
  | BuildFails err => Stop (emitError ("build request (turn " +:+ number +:+ "): " +:+ err) c)
  | RequestFails err => Stop (emitError ("API request: " +:+ err) c)
  | StatusNotOK code => Stop (emitError ("API returned status " +:+ pretty code) c)
  | ParseFails err => Stop (emitError ("parse stream: " +:+ err) c)
  | Stream chunks =>
      match collect chunks nothing_collected c with
      | inl c => Stop c
      | inr (t, c) => finish_turn t c
      end
  end.

(** [for turn := range MaxTurns]: the turns that remain, and the next one. *)
Fixpoint turns (remaining : nat) (turn : nat) (c : Conv) : Turn :=
  match remaining with
  | 0 => Stop (emitError ("exceeded maximum conversation turns (" +:+ pretty (MaxTurns (config b)) +:+ ")") c)
  | S remaining => match turn_body turn c with Again c => turns remaining (S turn) c | ended => ended end
  end.

Definition first_messages (prompt : string) : list Message :=
  let systemPrompt := if decide (SystemPrompt (config b) = "") then DefaultSystemPrompt (c_WorkDir (config b)) else SystemPrompt (config b) in
  [mkMessage RoleSystem systemPrompt [] None; mkMessage RoleUser prompt [] None].

(** The conversation as it starts. *)
Definition conv_init (d : Disk) (prompt : string) : Conv :=
  (emit (event EventInit "" {["agent" := AString (provider b); "model" := AString (Model (config b))]})
     (mkConv d [] [] 0 0 0 [] 0)) <| messages := first_messages prompt |>.

(** The events until the channel is closed, or until a panic. *)
Definition conversationLoop (d : Disk) (prompt : string) : Turn :=
  turns (Z.to_nat (MaxTurns (config b))) 0 (conv_init d prompt).

(** [SendPrompt] *)
Definition SendPrompt (d : Disk) (prompt : string) : string + Turn :=
  if connected b then inr (conversationLoop d prompt) else inl (provider b +:+ ": not connected").

(** ** Lemmas *)

(** What events do not touch. *)
Definition core (c : Conv) := (disk c, messages c, totalInputTokens c, totalOutputTokens c, asked c, executed c).

Lemma emit_core e c : core (emit e c) = core c.
Proof. unfold emit. by destruct (control _ || _). Qed.

(** The events of a conversation that goes on, and of one that has ended. *)
Definition open (c : Conv) : Prop :=
  exists e mid, delivered c = e :: mid /\ ev_Type e = EventInit /\ Forall (fun e => control (ev_Type e) = false) mid.

Definition terminal (t : EventType) : bool :=
  match t with EventError | EventComplete | EventInterrupted => true | _ => false end.

Definition closed (c : Conv) (t : EventType) : Prop :=
  exists c0 e, open c0 /\ delivered c = delivered c0 ++ [e] /\ ev_Type e = t /\ terminal t = true.

Lemma open_same c c' : delivered c' = delivered c -> open c -> open c'.
Proof. intros E (e & mid & H). exists e, mid. by rewrite E. Qed.

Lemma emit_open e c : control (ev_Type e) = false -> open c -> open (emit e c).
Proof.
  intros He (e0 & mid & Hd & H0 & Hm). unfold emit. rewrite He. destruct (room _); cbn [orb].
  - exists e0, (mid ++ [e]). cbn. rewrite Hd. split_and!; [done..|]. apply Forall_app. split; [done|by constructor].
  - exists e0, mid. by cbn.
Qed.

Lemma emit_closed e c : terminal (ev_Type e) = true -> open c -> closed (emit e c) (ev_Type e).
Proof.
  intros He Ho. exists c, e. unfold emit. assert (control (ev_Type e) = true) as -> by (by destruct (ev_Type e)).
  by cbn.
Qed.

(** What a collected stream says. *)
Definition consistent (t : Collected) : Prop := hadToolUse t = false -> toolCalls t = [].

Lemma collect_spec chunks t c : open c -> consistent t ->
  match collect chunks t c with
  | inl c' => (exists ty, closed c' ty /\ ty <> EventComplete) /\ core c' = core c
  | inr (t', c') => open c' /\ core c' = core c /\ consistent t' /\
      (turnUsage t' = turnUsage t \/ exists s, (s, ChunkDone (turnUsage t')) ∈ chunks)
  end.
Proof.
  revert t c. induction chunks as [|[stopped chunk] chunks IH]; intros t c Ho Ht; cbn [collect].
  - split_and!; [done..|by left].
  - destruct stopped; [split; [exists EventInterrupted; split; [by apply emit_closed|done]|apply emit_core]|].
    assert (forall t' c', open c' -> core c' = core c -> consistent t' ->
      (turnUsage t' = turnUsage t \/ chunk = ChunkDone (turnUsage t')) ->
      match collect chunks t' c' with
      | inl c'' => (exists ty, closed c'' ty /\ ty <> EventComplete) /\ core c'' = core c
      | inr (t'', c'') => open c'' /\ core c'' = core c /\ consistent t'' /\
          (turnUsage t'' = turnUsage t \/ exists s, (s, ChunkDone (turnUsage t'')) ∈ (false, chunk) :: chunks)
      end) as Hnext.
    { intros t' c' Ho' Hc' Ht' Hu. specialize (IH t' c' Ho' Ht'). destruct (collect chunks t' c') as [c''|[t'' c'']].
      - destruct IH as [? ->]. done.
      - destruct IH as (? & -> & ? & Hu'). split_and!; [done..|]. destruct Hu' as [Hu'|[s Hs]].
        + rewrite Hu'. destruct Hu as [->|Hu]; [by left|]. right. exists false. rewrite Hu. by left.
        + right. exists s. by right. }
    destruct chunk as [s|[use|]|u|err].
    + apply Hnext; [by apply emit_open|apply emit_core|done|by left].
    + apply Hnext; [by apply emit_open|apply emit_core|done|by left].
    + apply Hnext; [done..|by left].
    + apply Hnext; [done..|by right].
    + split; [exists EventError; split; [by apply emit_closed|done]|apply emit_core].
Qed.

(** *** Messages *)

(** A result that answers a call. *)
Definition answers (tc : ToolCall) (m : Message) : Prop :=
  m_Role m = RoleTool /\ m_ToolCalls m = [] /\ exists r, m_ToolResult m = Some r /\ ToolCallID r = tc_ID tc.

(** An answer of the model with the results of its calls. *)
Inductive block : list Message -> Prop :=
| block_intro text calls results :
    Forall2 answers calls results -> block (mkMessage RoleAssistant text calls None :: results).

Definition well_formed (prompt : string) (ms : list Message) : Prop :=
  exists blocks, ms = first_messages prompt ++ concat blocks /\ Forall block blocks.

Lemma well_formed_block prompt ms blk : well_formed prompt ms -> block blk -> well_formed prompt (ms ++ blk).
Proof.
  intros (blocks & -> & Hb) Hblk. exists (blocks ++ [blk]). rewrite concat_app. cbn [concat]. rewrite app_nil_r, app_assoc.
  split; [done|]. apply Forall_app. split; [done|by constructor].
Qed.

Definition tokens (c : Conv) : Z * Z := (totalInputTokens c, totalOutputTokens c).

Lemma core_inv c c' : core c' = core c -> messages c' = messages c /\ tokens c' = tokens c /\ asked c' = asked c.
Proof. unfold core, tokens. intros E. simplify_eq. split_and!; congruence. Qed.

Lemma emit_messages e c : messages (emit e c) = messages c.
Proof. unfold emit. by destruct (control _ || _). Qed.

Lemma emit_tokens e c : tokens (emit e c) = tokens c.
Proof. unfold emit. by destruct (control _ || _). Qed.

Lemma emit_asked e c : asked (emit e c) = asked c.
Proof. unfold emit. by destruct (control _ || _). Qed.

(** A tool of the agent panics. *)
Definition some_panic : Prop := exists k d tc, (Execute (os k) (executor b) d (tc_Name tc) (tc_Input tc)).2 = Panics.

Lemma run_call_spec tc c :
  match run_call tc c with
  | Some c' => (open c -> open c') /\ tokens c' = tokens c /\ asked c' = asked c /\
      exists m, messages c' = messages c ++ [m] /\ answers tc m
  | None => some_panic
  end.
Proof.
  unfold run_call. destruct (Execute _ _ _ _ _) as [d [output err|]] eqn:He; [|exists (executed c), (disk c), tc; by rewrite He].
  set (c1 := c <| disk := d |> <| executed := _ |> <| messages := _ |>).
  set (ev := event _ _ _). pose proof (emit_core ev c1) as [= _ Hm Hi Ho Ha _]. unfold tokens. rewrite Hm, Hi, Ho, Ha. split_and!.
  - intros Hopen. apply emit_open; [done|exact Hopen].
  - done.
  - done.
  - eexists. split; [done|]. split_and!; [done..|]. by eexists.
Qed.

Lemma run_calls_spec calls c : open c ->
  match run_calls calls c with
  | Again c' => open c' /\ tokens c' = tokens c /\ asked c' = asked c /\
      exists results, messages c' = messages c ++ results /\ Forall2 answers calls results
  | Stop _ => False
  | Crash c' => open c' /\ tokens c' = tokens c /\ asked c' = asked c /\ some_panic
  end.
Proof.
  revert c. induction calls as [|tc calls IH]; intros c Ho; cbn [run_calls].
  - split_and!; [done..|]. exists []. by rewrite app_nil_r.
  - pose proof (run_call_spec tc c) as H. destruct (run_call tc c) as [c1|]; [|done].
    destruct H as (Hopen & Ht & Ha & m & Hm & Hans). specialize (IH c1 (Hopen Ho)).
    destruct (run_calls calls c1) as [c'|c'|c']; [|done|].
    + destruct IH as (? & Ht' & Ha' & results & Hr & Hf). split_and!; [done|congruence|congruence|].
      exists (m :: results). rewrite Hr, Hm, <- app_assoc. split; [done|by constructor].
    + destruct IH as (? & Ht' & Ha' & ?). split_and!; [done|congruence|congruence|done].
Qed.

(** *** Turns *)

Definition plain_assistant (text : string) : Message := mkMessage RoleAssistant text [] None.

Lemma finish_turn_spec t c : open c -> consistent t ->
  match finish_turn t c with
  | Again c' => open c' /\ tokens c' = tokens (add_usage (turnUsage t) c) /\ asked c' = asked c /\
      exists blk, messages c' = messages c ++ blk /\ block blk
  | Stop c' => closed c' EventComplete /\ tokens c' = tokens (add_usage (turnUsage t) c) /\ asked c' = asked c /\
      messages c' = messages c ++ [plain_assistant (text t)]
  | Crash c' => open c' /\ tokens c' = tokens (add_usage (turnUsage t) c) /\ asked c' = asked c /\ some_panic
  end.
Proof.
  intros Ho Ht. unfold finish_turn. set (c0 := add_usage (turnUsage t) c).
  assert (delivered c0 = delivered c /\ messages c0 = messages c /\ asked c0 = asked c) as (Hd & Hm & Ha) by (unfold c0; by destruct (turnUsage t)).
  set (c1 := c0 <| messages := _ |>). assert (open c1) as Ho1 by (by apply (open_same c)).
  destruct (hadToolUse t) eqn:Hh.
  - pose proof (run_calls_spec (toolCalls t) c1 Ho1) as H. destruct (run_calls _ _) as [c'|c'|c']; [|done|].
    + destruct H as (? & Htk & Has & results & Hr & Hf). split_and!; [done|by rewrite Htk|by rewrite Has|].
      exists (mkMessage RoleAssistant (text t) (toolCalls t) None :: results). split; [|by constructor].
      rewrite Hr. cbn. by rewrite Hm, <- app_assoc.
    + destruct H as (? & Htk & Has & ?). split_and!; [done|by rewrite Htk|by rewrite Has|done].
  - set (ev := event EventComplete _ _). set (ev' := event EventAssistant _ _).
    rewrite !emit_messages, !emit_tokens, !emit_asked.
    split_and!; [|done|done|cbn; by rewrite Hm, (Ht Hh)].
    apply emit_closed; [done|]. by apply emit_open.
Qed.

(** What a turn adds to the tokens: nothing, or what a request made within the
    budget reports. *)
Definition spends (turn : nat) (c c' : Conv) : Prop :=
  tokens c' = tokens c \/
  (TokenBudget (config b) <= 0 \/ used c < TokenBudget (config b))%Z /\
  exists chunks s u, ask turn (messages c) = Stream chunks /\ (s, ChunkDone (Some u)) ∈ chunks /\
    tokens c' = (wrap64 (totalInputTokens c + InputTokens u), wrap64 (totalOutputTokens c + OutputTokens u))%Z.

Lemma turn_body_spec turn c : open c ->
  match turn_body turn c with
  | Again c' => open c' /\ asked c' = asked c ++ [messages c] /\ spends turn c c' /\
      exists blk, messages c' = messages c ++ blk /\ block blk
  | Stop c' => (asked c' = asked c \/ asked c' = asked c ++ [messages c]) /\ spends turn c c' /\
      exists ty, closed c' ty /\ (messages c' = messages c /\ ty <> EventComplete \/
        exists text, messages c' = messages c ++ [plain_assistant text] /\ ty = EventComplete)
  | Crash c' => open c' /\ asked c' = asked c ++ [messages c] /\ spends turn c c' /\ some_panic
  end.
Proof.
  intros Ho. unfold turn_body.
  assert (forall c1 e, asked c1 = asked c ++ [messages c] \/ asked c1 = asked c -> delivered c1 = delivered c ->
    messages c1 = messages c -> tokens c1 = tokens c -> ev_Type e = EventError \/ ev_Type e = EventInterrupted ->
    (asked (emit e c1) = asked c \/ asked (emit e c1) = asked c ++ [messages c]) /\ spends turn c (emit e c1) /\
    exists ty, closed (emit e c1) ty /\ (messages (emit e c1) = messages c /\ ty <> EventComplete \/
      exists text, messages (emit e c1) = messages c ++ [plain_assistant text] /\ ty = EventComplete)) as Hstop.
  { intros c1 e Ha Hd Hm Ht He. rewrite emit_messages, emit_asked. split_and!.
    - destruct Ha as [->| ->]; [by right|by left].
    - left. by rewrite emit_tokens.
    - exists (ev_Type e). split; [|left; split; [done|by destruct He as [->| ->]]].
      apply emit_closed; [by destruct He as [->| ->]|by apply (open_same c)]. }
  case_decide as Hbud; [apply Hstop; [by right|done..|by left]|].
  destruct (interrupted turn); [apply Hstop; [by right|done..|by right]|].
  set (c1 := c <| asked := _ |>). change (messages c1) with (messages c).
  destruct (ask turn (messages c)) as [err|err|code|err|chunks] eqn:Hask;
    try (apply Hstop; [by left|done..|by left]).
  assert (open c1) as Ho1 by (by apply (open_same c)).
  pose proof (collect_spec chunks nothing_collected c1 Ho1 (fun _ => eq_refl)) as Hc.
  destruct (collect chunks nothing_collected c1) as [c'|[t c']].
  - destruct Hc as [(ty & Hcl & Hty) (Hm & Htk & Ha)%core_inv]. split_and!.
    + right. by rewrite Ha.
    + left. by rewrite Htk.
    + exists ty. split; [done|left]. by rewrite Hm.
  - destruct Hc as (Ho' & (Hm & Htk' & Ha)%core_inv & Hcons & Hu). injection Htk' as Hi Hou.
    assert (forall c'', tokens c'' = tokens (add_usage (turnUsage t) c') -> spends turn c c'') as Hsp.
    { intros c'' E. destruct (turnUsage t) as [u|] eqn:Eu.
      - right. split; [lia|]. destruct Hu as [Hu|[s Hs]]; [done|]. exists chunks, s, u. split_and!; [done..|].
        rewrite E. unfold tokens. cbn. by rewrite Hi, Hou.
      - left. rewrite E. unfold tokens. cbn. by rewrite Hi, Hou. }
    pose proof (finish_turn_spec t c' Ho' Hcons) as Hf. destruct (finish_turn t c') as [c''|c''|c''].
    + destruct Hf as (? & Htk & Has & blk & Hb & Hblk). split_and!; [done|by rewrite Has, Ha|by apply Hsp|].
      exists blk. by rewrite Hb, Hm.
    + destruct Hf as (Hcl & Htk & Has & Hb). split_and!; [right; by rewrite Has, Ha|by apply Hsp|].
      exists EventComplete. split; [done|right]. exists (text t). by rewrite Hb, Hm.
    + destruct Hf as (? & Htk & Has & Hp). split_and!; [done|by rewrite Has, Ha|by apply Hsp|done].
Qed.

(** *** The whole conversation *)

Record going (prompt : string) (turn : nat) (c : Conv) : Prop := mkGoing {
  g_open : open c;
  g_messages : well_formed prompt (messages c);
  g_turn : length (asked c) = turn;
  g_asked : Forall (well_formed prompt) (asked c)
}.

(** Requests of at most [n] turns, all of them well formed. *)
Definition requests (prompt : string) (n : nat) (c : Conv) : Prop :=
  length (asked c) <= n /\ Forall (well_formed prompt) (asked c).

Definition ended (prompt : string) (n : nat) (t : Turn) : Prop :=
  match t with
  | Again _ => False
  | Stop c => requests prompt n c /\ well_formed prompt (messages c) /\
      exists ty, closed c ty /\ (ty = EventComplete -> exists text, last (messages c) = Some (plain_assistant text))
  | Crash c => requests prompt n c /\ open c /\ some_panic
  end.

Lemma requests_grow prompt turn n c l : going prompt turn c -> turn < n -> l = asked c \/ l = asked c ++ [messages c] ->
  length l <= n /\ Forall (well_formed prompt) l.
Proof.
  intros [_ Hm Ht Ha] Hn [->| ->]; [split; [lia|done]|]. rewrite length_app. cbn [length]. split; [lia|].
  apply Forall_app. split; [done|by constructor].
Qed.

Lemma turns_spec prompt remaining turn c : going prompt turn c -> ended prompt (turn + remaining) (turns remaining turn c).
Proof.
  revert turn c. induction remaining as [|remaining IH]; intros turn c Hg; cbn [turns].
  - destruct Hg as [Ho Hm Ht Ha]. unfold emitError. cbn [ended]. unfold requests.
    rewrite emit_messages, emit_asked. split_and!; [lia|done..|]. exists EventError. split; [by apply emit_closed|done].
  - pose proof (turn_body_spec turn c (g_open _ _ _ Hg)) as H. destruct (turn_body turn c) as [c'|c'|c'].
    + destruct H as (Ho & Ha & _ & blk & Hm & Hblk). rewrite Nat.add_succ_r. apply (IH (S turn)). constructor.
      * done.
      * rewrite Hm. apply well_formed_block; [apply Hg|done].
      * rewrite Ha, length_app, (g_turn _ _ _ Hg). cbn. lia.
      * rewrite Ha. apply Forall_app. split; [apply Hg|by repeat constructor; apply Hg].
    + destruct H as (Ha & _ & ty & Hcl & Hm). split; [by eapply requests_grow; [done|lia|]|].
      destruct Hm as [[-> Hty]|(text & -> & Hty)].
      * split; [apply Hg|]. by exists ty.
      * split; [apply well_formed_block; [apply Hg|by repeat constructor]|]. exists ty. split; [done|].
        intros _. exists text. apply last_snoc.
    + destruct H as (Ho & Ha & _ & Hp). split; [by eapply requests_grow; [done|lia|right]|done].
Qed.

Lemma going_init d prompt : going prompt 0 (conv_init d prompt).
Proof.
  constructor; [|exists []; by rewrite app_nil_r|done|constructor].
  by exists (event EventInit "" {["agent" := AString (provider b); "model" := AString (Model (config b))]}), [].
Qed.

(** *** Tokens *)

Section tokens.
Context (per_turn : Z).
Context (usage_bounded : forall turn ms chunks s u, ask turn ms = Stream chunks -> (s, ChunkDone (Some u)) ∈ chunks ->
  (0 <= InputTokens u /\ 0 <= OutputTokens u /\ InputTokens u + OutputTokens u <= per_turn)%Z).
Context (budget_small : (0 < TokenBudget (config b) /\ 0 <= per_turn /\ TokenBudget (config b) + per_turn < 2 ^ 63)%Z).

Definition within_budget (c : Conv) : Prop :=
  (0 <= totalInputTokens c /\ 0 <= totalOutputTokens c /\
   totalInputTokens c + totalOutputTokens c < TokenBudget (config b) + per_turn)%Z.

Lemma spends_within turn c c' : within_budget c -> spends turn c c' -> within_budget c'.
Proof.
  intros Hc Hs. unfold within_budget, spends, tokens in *.
  destruct Hs as [E|[Hb (chunks & s & u & Hask & Hin & E)]]; injection E as -> ->; [done|].
  pose proof (usage_bounded _ _ _ _ _ Hask Hin). unfold used in Hb. rewrite wrap64_id in Hb by lia.
  rewrite !wrap64_id by lia. lia.
Qed.

Definition conv_of (t : Turn) : Conv := match t with Again c | Stop c | Crash c => c end.

Lemma turns_within remaining turn c : open c -> within_budget c -> within_budget (conv_of (turns remaining turn c)).
Proof.
  revert turn c. induction remaining as [|remaining IH]; intros turn c Ho Hc; cbn [turns].
  - cbn [conv_of]. unfold emitError. eapply (spends_within turn); [done|]. left. apply emit_tokens.
  - pose proof (turn_body_spec turn c Ho) as H. destruct (turn_body turn c) as [c'|c'|c']; cbn [conv_of].
    + destruct H as (Ho' & _ & Hs & _). by apply IH; [|eapply spends_within].
    + destruct H as (_ & Hs & _). by eapply spends_within.
    + destruct H as (_ & _ & Hs & _). by eapply spends_within.
Qed.

End tokens.

(** ** Theorems *)

(** C30: the conversation ends, whatever the provider, its server and the tools do:
    after at most [MaxTurns] requests its events are the initial one, events that
    may be dropped, and one that may not: completion, an error or an interruption.
    It is complete only if the model's last message calls no tool.  Only the panic
    of a tool leaves the stream of events without an end (it ends the process).  The
    last event is one that is sent with a blocking send, and taken as delivered. *)
Theorem conversation_ends d prompt :
  match conversationLoop d prompt with
  | Again _ => False
  | Stop c => length (asked c) <= Z.to_nat (MaxTurns (config b)) /\
      exists ty, closed c ty /\ (ty = EventComplete -> exists text, last (messages c) = Some (plain_assistant text))
  | Crash c => open c /\ some_panic
  end.
Proof.
  pose proof (turns_spec prompt (Z.to_nat (MaxTurns (config b))) 0 _ (going_init d prompt)) as H.
  unfold conversationLoop. destruct (turns _ _ _) as [c|c|c]; cbn [ended] in H; unfold requests in H; naive_solver.
Qed.

(** Every request carries the system prompt, the task, and then the model's
    messages, each with its tool calls answered, one result for each call in the
    order of the calls and under the call's identifier. *)
Lemma requests_answered d prompt :
  let c := conv_of (conversationLoop d prompt) in
  Forall (well_formed prompt) (asked c) /\ length (asked c) <= Z.to_nat (MaxTurns (config b)).
Proof.
  cbn zeta. pose proof (turns_spec prompt (Z.to_nat (MaxTurns (config b))) 0 _ (going_init d prompt)) as H.
  unfold conversationLoop. destruct (turns _ _ _) as [c|c|c]; cbn [ended conv_of] in *; unfold requests in H; naive_solver.
Qed.

(** under a token budget a conversation spends less than the budget and one turn
    more, as long as a turn's usage is bounded and their sum fits 64 bits. *)
Theorem tokens_bounded per_turn d prompt :
  (forall turn ms chunks s u, ask turn ms = Stream chunks -> (s, ChunkDone (Some u)) ∈ chunks ->
     (0 <= InputTokens u /\ 0 <= OutputTokens u /\ InputTokens u + OutputTokens u <= per_turn)%Z) ->
  (0 < TokenBudget (config b) /\ 0 <= per_turn /\ TokenBudget (config b) + per_turn < 2 ^ 63)%Z ->
  let c := conv_of (conversationLoop d prompt) in
  (0 <= totalInputTokens c /\ 0 <= totalOutputTokens c /\
   totalInputTokens c + totalOutputTokens c < TokenBudget (config b) + per_turn)%Z.
Proof.
  intros Hu Hb c. apply (turns_within per_turn Hu Hb); [apply (g_open _ _ _ (going_init d prompt))|].
  change (0 <= 0 /\ 0 <= 0 /\ 0 + 0 < TokenBudget (config b) + per_turn)%Z. lia.
Qed.

End conversation.

(** ** Runs *)

Definition demo_config : APIConfig := mkConfig "m" "/w" 0 100 "".
Definition demo : Base := Connect (NewBase "api" demo_config 0).

Definition types (t : Turn) : list EventType := ev_Type <$> delivered (conv_of t).

(** A conversation in which nothing is interrupted. *)
Definition run (answers : nat -> Answer) (room : nat -> bool) (d : Disk) : Turn :=
  conversationLoop demo (fun _ => plain_os) (fun turn _ => answers turn) (fun _ => false) room (fun dir => dir) d "do it".

Definition write_call : ToolCall := mkCall "t1" "Write" {["path" := AString "a.txt"; "content" := AString "hi"]}.

(** Two turns: a tool call and its result, then the answer. *)
Definition two_turns (turn : nat) : Answer :=
  match turn with
  | 0 => Stream [(false, ChunkText "I write."); (false, ChunkToolUse (Some write_call)); (false, ChunkDone (Some (mkUsage 10 5)))]
  | _ => Stream [(false, ChunkText "Done."); (false, ChunkDone (Some (mkUsage 20 5)))]
  end.

Lemma two_turns_run :
  let t := run two_turns (fun _ => true) ∅ in
  types t = [EventInit; EventStream; EventToolUse; EventToolResult; EventStream; EventAssistant; EventComplete] /\
  disk (conv_of t) = {["/w/a.txt" := "hi"]} /\ tokens (conv_of t) = (30%Z, 10%Z) /\
  last (messages (conv_of t)) = Some (plain_assistant "Done.").
Proof. by vm_compute. Qed.

Lemma tokens_bounded_witness :
  let c := conv_of (run two_turns (fun _ => true) ∅) in
  (0 <= totalInputTokens c /\ 0 <= totalOutputTokens c /\ totalInputTokens c + totalOutputTokens c < 100 + 25)%Z.
Proof.
  apply (tokens_bounded demo (fun _ => plain_os) (fun turn _ => two_turns turn) (fun _ => false) (fun _ => true) (fun dir => dir) 25 ∅ "do it").
  - intros turn ms chunks s u H Hin. destruct turn as [|turn]; injection H as <-;
      repeat (apply elem_of_cons in Hin as [Hin|Hin]; [simplify_eq; cbn; lia|]); by apply elem_of_nil in Hin.
  - cbn. lia.
Defined.

(** *** What goes wrong *)

(** A stream that breaks off is a complete answer. *)
Lemma broken_stream_completes :
  types (run (fun _ => Stream [(false, ChunkText "Half an ans")]) (fun _ => true) ∅)
  = [EventInit; EventStream; EventAssistant; EventComplete].
Proof. by vm_compute. Qed.

(** When the channel is full the answer itself is dropped and the conversation is complete. *)
Lemma answer_dropped : types (run two_turns (fun _ => false) ∅) = [EventInit; EventComplete].
Proof. by vm_compute. Qed.

(** An interruption while a request is under way is an error. *)
Lemma interruption_is_an_error :
  types (run (fun _ => RequestFails "context canceled") (fun _ => true) ∅) = [EventInit; EventError].
Proof. by vm_compute. Qed.

(** A fractional offset in the model's input ends the process. *)
Lemma tool_panic_crashes :
  let call := mkCall "t1" "Read" {["path" := AString "a.txt"; "offset" := AFloat (float_dec 5 1)]} in
  let t := run (fun _ => Stream [(false, ChunkToolUse (Some call)); (false, ChunkDone None)]) (fun _ => true) {["/w/a.txt" := "hi"]} in
  match t with Crash c => types t = [EventInit; EventToolUse] | _ => False end.
Proof. by vm_compute. Qed.
