(* ===== verification/Anthropic.v ===== *)
(** * The Anthropic provider

    Translates [ParseStream], [convertMessage] and what [BuildRequest] makes of the
    messages (src/agent/anthropic/anthropic.go).  What [json.Unmarshal] reads from
    the data of an event is the record [Decoders]. *)

From S2P Require Import Prelude Names Text SettingsData Permission Executor AgentLoop.

(** ** Streams over HTTP

    Translates src/agent/apiagent/stream.go: [ParseSSE] and [ParseNDJSON].  The
    body is the bytes received until the end or a read error, after which a
    [bufio.Scanner] delivers what it has; [canceled] is whether the context is
    done when a line has been read. *)

Module Sse.

Record SSEEvent := mkSSE { Event : string; Data : string }.

(** The limit that the scanners are given. *)
Definition max_line : Z := 1024 * 1024.

(** The lines that a scanner with this limit delivers; a longer line stops it. *)
Fixpoint scan_long (lines : list string) : list string :=
  match lines with
  | [] => []
  | l :: lines => if decide (Z.of_nat (String.length l) < max_line)%Z then dropCR l :: scan_long lines else []
  end.

(** *** Server-sent events *)

Record Parser := mkParser { event_name : string; dataLines : list string }.

(** One line: the parser, and the event that it ends. *)
Definition sse_line (line : string) (p : Parser) : Parser * list SSEEvent :=
  if decide (line = "") then
    if decide (dataLines p = []) then (p, []) else (mkParser "" [], [mkSSE (event_name p) (join_with nl (dataLines p))])
  else if has_prefix line ":" then (p, [])
  else if has_prefix line "event:" then (mkParser (TrimSpace (TrimPrefix line "event:")) (dataLines p), [])
  else if has_prefix line "data:" then
    (mkParser (event_name p) (dataLines p ++ [TrimPrefix (TrimPrefix line "data:") " "]), [])
  else (p, []).

Fixpoint sse_lines (canceled : nat -> bool) (i : nat) (lines : list string) (p : Parser) : list SSEEvent :=
  match lines with
  | [] => if decide (dataLines p = []) then [] else [mkSSE (event_name p) (join_with nl (dataLines p))]
  | line :: lines =>
      if canceled i then [] else
      let '(p, events) := sse_line line p in events ++ sse_lines canceled (S i) lines p
  end.

Definition ParseSSE (canceled : nat -> bool) (body : string) : list SSEEvent :=
  sse_lines canceled 0 (scan_long (raw_lines "" body)) (mkParser "" []).

(** *** Lines of JSON *)

Fixpoint ndjson_lines (canceled : nat -> bool) (i : nat) (lines : list string) : list string :=
  match lines with
  | [] => []
  | line :: lines =>
      if canceled i then [] else
      let line := TrimSpace line in
      (if decide (line = "") then [] else [line]) ++ ndjson_lines canceled (S i) lines
  end.

Definition ParseNDJSON (canceled : nat -> bool) (body : string) : list string :=
  ndjson_lines canceled 0 (scan_long (raw_lines "" body)).

Definition never : nat -> bool := fun _ => false.

(** *** Writing *)

(** An event as a server writes it: every line of its data in a field. *)
Definition data_field (l : string) : string := "data: " +:+ l.
Definition event_lines (e : SSEEvent) : list string :=
  ("event: " +:+ Event e) :: (data_field <$> Split (Ascii.ascii_of_nat 10) (Data e)) ++ [""].

Definition print_event (e : SSEEvent) : string := unlines (event_lines e).

Fixpoint print_events (es : list SSEEvent) : string :=
  match es with [] => "" | e :: es => print_event e +:+ print_events es end.

Example sse_examples :
  ParseSSE never (print_events [mkSSE "a" "x"; mkSSE "" ("y" +:+ nl +:+ "z")]) = [mkSSE "a" "x"; mkSSE "" ("y" +:+ nl +:+ "z")] /\
  ParseSSE never (": note" +:+ nl +:+ "data:x" +:+ nl +:+ "id: 3" +:+ nl) = [mkSSE "" "x"] /\
  ParseNDJSON never ("{}" +:+ nl +:+ nl +:+ " {1} ") = ["{}"; "{1}"].
Proof. by vm_compute. Qed.

(** A line that is delivered as it is written. *)
Definition plain_line (l : string) : Prop :=
  no_newline l = true /\ has_suffix l CR = false /\ (Z.of_nat (String.length l) + 7 < max_line)%Z.

Definition printable (e : SSEEvent) : Prop :=
  plain_line (Event e) /\ TrimSpace (Event e) = Event e /\ Forall plain_line (Split (Ascii.ascii_of_nat 10) (Data e)).

(** *** Lemmas *)

Lemma raw_lines_all ls : Forall (fun l => no_newline l = true) ls -> raw_lines "" (unlines ls) = ls.
Proof.
  induction 1 as [|d ds Hd _ IH]; [done|]. cbn [unlines]. rewrite raw_lines_word by done.
  change ("" +:+ d) with d. change (raw_lines d (nl +:+ unlines ds)) with (d :: raw_lines "" (unlines ds)). by rewrite IH.
Qed.

Lemma unlines_app ls ls' : unlines (ls ++ ls') = unlines ls +:+ unlines ls'.
Proof. induction ls as [|l ls IH]; [done|]. cbn [app unlines]. by rewrite IH, !string_app_assoc. Qed.

Lemma print_events_lines es : print_events es = unlines (concat (event_lines <$> es)).
Proof.
  induction es as [|e es IH]; [done|]. cbn [print_events fmap list_fmap concat]. rewrite IH. by rewrite unlines_app.
Qed.

Lemma no_newline_app a b : no_newline (a +:+ b) = no_newline a && no_newline b.
Proof. apply all_chars_app. Qed.

(** *** What is delivered *)

Lemma plain_field name l : has_suffix name CR = false -> no_newline name = true -> String.length name <= 7 -> plain_line l ->
  no_newline (name +:+ l) = true /\ has_suffix (name +:+ l) CR = false /\ (Z.of_nat (String.length (name +:+ l)) < max_line)%Z.
Proof.
  intros Hc Hn Hlen (Hnl & Hcr & Hl). rewrite no_newline_app, Hn, Hnl, string_app_length. split_and!; [done| |lia].
  destruct (decide (l = "")) as [->|Hne]; [by rewrite string_app_nil|]. unfold CR in *. by rewrite has_suffix_app_ne.
Qed.

Lemma event_lines_delivered e : printable e ->
  Forall (fun l => no_newline l = true /\ has_suffix l CR = false /\ (Z.of_nat (String.length l) < max_line)%Z) (event_lines e).
Proof.
  intros (Hname & _ & Hdata). constructor; [apply plain_field; [done|done|cbn; lia|done]|]. apply Forall_app. split; [|by repeat constructor].
  apply Forall_fmap. eapply Forall_impl; [exact Hdata|]. intros l Hl. apply plain_field; [done|done|cbn; lia|done].
Qed.

Lemma scan_long_delivered ls :
  Forall (fun l => no_newline l = true /\ has_suffix l CR = false /\ (Z.of_nat (String.length l) < max_line)%Z) ls -> scan_long ls = ls.
Proof.
  induction 1 as [|l ls (_ & Hc & Hl) _ IH]; [done|]. cbn [scan_long]. rewrite decide_True, IH by done.
  unfold dropCR. fold CR. by rewrite Hc.
Qed.

(** *** Parsing a printed event *)

Lemma TrimPrefix_app p s : TrimPrefix (p +:+ s) p = s.
Proof. unfold TrimPrefix, has_prefix. rewrite prefix_app, string_app_length, Nat.add_comm, Nat.add_sub. apply substring_app. Qed.

Lemma sse_line_data l p : sse_line (data_field l) p = (mkParser (event_name p) (dataLines p ++ [l]), []).
Proof.
  unfold sse_line, data_field. rewrite decide_False by done.
  assert (has_prefix ("data: " +:+ l) "data:" = true) as Hp by by destruct l.
  change (has_prefix ("data: " +:+ l) ":") with false. change (has_prefix ("data: " +:+ l) "event:") with false. rewrite Hp.
  change ("data: " +:+ l) with ("data:" +:+ (" " +:+ l)). by rewrite !TrimPrefix_app.
Qed.

Lemma sse_lines_data ls i rest p :
  sse_lines never i ((data_field <$> ls) ++ rest) p
  = sse_lines never (i + length ls) rest (mkParser (event_name p) (dataLines p ++ ls)).
Proof.
  revert i p. induction ls as [|l ls IH]; intros i p.
  - cbn. rewrite app_nil_r, Nat.add_0_r. by destruct p.
  - cbn [fmap list_fmap app sse_lines never]. rewrite sse_line_data. cbn [app].
    change (list_fmap _ _ data_field ls) with (data_field <$> ls). rewrite IH. cbn [event_name dataLines length].
    rewrite <- app_assoc, Nat.add_succ_r. done.
Qed.

Lemma trim_space_left_space c s : is_space c = true -> trim_space_left (String c s) = trim_space_left s.
Proof. intros H. cbn. by rewrite H. Qed.

Lemma sse_lines_event e i rest : printable e ->
  exists j, sse_lines never i (event_lines e ++ rest) (mkParser "" []) = e :: sse_lines never j rest (mkParser "" []).
Proof.
  intros (_ & Hname & _). unfold event_lines. cbn [app sse_lines never].
  assert (sse_line ("event: " +:+ Event e) (mkParser "" []) = (mkParser (Event e) [], [])) as ->.
  { unfold sse_line. rewrite decide_False by done.
    change (has_prefix ("event: " +:+ Event e) ":") with false.
    assert (has_prefix ("event: " +:+ Event e) "event:" = true) as -> by by destruct (Event e).
    change ("event: " +:+ Event e) with ("event:" +:+ (" " +:+ Event e)). rewrite TrimPrefix_app.
    unfold TrimSpace in *. change (" " +:+ Event e) with (String (Ascii.ascii_of_nat 32) (Event e)). by rewrite trim_space_left_space, Hname. }
  cbn [app]. rewrite <- app_assoc. rewrite sse_lines_data. cbn [app event_name dataLines].
  set (ls := Split _ (Data e)). cbn [sse_lines never]. unfold sse_line. rewrite decide_True by done. cbn [dataLines event_name].
  assert (ls <> []) as Hls by (unfold ls; destruct (Split_cons (Ascii.ascii_of_nat 10) (Data e)) as (w & ws & ->); done).
  rewrite decide_False by done. eexists. cbn [app]. f_equal. unfold ls.
  assert (join_with nl (Split (Ascii.ascii_of_nat 10) (Data e)) = Data e) as -> by apply (join_split (Ascii.ascii_of_nat 10)).
  by destruct e.
Qed.

(** What a server writes is what the parser delivers. *)
Lemma sse_roundtrip_inv es : Forall printable es -> ParseSSE never (print_events es) = es.
Proof.
  intros Hes. unfold ParseSSE. rewrite print_events_lines.
  assert (Forall (fun l => no_newline l = true /\ has_suffix l CR = false /\ (Z.of_nat (String.length l) < max_line)%Z)
            (concat (event_lines <$> es))) as Hd.
  { induction Hes as [|e es He _ IH]; [done|]. cbn [fmap list_fmap concat]. apply Forall_app. split; [by apply event_lines_delivered|exact IH]. }
  rewrite raw_lines_all by (eapply Forall_impl; [exact Hd|by intros l []]). rewrite scan_long_delivered by done. clear Hd.
  generalize 0. induction Hes as [|e es He _ IH]; intros i; [done|]. cbn [fmap list_fmap concat].
  destruct (sse_lines_event e i (concat (event_lines <$> es)) He) as [j Hj]. etransitivity; [exact Hj|]. by rewrite IH.
Qed.

(** *** Theorems *)

(** what a server writes is what the parser delivers: every event with its name
    and its data, whatever lines the data has, and nothing more. *)
Theorem sse_roundtrip es : Forall printable es -> ParseSSE never (print_events es) = es.
Proof. apply sse_roundtrip_inv. Qed.

Lemma sse_roundtrip_witness :
  ParseSSE never (print_events [mkSSE "ping" ""; mkSSE "delta" ("a" +:+ nl +:+ ": b")]) = [mkSSE "ping" ""; mkSSE "delta" ("a" +:+ nl +:+ ": b")].
Proof.
  apply sse_roundtrip. repeat constructor.
Defined.

(** *** What goes wrong *)

(** The name of an event without data is given to the next event. *)
Lemma name_leaks :
  ParseSSE never (join_with nl ["event: message_stop"; ""; "data: x"; ""; ""]) = [mkSSE "message_stop" "x"].
Proof. by vm_compute. Qed.

(** An event that the end of the stream cuts off is delivered as far as it came. *)
Lemma cut_event_delivered : ParseSSE never ("event: a" +:+ nl +:+ "data: {1, 2") = [mkSSE "a" "{1, 2"].
Proof. by vm_compute. Qed.

(** A line of a megabyte ends the stream without an error. *)
Lemma long_line_ends l es : no_newline l = true -> (max_line <= Z.of_nat (String.length l))%Z ->
  scan_long (raw_lines "" (l +:+ nl +:+ print_events es)) = [].
Proof.
  intros Hn Hl. rewrite raw_lines_word by done. change ("" +:+ l) with l.
  change (raw_lines l (nl +:+ print_events es)) with (l :: raw_lines "" (print_events es)). cbn [scan_long].
  rewrite decide_False by lia. done.
Qed.

End Sse.

(** ** The stream *)

(** The fields of the events' data; [None] is an error. *)
Record Decoders := mkDecoders {
  block_start : string -> option (Z * string * string * string);    (* index, type, id, name *)
  block_delta : string -> option (Z * string * string * string);    (* index, type, text, partial JSON *)
  block_stop : string -> option Z;
  error_message : string -> option string;
  message_start : string -> option Z;                                (* input tokens *)
  message_delta : string -> option Z;                                (* output tokens *)
  decode_input : string -> option Input                              (* [None] also for null *)
}.

Record contentBlock := mkBlock { blockType : string; id : string; name : string; inputJSON : string }.

Section stream.
Context (D : Decoders).

(** The input of a tool. *)
Definition tool_input (json : string) : Input :=
  if decide (json = "") then ∅ else default ∅ (decode_input D json).

Definition final_usage (u : UsageData) : option UsageData :=
  if decide (0 < InputTokens u \/ 0 < OutputTokens u)%Z then Some u else None.

Fixpoint parse_events (evs : list Sse.SSEEvent) (blocks : gmap Z contentBlock) (usage : UsageData) : list Chunk :=
  match evs with
  | [] => [ChunkDone None]
  | sse :: evs =>
      let data := Sse.Data sse in
      let continue := parse_events evs blocks usage in
      go_switch (Sse.Event sse)
        [("content_block_start",
          match block_start D data with
          | None => continue
          | Some (index, type, bid, bname) => parse_events evs (<[index := mkBlock type bid bname ""]> blocks) usage
          end);
         ("content_block_delta",
          match block_delta D data with
          | None => continue
          | Some (index, type, txt, json) =>
              match blocks !! index with
              | None => continue
              | Some block =>
                  go_switch type
                    [("text_delta", ChunkText txt :: continue);
                     ("input_json_delta",
                      parse_events evs (<[index := mkBlock (blockType block) (id block) (name block) (inputJSON block +:+ json)]> blocks) usage)]
                    continue
              end
          end);
         ("content_block_stop",
          match block_stop D data with
          | None => continue
          | Some index =>
              match blocks !! index with
              | None => continue
              | Some block =>
                  (if decide (blockType block = "tool_use")
                   then [ChunkToolUse (Some (mkCall (id block) (name block) (tool_input (inputJSON block))))] else [])
                  ++ parse_events evs (delete index blocks) usage
              end
          end);
         ("message_stop", [ChunkDone (final_usage usage)]);
         ("error", [ChunkError (default data (error_message D data))]);
         ("message_start",
          match message_start D data with
          | None => continue
          | Some n => parse_events evs blocks (mkUsage (wrap64 (InputTokens usage + n)) (OutputTokens usage))
          end);
         ("message_delta",
          match message_delta D data with
          | None => continue
          | Some n => parse_events evs blocks (mkUsage (InputTokens usage) (wrap64 (OutputTokens usage + n)))
          end)]
        continue
  end.

(** [ParseStream] of a response's body. *)
Definition ParseStream (canceled : nat -> bool) (body : string) : list Chunk :=
  parse_events (Sse.ParseSSE canceled body) ∅ (mkUsage 0 0).

End stream.

(** ** The request *)

Definition role_name (r : Role) : string :=
  match r with RoleSystem => "system" | RoleUser => "user" | RoleAssistant => "assistant" | RoleTool => "tool" end.

Definition text_block (s : string) : any := AMap [("type", AString "text"); ("text", AString s)].
Definition tool_use_block (tc : ToolCall) : any :=
  AMap [("type", AString "tool_use"); ("id", AString (tc_ID tc)); ("name", AString (tc_Name tc)); ("input", any_input (tc_Input tc))].
Definition tool_result_block (r : ToolResult) : any :=
  AMap [("type", AString "tool_result"); ("tool_use_id", AString (ToolCallID r)); ("content", AString (tr_Content r)); ("is_error", ABool (IsError r))].

(** A message of the API: its role and its content. *)
Record ApiMessage := mkApi { role : string; content : any }.

#[export] Instance Role_eq_dec : EqDecision Role.
Proof. solve_decision. Defined.

Definition convertMessage (msg : Message) : ApiMessage :=
  if decide (m_Role msg = RoleAssistant /\ m_ToolCalls msg <> []) then
    mkApi (role_name (m_Role msg))
      (AList ((if decide (m_Content msg = "") then [] else [text_block (m_Content msg)]) ++ (tool_use_block <$> m_ToolCalls msg)))
  else
    match (if decide (m_Role msg = RoleTool) then m_ToolResult msg else None) with
    | Some r => mkApi "user" (AList [tool_result_block r])
    | None => mkApi (role_name (m_Role msg)) (AString (m_Content msg))
    end.

(** The system prompt and the messages of a request: the last system message is the
    prompt, and none is a message. *)
Fixpoint split_messages (system : string) (ms : list Message) : string * list ApiMessage :=
  match ms with
  | [] => (system, [])
  | m :: ms =>
      if decide (m_Role m = RoleSystem) then split_messages (m_Content m) ms
      else let '(system, api) := split_messages system ms in (system, convertMessage m :: api)
  end.

(** [max_tokens] of the body. *)
Definition request_max_tokens (maxTokens : Z) : Z := if decide (maxTokens = 0%Z) then 8192%Z else maxTokens.

(** ** What a server writes *)

(** A block of a message: text in pieces, or a tool call whose input is JSON in
    pieces. *)
Inductive Block :=
| BText (pieces : list string)
| BTool (bid bname : string) (pieces : list string).

Section writing.
Context (D : Decoders).

Definition is_event (kind : string) (e : Sse.SSEEvent) : Prop := Sse.Event e = kind.

Definition starts (i : Z) (type bid bname : string) (e : Sse.SSEEvent) : Prop :=
  Sse.Event e = "content_block_start" /\ block_start D (Sse.Data e) = Some (i, type, bid, bname).
Definition stops (i : Z) (e : Sse.SSEEvent) : Prop :=
  Sse.Event e = "content_block_stop" /\ block_stop D (Sse.Data e) = Some i.
Definition text_piece (i : Z) (piece : string) (e : Sse.SSEEvent) : Prop :=
  Sse.Event e = "content_block_delta" /\ exists json, block_delta D (Sse.Data e) = Some (i, "text_delta", piece, json).
Definition json_piece (i : Z) (piece : string) (e : Sse.SSEEvent) : Prop :=
  Sse.Event e = "content_block_delta" /\ exists txt, block_delta D (Sse.Data e) = Some (i, "input_json_delta", txt, piece).

(** The events of a block under an index. *)
Definition block_events (i : Z) (blk : Block) (evs : list Sse.SSEEvent) : Prop :=
  exists first deltas last, evs = first :: deltas ++ [last] /\ stops i last /\
    match blk with
    | BText pieces => starts i "text" "" "" first /\ Forall2 (text_piece i) pieces deltas
    | BTool bid bname pieces => starts i "tool_use" bid bname first /\ Forall2 (json_piece i) pieces deltas
    end.

(** The blocks of a message, numbered from [i]. *)
Inductive message_blocks : Z -> list Block -> list Sse.SSEEvent -> Prop :=
| blocks_nil i : message_blocks i [] []
| blocks_cons i blk blks evs evs' :
    block_events i blk evs -> message_blocks (i + 1) blks evs' -> message_blocks i (blk :: blks) (evs ++ evs').

(** A whole message with its usage; pings may be anywhere else and are not shown. *)
Definition message_events (blks : list Block) (u : UsageData) (evs : list Sse.SSEEvent) : Prop :=
  exists first body delta last, evs = first :: body ++ [delta; last] /\
    Sse.Event first = "message_start" /\ message_start D (Sse.Data first) = Some (InputTokens u) /\
    message_blocks 0 blks body /\
    Sse.Event delta = "message_delta" /\ message_delta D (Sse.Data delta) = Some (OutputTokens u) /\
    Sse.Event last = "message_stop".

Definition block_chunks (blk : Block) : list Chunk :=
  match blk with
  | BText pieces => ChunkText <$> pieces
  | BTool bid bname pieces => [ChunkToolUse (Some (mkCall bid bname (tool_input D (String.concat "" pieces))))]
  end.

Definition block_text (blk : Block) : string := match blk with BText pieces => String.concat "" pieces | _ => "" end.
Definition block_call (blk : Block) : list ToolCall :=
  match blk with BTool bid bname pieces => [mkCall bid bname (tool_input D (String.concat "" pieces))] | _ => [] end.

(** ** Lemmas *)

Lemma concat_cons p ps : String.concat "" (p :: ps) = p +:+ String.concat "" ps.
Proof. destruct ps; [cbn; by rewrite string_app_nil|done]. Qed.

Lemma parse_text pieces deltas i type bid bname json rest blocks usage :
  Forall2 (text_piece i) pieces deltas -> blocks !! i = Some (mkBlock type bid bname json) ->
  parse_events D (deltas ++ rest) blocks usage = (ChunkText <$> pieces) ++ parse_events D rest blocks usage.
Proof.
  intros H Hi. induction H as [|piece e pieces deltas [He [j Hd]] _ IH]; [done|].
  cbn [app parse_events fmap list_fmap]. rewrite He. cbn [go_switch]. rewrite decide_False, decide_True by done.
  rewrite Hd, Hi. cbn [go_switch]. rewrite decide_True by done. f_equal. exact IH.
Qed.

Lemma parse_json pieces deltas i type bid bname json rest blocks usage :
  Forall2 (json_piece i) pieces deltas -> blocks !! i = Some (mkBlock type bid bname json) ->
  parse_events D (deltas ++ rest) blocks usage
  = parse_events D rest (<[i := mkBlock type bid bname (json +:+ String.concat "" pieces)]> blocks) usage.
Proof.
  intros H. revert json blocks. induction H as [|piece e pieces deltas [He [t Hd]] _ IH]; intros json blocks Hi.
  - cbn [app String.concat]. by rewrite string_app_nil, insert_id.
  - cbn [app parse_events]. rewrite He. cbn [go_switch]. rewrite decide_False, decide_True by done.
    rewrite Hd, Hi. cbn [go_switch blockType id name inputJSON]. rewrite decide_False, decide_True by done.
    rewrite (IH (json +:+ piece)) by apply lookup_insert_eq. rewrite insert_insert_eq, concat_cons.
    by rewrite string_app_assoc.
Qed.

Lemma parse_block i blk evs rest blocks usage : block_events i blk evs -> blocks !! i = None ->
  parse_events D (evs ++ rest) blocks usage = block_chunks blk ++ parse_events D rest blocks usage.
Proof.
  intros (first & deltas & last & -> & [Hs1 Hs2] & H) Hi. cbn [app]. rewrite <- app_assoc. cbn [app].
  assert (forall type bid bname json blocks', blocks' !! i = Some (mkBlock type bid bname json) -> delete i blocks' = blocks ->
    parse_events D (last :: rest) blocks' usage
    = (if decide (type = "tool_use") then [ChunkToolUse (Some (mkCall bid bname (tool_input D json)))] else []) ++ parse_events D rest blocks usage) as Hstop.
  { intros type bid bname json blocks' Hb Hdel. cbn [parse_events]. rewrite Hs1. cbn [go_switch].
    rewrite !decide_False, decide_True by done. rewrite Hs2, Hb, Hdel. done. }
  assert (forall type bid bname, starts i type bid bname first -> forall l,
    parse_events D (first :: l) blocks usage = parse_events D l (<[i := mkBlock type bid bname ""]> blocks) usage) as Hstart.
  { intros type bid bname [He Hd] l. cbn [parse_events]. rewrite He. cbn [go_switch]. rewrite decide_True by done. by rewrite Hd. }
  destruct blk as [pieces|bid bname pieces]; destruct H as [Hf Hp].
  - rewrite (Hstart _ _ _ Hf). rewrite (parse_text _ _ _ _ _ _ _ _ _ _ Hp (lookup_insert_eq _ _ _)).
    rewrite (Hstop _ _ _ _ _ (lookup_insert_eq _ _ _)) by by apply delete_insert_id. done.
  - rewrite (Hstart _ _ _ Hf). rewrite (parse_json _ _ _ _ _ _ _ _ _ _ Hp (lookup_insert_eq _ _ _)), insert_insert_eq.
    rewrite (Hstop _ _ _ _ _ (lookup_insert_eq _ _ _)) by by apply delete_insert_id. done.
Qed.

Lemma parse_blocks i blks evs rest usage : message_blocks i blks evs ->
  parse_events D (evs ++ rest) ∅ usage = concat (block_chunks <$> blks) ++ parse_events D rest ∅ usage.
Proof.
  induction 1 as [|i blk blks evs evs' Hb _ IH]; [done|]. rewrite <- app_assoc, (parse_block i blk) by done.
  rewrite IH. cbn [fmap list_fmap concat]. by rewrite <- app_assoc.
Qed.

Lemma parse_message_start e n rest blocks usage : Sse.Event e = "message_start" -> message_start D (Sse.Data e) = Some n ->
  parse_events D (e :: rest) blocks usage = parse_events D rest blocks (mkUsage (wrap64 (InputTokens usage + n)) (OutputTokens usage)).
Proof. intros He Hn. cbn [parse_events]. rewrite He. cbn [go_switch]. rewrite !decide_False, decide_True by done. by rewrite Hn. Qed.

Lemma parse_message_delta e n rest blocks usage : Sse.Event e = "message_delta" -> message_delta D (Sse.Data e) = Some n ->
  parse_events D (e :: rest) blocks usage = parse_events D rest blocks (mkUsage (InputTokens usage) (wrap64 (OutputTokens usage + n))).
Proof. intros He Hn. cbn [parse_events]. rewrite He. cbn [go_switch]. rewrite !decide_False, decide_True by done. by rewrite Hn. Qed.

Lemma parse_message_stop e rest blocks usage : Sse.Event e = "message_stop" ->
  parse_events D (e :: rest) blocks usage = [ChunkDone (final_usage usage)].
Proof. intros He. cbn [parse_events]. rewrite He. cbn [go_switch]. by rewrite !decide_False, decide_True by done. Qed.

(** What the conversation collects from the chunks of blocks. *)
Definition gather (blk : Block) (t : Collected) : Collected :=
  mkCollected (text t +:+ block_text blk) (toolCalls t ++ block_call blk)
    (hadToolUse t || match blk with BTool _ _ _ => true | _ => false end) (turnUsage t).

Lemma collect_text (room : nat -> bool) pieces rest t c : exists c',
  collect room (((false,.) <$> (ChunkText <$> pieces)) ++ rest) t c
  = collect room rest (mkCollected (text t +:+ String.concat "" pieces) (toolCalls t) (hadToolUse t) (turnUsage t)) c' /\ core c' = core c.
Proof.
  revert t c. induction pieces as [|p pieces IH]; intros t c.
  - exists c. cbn. rewrite string_app_nil. by destruct t.
  - cbn [fmap list_fmap app collect]. edestruct IH as (c' & Hc & Hcore). exists c'. split; [etransitivity; [exact Hc|]|].
    + cbn [text toolCalls hadToolUse turnUsage]. by rewrite concat_cons, string_app_assoc.
    + by rewrite Hcore, emit_core.
Qed.

Lemma collect_block (room : nat -> bool) blk rest t c : exists c',
  collect room (((false,.) <$> block_chunks blk) ++ rest) t c = collect room rest (gather blk t) c' /\ core c' = core c.
Proof.
  destruct blk as [pieces|bid bname pieces].
  - destruct (collect_text room pieces rest t c) as (c' & Hc & Hcore). exists c'. split; [|done]. cbn [block_chunks].
    rewrite Hc. unfold gather. cbn [block_text block_call]. by rewrite app_nil_r, orb_false_r.
  - cbn [block_chunks fmap list_fmap app collect]. eexists. split; [|apply emit_core]. unfold gather.
    cbn [block_text block_call]. by rewrite string_app_nil, orb_true_r.
Qed.

Definition is_tool (blk : Block) : bool := match blk with BTool _ _ _ => true | _ => false end.

Lemma collect_blocks (room : nat -> bool) blks rest t c : exists c',
  collect room (((false,.) <$> concat (block_chunks <$> blks)) ++ rest) t c
  = collect room rest (mkCollected (text t +:+ String.concat "" (block_text <$> blks)) (toolCalls t ++ concat (block_call <$> blks))
      (hadToolUse t || existsb is_tool blks) (turnUsage t)) c' /\ core c' = core c.
Proof.
  revert t c. induction blks as [|blk blks IH]; intros t c.
  - exists c. cbn. rewrite string_app_nil, app_nil_r, orb_false_r. by destruct t.
  - cbn [fmap list_fmap concat existsb]. rewrite fmap_app, <- app_assoc.
    destruct (collect_block room blk (((false,.) <$> concat (block_chunks <$> blks)) ++ rest) t c) as (c1 & Hc1 & Hcore1).
    destruct (IH (gather blk t) c1) as (c2 & Hc2 & Hcore2). exists c2. split; [|congruence].
    etransitivity; [exact Hc1|]. etransitivity; [exact Hc2|]. unfold gather. cbn [text toolCalls hadToolUse turnUsage].
    change (list_fmap _ _ block_text blks) with (block_text <$> blks). by rewrite concat_cons, string_app_assoc, <- app_assoc, <- orb_assoc.
Qed.

End writing.

(** ** Theorems *)

(** the stream of chunks ends once: texts and tool calls, then that the message
    is done or an error, and nothing after it, whatever the server sends. *)
Theorem chunks_end_once D canceled body :
  exists chunks last, ParseStream D canceled body = chunks ++ [last] /\
    Forall (fun c => match c with ChunkText _ | ChunkToolUse (Some _) => True | _ => False end) chunks /\
    match last with ChunkDone _ | ChunkError _ => True | _ => False end.
Proof.
  set (ok := fun cs : list Chunk => exists chunks last, cs = chunks ++ [last] /\
    Forall (fun c => match c with ChunkText _ | ChunkToolUse (Some _) => True | _ => False end) chunks /\
    match last with ChunkDone _ | ChunkError _ => True | _ => False end).
  assert (forall c, match c with ChunkDone _ | ChunkError _ => True | _ => False end -> ok [c]) as Hlast by (intros c Hc; by exists [], c).
  assert (forall c cs, match c with ChunkText _ | ChunkToolUse (Some _) => True | _ => False end -> ok cs -> ok (c :: cs)) as Hcons.
  { intros c cs Hc (chunks & last & -> & Hf & Hl). exists (c :: chunks), last. split_and!; [done|by constructor|done]. }
  change (ok (ParseStream D canceled body)). unfold ParseStream. generalize (mkUsage 0 0), (∅ : gmap Z contentBlock).
  induction (Sse.ParseSSE canceled body) as [|sse evs IH]; intros usage blocks; [by apply Hlast|]. cbn [parse_events].
  apply (go_switch_ind ok); [apply IH|].
  repeat (apply Forall_cons_2; [cbn [fst snd]; intros _|]); [..|apply Forall_nil_2].
  - destruct (block_start _ _) as [[[[? ?] ?] ?]|]; apply IH.
  - destruct (block_delta _ _) as [[[[? ?] ?] ?]|]; [|apply IH]. destruct (blocks !! _); [|apply IH].
    apply (go_switch_ind ok); [apply IH|]. repeat (apply Forall_cons_2; [cbn [fst snd]; intros _|]); [..|apply Forall_nil_2]; [by apply Hcons|apply IH].
  - destruct (block_stop _ _); [|apply IH]. destruct (blocks !! _); [|apply IH]. destruct (decide _); [by apply Hcons|apply IH].
  - by apply Hlast.
  - by apply Hlast.
  - destruct (message_start _ _); apply IH.
  - destruct (message_delta _ _); apply IH.
Qed.

(** a message that a server writes is the message the conversation collects:
    the text of all its blocks joined, its tool calls in order with their inputs
    decoded from all their pieces, and its usage. *)
Theorem message_collected D room blks u evs c :
  message_events D blks u evs -> Forall Sse.printable evs -> (0 < InputTokens u < 2 ^ 63)%Z -> (0 <= OutputTokens u < 2 ^ 63)%Z ->
  exists c', collect room ((false,.) <$> ParseStream D Sse.never (Sse.print_events evs)) nothing_collected c
    = inr (mkCollected (String.concat "" (block_text <$> blks)) (concat (block_call D <$> blks)) (existsb is_tool blks) (Some u), c') /\
    core c' = core c.
Proof.
  intros (first & body & delta & last & -> & Hf & Hfd & Hb & Hd & Hdd & Hl) Hp Hi Ho. unfold ParseStream.
  rewrite Sse.sse_roundtrip_inv by done. rewrite (parse_message_start _ _ _ _ _ _ Hf Hfd), (parse_blocks D 0 blks) by done.
  rewrite (parse_message_delta _ _ _ _ _ _ Hd Hdd), parse_message_stop by done. cbn [InputTokens OutputTokens].
  rewrite !Z.add_0_l, !wrap64_id by lia.
  unfold final_usage. cbn [InputTokens OutputTokens]. rewrite decide_True by lia. rewrite fmap_app.
  destruct (collect_blocks D room blks ((false,.) <$> [ChunkDone (Some (mkUsage (InputTokens u) (OutputTokens u)))]) nothing_collected c) as (c' & Hc & Hcore).
  exists c'. split; [|done]. etransitivity; [exact Hc|]. cbn. by destruct u.
Qed.

(** Decoders of a language of their own, and a message in it. *)
Definition demo_decoders : Decoders := {|
  block_start s := if decide (s = "text 0") then Some (0%Z, "text", "", "") else
                   if decide (s = "tool 1") then Some (1%Z, "tool_use", "t1", "Read") else None;
  block_delta s := if decide (s = "1 {}") then Some (1%Z, "input_json_delta", "", "{}") else Some (0%Z, "text_delta", s, "");
  block_stop s := if decide (s = "0") then Some 0%Z else Some 1%Z;
  error_message _ := None;
  message_start _ := Some 7%Z;
  message_delta _ := Some 3%Z;
  decode_input s := if decide (s = "{}") then Some {["path" := AString "f"]} else None
|}.

Definition demo_events : list Sse.SSEEvent :=
  [Sse.mkSSE "message_start" ""; Sse.mkSSE "content_block_start" "text 0"; Sse.mkSSE "content_block_delta" "I read ";
   Sse.mkSSE "content_block_delta" "f."; Sse.mkSSE "content_block_stop" "0"; Sse.mkSSE "content_block_start" "tool 1";
   Sse.mkSSE "content_block_delta" "1 {}"; Sse.mkSSE "content_block_stop" "1"; Sse.mkSSE "message_delta" ""; Sse.mkSSE "message_stop" ""].

Definition demo_blocks : list Block := [BText ["I read "; "f."]; BTool "t1" "Read" ["{}"]].

Lemma message_collected_witness : exists c',
  collect (fun _ => true) ((false,.) <$> ParseStream demo_decoders Sse.never (Sse.print_events demo_events)) nothing_collected
    (mkConv ∅ [] [] 0 0 0 [] 0)
  = inr (mkCollected "I read f." [mkCall "t1" "Read" {["path" := AString "f"]}] true (Some (mkUsage 7 3)), c').
Proof.
  destruct (message_collected demo_decoders (fun _ => true) demo_blocks (mkUsage 7 3) demo_events (mkConv ∅ [] [] 0 0 0 [] 0)) as (c' & Hc & _).
  - eexists _, (take 7 (drop 1 demo_events)), _, _. split; [reflexivity|]. split_and!; [done..| |done|done|done].
    change (take 7 (drop 1 demo_events)) with (take 4 (drop 1 demo_events) ++ (take 3 (drop 5 demo_events) ++ [])).
    constructor; [|constructor; [|constructor]].
    + eexists _, (take 2 (drop 2 demo_events)), _. split; [reflexivity|]. split; [done|]. split; [done|].
      repeat constructor; by eexists.
    + eexists _, (take 1 (drop 6 demo_events)), _. split; [reflexivity|]. split; [done|]. split; [done|].
      repeat constructor; by eexists.
  - repeat constructor.
  - done.
  - done.
  - exists c'. exact Hc.
Defined.

(** ** Requests *)

(** An API message that answers a call. *)
Definition api_answers (tc : ToolCall) (m : ApiMessage) : Prop :=
  role m = "user" /\ exists r, content m = AList [tool_result_block r] /\ ToolCallID r = tc_ID tc.

(** The model's message with the results of its calls. *)
Inductive api_block : list ApiMessage -> Prop :=
| api_text txt : api_block [mkApi "assistant" (AString txt)]
| api_calls txt calls results :
    calls <> [] -> Forall2 api_answers calls results ->
    api_block (mkApi "assistant" (AList ((if decide (txt = "") then [] else [text_block txt]) ++ (tool_use_block <$> calls))) :: results).

Lemma split_plain system ms : Forall (fun m => m_Role m <> RoleSystem) ms -> split_messages system ms = (system, convertMessage <$> ms).
Proof. induction 1 as [|m ms Hm _ IH]; [done|]. cbn [split_messages]. rewrite decide_False by done. by rewrite IH. Qed.

Lemma answers_api tc m : answers tc m -> api_answers tc (convertMessage m) /\ m_Role m <> RoleSystem.
Proof.
  intros (Hr & Hc & r & Hres & Hid). split; [|congruence]. unfold convertMessage. rewrite Hr, Hres.
  rewrite decide_False by (by intros []). rewrite decide_True by done. split; [done|]. by exists r.
Qed.

Lemma block_api blk : block blk -> api_block (convertMessage <$> blk) /\ Forall (fun m => m_Role m <> RoleSystem) blk.
Proof.
  intros [txt calls results H]. split.
  - cbn [fmap list_fmap]. unfold convertMessage at 1. cbn [m_Role m_ToolCalls m_Content m_ToolResult]. destruct calls as [|tc calls].
    + inversion H; subst. rewrite decide_False by (by intros []). constructor.
    + rewrite decide_True by done. apply (api_calls txt (tc :: calls)); [done|].
      induction H as [|tc' m calls' ms Ha _ IH]; cbn [fmap list_fmap]; constructor; [by apply answers_api|exact IH].
  - constructor; [done|]. induction H as [|tc m calls' ms Ha _ IH]; constructor; [by apply (answers_api tc)|exact IH].
Qed.

(** C31: every request of a conversation carries one system prompt, the task as the
    first message, and the model's messages, in each of which every tool call is
    answered, in order, by one result under the call's identifier. *)
Theorem api_requests_answered b os ask interrupted room dsp d prompt :
  Forall (fun ms => exists system blocks,
    split_messages "" ms = (system, mkApi "user" (AString prompt) :: concat blocks) /\
    system = (if decide (SystemPrompt (config b) = "") then dsp (c_WorkDir (config b)) else SystemPrompt (config b)) /\
    Forall api_block blocks)
  (asked (conv_of (conversationLoop b os ask interrupted room dsp d prompt))).
Proof.
  destruct (requests_answered b os ask interrupted room dsp d prompt) as [H _]. eapply Forall_impl; [exact H|]. clear H.
  intros ms (blocks & -> & Hb). unfold first_messages. cbn [app split_messages m_Role m_Content]. rewrite decide_True, decide_False by done.
  set (system := if decide _ then _ else _). rewrite split_plain.
  - exists system, ((fun blk : list Message => convertMessage <$> blk) <$> blocks). split_and!; [|done|].
    + cbn. do 2 f_equal. clear Hb. induction blocks as [|blk blocks IH]; [done|]. cbn [concat fmap list_fmap]. rewrite fmap_app. f_equal. exact IH.
    + apply Forall_fmap. eapply Forall_impl; [exact Hb|]. intros blk Hblk. by apply block_api.
  - induction Hb as [|blk blocks Hblk _ IH]; [constructor|]. cbn [concat]. apply Forall_app. split; [by apply block_api|exact IH].
Qed.

(** ** What goes wrong *)

(** A connection that breaks in the middle of an answer gives a message that is done. *)
Lemma broken_connection_is_done :
  ParseStream demo_decoders Sse.never (Sse.print_events (take 3 demo_events)) = [ChunkText "I read "; ChunkDone None].
Proof. by vm_compute. Qed.

(** A tool call whose input cannot be decoded is made without any input. *)
Lemma undecoded_input_is_empty json : decode_input demo_decoders json = None -> tool_input demo_decoders json = ∅.
Proof. intros H. unfold tool_input. rewrite H. by destruct (decide _). Qed.
