(* ===== verification/Search.v ===== *)
(** * Search over tasks

    Translates internal/search/: the edit distance by dynamic programming, the similarity
    made of it and the best match over fields (fuzzy.go; text is ASCII, so that runes are
    characters); the ranking by text and by fuzzy matches, their fusion, and the
    fallback (search.go).  An item is seen through the methods of the
    interface [Searchable]; a result is an item's index with its score. *)

From S2P Require Import Prelude Floats Names Text.
From S2P Require GraphDef.

Notation char := Ascii.ascii.

(** ** The edit distance *)

(** The inner loop for the character [ca]: [diag] is [prev[j-1]], [ups] the rest of
    [prev] from [j] on, and [left] is [curr[j-1]]. *)
Fixpoint fill (ca : char) (b : list char) (diag : nat) (ups : list nat) (left_ : nat) : list nat :=
  match b, ups with
  | cb :: b, up :: ups =>
      let cost := if decide (ca = cb) then 0 else 1 in
      let del := up + 1 in
      let ins := left_ + 1 in
      let sub := diag + cost in
      let v := Nat.min del (Nat.min ins sub) in
      v :: fill ca b up ups v
  | _, _ => []
  end.

(** The row [i] from the row before it. *)
Definition next_row (i : nat) (ca : char) (b : list char) (prev : list nat) : list nat :=
  match prev with diag :: ups => i :: fill ca b diag ups i | [] => [] end.

Fixpoint rows (i : nat) (a b : list char) (prev : list nat) : list nat :=
  match a with [] => prev | ca :: a => rows (S i) a b (next_row i ca b prev) end.

Definition levenshtein (a b : list char) : nat :=
  if decide (a = []) then length b else
  if decide (b = []) then length a else
  List.last (rows 1 a b (seq 0 (S (length b)))) 0.

(** ** Similarity *)

Definition float_sub : spec_float -> spec_float -> spec_float := SFsub 53 1024.
Definition float_one : spec_float := float_of_Z 1.
Definition float_le : spec_float -> spec_float -> bool := SFleb.

Definition chars_of (s : string) : list char := String.list_ascii_of_string s.

Definition similarity (a b : string) : spec_float :=
  let al := GraphDef.to_lower a in
  let bl := GraphDef.to_lower b in
  if decide (al = bl) then float_one else
  let dist := levenshtein (chars_of al) (chars_of bl) in
  let maxLen := Nat.max (String.length al) (String.length bl) in
  if decide (maxLen = 0) then float_one else
  float_sub float_one (float_div (float_of_Z (Z.of_nat dist)) (float_of_Z (Z.of_nat maxLen))).

Definition fuzzyMatch (text query : string) (threshold : spec_float) : spec_float * bool :=
  let score := similarity text query in (score, float_le threshold score).

(** [strings.Fields]: the words between spaces. *)
Fixpoint fields_from (cur s : string) : list string :=
  match s with
  | "" => if decide (cur = "") then [] else [cur]
  | String c s =>
      if is_space c then (if decide (cur = "") then [] else [cur]) ++ fields_from "" s
      else fields_from (cur +:+ String c "") s
  end.

Definition Fields (s : string) : list string := fields_from "" s.

Definition better (best s : spec_float) : spec_float := if float_lt best s then s else best.

Definition bestFuzzyMatch (query : string) (fields : list string) : spec_float :=
  let ql := GraphDef.to_lower query in
  fold_left (fun best f =>
    let fl := GraphDef.to_lower f in
    fold_left (fun best word => better best (similarity ql word)) (Fields fl) (better best (similarity ql fl)))
    fields float_zero.

Example fuzzy_examples :
  levenshtein (chars_of "kitten") (chars_of "sitting") = 3 /\ levenshtein (chars_of "") (chars_of "abc") = 3 /\
  Fields "  two  words " = ["two"; "words"] /\ similarity "ABC" "abc" = float_one /\
  similarity "abcd" "abcx" = float_dec 75 2 /\ bestFuzzyMatch "login" ["fix the Login page"; "x"] = float_one.
Proof. by vm_compute. Qed.

(** ** The distance as a recursion *)

Fixpoint lev (a b : list char) {struct a} : nat :=
  match a with
  | [] => length b
  | x :: a' =>
      (fix go b := match b with
                   | [] => length a
                   | y :: b' => Nat.min (lev a' b + 1) (Nat.min (go b' + 1) (lev a' b' + if decide (x = y) then 0 else 1))
                   end) b
  end.

Lemma lev_nil_r a : lev a [] = length a.
Proof. by destruct a. Qed.

Lemma lev_cons x a y b : lev (x :: a) (y :: b)
  = Nat.min (lev a (y :: b) + 1) (Nat.min (lev (x :: a) b + 1) (lev a b + if decide (x = y) then 0 else 1)).
Proof. reflexivity. Qed.

(** The row of a processed text [pa], reversed, against the prefixes of a text, of
    which [pb] is processed and reversed. *)
Fixpoint row (pa pb b : list char) : list nat :=
  lev pa pb :: match b with [] => [] | c :: b => row pa (c :: pb) b end.

Lemma fill_row ca pa pb b :
  lev (ca :: pa) pb :: fill ca b (lev pa pb) (tl (row pa pb b)) (lev (ca :: pa) pb) = row (ca :: pa) pb b.
Proof.
  revert pb. induction b as [|cb b IH]; intros pb; [done|]. cbn [row tl]. f_equal.
  destruct b as [|cb' b']; cbn [row]; cbn [fill]; rewrite <- lev_cons; [done|]. exact (IH (cb :: pb)).
Qed.

Lemma next_row_row ca pa b : next_row (S (length pa)) ca b (row pa [] b) = row (ca :: pa) [] b.
Proof.
  rewrite <- fill_row. change (lev (ca :: pa) []) with (S (length pa)). by destruct b.
Qed.

Lemma rows_row a pa b : rows (S (length pa)) a b (row pa [] b) = row (List.rev a ++ pa) [] b.
Proof.
  revert pa. induction a as [|ca a IH]; intros pa; [done|]. cbn [rows]. rewrite next_row_row.
  change (S (S (length pa))) with (S (length (ca :: pa))). rewrite IH. cbn [List.rev]. by rewrite <- app_assoc.
Qed.

Lemma first_row pb b : row [] pb b = seq (length pb) (S (length b)).
Proof. revert pb. induction b as [|c b IH]; intros pb; [done|]. cbn [row length seq]. f_equal. rewrite IH. done. Qed.

Lemma last_row pa pb b : List.last (row pa pb b) 0 = lev pa (List.rev b ++ pb).
Proof.
  revert pb. induction b as [|c b IH]; intros pb; [done|]. cbn [List.rev]. rewrite <- app_assoc. cbn [app].
  rewrite <- IH. by destruct b.
Qed.

(** The loops compute the recursion on the reversed texts. *)
Lemma levenshtein_lev a b : levenshtein a b = lev (List.rev a) (List.rev b).
Proof.
  unfold levenshtein. case_decide as Ha; [subst a; cbn; by rewrite length_rev|]. case_decide as Hb.
  - subst b. cbn. by rewrite lev_nil_r, length_rev.
  - pose proof (first_row [] b) as E. cbn [length] in E. rewrite <- E.
    pose proof (rows_row a [] b) as R. cbn [length] in R. rewrite R, last_row, !app_nil_r. done.
Qed.

(** ** Edits *)

(** One character inserted, deleted or replaced, anywhere. *)
Inductive edit : list char -> list char -> Prop :=
| edit_insert u c v : edit (u ++ v) (u ++ c :: v)
| edit_delete u c v : edit (u ++ c :: v) (u ++ v)
| edit_replace u c d v : edit (u ++ c :: v) (u ++ d :: v).

Inductive edits : nat -> list char -> list char -> Prop :=
| edits_done a : edits 0 a a
| edits_step n a b c : edits n a b -> edit b c -> edits (S n) a c.

Lemma edit_rev a b : edit a b -> edit (List.rev a) (List.rev b).
Proof.
  intros [u c v|u c v|u c d v]; rewrite !rev_app_distr; cbn [List.rev]; rewrite <- !app_assoc; cbn [app]; constructor.
Qed.

Lemma edits_rev n a b : edits n a b -> edits n (List.rev a) (List.rev b).
Proof. induction 1 as [|n a b c _ IH He]; [constructor|]. econstructor; [exact IH|by apply edit_rev]. Qed.

Lemma edit_cons x a b : edit a b -> edit (x :: a) (x :: b).
Proof. intros [u c v|u c v|u c d v]; [apply (edit_insert (x :: u))|apply (edit_delete (x :: u))|apply (edit_replace (x :: u))]. Qed.

Lemma edits_cons n x a b : edits n a b -> edits n (x :: a) (x :: b).
Proof. induction 1 as [|n a b c _ IH He]; [constructor|]. econstructor; [exact IH|by apply edit_cons]. Qed.

Lemma edits_app n m a b c : edits n a b -> edits m b c -> edits (m + n) a c.
Proof. intros H1 H2. induction H2 as [|m b c d _ IH He]; [done|]. cbn. econstructor; [by apply IH|exact He]. Qed.

Lemma edit_sym a b : edit a b -> edit b a.
Proof. intros [u c v|u c v|u c d v]; constructor. Qed.

Lemma edits_sym n a b : edits n a b -> edits n b a.
Proof.
  induction 1 as [|n a b c _ IH He]; [constructor|]. rewrite <- (Nat.add_1_r n).
  apply (edits_app 1 n c b a); [|done]. econstructor; [constructor|by apply edit_sym].
Qed.

(** *** As many edits as the distance are enough *)

Lemma edits_insert_all b : edits (length b) [] b.
Proof.
  induction b as [|c b IH]; [constructor|]. cbn. econstructor; [exact IH|apply (edit_insert [])].
Qed.

Lemma lev_edits a b : edits (lev a b) a b.
Proof.
  revert b. induction a as [|x a IHa]; [apply edits_insert_all|]. induction b as [|y b IHb].
  - rewrite lev_nil_r. apply edits_sym, edits_insert_all.
  - rewrite lev_cons. destruct (Nat.min_spec (lev a (y :: b) + 1) (Nat.min (lev (x :: a) b + 1) (lev a b + if decide (x = y) then 0 else 1))) as [[_ ->]|[_ ->]].
    + apply (edits_app 1 _ _ a); [|apply IHa]. econstructor; [constructor|apply (edit_delete [])].
    + destruct (Nat.min_spec (lev (x :: a) b + 1) (lev a b + if decide (x = y) then 0 else 1)) as [[_ ->]|[_ ->]].
      * rewrite Nat.add_1_r. econstructor; [exact IHb|apply (edit_insert [])].
      * destruct (decide (x = y)) as [->|]; [rewrite Nat.add_0_r; by apply edits_cons|].
        rewrite Nat.add_1_r. econstructor; [by apply edits_cons|apply (edit_replace [])].
Qed.

(** *** Fewer are not *)

(** A change of the second text that costs at most one for every first text. *)
Definition close (v v' : list char) : Prop := forall x, lev x v' <= lev x v + 1.

Lemma close_insert c v : close v (c :: v).
Proof. intros [|x a]; cbn [length]; [cbn; lia|]. rewrite lev_cons. lia. Qed.

Lemma close_delete c v : close (c :: v) v.
Proof.
  intros x. induction x as [|x a IH]; [cbn; lia|]. rewrite lev_cons.
  assert (lev (x :: a) v <= lev a v + 1) as H.
  { clear IH. destruct v as [|y v]; [rewrite !lev_nil_r; cbn; lia|]. rewrite lev_cons. lia. }
  lia.
Qed.

Lemma lev_insert_l x a v : lev (x :: a) v <= lev a v + 1.
Proof. destruct v as [|y v]; [rewrite !lev_nil_r; cbn; lia|]. rewrite lev_cons. lia. Qed.

Lemma close_replace c d v : close (c :: v) (d :: v).
Proof.
  intros x. induction x as [|x a IH]; [cbn; lia|]. rewrite !lev_cons. pose proof (lev_insert_l x a v).
  destruct (decide (x = c)), (decide (x = d)); lia.
Qed.

Lemma close_app u v v' : close v v' -> close (u ++ v) (u ++ v').
Proof.
  intros H. induction u as [|y u IHu]; [exact H|]. intros x. induction x as [|x a IHx].
  - pose proof (IHu []) as E. cbn in *. lia.
  - cbn [app] in *. rewrite !lev_cons. pose proof (IHu (x :: a)). pose proof (IHu a). lia.
Qed.

Lemma edit_close a b : edit a b -> close a b.
Proof. intros [u c v|u c v|u c d v]; apply close_app; [apply close_insert|apply close_delete|apply close_replace]. Qed.

Lemma lev_refl a : lev a a = 0.
Proof. induction a as [|x a IH]; [done|]. rewrite lev_cons, IH, decide_True by done. lia. Qed.

Lemma edits_lev n a b : edits n a b -> lev a b <= n.
Proof.
  induction 1 as [|n a b c _ IH He]; [by rewrite lev_refl|]. pose proof (edit_close _ _ He a). lia.
Qed.

Lemma levenshtein_minimal_inv a b : edits (levenshtein a b) a b /\ forall n, edits n a b -> levenshtein a b <= n.
Proof.
  rewrite levenshtein_lev. split.
  - pose proof (edits_rev _ _ _ (lev_edits (List.rev a) (List.rev b))) as H. by rewrite !rev_involutive in H.
  - intros n H. by apply edits_lev, edits_rev.
Qed.

Lemma edits_zero a b : edits 0 a b -> a = b.
Proof. by inversion 1. Qed.

(** ** Theorems *)

(** C35: the loops over rows compute the edit distance: as many single insertions,
    deletions and replacements turn one text into the other, and no fewer do. *)
Theorem levenshtein_minimal a b :
  edits (levenshtein a b) a b /\ forall n, edits n a b -> levenshtein a b <= n.
Proof. apply levenshtein_minimal_inv. Qed.

(** the distance is a metric, and at most the length of the longer text. *)
Theorem levenshtein_metric a b c :
  (levenshtein a b = 0 <-> a = b) /\ levenshtein a b = levenshtein b a /\
  levenshtein a c <= levenshtein a b + levenshtein b c /\ levenshtein a b <= Nat.max (length a) (length b).
Proof.
  destruct (levenshtein_minimal_inv a b) as [Hab Mab], (levenshtein_minimal_inv b a) as [Hba Mba],
    (levenshtein_minimal_inv b c) as [Hbc _], (levenshtein_minimal_inv a c) as [_ Mac].
  assert (forall x y, lev x y <= Nat.max (length x) (length y)) as Hmax.
  { induction x as [|x xs IH]; [cbn; lia|]. intros [|y ys]; [rewrite lev_nil_r; lia|]. rewrite lev_cons. cbn [length].
    pose proof (IH ys). case_decide; lia. }
  split_and!.
  - split; [intros E; rewrite E in Hab; by apply edits_zero|]. intros ->. pose proof (Mab 0 (edits_done b)). lia.
  - pose proof (Mab _ (edits_sym _ _ _ Hba)). pose proof (Mba _ (edits_sym _ _ _ Hab)). lia.
  - rewrite Nat.add_comm. apply Mac. by apply (edits_app _ _ _ b).
  - rewrite levenshtein_lev. pose proof (Hmax (List.rev a) (List.rev b)) as H. by rewrite !length_rev in H.
Qed.

Record Item := mkItem {
  SearchTitle : string;
  SearchDescription : string;
  SearchTags : list string;
  SearchStatus : string;
  SearchCreatedAt : Time;
  SearchPriority : Z
}.

Record Options := mkOptions {
  TextWeight : spec_float;
  FuzzyWeight : spec_float;
  BoostActive : bool;
  BoostRecent : bool;
  MinResults : Z
}.

Definition DefaultOptions : Options := mkOptions (float_dec 7 1) (float_dec 3 1) false false 3.

Definition is_zero (f : spec_float) : bool := SFeqb f float_zero.

Definition normalize (o : Options) : Options :=
  let both := is_zero (TextWeight o) && is_zero (FuzzyWeight o) in
  mkOptions (if both then float_dec 7 1 else TextWeight o) (if both then float_dec 3 1 else FuzzyWeight o)
    (BoostActive o) (BoostRecent o) (if (MinResults o <=? 0)%Z then 3%Z else MinResults o).

Definition activeStatuses : list string :=
  ["loaded"; "planning"; "planned"; "implementing"; "implemented"; "simplifying"; "optimizing"; "reviewing"].

Definition Scored : Type := nat * spec_float.

Definition sign_of (c : comparison) : Z := match c with Lt => (-1)%Z | Eq => 0%Z | Gt => 1%Z end.

(** [cmp.Compare]: NaN is less than every other number. *)
Definition cmp_float (x y : spec_float) : Z :=
  match SFcompare x y with
  | Some c => sign_of c
  | None => match x, y with S754_nan, S754_nan => 0%Z | S754_nan, _ => (-1)%Z | _, _ => 1%Z end
  end.

(** [cmp.Compare(b.score, a.score)] *)
Definition descending (a b : Scored) : Z := cmp_float b.2 a.2.

(** [age.Hours()] *)
Definition Hour : Z := 3600000000000.
Definition hours_of (age : Duration) : spec_float :=
  float_add (float_of_Z (Z.quot age Hour)) (float_div (float_of_Z (Z.rem age Hour)) (float_of_Z Hour)).

Definition rrf (weight : spec_float) (rank : nat) : spec_float :=
  float_div weight (float_add (float_of_Z 60) (float_of_Z (Z.of_nat (S rank)))).

Section search.
(** [slices.SortFunc], which may order equal elements in any way; the order in which
    a map is ranged over; [math.Log2]; and the clock. *)
Context (sort : (Scored -> Scored -> Z) -> list Scored -> list Scored).
Context (range : gmap nat spec_float -> list Scored).
Context (Log2 : spec_float -> spec_float).
Context (now : Time).

Definition applyBoosts (score : spec_float) (item : Item) (opts : Options) : spec_float :=
  let score := if BoostActive opts && bool_decide (GraphDef.to_lower (SearchStatus item) ∈ activeStatuses)
               then float_add score (float_dec 1 2) else score in
  if BoostRecent opts then
    let age := (now - SearchCreatedAt item)%Z in
    if (0 <? age)%Z then
      let hours := cap_below float_one (hours_of age) in
      float_add score (float_div (float_dec 1 2) (Log2 (float_add float_one hours)))
    else score
  else score.

Definition text_score (query : string) (item : Item) : spec_float :=
  let s := if contains query (GraphDef.to_lower (SearchTitle item)) then float_add float_zero (float_of_Z 2) else float_zero in
  let s := if contains query (GraphDef.to_lower (SearchDescription item)) then float_add s float_one else s in
  if existsb (fun tag => contains query (GraphDef.to_lower tag)) (SearchTags item) then float_add s float_one else s.

(** The indices of the items that score, best first. *)
Definition ranked (score : Item -> spec_float) (matches : spec_float -> bool) (items : list Item) : list nat :=
  fst <$> sort descending (List.filter (fun p => matches p.2) (imap (fun i item => (i, score item)) items)).

Definition textSignal (items : list Item) (query : string) : list nat :=
  ranked (text_score query) (fun s => float_lt float_zero s) items.

Definition fuzzySignal (items : list Item) (query : string) : list nat :=
  ranked (fun item => bestFuzzyMatch query (SearchTitle item :: SearchDescription item :: SearchTags item))
    (fun s => float_le (float_dec 3 1) s) items.

(** [scores[idx] += weight / (rrfK + float64(rank+1))] for every index of a ranking. *)
Definition add_ranks (weight : spec_float) (indices : list nat) (scores : gmap nat spec_float) : gmap nat spec_float :=
  fold_left (fun scores p => <[p.2 := float_add (default float_zero (scores !! p.2)) (rrf weight p.1)]> scores)
    (imap pair indices) scores.

Definition item_at (items : list Item) (i : nat) : Item := nth i items (mkItem "" "" [] "" 0%Z 0%Z).

Definition fuzzyOnlyResults (items : list Item) (fuzzyRanked : list nat) (opts : Options) : list Scored :=
  sort descending (imap (fun rank idx => (idx, applyBoosts (rrf float_one rank) (item_at items idx) opts)) fuzzyRanked).

(** By score, and the most recent first when the scores are equal. *)
Definition by_priority (items : list Item) (a b : Scored) : Z :=
  if SFeqb a.2 b.2 then
    match Z.compare (SearchCreatedAt (item_at items a.1)) (SearchCreatedAt (item_at items b.1)) with Lt => 1%Z | Gt => (-1)%Z | Eq => 0%Z end
  else descending a b.

Definition allItemsSorted (items : list Item) (opts : Options) : list Scored :=
  sort (by_priority items)
    (imap (fun i item => (i, applyBoosts (float_div (float_of_Z (SearchPriority item)) (float_of_Z 100)) item opts)) items).

Definition hybrid (items : list Item) (textRanked fuzzyRanked : list nat) (opts : Options) : list Scored :=
  let scores := add_ranks (FuzzyWeight opts) fuzzyRanked (add_ranks (TextWeight opts) textRanked ∅) in
  sort descending
    ((fun p => (p.1, applyBoosts p.2 (item_at items p.1) opts)) <$>
     List.filter (fun p => negb (float_le p.2 float_zero)) (range scores)).

Definition Search (items : list Item) (query : string) (opts : Options) : list Scored :=
  if decide (items = []) then [] else
  let opts := normalize opts in
  if decide (TrimSpace query = "") then allItemsSorted items opts else
  let ql := GraphDef.to_lower (TrimSpace query) in
  let textRanked := textSignal items ql in
  let fuzzyRanked := fuzzySignal items ql in
  let results := hybrid items textRanked fuzzyRanked opts in
  if (Z.of_nat (length results) <? MinResults opts)%Z && (0 <? length fuzzyRanked)
  then fuzzyOnlyResults items fuzzyRanked opts else results.

End search.

(** ** Lemmas *)

(** *** The comparisons are orders *)

(** A number as a triple that is compared from the left. *)
Definition key (x : spec_float) : Z * Z * Z :=
  match x with
  | S754_nan => (-3, 0, 0)
  | S754_infinity true => (-2, 0, 0)
  | S754_finite true m e => (-1, - e, - Z.pos m)
  | S754_zero _ => (0, 0, 0)
  | S754_finite false m e => (1, e, Z.pos m)
  | S754_infinity false => (2, 0, 0)
  end%Z.

Definition lex (a b : Z * Z * Z) : comparison :=
  match Z.compare a.1.1 b.1.1 with
  | Eq => match Z.compare a.1.2 b.1.2 with Eq => Z.compare a.2 b.2 | c => c end
  | c => c
  end.

Lemma cmp_float_key x y : cmp_float x y = sign_of (lex (key x) (key y)).
Proof.
  unfold cmp_float, lex. destruct x as [[]|[]| |[] m e], y as [[]|[]| |[] m' e']; try done; cbn.
  assert (forall a b, Z.compare (- a) (- b) = CompOpp (Z.compare a b)) as E.
  { intros a b. destruct (Z.compare_spec a b), (Z.compare_spec (- a) (- b)); cbn; (done || lia). }
  rewrite E. change (Z.neg m) with (- Z.pos m)%Z. change (Z.neg m') with (- Z.pos m')%Z.
  change (PosDef.Pos.compare_cont Eq m m') with (Z.compare (Z.pos m) (Z.pos m')).
  destruct (Z.compare e e'); cbn; [|done..]. by destruct (PosDef.Pos.compare_cont Eq m m').
Qed.

Definition lex_le (a b : Z * Z * Z) : Prop :=
  (a.1.1 < b.1.1 \/ a.1.1 = b.1.1 /\ (a.1.2 < b.1.2 \/ a.1.2 = b.1.2 /\ a.2 <= b.2))%Z.

Lemma lex_sign a b : (sign_of (lex a b) <= 0 <-> lex_le a b)%Z.
Proof.
  unfold lex, lex_le. destruct (Z.compare_spec a.1.1 b.1.1), (Z.compare_spec a.1.2 b.1.2), (Z.compare_spec a.2 b.2); cbn; lia.
Qed.

Lemma lex_swap a b : (0 < sign_of (lex a b) <-> sign_of (lex b a) < 0)%Z.
Proof.
  unfold lex. rewrite (Z.compare_antisym a.1.1 b.1.1), (Z.compare_antisym a.1.2 b.1.2), (Z.compare_antisym a.2 b.2).
  destruct (Z.compare a.1.1 b.1.1), (Z.compare a.1.2 b.1.2), (Z.compare a.2 b.2); cbn; lia.
Qed.

(** What [slices.SortFunc] asks of a comparison. *)
Definition weak_order {A} (cmp : A -> A -> Z) : Prop :=
  (forall a b, (0 < cmp a b <-> cmp b a < 0)%Z) /\ (forall a b c, (cmp a b <= 0 -> cmp b c <= 0 -> cmp a c <= 0)%Z).

Lemma descending_weak_order : weak_order descending.
Proof.
  unfold descending. split.
  - intros a b. rewrite !cmp_float_key. apply lex_swap.
  - intros a b c. rewrite !cmp_float_key, !lex_sign. unfold lex_le. lia.
Qed.

(** *** Lists *)

Lemma NoDup_map_filter {A B} (f : A -> B) (p : A -> bool) l : NoDup (f <$> l) -> NoDup (f <$> List.filter p l).
Proof.
  induction l as [|x l IH]; [done|]. cbn. rewrite NoDup_cons. intros [Hx Hl]. destruct (p x); [|by apply IH].
  cbn. apply NoDup_cons. split; [|by apply IH]. intros (y & E & Hy)%list_elem_of_fmap. apply Hx. apply list_elem_of_fmap.
  exists y. split; [exact E|]. apply list_elem_of_In, filter_In in Hy as [Hy _]. by apply list_elem_of_In.
Qed.

Lemma imap_fst {A B} (f : nat -> A -> B) (l : list A) : fst <$> imap (fun i x => (i, f i x)) l = seq 0 (length l).
Proof.
  apply list_eq. intros i. rewrite list_lookup_fmap, list_lookup_imap. destruct (l !! i) as [x|] eqn:E; cbn.
  - apply lookup_lt_Some in E. by rewrite lookup_seq_lt.
  - apply lookup_ge_None in E. by rewrite lookup_seq_ge.
Qed.

Section laws.
Context (sort : (Scored -> Scored -> Z) -> list Scored -> list Scored).
Context (range : gmap nat spec_float -> list Scored).
Context (Log2 : spec_float -> spec_float).
Context (now : Time).
Context (sort_perm : forall cmp l, sort cmp l ≡ₚ l).
Context (sort_ordered : forall cmp l, weak_order cmp -> Sorted (fun a b => (cmp a b <= 0)%Z) (sort cmp l)).
Context (range_perm : forall m, range m ≡ₚ map_to_list m).

Lemma ranked_NoDup score matches items : NoDup (ranked sort score matches items).
Proof. unfold ranked. rewrite sort_perm. apply NoDup_map_filter. rewrite imap_fst. apply NoDup_seq. Qed.

Lemma ranked_elem score matches items i :
  i ∈ ranked sort score matches items <-> exists item, items !! i = Some item /\ matches (score item) = true.
Proof.
  unfold ranked. rewrite sort_perm, list_elem_of_fmap. split.
  - intros ([j s] & -> & H). apply list_elem_of_In, filter_In in H as [H Hm]. apply list_elem_of_In in H.
    apply elem_of_lookup_imap in H as (k & item & [= -> ->] & Hk). by exists item.
  - intros (item & Hi & Hm). exists (i, score item). split; [done|]. apply list_elem_of_In, filter_In. split; [|done].
    apply list_elem_of_In, elem_of_lookup_imap. by exists i, item.
Qed.
Lemma add_ranks_lookup weight l m i : is_Some (add_ranks weight l m !! i) <-> i ∈ l \/ is_Some (m !! i).
Proof.
  unfold add_ranks. assert (forall (ps : list (nat * nat)) (m : gmap nat spec_float), is_Some (fold_left
    (fun scores p => <[p.2 := float_add (default float_zero (scores !! p.2)) (rrf weight p.1)]> scores) ps m !! i)
    <-> i ∈ ps.*2 \/ is_Some (m !! i)) as H.
  { induction ps as [|[r j] ps IH]; intros m'; cbn; [split; [by right|intros [H%elem_of_nil|H]; done]|].
    rewrite IH. cbn. rewrite lookup_insert_is_Some, elem_of_cons. destruct (decide (i = j)); naive_solver. }
  rewrite H. assert ((imap pair l).*2 = l) as ->; [|done].
  rewrite fmap_imap. apply list_eq. intros k. rewrite list_lookup_imap. by destruct (l !! k).
Qed.

(** The scores of the fusion. *)
Definition fusion (textRanked fuzzyRanked : list nat) (opts : Options) : gmap nat spec_float :=
  add_ranks (FuzzyWeight opts) fuzzyRanked (add_ranks (TextWeight opts) textRanked ∅).

Lemma hybrid_spec items t f opts :
  NoDup (hybrid sort range Log2 now items t f opts).*1 /\
  Sorted (fun a b => (descending a b <= 0)%Z) (hybrid sort range Log2 now items t f opts) /\
  forall i, i ∈ (hybrid sort range Log2 now items t f opts).*1 <->
    (i ∈ t \/ i ∈ f) /\ exists s, fusion t f opts !! i = Some s /\ float_le s float_zero = false.
Proof.
  unfold hybrid. fold (fusion t f opts). set (l := _ <$> List.filter _ _).
  assert (l.*1 = fst <$> List.filter (fun p => negb (float_le p.2 float_zero)) (range (fusion t f opts))) as Hl.
  { unfold l. rewrite <- list_fmap_compose. done. }
  split_and!.
  - rewrite sort_perm, Hl. apply NoDup_map_filter. rewrite range_perm. apply NoDup_fst_map_to_list.
  - apply sort_ordered, descending_weak_order.
  - intros i. rewrite sort_perm, Hl, list_elem_of_fmap. split.
    + intros ([j s] & -> & H). apply list_elem_of_In, filter_In in H as [H Hs]. apply list_elem_of_In in H.
      rewrite range_perm in H. apply elem_of_map_to_list in H. split.
      * assert (is_Some (fusion t f opts !! j)) as Hj by eauto. apply add_ranks_lookup in Hj as [Hj|Hj]; [by right|].
        apply add_ranks_lookup in Hj as [Hj|[? Hj]]; [by left|]. by rewrite lookup_empty in Hj.
      * exists s. split; [done|]. by apply negb_true_iff.
    + intros (_ & s & Hs & Hp). exists (i, s). split; [done|]. apply list_elem_of_In, filter_In. split; [|cbn; by rewrite Hp].
      apply list_elem_of_In. rewrite range_perm. by apply elem_of_map_to_list.
Qed.

Lemma fuzzyOnly_spec items f opts :
  (fuzzyOnlyResults sort Log2 now items f opts).*1 ≡ₚ f /\
  Sorted (fun a b => (descending a b <= 0)%Z) (fuzzyOnlyResults sort Log2 now items f opts).
Proof.
  unfold fuzzyOnlyResults. split; [|apply sort_ordered, descending_weak_order]. rewrite sort_perm.
  rewrite fmap_imap. apply reflexive_eq, list_eq. intros k. rewrite list_lookup_imap. by destruct (f !! k).
Qed.

(** ** Theorems *)

(** whatever the sort does with equal scores and whatever the order of the map,
    a search that is not blank gives every item at most once, by falling score.  If
    there are results enough, or no fuzzy match at all, they are items that match by
    text or by similarity, all those whose score is positive; otherwise they are
    exactly the items whose similarity reaches the threshold. *)
Theorem Search_spec items query opts :
  items <> [] -> TrimSpace query <> "" ->
  let ql := GraphDef.to_lower (TrimSpace query) in
  let t := textSignal sort items ql in
  let f := fuzzySignal sort items ql in
  let rs := Search sort range Log2 now items query opts in
  NoDup rs.*1 /\ Sorted (fun a b => (descending a b <= 0)%Z) rs /\
  ((forall i, i ∈ rs.*1 <-> (i ∈ t \/ i ∈ f) /\ exists s, fusion t f (normalize opts) !! i = Some s /\ float_le s float_zero = false) \/
   f <> [] /\ forall i, i ∈ rs.*1 <-> exists item, items !! i = Some item /\
     float_le (float_dec 3 1) (bestFuzzyMatch ql (SearchTitle item :: SearchDescription item :: SearchTags item)) = true).
Proof.
  intros Hi Hq ql t f rs. unfold rs, Search. rewrite decide_False, decide_False by done. fold ql t f.
  destruct (_ && _) eqn:Hfew.
  - assert (NoDup f) as Hf by apply ranked_NoDup. destruct (fuzzyOnly_spec items f (normalize opts)) as [Hp Hs]. rewrite Hp.
    split_and!; [done..|]. right. split.
    + apply andb_true_iff in Hfew as [_ Hfew%Nat.ltb_lt]. intros E. rewrite E in Hfew. cbn in Hfew. lia.
    + intros i. rewrite Hp. apply ranked_elem.
  - destruct (hybrid_spec items t f (normalize opts)) as (Hn & Hs & He). split_and!; [done..|]. by left.
Qed.

(** a blank query gives all items. *)
Lemma Search_blank items query opts : TrimSpace query = "" ->
  (Search sort range Log2 now items query opts).*1 ≡ₚ seq 0 (length items).
Proof.
  intros Hq. unfold Search. case_decide as Hi; [by subst|]. rewrite decide_True by done. unfold allItemsSorted.
  by rewrite sort_perm, imap_fst.
Qed.
End laws.

(** ** Runs *)

(** A sort by insertion, and the order of the keys. *)
Fixpoint insert_sorted (cmp : Scored -> Scored -> Z) (x : Scored) (l : list Scored) : list Scored :=
  match l with [] => [x] | y :: l' => if (cmp x y <=? 0)%Z then x :: l else y :: insert_sorted cmp x l' end.
Definition insertion_sort (cmp : Scored -> Scored -> Z) (l : list Scored) : list Scored := foldr (insert_sorted cmp) [] l.

Lemma insert_sorted_perm cmp x l : insert_sorted cmp x l ≡ₚ x :: l.
Proof. induction l as [|y l IH]; [done|]. cbn. destruct (_ <=? _)%Z; [done|]. rewrite IH. constructor. Qed.

Lemma insertion_sort_perm cmp l : insertion_sort cmp l ≡ₚ l.
Proof. induction l as [|x l IH]; [done|]. cbn. by rewrite insert_sorted_perm, IH. Qed.

Lemma insertion_sort_ordered cmp l : weak_order cmp -> Sorted (fun a b => (cmp a b <= 0)%Z) (insertion_sort cmp l).
Proof.
  intros [Hsw _]. induction l as [|x l IH]; [constructor|].
  change (insertion_sort cmp (x :: l)) with (insert_sorted cmp x (insertion_sort cmp l)). revert IH. generalize (insertion_sort cmp l).
  intros s Hsort. induction Hsort as [|y l' Hs IH' Hd]; [repeat constructor|].
  cbn. destruct (cmp x y <=? 0)%Z eqn:E.
  - constructor; [by constructor|]. constructor. by apply Z.leb_le.
  - constructor; [done|]. apply Z.leb_gt in E. apply Hsw in E.
    destruct l' as [|z l']; cbn; [constructor; lia|]. inversion Hd; subst. destruct (cmp x z <=? 0)%Z; constructor; lia.
Qed.

Definition demo_search : list Item -> string -> list Scored := fun items query =>
  Search insertion_sort map_to_list (fun x => x) 0%Z items query DefaultOptions.

Definition titled (title : string) : Item := mkItem title "" [] "loaded" 0%Z 0%Z.

Lemma Search_spec_witness :
  let items := [titled "fix login"; titled "login page"; titled "log in"; titled "weather"] in
  NoDup (demo_search items "login").*1 /\ Sorted (fun a b => (descending a b <= 0)%Z) (demo_search items "login").
Proof.
  intros items. destruct (Search_spec insertion_sort map_to_list (fun x => x) 0%Z insertion_sort_perm insertion_sort_ordered
    (fun m => reflexivity _) items "login" DefaultOptions) as (H1 & H2 & _); [done|done|]. by split.
Defined.

Lemma demo_search_run : (demo_search [titled "fix login"; titled "login page"; titled "log in"; titled "weather"] "login").*1 = [0; 1; 2].
Proof. by vm_compute. Qed.

(** *** What goes wrong *)

(** An item that contains the query is lost, because an item that does not is alike. *)
Lemma text_match_lost : (demo_search [titled "the gopherconference"; titled "gi"] "go").*1 = [1].
Proof. by vm_compute. Qed.
