(* ===== verification/Backup.v ===== *)
(** * Backups

    Translates internal/backup/backup.go: the archive of a directory, its manifest,
    and restoring.  An archive is the sequence of its entries as [archive/tar] writes
    and reads them; the compression is left out.  What the operating system answers is
    a parameter, and so are the JSON of the manifest and the clock. *)

From S2P Require Import Prelude Names Text Paths.
From S2P Require Executor.

Notation Rel := Executor.Rel.
Notation Dir := Executor.Dir.

(** ** Data *)

Definition CurrentBackupVersion : Z := 1.
Definition manifestName : string := ".kvelmo-backup-manifest.json".

Record Manifest := mkManifest { FormatVersion : Z; CreatedAt : string; KvelmoVersion : string }.

Record Result := mkResult { r_Path : string; r_Size : Z; r_Files : Z; r_FormatVersion : Z }.

Record BackupInfo := mkInfo { b_Name : string; b_Path : string; b_Size : Z; b_CreatedAt : string }.

Record RestoreResult := mkRestore { Target : string; Files : Z; Dirs : Z; Skipped : Z }.

#[export] Instance eta_RestoreResult : Eta RestoreResult := fun r => mkRestore (Target r) (Files r) (Dirs r) (Skipped r).

Inductive Typeflag := TypeReg | TypeDir | TypeSymlink | TypeLink | TypeOther.

#[export] Instance Typeflag_eq_dec : EqDecision Typeflag.
Proof. solve_decision. Defined.

(** An entry of an archive: its header, what can be read of it, and the error that
    reading ends with. *)
Record TarEntry := mkEntry { Name : string; Flag : Typeflag; Size : Z; Data : string; ReadErr : option string }.

(** A directory tree: a file or directory that cannot be read has the error. *)
#[local] Unset Elimination Schemes.
Inductive SNode :=
| SFile (name : string) (content : string + string)
| SDir (name : string) (entries : string + list SNode)
| SLink (name : string)
| SSocket (name : string).
#[local] Set Elimination Schemes.

Definition snode_name (n : SNode) : string :=
  match n with SFile name _ | SDir name _ | SLink name | SSocket name => name end.

Definition IsTransientFile (name : string) : bool :=
  bool_decide (Ext name = ".sock") || bool_decide (Ext name = ".lock").

Definition size_of (s : string) : Z := Z.of_nat (String.length s).

(** [filepath.Abs] *)
Definition Abs (cwd path : string) : string := if IsAbs path then Clean path else Join2 cwd path.

(** ** Creating *)

Section Create.
Context (baseDir : string).

(** The walk: the entries written, or the error. *)
Fixpoint archive (path : string) (n : SNode) : string + list TarEntry :=
  let entry (k : string -> string + list TarEntry) : string + list TarEntry :=
    if IsTransientFile path then inr [] else
    match Rel baseDir path with None => inl ("compute relative path: " +:+ path) | Some relPath => k relPath end in
  match n with
  | SLink _ => inr []
  | SSocket _ => entry (fun relPath => inl ("create tar header for " +:+ relPath +:+ ": archive/tar: sockets not supported"))
  | SFile _ content =>
      entry (fun relPath =>
        match content with
        | inl err => inl ("open " +:+ relPath +:+ ": " +:+ err)
        | inr data => inr [mkEntry relPath TypeReg (size_of data) data None]
        end)
  | SDir _ entries =>
      match entry (fun relPath => inr [mkEntry relPath TypeDir 0 "" None]) with
      | inl err => inl err
      | inr es =>
          match entries with
          | inl err => inl err
          | inr entries =>
              let rest := (fix archive_all entries :=
                 match entries with
                 | [] => inr []
                 | n :: entries =>
                     match archive (Join2 path (snode_name n)) n with
                     | inl err => inl err
                     | inr es => match archive_all entries with inl err => inl err | inr es' => inr (es ++ es') end
                     end
                 end) entries in
              match rest with inl err => inl err | inr rest => inr (es ++ rest) end
          end
      end
  end.

(** The manifest comes first. *)
Context (encode : Manifest -> string) (now version : string).

Definition written_manifest : Manifest := mkManifest CurrentBackupVersion now version.

Definition writeManifest : TarEntry :=
  mkEntry manifestName TypeReg (size_of (encode written_manifest)) (encode written_manifest) None.

(** The errors of creating, closing and measuring the file of the archive. *)
Context (os_create : string -> option string) (os_close : option string) (os_size : string -> string + Z).

(** The entries in the archive, and their count without the manifest and the
    directories. *)
Definition writeArchive (absOutput : string) (root : SNode) : string + (list TarEntry * Z) :=
  match os_create absOutput with
  | Some err => inl ("create archive: " +:+ err)
  | None =>
      match archive baseDir root with
      | inl err => inl ("walk directory: " +:+ err)
      | inr entries =>
          match os_close with
          | Some err => inl err
          | None => inr (writeManifest :: entries, Z.of_nat (length (List.filter (fun e => bool_decide (Flag e = TypeReg)) entries)))
          end
      end
  end.

(** [stamp] is the time in the name that is made up; [root] is missing when there is
    no such directory. *)
Definition Create (cwd stamp outputPath : string) (root : option SNode) : string + (list TarEntry * Result) :=
  match root with
  | None => inl ("directory does not exist: " +:+ baseDir)
  | Some root =>
      let outputPath := if decide (outputPath = "") then "kvelmo-backup-" +:+ stamp +:+ ".tar.gz" else outputPath in
      let absOutput := Abs cwd outputPath in
      match writeArchive absOutput root with
      | inl err => inl err
      | inr (entries, fileCount) =>
          match os_size absOutput with
          | inl err => inl ("stat archive: " +:+ err)
          | inr size => inr (entries, mkResult absOutput size fileCount CurrentBackupVersion)
          end
      end
  end.
End Create.

(** ** Listing *)

(** What [os.ReadDir] gives: the name, whether it is a directory, and its size and
    time unless it is gone. *)
Definition List_ (dir : string) (entries : list (string * bool * option (Z * string))) : list BackupInfo :=
  omap (fun '(name, isDir, info) =>
    if isDir || negb (has_prefix name "kvelmo-backup-") || negb (has_suffix name ".tar.gz") then None else
    match info with
    | Some (size, time) => Some (mkInfo name (Join2 dir name) size time)
    | None => None
    end) entries.

(** ** Restoring *)

Definition maxManifestSize : Z := 1048576.
Definition maxRestoreFileSize : Z := 1073741824.

(** What restoring asks the operating system to do. *)
Inductive Op :=
| MkdirAll (path : string)
| WriteFile (path : string) (perm : Z) (data : string).

Definition op_path (o : Op) : string := match o with MkdirAll path | WriteFile path _ _ => path end.

Definition restoreFilePermission (name : string) : Z :=
  if decide (Base name = ".env" \/ Ext (Base name) = ".env") then 384 else 420.

(** [io.LimitReader] *)
Definition limited (size : Z) (data : string) : string := String.substring 0 (Z.to_nat size) data.

Section Restore.
Context (decode : string -> string + Manifest).
(** The error of an operation. *)
Context (os : Op -> option string).

Definition readManifestEntry (h : TarEntry) : option string :=
  if (maxManifestSize <? Size h)%Z then Some ("backup manifest too large: " +:+ pretty (Size h) +:+ " bytes") else
  match ReadErr h with
  | Some err => Some ("read backup manifest: " +:+ err)
  | None =>
      match decode (limited (Size h) (Data h)) with
      | inl err => Some ("parse backup manifest: " +:+ err)
      | inr m =>
          if (CurrentBackupVersion <? FormatVersion m)%Z
          then Some ("backup format version " +:+ pretty (FormatVersion m) +:+ " is newer than supported version " +:+
                     pretty CurrentBackupVersion +:+ ": upgrade kvelmo")
          else None
      end
  end.

(** The operations tried, and the error. *)
Definition restoreFile (h : TarEntry) (destPath cleanName : string) : list Op * option string :=
  let parent := MkdirAll (Dir destPath) in
  match os parent with
  | Some err => ([parent], Some ("create parent dir for " +:+ cleanName +:+ ": " +:+ err))
  | None =>
      let write := WriteFile destPath (restoreFilePermission cleanName) (limited (Size h) (Data h)) in
      match os write with
      | Some err => ([parent; write], Some ("create file " +:+ cleanName +:+ ": " +:+ err))
      | None => ([parent; write], (fun err => "extract " +:+ cleanName +:+ ": " +:+ err) <$> ReadErr h)
      end
  end.

Definition skip (r : RestoreResult) : RestoreResult := r <| Skipped := (Skipped r + 1)%Z |>.

(** One entry: the operations, and the result so far or the error. *)
Definition restore_entry (absTarget : string) (r : RestoreResult) (h : TarEntry) : list Op * (string + RestoreResult) :=
  if contains ".." (Name h) then ([], inl ("unsafe path in archive: " +:+ Name h)) else
  let cleanName := Clean (Name h) in
  if decide (cleanName = manifestName) then
    if (0 <? Files r)%Z || (0 <? Dirs r)%Z then ([], inl "backup manifest must be the first archive entry") else
    ([], match readManifestEntry h with Some err => inl err | None => inr r end)
  else if IsTransientFile cleanName then ([], inr (skip r)) else
  if decide (Flag h = TypeSymlink \/ Flag h = TypeLink) then ([], inr (skip r)) else
  if (maxRestoreFileSize <? Size h)%Z then ([], inr (skip r)) else
  let destPath := Join2 absTarget cleanName in
  match Flag h with
  | TypeDir =>
      ([MkdirAll destPath],
       match os (MkdirAll destPath) with
       | Some err => inl ("create directory " +:+ cleanName +:+ ": " +:+ err)
       | None => inr (r <| Dirs := (Dirs r + 1)%Z |>)
       end)
  | TypeReg =>
      let '(ops, err) := restoreFile h destPath cleanName in
      (ops, match err with Some err => inl err | None => inr (r <| Files := (Files r + 1)%Z |>) end)
  | _ => ([], inr (skip r))
  end.

(** The entries, and the error that the stream ends with. *)
Fixpoint restore_entries (absTarget : string) (r : RestoreResult) (hs : list TarEntry) (end_ : option string) : list Op * (string + RestoreResult) :=
  match hs with
  | [] => ([], match end_ with Some err => inl ("read tar entry: " +:+ err) | None => inr r end)
  | h :: hs =>
      match restore_entry absTarget r h with
      | (ops, inl err) => (ops, inl err)
      | (ops, inr r) => let '(ops', res) := restore_entries absTarget r hs end_ in (ops ++ ops', res)
      end
  end.

(** The archive is opened already. *)
Definition Restore (cwd targetDir : string) (hs : list TarEntry) (end_ : option string) : list Op * (string + RestoreResult) :=
  let absTarget := Abs cwd targetDir in restore_entries absTarget (mkRestore absTarget 0 0 0) hs end_.
End Restore.

(** ** Paths in an archive *)

(** The components of a path that are not empty and not the current directory. *)
Definition proper (p : string) : bool := negb (bool_decide (p = "")) && negb (bool_decide (p = ".")).
Definition comps (path : string) : list string := List.filter proper (Split slash path).

Lemma proper_steps rooted ps out : Forall (fun p => p <> "..") ps ->
  fold_left (clean_step rooted) ps out = List.rev (List.filter proper ps) ++ out.
Proof.
  intros H. revert out. induction H as [|p ps Hp _ IH]; intros out; [done|]. cbn [fold_left List.filter].
  rewrite IH. unfold clean_step, proper. destruct (decide (p = "" \/ p = ".")) as [Hd|Hd].
  - assert (negb (bool_decide (p = "")) && negb (bool_decide (p = ".")) = false) as -> by (destruct Hd as [->| ->]; by vm_compute). done.
  - rewrite decide_False by done. rewrite !bool_decide_false by (intros ->; apply Hd; auto). cbn [negb andb List.rev]. by rewrite <- app_assoc.
Qed.

Lemma filter_proper ps : Forall name_part ps -> List.filter proper ps = ps.
Proof.
  induction 1 as [|p ps (H1 & H2 & _) _ IH]; [done|]. cbn [List.filter]. unfold proper at 1.
  by rewrite !bool_decide_false, IH by done.
Qed.

Lemma IsAbs_app a t : a <> "" -> IsAbs (a +:+ t) = IsAbs a.
Proof.
  destruct a as [|c a]; [done|]. intros _. unfold IsAbs, has_prefix. rewrite string_app_cons. cbn [String.prefix].
  destruct (Ascii.ascii_dec _ _); [|done]. by destruct (a +:+ t), a.
Qed.

(** Joining appends the components. *)
Lemma parts_of_join a b : a <> "" -> b <> "" -> Forall (fun p => p <> "..") (Split slash b) ->
  parts_of (Join2 a b) = parts_of a ++ comps b /\ IsAbs (Join2 a b) = IsAbs a.
Proof.
  intros Ha Hb Hp. unfold Join2. rewrite decide_False, decide_False by done. rewrite parts_of_Clean, IsAbs_Clean.
  assert (IsAbs (a +:+ "/" +:+ b) = IsAbs a) as E by (by apply IsAbs_app). split; [|done]. unfold parts_of. rewrite E.
  change (a +:+ "/" +:+ b) with (a +:+ String slash b). rewrite split_app. unfold clean_parts, comps.
  rewrite fold_left_app, proper_steps by done. by rewrite rev_app_distr, rev_involutive.
Qed.

Lemma contains_part sub d s p : p ∈ Split d s -> contains sub p = true -> contains sub s = true.
Proof.
  intros Hp Hc. rewrite <- (join_split d s). apply list_elem_of_split in Hp as (l1 & l2 & ->).
  assert (exists a b, join_with (String d "") (l1 ++ p :: l2) = a +:+ (p +:+ b)) as (a & b & ->).
  { destruct (decide (l1 = [])) as [->|H1].
    - exists "". destruct l2 as [|q l2]; [exists ""; cbn; by rewrite string_app_nil|].
      exists (String d "" +:+ join_with (String d "") (q :: l2)). done.
    - rewrite join_with_app by done. rewrite <- string_app_assoc. exists (join_with (String d "") l1 +:+ String d "").
      destruct l2 as [|q l2]; [exists ""; cbn; by rewrite string_app_nil|].
      exists (String d "" +:+ join_with (String d "") (q :: l2)). done. }
  destruct (contains sub (a +:+ (p +:+ b))) eqn:E; [done|]. apply contains_app in E as [_ E]. apply contains_app in E as [E _].
  congruence.
Qed.

(** A name without two dots in a row has no parents among its components. *)
Lemma no_dots_parts name : contains ".." name = false -> Forall (fun p => p <> "..") (Split slash name).
Proof.
  intros H. apply Forall_forall. intros p Hp ->. by rewrite (contains_part ".." slash name "..") in H.
Qed.

(** Absolute cleaned paths. *)
Definition clean_abs (path : string) : Prop := IsAbs path = true /\ Clean path = path.

Lemma clean_abs_names path : clean_abs path -> Forall name_part (parts_of path).
Proof. intros [H _]. apply clean_form_names. rewrite <- H. apply parts_of_form. Qed.

Definition slots (ps : list string) : list string := match ps with [] => [""] | _ => ps end.

Lemma clean_abs_split path : clean_abs path -> Split slash path = "" :: slots (parts_of path).
Proof.
  intros [H1 H2]. rewrite <- H2 at 1. unfold Clean, slots. rewrite H1, split_of_parts; [by destruct (parts_of path)|].
  rewrite <- H1. apply parts_of_form.
Qed.

Lemma clean_abs_ne path : clean_abs path -> path <> "".
Proof. by intros [H _] ->. Qed.

Lemma join_clean_abs a b : clean_abs a -> b <> "" -> Forall (fun p => p <> "..") (Split slash b) ->
  clean_abs (Join2 a b) /\ parts_of (Join2 a b) = parts_of a ++ comps b.
Proof.
  intros Ha Hb Hp. destruct (parts_of_join a b) as [E1 E2]; [by apply clean_abs_ne|assumption..|]. split; [|exact E1].
  split; [rewrite E2; apply Ha|]. unfold Join2. rewrite decide_False, decide_False by first [assumption|by apply clean_abs_ne].
  apply Clean_idem.
Qed.

Lemma contains_slash path : IsAbs path = true -> contains "/" path = true.
Proof. unfold IsAbs, has_prefix. intros H. destruct path; [done|]. cbn [contains]. by rewrite H. Qed.

Lemma clean_form_nil rooted : clean_form rooted [].
Proof. by exists 0, []. Qed.

(** The parent of a path has the components but the last one. *)
Lemma parts_of_Dir path : clean_abs path -> parts_of (Dir path) = removelast (parts_of path) /\ clean_abs (Dir path).
Proof.
  intros Hc. pose proof (clean_abs_names path Hc) as Hn. unfold Dir. rewrite (clean_abs_split path Hc), contains_slash by apply Hc.
  set (ps := parts_of path) in *.
  assert (take (length ("" :: slots ps) - 1) ("" :: slots ps) = "" :: removelast ps) as ->.
  { rewrite Nat.sub_1_r, <- removelast_firstn_len. by destruct ps as [|p ps]. }
  assert (Forall name_part (removelast ps)) as Hr.
  { destruct (decide (ps = [])) as [->|Hne]; [done|]. rewrite (app_removelast_last "" Hne) in Hn. by apply Forall_app in Hn as [Hn _]. }
  set (x := join_with "/" ("" :: removelast ps) +:+ "/").
  assert (Split slash x = ("" :: removelast ps) ++ [""]) as Es.
  { unfold x. change (?j +:+ "/") with (j +:+ String slash ""). rewrite split_app. f_equal. apply (split_join slash); [done|].
    constructor; [done|]. eapply Forall_impl; [exact Hr|]. by intros p (_ & _ & _ & ?). }
  assert (IsAbs x = true) as Ea.
  { unfold x. destruct (removelast ps) as [|q qs]; [done|]. by apply (IsAbs_app "/" (join_with "/" (q :: qs) +:+ "/")). }
  assert (parts_of x = removelast ps) as Ep.
  { unfold parts_of, clean_parts. rewrite Ea, Es, proper_steps.
    - rewrite app_nil_r, rev_involutive, List.filter_app. cbn. by rewrite app_nil_r, filter_proper.
    - constructor; [done|]. apply Forall_app. split; [|by constructor]. eapply Forall_impl; [exact Hr|]. by intros p (_ & _ & ? & _). }
  rewrite parts_of_Clean, Ep. split; [done|]. split; [by rewrite IsAbs_Clean|apply Clean_idem].
Qed.

(** ** What restoring touches *)

(** A file below the target, or a directory below it or on the way to it. *)
Definition contained (target : string) (o : Op) : Prop :=
  match o with
  | WriteFile path _ _ => under target path
  | MkdirAll path => under target path \/ under path target
  end.

Lemma Clean_ne path : Clean path <> "".
Proof.
  intros E. pose proof (parts_of_form path) as F. unfold Clean in E. destruct (IsAbs path); [done|].
  apply clean_form_nonempty in F. cbn [of_parts] in E. destruct (parts_of path) as [|p ps]; [done|].
  apply Forall_cons in F as [[Hp _] _]. destruct p; [done|]. by destruct ps.
Qed.

Lemma Abs_clean cwd path : IsAbs cwd = true -> clean_abs (Abs cwd path).
Proof.
  intros H. unfold Abs. destruct (IsAbs path) eqn:E; [split; [by rewrite IsAbs_Clean|apply Clean_idem]|].
  unfold Join2. rewrite decide_False by (by intros ->).
  case_decide; split; rewrite ?IsAbs_Clean, ?Clean_idem; try done.
  rewrite IsAbs_app; [done|]. by intros ->.
Qed.

(** The path of a name in an archive. *)
Lemma dest_path T name : clean_abs T -> contains ".." name = false ->
  clean_abs (Join2 T (Clean name)) /\ exists rest, parts_of (Join2 T (Clean name)) = parts_of T ++ rest /\ Forall name_part rest.
Proof.
  intros HT Hn. assert (Forall (fun p => p <> "..") (Split slash (Clean name))) as Hp.
  { pose proof (no_dots_parts name Hn) as Hd. unfold Clean. rewrite split_of_parts by apply parts_of_form.
    unfold parts_of, clean_parts. rewrite proper_steps, app_nil_r, rev_involutive by done.
    apply Forall_app. split; [by destruct (IsAbs name); repeat constructor|].
    destruct (List.filter proper _) eqn:E; [by destruct (IsAbs name); repeat constructor|]. rewrite <- E.
    apply Forall_forall. intros p [Hin _]%list_elem_of_In%filter_In. rewrite Forall_forall in Hd. by apply Hd, list_elem_of_In. }
  destruct (join_clean_abs T (Clean name)) as [Hc He]; [done|apply Clean_ne|done|]. split; [done|].
  exists (comps (Clean name)). split; [done|]. pose proof (clean_abs_names _ Hc) as Hf. rewrite He in Hf. by apply Forall_app in Hf as [_ Hf].
Qed.

Lemma contained_parent T path rest : clean_abs T -> clean_abs path -> parts_of path = parts_of T ++ rest -> Forall name_part rest ->
  contained T (MkdirAll (Dir path)).
Proof.
  intros HT Hp He Hr. destruct (parts_of_Dir path Hp) as [Hd [Ha _]]. destruct HT as [HTa HTc]. cbn. destruct (decide (rest = [])) as [->|Hne].
  - right. split; [congruence|]. rewrite Hd, He, app_nil_r. destruct (decide (parts_of T = [])) as [->|Hne]; [by exists []|].
    exists [List.last (parts_of T) ""]. pose proof (app_removelast_last "" Hne) as E. split; [done|].
    pose proof (clean_abs_names T (conj HTa HTc)) as Hn. rewrite E in Hn. by apply Forall_app in Hn as [_ Hn].
  - left. split; [congruence|]. rewrite Hd, He, removelast_app by done. exists (removelast rest). split; [done|].
    rewrite (app_removelast_last "" Hne) in Hr. by apply Forall_app in Hr as [Hr _].
Qed.

Lemma entry_contained decode os T r h : clean_abs T -> Forall (contained T) (restore_entry decode os T r h).1.
Proof.
  intros HT. unfold restore_entry. destruct (contains ".." (Name h)) eqn:Hn; [by constructor|].
  destruct (dest_path T (Name h) HT Hn) as (Hc & rest & He & Hr). pose proof (contained_parent T _ rest HT Hc He Hr) as Hparent.
  assert (under T (Join2 T (Clean (Name h)))) as Hu.
  { split; [destruct HT, Hc; congruence|]. by exists rest. }
  assert (Forall (contained T) (restoreFile os h (Join2 T (Clean (Name h))) (Clean (Name h))).1) as Hf.
  { unfold restoreFile. case_match; cbn [fst]; [by apply Forall_singleton|].
    case_match; (constructor; [exact Hparent|by apply Forall_singleton]). }
  repeat case_decide; try by (repeat case_match; constructor). case_match; [by constructor|].
  case_match; [by constructor|]. destruct (Flag h); try by constructor.
  - by destruct (restoreFile _ _ _ _).
  - apply Forall_singleton. by left.
Qed.

Lemma entries_contained decode os T hs end_ : clean_abs T -> forall r, Forall (contained T) (restore_entries decode os T r hs end_).1.
Proof.
  intros HT. induction hs as [|h hs IH]; intros r; cbn [restore_entries]; [by constructor|].
  pose proof (entry_contained decode os T r h HT) as He. destruct (restore_entry decode os T r h) as [ops [err|r']]; [done|].
  specialize (IH r'). destruct (restore_entries decode os T r' hs end_). apply Forall_app. by split.
Qed.

(** ** A file system *)

(** Below the root, by components. *)
Inductive FNode := FDir | FFile (perm : Z) (content : string).
Notation FS := (gmap (list string) FNode).

(** [os.MkdirAll], from [done] on. *)
Fixpoint mkdirs (done rest : list string) (fs : FS) : option FS :=
  match rest with
  | [] => Some fs
  | p :: rest =>
      let d := done ++ [p] in
      match fs !! d with
      | Some (FFile _ _) => None
      | Some FDir => mkdirs d rest fs
      | None => mkdirs d rest (<[d := FDir]> fs)
      end
  end.

(** A file that exists keeps its permission. *)
Definition write_file (ps : list string) (perm : Z) (content : string) (fs : FS) : option FS :=
  if decide (ps = []) then None else
  match removelast ps, fs !! removelast ps with
  | _ :: _, (None | Some (FFile _ _)) => None
  | _, _ =>
      match fs !! ps with
      | Some FDir => None
      | Some (FFile perm' _) => Some (<[ps := FFile perm' content]> fs)
      | None => Some (<[ps := FFile perm content]> fs)
      end
  end.

Definition run_op (o : Op) (fs : FS) : option FS :=
  match o with
  | MkdirAll path => mkdirs [] (parts_of path) fs
  | WriteFile path perm content => write_file (parts_of path) perm content fs
  end.

Fixpoint run_ops (os : list Op) (fs : FS) : option FS :=
  match os with [] => Some fs | o :: os => match run_op o fs with Some fs => run_ops os fs | None => None end end.

Lemma run_ops_app os1 os2 fs : run_ops (os1 ++ os2) fs = match run_ops os1 fs with Some fs => run_ops os2 fs | None => None end.
Proof. revert fs. induction os1 as [|o os1 IH]; intros fs; [done|]. cbn. by destruct (run_op o fs). Qed.

(** The files of two file systems are the same, and directories are kept. *)
Definition same_files (fs fs' : FS) : Prop :=
  (forall k perm c, fs' !! k = Some (FFile perm c) <-> fs !! k = Some (FFile perm c)) /\
  (forall k, fs !! k = Some FDir -> fs' !! k = Some FDir).

Definition not_file (fs : FS) (k : list string) : Prop := forall perm c, fs !! k <> Some (FFile perm c).

Lemma mkdirs_spec rest : forall done (fs : FS), (forall q t, rest = q ++ t -> q <> [] -> not_file fs (done ++ q)) ->
  exists fs', mkdirs done rest fs = Some fs' /\ same_files fs fs' /\
    (forall q t, rest = q ++ t -> q <> [] -> fs' !! (done ++ q) = Some FDir) /\
    (forall k, fs' !! k = Some FDir -> fs !! k = Some FDir \/ exists q t, rest = q ++ t /\ k = done ++ q).
Proof.
  induction rest as [|p rest IH]; intros done fs Hn; cbn [mkdirs].
  - exists fs. split_and!; [done|by split|by intros [|] ? ?|by left].
  - assert (exists fs1, same_files fs fs1 /\ fs1 !! (done ++ [p]) = Some FDir /\
      (forall k, fs1 !! k = Some FDir -> fs !! k = Some FDir \/ k = done ++ [p]) /\
      match fs !! (done ++ [p]) with
      | Some (FFile _ _) => None
      | Some FDir => mkdirs (done ++ [p]) rest fs
      | None => mkdirs (done ++ [p]) rest (<[done ++ [p] := FDir]> fs)
      end = mkdirs (done ++ [p]) rest fs1) as (fs1 & [Hs1 Hs2] & Hd & Hk & ->).
    { specialize (Hn [p] rest eq_refl ltac:(done)). destruct (fs !! (done ++ [p])) as [[|perm c]|] eqn:E.
      - exists fs. split_and!; [by split|done|by left|done].
      - by destruct (Hn perm c).
      - exists (<[done ++ [p] := FDir]> fs). split_and!; [|by rewrite lookup_insert_eq| |done].
        + split; intros k; destruct (decide (k = done ++ [p])) as [->|Hne]; rewrite ?lookup_insert_eq, ?lookup_insert_ne by done; try done.
          intros perm c. rewrite E. done.
        + intros k. destruct (decide (k = done ++ [p])) as [->|Hne]; [by right|]. rewrite lookup_insert_ne by done. by left. }
    destruct (IH (done ++ [p]) fs1) as (fs' & Hm & [Hf1 Hf2] & Hf & Hk').
    { intros q t -> Hq perm c. rewrite <- app_assoc, Hs1. by apply (Hn (p :: q) t). }
    exists fs'. split_and!; [done| | |].
    + split; [intros k perm c; by rewrite Hf1, Hs1|]. intros k H. by apply Hf2, Hs2.
    + intros [|p' q] t E Hne; [done|]. injection E as <- ->. destruct q as [|p' q]; [by apply Hf2|].
      pose proof (Hf (p' :: q) t eq_refl ltac:(done)) as H. by rewrite <- app_assoc in H.
    + intros k [H|(q & t & -> & ->)]%Hk'; [apply Hk in H as [H| ->]; [by left|]|].
      * right. by exists [p], rest.
      * right. exists (p :: q), t. by rewrite <- app_assoc.
Qed.

Lemma write_file_spec (ps : list string) (perm : Z) (c : string) (fs : FS) : ps <> [] -> (removelast ps <> [] -> fs !! removelast ps = Some FDir) -> fs !! ps = None ->
  write_file ps perm c fs = Some (<[ps := FFile perm c]> fs).
Proof.
  intros Hne Hp Hn. unfold write_file. rewrite decide_False by done. destruct (removelast ps) eqn:E; [by rewrite Hn|].
  rewrite Hp by done. by rewrite Hn.
Qed.

(** ** What is archived *)

(** The content of a file in a tree, and its directories. *)
Inductive holds : SNode -> list string -> string -> Prop :=
| holds_file name c : holds (SFile name (inr c)) [] c
| holds_entry name entries n ps c : n ∈ entries -> holds n ps c -> holds (SDir name (inr entries)) (snode_name n :: ps) c.

Inductive has_dir : SNode -> list string -> Prop :=
| dir_itself name entries : has_dir (SDir name (inr entries)) []
| dir_entry name entries n ps : n ∈ entries -> has_dir n ps -> has_dir (SDir name (inr entries)) (snode_name n :: ps).

(** A name of an entry, without two dots in a row. *)
Definition good_name (name : string) : Prop := name_part name /\ contains ".." name = false.

Inductive good : SNode -> Prop :=
| good_file name content : good (SFile name content)
| good_link name : good (SLink name)
| good_socket name : good (SSocket name)
| good_unread name err : good (SDir name (inl err))
| good_dir name entries :
    NoDup (snode_name <$> entries) -> Forall (fun n => good_name (snode_name n)) entries -> Forall good entries ->
    good (SDir name (inr entries)).

(** The name of components relative to the base. *)
Definition relname (ps : list string) : string := of_parts false ps.
Definition transient (ps : list string) : bool := IsTransientFile (relname ps).

(** The files with their content, and directories, that an archive holds. *)
Definition item : Type := list string * option string.

Fixpoint items (ps : list string) (n : SNode) : list item :=
  match n with
  | SFile _ (inr c) => if transient ps then [] else [(ps, Some c)]
  | SDir _ (inr entries) =>
      (if transient ps then [] else [(ps, None)]) ++ List.flat_map (fun n => items (ps ++ [snode_name n]) n) entries
  | _ => []
  end.

Definition entry_of (it : item) : TarEntry :=
  match it.2 with
  | Some c => mkEntry (relname it.1) TypeReg (size_of c) c None
  | None => mkEntry (relname it.1) TypeDir 0 "" None
  end.

Lemma snode_induction (P : SNode -> Prop) :
  (forall name c, P (SFile name c)) -> (forall name, P (SLink name)) -> (forall name, P (SSocket name)) ->
  (forall name err, P (SDir name (inl err))) -> (forall name entries, Forall P entries -> P (SDir name (inr entries))) ->
  forall n, P n.
Proof.
  intros Hf Hl Hs Hu Hd. fix IH 1. intros [name c|name [err|entries]|name|name]; [apply Hf|apply Hu| |apply Hl|apply Hs].
  apply Hd. induction entries as [|n entries IHe]; constructor; [apply IH|exact IHe].
Qed.

(** *** Names *)

Lemma split_name p : name_part p -> Split slash p = [p].
Proof. intros (_ & _ & _ & H). change p with (join_with (String slash "") [p]) at 1. apply split_join; [done|by constructor]. Qed.

Lemma names_form ps : Forall name_part ps -> clean_form false ps.
Proof. intros H. by exists 0, ps. Qed.

Lemma relname_split ps : Forall name_part ps -> Split slash (relname ps) = match ps with [] => ["."] | _ => ps end.
Proof. intros H. unfold relname. by rewrite split_of_parts by by apply names_form. Qed.

Lemma relname_parts ps : Forall name_part ps -> parts_of (relname ps) = ps /\ IsAbs (relname ps) = false /\ Clean (relname ps) = relname ps.
Proof.
  intros H%names_form. unfold relname. rewrite parts_of_parts, IsAbs_of_parts by done. split_and!; [done..|].
  unfold Clean. by rewrite parts_of_parts, IsAbs_of_parts by done.
Qed.

Lemma relname_comps ps : Forall name_part ps -> comps (relname ps) = ps /\ Forall (fun p => p <> "..") (Split slash (relname ps)).
Proof.
  intros H. unfold comps. rewrite relname_split by done. destruct ps as [|p ps]; [split; [done|by repeat constructor]|].
  split; [by apply filter_proper|]. eapply Forall_impl; [exact H|]. by intros q (_ & _ & ? & _).
Qed.

Lemma dots_join a b : contains ".." a = false -> contains ".." b = false -> contains ".." (a +:+ "/" +:+ b) = false.
Proof.
  intros Ha Hb. induction a as [|c a IH]; [exact Hb|]. cbn [contains] in Ha. apply orb_false_iff in Ha as [Hp Ha].
  rewrite string_app_cons. cbn [contains]. rewrite (IH Ha), orb_false_r. destruct a as [|d a].
  - cbn [String.prefix]. case_match; [|done]. by change (String.prefix "." ("" +:+ "/" +:+ b)) with false.
  - rewrite string_app_cons. cbn [String.prefix] in *. repeat (case_match; [|done]). exfalso. by destruct a.
Qed.

Lemma dots_relname ps : Forall good_name ps -> contains ".." (relname ps) = false.
Proof.
  intros H. destruct ps as [|p ps]; [done|]. unfold relname. cbn [of_parts]. revert p H.
  induction ps as [|q ps IH]; intros p [[_ Hp] H]%Forall_cons; [done|].
  change (join_with "/" (p :: q :: ps)) with (p +:+ "/" +:+ join_with "/" (q :: ps)). apply dots_join; [done|by apply IH].
Qed.

Lemma good_name_parts ps : Forall good_name ps -> Forall name_part ps.
Proof. intros H. eapply Forall_impl; [exact H|]. by intros p [? _]. Qed.

(** *** The walk writes the items *)

Lemma last_slots ps : ps <> [] -> List.last ("" :: slots ps) "" = List.last ps "".
Proof. by destruct ps. Qed.

(** The extension is that of the last component. *)
Lemma Ext_last path path' : List.last (Split slash path) "" = List.last (Split slash path') "" -> Ext path = Ext path'.
Proof. intros E. unfold Ext. by rewrite E. Qed.

Lemma last_app_ne (l1 l2 : list string) : l2 <> [] -> List.last (l1 ++ l2) "" = List.last l2 "".
Proof.
  intros H. induction l1 as [|x l1 IH]; [done|]. cbn [app]. rewrite <- IH. by destruct l1, l2.
Qed.

Lemma transient_path base path ps : clean_abs path -> Forall name_part ps -> parts_of path = parts_of base ++ ps -> ps <> [] ->
  IsTransientFile path = transient ps.
Proof.
  intros Hc Hn Hp Hne. unfold transient, IsTransientFile. rewrite (Ext_last path (relname ps)); [done|].
  rewrite clean_abs_split, relname_split, last_slots, Hp, last_app_ne by first [done|by rewrite Hp; destruct (parts_of base), ps].
  by destruct ps.
Qed.

Lemma clean_abs_inj a b : clean_abs a -> clean_abs b -> parts_of a = parts_of b -> a = b.
Proof. intros [H1 H2] [H3 H4] H. rewrite <- H2, <- H4. unfold Clean. by rewrite H1, H3, H. Qed.

Lemma drop_common_app base ps : Executor.drop_common base (base ++ ps) = ([], ps).
Proof. induction base as [|b base IH]; [by destruct ps|]. cbn. by rewrite decide_True. Qed.

Lemma Rel_below base path ps : clean_abs base -> clean_abs path -> Forall name_part ps -> parts_of path = parts_of base ++ ps ->
  Rel base path = Some (relname ps).
Proof.
  intros Hb Hc Hn Hp. unfold Executor.Rel. destruct Hb as [Hb1 Hb2], Hc as [Hc1 Hc2].
  destruct (decide (ps = [])) as [->|Hne].
  - rewrite decide_True; [done|]. rewrite Hb2, Hc2. apply clean_abs_inj; [by split..|]. by rewrite Hp, app_nil_r.
  - rewrite decide_False.
    + rewrite decide_False by (rewrite Hb1, Hc1; auto). rewrite Hp, drop_common_app. cbn [head fmap list_fmap app].
      rewrite decide_False by done. unfold relname. by destruct ps.
    + rewrite Hb2, Hc2. intros <-. apply Hne. apply (app_inv_head (parts_of base)). by rewrite app_nil_r.
Qed.

Lemma archive_dir base path name entries :
  archive base path (SDir name (inr entries)) =
  match (if IsTransientFile path then inr [] else
         match Rel base path with None => inl ("compute relative path: " +:+ path) | Some rel => inr [mkEntry rel TypeDir 0 "" None] end) with
  | inl err => inl err
  | inr es =>
      match foldr (fun n rest => match archive base (Join2 path (snode_name n)) n with
                                 | inl err => inl err
                                 | inr es => match rest with inl err => inl err | inr es' => inr (es ++ es') end
                                 end) (inr []) entries with
      | inl err => inl err
      | inr rest => inr (es ++ rest)
      end
  end.
Proof.
  cbn [archive]. destruct (if IsTransientFile path then _ else _) as [|es0]; [done|].
  match goal with |- match ?a with _ => _ end = match ?b with _ => _ end => assert (a = b) as ->; [|done] end.
  induction entries as [|n entries IH]; [done|]. cbn [foldr]. by rewrite <- IH.
Qed.

Lemma archive_items base n : clean_abs base -> IsTransientFile base = false -> good n -> forall path ps es,
  clean_abs path -> Forall name_part ps -> parts_of path = parts_of base ++ ps ->
  archive base path n = inr es -> es = entry_of <$> items ps n.
Proof.
  intros Hb Ht Hg.
  assert (forall path ps, clean_abs path -> Forall name_part ps -> parts_of path = parts_of base ++ ps ->
    IsTransientFile path = transient ps /\ Rel base path = Some (relname ps)) as Hpath.
  { intros path ps Hc Hn Hp. split; [|by apply Rel_below]. destruct (decide (ps = [])) as [->|Hne]; [|by apply (transient_path base)].
    rewrite app_nil_r in Hp. by rewrite (clean_abs_inj path base). }
  induction n as [name c|name|name|name err|name entries IH] using snode_induction; intros path ps es Hc Hn Hp;
    destruct (Hpath path ps Hc Hn Hp) as [E1 E2].
  - cbn [archive items]. rewrite E1, E2. destruct (transient ps); [by intros [= <-]; destruct c|]. destruct c as [|c]; [done|]. by intros [= <-].
  - by intros [= <-].
  - cbn [archive items]. rewrite E1, E2. destruct (transient ps); [|done]. by intros [= <-].
  - cbn [archive items]. rewrite E1, E2. by destruct (transient ps).
  - rewrite archive_dir, E1, E2. cbn [items]. inversion Hg as [| | | |? ? _ Hnames Hgs]; subst.
    set (w := foldr _ _ entries). assert (forall rest, w = inr rest -> rest = entry_of <$> List.flat_map (fun n => items (ps ++ [snode_name n]) n) entries) as Hw.
    { unfold w. clear w Hg. induction IH as [|n entries Hn' _ IHe]; cbn [foldr List.flat_map]; [by intros rest [= <-]|].
      apply Forall_cons in Hnames as [[Hnn _] Hnames]. apply Forall_cons in Hgs as [Hgn Hgs]. intros rest.
      destruct (join_clean_abs path (snode_name n)) as [Hjc Hjp]; [done|by destruct Hnn|rewrite split_name by done; constructor; [by destruct Hnn as (_ & _ & ? & _)|done]|].
      destruct (archive base (Join2 path (snode_name n)) n) as [|es1] eqn:Ea; [done|].
      apply (Hn' Hgn _ (ps ++ [snode_name n])) in Ea; [|done|apply Forall_app; split; [done|by apply Forall_singleton]|].
      2:{ rewrite Hjp, Hp, <- app_assoc. do 2 f_equal. unfold comps. rewrite split_name by done. apply filter_proper. by constructor. }
      destruct (foldr _ _ entries) as [|rest'] eqn:Er; [done|]. intros [= <-].
      rewrite fmap_app, <- (IHe Hnames Hgs rest' eq_refl). by rewrite Ea. }
    destruct (transient ps), w as [|rest]; try done; intros [= <-]; cbn [app fmap list_fmap]; by rewrite <- (Hw rest eq_refl).
Qed.

(** *** Items and trees *)

Lemma elem_of_entry_items ps entries q x :
  (q, x) ∈ List.flat_map (fun n => items (ps ++ [snode_name n]) n) entries <-> exists n, n ∈ entries /\ (q, x) ∈ items (ps ++ [snode_name n]) n.
Proof. rewrite list_elem_of_In, in_flat_map. by setoid_rewrite list_elem_of_In. Qed.

Lemma items_prefix n : forall ps q x, (q, x) ∈ items ps n -> exists r, q = ps ++ r.
Proof.
  induction n as [name c|name|name|name err|name entries IH] using snode_induction; intros ps q x; cbn [items];
    try by intros ?%elem_of_nil.
  - destruct c as [|c]; [by intros ?%elem_of_nil|]. destruct (transient ps); [by intros ?%elem_of_nil|].
    intros [= -> ->]%list_elem_of_singleton. exists []. by rewrite app_nil_r.
  - intros [H|H]%elem_of_app.
    + destruct (transient ps); [by apply elem_of_nil in H|]. apply list_elem_of_singleton in H as [= -> ->]. exists []. by rewrite app_nil_r.
    + apply elem_of_entry_items in H as (n & Hn & H). rewrite Forall_forall in IH.
      destruct (IH n Hn _ _ _ H) as [r ->]. exists (snode_name n :: r). by rewrite <- app_assoc.
Qed.

Lemma items_files n : forall ps q c, (q, Some c) ∈ items ps n <-> exists r, q = ps ++ r /\ holds n r c /\ transient q = false.
Proof.
  induction n as [name c'|name|name|name err|name entries IH] using snode_induction; intros ps q c; cbn [items];
    try by (split; [by intros ?%elem_of_nil|intros (r & _ & H & _); inversion H]).
  - destruct c' as [e|c']; [split; [by intros ?%elem_of_nil|intros (r & _ & H & _); inversion H]|].
    destruct (transient ps) eqn:E.
    + split; [by intros ?%elem_of_nil|]. intros (r & -> & H & Ht). inversion H; subst. rewrite app_nil_r in Ht. congruence.
    + rewrite list_elem_of_singleton. split.
      * intros [= -> ->]. exists []. rewrite app_nil_r. by repeat constructor.
      * intros (r & -> & H & Ht). inversion H; subst. by rewrite app_nil_r.
  - rewrite elem_of_app, elem_of_entry_items. rewrite Forall_forall in IH. split.
    + intros [H|(n & Hn & (r & -> & H & Ht)%IH)]; [| |done].
      { destruct (transient ps); [by apply elem_of_nil in H|by apply list_elem_of_singleton in H]. }
      exists (snode_name n :: r). rewrite <- app_assoc in *. split_and!; [done|by constructor|done].
    + intros (r & -> & H & Ht). inversion H; subst. right. eexists. split; [done|]. apply IH; [done|].
      eexists. split; [|by split]. by rewrite <- app_assoc.
Qed.

Lemma items_dirs n : forall ps q, (q, None) ∈ items ps n <-> exists r, q = ps ++ r /\ has_dir n r /\ transient q = false.
Proof.
  induction n as [name c'|name|name|name err|name entries IH] using snode_induction; intros ps q; cbn [items];
    try by (split; [by intros ?%elem_of_nil|intros (r & _ & H & _); inversion H]).
  - destruct c'; [|destruct (transient ps)]; (split; [|intros (r & _ & H & _); inversion H]);
      [by intros ?%elem_of_nil..|by intros ?%list_elem_of_singleton].
  - rewrite elem_of_app, elem_of_entry_items. rewrite Forall_forall in IH. split.
    + intros [H|(n & Hn & (r & -> & H & Ht)%IH)]; [| |done].
      * destruct (transient ps) eqn:E; [by apply elem_of_nil in H|]. apply list_elem_of_singleton in H as [= ->].
        exists []. rewrite app_nil_r. by repeat constructor.
      * exists (snode_name n :: r). rewrite <- app_assoc in *. split_and!; [done|by constructor|done].
    + intros (r & -> & H & Ht). inversion H; subst.
      * left. rewrite app_nil_r in *. rewrite Ht. by apply list_elem_of_singleton.
      * right. eexists. split; [done|]. apply IH; [done|]. eexists. split; [|by split]. by rewrite <- app_assoc.
Qed.

(** Nothing is twice in an archive, and nothing lies below a file. *)
Definition treelike (l : list item) : Prop :=
  NoDup l.*1 /\ forall p c q x, (p, Some c) ∈ l -> (q, x) ∈ l -> p `prefix_of` q -> q = p.

Lemma same_name (entries : list SNode) n m : NoDup (snode_name <$> entries) -> n ∈ entries -> m ∈ entries -> snode_name n = snode_name m -> n = m.
Proof.
  intros Hn [i Hi]%list_elem_of_lookup [j Hj]%list_elem_of_lookup E.
  assert (i = j) as ->; [|congruence]. eapply NoDup_lookup; [exact Hn|by rewrite list_lookup_fmap, Hi|by rewrite list_lookup_fmap, Hj, E].
Qed.

Lemma items_NoDup n : good n -> forall ps, NoDup (items ps n).*1.
Proof.
  induction n as [name c|name|name|name err|name entries IH] using snode_induction; intros Hg ps; cbn [items]; try by constructor.
  - destruct c as [|c]; [by constructor|]. destruct (transient ps); [by constructor|]. apply NoDup_singleton.
  - inversion Hg as [| | | |? ? Hd _ Hgs]; subst. rewrite fmap_app. apply NoDup_app. split_and!.
    + destruct (transient ps); [by constructor|apply NoDup_singleton].
    + intros q Hq. destruct (transient ps); [by apply elem_of_nil in Hq|]. apply list_elem_of_singleton in Hq as ->.
      intros ([q x] & E & (n & _ & (r & ->)%items_prefix)%elem_of_entry_items)%list_elem_of_fmap. cbn in E.
      apply (f_equal length) in E. rewrite !length_app in E. cbn in E. lia.
    + clear Hg. induction IH as [|n entries Hn _ IHe]; [by constructor|]. cbn [List.flat_map]. rewrite fmap_app. cbn in Hd.
      apply NoDup_cons in Hd as [Hni Hd]. apply Forall_cons in Hgs as [Hgn Hgs]. apply NoDup_app. split_and!; [by apply Hn| |by apply IHe].
      intros q ([q' x] & -> & (r & Hq)%items_prefix)%list_elem_of_fmap ([q'' y] & E & (m & Hm & (r' & Hq')%items_prefix)%elem_of_entry_items)%list_elem_of_fmap.
      cbn in E. rewrite Hq, Hq', <- !app_assoc in E. apply app_inv_head in E. injection E as E _. apply Hni. rewrite E.
      by apply list_elem_of_fmap_2.
Qed.

Lemma items_treelike n : good n -> forall ps, treelike (items ps n).
Proof.
  intros Hg ps. split; [by apply items_NoDup|]. revert ps Hg.
  induction n as [name c|name|name|name err|name entries IH] using snode_induction; intros ps Hg p c' q x; cbn [items];
    try by intros ?%elem_of_nil.
  - destruct c as [|c]; [by intros ?%elem_of_nil|]. destruct (transient ps); [by intros ?%elem_of_nil|].
    by intros [= -> ->]%list_elem_of_singleton [= -> ->]%list_elem_of_singleton _.
  - inversion Hg as [| | | |? ? Hd _ Hgs]; subst. rewrite !elem_of_app, !elem_of_entry_items. rewrite Forall_forall in IH, Hgs.
    intros [Hp|(n & Hn & Hp)]; [destruct (transient ps); [by apply elem_of_nil in Hp|by apply list_elem_of_singleton in Hp]|].
    pose proof (items_prefix _ _ _ _ Hp) as [r Er]. intros [Hq|(m & Hm & Hq)] Hpre.
    + destruct (transient ps); [by apply elem_of_nil in Hq|]. apply list_elem_of_singleton in Hq as [= -> ->].
      apply prefix_length in Hpre. rewrite Er, !length_app in Hpre. cbn in Hpre. lia.
    + pose proof (items_prefix _ _ _ _ Hq) as [r' Er']. assert (n = m) as ->; [|exact (IH m Hm _ (Hgs m Hm) p c' q x Hp Hq Hpre)].
      apply (same_name entries); [done..|]. destruct Hpre as [t Et]. rewrite Er', Er, <- !app_assoc in Et.
      apply app_inv_head in Et. by injection Et.
Qed.

(** ** Restoring what was archived *)

Definition never_fails : Op -> option string := fun _ => None.
Definition perm_of (ps : list string) : Z := restoreFilePermission (relname ps).

(** An item that restoring does not refuse or skip. *)
Definition restorable (it : item) : Prop :=
  Forall good_name it.1 /\ transient it.1 = false /\ it.1 <> [manifestName] /\
  match it.2 with Some c => it.1 <> [] /\ (size_of c <= maxRestoreFileSize)%Z | None => True end.

Definition item_ops (T : string) (it : item) : list Op :=
  match it.2 with
  | None => [MkdirAll (Join2 T (relname it.1))]
  | Some c => [MkdirAll (Dir (Join2 T (relname it.1))); WriteFile (Join2 T (relname it.1)) (perm_of it.1) c]
  end.

Definition count (it : item) (r : RestoreResult) : RestoreResult :=
  match it.2 with None => r <| Dirs := (Dirs r + 1)%Z |> | Some _ => r <| Files := (Files r + 1)%Z |> end.

Lemma limited_all c : limited (size_of c) c = c.
Proof. unfold limited, size_of. rewrite Nat2Z.id. apply (substring_app ""). Qed.

Lemma relname_manifest ps : Forall name_part ps -> relname ps = manifestName -> ps = [manifestName].
Proof.
  intros H E. pose proof (relname_split ps H) as Hs. rewrite E in Hs.
  change (Split slash manifestName) with [manifestName] in Hs. by destruct ps.
Qed.

Lemma restore_item decode T r it : restorable it ->
  restore_entry decode never_fails T r (entry_of it) = (item_ops T it, inr (count it r)).
Proof.
  destruct it as [ps x]. intros (Hn & Ht & Hm & Hx). cbn [fst snd] in *. pose proof (good_name_parts ps Hn) as Hp.
  destruct (relname_parts ps Hp) as (_ & _ & Hc).
  assert (Name (entry_of (ps, x)) = relname ps) as En by by destruct x.
  assert (maxRestoreFileSize <? Size (entry_of (ps, x)) = false)%Z as Es.
  { destruct x as [c|]; [|done]. destruct Hx as [_ Hx]. cbn. apply Z.ltb_ge, Hx. }
  unfold restore_entry. rewrite En, (dots_relname ps Hn), Hc, Es.
  rewrite decide_False by by (intros E; apply Hm, (relname_manifest ps Hp)). unfold transient in Ht. rewrite Ht.
  destruct x as [c|]; cbn [entry_of fst snd Flag]; rewrite decide_False by (by intros [|]); [|done].
  unfold restoreFile. cbn [never_fails Size Data ReadErr fmap option_fmap option_map]. by rewrite limited_all.
Qed.

Lemma restore_items decode T l : Forall restorable l -> forall r,
  restore_entries decode never_fails T r (entry_of <$> l) None
  = (concat (item_ops T <$> l), inr (fold_left (fun r it => count it r) l r)).
Proof.
  induction 1 as [|it l Hit _ IH]; intros r; [done|]. cbn [fmap list_fmap restore_entries fold_left concat].
  by rewrite restore_item, IH by done.
Qed.

(** *** The file system after some of the items *)

Definition state_after (T : list string) (done : list item) (fs : FS) : Prop :=
  (forall ps perm c, fs !! (T ++ ps) = Some (FFile perm c) <-> (ps, Some c) ∈ done /\ perm = perm_of ps) /\
  (forall ps, fs !! (T ++ ps) = Some FDir -> ps = [] \/ exists q x, (q, x) ∈ done /\ ps `prefix_of` q) /\
  (forall q t, T = q ++ t -> q <> [] -> not_file fs q) /\
  (forall ps, (ps, None) ∈ done -> fs !! (T ++ ps) = Some FDir).

(** A target with nothing in it. *)
Definition fresh (T : list string) (fs : FS) : Prop :=
  (forall ps, ps <> [] -> fs !! (T ++ ps) = None) /\ (forall q t, T = q ++ t -> q <> [] -> not_file fs q).

Lemma state_fresh T fs : T <> [] -> fresh T fs -> state_after T [] fs.
Proof.
  intros HT [H1 H2]. split_and!; [| |done|by intros ps ?%elem_of_nil].
  - intros ps perm c. split; [|by intros [?%elem_of_nil _]]. intros H. destruct (decide (ps = [])) as [->|Hne]; [|by rewrite H1 in H].
    rewrite app_nil_r in H. by destruct (H2 T [] (eq_sym (app_nil_r T)) HT perm c).
  - intros ps H. destruct (decide (ps = [])) as [->|Hne]; [by left|]. by rewrite H1 in H.
Qed.

(** Making the directories of an item, or above a file, meets no file. *)
Lemma mkdirs_below T done fs ps qs x : T <> [] -> state_after T done fs -> treelike (done ++ [(ps, x)]) -> qs `prefix_of` ps -> (x = None \/ qs <> ps) ->
  exists fs', mkdirs [] (T ++ qs) fs = Some fs' /\ same_files fs fs' /\ fs' !! (T ++ qs) = Some FDir /\
    (forall k, fs' !! k = Some FDir -> fs !! k = Some FDir \/ exists t, T ++ qs = k ++ t).
Proof.
  intros HT (H1 & H2 & H3 & H4) [Hd Htree] [tl Hps] Hx. destruct (mkdirs_spec (T ++ qs) [] fs) as (fs' & Hm & Hs & Hf & Hk).
  - intros q t E Hq perm c. cbn [app]. apply app_eq_app in E as [l [[E1 E2]|[E1 E2]]].
    + by apply (H3 q l).
    + subst q. rewrite H1. intros [Hin _]. assert (l `prefix_of` ps) as Hl by (exists (t ++ tl); by rewrite Hps, E2, <- app_assoc).
      assert (ps = l) as ->.
      { apply (Htree l c ps x); [set_solver|set_solver|done]. }
      rewrite fmap_app in Hd. apply NoDup_app in Hd as (_ & Hd & _). apply (Hd l); [by apply (list_elem_of_fmap_2 fst _ _ Hin)|set_solver].
  - exists fs'. split_and!; [done..| |].
    + apply (Hf _ []); [by rewrite app_nil_r|by destruct T].
    + intros k [H|(q & t & E & ->)]%Hk; [by left|]. right. by exists t.
Qed.

Lemma below_prefix (T qs k t ps : list string) : T ++ qs = (T ++ k) ++ t -> qs `prefix_of` ps -> k `prefix_of` ps.
Proof. rewrite <- app_assoc. intros ->%app_inv_head [u ->]. exists (t ++ u). by rewrite <- app_assoc. Qed.

(** The directories of an item are made. *)
Lemma state_dir T done fs fs' ps qs :
  state_after T done fs -> same_files fs fs' -> fs' !! (T ++ ps) = Some FDir -> qs `prefix_of` ps ->
  (forall k, fs' !! k = Some FDir -> fs !! k = Some FDir \/ exists t, T ++ qs = k ++ t) ->
  state_after T (done ++ [(ps, None)]) fs'.
Proof.
  intros (H1 & H2 & H3 & H4) [Hs1 Hs2] Hd Hq Hk. split_and!.
  - intros k perm c. rewrite Hs1, H1. set_solver.
  - intros k [H|[t E]]%Hk.
    + apply H2 in H as [->|(q & y & H & Hp)]; [by left|]. right. exists q, y. split; [set_solver|done].
    + right. exists ps, None. split; [set_solver|]. by eapply below_prefix.
  - intros q t E Hne perm c. rewrite Hs1. by apply (H3 q t).
  - intros k [H|[= ->]%list_elem_of_singleton]%elem_of_app; [by apply Hs2, H4|done].
Qed.

(** A file is written below directories that were made. *)
Lemma state_file T done fs fs1 ps qs c :
  state_after T done fs -> same_files fs fs1 -> qs `prefix_of` ps -> ps <> [] -> fs1 !! (T ++ ps) = None -> (forall y, (ps, y) ∉ done) ->
  (forall k, fs1 !! k = Some FDir -> fs !! k = Some FDir \/ exists t, T ++ qs = k ++ t) ->
  state_after T (done ++ [(ps, Some c)]) (<[T ++ ps := FFile (perm_of ps) c]> fs1).
Proof.
  intros (H1 & H2 & H3 & H4) [Hs1 Hs2] Hq Hne Hnone Hnew Hk. split_and!.
  - intros k perm c'. rewrite elem_of_app, list_elem_of_singleton. destruct (decide (k = ps)) as [->|Hkp].
    + rewrite lookup_insert_eq. specialize (Hnew (Some c')). split; [intros [= -> ->]; auto|]. by intros [[?|[= ->]] ->].
    + rewrite lookup_insert_ne by (by intros ?%app_inv_head). rewrite Hs1, H1. naive_solver.
  - intros k. destruct (decide (k = ps)) as [->|Hkp]; [by rewrite lookup_insert_eq|].
    rewrite lookup_insert_ne by (by intros ?%app_inv_head). intros [H|[t E]]%Hk.
    + apply H2 in H as [->|(q & y & H & Hp)]; [by left|]. right. exists q, y. split; [apply elem_of_app; by left|done].
    + right. exists ps, (Some c). split; [apply elem_of_app; right; by apply list_elem_of_singleton|]. by eapply below_prefix.
  - intros q t E Hqne perm c'. rewrite lookup_insert_ne; [rewrite Hs1; by apply (H3 q t)|]. intros <-.
    apply (f_equal length) in E. rewrite !length_app in E. destruct ps; [done|]. cbn in E. lia.
  - intros k [H|?%list_elem_of_singleton]%elem_of_app; [|done]. rewrite lookup_insert_ne.
    + by apply Hs2, H4.
    + intros E%app_inv_head. subst k. by apply Hnew in H.
Qed.

Lemma removelast_shorter (ps : list string) : ps <> [] -> length (removelast ps) < length ps /\ removelast ps `prefix_of` ps.
Proof.
  intros Hne. pose proof (app_removelast_last "" Hne) as E. split; [|by exists [List.last ps ""]].
  apply (f_equal length) in E. rewrite length_app in E. cbn in E. lia.
Qed.

Lemma run_item T done fs it : clean_abs T -> parts_of T <> [] -> restorable it -> treelike (done ++ [it]) ->
  state_after (parts_of T) done fs ->
  exists fs', run_ops (item_ops T it) fs = Some fs' /\ state_after (parts_of T) (done ++ [it]) fs'.
Proof.
  destruct it as [ps x]. intros HT Hroot (Hn & _ & _ & Hx) Htree Hst. cbn [fst snd] in *. pose proof (good_name_parts ps Hn) as Hp.
  destruct (relname_comps ps Hp) as [Ec Ed].
  destruct (join_clean_abs T (relname ps)) as [Hj Ej]; [done| |done|].
  { destruct (relname_parts ps Hp) as (_ & _ & <-). apply Clean_ne. }
  rewrite Ec in Ej. pose proof Hst as (H1 & H2 & _ & _). pose proof Htree as [Hnd Ht].
  assert (forall y, (ps, y) ∉ done) as Hnew.
  { intros y Hy. rewrite fmap_app in Hnd. apply NoDup_app in Hnd as (_ & Hnd & _).
    apply (Hnd ps); [by apply (list_elem_of_fmap_2 fst _ _ Hy)|set_solver]. }
  destruct x as [c|]; cbn [item_ops snd fst run_ops run_op].
  - destruct Hx as [Hne _]. destruct (removelast_shorter ps Hne) as [Hlen Hpre].
    destruct (parts_of_Dir _ Hj) as [Edir _]. rewrite Edir, Ej, removelast_app by done.
    destruct (mkdirs_below (parts_of T) done fs ps (removelast ps) (Some c)) as (fs1 & -> & Hs & Hd & Hk);
      [done..|right; by intros E; rewrite E in Hlen; lia|].
    assert (fs1 !! (parts_of T ++ ps) = None) as Hnone.
    { destruct (fs1 !! (parts_of T ++ ps)) as [[|perm c']|] eqn:E; [| |done].
      - apply Hk in E as [E|[t E]].
        + apply H2 in E as [->|(q & y & Hq & Hpq)]; [done|]. assert (q = ps) as -> by (apply (Ht ps c q y); [set_solver|set_solver|done]).
          by apply Hnew in Hq.
        + rewrite <- app_assoc in E. apply app_inv_head in E. rewrite E, length_app in Hlen. lia.
      - apply Hs, H1 in E as [E _]. by apply Hnew in E. }
    rewrite write_file_spec; [|by destruct (parts_of T)|by rewrite removelast_app by done|done].
    eexists. split; [done|]. by apply (state_file _ _ fs fs1 ps (removelast ps)).
  - rewrite Ej. destruct (mkdirs_below (parts_of T) done fs ps ps None) as (fs1 & -> & Hs & Hd & Hk); [done..|by left|].
    eexists. split; [done|]. by apply (state_dir _ _ fs fs1 ps ps).
Qed.

Lemma run_items T l : clean_abs T -> parts_of T <> [] -> forall done fs, Forall restorable l -> treelike (done ++ l) ->
  state_after (parts_of T) done fs ->
  exists fs', run_ops (concat (item_ops T <$> l)) fs = Some fs' /\ state_after (parts_of T) (done ++ l) fs'.
Proof.
  intros HT Hroot. induction l as [|it l IH]; intros done fs Hr Htree Hst; [exists fs; by rewrite app_nil_r|].
  apply Forall_cons in Hr as [Hit Hr]. destruct (run_item T done fs it) as (fs1 & E & Hst1); [done..| |done|].
  { destruct Htree as [Hd Ht]. split.
    - change (it :: l) with ([it] ++ l) in Hd. rewrite app_assoc, fmap_app in Hd. by apply NoDup_app in Hd as [Hd _].
    - intros p c q x Hp Hq. apply (Ht p c q x); set_solver. }
  destruct (IH (done ++ [it]) fs1) as (fs' & E' & Hst'); [done|by rewrite <- app_assoc|done|].
  exists fs'. cbn [fmap list_fmap concat]. rewrite run_ops_app, E, E'. by rewrite <- app_assoc in Hst'.
Qed.

(** *** The whole tree *)

Lemma items_names n : good n -> forall ps q x, Forall good_name ps -> (q, x) ∈ items ps n -> Forall good_name q.
Proof.
  induction n as [name c|name|name|name err|name entries IH] using snode_induction; intros Hg ps q x Hps; cbn [items];
    try by intros ?%elem_of_nil.
  - destruct c as [|c]; [by intros ?%elem_of_nil|]. destruct (transient ps); [by intros ?%elem_of_nil|].
    by intros [= -> ->]%list_elem_of_singleton.
  - inversion Hg as [| | | |? ? _ Hn Hgs]; subst. rewrite elem_of_app, elem_of_entry_items. rewrite Forall_forall in IH, Hn, Hgs.
    intros [H|(n & Hin & H)].
    + destruct (transient ps); [by apply elem_of_nil in H|]. by apply list_elem_of_singleton in H as [= -> ->].
    + apply (IH n Hin (Hgs n Hin) _ q x) in H; [done|]. apply Forall_app. split; [done|]. by apply Forall_singleton, Hn.
Qed.

(** A tree that a backup keeps: a directory whose names have no two dots in a row
    and are unlike the manifest's, and whose files are not too large. *)
Record archivable (root : SNode) : Prop := {
  ar_good : good root;
  ar_dir : has_dir root [];
  ar_size ps c : holds root ps c -> (size_of c <= maxRestoreFileSize)%Z;
  ar_manifest : ~ has_dir root [manifestName] /\ forall c, ~ holds root [manifestName] c
}.

Lemma items_restorable root : archivable root -> Forall restorable (items [] root).
Proof.
  intros [Hg Hd Hs [Hm1 Hm2]]. apply Forall_forall. intros [q x] Hq.
  pose proof (items_names root Hg [] q x ltac:(constructor) Hq) as Hn. unfold restorable. cbn [fst snd]. destruct x as [c|].
  - apply items_files in Hq as (r & -> & H & Ht). cbn [app] in *. split_and!; [done..| | |by apply (Hs r)].
    + intros ->. by apply (Hm2 c).
    + intros ->. inversion H; subst. inversion Hd.
  - apply items_dirs in Hq as (r & -> & H & Ht). cbn [app] in *. split_and!; [done..| |done]. by intros ->.
Qed.

Lemma count_files l r : Files (fold_left (fun r it => count it r) l r)
  = (Files r + Z.of_nat (length (List.filter (fun e => bool_decide (Flag e = TypeReg)) (entry_of <$> l))))%Z.
Proof.
  revert r. induction l as [|[ps x] l IH]; intros r; cbn [fold_left fmap list_fmap List.filter length]; [lia|].
  rewrite IH. destruct x as [c|]; cbn [entry_of fst snd Flag].
  - rewrite bool_decide_true by done. cbn. lia.
  - rewrite bool_decide_false by done. by cbn.
Qed.

Lemma count_skipped l r : Skipped (fold_left (fun r it => count it r) l r) = Skipped r.
Proof. revert r. induction l as [|[ps x] l IH]; intros r; cbn [fold_left]; [done|]. rewrite IH. by destruct x. Qed.

Section RoundTrip.
Context (encode : Manifest -> string) (decode : string -> string + Manifest) (now version : string).
(** Decoding gives the manifest that was encoded. *)
Hypothesis manifest_roundtrip : decode (encode (written_manifest now version)) = inr (written_manifest now version).
Hypothesis manifest_small : (size_of (encode (written_manifest now version)) <= maxManifestSize)%Z.

Lemma restore_manifest os T : restore_entry decode os T (mkRestore T 0 0 0) (writeManifest encode now version) = ([], inr (mkRestore T 0 0 0)).
Proof.
  unfold restore_entry, readManifestEntry, writeManifest. cbn [Name Size Data ReadErr].
  assert (maxManifestSize <? size_of (encode (written_manifest now version)) = false)%Z as -> by by apply Z.ltb_ge.
  rewrite limited_all, manifest_roundtrip. done.
Qed.

Lemma Create_entries baseDir os_create os_close os_size cwd stamp outputPath root entries result :
  clean_abs baseDir -> IsTransientFile baseDir = false -> good root ->
  Create baseDir encode now version os_create os_close os_size cwd stamp outputPath (Some root) = inr (entries, result) ->
  entries = writeManifest encode now version :: (entry_of <$> items [] root) /\
  r_Files result = Z.of_nat (length (List.filter (fun e => bool_decide (Flag e = TypeReg)) (entry_of <$> items [] root))).
Proof.
  intros Hb Ht Hg. unfold Create, writeArchive. destruct (os_create _); [done|].
  destruct (archive baseDir baseDir root) as [|es] eqn:E; [done|]. destruct os_close; [done|]. destruct (os_size _); [done|].
  intros [= <- <-]. apply (archive_items baseDir root Hb Ht Hg baseDir []) in E as ->; [done|done|constructor|by rewrite app_nil_r].
Qed.

(** C32: a backup that was made restores, into a directory with nothing in it, exactly
    the files of the tree with their content, but for sockets and locks, and its
    directories; nothing is skipped, and as many files are counted as were saved.  The
    tree is as in [archivable]. *)
Theorem backup_roundtrip baseDir os_create os_close os_size cwd stamp outputPath root entries result targetDir fs :
  clean_abs baseDir -> IsTransientFile baseDir = false -> archivable root ->
  Create baseDir encode now version os_create os_close os_size cwd stamp outputPath (Some root) = inr (entries, result) ->
  IsAbs cwd = true -> let T := parts_of (Abs cwd targetDir) in T <> [] -> fresh T fs ->
  exists ops r fs', Restore decode never_fails cwd targetDir entries None = (ops, inr r) /\ run_ops ops fs = Some fs' /\
    Files r = r_Files result /\ Skipped r = 0%Z /\
    (forall ps perm c, fs' !! (T ++ ps) = Some (FFile perm c) <-> (holds root ps c /\ transient ps = false) /\ perm = perm_of ps) /\
    (forall ps, has_dir root ps -> transient ps = false -> fs' !! (T ++ ps) = Some FDir).
Proof.
  intros Hb Ht Har HC Hcwd T HT Hf. subst T. pose proof (items_restorable root Har) as Hr. destruct Har as [Hg _ _ _].
  destruct (Create_entries _ _ _ _ _ _ _ _ _ _ Hb Ht Hg HC) as [-> ->].
  pose proof (Abs_clean cwd targetDir Hcwd) as Hc.
  destruct (run_items (Abs cwd targetDir) (items [] root) Hc HT [] fs) as (fs' & Hrun & H1 & _ & _ & H4);
    [done|by apply items_treelike|by apply state_fresh|].
  unfold Restore. cbn [restore_entries]. rewrite restore_manifest, restore_items by done. cbn [app].
  eexists _, _, fs'. split_and!; [done|done|by rewrite count_files|by rewrite count_skipped| |].
  - intros ps perm c. rewrite H1. cbn [app]. rewrite items_files. naive_solver.
  - intros ps Hd Hp. apply H4. cbn [app]. apply items_dirs. eauto.
Qed.
End RoundTrip.

(** C33: whatever is in an archive and whatever the operating system answers, the
    files that restoring writes lie below the target, and so do the directories it
    makes, but for those on the way to the target. *)
Theorem restore_contained decode os cwd targetDir hs end_ :
  IsAbs cwd = true -> Forall (contained (Abs cwd targetDir)) (Restore decode os cwd targetDir hs end_).1.
Proof. intros H. by apply entries_contained, Abs_clean. Qed.

(** ** Witnesses *)

Definition no_error : string -> option string := fun _ => None.
Definition demo_size : string -> string + Z := fun _ => inr 1%Z.
Definition demo_manifest : Manifest := written_manifest "now" "v1".
Definition demo_create (root : SNode) : string + (list TarEntry * Result) :=
  Create "/home/k" CreatedAt "now" "v1" no_error None demo_size "/srv" "s" "" (Some root).
Definition demo_decode : string -> string + Manifest := fun _ => inr demo_manifest.
Definition demo_root : SNode :=
  SDir "k" (inr [SFile ".env" (inr "A=1"); SDir "tasks" (inr [SFile "t.yaml" (inr "x")]); SFile "k.sock" (inl "is a socket")]).

Lemma demo_archivable : archivable demo_root.
Proof.
  unfold demo_root. split.
  - repeat constructor; cbn; try done; set_solver.
  - constructor.
  - intros ps c H. inversion H as [|? ? n ? ? Hn H1]; subst. rewrite !elem_of_cons in Hn. destruct Hn as [->|[->|[->|?%elem_of_nil]]]; [| | |done].
    + by inversion H1; subst.
    + inversion H1 as [|? ? m ? ? Hm H2]; subst. apply list_elem_of_singleton in Hm as ->. by inversion H2; subst.
    + inversion H1.
  - split; [intros H|intros c H]; inversion H; subst;
      match goal with Hn : _ ∈ _ |- _ => rewrite !elem_of_cons in Hn; by destruct Hn as [->|[->|[->|?%elem_of_nil]]] end.
Qed.

Lemma backup_roundtrip_witness : exists entries result, demo_create demo_root = inr (entries, result) /\
  exists ops r fs', Restore demo_decode never_fails "/srv" "new" entries None = (ops, inr r) /\ run_ops ops ∅ = Some fs' /\ Files r = 2%Z.
Proof.
  destruct (demo_create demo_root) as [|[entries result]] eqn:E; [by vm_compute in E|]. exists entries, result. split; [done|].
  assert (r_Files result = 2%Z) as Hf by (vm_compute in E; by injection E as _ <-).
  destruct (backup_roundtrip CreatedAt demo_decode "now" "v1" eq_refl ltac:(done) "/home/k" no_error None demo_size "/srv" "s" "" demo_root
    entries result "new" ∅) as (ops & r & fs' & H1 & H2 & H3 & _).
  - by vm_compute.
  - by vm_compute.
  - apply demo_archivable.
  - exact E.
  - done.
  - by vm_compute.
  - split; [by intros|]. by intros q t _ _ perm c.
  - exists ops, r, fs'. split_and!; [exact H1|exact H2|congruence].
Defined.

(** An archive that was made to break out. *)
Definition crafted : list TarEntry :=
  [mkEntry "/etc/passwd" TypeReg 1 "x" None; mkEntry "a/./b" TypeDir 0 "" None; mkEntry "../../x" TypeReg 1 "x" None].

Lemma restore_contained_witness :
  Restore demo_decode never_fails "/srv" "t" crafted None
    = ([MkdirAll "/srv/t/etc"; WriteFile "/srv/t/etc/passwd" 420 "x"; MkdirAll "/srv/t/a/b"], inl "unsafe path in archive: ../../x") /\
  Forall (contained "/srv/t") (Restore demo_decode never_fails "/srv" "t" crafted None).1.
Proof. split; [by vm_compute|]. apply (restore_contained demo_decode never_fails "/srv" "t" crafted None). done. Defined.

(** ** What goes wrong *)

(** A name with two dots in a row, as in [v1..v2.md], is archived without complaint,
    and restoring stops there with what came before it already written. *)
Lemma dots_stop_restore :
  match demo_create (SDir "k" (inr [SFile "a" (inr "1"); SFile "v1..v2.md" (inr "2"); SFile "z" (inr "3")])) with
  | inl _ => False
  | inr (entries, _) => Restore demo_decode never_fails "/srv" "t" entries None
      = ([MkdirAll "/srv/t"; MkdirAll "/srv/t"; WriteFile "/srv/t/a" 420 "1"], inl "unsafe path in archive: v1..v2.md")
  end.
Proof. by vm_compute. Qed.

(** When the base directory is a symbolic link, the backup is empty and no error. *)
Lemma linked_base_saves_nothing : demo_create (SLink "k")
  = inr ([writeManifest CreatedAt "now" "v1"], mkResult "/srv/kvelmo-backup-s.tar.gz" 1 0 1).
Proof. by vm_compute. Qed.

(** The lock that the base directory may hold is left out, but so is a file that only
    looks like one, as a [yarn.lock]. *)
Lemma any_lock_left_out : IsTransientFile "/home/k/notes/yarn.lock" = true.
Proof. by vm_compute. Qed.
