(* ===== verification/EventLog.v ===== *)
(** * The event log

    Translates internal/eventlog/eventlog.go: the events of a task as lines of JSON
    in one file, their versions, and the queries.  JSON is a parameter; a time of
    zero is the zero time. *)

From S2P Require Import Prelude Names Text.

(** ** Data *)

Definition CurrentEventLogVersion : Z := 1.

(** [d_Data] is the JSON of the data of an event. *)
Record Entry := mkEntry {
  e_Version : Z;
  e_Timestamp : Z;
  e_Type : string;
  e_Phase : string;
  e_Message : string;
  e_Data : string
}.

#[export] Instance eta_Entry : Eta Entry := fun e =>
  mkEntry (e_Version e) (e_Timestamp e) (e_Type e) (e_Phase e) (e_Message e) (e_Data e).

Class EventCodec := {
  encode : Entry -> string + string;
  decode : string -> option Entry
}.

(** The file, when there is one. *)
Notation File := (option string).

(** [New]: the file is there from then on. *)
Definition New (f : File) : File := Some (default "" f).

Record QueryOptions := mkOptions { o_Type : string; o_Phase : string; o_Since : Z; o_Until : Z }.

Section Log.
Context `{EventCodec}.

(** ** Operations *)

Definition stamped (now : Z) (entry : Entry) : Entry :=
  let entry := if (e_Timestamp entry =? 0)%Z then entry <| e_Timestamp := now |> else entry in
  if (e_Version entry =? 0)%Z then entry <| e_Version := CurrentEventLogVersion |> else entry.

(** What a write does: it appends all of the data, or a part of it with an error. *)
Inductive Write := Written | Torn (kept : nat) (err : string).

Definition Append (now : Z) (w : Write) (entry : Entry) (file : string) : string * option string :=
  match encode (stamped now entry) with
  | inl err => (file, Some ("marshal event: " +:+ err))
  | inr data =>
      match w with
      | Written => (file +:+ (data +:+ nl), None)
      | Torn n err => (file +:+ String.substring 0 n (data +:+ nl), Some ("write event: " +:+ err))
      end
  end.

(** The entries and whether a line was too long. *)
Definition ReadAll (f : File) : list Entry * bool :=
  match f with
  | None => ([], false)
  | Some file => let '(lines, err) := scan_file file in (omap decode lines, err)
  end.

(** [Log.Query]; [None] is an error. *)
Definition Log_Query (f : File) (eventType : string) (limit : Z) : option (list Entry) :=
  let '(all, err) := ReadAll f in
  if err : bool then None else
  let results := List.filter (fun e => bool_decide (e_Type e = eventType)) all in
  Some (if ((0 <? limit) && (limit <? Z.of_nat (length results)))%Z
        then drop (length results - Z.to_nat limit) results else results).

Definition selected (opts : QueryOptions) (e : Entry) : bool :=
  negb (negb (bool_decide (o_Type opts = "")) && negb (bool_decide (e_Type e = o_Type opts))) &&
  negb (negb (bool_decide (o_Phase opts = "")) && negb (bool_decide (e_Phase e = o_Phase opts))) &&
  negb (negb (o_Since opts =? 0)%Z && (e_Timestamp e <? o_Since opts)%Z) &&
  negb (negb (o_Until opts =? 0)%Z && (o_Until opts <? e_Timestamp e)%Z).

Definition Query (f : File) (opts : QueryOptions) : option (list Entry) :=
  let '(all, err) := ReadAll f in if err : bool then None else Some (List.filter (selected opts) all).

(** ** Lemmas *)

(** The file after some events, each appended with its time. *)
Fixpoint append_all (events : list (Z * Entry)) (file : string) : string :=
  match events with [] => file | (now, e) :: events => append_all events (Append now Written e file).1 end.

(** An event that is written to one line and read back from it. *)
Definition loggable (ev : Z * Entry) : Prop :=
  exists d, encode (stamped ev.1 ev.2) = inr d /\ good_line d /\ decode d = Some (stamped ev.1 ev.2).

Lemma append_all_lines events file : Forall loggable events -> exists ds, append_all events file = file +:+ unlines ds /\
  Forall good_line ds /\ omap decode ds = (fun ev => stamped ev.1 ev.2) <$> events.
Proof.
  intros Hl. revert file. induction Hl as [|[now e] events (d & He & Hg & Hd) _ IH]; intros file.
  - exists []. by rewrite string_app_nil.
  - cbn [append_all]. unfold Append. cbn [fst snd] in *. rewrite He. cbn [fst].
    destruct (IH (file +:+ (d +:+ nl))) as (ds & -> & Hds & Ho). exists (d :: ds). split_and!; [|by constructor|].
    + cbn [unlines]. by rewrite !string_app_assoc.
    + cbn [omap list_omap fmap list_fmap]. rewrite Hd. f_equal. exact Ho.
Qed.

Lemma scan_file_app ls rest : Forall good_line ls ->
  scan_file (unlines ls +:+ rest) = let '(ts, err) := scan_file rest in (ls ++ ts, err).
Proof.
  intros Hl. unfold scan_file. induction Hl as [|d ls (_ & Hn & Hc & Hlen) _ IH]; [by destruct (scan _)|].
  cbn [unlines]. rewrite !string_app_assoc, raw_lines_word by done. change ("" +:+ d) with d.
  change (raw_lines d (nl +:+ (unlines ls +:+ rest))) with (d :: raw_lines "" (unlines ls +:+ rest)).
  cbn [scan]. rewrite decide_True, IH by done. destruct (scan (raw_lines "" rest)). unfold dropCR. fold CR. by rewrite Hc.
Qed.

Lemma ReadAll_unlines ds : Forall good_line ds -> ReadAll (Some (unlines ds)) = (omap decode ds, false).
Proof. intros H0. unfold ReadAll. by rewrite scan_unlines. Qed.

Lemma last_ones {A} (l : list A) n : exists before, l = before ++ drop (length l - n) l /\ length (drop (length l - n) l) = Nat.min n (length l).
Proof. exists (take (length l - n) l). split; [by rewrite take_drop|]. rewrite length_drop. lia. Qed.

(** ** Theorems *)

(** the events that were appended are what queries choose from: [Query] gives
    all those that its filters select, in their order and with the version and time
    that were filled in; [Log.Query] the last ones of a type, as many as the limit
    says, or all for a limit that is not positive. *)
Theorem events_read_back events opts eventType limit :
  Forall loggable events ->
  let log := (fun ev => stamped ev.1 ev.2) <$> events in
  let f := Some (append_all events "") in
  Query f opts = Some (List.filter (selected opts) log) /\
  exists before results, Log_Query f eventType limit = Some results /\
    List.filter (fun e => bool_decide (e_Type e = eventType)) log = before ++ results /\
    (Z.of_nat (length results) = if 0 <? limit then Z.min limit (Z.of_nat (length (before ++ results))) else Z.of_nat (length (before ++ results)))%Z.
Proof.
  intros Hl log f. destruct (append_all_lines events "" Hl) as (ds & E & Hg & Ho). unfold Query, Log_Query, f. rewrite E.
  change ("" +:+ unlines ds) with (unlines ds). rewrite ReadAll_unlines by done. rewrite Ho. fold log. split; [done|].
  set (results := List.filter _ log). destruct (0 <? limit)%Z eqn:E1; cbn [andb].
  - destruct (limit <? Z.of_nat (length results))%Z eqn:E2.
    + destruct (last_ones results (Z.to_nat limit)) as (before & Eb & El). exists before, (drop (length results - Z.to_nat limit) results).
      split_and!; [done|exact Eb|]. rewrite El, <- Eb. lia.
    + exists [], results. split_and!; [done..|]. cbn [app]. lia.
  - exists [], results. by split_and!.
Qed.

(** ** What goes wrong *)

(** An event whose line has 64 KiB, as one with much data, makes every later query of
    its log fail. *)
Lemma long_event_breaks_queries before long after opts eventType limit :
  Forall (fun l => no_newline l = true) (before ++ long :: after) -> MaxScanTokenSize <= String.length long ->
  Query (Some (unlines (before ++ long :: after))) opts = None /\
  Log_Query (Some (unlines (before ++ long :: after))) eventType limit = None.
Proof.
  intros Hn Hlong. unfold Query, Log_Query, ReadAll, scan_file. rewrite raw_lines_unlines_plain by done.
  pose proof (scan_too_long before long after Hlong) as E. destruct (scan _) as [ls err]. cbn in E. by subst err.
Qed.
End Log.

(** ** Witnesses *)

Definition demo_event (t : string) : Entry := mkEntry 1 5 t "" "" "".

#[local] Instance demo_codec : EventCodec := {
  encode e := inr ("e:" +:+ e_Type e);
  decode s := match CutPrefix s "e:" with Some t => if contains ":" t then None else Some (demo_event t) | None => None end
}.

Lemma events_read_back_witness :
  Log_Query (Some (append_all [(5%Z, demo_event "a"); (5%Z, mkEntry 0 0 "b" "" "" ""); (5%Z, demo_event "a")] "")) "a" 1 = Some [demo_event "a"] /\
  Query (Some (append_all [(5%Z, demo_event "a"); (5%Z, mkEntry 0 0 "b" "" "" ""); (5%Z, demo_event "a")] "")) (mkOptions "b" "" 0 0) = Some [demo_event "b"].
Proof.
  destruct (events_read_back [(5%Z, demo_event "a"); (5%Z, mkEntry 0 0 "b" "" "" ""); (5%Z, demo_event "a")] (mkOptions "b" "" 0 0) "a" 1) as [H _].
  - repeat apply Forall_cons_2; [..|by apply Forall_nil_2]; (eexists; split_and!; [reflexivity| |by vm_compute]);
      (split_and!; [done|by vm_compute..|by apply Nat.ltb_lt; vm_compute]).
  - split; [by vm_compute|]. etransitivity; [exact H|by vm_compute].
Defined.

(** A write that is cut short takes the next event with it: the two share a line. *)
Lemma torn_write_loses_next :
  let file := (Append 5 (Torn 2 "disk full") (demo_event "a") "").1 in
  ReadAll (Some (append_all [(5%Z, demo_event "b"); (5%Z, demo_event "c")] file)) = ([demo_event "c"], false).
Proof. by vm_compute. Qed.
