(* ===== verification/Documents.v ===== *)
(** * Specifications and reviews on disk

    Translates internal/storage/listing.go, specification.go and review.go: numbered
    Markdown files with an optional YAML front matter.  Both stores have the same
    operations; [Kind] says where they differ.  YAML is a parameter.  A directory maps
    the names in it to their content; a directory in it has none. *)

From S2P Require Import Prelude Names Text.
From S2P Require Regex.

(** ** Data *)

(** [Specification] and [Review]; a specification has no reviewer. *)
Record Document := mkDocument {
  Number : Z;
  Title : string;
  Status : string;
  DocContent : string;
  Reviewer : string;
  CreatedAt : Time;
  UpdatedAt : Time;
  CompletedAt : Time
}.

#[export] Instance eta_Document : Eta Document := fun d =>
  mkDocument (Number d) (Title d) (Status d) (DocContent d) (Reviewer d) (CreatedAt d) (UpdatedAt d) (CompletedAt d).

(** The name of the files, the status of a file that names none, the statuses that
    complete a document, the heading in gathered text, and what the errors say. *)
Record Kind := mkKind {
  k_prefix : string;
  k_default : string;
  k_final : list string;
  k_heading : string;
  k_listing : string;
  k_marshalling : string;
  k_allowed : string
}.

Definition specifications : Kind := mkKind "specification-" "draft" ["done"] "### Specification " "list specifications: "
  "marshal specification frontmatter: " ": must contain only alphanumeric characters, hyphens, and underscores".
Definition reviews : Kind := mkKind "review-" "pending" ["approved"; "rejected"] "### Review " "list reviews: " "marshal review frontmatter: " "".

Notation DirMap := (gmap string (option string)).

(** The directory: an error, or what is in it if it exists. *)
Definition Listing : Type := string + option DirMap.

(** [yaml.Marshal] of the front matter, and [yaml.Unmarshal] into a document, with
    whether it fails. *)
Class FrontMatter := {
  marshal : Document -> string + string;
  unmarshal : string -> Document -> Document * bool
}.

(** ** Names *)

(** The expression is [^[a-zA-Z0-9_-]+$] *)
Definition isValidTaskID (taskID : string) : bool :=
  if decide (taskID = "") then false else
  if contains ".." taskID || contains "\" taskID || contains "/" taskID then false else
  Regex.MatchString "^[a-zA-Z0-9_-]+$" taskID.

(** [strings.Cut]: before and after the first occurrence. *)
Fixpoint cut_at (sep s : string) : option (string * string) :=
  match CutPrefix s sep with
  | Some after => Some ("", after)
  | None =>
      match s with
      | "" => None
      | String c s => (fun p : string * string => (String c p.1, p.2)) <$> cut_at sep s
      end
  end.

Section Store.
Context `{FrontMatter} (k : Kind).

Definition filename (number : Z) : string := k_prefix k +:+ pretty number +:+ ".md".

(** The number in a name that matches [^specification-(\d+)\.md$]. *)
Definition file_number (name : string) : option Z :=
  match CutPrefix name (k_prefix k) with
  | Some rest =>
      match some_digits rest with
      | Some (ds, rest) => if decide (rest = ".md") then Atoi ds else None
      | None => None
      end
  | None => None
  end.

(** ** Operations *)

(** [slices.Sort] *)
Fixpoint insert_number (n : Z) (l : list Z) : list Z :=
  match l with [] => [n] | m :: l => if (n <=? m)%Z then n :: m :: l else m :: insert_number n l end.
Definition sort_numbers (l : list Z) : list Z := foldr insert_number [] l.

(** The numbers of the files; a name that is a directory does not count. *)
Definition numbers_in (d : DirMap) : list Z :=
  sort_numbers (omap (fun p : string * option string => match p.2 with Some _ => file_number p.1 | None => None end) (map_to_list d)).

Definition ListNumberedFiles (l : Listing) : string + list Z :=
  match l with inl err => inl err | inr None => inr [] | inr (Some d) => inr (numbers_in d) end.

(** [ListSpecifications], [ListReviews] *)
Definition ListAll (l : Listing) : string + list Z :=
  match ListNumberedFiles l with inl err => inl (k_listing k +:+ err) | inr ns => inr ns end.

(** [SpecificationCount], [ReviewCount] *)
Definition Count (l : Listing) : string + nat := match ListAll l with inl err => inl err | inr ns => inr (length ns) end.

Definition NextNumber (l : Listing) : string + Z :=
  match ListAll l with
  | inl err => inl err
  | inr ns => inr (match ns with [] => 1%Z | _ => wrap64 (List.last ns 0 + 1)%Z end)
  end.

Definition file_content (l : Listing) (number : Z) : option string :=
  match l with inr (Some d) => mjoin (d !! filename number) | _ => None end.

(** [LoadSpecification], [LoadReview]; the error is the system's. *)
Definition Load (l : Listing) (number : Z) : string + string :=
  match file_content l number with Some c => inr c | None => inl ("open " +:+ filename number) end.

(** Saving: [io] are the errors of making the directory and of writing. *)
Definition Save (io : option string) (taskID : string) (number : Z) (content : string) (l : Listing) : Listing * option string :=
  if negb (isValidTaskID taskID) then (l, Some ("invalid task ID " +:+ quote taskID +:+ k_allowed k)) else
  match io, l with
  | Some err, _ => (l, Some err)
  | None, inl err => (l, Some err)
  | None, inr d => (inr (Some (<[filename number := Some content]> (default ∅ d))), None)
  end.

Definition Delete (number : Z) (l : Listing) : Listing :=
  match l with inr (Some d) => inr (Some (delete (filename number) d)) | _ => l end.

(** Files that cannot be read are left out. *)
Definition Gather (l : Listing) : string + string :=
  match ListAll l with
  | inl err => inl err
  | inr ns => inr (join_with (nl +:+ nl +:+ "---" +:+ nl +:+ nl)
      (omap (fun n => (fun c => k_heading k +:+ pretty n +:+ nl +:+ nl +:+ c) <$> file_content l n) ns))
  end.

(** The content of the last one and its number; 0 when there is none. *)
Definition GetLatestContent (l : Listing) : string + (string * Z) :=
  match ListAll l with
  | inl err => inl err
  | inr [] => inr ("", 0%Z)
  | inr ns => let n := List.last ns 0%Z in match Load l n with inl err => inl err | inr c => inr (c, n) end
  end.

(** *** Front matter *)

(** The first heading of level one. *)
Fixpoint heading (lines : list string) : option string :=
  match lines with
  | [] => None
  | line :: lines => match CutPrefix line "# " with Some title => Some title | None => heading lines end
  end.

Definition line_feed : Ascii.ascii := Ascii.ascii_of_nat 10.
Definition fence : string := nl +:+ "---".

Definition with_title (d : Document) : Document :=
  match heading (Split line_feed (DocContent d)) with Some title => d <| Title := title |> | None => d end.

Definition blank (number : Z) : Document := mkDocument number "" (k_default k) "" "" 0%Z 0%Z 0%Z.

Definition parse_document (number : Z) (content : string) : Document :=
  let plain := blank number <| DocContent := content |> in
  with_title
    match CutPrefix content ("---" +:+ nl) with
    | Some rest =>
        match cut_at fence rest with
        | Some (String _ _ as frontmatter, after) =>
            let '(d, err) := unmarshal frontmatter (blank number) in
            d <| DocContent := if err : bool then content else TrimSpace after |>
        | _ => plain
        end
    | None => plain
    end.

Definition Parse (l : Listing) (number : Z) : string + Document :=
  match Load l number with inl err => inl err | inr content => inr (parse_document number content) end.

Definition stamped (now : Time) (d : Document) : Document :=
  (if (CreatedAt d =? 0)%Z then d <| CreatedAt := now |> else d) <| UpdatedAt := now |>.

Definition print_document (frontmatter content : string) : string :=
  "---" +:+ nl +:+ frontmatter +:+ "---" +:+ nl +:+ nl +:+ content.

Definition SaveWithMeta (io : option string) (now : Time) (taskID : string) (d : Document) (l : Listing) : Listing * option string :=
  let d := stamped now d in
  match marshal d with
  | inl err => (l, Some (k_marshalling k +:+ err))
  | inr frontmatter => Save io taskID (Number d) (print_document frontmatter (DocContent d)) l
  end.

Definition with_status (now : Time) (status : string) (d : Document) : Document :=
  let d := d <| Status := status |> <| UpdatedAt := now |> in
  if bool_decide (status ∈ k_final k) && (CompletedAt d =? 0)%Z then d <| CompletedAt := now |> else d.

Definition UpdateStatus (io : option string) (now : Time) (taskID : string) (number : Z) (status : string) (l : Listing) : Listing * option string :=
  match Parse l number with
  | inl err => (l, Some err)
  | inr d => SaveWithMeta io now taskID (with_status now status d) l
  end.

(** [GetLatestReview], which only reviews have *)
Definition GetLatest (l : Listing) : string + option Document :=
  match ListAll l with
  | inl err => inl err
  | inr [] => inr None
  | inr ns => match Parse l (List.last ns 0%Z) with inl err => inl err | inr d => inr (Some d) end
  end.

(** Documents that cannot be read have the status "error". *)
Definition ListWithStatus (l : Listing) : string + list Document :=
  match ListAll l with
  | inl err => inl err
  | inr ns => inr ((fun n => match Parse l n with inl _ => mkDocument n "" "error" "" "" 0%Z 0%Z 0%Z | inr d => d end) <$> ns)
  end.
End Store.

Definition count_status (summary : gmap string Z) (d : Document) : gmap string Z :=
  <[Status d := (default 0 (summary !! Status d) + 1)%Z]> summary.

Definition GetSpecificationsSummary `{FrontMatter} (l : Listing) : string + gmap string Z :=
  match ListWithStatus specifications l with
  | inl err => inl err
  | inr ds => inr (fold_left count_status ds {["draft" := 0%Z; "ready" := 0%Z; "implementing" := 0%Z; "done" := 0%Z]})
  end.

(** The store of reviews. *)
Section Reviews.
Context `{FrontMatter}.

Definition SaveReview := Save reviews.
Definition LoadReview := Load reviews.
Definition ListReviews := ListAll reviews.
Definition NextReviewNumber := NextNumber reviews.
Definition ParseReview := Parse reviews.
Definition SaveReviewWithMeta := SaveWithMeta reviews.
Definition UpdateReviewStatus := UpdateStatus reviews.
Definition DeleteReview := Delete reviews.
Definition ReviewCount := Count reviews.
Definition GatherReviewsContent := Gather reviews.
End Reviews.

(** ** Lemmas: numbers *)

Lemma insert_number_perm n l : insert_number n l ≡ₚ n :: l.
Proof. induction l as [|m l IH]; [done|]. cbn. destruct (n <=? m)%Z; [done|]. rewrite IH. constructor. Qed.

Lemma sort_numbers_perm l : sort_numbers l ≡ₚ l.
Proof. induction l as [|n l IH]; [done|]. cbn [sort_numbers foldr]. rewrite insert_number_perm. by constructor. Qed.

Lemma insert_number_sorted n l : StronglySorted Z.le l -> StronglySorted Z.le (insert_number n l).
Proof.
  induction 1 as [|m l Hl IH Hm]; cbn; [by repeat constructor|]. destruct (Z.leb_spec n m) as [Hnm|Hnm].
  - constructor; [by constructor|]. constructor; [done|]. eapply Forall_impl; [exact Hm|]. intros; lia.
  - constructor; [done|]. rewrite insert_number_perm. constructor; [lia|done].
Qed.

Lemma sort_numbers_sorted l : StronglySorted Z.le (sort_numbers l).
Proof. induction l as [|n l IH]; [constructor|]. by apply insert_number_sorted. Qed.

(** What is not less than the elements comes last. *)
Lemma insert_last n l : Forall (fun m => (m < n)%Z) l -> insert_number n l = l ++ [n].
Proof.
  induction 1 as [|m l Hm _ IH]; [done|]. cbn. destruct (Z.leb_spec n m); [lia|]. by rewrite IH.
Qed.

Lemma sorted_unique l l' : StronglySorted Z.le l -> StronglySorted Z.le l' -> l ≡ₚ l' -> l = l'.
Proof. intros H1 H2 Hp. by apply (StronglySorted_unique Z.le). Qed.

Lemma sort_numbers_cons n l : Forall (fun m => (m < n)%Z) l -> sort_numbers (n :: l) = sort_numbers l ++ [n].
Proof. intros H. cbn [sort_numbers foldr]. apply insert_last. by rewrite sort_numbers_perm. Qed.

(** The last number of a sorted list bounds the others. *)
Lemma sorted_last l : StronglySorted Z.le l -> Forall (fun m => (m <= List.last l 0)%Z) l.
Proof.
  induction 1 as [|m l Hl IH Hm]; [constructor|]. destruct l as [|m' l]; [by repeat constructor|].
  change (List.last (m :: m' :: l) 0%Z) with (List.last (m' :: l) 0%Z). constructor; [|done].
  apply Forall_cons in Hm as [Hm _]. apply Forall_cons in IH as [IH _]. lia.
Qed.

Section Numbers.
Context (k : Kind).

Lemma file_number_filename n : (0 <= n <= max_int64)%Z -> file_number k (filename k n) = Some n.
Proof.
  intros Hn. unfold file_number, filename. rewrite CutPrefix_app, some_digits_pretty; [|lia|done].
  by rewrite decide_True, Atoi_pretty.
Qed.

Lemma file_number_bounds name n : file_number k name = Some n -> (n <= max_int64)%Z.
Proof.
  unfold file_number, Atoi. repeat case_match; try done. intros [= <-]. lia.
Qed.

Definition number_of (p : string * option string) : option Z := match p.2 with Some _ => file_number k p.1 | None => None end.

Lemma numbers_in_spec d : StronglySorted Z.le (numbers_in k d) /\
  forall n, n ∈ numbers_in k d <-> exists name c, d !! name = Some (Some c) /\ file_number k name = Some n.
Proof.
  split; [apply sort_numbers_sorted|]. intros n. unfold numbers_in. rewrite sort_numbers_perm, list_elem_of_omap. split.
  - intros ([name [c|]] & Hin & E); [|done]. apply elem_of_map_to_list in Hin. eauto.
  - intros (name & c & Hd & E). exists (name, Some c). split; [by apply elem_of_map_to_list|done].
Qed.

(** A number above those that are there goes to the end of the list. *)
Lemma numbers_in_insert d n c : (0 <= n <= max_int64)%Z -> Forall (fun m => (m < n)%Z) (numbers_in k d) ->
  numbers_in k (<[filename k n := Some c]> d) = numbers_in k d ++ [n].
Proof.
  intros Hn Hlt. destruct (numbers_in_spec d) as [Hs He].
  assert (match d !! filename k n with Some (Some _) => False | _ => True end) as Hfresh.
  { destruct (d !! filename k n) as [[c'|]|] eqn:E; [|done..]. rewrite Forall_forall in Hlt.
    assert (n < n)%Z; [|lia]. apply Hlt, He. exists (filename k n), c'. split; [done|by apply file_number_filename]. }
  rewrite <- (insert_last n (numbers_in k d)) by done. apply sorted_unique.
  - apply numbers_in_spec.
  - by apply insert_number_sorted.
  - unfold numbers_in. rewrite insert_number_perm, !sort_numbers_perm. fold number_of.
    rewrite <- (insert_delete_eq d (filename k n)). rewrite (map_to_list_insert _ _ _ (lookup_delete_eq d _)).
    assert (omap number_of (map_to_list d) ≡ₚ omap number_of (map_to_list (delete (filename k n) d))) as ->.
    { destruct (d !! filename k n) as [[c'|]|] eqn:E; [done| |by rewrite delete_id].
      rewrite <- (insert_delete_id d (filename k n) None) at 1 by done. by rewrite (map_to_list_insert _ _ _ (lookup_delete_eq d _)). }
    cbn [omap list_omap]. unfold number_of at 1. cbn [fst snd]. by rewrite file_number_filename.
Qed.
End Numbers.

Lemma digit_value_bounds c d : digit_value c = Some d -> (0 <= d <= 9)%Z.
Proof.
  unfold digit_value. destruct (_ && _) eqn:E; [|done]. apply andb_true_iff in E as [?%Nat.leb_le ?%Nat.leb_le].
  intros [= <-]. lia.
Qed.

Lemma decimal_nonneg ds acc : (0 <= acc)%Z -> (0 <= decimal acc ds)%Z.
Proof.
  revert acc. induction ds as [|c ds IH]; intros acc Ha; [done|]. cbn [decimal]. apply IH.
  destruct (digit_value c) as [d|] eqn:E; cbn [from_option]; unfold id; [apply digit_value_bounds in E|]; lia.
Qed.

Lemma file_number_nonneg k name n : file_number k name = Some n -> (0 <= n)%Z.
Proof.
  unfold file_number, Atoi. repeat case_match; try done. intros [= <-]. by apply decimal_nonneg.
Qed.

(** ** Lemmas: front matter *)

Lemma has_prefix_dashes (fm t : string) : has_prefix fm "---" = false -> CutPrefix (fm +:+ (nl +:+ t)) "---" = None.
Proof.
  intros H. apply CutPrefix_none. unfold has_prefix in *. destruct fm as [|a [|b [|c fm]]].
  - done.
  - rewrite string_app_cons. cbn [String.prefix]. case_match; [|done]. done.
  - rewrite !string_app_cons. cbn [String.prefix]. repeat (case_match; [|done]). done.
  - rewrite !string_app_cons. cbn [String.prefix] in *. repeat (case_match; [|done]). exfalso. by destruct fm.
Qed.

Lemma cut_at_fence fm after : contains fence fm = false -> cut_at fence (fm +:+ (fence +:+ after)) = Some (fm, after).
Proof.
  induction fm as [|c fm IH]; intros H.
  - change ("" +:+ (fence +:+ after)) with (fence +:+ after). unfold cut_at. destruct (fence +:+ after) eqn:E; [done|].
    rewrite <- E. by rewrite CutPrefix_app.
  - cbn [contains] in H. apply orb_false_iff in H as [Hp Hc]. rewrite string_app_cons. cbn [cut_at].
    assert (CutPrefix (String c (fm +:+ (fence +:+ after))) fence = None) as ->.
    { change fence with (String (Ascii.ascii_of_nat 10) "---") at 2. cbn [CutPrefix]. case_decide as Ec; [|done].
      change (fm +:+ (fence +:+ after)) with (fm +:+ (nl +:+ ("---" +:+ after))). apply has_prefix_dashes.
      unfold has_prefix. change (String.prefix (String (Ascii.ascii_of_nat 10) "---") (String c fm) = false) in Hp.
      cbn [String.prefix] in Hp. subst c. by destruct (Ascii.ascii_dec _ _). }
    by rewrite (IH Hc).
Qed.

Lemma TrimSpace_feeds s : TrimSpace (nl +:+ (nl +:+ s)) = TrimSpace s.
Proof. done. Qed.

Section Documents.
Context `{FrontMatter} (k : Kind).

(** A document whose front matter is read back as it was. *)
Definition reads_back (d : Document) : Prop :=
  exists fm, marshal d = inr (fm +:+ nl) /\ fm <> "" /\ contains fence fm = false /\
    unmarshal fm (blank k (Number d)) = (d <| DocContent := "" |>, false).

Lemma parse_printed d fm : fm <> "" -> contains fence fm = false ->
  unmarshal fm (blank k (Number d)) = (d <| DocContent := "" |>, false) ->
  parse_document k (Number d) (print_document (fm +:+ nl) (DocContent d)) = with_title (d <| DocContent := TrimSpace (DocContent d) |>).
Proof.
  intros Hne Hc Hu. unfold parse_document, print_document.
  assert ("---" +:+ nl +:+ (fm +:+ nl) +:+ "---" +:+ nl +:+ nl +:+ DocContent d
          = ("---" +:+ nl) +:+ (fm +:+ (fence +:+ (nl +:+ (nl +:+ DocContent d))))) as ->.
  { unfold fence. by rewrite !string_app_assoc. }
  rewrite CutPrefix_app, cut_at_fence by done. destruct fm as [|c fm]; [done|]. rewrite Hu, TrimSpace_feeds. by destruct d.
Qed.

Lemma Load_saved taskID number content l io : (Save k io taskID number content l).2 = None ->
  Load k (Save k io taskID number content l).1 number = inr content.
Proof.
  unfold Save. destruct (isValidTaskID taskID); [|done]. destruct io; [done|]. destruct l as [|d]; [done|]. intros _. cbn [negb fst].
  unfold Load, file_content. cbv beta iota. by rewrite lookup_insert_eq.
Qed.

(** ** Theorems *)

(** what is saved under the next number is the last document from then on: it is
    listed after the others, it is what [GetLatest...] gives, and it overwrites
    nothing. *)
Theorem save_next_is_latest taskID content l ns n :
  ListAll k l = inr ns -> NextNumber k l = inr n -> (List.last ns 0 < max_int64)%Z -> isValidTaskID taskID = true ->
  let l' := (Save k None taskID n content l).1 in
  ListAll k l' = inr (ns ++ [n]) /\ GetLatestContent k l' = inr (content, n) /\ file_content k l n = None /\
  forall m, m <> n -> (0 <= m <= max_int64)%Z -> file_content k l' m = file_content k l m.
Proof.
  intros Hl Hn Hmax Hv l'. unfold NextNumber in Hn. rewrite Hl in Hn. injection Hn as Hn.
  assert (StronglySorted Z.le ns /\ forall m, m ∈ ns -> (0 <= m)%Z) as [Hs Hpos].
  { unfold ListAll, ListNumberedFiles in Hl. destruct l as [|[d|]]; [done| |]; injection Hl as <-; [|split; [constructor|by intros m ?%elem_of_nil]].
    destruct (numbers_in_spec k d) as [Hs He]. split; [done|]. intros m (name & c & _ & E)%He. by eapply file_number_nonneg. }
  pose proof (sorted_last ns Hs) as Hlast.
  assert (0 <= n <= max_int64 /\ Forall (fun m => m < n) ns)%Z as [Hb Hlt].
  { destruct ns as [|m ns]; [subst n; split; [done|constructor]|].
    assert (0 <= List.last (m :: ns) 0)%Z as Hp.
    { apply Forall_cons in Hlast as [H1 _]. specialize (Hpos m ltac:(by left)). lia. }
    rewrite <- Hn. unfold wrap64. unfold max_int64 in *. rewrite Z.mod_small by lia. split; [lia|].
    eapply Forall_impl; [exact Hlast|]. cbv beta. intros x Hx. lia. }
  clear Hn. assert (exists d, l' = inr (Some (<[filename k n := Some content]> d)) /\ ns = numbers_in k d /\
      (forall m, file_content k l m = mjoin (d !! filename k m))) as (d & -> & -> & Hd).
  { subst l'. unfold Save. rewrite Hv. cbn [negb]. destruct l as [|[d|]]; [done| |]; cbn [fst default]; injection Hl as <-.
    - by exists d.
    - exists ∅. split_and!; [done| |intros m; by rewrite lookup_empty]. unfold numbers_in. by rewrite map_to_list_empty. }
  pose proof (numbers_in_insert k d n content Hb Hlt) as Ens. split_and!.
  - unfold ListAll; cbn [ListNumberedFiles]. by rewrite Ens.
  - unfold GetLatestContent, ListAll. cbn [ListNumberedFiles]. rewrite Ens, List.last_last. unfold Load, file_content. cbv beta iota. rewrite lookup_insert_eq.
    cbn. by destruct (numbers_in k d).
  - rewrite Hd. destruct (d !! filename k n) as [[c|]|] eqn:E; [|done..]. rewrite Forall_forall in Hlt.
    assert (n < n)%Z; [|lia]. apply Hlt, numbers_in_spec. exists (filename k n), c. split; [done|by apply file_number_filename].
  - intros m Hm Hmb. rewrite Hd. cbn. rewrite lookup_insert_ne; [done|]. intros E. apply Hm.
    pose proof (file_number_filename k n Hb) as E1. rewrite E, file_number_filename in E1 by done. by injection E1.
Qed.

(** a document that was saved with its front matter is parsed as it was, but for
    spaces around its content, which are cut, and its title, which is that of the
    first heading when there is one; so a change of status loses nothing else. *)
Theorem document_roundtrip io now taskID d l :
  (SaveWithMeta k io now taskID d l).2 = None -> reads_back (stamped now d) ->
  Parse k (SaveWithMeta k io now taskID d l).1 (Number d)
  = inr (with_title (stamped now d <| DocContent := TrimSpace (DocContent d) |>)).
Proof.
  intros Hok (fm & Hm & Hne & Hc & Hu). unfold SaveWithMeta in *. rewrite Hm in *. cbn [fst snd] in *.
  assert (Number (stamped now d) = Number d) as En by (unfold stamped; by destruct (CreatedAt d =? 0)%Z).
  assert (DocContent (stamped now d) = DocContent d) as Ec by (unfold stamped; by destruct (CreatedAt d =? 0)%Z).
  rewrite En, Ec in *. unfold Parse. rewrite Load_saved by done. f_equal.
  pose proof (parse_printed (stamped now d) fm Hne Hc) as Hp. rewrite En, Ec in Hp. by apply Hp.
Qed.
End Documents.

(** ** Witnesses *)

(** A front matter that only holds the status. *)
#[local] Instance status_only : FrontMatter := {
  marshal d := inr ("status: " +:+ Status d +:+ nl);
  unmarshal fm d := match CutPrefix fm "status: " with Some s => (d <| Status := s |>, false) | None => (d, true) end
}.

Definition two_specs : Listing :=
  inr (Some {["specification-2.md" := Some "two"; "specification-10.md" := Some "ten"; "specification-x.md" := Some "x";
              "specification-11.md" := None]}).

Lemma save_next_is_latest_witness :
  NextNumber specifications two_specs = inr 11%Z /\
  ListAll specifications (Save specifications None "task-1" 11 "new" two_specs).1 = inr [2; 10; 11]%Z /\
  GetLatestContent specifications (Save specifications None "task-1" 11 "new" two_specs).1 = inr ("new", 11%Z).
Proof.
  destruct (save_next_is_latest specifications "task-1" "new" two_specs [2; 10]%Z 11) as (H1 & H2 & _); [by vm_compute..|].
  split_and!; [by vm_compute|exact H1|exact H2].
Defined.

Definition a_review : Document := mkDocument 3 "" "pending" "# Title

text
" "" 0%Z 0%Z 0%Z.

Lemma document_roundtrip_witness :
  Parse reviews (SaveWithMeta reviews None 0%Z "t" (with_status reviews 0%Z "approved" a_review) (inr None)).1 3%Z
  = inr (mkDocument 3 "Title" "approved" "# Title

text" "" 0%Z 0%Z 0%Z).
Proof.
  rewrite (document_roundtrip reviews None 0%Z "t" (with_status reviews 0%Z "approved" a_review) (inr None)).
  - by vm_compute.
  - by vm_compute.
  - exists "status: approved". split_and!; by vm_compute.
Defined.

(** ** What goes wrong *)

(** A file that was named with leading zeros is listed, but under its number there is
    no file: the latest specification cannot be read, and the gathered text is empty. *)
Lemma padded_number_unreadable :
  let l : Listing := inr (Some {["specification-01.md" := Some "text"]}) in
  ListAll specifications l = inr [1%Z] /\ GetLatestContent specifications l = inl "open specification-1.md" /\
  Gather specifications l = inr "".
Proof. by vm_compute. Qed.

(** A front matter without a line is taken for content. *)
Lemma empty_front_matter_is_content :
  parse_document reviews 1 "---
---
text" = mkDocument 1 "" "pending" "---
---
text" "" 0%Z 0%Z 0%Z.
Proof. by vm_compute. Qed.
