(* ===== verification/Sessions.v ===== *)
(** * Sessions, chats and the archive

    Translates internal/storage/session.go, chat.go and archive.go: three stores that
    read a file, change it and write it back under a lock.  A file is missing, cannot be
    read or decoded (with the error of [LoadJSON]), or holds what was written to it;
    [io] is the error of writing it, [now] the clock's reading of the operation, and
    [sort] the library's sorting of the archive. *)

From S2P Require Import Prelude Names Text Paths.
From S2P Require GraphDef.

Inductive Stored (A : Type) := Missing | Broken (err : string) | Held (a : A).
Arguments Missing {A}.
Arguments Broken {A} err.
Arguments Held {A} a.

(** [LoadJSON]: the value, [empty] for a missing file, or an error with the prefix [what]. *)
Definition load {A} (what : string) (empty : A) (f : Stored A) : string + A :=
  match f with Missing => inr empty | Broken err => inl (what +:+ err) | Held a => inr a end.

(** [SaveJSON] after [EnsureDir] *)
Definition save {A} (io : option string) (a : A) (f : Stored A) : Stored A * option string :=
  match io with Some err => (f, Some err) | None => (Held a, None) end.

(** ** Sessions *)

Record SessionEntry := mkSession {
  SessionID : string;
  AgentType : string;
  TaskID : string;
  Phase : string;
  CreatedAt : Time;
  UpdatedAt : Time
}.

#[export] Instance eta_SessionEntry : Eta SessionEntry := fun e =>
  mkSession (SessionID e) (AgentType e) (TaskID e) (Phase e) (CreatedAt e) (UpdatedAt e).

Notation Entries := (gmap string SessionEntry).

Record Sessions := mkSessions { entries : Entries; changed_at : Time }.

Definition sessionKey (taskID phase : string) : string := taskID +:+ ":" +:+ phase.

Definition loadSessionsLocked (f : Stored Sessions) : string + Sessions := load "load sessions: " (mkSessions ∅ 0%Z) f.

Definition entry_stamped (now : Time) (e : SessionEntry) : SessionEntry :=
  (if (CreatedAt e =? 0)%Z then e <| CreatedAt := now |> else e) <| UpdatedAt := now |>.

Definition SaveSession (now : Time) (io : option string) (entry : SessionEntry) (f : Stored Sessions) : Stored Sessions * option string :=
  let sessions := match loadSessionsLocked f with inl _ => mkSessions ∅ 0%Z | inr s => s end in
  save io (mkSessions (<[sessionKey (TaskID entry) (Phase entry) := entry_stamped now entry]> (entries sessions)) now) f.

Definition GetSession (taskID phase : string) (f : Stored Sessions) : option SessionEntry :=
  match loadSessionsLocked f with inl _ => None | inr s => entries s !! sessionKey taskID phase end.

(** The first in an order of the map. *)
Definition GetSessionByID (range : Entries -> list SessionEntry) (sessionID : string) (f : Stored Sessions) : option SessionEntry :=
  match loadSessionsLocked f with
  | inl _ => None
  | inr s => List.find (fun e => bool_decide (SessionID e = sessionID)) (range (entries s))
  end.

Definition DeleteSession (now : Time) (io : option string) (taskID phase : string) (f : Stored Sessions) : Stored Sessions * option string :=
  match loadSessionsLocked f with
  | inl _ => (f, None)
  | inr s => save io (mkSessions (delete (sessionKey taskID phase) (entries s)) now) f
  end.

Definition DeleteSessionsForTask (now : Time) (io : option string) (taskID : string) (f : Stored Sessions) : Stored Sessions * option string :=
  match loadSessionsLocked f with
  | inl _ => (f, None)
  | inr s => save io (mkSessions (filter (fun p : string * SessionEntry => TaskID p.2 <> taskID) (entries s)) now) f
  end.

Definition ListSessionsForTask (taskID : string) (f : Stored Sessions) : Entries :=
  match loadSessionsLocked f with inl _ => ∅ | inr s => filter (fun p : string * SessionEntry => TaskID p.2 = taskID) (entries s) end.

Definition UpdateSessionTimestamp (now : Time) (io : option string) (taskID phase : string) (f : Stored Sessions) : Stored Sessions * option string :=
  match loadSessionsLocked f with
  | inl err => (f, Some ("load sessions: " +:+ err))
  | inr s =>
      let key := sessionKey taskID phase in
      match entries s !! key with
      | None => (f, Some ("session not found for " +:+ key))
      | Some e => save io (mkSessions (<[key := e <| UpdatedAt := now |>]> (entries s)) now) f
      end
  end.

(** The number of removed sessions, or the error. *)
Definition CleanOldSessions (now : Time) (io : option string) (maxAge : Duration) (f : Stored Sessions) : Stored Sessions * (string + nat) :=
  match loadSessionsLocked f with
  | inl err => (f, inl err)
  | inr s =>
      let kept := filter (fun p : string * SessionEntry => (now - maxAge <= UpdatedAt p.2)%Z) (entries s) in
      let removed := size (entries s) - size kept in
      if decide (0 < removed) then
        match save io (mkSessions kept now) f with (f, Some err) => (f, inl err) | (f, None) => (f, inr removed) end
      else (f, inr 0)
  end.

(** ** Chats *)

Record ChatMessage := mkMessage {
  m_ID : string;
  m_Role : string;
  m_Content : string;
  m_Mentions : list string;
  m_Timestamp : string;
  m_JobID : string
}.

#[export] Instance eta_ChatMessage : Eta ChatMessage := fun m =>
  mkMessage (m_ID m) (m_Role m) (m_Content m) (m_Mentions m) (m_Timestamp m) (m_JobID m).

Record ChatHistory := mkHistory { h_TaskID : string; h_Messages : list ChatMessage; h_UpdatedAt : Time }.

Definition loadHistoryLocked (taskID : string) (f : Stored ChatHistory) : string + ChatHistory := load "load chat history: " (mkHistory taskID [] 0%Z) f.

(** [now] in seconds, printed as RFC 3339 by [format]. *)
Definition SaveMessage (format : Time -> string) (now : Time) (io : option string) (taskID : string) (msg : ChatMessage) (f : Stored ChatHistory)
  : Stored ChatHistory * option string :=
  let msg := if decide (m_Timestamp msg = "") then msg <| m_Timestamp := format now |> else msg in
  let history := match loadHistoryLocked taskID f with inl _ => mkHistory taskID [] 0%Z | inr h => h end in
  save io (mkHistory (h_TaskID history) (h_Messages history ++ [msg]) now) f.

Definition ClearHistory (now : Time) (io : option string) (taskID : string) (f : Stored ChatHistory) : Stored ChatHistory * option string :=
  save io (mkHistory taskID [] now) f.

Definition DeleteHistory (io : option string) (f : Stored ChatHistory) : Stored ChatHistory * option string :=
  match f, io with
  | Missing, _ => (Missing, None)
  | _, Some err => (f, Some ("remove chat history: " +:+ err))
  | _, None => (Missing, None)
  end.

Definition MessageCount (taskID : string) (f : Stored ChatHistory) : string + nat :=
  match loadHistoryLocked taskID f with inl err => inl err | inr h => inr (length (h_Messages h)) end.

Definition GetLastMessage (taskID : string) (f : Stored ChatHistory) : string + option ChatMessage :=
  match loadHistoryLocked taskID f with inl err => inl err | inr h => inr (last (h_Messages h)) end.

Definition GetMessagesByRole (taskID role : string) (f : Stored ChatHistory) : string + list ChatMessage :=
  match loadHistoryLocked taskID f with
  | inl err => inl err
  | inr h => inr (List.filter (fun m => bool_decide (m_Role m = role)) (h_Messages h))
  end.

(** ** The archive *)

Record ArchivedTask := mkArchived {
  a_ID : string;
  a_Title : string;
  a_Description : string;
  a_Branch : string;
  a_Source : string;
  a_FinalState : string;
  a_StartedAt : Time;
  a_CompletedAt : Time;
  a_Duration : string;
  a_FilesTouched : list string;
  a_Tags : list string;
  a_PhasesRun : list string;
  a_AgentUsed : string
}.

Record SearchOptions := mkSearch {
  so_Query : string;
  so_Tag : string;
  so_Since : Time;
  so_Until : Time;
  so_State : string;
  so_Limit : Z;
  so_File : string
}.

Definition matches (o : SearchOptions) (t : ArchivedTask) : bool :=
  let q := GraphDef.to_lower (so_Query o) in
  let holds s := contains q (GraphDef.to_lower s) in
  (bool_decide (so_Query o = "") || holds (a_Title t) || holds (a_Branch t) || holds (a_Source t) || holds (a_Description t)) &&
  (bool_decide (so_Tag o = "") || existsb (fun tag => bool_decide (GraphDef.to_lower tag = GraphDef.to_lower (so_Tag o))) (a_Tags t)) &&
  ((so_Since o =? 0)%Z || negb (a_CompletedAt t <? so_Since o)%Z) &&
  ((so_Until o =? 0)%Z || negb (so_Until o <? a_CompletedAt t)%Z) &&
  (bool_decide (so_State o = "") || bool_decide (a_FinalState t = so_State o)) &&
  (bool_decide (so_File o = "") || existsb (fun f => contains (so_File o) f) (a_FilesTouched t)).

(** The loop of the search, [found] results so far. *)
Fixpoint collect (o : SearchOptions) (found : Z) (ts : list ArchivedTask) : list ArchivedTask :=
  match ts with
  | [] => []
  | t :: ts =>
      if matches o t then
        t :: (if ((0 <? so_Limit o) && (so_Limit o <=? found + 1))%Z then [] else collect o (found + 1) ts)
      else collect o found ts
  end.

Section Archive.
Context (sort : list ArchivedTask -> list ArchivedTask).

Definition ListArchivedTasks (f : Stored (list ArchivedTask)) : string + list ArchivedTask :=
  match f with Missing => inr [] | Broken err => inl err | Held ts => inr (sort ts) end.

Definition ArchiveTask (io : option string) (task : ArchivedTask) (f : Stored (list ArchivedTask)) : Stored (list ArchivedTask) * option string :=
  let tasks := match ListArchivedTasks f with inl _ => [] | inr ts => ts end in save io (tasks ++ [task]) f.

Definition SearchArchivedTasks (o : SearchOptions) (f : Stored (list ArchivedTask)) : string + list ArchivedTask :=
  match ListArchivedTasks f with inl err => inl err | inr ts => inr (collect o 0%Z ts) end.
End Archive.

(** ** What the sessions are

    A map of sessions by task and phase. *)

Inductive Command :=
| CmdSave (now : Time) (e : SessionEntry)
| CmdDelete (now : Time) (taskID phase : string)
| CmdDeleteTask (now : Time) (taskID : string)
| CmdTouch (now : Time) (taskID phase : string)
| CmdClean (now : Time) (maxAge : Duration).

Definition run_command (c : Command) (f : Stored Sessions) : Stored Sessions :=
  match c with
  | CmdSave now e => (SaveSession now None e f).1
  | CmdDelete now t p => (DeleteSession now None t p f).1
  | CmdDeleteTask now t => (DeleteSessionsForTask now None t f).1
  | CmdTouch now t p => (UpdateSessionTimestamp now None t p f).1
  | CmdClean now age => (CleanOldSessions now None age f).1
  end.

Notation SessionMap := (gmap (string * string) SessionEntry).

Definition command_spec (c : Command) (m : SessionMap) : SessionMap :=
  match c with
  | CmdSave now e => <[(TaskID e, Phase e) := entry_stamped now e]> m
  | CmdDelete _ t p => delete (t, p) m
  | CmdDeleteTask _ t => filter (fun x : string * string * SessionEntry => x.1.1 <> t) m
  | CmdTouch now t p => alter (fun e => e <| UpdatedAt := now |>) (t, p) m
  | CmdClean now age => filter (fun x : string * string * SessionEntry => (now - age <= UpdatedAt x.2)%Z) m
  end.

Definition colon : Ascii.ascii := Ascii.ascii_of_nat 58.
Definition plain (phase : string) : Prop := no_char colon phase = true.

(** The phases that a command names have no colon. *)
Definition plain_command (c : Command) : Prop :=
  match c with CmdSave _ e => plain (Phase e) | CmdDelete _ _ p | CmdTouch _ _ p => plain p | _ => True end.

(** ** Lemmas *)

Lemma sessionKey_inj t p t' p' : plain p -> plain p' -> sessionKey t p = sessionKey t' p' -> t = t' /\ p = p'.
Proof. apply (join_inj colon). Qed.

(** The entries of a file stand for a map. *)
Definition stands_for (m : SessionMap) (es : Entries) : Prop :=
  (forall t p e, m !! (t, p) = Some e -> TaskID e = t /\ Phase e = p /\ plain p) /\
  (forall key e, es !! key = Some e <-> key = sessionKey (TaskID e) (Phase e) /\ m !! (TaskID e, Phase e) = Some e).

Definition file_stands_for (m : SessionMap) (f : Stored Sessions) : Prop :=
  exists s, loadSessionsLocked f = inr s /\ stands_for m (entries s).

Lemma stands_lookup m es t p : stands_for m es -> plain p -> es !! sessionKey t p = m !! (t, p).
Proof.
  intros [Hm He] Hp. apply option_eq. intros e. rewrite He. split.
  - intros [E H]. destruct (Hm _ _ _ H) as (_ & _ & Hpe). apply sessionKey_inj in E as [-> ->]; done.
  - intros H. destruct (Hm _ _ _ H) as (<- & <- & _). done.
Qed.

Lemma stamped_names now e : TaskID (entry_stamped now e) = TaskID e /\ Phase (entry_stamped now e) = Phase e.
Proof. unfold entry_stamped. by destruct (CreatedAt e =? 0)%Z. Qed.

Lemma stands_insert m es t p e : stands_for m es -> TaskID e = t -> Phase e = p -> plain p ->
  stands_for (<[(t, p) := e]> m) (<[sessionKey t p := e]> es).
Proof.
  intros [Hm He] <- <- Hp. split.
  - intros t p e'. destruct (decide ((t, p) = (TaskID e, Phase e))) as [E|Hne].
    + injection E as -> ->. rewrite lookup_insert_eq. by intros [= <-].
    + rewrite lookup_insert_ne by done. apply Hm.
  - intros key e'. destruct (decide (key = sessionKey (TaskID e) (Phase e))) as [->|Hne].
    + rewrite lookup_insert_eq. split.
      * intros [= <-]. by rewrite lookup_insert_eq.
      * intros [E H]. destruct (decide ((TaskID e', Phase e') = (TaskID e, Phase e))) as [E'|Hne].
        { rewrite E', lookup_insert_eq in H. done. }
        rewrite lookup_insert_ne in H by done. destruct (Hm _ _ _ H) as (_ & _ & Hp'). exfalso.
        apply sessionKey_inj in E as [E1 E2]; [by rewrite E1, E2 in Hne|done..].
    + rewrite lookup_insert_ne by done. rewrite He. split; intros [-> H]; (split; [done|]).
      * rewrite lookup_insert_ne; [done|]. intros [= E1 E2]. by rewrite E1, E2 in Hne.
      * rewrite lookup_insert_ne in H; [done|]. intros [= E1 E2]. by rewrite E1, E2 in Hne.
Qed.

Lemma stands_delete m es t p : stands_for m es -> plain p -> stands_for (delete (t, p) m) (delete (sessionKey t p) es).
Proof.
  intros [Hm He] Hp. split.
  - intros t' p' e [_ H]%lookup_delete_Some. by apply Hm.
  - intros key e. rewrite !lookup_delete_Some, He. split.
    + intros (Hne & -> & H). split_and!; [done| |done]. intros [= E1 E2]. by rewrite E1, E2 in Hne.
    + intros (-> & Hne & H). split_and!; [|done..]. intros E. destruct (Hm _ _ _ H) as (_ & _ & Hp').
      apply sessionKey_inj in E as [E1 E2]; [by rewrite E1, E2 in Hne|done..].
Qed.

Lemma stands_filter m es (P : SessionEntry -> Prop) (Q : string * string * SessionEntry -> Prop) `{!forall x, Decision (Q x)}
    `{!forall p : string * SessionEntry, Decision (P p.2)} :
  stands_for m es -> (forall t p e, m !! (t, p) = Some e -> P e <-> Q (t, p, e)) ->
  stands_for (filter Q m) (filter (fun p : string * SessionEntry => P p.2) es).
Proof.
  intros [Hm He] HPQ. split.
  - intros t p e [Hx _]%map_lookup_filter_Some. by apply Hm.
  - intros key e. rewrite !map_lookup_filter_Some, He. cbn. split.
    + intros [[-> Hx] HP]. split_and!; [done..|]. by apply (HPQ _ _ _ Hx).
    + intros (-> & Hx & HQ). split_and!; [done..|]. by apply (HPQ _ _ _ Hx).
Qed.

Lemma alter_as_insert `{Countable K} {A} (g : A -> A) (m : gmap K A) k a : m !! k = Some a -> alter g k m = <[k := g a]> m.
Proof.
  intros E. apply map_eq. intros k'. destruct (decide (k = k')) as [->|Hne].
  - by rewrite lookup_alter_eq, E, lookup_insert_eq.
  - by rewrite lookup_alter_ne, lookup_insert_ne.
Qed.

Lemma alter_id_absent `{Countable K} {A} (g : A -> A) (m : gmap K A) k : m !! k = None -> alter g k m = m.
Proof.
  intros E. apply map_eq. intros k'. destruct (decide (k = k')) as [->|Hne].
  - by rewrite lookup_alter_eq, E.
  - by rewrite lookup_alter_ne.
Qed.

Lemma filter_same_size `{Countable K} {A} (P : K * A -> Prop) `{!forall x, Decision (P x)} (m : gmap K A) :
  size m <= size (filter P m) -> filter P m = m.
Proof. intros H'. apply map_subseteq_size_eq; [apply map_filter_subseteq|done]. Qed.

Lemma command_ok c m f : plain_command c -> file_stands_for m f -> file_stands_for (command_spec c m) (run_command c f).
Proof.
  intros Hc (s & Hl & Hs). unfold file_stands_for. destruct c as [now e|now t p|now t|now t p|now age]; cbn [run_command command_spec].
  - unfold SaveSession. rewrite Hl. cbn [save fst]. eexists. split; [reflexivity|]. cbn [entries].
    destruct (stamped_names now e) as [E1 E2]. by apply stands_insert; [done|exact E1|exact E2|exact Hc].
  - unfold DeleteSession. rewrite Hl. cbn [save fst]. eexists. split; [reflexivity|]. by apply stands_delete.
  - unfold DeleteSessionsForTask. rewrite Hl. cbn [save fst]. eexists. split; [reflexivity|]. cbn [entries].
    apply (stands_filter m (entries s) (fun e => TaskID e <> t) _ Hs). intros t' p' e H. destruct Hs as [Hm _]. cbn. by destruct (Hm _ _ _ H) as (-> & _).
  - unfold UpdateSessionTimestamp. rewrite Hl. cbv zeta. rewrite (stands_lookup _ _ _ _ Hs Hc). destruct (m !! (t, p)) as [e|] eqn:E; cbn [save fst].
    + eexists. split; [reflexivity|]. cbn [entries]. rewrite (alter_as_insert _ _ _ _ E).
      destruct Hs as [Hm He]. destruct (Hm _ _ _ E) as (E1 & E2 & _). by apply stands_insert.
    + exists s. split; [done|]. by rewrite alter_id_absent.
  - unfold CleanOldSessions. rewrite Hl. pose proof (stands_filter m (entries s) (fun e => (now - age <= UpdatedAt e)%Z)
      (fun x => (now - age <= UpdatedAt x.2)%Z) Hs (fun _ _ _ _ => iff_refl _)) as Hf.
    destruct (decide _) as [Hr|Hr]; cbn [save fst]; [by eexists|].
    exists s. split; [done|]. rewrite (filter_same_size _ (entries s)) in Hf by lia. done.
Qed.

Lemma commands_ok cs : forall m f, Forall plain_command cs -> file_stands_for m f ->
  file_stands_for (foldl (fun m c => command_spec c m) m cs) (foldl (fun f c => run_command c f) f cs).
Proof. induction cs as [|c cs IH]; intros m f Hc Hf; [done|]. inversion_clear Hc. apply IH; [done|]. by apply command_ok. Qed.

Lemma empty_stands : file_stands_for ∅ Missing.
Proof. exists (mkSessions ∅ 0%Z). split; [done|]. split; intros *; rewrite !lookup_empty; naive_solver. Qed.

(** The results of the loop: the matching tasks, at most what the limit leaves. *)
Lemma collect_limited o ts : forall found, (0 <= found)%Z -> (0 < so_Limit o)%Z -> (found < so_Limit o)%Z ->
  collect o found ts = take (Z.to_nat (so_Limit o - found)) (List.filter (matches o) ts).
Proof.
  induction ts as [|t ts IH]; intros found Hf Hl Hlt; cbn [collect List.filter]; [by rewrite take_nil|].
  destruct (matches o t); [|by apply IH]. replace (Z.to_nat (so_Limit o - found)) with (S (Z.to_nat (so_Limit o - (found + 1)))) by lia.
  cbn [take]. f_equal. rewrite (proj2 (Z.ltb_lt _ _) Hl). cbn [andb]. destruct (so_Limit o <=? found + 1)%Z eqn:E.
  - by replace (Z.to_nat (so_Limit o - (found + 1))) with 0 by lia.
  - apply IH; lia.
Qed.

Lemma collect_unlimited o ts : (so_Limit o <= 0)%Z -> forall found, collect o found ts = List.filter (matches o) ts.
Proof.
  intros Hl. induction ts as [|t ts IH]; intros found; cbn [collect List.filter]; [done|].
  rewrite (proj2 (Z.ltb_ge _ _) Hl). destruct (matches o t); cbn [andb]; by rewrite IH.
Qed.

(** What [SaveMessage] makes of a message. *)
Definition dated (format : Time -> string) (now : Time) (msg : ChatMessage) : ChatMessage :=
  if decide (m_Timestamp msg = "") then msg <| m_Timestamp := format now |> else msg.

Definition say (format : Time -> string) (taskID : string) (f : Stored ChatHistory) (c : Time * ChatMessage) : Stored ChatHistory :=
  (SaveMessage format c.1 None taskID c.2 f).1.

Lemma said_messages format taskID cs : forall h, exists now,
  foldl (say format taskID) (Held h) cs = Held (mkHistory (h_TaskID h) (h_Messages h ++ map (fun c => dated format c.1 c.2) cs) now).
Proof.
  induction cs as [|[now msg] cs IH]; intros [t ms u]; [exists u; by rewrite app_nil_r|].
  cbn [foldl map]. destruct (IH (mkHistory t (ms ++ [dated format now msg]) now)) as [now' E]. exists now'.
  cbn [h_TaskID h_Messages] in E |- *. rewrite <- app_assoc in E. exact E.
Qed.

(** ** The stores *)

(** C36: after any writes the store of sessions answers like a map from tasks and phases:
    [SaveSession], [UpdateSessionTimestamp], [DeleteSession], [DeleteSessionsForTask] and
    [CleanOldSessions] on the file, whose keys join the two with a colon, are the
    map's operations.  The phases have no colon in their names; the tasks may. *)
Theorem sessions_refine (cs : list Command) (taskID phase : string) :
  Forall plain_command cs -> plain phase ->
  GetSession taskID phase (foldl (fun f c => run_command c f) Missing cs) = foldl (fun m c => command_spec c m) ∅ cs !! (taskID, phase).
Proof.
  intros Hc Hp. destruct (commands_ok cs ∅ Missing Hc empty_stands) as (s & Hl & Hs).
  unfold GetSession. rewrite Hl. by apply stands_lookup.
Qed.

Lemma sessions_refine_witness :
  let e t p := mkSession "s" "claude" t p 0%Z 0%Z in
  let cs := ([CmdSave 5 (e "a:b" "plan"); CmdSave 6 (e "a" "plan"); CmdTouch 9 "a" "plan"; CmdDelete 10 "a:b" "plan"; CmdClean 20 12])%Z in
  Forall plain_command cs /\ GetSession "a" "plan" (foldl (fun f c => run_command c f) Missing cs) = Some (mkSession "s" "claude" "a" "plan" 6%Z 9%Z).
Proof.
  intros e cs. assert (Forall plain_command cs) as H by (repeat constructor).
  split; [exact H|]. rewrite (sessions_refine cs "a" "plan" H eq_refl). vm_compute. reflexivity.
Defined.

(** a search of the archive gives the tasks that match every given criterion, newest
    first as the sort leaves them, and the first of them when there is a limit. *)
Theorem archive_search (sort : list ArchivedTask -> list ArchivedTask) (o : SearchOptions) (ts : list ArchivedTask) :
  SearchArchivedTasks sort o (Held ts) =
    inr (let found := List.filter (matches o) (sort ts) in if (0 <? so_Limit o)%Z then take (Z.to_nat (so_Limit o)) found else found).
Proof.
  unfold SearchArchivedTasks, ListArchivedTasks. f_equal. cbv zeta. destruct (0 <? so_Limit o)%Z eqn:E.
  - rewrite collect_limited by lia. by rewrite Z.sub_0_r.
  - apply collect_unlimited. lia.
Qed.

(** the chat of a task holds its messages in the order they were saved, each with a time. *)
Theorem chat_in_order (format : Time -> string) (taskID : string) (cs : list (Time * ChatMessage)) :
  (forall t, format t <> "") ->
  match loadHistoryLocked taskID (foldl (say format taskID) Missing cs) with
  | inl _ => False
  | inr h => h_Messages h = map (fun c => dated format c.1 c.2) cs /\ Forall (fun m => m_Timestamp m <> "") (h_Messages h)
  end.
Proof.
  intros Hf. assert (exists h, loadHistoryLocked taskID (foldl (say format taskID) Missing cs) = inr h
    /\ h_Messages h = map (fun c => dated format c.1 c.2) cs) as (h & -> & ->).
  { destruct cs as [|[now msg] cs]; [by eexists|].
    destruct (said_messages format taskID cs (mkHistory taskID [dated format now msg] now)) as [now' E].
    eexists. cbn [foldl]. change (say format taskID Missing (now, msg)) with (Held (mkHistory taskID [dated format now msg] now)).
    rewrite E. split; reflexivity. }
  split; [done|]. apply Forall_map, Forall_true. intros [now msg]. cbn. unfold dated. destruct (decide _) as [|Hne]; [apply Hf|exact Hne].
Qed.

Lemma chat_in_order_witness :
  let format (t : Time) := "1970-01-01T00:00:00Z" in
  match loadHistoryLocked "t" (foldl (say format "t") Missing [(0%Z, mkMessage "1" "user" "hello" [] "" "")]) with
  | inl _ => False
  | inr h => h_Messages h = [mkMessage "1" "user" "hello" [] "1970-01-01T00:00:00Z" ""] /\ Forall (fun m => m_Timestamp m <> "") (h_Messages h)
  end.
Proof. intros format. apply (chat_in_order format "t" [(0%Z, mkMessage "1" "user" "hello" [] "" "")]). done. Defined.

(** A file that cannot be read loses every session with the next [SaveSession], and
    none with the next [DeleteSession]. *)
Lemma corrupt_sessions_dropped now err e t p :
  SaveSession now None e (Broken err) = SaveSession now None e Missing /\ DeleteSession now None t p (Broken err) = (Broken err, None).
Proof. done. Qed.

(** A history that cannot be read is replaced as well. *)
Lemma broken_history_replaced format now err taskID msg :
  SaveMessage format now None taskID msg (Broken err) = SaveMessage format now None taskID msg Missing.
Proof. unfold SaveMessage. cbn. reflexivity. Qed.
