(* ===== verification/Pages.v ===== *)
(** * Filters and pages of lists

    Translates internal/filter/filter.go, internal/page/page.go and the two places of
    internal/socket that prepare a page: [paginationWithDefault] and what
    [handleTasksList] does with the tasks.  Numbers are 64-bit integers; a panic of
    the slicing is [None]. *)

From S2P Require Import Prelude.
From S2P Require GraphDef.

(** ** Filters *)

Section Filters.
Context {T : Type}.

(** The predicates in the order they were added. *)
Record Filter := mkFilter { predicates : list (T -> bool) }.

Definition New : Filter := mkFilter [].
Definition Where (f : Filter) (p : T -> bool) : Filter := mkFilter (predicates f ++ [p]).

(** The fields are of one type with equality, as in the calls. *)
Definition Eq `{EqDecision V} (f : Filter) (accessor : T -> V) (value : V) : Filter := Where f (fun item => bool_decide (accessor item = value)).
Definition Neq `{EqDecision V} (f : Filter) (accessor : T -> V) (value : V) : Filter := Where f (fun item => bool_decide (accessor item <> value)).
Definition In_ `{EqDecision V} (f : Filter) (accessor : T -> V) (values : list V) : Filter := Where f (fun item => bool_decide (accessor item ∈ values)).

(** The accessor gives a text, or something else. *)
Definition Contains (f : Filter) (accessor : T -> option string) (substr : string) : Filter :=
  Where f (fun item => match accessor item with Some v => contains (GraphDef.to_lower substr) (GraphDef.to_lower v) | None => false end).

Definition Since (f : Filter) (accessor : T -> Time) (t : Time) : Filter := Where f (fun item => (t <? accessor item)%Z).
Definition Before (f : Filter) (accessor : T -> Time) (t : Time) : Filter := Where f (fun item => (accessor item <? t)%Z).
Definition HasTag (f : Filter) (accessor : T -> list string) (tag : string) : Filter := Where f (fun item => slice_contains (accessor item) tag).

Fixpoint match_all (ps : list (T -> bool)) (item : T) : bool :=
  match ps with [] => true | p :: ps => if negb (p item) then false else match_all ps item end.
Definition Match (f : Filter) (item : T) : bool := match_all (predicates f) item.

Fixpoint Apply (f : Filter) (items : list T) : list T :=
  match items with [] => [] | item :: items => if Match f item then item :: Apply f items else Apply f items end.
End Filters.
Arguments Filter : clear implicits.

(** ** Pages *)

Record Pagination := mkPagination { p_Page : Z; p_PerPage : Z }.

#[export] Instance eta_Pagination : Eta Pagination := fun p => mkPagination (p_Page p) (p_PerPage p).

Definition DefaultPagination : Pagination := mkPagination 1 20.

Definition Normalize (p : Pagination) : Pagination :=
  let p := if (p_Page p <? 1)%Z then p <| p_Page := 1%Z |> else p in
  let p := if (p_PerPage p <? 1)%Z then p <| p_PerPage := 20%Z |> else p in
  if (100 <? p_PerPage p)%Z then p <| p_PerPage := 100%Z |> else p.

Definition Offset (p : Pagination) : Z := wrap64 (wrap64 (p_Page p - 1) * p_PerPage p).
Definition Limit (p : Pagination) : Z := p_PerPage p.

Record Page (T : Type) := mkPage {
  Items : list T;
  Total : Z;
  PageNum : Z;
  PerPage : Z;
  TotalPages : Z;
  HasNext : bool;
  HasPrev : bool
}.
Arguments mkPage {T}.
Arguments Items {T}.
Arguments Total {T}.
Arguments PageNum {T}.
Arguments PerPage {T}.
Arguments TotalPages {T}.
Arguments HasNext {T}.
Arguments HasPrev {T}.

Section Pages.
Context {T : Type}.

(** [items[a:b]]; it panics outside of the slice. *)
Definition slice (a b : Z) (items : list T) : option (list T) :=
  if ((0 <=? a) && (a <=? b) && (b <=? Z.of_nat (length items)))%Z
  then Some (take (Z.to_nat (b - a)) (drop (Z.to_nat a) items)) else None.

Definition total_pages (total perPage : Z) : Z :=
  (Z.quot total perPage + (if (0 <? Z.rem total perPage)%Z then 1 else 0))%Z.

Definition page_of (items : list T) (total : Z) (p : Pagination) : Page T :=
  let totalPages := total_pages total (p_PerPage p) in
  mkPage items total (p_Page p) (p_PerPage p) totalPages (p_Page p <? totalPages)%Z (1 <? p_Page p)%Z.

Definition NewPage (allItems : list T) (p : Pagination) : option (Page T) :=
  let p := Normalize p in
  let total := Z.of_nat (length allItems) in
  let offset := Offset p in
  let limit := wrap64 (offset + p_PerPage p) in
  let items :=
    if (total <=? offset)%Z then Some []
    else if (total <? limit)%Z then slice offset total allItems
    else slice offset limit allItems in
  match items with Some items => Some (page_of items total p) | None => None end.

Definition NewPageFromSlice (items : list T) (total : Z) (p : Pagination) : Page T := page_of items total (Normalize p).
Definition EmptyPage (p : Pagination) : Page T := NewPageFromSlice [] 0 p.

Definition IsEmpty (p : Page T) : bool := (length (Items p) =? 0)%nat.
Definition IsFirstPage (p : Page T) : bool := (PageNum p =? 1)%Z.
Definition IsLastPage (p : Page T) : bool := (TotalPages p <=? PageNum p)%Z.
Definition NextPage (p : Page T) : Z := if HasNext p then wrap64 (PageNum p + 1) else PageNum p.
Definition PrevPage (p : Page T) : Z := if HasPrev p then wrap64 (PageNum p - 1) else PageNum p.

Definition ApplyPaginated (f : Filter T) (items : list T) (p : Pagination) : option (Page T) := NewPage (Apply f items) p.
End Pages.

Definition MapPage {T U} (pg : Page T) (fn : T -> U) : Page U :=
  mkPage (map fn (Items pg)) (Total pg) (PageNum pg) (PerPage pg) (TotalPages pg) (HasNext pg) (HasPrev pg).

(** In internal/socket *)
Definition paginationWithDefault (pg perPage : Z) : Pagination :=
  let p := mkPagination pg perPage in
  let p := if (p_Page p <? 1)%Z then p <| p_Page := 1%Z |> else p in
  if (p_PerPage p <? 1)%Z then p <| p_PerPage := 100%Z |> else p.

(** The end of [handleTasksList]: the tasks in the order of the range over the
    worktrees, of a state if one is asked for, and their page if one is asked for;
    [search] is the ranked search for the query. *)
Definition tasks_page {T} (state_of : T -> string) (search : string -> list T -> list T) (state query : string) (page perPage : Z) (tasks : list T)
  : option (list T * option (Page T)) :=
  let tasks := if decide (state = "") then tasks else Apply (Eq New state_of state) tasks in
  let tasks := if decide (query = "") then tasks else search query tasks in
  if ((0 <? page) || (0 <? perPage))%Z then
    match NewPage tasks (paginationWithDefault page perPage) with Some p => Some (Items p, Some p) | None => None end
  else Some (tasks, None).

(** A reader that follows [HasNext] from a page on. *)
Fixpoint read_all {T} (fuel : nat) (items : list T) (perPage page : Z) : option (list T) :=
  match fuel with
  | 0 => None
  | S fuel =>
      match NewPage items (mkPagination page perPage) with
      | None => None
      | Some p => if HasNext p then (fun rest => Items p ++ rest) <$> read_all fuel items perPage (NextPage p) else Some (Items p)
      end
  end.

(** ** Lemmas *)

Lemma match_all_spec {T} (ps : list (T -> bool)) item : match_all ps item = true <-> Forall (fun p => p item = true) ps.
Proof.
  induction ps as [|p ps IH]; cbn [match_all]; [by split|]. rewrite Forall_cons, <- IH.
  destruct (p item); cbn [negb]; naive_solver.
Qed.

Lemma Apply_filter {T} (f : Filter T) items : Apply f items = List.filter (Match f) items.
Proof. induction items as [|x items IH]; cbn; [done|]. by rewrite IH. Qed.

(** The number of items of a page. *)
Definition page_size (perPage : Z) : Z := p_PerPage (Normalize (mkPagination 1 perPage)).

Lemma page_size_bounds perPage : (1 <= page_size perPage <= 100)%Z.
Proof. unfold page_size, Normalize. cbn. destruct (perPage <? 1)%Z eqn:E1; cbn; [lia|]. destruct (100 <? perPage)%Z eqn:E2; cbn; lia. Qed.

Lemma Normalize_at i perPage : (1 <= i)%Z -> Normalize (mkPagination i perPage) = mkPagination i (page_size perPage).
Proof.
  intros H. unfold page_size, Normalize. cbn. rewrite (proj2 (Z.ltb_ge i 1) H).
  cbn. destruct (perPage <? 1)%Z; cbn; [reflexivity|]. destruct (100 <? perPage)%Z; reflexivity.
Qed.

Lemma more_pages total size i : (0 <= total)%Z -> (1 <= size)%Z -> (i <? total_pages total size)%Z = (i * size <? total)%Z.
Proof.
  intros Ht Hs. unfold total_pages. rewrite Z.quot_div_nonneg, Z.rem_mod_nonneg by lia.
  pose proof (Z.div_mod total size ltac:(lia)) as E. pose proof (Z.mod_pos_bound total size ltac:(lia)) as Hm.
  apply eq_true_iff_eq. rewrite !Z.ltb_lt. destruct (0 <? total `mod` size)%Z eqn:E0; split; intros H; nia.
Qed.

Section At.
Context {T : Type} (items : list T) (perPage : Z).
Local Notation size := (page_size perPage).
Local Notation total := (Z.of_nat (length items)).

(** A page whose end can be represented. *)
Lemma page_at i : (1 <= i)%Z -> (i * 100 <= max_int64)%Z ->
  NewPage items (mkPagination i perPage) = Some (page_of (take (Z.to_nat size) (drop (Z.to_nat ((i - 1) * size)) items)) total (mkPagination i size)).
Proof.
  intros Hi Hmax. pose proof (page_size_bounds perPage) as Hs. unfold max_int64 in Hmax. unfold NewPage. rewrite Normalize_at by done. cbn [p_PerPage p_Page].
  unfold Offset. cbn [p_PerPage p_Page].
  rewrite (wrap64_id (i - 1)) by lia. rewrite (wrap64_id ((i - 1) * size)) by nia. rewrite wrap64_id by nia. set (o := ((i - 1) * size)%Z).
  assert (0 <= o)%Z as Ho by (unfold o; nia). destruct (total <=? o)%Z eqn:E1.
  { rewrite (drop_ge items) by lia. by rewrite take_nil. }
  unfold slice. destruct (total <? o + size)%Z eqn:E2.
  - replace ((0 <=? o) && (o <=? total) && (total <=? total))%Z with true by (symmetry; rewrite !andb_true_iff, !Z.leb_le; lia).
    cbv iota. rewrite !take_ge; [done|rewrite length_drop; lia..].
  - replace ((0 <=? o) && (o <=? o + size) && (o + size <=? total))%Z with true by (symmetry; rewrite !andb_true_iff, !Z.leb_le; lia).
    cbv iota. do 3 f_equal. lia.
Qed.

Lemma read_from fuel : forall i, (1 <= i)%Z -> (i <= Z.of_nat (length items) + 1)%Z -> (total * 100 + 100 <= max_int64)%Z -> (total < i - 1 + Z.of_nat fuel)%Z ->
  read_all fuel items perPage i = Some (drop (Z.to_nat ((i - 1) * size)) items).
Proof.
  pose proof (page_size_bounds perPage) as Hs.
  induction fuel as [|fuel IH]; intros i Hi Hl Hmax Hf; [lia|]. cbn [read_all]. rewrite page_at by lia.
  unfold page_of. cbn [HasNext Items p_Page p_PerPage]. rewrite more_pages by lia. unfold max_int64 in *.
  destruct (i * size <? total)%Z eqn:E.
  - unfold NextPage. cbn [HasNext PageNum]. rewrite wrap64_id by lia. assert (i < total)%Z by nia. rewrite IH by lia. cbn. f_equal.
    rewrite <- (take_drop (Z.to_nat size) (drop (Z.to_nat ((i - 1) * size)) items)) at 2. f_equal. rewrite drop_drop. f_equal. nia.
  - f_equal. apply take_ge. rewrite length_drop. nia.
Qed.
End At.

(** ** Theorems *)

(** a reader that follows the pages from the first one on, whatever size it asks
    for, comes to an end and has read every item once and in order; a page has at most
    a hundred items. *)
Theorem pages_complete {T} (items : list T) (perPage : Z) :
  (Z.of_nat (length items) * 100 + 100 <= max_int64)%Z ->
  read_all (S (length items)) items perPage 1 = Some items /\
  forall i, (1 <= i)%Z -> (i * 100 <= max_int64)%Z ->
    match NewPage items (mkPagination i perPage) with
    | Some p => length (Items p) <= 100 /\ (IsLastPage p = false <-> HasNext p = true) /\ (IsEmpty p = false -> Total p = Z.of_nat (length items))
    | None => False
    end.
Proof.
  intros H. split.
  - rewrite read_from by lia. by rewrite Z.sub_diag.
  - intros i Hi Hm. rewrite page_at by done. pose proof (page_size_bounds perPage) as Hs. split_and!.
    + cbn. rewrite length_take. lia.
    + unfold IsLastPage, page_of. cbn. rewrite Z.leb_gt, Z.ltb_lt. done.
    + done.
Qed.

Lemma pages_complete_witness :
  let items := seq 0 250 in
  read_all 251 items 0 1 = Some items /\
  match NewPage items (mkPagination 3 1000) with Some p => length (Items p) = 50 /\ HasNext p = false | None => False end.
Proof.
  intros items. destruct (pages_complete items 0 ltac:(vm_compute; discriminate)) as [H _].
  split; [exact H|]. vm_compute. split; reflexivity.
Defined.

(** The requested page is not bounded: the offset of a large one overflows, and the
    slice panics or is that of another page. *)
Lemma huge_page_overflows :
  NewPage (seq 0 30) (mkPagination (2 ^ 62) 20) = None /\
  Items <$> NewPage (seq 0 30) (mkPagination (2 ^ 62 + 1) 20) = Some (seq 0 20).
Proof. by vm_compute. Qed.

(** The tasks are listed in the order of a range over a map: two requests for two
    pages can both hold one task, and never the other. *)
Lemma task_pages_overlap :
  fst <$> tasks_page (fun _ => "") (fun _ l => l) "" "" 1 1 ["a"; "b"] = Some ["a"] /\
  fst <$> tasks_page (fun _ => "") (fun _ l => l) "" "" 2 1 ["b"; "a"] = Some ["a"].
Proof. by vm_compute. Qed.
