(* ===== verification/Stream.v ===== *)
(** * The event stream of a worktree

    Translates what internal/socket/worktree.go and worktree_stream.go do to number,
    buffer and deliver events, and what web/src/stores/projectStoreUI.ts does with
    them.  Every event is emitted by a goroutine of its own ([emit] of the conductor
    starts one per listener), every subscriber is a connection: the steps of all of
    them interleave.  [read_seq] is the JSON decoding of a sequence number. *)

From S2P Require Import Prelude Names Text.

Class SeqReader := read_seq : string -> option nat.

(** [injectSeqAndBuffer]: the text of an event with its number. *)
Definition open_brace : Ascii.ascii := Ascii.ascii_of_nat 123.
Definition numbered (seq : nat) : string := "{" +:+ quote "seq" +:+ ":" +:+ pretty (N.of_nat seq).
Definition inject (seq : nat) (data : string) : string :=
  match data with
  | String c (String _ _ as rest) =>
      if decide (c <> open_brace) then numbered seq +:+ "," +:+ quote "error" +:+ ":" +:+ quote "invalid_input" +:+ "}" +:+ nl
      else if decide (rest = "}") then numbered seq +:+ "}" +:+ nl
      else numbered seq +:+ "," +:+ rest +:+ nl
  | _ => numbered seq +:+ "," +:+ quote "error" +:+ ":" +:+ quote "invalid_input" +:+ "}" +:+ nl
  end.

Definition heartbeat : string := "{" +:+ quote "type" +:+ ":" +:+ quote "heartbeat" +:+ "}" +:+ nl.

(** Where an emitting goroutine is: it has a number, it has stored its event, or it
    sends under the read lock of the streams to those it has not sent to yet. *)
Inductive Emitter := Numbered (text : string) | Stored (text : string) | Delivering (text : string) (todo : gset nat).

(** Where a subscriber is: registered with the last number it knows, writing what is
    left of its snapshot, live, about to remove its channel, or gone. *)
Inductive Stage := Registered (last : nat) | Replaying (last : nat) (todo : list (option string)) | Live | Leaving | Gone.

Record Subscriber := mkSubscriber { stage : Stage; written : list string }.
#[export] Instance eta_Subscriber : Eta Subscriber := fun s => mkSubscriber (stage s) (written s).

Notation Subs := (gmap nat Subscriber).
Notation Chans := (gmap nat (list string)).
Notation Emits := (gmap nat Emitter).

Record State := mkState {
  eventSeq : nat;
  replayBuf : list (option string);
  replayHead : nat;
  streams : Chans;
  emitters : Emits;
  subscribers : Subs;
  warned : list nat
}.
#[export] Instance eta_State : Eta State := fun s =>
  mkState (eventSeq s) (replayBuf s) (replayHead s) (streams s) (emitters s) (subscribers s) (warned s).

Definition replayBufSize : nat := 200.
Definition stream_capacity : nat := 100.

Definition init : State := mkState 0 (replicate replayBufSize None) 0 ∅ ∅ ∅ [].

Inductive Action :=
| Number (g : nat) (data : string)
| Store (g : nat)
| Deliver (g : nat)
| Send (g s : nat)
| Done (g : nat)
| Subscribe (s last : nat)
| Snapshot (s : nat)
| Replay (s : nat) (ok : bool)
| GoLive (s : nat)
| Drain (s : nat) (ok : bool)
| Heartbeat (s : nat) (ok : bool)
| Leave (s : nat).

Definition delivering (e : Emitter) : bool := match e with Delivering _ _ => true | _ => false end.

(** Nobody holds the read lock of the streams. *)
Definition streams_free (st : State) : bool := forallb (fun p : nat * Emitter => negb (delivering p.2)) (map_to_list (emitters st)).

(** The buffer from the oldest to the newest event. *)
Definition snapshot (st : State) : list (option string) := drop (replayHead st) (replayBuf st) ++ take (replayHead st) (replayBuf st).

Section Steps.
Context `{SeqReader}.

(** An entry of the snapshot is written when its number can be read and is new. *)
Definition selected (last : nat) (entry : option string) : option string :=
  match entry with
  | Some text => match read_seq text with Some n => if (last <? n)%nat then Some text else None | None => None end
  | None => None
  end.

Definition write (ok : bool) (next : Stage) (text : string) (s : Subscriber) : Subscriber :=
  if ok then s <| stage := next |> <| written := written s ++ [text] |> else s <| stage := Leaving |>.

(** [handleStreamSubscribe] and the goroutine it starts. *)
Definition subscriber_step (a : Action) (st : State) (i : nat) (s : Subscriber) : option State :=
  let put s := Some (st <| subscribers := <[i := s]> (subscribers st) |>) in
  match a, stage s with
  | Snapshot _, Registered last => put (s <| stage := Replaying last (snapshot st) |>)
  | Replay _ ok, Replaying last (entry :: todo) =>
      match selected last entry with
      | Some text => put (write ok (Replaying last todo) text s)
      | None => put (s <| stage := Replaying last todo |>)
      end
  | GoLive _, Replaying last [] => put (s <| stage := Live |>)
  | Drain _ ok, Live =>
      match streams st !! i with
      | Some (text :: rest) => Some (st <| streams := <[i := rest]> (streams st) |> <| subscribers := <[i := write ok Live text s]> (subscribers st) |>)
      | _ => None
      end
  | Heartbeat _ ok, Live => put (write ok Live heartbeat s)
  | Leave _, Leaving => if streams_free st then Some (st <| streams := delete i (streams st) |> <| subscribers := <[i := s <| stage := Gone |>]> (subscribers st) |>) else None
  | _, _ => None
  end.

(** The goroutine of an event. *)
Definition emitter_step (a : Action) (st : State) (g : nat) (e : Emitter) : option State :=
  let put e := st <| emitters := <[g := e]> (emitters st) |> in
  match a, e with
  | Store _, Numbered text =>
      Some (put (Stored text) <| replayBuf := <[replayHead st := Some text]> (replayBuf st) |> <| replayHead := Nat.modulo (replayHead st + 1) replayBufSize |>)
  | Deliver _, Stored text => Some (put (Delivering text (dom (streams st))))
  | Send _ s, Delivering text todo =>
      if decide (s ∈ todo) then
        let st' := put (Delivering text (todo ∖ {[s]})) in
        match streams st !! s with
        | Some queue =>
            if (length queue <? stream_capacity)%nat then Some (st' <| streams := <[s := queue ++ [text]]> (streams st) |>)
            else Some (st' <| warned := warned st ++ [s] |>)
        | None => None
        end
      else None
  | Done _, Delivering _ todo => if decide (todo = ∅) then Some (st <| emitters := delete g (emitters st) |>) else None
  | _, _ => None
  end.

Definition step (a : Action) (st : State) : option State :=
  match a with
  | Number g data =>
      match emitters st !! g with
      | None => let seq := eventSeq st + 1 in Some (st <| eventSeq := seq |> <| emitters := <[g := Numbered (inject seq data)]> (emitters st) |>)
      | Some _ => None
      end
  | Subscribe s last =>
      if streams_free st then
        match subscribers st !! s with
        | None => Some (st <| streams := <[s := []]> (streams st) |>
            <| subscribers := <[s := mkSubscriber (if decide (0 < last) then Registered last else Live) []]> (subscribers st) |>)
        | Some _ => None
        end
      else None
  | Store g | Deliver g | Send g _ | Done g => match emitters st !! g with Some e => emitter_step a st g e | None => None end
  | Snapshot s | Replay s _ | GoLive s | Drain s _ | Heartbeat s _ | Leave s => match subscribers st !! s with Some sub => subscriber_step a st s sub | None => None end
  end.

Fixpoint run (acts : list Action) (st : State) : option State :=
  match acts with [] => Some st | a :: acts => match step a st with Some st => run acts st | None => None end end.

(** The web client: what it processes of the lines it reads, given the number of the
    last event it has seen.  Heartbeats have no effect. *)
Fixpoint client (last : nat) (lines : list string) : list string :=
  match lines with
  | [] => []
  | text :: lines =>
      match read_seq text with
      | None => client last lines
      | Some n => if (n <=? last)%nat then client last lines else text :: client (Nat.max last n) lines
      end
  end.
End Steps.

(** ** Lemmas: parts of a list *)

(** The elements from number [i + 1] to number [j]. *)
Definition part {A} (i j : nat) (l : list A) : list A := take (j - i) (drop i l).

Lemma part_nil {A} i j (l : list A) : j <= i -> part i j l = [].
Proof. intros H. unfold part. by replace (j - i) with 0 by lia. Qed.

Lemma part_app {A} i j k (l : list A) : i <= j -> j <= k -> part i k l = part i j l ++ part j k l.
Proof.
  intros Hij Hjk. unfold part. replace (k - i) with ((j - i) + (k - j)) by lia. rewrite <- take_take_drop, drop_drop.
  by replace (i + (j - i)) with j by lia.
Qed.

Lemma part_keep {A} i j (l : list A) x : j <= length l -> part i j (l ++ [x]) = part i j l.
Proof.
  intros H. unfold part. destruct (decide (i <= length l)) as [Hi|Hi].
  - rewrite drop_app_le by done. apply take_app_le. rewrite length_drop. lia.
  - by replace (j - i) with 0 by lia.
Qed.

Lemma part_last {A} i (l : list A) x : i <= length l -> part i (S (length l)) (l ++ [x]) = part i (length l) l ++ [x].
Proof.
  intros H. rewrite (part_app i (length l)) by lia. f_equal; [by apply part_keep|].
  unfold part. rewrite drop_app_length. by replace (S (length l) - length l) with 1 by lia.
Qed.

Lemma part_cons {A} i j (l : list A) x : i < j -> l !! i = Some x -> part i j l = x :: part (S i) j l.
Proof. intros H E. unfold part. replace (j - i) with (S (j - S i)) by lia. by rewrite (drop_S _ _ _ E). Qed.

Lemma part_all {A} i (l : list A) : part i (length l) l = drop i l.
Proof. unfold part. apply take_ge. rewrite length_drop. lia. Qed.

(** A ring: writing at the head and moving it on forgets the oldest entry. *)
Lemma ring_write {A} (ring : list A) head x : head < length ring ->
  let ring' := <[head := x]> ring in
  let head' := Nat.modulo (head + 1) (length ring) in
  drop head' ring' ++ take head' ring' = drop 1 (drop head ring ++ take head ring) ++ [x].
Proof.
  intros H. cbv zeta. destruct (lookup_lt_is_Some_2 ring head H) as [y E]. rewrite (drop_S ring y head E). cbn [drop app]. rewrite ?drop_0.
  destruct (decide (S head = length ring)) as [Heq|Hne].
  - replace ((head + 1) `mod` length ring) with 0 by (rewrite Nat.add_1_r, Heq; by rewrite Nat.Div0.mod_same).
    rewrite drop_0. cbn [take]. rewrite app_nil_r, Heq, drop_all. cbn [app]. rewrite insert_take_drop by done. by rewrite Heq, drop_all.
  - rewrite Nat.mod_small by lia. rewrite drop_insert_lt by lia. rewrite Nat.add_1_r. rewrite <- app_assoc. f_equal.
    rewrite insert_take_drop by done. rewrite <- Nat.add_1_r. by rewrite take_app_add' by (rewrite length_take; lia).
Qed.

Section Facts.
Context `{SeqReader}.

(** The texts of a log are read back with their numbers. *)
Definition numbered_log (log : list string) : Prop := forall i text, log !! i = Some text -> read_seq text = Some (S i).

Lemma client_part log : numbered_log log -> forall j i last rest, i <= last -> j <= length log ->
  client last (part i j log ++ rest) = part last j log ++ client (Nat.max last j) rest.
Proof.
  intros Hn j i. remember (j - i) as d eqn:Hd. revert i Hd. induction d as [|d IH]; intros i Hd last rest Hi Hj.
  { rewrite !part_nil by lia. by replace (Nat.max last j) with last by lia. }
  destruct (lookup_lt_is_Some_2 log i ltac:(lia)) as [x E]. rewrite (part_cons i j log x) by (done || lia). cbn [app client].
  rewrite (Hn _ _ E). destruct (S i <=? last)%nat eqn:El.
  - apply Nat.leb_le in El. by apply IH; [lia..|].
  - apply Nat.leb_gt in El. assert (last = i) as -> by lia. rewrite (part_cons i j log x) by (done || lia). cbn [app]. f_equal.
    rewrite IH by lia. f_equal; [by f_equal; lia|]. f_equal. lia.
Qed.

Lemma selected_part log last : numbered_log log -> forall j i, j <= length log ->
  omap (selected last) (map Some (part i j log)) = part (Nat.max i last) j log.
Proof.
  intros Hn j i. remember (j - i) as d eqn:Hd. revert i Hd. induction d as [|d IH]; intros i Hd Hj.
  { by rewrite !part_nil by lia. }
  destruct (lookup_lt_is_Some_2 log i ltac:(lia)) as [x E]. rewrite (part_cons i j log x) by (done || lia). cbn [map omap list_omap selected].
  rewrite (Hn _ _ E). destruct (last <? S i)%nat eqn:El.
  - apply Nat.ltb_lt in El. rewrite IH by lia. replace (Nat.max i last) with i by lia. rewrite (part_cons i j log x) by (done || lia).
    f_equal. f_equal. lia.
  - apply Nat.ltb_ge in El. rewrite IH by lia. f_equal. lia.
Qed.

(** What a full snapshot gives a subscriber. *)
Definition window (B : nat) (log : list string) : list (option string) := drop B (replicate replayBufSize None ++ map Some (take B log)).

Lemma selected_window log last B : numbered_log log -> B <= length log -> B <= last + replayBufSize -> omap (selected last) (window B log) = part last B log.
Proof.
  intros Hn HB Hl. unfold window. rewrite drop_app, omap_app, length_replicate.
  replace (omap (selected last) (drop B (replicate replayBufSize None))) with (@nil string).
  - cbn [app]. rewrite skipn_map, skipn_firstn_comm. fold (part (B - replayBufSize) B log).
    rewrite (selected_part log last Hn) by done. f_equal. lia.
  - rewrite drop_replicate. generalize (replayBufSize - B). intros n. by induction n.
Qed.

Lemma window_step log B x : log !! B = Some x -> drop 1 (window B log) ++ [Some x] = window (S B) log.
Proof.
  intros E. unfold window. rewrite drop_drop, (take_S_r _ _ _ E), map_app. cbn [map]. rewrite app_assoc, Nat.add_1_r.
  rewrite (drop_app_le (_ ++ _)); [done|]. rewrite length_app, length_replicate, length_map, length_take.
  pose proof (lookup_lt_Some _ _ _ E). unfold replayBufSize. lia.
Qed.

Lemma window_keep log B x : B <= length log -> window B (log ++ [x]) = window B log.
Proof. intros H'. unfold window. by rewrite take_app_le. Qed.
End Facts.

(** ** The invariant

    For events that are emitted one after the other, seen from the subscriber [s]. *)

Definition data_of (acts : list Action) : list string := omap (fun a => match a with Number _ d => Some d | _ => None end) acts.

(** The events of a trace, as they are numbered. *)
Fixpoint texts_from (n : nat) (ds : list string) : list string := match ds with [] => [] | d :: ds => inject (S n) d :: texts_from (S n) ds end.
Definition texts (acts : list Action) : list string := texts_from 0 (data_of acts).

Section Invariant.
Context `{SeqReader} (s last : nat).
Hypothesis heartbeat_has_no_number : read_seq heartbeat = None.

(** No event is numbered while another one is under way. *)
Fixpoint one_at_a_time (acts : list Action) (st : State) : Prop :=
  match acts with
  | [] => True
  | a :: acts =>
      match a with Number _ _ => emitters st = ∅ | _ => True end /\
      match step a st with Some st => one_at_a_time acts st | None => True end
  end.

(** How many events are in the buffer, and how many were sent to [s] or to nobody. *)
Inductive Phase (log : list string) : Emits -> nat -> nat -> Prop :=
| Idle : Phase log ∅ (length log) (length log)
| AfterNumber g t log0 : log = log0 ++ [t] -> Phase log {[g := Numbered t]} (length log0) (length log0)
| AfterStore g t log0 : log = log0 ++ [t] -> Phase log {[g := Stored t]} (length log) (length log0)
| AtDelivery g t todo log0 : log = log0 ++ [t] -> Phase log {[g := Delivering t todo]} (length log) (if decide (s ∈ todo) then length log0 else length log).

Lemma phase_bounds log em B m : Phase log em B m -> m <= B /\ B <= length log.
Proof. intros [| | |]; subst; rewrite ?length_app; cbn; try lia. case_decide; lia. Qed.

Definition has_number (text : string) : Prop := match read_seq text with Some _ => True | None => False end.
#[local] Instance has_number_dec text : Decision (has_number text).
Proof. unfold has_number. destruct (read_seq text); apply _. Defined.

Definition events_in (lines : list string) : list string := filter has_number lines.

(** What the subscriber has written and still has in its channel. *)
Inductive Subscribed (log : list string) (B m : nat) : Stage -> list string -> list string -> Prop :=
| SubRegistered P : P <= B -> P <= m -> Subscribed log B m (Registered last) [] (part P m log)
| SubReplaying P B' out todo : P <= B' -> P <= m -> B' <= B -> out ++ omap (selected last) todo = part last B' log ->
    Subscribed log B m (Replaying last todo) out (part P m log)
| SubLive P B' k out : P <= B' -> P <= k -> k <= m -> B' <= B -> events_in out = part last B' log ++ part P k log ->
    Subscribed log B m Live out (part k m log).

Definition departed (st : Stage) : Prop := match st with Leaving | Gone => True | _ => False end.

(** Unless something was dropped or the connection failed. *)
Definition SubInv (log : list string) (B m : nat) (st : State) : Prop :=
  exists sub, subscribers st !! s = Some sub /\
    (s ∈ warned st \/ departed (stage sub) \/ exists queue, streams st !! s = Some queue /\ Subscribed log B m (stage sub) (written sub) queue).

Record SysInv (log : list string) (B m : nat) (st : State) : Prop := {
  inv_phase : Phase log (emitters st) B m;
  inv_seq : eventSeq st = length log;
  inv_ring : length (replayBuf st) = replayBufSize /\ replayHead st < replayBufSize;
  inv_window : snapshot st = window B log
}.

Lemma subscribed_log log B m x stg out queue : B <= length log -> m <= length log ->
  Subscribed log B m stg out queue -> Subscribed (log ++ [x]) B m stg out queue.
Proof.
  intros HB Hm [P|P B' out' todo ? ? ? E|P B' k out' ? ? ? ? E].
  - rewrite <- (part_keep P m log x) by done. by constructor.
  - rewrite <- (part_keep P m log x) by done. apply (SubReplaying _ _ _ P B'); [done..|]. by rewrite part_keep by lia.
  - rewrite <- (part_keep k m log x) by done. apply (SubLive _ _ _ P B'); [done..|]. by rewrite !part_keep by lia.
Qed.

Lemma subscribed_more log B B1 m stg out queue : B <= B1 -> Subscribed log B m stg out queue -> Subscribed log B1 m stg out queue.
Proof. 
  intros HB [P|P B' out' todo ? ? ? E|P B' k out' ? ? ? ? E];
    [constructor|apply (SubReplaying _ _ _ P B')|apply (SubLive _ _ _ P B')]; done || lia.
Qed.

Lemma subscribed_sent log0 t B stg out queue : B <= length (log0 ++ [t]) -> Subscribed (log0 ++ [t]) B (length log0) stg out queue ->
  Subscribed (log0 ++ [t]) B (S (length log0)) stg out (queue ++ [t]).
Proof.
  intros HB [P HP HPm|P B' out' todo HP HPm ? E|P B' k out' HP Hk Hkm ? E]; rewrite part_keep, <- part_last by lia.
  - constructor; lia.
  - apply (SubReplaying _ _ _ P B'); [done|lia|done|done].
  - apply (SubLive _ _ _ P B'); [done|done|lia|done|done].
Qed.
Lemma sub_frame log log' B m B1 m1 st st' : SubInv log B m st ->
  subscribers st' !! s = subscribers st !! s -> streams st' !! s = streams st !! s -> (s ∈ warned st -> s ∈ warned st') ->
  (forall stg out queue, Subscribed log B m stg out queue -> Subscribed log' B1 m1 stg out queue) -> SubInv log' B1 m1 st'.
Proof.
  intros (sub & Hs & Hw) E1 E2 E3 E4. exists sub. rewrite E1, E2. split; [done|].
  destruct Hw as [|[|(queue & Hq & Hin)]]; [by left; apply E3|by right; left|right; right; eauto].
Qed.

(** ** Steps of the emitters *)

#[local] Arguments Nat.modulo : simpl never.

Definition Inv (b : bool) (log : list string) (B m : nat) (st : State) : Prop := SysInv log B m st /\ (b = true -> SubInv log B m st).

Lemma number_inv b g d log st st' B m : Inv b log B m st -> emitters st = ∅ -> step (Number g d) st = Some st' ->
  Inv b (log ++ [inject (S (length log)) d]) B m st'.
Proof.
  intros [[Hp Hseq Hr Hw] Hsub] He Hst. pose proof (phase_bounds _ _ _ _ Hp) as Hb. rewrite He in Hp. inversion Hp as [EB Em| | |]; subst.
  cbn [step] in Hst. rewrite He, lookup_empty in Hst. injection Hst as <-. split.
  - split; cbn.
    + rewrite Hseq, Nat.add_1_r. rewrite insert_empty. by econstructor.
    + rewrite length_app. cbn. lia.
    + done.
    + rewrite window_keep by lia. exact Hw.
  - intros Hb'. specialize (Hsub Hb'). eapply sub_frame; [exact Hsub|done|done|done|]. intros. by apply subscribed_log.
Qed.

Lemma singleton_emitter g g' e e' : ({[g := e]} : Emits) !! g' = Some e' -> g' = g /\ e' = e.
Proof. intros Hx%lookup_singleton_Some. naive_solver. Qed.

Lemma emitter_inv b a g e log st st' B m : Inv b log B m st -> emitters st !! g = Some e -> emitter_step a st g e = Some st' ->
  exists B' m', Inv b log B' m' st'.
Proof.
  intros [[Hp Hseq Hr Hw] Hsub] He Hst. pose proof (phase_bounds _ _ _ _ Hp) as Hb.
  remember (emitters st) as em eqn:Hem. destruct Hp as [|g0 t log0 Hl|g0 t log0 Hl|g0 t todo log0 Hl]; [by rewrite lookup_empty in He|..];
    apply singleton_emitter in He as [-> ->]; destruct a as [|g1|g1|g1 s'|g1| | | | | | |]; try discriminate; cbn [emitter_step] in Hst; rewrite <- Hem, ?insert_singleton_eq in Hst.
  - (* stored *) injection Hst as <-. exists (length log), (length log0). split.
    + split; cbn; [by econstructor|done| |].
      * rewrite length_insert. destruct Hr as [Hr1 Hr2]. split; [done|]. apply Nat.mod_upper_bound. done.
      * destruct Hr as [Hr1 Hr2]. unfold snapshot. cbn [replayHead replayBuf]. rewrite <- Hr1. rewrite (ring_write (replayBuf st)) by lia.
        fold (snapshot st). rewrite Hw. subst log. rewrite length_app, Nat.add_1_r. apply window_step. by rewrite lookup_app_r, Nat.sub_diag by lia.
    + intros Hb'. eapply sub_frame; [by apply Hsub|done|done|done|]. intros. eapply subscribed_more; [|eassumption]. subst log. rewrite length_app. lia.
  - (* delivery begins *) injection Hst as <-. exists (length log). eexists. split.
    + split; cbn; [by econstructor|done|done|done].
    + intros Hb'. destruct (Hsub Hb') as (sub & Hs & Hcase). exists sub. split; [done|]. destruct Hcase as [|[|(queue & Hq & Hin)]]; [by left|by right; left|].
      right; right. exists queue. split; [done|]. cbn. rewrite decide_True by (by apply elem_of_dom_2 in Hq). done.
  - (* one send *) destruct (decide (s' ∈ todo)) as [Hin'|]; [|done]. destruct (streams st !! s') as [queue|] eqn:Eq; [|done].
    destruct (length queue <? stream_capacity)%nat eqn:Hcap; injection Hst as <-; exists (length log); eexists; (split; [split; cbn; [by econstructor|done|done|done]|]).
    + intros Hb'. destruct (decide (s' = s)) as [->|Hne].
      * destruct (Hsub Hb') as (sub & Hs & Hcase). exists sub. split; [done|].
        destruct Hcase as [|[|(queue' & Hq & Hin)]]; [by left|by right; left|]. right; right. rewrite Eq in Hq. injection Hq as <-.
        exists (queue ++ [t]). cbn [streams]. rewrite lookup_insert_eq. split; [done|]. rewrite decide_True in Hin by done.
        rewrite decide_False by set_solver. subst log. rewrite length_app, Nat.add_1_r in *. apply subscribed_sent; [rewrite length_app; cbn; lia|done].
      * eapply sub_frame; [by apply Hsub|done|by apply lookup_insert_ne|done|]. intros. by rewrite (decide_ext _ (s ∈ todo)) by set_solver.
    + intros Hb'. destruct (decide (s' = s)) as [->|Hne].
      * destruct (Hsub Hb') as (sub & Hs & _). exists sub. split; [done|]. left. cbn. set_solver.
      * eapply sub_frame; [by apply Hsub|done|done|set_solver|]. intros. by rewrite (decide_ext _ (s ∈ todo)) by set_solver.
  - (* delivered *) destruct (decide (todo = ∅)) as [->|]; [|done]. injection Hst as <-. exists (length log), (length log). split.
    + split; cbn; [rewrite delete_singleton_eq; constructor|done|done|done].
    + intros Hb'. eapply sub_frame; [by apply Hsub|done|done|done|]. intros stg out queue Hx. by rewrite decide_False in Hx by set_solver.
Qed.

(** ** Steps of the subscribers *)

Lemma subscriber_sys a i sub log st st' B m : SysInv log B m st -> subscriber_step a st i sub = Some st' -> SysInv log B m st'.
Proof.
  intros [Hp Hseq Hr Hw] Hst. destruct a, (stage sub) as [l|l [|entry todo]| | |]; try discriminate; cbn [subscriber_step] in Hst; repeat case_match; simplify_eq; by split.
Qed.

Lemma subscriber_other a i sub st st' : subscriber_step a st i sub = Some st' -> i <> s ->
  subscribers st' !! s = subscribers st !! s /\ streams st' !! s = streams st !! s /\ warned st' = warned st.
Proof.
  intros Hst Hne. destruct a, (stage sub) as [l|l [|entry todo]| | |]; try discriminate; cbn [subscriber_step] in Hst; repeat case_match; simplify_eq; cbn;
    rewrite ?lookup_insert_ne, ?lookup_delete_ne by done; done.
Qed.

Lemma write_left ok next text sub : departed (stage (write ok next text sub)) \/ (stage (write ok next text sub) = next /\ written (write ok next text sub) = written sub ++ [text]).
Proof. destruct ok; cbn; auto. Qed.

Lemma filter_every (P : string -> Prop) `{!forall x, Decision (P x)} l : Forall P l -> filter P l = l.
Proof. induction 1 as [|x l Hx Hl IH]; [done|]. by rewrite filter_cons_True, IH. Qed.

Lemma events_of_part log i j : numbered_log log -> events_in (part i j log) = part i j log.
Proof.
  intros Hn. unfold events_in, part. apply filter_every. apply Forall_take, Forall_drop, Forall_lookup.
  intros n text E. unfold has_number. by rewrite (Hn _ _ E).
Qed.

Lemma subscriber_self a sub log st st' B m : SubInv log B m st -> subscribers st !! s = Some sub -> subscriber_step a st s sub = Some st' ->
  B <= length log -> m <= length log -> numbered_log log -> snapshot st = window B log -> length log <= last + replayBufSize -> SubInv log B m st'.
Proof.
  intros (sub' & Hs & Hcase) Hsub Hst HB Hm Hn Hw Hl. rewrite Hs in Hsub. injection Hsub as ->.
  assert (exists sub', subscribers st' !! s = Some sub' /\ warned st' = warned st /\ (departed (stage sub) -> departed (stage sub'))
    /\ forall queue, streams st !! s = Some queue -> Subscribed log B m (stage sub) (written sub) queue ->
       departed (stage sub') \/ exists queue', streams st' !! s = Some queue' /\ Subscribed log B m (stage sub') (written sub') queue') as (sub' & E1 & E2 & E3 & E4).
  2:{ exists sub'. rewrite E1, E2. split; [done|]. destruct Hcase as [|[Hleft|(queue & Hq & Hin)]]; [by left|by right; left; apply E3|].
      destruct (E4 queue Hq Hin) as [|(queue' & Hq' & Hin')]; [by right; left|right; right; eauto]. }
  clear Hcase. destruct sub as [stg out]. cbn [stage written] in *.
  destruct a, stg as [l|l [|entry todo]| | |]; try discriminate; cbn [subscriber_step stage written] in Hst.
  - (* snapshot *) injection Hst as <-. cbn. rewrite lookup_insert_eq. eexists. split_and!; [done..|]. intros queue Hq Hin. right. exists queue. split; [done|].
    cbn. inversion Hin as [P HP HPm E1 E2 E3| |]; subst. apply (SubReplaying _ _ _ P B); [done..|]. cbn [app]. rewrite Hw. apply selected_window; done || lia.
  - (* replay *) destruct (selected l entry) as [text|] eqn:Esel; injection Hst as <-; cbn; rewrite lookup_insert_eq; eexists;
      (split_and!; [done..|]); intros queue Hq Hin; inversion Hin as [|P B' out' todo' HP HPm HB' E1 E2 E3 E4|]; subst;
      cbn [omap list_omap] in E1; rewrite Esel in E1.
    + destruct ok; [right; eexists; split; [exact Hq|]|by left]. apply (SubReplaying _ _ _ P B'); [done..|]. cbn. rewrite <- app_assoc. exact E1.
    + right. eexists. split; [exact Hq|]. by apply (SubReplaying _ _ _ P B').
  - (* all replayed *) injection Hst as <-. cbn. rewrite lookup_insert_eq. eexists. split_and!; [done..|]. intros queue Hq Hin.
    right. inversion Hin as [|P B' out' todo' HP HPm HB' E1 E2 E3 E4|]; subst. eexists. split; [exact Hq|].
    apply (SubLive _ _ _ P B'); [done..|]. rewrite (part_nil P P), app_nil_r by done. cbn [omap list_omap] in E1. rewrite app_nil_r in E1. cbn [written]. rewrite E1.
    by apply events_of_part.
  - (* drain *) destruct (streams st !! s) as [[|text rest]|] eqn:Eq; try done. injection Hst as <-. cbn. rewrite lookup_insert_eq. eexists.
    split_and!; [done..|]. intros queue [= <-] Hin. destruct ok; [right; exists rest|by left]. rewrite lookup_insert_eq. split; [done|].
    inversion Hin as [| |P B' k out' HP HPk Hkm HB' E1 E2 E3 E4]; subst.
    destruct (decide (k < m)) as [Hlt|]; [|by rewrite part_nil in E4 by lia].
    destruct (lookup_lt_is_Some_2 log k ltac:(lia)) as [x Ex]. rewrite (part_cons k m log x) in E4 by done. injection E4 as <- <-.
    apply (SubLive _ _ _ P B'); [done|lia|lia|done|]. cbn. unfold events_in in *. rewrite filter_app, E1.
    rewrite (filter_cons_True _ x) by (unfold has_number; by rewrite (Hn _ _ Ex)). rewrite filter_nil, <- app_assoc. f_equal.
    rewrite (part_app P k (S k)) by lia. f_equal. by rewrite (part_cons k (S k) log x), part_nil by (done || lia).
  - (* heartbeat *) injection Hst as <-. cbn. rewrite lookup_insert_eq. eexists. split_and!; [done..|]. intros queue Hq Hin.
    destruct ok; [right; eexists; split; [exact Hq|]|by left]. inversion Hin as [| |P B' k out' HP HPk Hkm HB' E1 E2 E3 E4]; subst.
    apply (SubLive _ _ _ P B'); [done..|]. cbn. unfold events_in in *. rewrite filter_app, filter_cons_False, filter_nil, app_nil_r; [done|].
    unfold has_number. rewrite heartbeat_has_no_number. intros [].
  - (* leave *) destruct (streams_free st); [|done]. injection Hst as <-. cbn. rewrite lookup_insert_eq. eexists. split_and!; [done..|]. by left.
Qed.

(** ** Runs *)

Definition added (a : Action) (log : list string) : list string := match a with Number _ d => [inject (S (length log)) d] | _ => [] end.

Lemma stream_step_inv b a log st st' B m : Inv b log B m st -> match a with Number _ _ => emitters st = ∅ | _ => True end -> step a st = Some st' ->
  numbered_log log -> length log <= last + replayBufSize -> exists B' m', Inv b (log ++ added a log) B' m' st'.
Proof.
  intros Hi Ha Hst Hn Hl. pose proof Hi as [Hsys Hsub]. pose proof (phase_bounds _ _ _ _ (inv_phase _ _ _ _ Hsys)) as Hb.
  destruct a as [g d|g|g|g i|g|i l|i|i ok|i|i ok|i ok|i]; cbn [added]; rewrite ?app_nil_r; cbn [step] in Hst.
  1: by exists B, m; eapply number_inv.
  1-4: destruct (emitters st !! g) as [e|] eqn:E; [|done]; by eapply emitter_inv.
  1:{ destruct (streams_free st); [|done]. destruct (subscribers st !! i) eqn:E; [done|]. injection Hst as <-. exists B, m. split; [by destruct Hsys; split|].
      intros Hb'. destruct (decide (i = s)) as [->|Hne]; [destruct (Hsub Hb') as (sub & Hs & _); congruence|].
      eapply sub_frame; [by apply Hsub|by apply lookup_insert_ne|by apply lookup_insert_ne|done|done]. }
  all: destruct (subscribers st !! i) as [sub|] eqn:E; [|done]; exists B, m; (split; [by eapply subscriber_sys|]); intros Hb';
    (destruct (decide (i = s)) as [->|Hne]; [eapply subscriber_self; eauto; [lia|lia|apply Hsys]|]);
    destruct (subscriber_other _ _ _ _ _ Hst Hne) as (E1 & E2 & E3); eapply sub_frame; [by apply Hsub|done|done|by rewrite E3|done].
Qed.

Lemma numbered_prefix log more : numbered_log (log ++ more) -> numbered_log log.
Proof. intros Hn i text E. apply Hn. by apply lookup_app_l_Some. Qed.

Lemma added_texts a acts log : texts_from (length log) (data_of (a :: acts)) = added a log ++ texts_from (length (log ++ added a log)) (data_of acts).
Proof. destruct a; cbn [added]; rewrite ?app_nil_r; try done. cbn. by rewrite length_app, Nat.add_1_r. Qed.

Lemma run_inv b acts : forall log st st' B m, Inv b log B m st -> one_at_a_time acts st -> run acts st = Some st' ->
  let log' := log ++ texts_from (length log) (data_of acts) in
  numbered_log log' -> length log' <= last + replayBufSize -> exists B' m', Inv b log' B' m' st'.
Proof.
  induction acts as [|a acts IH]; intros log st st' B m Hi Ho Hr log' Hn Hl; unfold log' in *.
  - injection Hr as <-. exists B, m. cbn. by rewrite app_nil_r.
  - rewrite added_texts, app_assoc in Hn, Hl |- *. cbn [one_at_a_time run] in Ho, Hr. destruct Ho as [Ha Ho]. destruct (step a st) as [st1|] eqn:Est; [|done].
    destruct (stream_step_inv b a log st st1 B m Hi Ha Est) as (B1 & m1 & Hi1).
    + by eapply numbered_prefix, numbered_prefix.
    + rewrite !length_app in Hl. lia.
    + by eapply IH.
Qed.

Lemma init_inv : Inv false [] 0 0 init.
Proof. split; [|done]. split; [apply (Idle [])|done|split; vm_compute; [done|lia]|by vm_compute]. Qed.

Lemma subscribe_inv log st st' B m : 0 < last -> Inv false log B m st -> step (Subscribe s last) st = Some st' -> Inv true log B m st'.
Proof.
  intros Hl [Hsys _] Hst. pose proof (phase_bounds _ _ _ _ (inv_phase _ _ _ _ Hsys)) as Hb. cbn [step] in Hst.
  destruct (streams_free st); [|done]. destruct (subscribers st !! s) eqn:E; [done|]. injection Hst as <-. split; [by destruct Hsys; split|].
  intros _. eexists. cbn. rewrite !lookup_insert_eq, decide_True by done. split; [done|]. right; right. exists []. split; [done|].
  pose proof (SubRegistered log B m m ltac:(lia) ltac:(lia)) as Hx. by rewrite part_nil in Hx by done.
Qed.

Lemma client_events l lines : client l lines = client l (events_in lines).
Proof.
  revert l. induction lines as [|text lines IH]; intros l; [done|]. cbn [client]. unfold events_in. destruct (read_seq text) as [n|] eqn:E.
  - rewrite filter_cons_True by (unfold has_number; by rewrite E). cbn [client]. rewrite E. fold (events_in lines). by rewrite !IH.
  - rewrite filter_cons_False by (unfold has_number; rewrite E; intros []). apply IH.
Qed.

(** What the client makes of the lines of a live subscriber whose channel is empty. *)
Lemma client_complete log B st sub : SubInv log B (length log) st -> B <= length log -> numbered_log log -> s ∉ warned st ->
  subscribers st !! s = Some sub -> stage sub = Live -> streams st !! s = Some [] -> client last (written sub) = drop last log.
Proof.
  intros (sub' & Hs & Hcase) HB Hn Hw Hsub Hst Hq. rewrite Hsub in Hs. injection Hs as <-.
  destruct Hcase as [|[Hdep|(queue & Hq' & Hin)]]; [done|by rewrite Hst in Hdep|]. rewrite Hq in Hq'. injection Hq' as <-. rewrite Hst in Hin.
  inversion Hin as [| |P B' k out HP HPk Hkm HB' E1 E2 E3 E4]; subst. rewrite client_events, E1.
  rewrite <- (app_nil_r (part P k log)), <- E4, <- (part_app P k) by done.
  rewrite client_part by (done || lia). rewrite <- (app_nil_r (part P _ log)), client_part by (done || lia). cbn [client].
  rewrite app_nil_r, <- part_all. destruct (decide (last <= B')) as [Hle|Hgt].
  - replace (Nat.max last B') with B' by lia. symmetry. apply part_app; lia.
  - rewrite (part_nil last B') by lia. by replace (Nat.max last B') with last by lia.
Qed.
End Invariant.

Lemma run_app `{SeqReader} acts1 acts2 st : run (acts1 ++ acts2) st = match run acts1 st with Some st => run acts2 st | None => None end.
Proof. revert st. induction acts1 as [|a acts1 IH]; intros st; [done|]. cbn [app run]. destruct (step a st); [apply IH|done]. Qed.

Lemma one_at_a_time_app `{SeqReader} acts1 acts2 st st' : one_at_a_time (acts1 ++ acts2) st -> run acts1 st = Some st' -> one_at_a_time acts1 st /\ one_at_a_time acts2 st'.
Proof.
  revert st. induction acts1 as [|a acts1 IH]; intros st Ho Hr; [by injection Hr as <-|]. cbn [app one_at_a_time run] in *.
  destruct (step a st) as [st1|]; [|done]. destruct Ho as [Ha Ho]. destruct (IH _ Ho Hr). done.
Qed.

Lemma length_texts n ds : length (texts_from n ds) = length ds.
Proof. revert n. induction ds as [|d ds IH]; intros n; cbn; [done|]. by rewrite IH. Qed.

Lemma texts_app n ds ds' : texts_from n (ds ++ ds') = texts_from n ds ++ texts_from (n + length ds) ds'.
Proof. revert n. induction ds as [|d ds IH]; intros n; cbn; [by rewrite Nat.add_0_r|]. rewrite IH. do 3 f_equal. lia. Qed.

Lemma texts_lookup ds : forall n i text, texts_from n ds !! i = Some text -> exists d, d ∈ ds /\ text = inject (S (n + i)) d.
Proof.
  induction ds as [|d ds IH]; intros n i text E; [done|]. destruct i as [|i]; cbn in E.
  - injection E as <-. exists d. rewrite Nat.add_0_r. split; [by left|done].
  - destruct (IH (S n) i text E) as (d' & Hd & ->). exists d'. rewrite Nat.add_succ_r. split; [by right|done].
Qed.

Lemma texts_numbered `{SeqReader} ds : (forall n d, n <= length ds -> d ∈ ds -> read_seq (inject n d) = Some n) -> numbered_log (texts_from 0 ds).
Proof.
  intros Hr i text E. pose proof (lookup_lt_Some _ _ _ E) as Hi. rewrite length_texts in Hi.
  destruct (texts_lookup _ _ _ _ E) as (d & Hd & ->). by apply Hr.
Qed.

(** ** The stream *)

(** C37: a client that reconnects with the number of the last event it has seen gets every later
    event exactly once and in order, whatever its subscription overlaps with - as long
    as events are emitted one after the other, no more were emitted since than the
    buffer holds, its channel never was full and its connection did not fail. *)
Theorem reconnect_complete `{SeqReader} (before after : list Action) (s last : nat) (st : State) (sub : Subscriber) :
  let acts := before ++ Subscribe s last :: after in
  read_seq heartbeat = None ->
  (forall n d, n <= length (data_of acts) -> d ∈ data_of acts -> read_seq (inject n d) = Some n) ->
  run acts init = Some st -> one_at_a_time acts init ->
  0 < last -> length (data_of acts) <= last + replayBufSize ->
  emitters st = ∅ -> subscribers st !! s = Some sub -> stage sub = Live -> streams st !! s = Some [] -> s ∉ warned st ->
  client last (written sub) = drop last (texts acts).
Proof.
  intros acts Hh Hread Hrun Hone Hl Hlen He Hsub Hst Hq Hw. unfold acts in *. rewrite run_app in Hrun.
  destruct (run before init) as [st1|] eqn:E1; [|done]. destruct (one_at_a_time_app _ _ _ _ Hone E1) as [Ho1 Ho2].
  cbn [one_at_a_time run] in Ho2, Hrun. destruct (step (Subscribe s last) st1) as [st2|] eqn:E2; [|done]. destruct Ho2 as [_ Ho2].
  pose proof (texts_numbered _ Hread) as Hn. unfold texts. unfold data_of in *. rewrite omap_app in *. cbn [omap list_omap] in *.
  fold (data_of before) in *. fold (data_of after) in *. rewrite texts_app in Hn |- *. rewrite length_app in Hlen.
  destruct (run_inv s last Hh false before [] init st1 0 0 (init_inv s last) Ho1 E1) as (B1 & m1 & Hi1).
  { by eapply numbered_prefix. } { cbn. rewrite length_texts. lia. }
  apply (subscribe_inv s last _ _ _ _ _ Hl Hi1) in E2 as Hi2. cbn [app length] in Hi2.
  destruct (run_inv s last Hh true after _ st2 st _ _ Hi2 Ho2 Hrun) as (B & m & [Hsys Hinv]).
  { by rewrite length_texts. } { rewrite length_app, !length_texts. lia. }
  rewrite length_texts in Hsys, Hinv. cbn [Nat.add] in *. specialize (Hinv eq_refl).
  pose proof (phase_bounds _ _ _ _ _ (inv_phase _ _ _ _ _ Hsys)) as Hb. pose proof (inv_phase _ _ _ _ _ Hsys) as Hp. rewrite He in Hp. inversion Hp; subst.
  by eapply client_complete.
Qed.

(** The number at the begin of a text. *)
Definition leading_number : SeqReader := fun text =>
  match CutPrefix text ("{" +:+ quote "seq" +:+ ":") with
  | Some rest => match some_digits rest with Some (ds, _) => Z.to_nat <$> Atoi ds | None => None end
  | None => None
  end.

Definition event (g : nat) (data : string) (subs : list nat) : list Action := [Number g data; Store g; Deliver g] ++ map (Send g) subs ++ [Done g].

(** A client that saw the first of two events comes back while a third is emitted. *)
Definition overlap_before : list Action := event 0 "{a}" [] ++ event 1 "{b}" [].
Definition overlap_after : list Action :=
  [Number 2 "{c}"; Store 2; Snapshot 7; Deliver 2; Send 2 7; Done 2] ++ replicate 200 (Replay 7 true) ++ [GoLive 7; Heartbeat 7 true; Drain 7 true].
Definition overlap_end : State := default init (@run leading_number (overlap_before ++ Subscribe 7 1 :: overlap_after) init).

Lemma overlap_read n d : n <= 3 -> d ∈ ["{a}"; "{b}"; "{c}"] -> @read_seq leading_number (inject n d) = Some n.
Proof.
  intros Hn Hd. repeat (apply elem_of_cons in Hd as [->|Hd]); [..|by apply elem_of_nil in Hd];
    destruct n as [|[|[|[|n]]]]; first [lia|vm_compute; reflexivity].
Qed.

Lemma reconnect_complete_witness :
  length <$> (written <$> subscribers overlap_end !! 7) = Some 4 /\
  @client leading_number 1 (default [] (written <$> subscribers overlap_end !! 7)) = [inject 2 "{b}"; inject 3 "{c}"].
Proof.
  split; [vm_compute; reflexivity|].
  assert (subscribers overlap_end !! 7 = Some (mkSubscriber Live (default [] (written <$> subscribers overlap_end !! 7)))) as Hs by (vm_compute; reflexivity).
  change [inject 2 "{b}"; inject 3 "{c}"] with (drop 1 (texts (overlap_before ++ Subscribe 7 1 :: overlap_after))).
  refine (@reconnect_complete leading_number overlap_before overlap_after 7 1 overlap_end _ _ _ _ _ _ _ _ Hs _ _ _).
  - vm_compute. reflexivity.
  - assert (data_of (overlap_before ++ Subscribe 7 1 :: overlap_after) = ["{a}"; "{b}"; "{c}"]) as -> by (vm_compute; reflexivity). exact overlap_read.
  - vm_compute. reflexivity.
  - vm_compute. repeat split.
  - lia.
  - vm_compute. lia.
  - vm_compute. reflexivity.
  - reflexivity.
  - vm_compute. reflexivity.
  - assert (warned overlap_end = []) as -> by (vm_compute; reflexivity). by apply not_elem_of_nil.
Defined.

(** Two events that are emitted at the same time can be delivered in the other order:
    a client that was never disconnected, with a channel that never was full, loses the
    first of them, which is the state the conductor was in before or after the other. *)
Lemma reordered_event_lost :
  match @run leading_number
    ([Subscribe 7 0; Number 0 "{planning}"; Number 1 "{planned}"; Store 1; Deliver 1; Send 1 7; Done 1; Store 0; Deliver 0; Send 0 7; Done 0; Drain 7 true; Drain 7 true])
    init with
  | Some st =>
      match subscribers st !! 7 with
      | Some sub => warned st = [] /\ written sub = [inject 2 "{planned}"; inject 1 "{planning}"] /\ @client leading_number 0 (written sub) = [inject 2 "{planned}"]
      | None => False
      end
  | None => False
  end.
Proof. by vm_compute. Qed.

(** The numbers start again with a new server: a client that reconnects to it ignores
    its first events. *)
Lemma restart_hides_events :
  match @run leading_number ([Subscribe 7 500; Snapshot 7] ++ replicate 200 (Replay 7 true) ++ [GoLive 7] ++ event 0 "{planned}" [7] ++ [Drain 7 true]) init with
  | Some st =>
      match subscribers st !! 7 with
      | Some sub => written sub = [inject 1 "{planned}"] /\ @client leading_number 500 (written sub) = []
      | None => False
      end
  | None => False
  end.
Proof. by vm_compute. Qed.
