(* ===== verification/Server.v ===== *)
(** * The socket server

    Translates internal/socket/protocol.go, middleware.go, server.go and the call of
    client.go: JSON-RPC over lines, dispatched through a chain of middlewares.  A
    handler is a function of the context, the request and the world it acts on; it
    returns, fails or panics, and takes some time.  JSON and the generator of
    correlation identifiers are parameters.  The limiter of requests is internal/ratelimit/bucket.go: a bucket
    per key, filled at a constant rate up to a burst; its calls are atomic (they hold the
    lock of the bucket, and the map is a [sync.Map]) and read the clock once, as [now]. *)

From S2P Require Import Prelude Text Floats.
From S2P Require Progress Search GraphDef.

(** ** Token buckets *)

Record Bucket := mkBucket { rate : spec_float; burst : spec_float; tokens : spec_float; lastTime : Time }.

#[export] Instance eta_Bucket : Eta Bucket := fun b => mkBucket (rate b) (burst b) (tokens b) (lastTime b).

(** The built-in [min]. *)
Definition float_min (x y : spec_float) : spec_float :=
  match x, y with
  | S754_nan, _ | _, S754_nan => S754_nan
  | _, _ => if float_lt x y then x else if float_lt y x then y else match x with S754_zero true => x | _ => y end
  end.

Definition NewBucket (rate : spec_float) (burst : Z) (now : Time) : Bucket := mkBucket rate (float_of_Z burst) (float_of_Z burst) now.

(** [now.Sub(last)] saturates. *)
Definition elapsed (now last : Time) : Duration := Z.max (- 2 ^ 63) (Z.min max_int64 (now - last)).

Definition refill (now : Time) (b : Bucket) : Bucket :=
  b <| tokens := float_min (float_add (tokens b) (float_mul (Progress.Seconds (elapsed now (lastTime b))) (rate b))) (burst b) |> <| lastTime := now |>.

Definition AllowN (n : Z) (now : Time) (b : Bucket) : Bucket * bool :=
  let b := refill now b in
  let need := float_of_Z n in
  if float_lt (tokens b) need then (b, false) else (b <| tokens := Search.float_sub (tokens b) need |>, true).

Definition bucket_Allow (now : Time) (b : Bucket) : Bucket * bool := AllowN 1 now b.

(** The bucket of a key, and when it was used last. *)
Record Limiter := mkLimiter { l_rate : spec_float; l_burst : Z; buckets : gmap string (Bucket * Time) }.

#[export] Instance eta_Limiter : Eta Limiter := fun l => mkLimiter (l_rate l) (l_burst l) (buckets l).

Definition NewLimiter (rate : spec_float) (burst : Z) : Limiter := mkLimiter rate burst ∅.

Definition Allow (now : Time) (key : string) (l : Limiter) : Limiter * bool :=
  let b := match buckets l !! key with Some (b, _) => b | None => NewBucket (l_rate l) (l_burst l) now end in
  let '(b, ok) := bucket_Allow now b in
  (l <| buckets := <[key := (b, now)]> (buckets l) |>, ok).

Definition Remove (key : string) (l : Limiter) : Limiter := l <| buckets := delete key (buckets l) |>.

Definition staleThreshold : Duration := (10 * 60 * 1000000000)%Z.

Definition removeStale (now : Time) (l : Limiter) : Limiter :=
  l <| buckets := filter (fun p : string * (Bucket * Time) => (elapsed now p.2.2 <= staleThreshold)%Z) (buckets l) |>.

(** ** Lemmas *)

(** The keys do not share tokens. *)
Lemma Allow_other now key key' l : key' <> key -> buckets (Allow now key l).1 !! key' = buckets l !! key'.
Proof. intros H. unfold Allow. destruct (bucket_Allow _ _) as [b ok]. cbn. by apply lookup_insert_ne. Qed.

(** A key starts again with a full bucket after it was removed. *)
Lemma Allow_removed now key l : (Allow now key (Remove key l)).2 = (bucket_Allow now (NewBucket (l_rate l) (l_burst l) now)).2.
Proof. unfold Allow, Remove. cbn. rewrite lookup_delete_eq. by destruct (bucket_Allow _ _). Qed.

(** A bucket that was used is not stale for ten minutes. *)
Lemma used_not_stale now now' key l : (0 <= now' - now <= staleThreshold)%Z -> buckets (removeStale now' (Allow now key l).1) !! key = buckets (Allow now key l).1 !! key.
Proof.
  intros H. unfold removeStale, Allow. destruct (bucket_Allow _ _) as [b ok]. cbn. rewrite lookup_insert_eq.
  apply map_lookup_filter_Some. split; [apply lookup_insert_eq|]. cbn. unfold elapsed, staleThreshold in *. lia.
Qed.

(** ** The protocol *)

Record Request := mkRequest {
  JSONRPC : string;
  req_Version : string;
  req_ID : string;
  Method : string;
  Params : option string
}.

Record RPCError := mkError { Code : Z; Message : string }.

Record Response := mkResponse { res_ID : string; Result : option string; Error : option RPCError }.

Record Capabilities := mkCapabilities { ProtocolVersion_ : string; KvelmoVersion : string; Methods : list string }.

Class Json := {
  unmarshal_request : string -> string + Request;
  marshal_response : Response -> string + string;
  unmarshal_response : string -> string + Response;
  marshal_capabilities : Capabilities -> string + string;
  ok_text : string
}.

(** What [encoding/json] promises of the responses that the server makes itself: only
    the raw message of a result can fail to be encoded, and what was encoded before
    does not. *)
Class JsonLaws `{Json} := {
  encodes_error resp : Result resp = None -> exists data, marshal_response resp = inr data;
  encodes_ok id : exists data, marshal_response (mkResponse id (Some ok_text) None) = inr data;
  encodes_capabilities id c data : marshal_capabilities c = inr data ->
    exists text, marshal_response (mkResponse id (Some data) None) = inr text
}.

Definition JSONRPCVersion : string := "2.0".
Definition ProtocolVersion : string := "1".
Definition MethodCapabilities : string := "system.capabilities".
Definition crossVersionMethods : list string := [MethodCapabilities; "ping"; "shutdown"].
Definition protocolCompatible (v : string) : bool := bool_decide (v = "") || bool_decide (v = ProtocolVersion).

Definition ErrCodeParse : Z := -32700.
Definition ErrCodeInvalidRequest : Z := -32600.
Definition ErrCodeMethodNotFound : Z := -32601.
Definition ErrCodeInternal : Z := -32603.
Definition ErrCodeRateLimited : Z := -32002.

Definition NewErrorResponse (id : string) (code : Z) (message : string) : Response := mkResponse id None (Some (mkError code message)).

Definition DecodeRequest `{Json} (data : string) : string + Request :=
  match unmarshal_request data with
  | inl err => inl ("unmarshal request: " +:+ err)
  | inr req => if decide (JSONRPC req = JSONRPCVersion) then inr req else inl ("invalid jsonrpc version: " +:+ JSONRPC req)
  end.

Definition EncodeResponse `{Json} (resp : Response) : string + string :=
  match marshal_response resp with inl err => inl ("marshal response: " +:+ err) | inr data => inr (data +:+ nl) end.

(** ** Middlewares *)

(** [ConnInfo], the correlation identifier and the task traces of a context. *)
Record Ctx := mkCtx { conn_key : string; correlation : string; rpc_trace : option string; task_trace : string }.
#[export] Instance eta_Ctx : Eta Ctx := fun c => mkCtx (conn_key c) (correlation c) (rpc_trace c) (task_trace c).

Record ActivityEntry := mkEntry {
  e_Method : string;
  e_CorrelationID : string;
  e_DurationMs : Z;
  e_Error : string;
  e_ParamsSize : Z;
  e_TaskTraceID : string
}.

(** What a handler returns: a response, which may be nil, and an error; or a panic. *)
Inductive Outcome := Returned (resp : option Response) (err : option string) | Panicked.

Section Server.
Context {W : Type}.

(** The world of the handlers, and what the server keeps: the clock, the identifiers
    given so far, the buckets, the recorded requests and the activity log. *)
Record St := mkSt {
  world : W;
  clock : Time;
  ids : nat;
  limiter : Limiter;
  recorded : list (string * Duration * bool);
  activity : list ActivityEntry;
  shutdown_asked : bool
}.
#[export] Instance eta_St : Eta St := fun s => mkSt (world s) (clock s) (ids s) (limiter s) (recorded s) (activity s) (shutdown_asked s).

Definition Handler : Type := Ctx -> Request -> W -> W * Duration * Outcome.

(** A response, which may be nil, or a panic. *)
Inductive Out := Answer (resp : option Response) | Panic.

Definition HandlerFunc : Type := Ctx -> Request -> St -> St * Out.
Definition Middleware : Type := HandlerFunc -> HandlerFunc.

Definition failed (resp : option Response) : option RPCError := match resp with Some r => Error r | None => None end.

Definition RecoveryMiddleware : Middleware := fun next ctx req st =>
  match next ctx req st with
  | (st, Panic) => (st, Answer (Some (NewErrorResponse (req_ID req) ErrCodeInternal "internal server error")))
  | r => r
  end.

Definition TraceMiddleware (new_id : nat -> string) : Middleware := fun next ctx req st =>
  next (ctx <| correlation := new_id (ids st) |>) req (st <| ids := S (ids st) |>).

Definition MetricsMiddleware : Middleware := fun next ctx req st =>
  let start := clock st in
  match next ctx req st with
  | (st, Answer resp) =>
      (st <| recorded := recorded st ++ [(Method req, (clock st - start)%Z, match failed resp with Some _ => true | None => false end)] |>, Answer resp)
  | r => r
  end.

Definition writeVerbs : list string :=
  ["set"; "create"; "delete"; "remove"; "update"; "start"; "stop"; "abort"; "reset"; "submit"; "approve"; "reject"; "finish";
   "plan"; "implement"; "simplify"; "optimize"; "review"; "undo"; "redo"; "retry"; "abandon"; "shutdown"].

(** What follows the first dot. *)
Fixpoint after_dot (s : string) : option string :=
  match s with
  | "" => None
  | String c s => if decide (c = Ascii.ascii_of_nat 46) then Some s else after_dot s
  end.

Definition isWriteMethod (method : string) : bool :=
  let verb := GraphDef.to_lower (match after_dot method with Some after => after | None => method end) in
  existsb (fun wv => has_prefix verb wv) writeVerbs.

Definition entry_of (ctx : Ctx) (req : Request) (duration : Duration) (resp : option Response) : ActivityEntry :=
  let traced := match rpc_trace ctx with Some t => t | None => "" end in
  mkEntry (Method req) (correlation ctx) (Z.quot duration 1000000) (match failed resp with Some e => Message e | None => "" end)
    (Z.of_nat (String.length (match Params req with Some p => p | None => "" end)))
    (if decide (traced = "") then task_trace ctx else traced).

(** [logger]: whether there is a logger. *)
Definition ActivityLogMiddleware (logger writeOnly : bool) : Middleware := fun next ctx req st =>
  let start := clock st in
  match next ctx req st with
  | (st, Answer resp) =>
      if negb logger || (writeOnly && negb (isWriteMethod (Method req))) then (st, Answer resp)
      else (st <| activity := activity st ++ [entry_of ctx req (clock st - start)%Z resp] |>, Answer resp)
  | r => r
  end.

Definition RateLimitMiddleware (keyFn : Ctx -> string) : Middleware := fun next ctx req st =>
  match Allow (clock st) (keyFn ctx) (limiter st) with
  | (l, false) => (st <| limiter := l |>, Answer (Some (NewErrorResponse (req_ID req) ErrCodeRateLimited "rate limit exceeded")))
  | (l, true) => next ctx req (st <| limiter := l |>)
  end.

(** [pointer] prints the address of a context without a connection. *)
Definition defaultConnKeyFn (pointer : string) (ctx : Ctx) : string := if decide (conn_key ctx = "") then "ctx-" +:+ pointer else conn_key ctx.

Definition buildChain (handler : HandlerFunc) (middleware : list Middleware) : HandlerFunc := foldr (fun v wrapped => v wrapped) handler middleware.

Definition adaptHandler (h : Handler) : HandlerFunc := fun ctx req st =>
  let '(w, d, o) := h ctx req (world st) in
  let st := st <| world := w |> <| clock := (clock st + d)%Z |> in
  match o with
  | Returned _ (Some err) => (st, Answer (Some (NewErrorResponse (req_ID req) ErrCodeInternal err)))
  | Returned resp None => (st, Answer resp)
  | Panicked => (st, Panic)
  end.

(** ** The server *)

(** A registered handler, or one of the two that every server has. *)
Inductive Registered := User (h : Handler) | Shutdown | Handshake.

Record Server := mkServer {
  handlers : gmap string Registered;
  connHandlers : gmap string Handler;
  middleware : list Middleware;
  afterRecoveryPos : nat
}.
#[export] Instance eta_Server : Eta Server := fun s => mkServer (handlers s) (connHandlers s) (middleware s) (afterRecoveryPos s).

(** [s.middleware] of a new server, whose limiter lets a burst of 100 requests pass. *)
Definition default_middleware (new_id : nat -> string) (pointer : string) (logger : bool) : list Middleware :=
  [TraceMiddleware new_id; RateLimitMiddleware (defaultConnKeyFn pointer); MetricsMiddleware; ActivityLogMiddleware logger false].

Definition NewServer (new_id : nat -> string) (pointer : string) (logger : bool) : Server :=
  mkServer {["shutdown" := Shutdown; MethodCapabilities := Handshake]} ∅ (RecoveryMiddleware :: default_middleware new_id pointer logger) 1.

Definition server_limiter : Limiter := NewLimiter (float_dec 1667 2) 100.

Definition Use (mw : list Middleware) (s : Server) : Server := s <| middleware := middleware s ++ mw |>.

Definition UseAfterRecovery (mw : list Middleware) (s : Server) : Server :=
  let pos := Nat.min (afterRecoveryPos s) (length (middleware s)) in
  s <| middleware := take pos (middleware s) ++ mw ++ drop pos (middleware s) |> <| afterRecoveryPos := (pos + length mw)%nat |>.

Definition Handle (method : string) (h : Handler) (s : Server) : Server := s <| handlers := <[method := User h]> (handlers s) |>.
Definition HandleWithConn (method : string) (h : Handler) (s : Server) : Server := s <| connHandlers := <[method := h]> (connHandlers s) |>.

Definition methodNames (s : Server) : list string :=
  sort_strings ((map_to_list (handlers s)).*1 ++ List.filter (fun m => negb (bool_decide (is_Some (handlers s !! m)))) (map_to_list (connHandlers s)).*1).

(** What a program does with a server before it starts it. *)
Inductive Setup := SetUse (mw : list Middleware) | SetAfterRecovery (mw : list Middleware) | SetHandle (method : string) (h : Handler) | SetConn (method : string) (h : Handler).

Definition set_up (s : Server) (o : Setup) : Server :=
  match o with
  | SetUse mw => Use mw s
  | SetAfterRecovery mw => UseAfterRecovery mw s
  | SetHandle m h => Handle m h s
  | SetConn m h => HandleWithConn m h s
  end.

Section Json.
Context `{Json} (version : string).

Definition registered_func (s : Server) (r : Registered) : HandlerFunc :=
  match r with
  | User h => adaptHandler h
  | Shutdown => fun _ req st => (st <| shutdown_asked := true |>, Answer (Some (mkResponse (req_ID req) (Some ok_text) None)))
  | Handshake => fun _ req st =>
      match marshal_capabilities (mkCapabilities ProtocolVersion version (methodNames s)) with
      | inl err => (st, Answer (Some (NewErrorResponse (req_ID req) ErrCodeInternal ("marshal result: " +:+ err))))
      | inr data => (st, Answer (Some (mkResponse (req_ID req) (Some data) None)))
      end
  end.

Definition lookup_method (s : Server) (method : string) : option HandlerFunc :=
  match connHandlers s !! method with
  | Some h => Some (adaptHandler h)
  | None => registered_func s <$> handlers s !! method
  end.

Definition mismatch (req : Request) : string :=
  "protocol version mismatch: client " +:+ quote (req_Version req) +:+ ", server " +:+ quote ProtocolVersion +:+
  "; run 'kvelmo rpc [--global] " +:+ MethodCapabilities +:+ "' to negotiate, or upgrade kvelmo".

Definition dispatch (s : Server) (ctx : Ctx) (req : Request) (st : St) : St * Out :=
  if negb (slice_contains crossVersionMethods (Method req)) && negb (protocolCompatible (req_Version req)) then
    (st, Answer (Some (NewErrorResponse (req_ID req) ErrCodeInvalidRequest (mismatch req))))
  else
    match lookup_method s (Method req) with
    | None => (st, Answer (Some (NewErrorResponse (req_ID req) ErrCodeMethodNotFound ("method not found: " +:+ Method req))))
    | Some hf => buildChain hf (middleware s) ctx req st
    end.

(** A line that was read and when: whether the server was found to be stopping then,
    and whether the answer can be written. *)
Record Read := mkRead { line : string; arrival : Time; stopping : bool; writable : bool }.

Inductive End_ := Eof | Stopped | WriteFailed | Crashed.

Fixpoint serve (s : Server) (ctx : Ctx) (reads : list Read) (st : St) : St * list string * End_ :=
  match reads with
  | [] => (st, [], Eof)
  | r :: reads =>
      if stopping r then (st, [], Stopped) else
      if decide (line r = "") then serve s ctx reads st else
      let st := st <| clock := Z.max (clock st) (arrival r) |> in
      let '(st, out) :=
        match DecodeRequest (line r) with
        | inl err => (st, Answer (Some (NewErrorResponse "" ErrCodeParse err)))
        | inr req => dispatch s ctx req st
        end in
      match out with
      | Answer (Some resp) =>
          match EncodeResponse resp with
          | inr data => if writable r then let '(st, texts, e) := serve s ctx reads st in (st, data :: texts, e) else (st, [], WriteFailed)
          | inl _ => (st, [], WriteFailed)
          end
      | _ => (st, [], Crashed)
      end
  end.

(** [address] is the text of the remote address, [pointer] prints the connection. *)
Definition connKey (address pointer : string) : string := if decide (address = "") then "conn-" +:+ pointer else address.

Definition handleConn (s : Server) (address pointer : string) (reads : list Read) (st : St) : St * list string * End_ :=
  let key := connKey address pointer in
  let '(st, texts, e) := serve s (mkCtx key "" None "") reads st in
  (st <| limiter := Remove key (limiter st) |>, texts, e).

(** [Call] of a client: what it makes of the line it reads after its request. *)
Definition call_result (line : option string) : string + Response :=
  match line with
  | None => inl "connection closed"
  | Some data =>
      match unmarshal_response data with
      | inl err => inl ("decode response: unmarshal response: " +:+ err)
      | inr resp => match Error resp with Some e => inl ("rpc error " +:+ pretty (Code e) +:+ ": " +:+ Message e) | None => inr resp end
      end
  end.

(** ** Lemmas *)






Context `{!JsonLaws}.





Definition default_chain (new_id : nat -> string) (pointer : string) (logger : bool) : list Middleware := RecoveryMiddleware :: default_middleware new_id pointer logger.







End Json.

Lemma lookup_keeps `{Json} (version : string) s m hf ctx req st : lookup_method version s m = Some hf ->
  recorded (hf ctx req st).1 = recorded st /\ activity (hf ctx req st).1 = activity st.
Proof.
  assert (forall h, recorded (adaptHandler h ctx req st).1 = recorded st /\ activity (adaptHandler h ctx req st).1 = activity st) as Hh.
  { intros h. unfold adaptHandler. by destruct (h ctx req (world st)) as [[w d] [resp [err|]|]]. }
  unfold lookup_method. destruct (connHandlers s !! m) as [h|]; [intros [= <-]; apply Hh|].
  destruct (handlers s !! m) as [[h| |]|]; intros [= <-]; cbn [registered_func]; [apply Hh|done|by destruct (marshal_capabilities _)].
Qed.

Lemma set_up_middleware new_id pointer logger ops :
  let s := foldl set_up (NewServer new_id pointer logger) ops in
  let inserted := mjoin (omap (fun o => match o with SetAfterRecovery mw => Some mw | _ => None end) ops) in
  middleware s = RecoveryMiddleware :: inserted ++ default_middleware new_id pointer logger ++ mjoin (omap (fun o => match o with SetUse mw => Some mw | _ => None end) ops)
  /\ afterRecoveryPos s = S (length inserted).
Proof.
  induction ops as [|o ops IH] using rev_ind; [done|]. cbv zeta in IH |- *. rewrite foldl_app, !omap_app, !join_app. cbn [foldl].
  destruct (foldl set_up _ ops) as [hs cs mws pos]. cbn [middleware afterRecoveryPos] in IH. destruct IH as [-> ->].
  destruct o as [mw|mw|m h|m h]; cbn; rewrite ?app_nil_r; try done.
  - split; [|done]. f_equal. by rewrite <- !app_assoc.
  - set (ins := mjoin (omap _ ops)). rewrite Nat.min_l by (rewrite !length_app; lia). cbn [take drop]. rewrite take_app_length, drop_app_length.
    split; [by rewrite <- !app_assoc|]. by rewrite length_app.
Qed.

(** A server with handlers and the middlewares it starts with. *)
Definition standard (new_id : nat -> string) (pointer : string) (logger : bool) (s : Server) : Prop :=
  exists hs, s = foldl set_up (NewServer new_id pointer logger) (map (fun p : string * Handler * bool => if p.2 then SetConn p.1.1 p.1.2 else SetHandle p.1.1 p.1.2) hs).

Lemma standard_middleware new_id pointer logger s : standard new_id pointer logger s -> middleware s = default_chain new_id pointer logger.
Proof.
  intros [hs ->]. destruct (set_up_middleware new_id pointer logger (map (fun p : string * Handler * bool => if p.2 then SetConn p.1.1 p.1.2 else SetHandle p.1.1 p.1.2) hs)) as [-> _].
  assert (forall (f : Setup -> option (list Middleware)), (forall m h, f (SetHandle m h) = None /\ f (SetConn m h) = None) ->
    omap f (map (fun p : string * Handler * bool => if p.2 then SetConn p.1.1 p.1.2 else SetHandle p.1.1 p.1.2) hs) = []) as Hnone.
  { intros f Hf. induction hs as [|[[m h] []] hs IH]; [done|..]; cbn; destruct (Hf m h) as [E1 E2]; by rewrite ?E1, ?E2. }
  rewrite !Hnone by done. done.
Qed.

(** The chain of a server: what is refused for the limit, and what a handler that was
    reached leaves behind. *)
Lemma chain_runs new_id pointer logger hf ctx req st :
  buildChain hf (default_chain new_id pointer logger) ctx req st =
  let '(l, allowed) := Allow (clock st) (defaultConnKeyFn pointer ctx) (limiter st) in
  let ctx' := ctx <| correlation := new_id (ids st) |> in
  let st := st <| ids := S (ids st) |> <| limiter := l |> in
  if allowed then
    match hf ctx' req st with
    | (ran, Panic) => (ran, Answer (Some (NewErrorResponse (req_ID req) ErrCodeInternal "internal server error")))
    | (ran, Answer resp) =>
        let d := (clock ran - clock st)%Z in
        let logged := if logger then ran <| activity := activity ran ++ [entry_of ctx' req d resp] |> else ran in
        (logged <| recorded := recorded ran ++ [(Method req, d, match failed resp with Some _ => true | None => false end)] |>, Answer resp)
    end
  else (st, Answer (Some (NewErrorResponse (req_ID req) ErrCodeRateLimited "rate limit exceeded"))).
Proof.
  unfold buildChain, default_chain, default_middleware. cbn [foldr]. unfold RecoveryMiddleware, TraceMiddleware, RateLimitMiddleware.
  change (defaultConnKeyFn pointer (ctx <| correlation := new_id (ids st) |>)) with (defaultConnKeyFn pointer ctx). cbn [clock limiter set_field].
  destruct (Allow _ _ _) as [l []]; [|reflexivity]. unfold MetricsMiddleware, ActivityLogMiddleware. cbn.
  destruct (hf _ _ _) as [ran [resp|]]; [|reflexivity]. destruct logger; reflexivity.
Qed.

(** ** Theorems *)

(** the middlewares of a server run in a fixed order: recovery first, then what was
    inserted after it in the order of the calls, then the identifier, the rate limit,
    the metrics and the activity log, and last what was added at the end. *)
Theorem middleware_order new_id pointer logger ops h ctx req st :
  let inserted := mjoin (omap (fun o => match o with SetAfterRecovery mw => Some mw | _ => None end) ops) in
  let added := mjoin (omap (fun o => match o with SetUse mw => Some mw | _ => None end) ops) in
  buildChain h (middleware (foldl set_up (NewServer new_id pointer logger) ops)) ctx req st =
  RecoveryMiddleware (buildChain (TraceMiddleware new_id (RateLimitMiddleware (defaultConnKeyFn pointer) (MetricsMiddleware (ActivityLogMiddleware logger false (buildChain h added))))) inserted) ctx req st.
Proof.
  cbv zeta. rewrite (proj1 (set_up_middleware new_id pointer logger ops)). unfold buildChain. cbn [foldr]. by rewrite foldr_app, foldr_app.
Qed.


(** what does not reach a handler has no effect on its world and leaves no record: a
    request of another protocol version, of an unknown method or beyond the limit.  A
    request that passes runs its handler once; it is counted and logged once, unless
    the handler panics. *)
Theorem dispatch_spec `{Json} (version : string) new_id pointer logger (s : Server) (ctx : Ctx) (req : Request) (st : St) :
  standard new_id pointer logger s ->
  let '(st', out) := dispatch version s ctx req st in
  let reachable := slice_contains crossVersionMethods (Method req) || protocolCompatible (req_Version req) in
  let refused code := (exists msg, out = Answer (Some (NewErrorResponse (req_ID req) code msg))) /\
    world st' = world st /\ recorded st' = recorded st /\ activity st' = activity st /\ shutdown_asked st' = shutdown_asked st in
  if negb reachable then refused ErrCodeInvalidRequest else
  match lookup_method version s (Method req) with
  | None => refused ErrCodeMethodNotFound
  | Some hf =>
      let '(l, allowed) := Allow (clock st) (defaultConnKeyFn pointer ctx) (limiter st) in
      if negb allowed then refused ErrCodeRateLimited else
      let ctx' := ctx <| correlation := new_id (ids st) |> in
      let '(ran, answer) := hf ctx' req (st <| ids := S (ids st) |> <| limiter := l |>) in
      world st' = world ran /\
      match answer with
      | Panic => out = Answer (Some (NewErrorResponse (req_ID req) ErrCodeInternal "internal server error")) /\
          recorded st' = recorded st /\ activity st' = activity st
      | Answer resp => out = Answer resp /\
          recorded st' = recorded st ++ [(Method req, (clock ran - clock st)%Z, bool_decide (is_Some (failed resp)))] /\
          activity st' = activity st ++ (if logger then [entry_of ctx' req (clock ran - clock st)%Z resp] else [])
      end
  end.
Proof.
  intros Hs. unfold dispatch. destruct (slice_contains crossVersionMethods (Method req)) eqn:E1, (protocolCompatible (req_Version req)) eqn:E2; cbn [negb andb orb];
    try by split_and!; eauto.
  all: destruct (lookup_method version s (Method req)) as [hf|] eqn:El; [|by split_and!; eauto].
  all: rewrite (standard_middleware _ _ _ _ Hs), chain_runs.
  all: destruct (Allow (clock st) (defaultConnKeyFn pointer ctx) (limiter st)) as [l []]; cbn [negb]; [|by split_and!; eauto].
  all: pose proof (lookup_keeps _ _ _ _ (ctx <| correlation := new_id (ids st) |>) req (st <| ids := S (ids st) |> <| limiter := l |>) El) as [K1 K2].
  all: destruct (hf _ _ _) as [ran [resp|]]; cbn [fst] in K1, K2; (split; [by destruct logger|]).
  all: cbn in K1, K2; split; [done|]; try (rewrite K1, K2; by split).
  all: destruct logger, (failed resp); cbn; rewrite ?K1, ?K2, ?app_nil_r; by split.
Qed.
End Server.

(** Requests of one word, whose identifier is the word and which the world counts. *)
#[local] Instance word_json : Json := {|
  unmarshal_request s := if decide (s = "?") then inl "bad" else inr (mkRequest "2.0" "" s s None);
  marshal_response r := if decide (Result r = Some "{") then inl "unexpected end" else inr (res_ID r +:+ (match Error r with Some e => " " +:+ Message e | None => "" end));
  unmarshal_response s := if has_prefix s "{" then inr (mkResponse "" None None) else inr (mkResponse s None None);
  marshal_capabilities c := inr ("methods " +:+ join_with " " (Methods c));
  ok_text := "ok"
|}.

Definition counting : @Handler nat := fun _ req n => (S n, 1000%Z, Returned (Some (mkResponse (req_ID req) None None)) None).
Definition panicking : @Handler nat := fun _ _ n => (n, 0%Z, Panicked).
Definition silent : @Handler nat := fun _ _ n => (n, 0%Z, Returned None None).
Definition raw : @Handler nat := fun _ _ n => (n, 0%Z, Returned (Some (mkResponse "other" (Some "{}") None)) None).
Definition small_setup := [("echo", counting, false); ("boom", panicking, true); ("nil", silent, false); ("raw", raw, false)].
Definition small_server : @Server nat :=
  foldl set_up (NewServer pretty "" true) (map (fun p : string * Handler * bool => if p.2 then SetConn p.1.1 p.1.2 else SetHandle p.1.1 p.1.2) small_setup).
Definition small_state : @St nat := mkSt 0 0%Z 0 server_limiter [] [] false.

Lemma small_standard : standard pretty "" true small_server.
Proof. by exists small_setup. Qed.

#[local] Instance word_laws : JsonLaws.
Proof.
  split.
  - intros [id [text|] err] E; [done|]. by eexists.
  - intros id. by eexists.
  - intros id c data [= <-]. by eexists.
Qed.


Lemma dispatch_spec_witness :
  let '(st', out) := dispatch "1" small_server (mkCtx "@" "" None "") (mkRequest "2.0" "1" "7" "echo" None) small_state in
  world st' = 1 /\ recorded st' = [("echo", 1000%Z, false)] /\ out = Answer (Some (mkResponse "7" None None)).
Proof.
  pose proof (dispatch_spec "1" pretty "" true small_server (mkCtx "@" "" None "") (mkRequest "2.0" "1" "7" "echo" None) small_state small_standard) as Hd.
  destruct (dispatch _ _ _ _ _) as [st' out]. vm_compute in Hd. destruct Hd as (H1 & H2 & H3 & _). split; [exact H1|]. split; [exact H3|exact H2].
Defined.

(** ** What the code does not do *)

(** Requests at one time with one key: how many pass. *)
Fixpoint burst_passes (n : nat) (key : string) (l : Limiter) : Limiter * nat :=
  match n with
  | 0 => (l, 0)
  | S n => let '(l, ok) := Allow 0%Z key l in let '(l, k) := burst_passes n key l in (l, if ok : bool then S k else k)
  end.

(** The text of the address of a client of a Unix socket is the same for all of them:
    they share one bucket, and any connection that ends refills it for the others. *)
Lemma closing_refills :
  let '(l, passed) := burst_passes 101 (connKey "@" "1") server_limiter in
  passed = 100 /\ (Allow 0%Z (connKey "@" "2") l).2 = false /\
  (Allow 0%Z (connKey "@" "2") (limiter (handleConn "1" small_server "@" "1" [] (small_state <| limiter := l |>)).1.1)).2 = true.
Proof. by vm_compute. Qed.

(** A panic is answered but neither counted nor logged. *)
Lemma panic_not_logged :
  let '(st', out) := dispatch "1" small_server (mkCtx "@" "" None "") (mkRequest "2.0" "1" "7" "boom" None) small_state in
  out = Answer (Some (NewErrorResponse "7" ErrCodeInternal "internal server error")) /\ recorded st' = [] /\ activity st' = [].
Proof. by vm_compute. Qed.

(** A handler that returns neither a response nor an error closes the connection, and
    nothing checks the identifier of a response. *)
Lemma nil_response_closes :
  let reads := map (fun l => mkRead l 0%Z false true) ["raw"; "nil"; "echo"] in
  let '(_, texts, e) := serve "1" small_server (mkCtx "@" "" None "") reads small_state in
  texts = ["other" +:+ nl] /\ e = Crashed.
Proof. by vm_compute. Qed.

(** A client takes the next line for the answer to its call: a notification that the
    server broadcasts meanwhile is an empty success. *)
Lemma notification_taken_for_answer : call_result (Some "{method}") = inr (mkResponse "" None None).
Proof. done. Qed.
