(* ===== verification/CodeGraph.v ===== *)
(** * The code graph

    Translates internal/codegraph/graph.go: two tables of symbols and of edges between
    them, filled a file at a time in one transaction.  The parser of Go files is not
    modelled: a file comes with what it extracts.  [io] is the error of a statement,
    which rolls the transaction back, and [pick] is the row of a [LIMIT 1]. *)

From S2P Require Import Prelude.

(** ** Data *)

Record Symbol := mkSymbol { ID : Z; Name : string; SymKind : string; File : string; Line : Z; Package : string }.
#[export] Instance eta_Symbol : Eta Symbol := fun s => mkSymbol (ID s) (Name s) (SymKind s) (File s) (Line s) (Package s).

Record Edge := mkEdge { FromID : Z; ToID : Z; Relation : string }.
Record rawEdge := mkRaw { FromName : string; ToName : string; RawRelation : string }.

(** The tables, the symbols by identifier, and the next identifier ([AUTOINCREMENT]). *)
Record Db := mkDb { symbols : list Symbol; edges : list Edge; next_id : Z }.
#[export] Instance eta_Db : Eta Db := fun d => mkDb (symbols d) (edges d) (next_id d).

Definition New : Db := mkDb [] [] 1.

(** The result of [parseGoFile]. *)
Definition Parsed : Type := string + list Symbol * list rawEdge.

Section Graph.
Context (pick : list Z -> option Z).

(** ** Indexing *)

Definition ids_of_file (file : string) (d : Db) : list Z := ID <$> filter (fun s => File s = file) (symbols d).

(** The two deletions: the edges from and to the symbols of the file, and the symbols. *)
Definition forget_file (file : string) (d : Db) : Db :=
  let old := ids_of_file file d in
  d <| edges := filter (fun e => FromID e ∉ old /\ ToID e ∉ old) (edges d) |> <| symbols := filter (fun s => File s <> file) (symbols d) |>.

(** The insertions of the symbols, with the identifiers by name: the last one wins. *)
Fixpoint insert_symbols (file : string) (syms : list Symbol) (nameToID : gmap string Z) (d : Db) : gmap string Z * Db :=
  match syms with
  | [] => (nameToID, d)
  | s :: syms =>
      let id := next_id d in
      insert_symbols file syms (<[Name s := id]> nameToID) (d <| symbols := symbols d ++ [s <| ID := id |> <| File := file |>] |> <| next_id := (id + 1)%Z |>)
  end.

(** The target of an edge: in the file, or any symbol of the name. *)
Definition resolve (nameToID : gmap string Z) (d : Db) (name : string) : option Z :=
  match nameToID !! name with
  | Some id => Some id
  | None => pick (ID <$> filter (fun s => Name s = name) (symbols d))
  end.

Fixpoint insert_edges (nameToID : gmap string Z) (raws : list rawEdge) (d : Db) : Db :=
  match raws with
  | [] => d
  | r :: raws =>
      let d :=
        match nameToID !! FromName r with
        | None => d
        | Some from => match resolve nameToID d (ToName r) with Some to => d <| edges := edges d ++ [mkEdge from to (RawRelation r)] |> | None => d end
        end in
      insert_edges nameToID raws d
  end.

Definition IndexFile (io : option string) (file : string) (parsed : Parsed) (d : Db) : Db * option string :=
  match parsed with
  | inl err => (d, Some ("parse " +:+ file +:+ ": " +:+ err))
  | inr (syms, raws) =>
      match io with
      | Some err => (d, Some err)
      | None => let '(names, d) := insert_symbols file syms ∅ (forget_file file d) in (insert_edges names raws d, None)
      end
  end.

(** A directory tree in the order of [WalkDir]; [None] for a directory that cannot be read. *)
Inductive Entry := DirEntry (name : string) (entries : option (list Entry)) | FileEntry (name : string) (io : option string) (parsed : Parsed).

Definition skipped_dirs : list string := ["vendor"; "testdata"; "node_modules"; ".git"].

(** The files that are indexed, with their paths below [path]. *)
Fixpoint indexed_files (path : string) (e : Entry) : list (string * option string * Parsed) :=
  match e with
  | DirEntry name entries =>
      if slice_contains skipped_dirs name then [] else
      match entries with
      | None => []
      | Some es => flat_map (fun e =>
          let name := match e with DirEntry n _ | FileEntry n _ _ => n end in indexed_files (if decide (path = "") then name else path +:+ "/" +:+ name) e) es
      end
  | FileEntry name io parsed => if has_suffix name ".go" then [(path, io, parsed)] else []
  end.

(** Files that cannot be indexed are passed over. *)
Definition index_files (files : list (string * option string * Parsed)) (d : Db) : Db :=
  fold_left (fun d f => (IndexFile f.1.2 f.1.1 f.2 d).1) files d.

(** Paths are kept relative to the directory that is indexed. *)
Definition IndexDirectory (root : Entry) (d : Db) : Db := index_files (indexed_files "" root) d.
End Graph.

(** ** Queries *)

Definition symbol_of (d : Db) (id : Z) : list Symbol := filter (fun s => ID s = id) (symbols d).

Definition QueryCallersOf (name : string) (d : Db) : list Symbol :=
  flat_map (fun s => flat_map (fun e =>
    if decide (FromID e = ID s /\ Relation e = "calls") then (fun _ => s) <$> filter (fun t => Name t = name) (symbol_of d (ToID e)) else []) (edges d)) (symbols d).

Definition QueryDependenciesOf (pkg : string) (d : Db) : list string :=
  remove_dups (flat_map (fun s => flat_map (fun e =>
    if decide (FromID e = ID s /\ Relation e = "imports") then Package <$> symbol_of d (ToID e) else []) (edges d)) (filter (fun s => Package s = pkg) (symbols d))).

Definition QuerySymbol (name : string) (d : Db) : list Symbol := filter (fun s => Name s = name) (symbols d).

(** The counts of [Stats]. *)
Definition count_by {A} (label : A -> string) (prefix : string) (rows : list A) (stats : gmap string Z) : gmap string Z :=
  fold_left (fun stats r => let key := prefix +:+ label r in <[key := (default 0 (stats !! key) + 1)%Z]> stats) rows stats.

Definition Stats (d : Db) : gmap string Z :=
  <["files" := Z.of_nat (length (remove_dups (File <$> symbols d)))]>
    (count_by Relation "edges_" (edges d)
      (<["edges" := Z.of_nat (length (edges d))]> (count_by SymKind "symbols_" (symbols d) {["symbols" := Z.of_nat (length (symbols d))]}))).

(** ** Lemmas *)

(** Identifiers are unique and below the next one, and edges join symbols. *)
Record db_ok (d : Db) : Prop := {
  ok_nodup : NoDup (ID <$> symbols d);
  ok_below : Forall (fun s => (ID s < next_id d)%Z) (symbols d);
  ok_edges : Forall (fun e => FromID e ∈ ID <$> symbols d /\ ToID e ∈ ID <$> symbols d) (edges d)
}.

(** The rows that are inserted for the symbols of a file. *)
Fixpoint rows (file : string) (n : Z) (syms : list Symbol) : list Symbol :=
  match syms with [] => [] | s :: syms => (s <| ID := n |> <| File := file |>) :: rows file (n + 1) syms end.

Lemma rows_ids file syms : forall n s, s ∈ rows file n syms -> (n <= ID s < n + Z.of_nat (length syms))%Z /\ File s = file.
Proof.
  induction syms as [|x syms IH]; intros n s Hs; [by apply elem_of_nil in Hs|]. cbn [rows] in Hs. apply elem_of_cons in Hs as [->|Hs]; cbn.
  - split; [lia|done].
  - destruct (IH _ _ Hs) as [Hn Hf]. split; [lia|done].
Qed.

Lemma rows_nodup file syms : forall n, NoDup (ID <$> rows file n syms).
Proof.
  induction syms as [|x syms IH]; intros n; cbn [rows fmap list_fmap]; [constructor|]. constructor; [|apply IH].
  intros (s & E & Hs)%list_elem_of_fmap. apply rows_ids in Hs. cbn in E. lia.
Qed.

Lemma insert_symbols_spec file syms : forall names d,
  let '(names', d') := insert_symbols file syms names d in
  symbols d' = symbols d ++ rows file (next_id d) syms /\ edges d' = edges d /\ next_id d' = (next_id d + Z.of_nat (length syms))%Z /\
  forall name id, names' !! name = Some id -> names !! name = Some id \/ (id ∈ ID <$> rows file (next_id d) syms /\ name ∈ Name <$> syms).
Proof.
  induction syms as [|x syms IH]; intros names d; cbn [insert_symbols rows].
  - rewrite app_nil_r. split_and!; [done|done|cbn; lia|by left].
  - specialize (IH (<[Name x := next_id d]> names) (d <| symbols := symbols d ++ [x <| ID := next_id d |> <| File := file |>] |> <| next_id := (next_id d + 1)%Z |>)).
    destruct (insert_symbols _ _ _ _) as [names' d']. destruct IH as (H1 & H2 & H3 & H4). cbn in H1, H2, H3. split_and!.
    + rewrite H1. cbn. by rewrite <- app_assoc.
    + done.
    + rewrite H3. cbn [length]. lia.
    + intros name id Hn. destruct (H4 _ _ Hn) as [Hn'|[Hi Hn']].
      * apply lookup_insert_Some in Hn' as [[<- <-]|[_ Hn']]; [|by left]. right. cbn. split; by left.
      * right. cbn. split; by right.
Qed.

Section Lemmas.
Context (pick : list Z -> option Z).
Hypothesis pick_in : forall l id, pick l = Some id -> id ∈ l.

Lemma insert_edges_spec names raws : forall d,
  let d' := insert_edges pick names raws d in
  symbols d' = symbols d /\ next_id d' = next_id d /\
  forall e, e ∈ edges d' -> e ∈ edges d \/
    exists r, r ∈ raws /\ names !! FromName r = Some (FromID e) /\ Relation e = RawRelation r /\ ((exists n, names !! n = Some (ToID e)) \/ ToID e ∈ ID <$> symbols d).
Proof.
  induction raws as [|r raws IH]; intros d; cbn [insert_edges]; [split_and!; [done..|by left]|].
  destruct (names !! FromName r) as [from|] eqn:Ef.
  2:{ destruct (IH d) as (H1 & H2 & H3). split_and!; [done..|]. intros e He. destruct (H3 e He) as [|(r' & Hr & Hx)]; [by left|right]. exists r'. split; [by right|done]. }
  destruct (resolve pick names d (ToName r)) as [to|] eqn:Et.
  2:{ destruct (IH d) as (H1 & H2 & H3). split_and!; [done..|]. intros e He. destruct (H3 e He) as [|(r' & Hr & Hx)]; [by left|right]. exists r'. split; [by right|done]. }
  specialize (IH (d <| edges := edges d ++ [mkEdge from to (RawRelation r)] |>)). destruct IH as (H1 & H2 & H3). cbn in H1, H2, H3. split_and!; [done..|].
  intros e He. destruct (H3 e He) as [He'|(r' & Hr & Hx)].
  - apply elem_of_app in He' as [He'|He']; [by left|]. apply list_elem_of_singleton in He' as ->. right. exists r. cbn. split_and!; [by left|done|done|].
    unfold resolve in Et. destruct (names !! ToName r) as [id|] eqn:En; [injection Et as ->; left; by exists (ToName r)|].
    right. apply pick_in in Et. apply list_elem_of_fmap in Et as (s & -> & Hs). apply list_elem_of_fmap. exists s. split; [done|]. by apply list_elem_of_filter in Hs as [_ Hs].
  - right. exists r'. split; [by right|done].
Qed.

(** What a successful [IndexFile] does to the tables. *)
Lemma indexed file syms raws d : let d' := (IndexFile pick None file (inr (syms, raws)) d).1 in
  let kept := filter (fun s => File s <> file) (symbols d) in
  let fresh := rows file (next_id d) syms in
  symbols d' = kept ++ fresh /\ next_id d' = (next_id d + Z.of_nat (length syms))%Z /\
  forall e, e ∈ edges d' ->
    (e ∈ edges d /\ FromID e ∉ ids_of_file file d /\ ToID e ∉ ids_of_file file d) \/
    (FromID e ∈ ID <$> fresh /\ ToID e ∈ ID <$> kept ++ fresh /\ exists r, r ∈ raws /\ FromName r ∈ Name <$> syms /\ Relation e = RawRelation r).
Proof.
  cbn [IndexFile fst]. pose proof (insert_symbols_spec file syms ∅ (forget_file file d)) as Hs.
  destruct (insert_symbols file syms ∅ (forget_file file d)) as [names d1]. destruct Hs as (H1 & H2 & H3 & H4). cbn in H1, H2, H3, H4.
  pose proof (insert_edges_spec names raws d1) as (E1 & E2 & E3). cbv zeta. cbn [fst]. rewrite E1, E2. split_and!; [done..|].
  assert (forall n id, names !! n = Some id -> id ∈ ID <$> rows file (next_id d) syms /\ n ∈ Name <$> syms) as Hn.
  { intros n id Hl. by destruct (H4 n id Hl) as [Hx|]; [rewrite lookup_empty in Hx|]. }
  intros e He. destruct (E3 e He) as [He'|(r & Hr & Hf & Hrel & Ht)].
  - left. rewrite H2 in He'. apply list_elem_of_filter in He' as [[Hf Ht] He']. done.
  - right. destruct (Hn _ _ Hf) as [Hf1 Hf2]. split; [done|]. split; [|by exists r].
    destruct Ht as [[n Hl]|Ht]; [rewrite fmap_app; apply elem_of_app; right; by eapply Hn|by rewrite H1 in Ht].
Qed.

Lemma indexed_ok io file parsed d : db_ok d -> db_ok (IndexFile pick io file parsed d).1.
Proof.
  intros [Hn Hb He]. destruct parsed as [err|[syms raws]]; [done|]. destruct io as [err|]; [done|].
  destruct (indexed file syms raws d) as (H1 & H2 & H3). split.
  - rewrite H1, fmap_app. apply NoDup_app. split_and!; [|..|apply rows_nodup].
    + apply (sublist_NoDup _ _ Hn). by apply fmap_sublist, sublist_filter.
    + intros id (s & -> & Hs)%list_elem_of_fmap (t & E & Ht)%list_elem_of_fmap. apply list_elem_of_filter in Hs as [_ Hs].
      apply rows_ids in Ht. rewrite Forall_forall in Hb. specialize (Hb s Hs). lia.
  - rewrite H1, H2. apply Forall_app. split.
    + apply Forall_forall. intros s [_ Hs]%list_elem_of_filter. rewrite Forall_forall in Hb. specialize (Hb s Hs). lia.
    + apply Forall_forall. intros s Hs. apply rows_ids in Hs. lia.
  - rewrite H1. apply Forall_forall. intros e Hin. destruct (H3 e Hin) as [(Hin' & Hf & Ht)|(Hf & Ht & _)].
    + rewrite Forall_forall in He. destruct (He e Hin') as [Hf' Ht']. rewrite fmap_app, !elem_of_app.
      assert (forall id, id ∈ ID <$> symbols d -> id ∉ ids_of_file file d -> id ∈ ID <$> filter (fun s => File s <> file) (symbols d)) as Hk.
      { intros id (s & -> & Hs)%list_elem_of_fmap Hno. apply list_elem_of_fmap. exists s. split; [done|]. apply list_elem_of_filter. split; [|done].
        intros Hfile. apply Hno. apply list_elem_of_fmap. exists s. split; [done|]. by apply list_elem_of_filter. }
      split; left; by apply Hk.
    + split; [|done]. rewrite fmap_app. apply elem_of_app. by right.
Qed.
(** The identifier is that of a symbol of the file. *)
Definition in_file (d : Db) (id : Z) (file : string) : Prop := exists s, s ∈ symbols d /\ ID s = id /\ File s = file.

(** No edge leads from a file of the list to a later one. *)
Definition backwards (files : list string) (d : Db) : Prop :=
  forall e i j f g, e ∈ edges d -> files !! i = Some f -> files !! j = Some g -> in_file d (FromID e) f -> in_file d (ToID e) g -> j <= i.

Lemma in_file_kept file syms raws d id f : db_ok d -> (id < next_id d)%Z ->
  in_file (IndexFile pick None file (inr (syms, raws)) d).1 id f -> in_file d id f /\ f <> file.
Proof.
  intros Hok Hlt (s & Hs & Hid & Hf). destruct (indexed file syms raws d) as (H1 & _ & _). rewrite H1 in Hs. apply elem_of_app in Hs as [Hs|Hs].
  - apply list_elem_of_filter in Hs as [Hne Hs]. split; [by exists s|by rewrite <- Hf].
  - apply rows_ids in Hs. lia.
Qed.

Lemma backwards_step files file syms raws d : db_ok d -> file ∉ files -> backwards files d ->
  backwards (files ++ [file]) (IndexFile pick None file (inr (syms, raws)) d).1.
Proof.
  intros Hok Hnew Hback e i j f g He Hi Hj Hf Hg. destruct (indexed file syms raws d) as (H1 & _ & H3).
  assert (forall k x, (files ++ [file]) !! k = Some x -> (k < length files /\ files !! k = Some x) \/ (k = length files /\ x = file)) as Hlook.
  { intros k x Hk. apply lookup_app_Some in Hk as [Hk|[Hge Hk]]; [left; split; [by eapply lookup_lt_Some|done]|right].
    apply list_lookup_singleton_Some in Hk as [Hk ->]. split; [lia|done]. }
  destruct (H3 e He) as [(He' & _ & _)|(Hfresh & _)].
  - pose proof (ok_edges _ Hok) as Hoe. rewrite Forall_forall in Hoe. destruct (Hoe e He') as [Hfid Htid].
    pose proof (ok_below _ Hok) as Hob. rewrite Forall_forall in Hob.
    assert (forall id, id ∈ ID <$> symbols d -> (id < next_id d)%Z) as Hlt by (intros id (s & -> & Hs)%list_elem_of_fmap; by apply Hob).
    apply (in_file_kept _ _ _ _ _ _ Hok (Hlt _ Hfid)) in Hf as [Hf Hfne]. apply (in_file_kept _ _ _ _ _ _ Hok (Hlt _ Htid)) in Hg as [Hg Hgne].
    destruct (Hlook _ _ Hi) as [[_ Hi']|[_ ->]]; [|done]. destruct (Hlook _ _ Hj) as [[_ Hj']|[_ ->]]; [|done]. by eapply Hback.
  - destruct (Hlook _ _ Hi) as [[Hlt Hi']|[-> _]]; [|destruct (Hlook _ _ Hj) as [[Hlt _]|[-> _]]; lia]. exfalso.
    destruct Hf as (s & Hs & Hid & <-). rewrite H1 in Hs. apply list_elem_of_fmap in Hfresh as (t & Et & Ht). apply rows_ids in Ht as [Ht _].
    apply elem_of_app in Hs as [Hs|Hs].
    + apply list_elem_of_filter in Hs as [_ Hs]. pose proof (ok_below _ Hok) as Hob. rewrite Forall_forall in Hob. specialize (Hob s Hs). lia.
    + apply rows_ids in Hs as [_ Hs]. apply Hnew. rewrite <- Hs. by eapply list_elem_of_lookup_2.
Qed.

Definition path_of (f : string * option string * Parsed) : string := f.1.1.

(** Files that are parsed and stored without errors. *)
Definition good (f : string * option string * Parsed) : Prop := f.1.2 = None /\ match f.2 with inr _ => True | inl _ => False end.

Lemma index_backwards files : Forall good files -> forall done_ d, db_ok d -> NoDup (done_ ++ (path_of <$> files)) -> backwards done_ d ->
  let d' := index_files pick files d in db_ok d' /\ backwards (done_ ++ (path_of <$> files)) d'.
Proof.
  induction 1 as [|[[file io] parsed] files [Hio Hp] Hg IH]; intros done_ d Hok Hnd Hback; cbn in *; [by rewrite app_nil_r|].
  subst io. destruct parsed as [|[syms raws]]; [done|]. rewrite cons_middle, app_assoc in Hnd |- *. apply IH; [by apply indexed_ok|done|].
  apply backwards_step; [done| |done]. rewrite <- app_assoc in Hnd. apply NoDup_app in Hnd as (_ & Hnd & _). intros Hin. apply (Hnd file Hin). by left.
Qed.

Lemma callers_edge name d s : s ∈ QueryCallersOf name d ->
  exists e t, e ∈ edges d /\ s ∈ symbols d /\ t ∈ symbols d /\ FromID e = ID s /\ ToID e = ID t /\ Relation e = "calls" /\ Name t = name.
Proof.
  unfold QueryCallersOf. rewrite list_elem_of_In, in_flat_map. intros (s' & Hs & Hin). rewrite in_flat_map in Hin. destruct Hin as (e & He & Hin).
  destruct (decide _) as [[Hf Hr]|]; [|done]. apply list_elem_of_In, list_elem_of_fmap in Hin as (t & -> & Ht).
  apply list_elem_of_filter in Ht as [Hn Ht]. apply list_elem_of_filter in Ht as [Hid Ht].
  exists e, t. split_and!; try done; by apply list_elem_of_In.
Qed.

(** ** Theorems *)

(** C39: indexing a list of files gives a graph whose edges join symbols, and every
    caller that is found has an edge to a symbol of the name, which lies in the
    caller's own file or in one that was indexed before it: the calls of a file to a
    later one are never found. *)
Theorem callers_only_later (files : list (string * option string * Parsed)) (d : Db) :
  db_ok d -> Forall good files -> NoDup (path_of <$> files) ->
  let d' := index_files pick files d in
  db_ok d' /\ forall name s, s ∈ QueryCallersOf name d' ->
    exists e t, e ∈ edges d' /\ FromID e = ID s /\ ToID e = ID t /\ Relation e = "calls" /\ t ∈ QuerySymbol name d' /\
      forall i j f g, files !! i = Some f -> files !! j = Some g -> File s = f.1.1 -> File t = g.1.1 -> j <= i.
Proof.
  intros Hok Hg Hnd. cbn zeta. destruct (index_backwards files Hg [] d Hok Hnd ltac:(intros ? ? ? ? ? _ Hx; done)) as [Hok' Hback].
  split; [done|]. intros name s Hs. destruct (callers_edge _ _ _ Hs) as (e & t & He & Hin & Ht & Hf & Hto & Hr & Hn). exists e, t.
  split_and!; [done..|by apply list_elem_of_filter|].
  intros i j f g Hi Hj Hfs Hft. eapply (Hback e i j (File s) (File t)); [done| | |by exists s|by exists t].
  - cbn. by rewrite list_lookup_fmap, Hi, Hfs.
  - cbn. by rewrite list_lookup_fmap, Hj, Hft.
Qed.

(** Imports start from the name of a package, which is no symbol. *)
Lemma no_imports files : Forall (fun f => match f.2 with inr (syms, raws) => Forall (fun r => RawRelation r = "imports" -> FromName r ∉ Name <$> syms) raws | inl _ => True end) files ->
  forall d, Forall (fun e => Relation e <> "imports") (edges d) -> Forall (fun e => Relation e <> "imports") (edges (index_files pick files d)).
Proof.
  induction 1 as [|[[file io] parsed] files Hf Hfs IH]; intros d Hd; [done|]. cbn [index_files fold_left]. apply IH. cbn in Hf |- *.
  destruct parsed as [|[syms raws]]; [done|]. destruct io; [done|]. destruct (indexed file syms raws d) as (_ & _ & H3). apply Forall_forall. intros e He.
  cbn in Hf. rewrite Forall_forall in Hd. rewrite Forall_forall in Hf. destruct (H3 e He) as [(He' & _)|(_ & _ & r & Hr & Hn & Hrel)]; [by apply Hd|]. rewrite Hrel. intros E. by apply (Hf r Hr).
Qed.

(** The dependencies of every package are empty. *)
Lemma dependencies_empty files pkg : Forall (fun f => match f.2 with inr (syms, raws) => Forall (fun r => RawRelation r = "imports" -> FromName r ∉ Name <$> syms) raws | inl _ => True end) files ->
  QueryDependenciesOf pkg (index_files pick files New) = [].
Proof.
  intros Hf. pose proof (no_imports files Hf New (List.Forall_nil _)) as He. unfold QueryDependenciesOf.
  match goal with |- remove_dups ?l = [] => assert (l = []) as ->; [|done] end.
  induction (filter _ _) as [|s l IH]; [done|]. cbn [flat_map]. rewrite IH, app_nil_r. clear IH.
  induction He as [|e es Hne He IH]; [done|]. cbn [flat_map]. rewrite decide_False by (intros [_ E]; done). exact IH.
Qed.
End Lemmas.

(** a.go calls [B], which b.go defines and calls as well. *)
Definition two_files : list (string * option string * Parsed) :=
  [("a.go", None, inr ([mkSymbol 0 "A" "function" "" 3 "p"], [mkRaw "A" "B" "calls"]));
   ("b.go", None, inr ([mkSymbol 0 "B" "function" "" 3 "p"; mkSymbol 0 "C" "function" "" 5 "p"], [mkRaw "C" "B" "calls"; mkRaw "p" "fmt" "imports"]))].

Lemma callers_only_later_witness :
  Name <$> QueryCallersOf "B" (index_files head two_files New) = ["C"] /\
  exists t, t ∈ QuerySymbol "B" (index_files head two_files New) /\ File t = "b.go".
Proof.
  split; [vm_compute; reflexivity|].
  assert (db_ok New) as Hok by (split; [constructor|apply List.Forall_nil|apply List.Forall_nil]).
  destruct (callers_only_later head head_Some_elem_of two_files New Hok
    ltac:(repeat constructor) ltac:(vm_compute; repeat constructor; set_solver)) as (_ & Hall).
  destruct (Hall "B" (mkSymbol 3 "C" "function" "b.go" 5 "p") ltac:(vm_compute; by left)) as (e & t & _ & _ & _ & _ & Ht & _).
  exists t. split; [exact Ht|]. vm_compute in Ht. apply elem_of_cons in Ht as [->|Ht]; [reflexivity|by apply elem_of_nil in Ht].
Defined.

(** A second pass over the directory does not help, and indexing b.go again alone
    drops the edges of the other files to it. *)
Lemma second_pass_same :
  Name <$> QueryCallersOf "B" (index_files head two_files (index_files head two_files New)) = ["C"].
Proof. by vm_compute. Qed.

(** The paths depend on the directory that is indexed: a file that is indexed from two
    of them is there twice. *)
Lemma indexed_twice :
  let file := FileEntry "a.go" None (inr ([mkSymbol 0 "A" "function" "" 3 "p"], [])) in
  let d := IndexDirectory head (DirEntry "p" (Some [file])) (IndexDirectory head (DirEntry "r" (Some [DirEntry "p" (Some [file])])) New) in
  File <$> QuerySymbol "A" d = ["p/a.go"; "a.go"].
Proof. by vm_compute. Qed.
