(* ===== verification/SubTasks.v ===== *)
(** * Sub-tasks

    Translates internal/conductor/conductor_subtask.go, and the labels of branches of
    conductor_fork.go: a node of a graph that runs a lifecycle of its own, as a chain
    of phases in a worktree of its own.  What git, the pool and the nested scheduler
    answer is [Env]; what the call does to them is the list of its operations. *)

From S2P Require Import Prelude Names Text Paths.
From S2P Require GraphDef Errors Graph Executor.

(** ** The configuration *)

Import Graph.

Definition validSubTaskPhases : list string := [Errors.PhasePlan; Errors.PhaseImplement; Errors.PhaseSimplify; Errors.PhaseOptimize; Errors.PhaseReview].

Fixpoint unknown_phase (phases : list string) : option string :=
  match phases with
  | [] => None
  | p :: phases => if slice_contains validSubTaskPhases p then unknown_phase phases else Some p
  end.

Definition validateSubTaskConfig (config : SubTaskConfig) : option string :=
  match stc_Phases config with
  | [] => Some "sub-task: no phases specified"
  | phases => match unknown_phase phases with Some p => Some ("sub-task: unknown phase " +:+ quote p) | None => None end
  end.

(** ** The graph *)

Definition subTaskNodeID (phase : string) (index : nat) : NodeID := phase +:+ "-" +:+ pretty (Z.of_nat index).

Definition subTaskPhaseInstruction (phase : string) : string :=
  go_switch phase
    [(Errors.PhasePlan, "Write a focused specification for this sub-task.");
     (Errors.PhaseImplement, "Implement the sub-task according to its specification.");
     (Errors.PhaseSimplify, "Simplify the implementation without changing its behavior.");
     (Errors.PhaseOptimize, "Improve the quality and performance of the implementation.");
     (Errors.PhaseReview, "Review the implementation and report any issues.")]
    "Run the requested phase.".

Definition buildSubTaskPhasePrompt (config : SubTaskConfig) (phase : string) : string :=
  "Sub-task: " +:+ stc_Title config +:+ nl +:+
  (if decide (stc_Description config = "") then "" else nl +:+ stc_Description config +:+ nl) +:+
  nl +:+ "Phase: " +:+ phase +:+ nl +:+ subTaskPhaseInstruction phase +:+ nl.

Definition phase_node (config : SubTaskConfig) (i : nat) (phase : string) (prev : NodeID) : Node :=
  simple_node (subTaskNodeID phase i) phase phase (buildSubTaskPhasePrompt config phase)
    <| DependsOn := if decide (prev = "") then [] else [prev] |>.

(** The loop over the phases; an error of [AddNode] is ignored. *)
Fixpoint add_phases (config : SubTaskConfig) (i : nat) (prev : NodeID) (phases : list string) (g : Graph) : Graph :=
  match phases with
  | [] => g
  | phase :: phases =>
      let g := match AddNode (phase_node config i phase prev) g with Ok g => g | Err _ => g end in
      add_phases config (S i) (subTaskNodeID phase i) phases g
  end.

Definition buildSubTaskGraph (config : SubTaskConfig) : Graph := add_phases config 0 "" (stc_Phases config) New.

Fixpoint outputs (i : nat) (phases : list string) (results : gmap NodeID string) : string :=
  match phases with
  | [] => ""
  | phase :: phases =>
      let out := default "" (results !! subTaskNodeID phase i) in
      (if decide (out = "") then "" else "## " +:+ phase +:+ nl +:+ out +:+ nl +:+ nl) +:+ outputs (S i) phases results
  end.

Definition aggregateSubTaskOutput (config : SubTaskConfig) (results : gmap NodeID string) : string :=
  TrimSpace (outputs 0 (stc_Phases config) results).

(** ** The run *)

(** [sanitizeBranchLabel]: the first old text that matches at a place is replaced. *)
Fixpoint replace_chars (s : string) : string :=
  match s with
  | "" => ""
  | String c rest =>
      match rest with
      | String c' rest' =>
          if decide (c = Ascii.ascii_of_nat 46 /\ c' = Ascii.ascii_of_nat 46) then "-" +:+ replace_chars rest'
          else if existsb (fun d => bool_decide (c = d)) (String.list_ascii_of_string " /~^:?*[\") then "-" +:+ replace_chars rest
          else String c (replace_chars rest)
      | "" => if existsb (fun d => bool_decide (c = d)) (String.list_ascii_of_string " /~^:?*[\") then "-" else s
      end
  end.

Definition sanitizeBranchLabel (label : string) : string := GraphDef.to_lower (replace_chars label).

Record Env := mkEnv {
  work_unit : option string;
  pool : bool;
  repo : option string;
  settings : bool;
  head_commit : string + string;
  uuid : string;
  branch_exists : string -> bool;
  worktree_error : option string;
  run_outputs : list (NodeID * string);
  run_results : gmap NodeID string;
  run_failed : bool;
  dirty : string + bool;
  staged : option string;
  committed : option string
}.

Inductive Op :=
| AddWorktree (dir branch : string) (create : bool) (base : string)
| Provision (repo dir : string)
| Emit (type message branch : string)
| RunGraph (g : Graph) (dir : string)
| StageAll (dir : string)
| Commit (dir message : string)
| RemoveWorktree (dir : string)
| PruneWorktrees.

(** The operations; an error of them is logged. *)
Definition commitSubTaskWork (env : Env) (dir message : string) : list Op :=
  match dirty env with
  | inr true => StageAll dir :: match staged env with Some _ => [] | None => [Commit dir message] end
  | _ => []
  end.

Definition branch_label (config : SubTaskConfig) : string :=
  let label := sanitizeBranchLabel (stc_Title config) in
  String.substring 0 40 (if decide (label = "") then "subtask" else label).

Definition RunSubTask (env : Env) (config : SubTaskConfig) : list Op * (string * option string) :=
  let fail err := ([], ("", Some err)) in
  match validateSubTaskConfig config with Some err => fail err | None =>
  if negb (pool env) then fail "sub-task: worker pool not available" else
  match repo env with None => fail "sub-task: git repository not available" | Some path =>
  match head_commit env with inl err => fail ("sub-task: resolve base commit: " +:+ err) | inr base =>
  let label := branch_label config in
  let shortID := String.substring 0 8 (uuid env) in
  let branch := if decide (stc_Branch config = "")
    then "kvelmo-subtask/" +:+ default "" (work_unit env) +:+ "/" +:+ label +:+ "-" +:+ shortID else stc_Branch config in
  if has_prefix branch "-" then fail ("sub-task: invalid branch name " +:+ quote branch) else
  let dir := Clean (Executor.Dir path +:+ "/.kvelmo-worktrees/subtask-" +:+ label +:+ "-" +:+ shortID) in
  let add := AddWorktree dir branch (negb (branch_exists env branch)) base in
  match worktree_error env with Some err => ([add], ("", Some ("sub-task: create worktree: " +:+ err))) | None =>
  let title := stc_Title config in
  let output := aggregateSubTaskOutput config (run_results env) in
  let ops := [add] ++ (if settings env then [Provision path dir] else []) ++ [Emit "sub_task_started" ("Sub-task started: " +:+ title) branch] ++
    [RunGraph (buildSubTaskGraph config) dir] ++ map (fun o => Emit "sub_task_output" o.2 branch) (run_outputs env) ++
    commitSubTaskWork env dir ((if run_failed env then "Sub-task (failed): " else "Sub-task: ") +:+ title) in
  let cleanup := [RemoveWorktree dir; PruneWorktrees] in
  if run_failed env
  then (ops ++ [Emit "sub_task_failed" ("Sub-task failed: " +:+ title) branch] ++ cleanup, (output, Some ("sub-task " +:+ quote title +:+ " failed during execution")))
  else (ops ++ [Emit "sub_task_completed" ("Sub-task completed: " +:+ title) branch] ++ cleanup, (output, None))
  end end end end.

(** ** Lemmas *)

Definition dash : Ascii.ascii := Ascii.ascii_of_nat 45.

Lemma digits_no_dash s : all_digits s = true -> no_char dash s = true.
Proof.
  unfold all_digits, no_char. induction s as [|c s IH]; [done|]. cbn. rewrite !andb_true_iff. intros [Hc Hs]. split; [|by apply IH].
  apply bool_decide_eq_true in Hc. rewrite negb_true_iff. apply bool_decide_eq_false. intros ->. by destruct Hc.
Qed.

Lemma subTaskNodeID_inj p i q j : subTaskNodeID p i = subTaskNodeID q j -> i = j.
Proof.
  destruct (pretty_digits (Z.of_nat i) ltac:(lia)) as (_ & Hi & Vi). destruct (pretty_digits (Z.of_nat j) ltac:(lia)) as (_ & Hj & Vj).
  intros E. apply (join_inj dash) in E as [_ E]; [|by apply digits_no_dash..]. rewrite E, Vj in Vi. lia.
Qed.

Lemma subTaskNodeID_some p i : subTaskNodeID p i <> "".
Proof. unfold subTaskNodeID. by destruct p. Qed.

(** The nodes of the phases from number [i] on. *)
Fixpoint phase_ids (i : nat) (phases : list string) : list NodeID :=
  match phases with [] => [] | p :: phases => subTaskNodeID p i :: phase_ids (S i) phases end.

Lemma phase_ids_index phases : forall i id, id ∈ phase_ids i phases -> exists p j, id = subTaskNodeID p j /\ i <= j.
Proof.
  induction phases as [|p phases IH]; intros i id Hid; [by apply elem_of_nil in Hid|]. cbn in Hid. apply elem_of_cons in Hid as [->|Hid]; [by exists p, i|].
  destruct (IH _ _ Hid) as (q & j & -> & Hj). exists q, j. split; [done|lia].
Qed.

(** What is built so far: the nodes of [l], the last one first. *)
Record built (g : Graph) (l : list NodeID) : Prop := {
  built_topo : topological g l;
  built_nodes : forall id, is_Some (Nodes g !! id) <-> id ∈ l;
  built_keys : well_keyed g;
  built_plain : forall id n, Nodes g !! id = Some n -> FailBranch n = None /\ node_config_ok n
}.

Lemma depends_fresh g id n a b : Nodes g !! id = None -> a <> id -> depends (g <| Nodes := <[id := n]> (Nodes g) |>) a b <-> depends g a b.
Proof. intros Hid Hne. unfold depends. cbn. by rewrite lookup_insert_ne. Qed.

Lemma topological_fresh g id n l : Nodes g !! id = None -> id ∉ l -> topological g l -> topological (g <| Nodes := <[id := n]> (Nodes g) |>) l.
Proof.
  intros Hid. induction l as [|a l IH]; intros Hl; [done|]. apply not_elem_of_cons in Hl as [Hne Hl]. intros (H1 & H2 & H3). split; [done|]. split; [|by apply IH].
  intros b Hb. apply H2. by apply (depends_fresh g id n).
Qed.

Lemma built_step config i phase prev g l : built g l -> subTaskNodeID phase i ∉ l -> (prev = "" \/ prev ∈ l) ->
  let id := subTaskNodeID phase i in
  exists g', AddNode (phase_node config i phase prev) g = Ok g' /\ built g' (id :: l) /\
    Nodes g' = <[id := phase_node config i phase prev]> (Nodes g).
Proof.
  intros [Ht Hn Hk Hp] Hid Hprev id. assert (Nodes g !! id = None) as Hno by (apply eq_None_not_Some; by rewrite Hn).
  unfold AddNode. change (ID (phase_node config i phase prev)) with id. rewrite Hno. eexists. split; [reflexivity|]. split; [|reflexivity]. split.
  - split; [done|]. split; [|by apply topological_fresh]. intros b (n & E & Hb). cbn in E. rewrite lookup_insert_eq in E. injection E as <-.
    change (b ∈ (if decide (prev = "") then [] else [prev])) in Hb. destruct (decide (prev = "")) as [->|Hne]; [by apply elem_of_nil in Hb|]. apply list_elem_of_singleton in Hb as ->. by destruct Hprev.
  - intros a. cbn. rewrite elem_of_cons, lookup_insert_is_Some, Hn. naive_solver.
  - intros a n. cbn. rewrite lookup_insert_Some. intros [[<- <-]|[_ E]]; [done|by apply Hk].
  - intros a n. cbn. rewrite lookup_insert_Some. intros [[<- <-]|[_ E]]; [|by apply (Hp a)]. split; [done|]. by vm_compute.
Qed.

Lemma add_phases_built config phases : forall i prev g l, built g l -> (prev = "" /\ l = [] \/ head l = Some prev) -> (forall id, id ∈ l -> exists p j, id = subTaskNodeID p j /\ j < i) ->
  let g' := add_phases config i prev phases g in
  built g' (List.rev (phase_ids i phases) ++ l) /\
  (forall id, id ∈ l -> Nodes g' !! id = Nodes g !! id) /\
  forall k phase, phases !! k = Some phase ->
    Nodes g' !! subTaskNodeID phase (i + k) = Some (phase_node config (i + k) phase
      (match k with 0 => prev | S k => subTaskNodeID (default "" (phases !! k)) (i + k) end)).
Proof.
  induction phases as [|phase phases IH]; intros i prev g l Hb Hprev Hl; [by split_and!|]. cbn [add_phases phase_ids].
  assert (subTaskNodeID phase i ∉ l) as Hnew.
  { intros Hin. destruct (Hl _ Hin) as (p & j & E & Hj). apply subTaskNodeID_inj in E. lia. }
  destruct (built_step config i phase prev g l Hb Hnew) as (g1 & -> & Hb1 & E1).
  { destruct Hprev as [[-> _]|Hh]; [by left|right]. destruct l as [|a l]; [done|]. injection Hh as ->. by left. }
  destruct (IH (S i) (subTaskNodeID phase i) g1 (subTaskNodeID phase i :: l) Hb1 ltac:(by right)) as (H1 & H2 & H3).
  { intros id Hid. apply elem_of_cons in Hid as [->|Hid]; [exists phase, i; split; [done|lia]|]. destruct (Hl _ Hid) as (p & j & -> & Hj). exists p, j. split; [done|lia]. }
  split; [|split].
  - cbn [List.rev]. by rewrite <- app_assoc.
  - intros id Hid. rewrite H2 by (by right). rewrite E1. apply lookup_insert_ne. intros <-. by apply Hnew.
  - intros [|k] q Hq.
    + injection Hq as <-. rewrite Nat.add_0_r, H2 by (by left). by rewrite E1, lookup_insert_eq.
    + rewrite Nat.add_succ_r. rewrite <- Nat.add_succ_l, (H3 k q Hq). do 2 f_equal. destruct k as [|k]; cbn; [by rewrite Nat.add_0_r|]. by rewrite Nat.add_succ_r.
Qed.

Lemma length_phase_ids phases i : length (phase_ids i phases) = length phases.
Proof. revert i. induction phases as [|p phases IH]; intros i; cbn; [done|]. by rewrite IH. Qed.

Lemma valid_phases config i phase : validateSubTaskConfig config = None -> stc_Phases config !! i = Some phase -> phase ∈ validSubTaskPhases.
Proof.
  unfold validateSubTaskConfig. destruct (stc_Phases config) as [|p ps]; [done|]. destruct (unknown_phase (p :: ps)) as [|] eqn:E; [done|]. intros _ Hi.
  generalize dependent i. generalize dependent (p :: ps). intros l. induction l as [|q l IH]; intros E i Hi; [done|]. cbn in E.
  destruct (slice_contains validSubTaskPhases q) eqn:Eq; [|done]. destruct i as [|i]; [|by apply (IH E i)].
  injection Hi as ->. by apply bool_decide_eq_true in Eq.
Qed.

(** ** Theorems *)

(** C40: the graph of a valid sub-task is accepted, in any order of its maps, and is the
    chain of its phases: one node for each, which runs the phase and depends on the
    node before it alone. *)
Theorem subtask_chain (config : SubTaskConfig) :
  validateSubTaskConfig config = None ->
  let g := buildSubTaskGraph config in
  graph_ok g /\ (forall order, (forall i, is_order (order i) g) -> is_ok <$> Validate order g = Some true) /\
  NodeCount g = length (stc_Phases config) /\
  forall i phase, stc_Phases config !! i = Some phase -> phase ∈ validSubTaskPhases /\
    exists n, Nodes g !! subTaskNodeID phase i = Some n /\ JobType n = phase /\
      DependsOn n = match i with 0 => [] | S j => [subTaskNodeID (default "" (stc_Phases config !! j)) j] end.
Proof.
  intros Hv g. destruct (add_phases_built config (stc_Phases config) 0 "" New []) as (Hb & _ & Hn).
  { split; [done| |by intros ? ? ?|by intros ? ? ?]. intros id. by split; [intros []|intros ?%elem_of_nil]. }
  { by left. } { intros id Hid. by apply elem_of_nil in Hid. }
  fold (buildSubTaskGraph config) in Hb, Hn. fold g in Hb, Hn. rewrite app_nil_r in Hb. destruct Hb as [Ht Hd Hk Hp].
  assert (graph_ok g) as Hok.
  { split.
    - intros E. unfold validateSubTaskConfig in Hv. destruct (stc_Phases config) as [|p ps] eqn:Ep; [done|]. specialize (Hn 0 p eq_refl). by rewrite E in Hn.
    - intros a b Hab. apply Hd. refine (proj1 (topological_tc g _ a b Ht _ (tc_once _ _ _ Hab))). apply Hd. destruct Hab as (n & E & _). by exists n.
    - intros id n E. destruct (Hp id n E) as [Hf Hc]. split; [|done]. unfold fail_branch_ok. by rewrite Hf.
    - apply (topological_acyclic g _ Ht). intros a. apply Hd. }
  split_and!; [done| | |].
  - intros order Ho. destruct (Validate_result g order Hk Ho) as (r & -> & Hr). cbn. f_equal. by apply Hr.
  - unfold NodeCount. rewrite <- (length_map_to_list (Nodes g)), <- (length_fmap fst), <- (length_phase_ids (stc_Phases config) 0), <- (List.length_rev (phase_ids _ _)).
    apply Permutation_length, NoDup_Permutation; [apply NoDup_fst_map_to_list|by eapply topological_NoDup|].
    intros id. rewrite <- Hd, list_elem_of_fmap. split; [intros ([k n] & -> & E%elem_of_map_to_list); by exists n|].
    intros [n E]. exists (id, n). split; [done|]. by apply elem_of_map_to_list.
  - intros i phase E. split; [by eapply valid_phases|]. eexists. split; [by apply (Hn i)|]. split; [done|]. cbn.
    destruct i as [|i]; [done|]. apply decide_False. apply subTaskNodeID_some.
Qed.

Lemma subtask_chain_witness :
  let config := Build_SubTaskConfig "t" "" ["plan"; "plan"; "review"] "" None in
  NodeCount (buildSubTaskGraph config) = 3 /\ DependsOn <$> (Nodes (buildSubTaskGraph config) !! "review-2") = Some ["plan-1"].
Proof.
  intros config. destruct (subtask_chain config eq_refl) as (_ & _ & Hc & Hn). split; [exact Hc|].
  destruct (Hn 2 "review" eq_refl) as (_ & n & E & _ & Hd). change (subTaskNodeID "review" 2) with "review-2" in E. etrans; [exact (f_equal (fmap DependsOn) E)|]. cbn. rewrite Hd. reflexivity.
Defined.

(** a sub-task that got its worktree removes it again, as the last thing but for pruning and
    after its work was committed, whether its graph failed or not; one that did not
    get it did nothing else. *)
Theorem subtask_cleaned_up (env : Env) (config : SubTaskConfig) :
  let '(ops, (_, err)) := RunSubTask env config in
  match ops with
  | [] => is_Some err
  | AddWorktree dir branch _ _ :: rest =>
      has_prefix branch "-" = false /\
      match worktree_error env with
      | Some _ => rest = [] /\ is_Some err
      | None => (is_Some err <-> run_failed env = true) /\
          exists mid, rest = mid ++ [RemoveWorktree dir; PruneWorktrees] /\
            Forall (fun op => match op with AddWorktree _ _ _ _ | RemoveWorktree _ | PruneWorktrees => False | StageAll d | Commit d _ => d = dir | _ => True end) mid /\
            RunGraph (buildSubTaskGraph config) dir ∈ mid
      end
  | _ => False
  end.
Proof.
  unfold RunSubTask. destruct (validateSubTaskConfig config); [by eexists|]. destruct (pool env); cbn [negb]; [|by eexists].
  destruct (repo env) as [path|]; [|by eexists]. destruct (head_commit env) as [|base]; [by eexists|].
  match goal with |- context [has_prefix ?b "-"] => destruct (has_prefix b "-") eqn:Eb end; [by eexists|].
  destruct (worktree_error env) as [err|]; [by split_and!|].
  match goal with |- context [RemoveWorktree ?d] => set (dir := d) end. set (commit := commitSubTaskWork _ _ _).
  assert (Forall (fun op => match op with AddWorktree _ _ _ _ | RemoveWorktree _ | PruneWorktrees => False | StageAll d | Commit d _ => d = dir | _ => True end) commit) as Hc.
  { unfold commit, commitSubTaskWork. destruct (dirty env) as [|[]]; [constructor| |constructor]. destruct (staged env); repeat constructor. }
  destruct (run_failed env); (split; [done|]); (split; [split; first [done|by eexists|by intros _; eexists|by intros [? ?]]|]); eexists (_ ++ [_]); (split; [apply app_assoc|]);
    (split; [|rewrite !elem_of_app; left; right; right; right; left; by left]); rewrite !Forall_app; split_and!; try done; try (by repeat constructor);
    first [by destruct (settings env); repeat constructor|by apply Forall_map, Forall_true].
Qed.
