(* ===== verification/TaskGroups.v ===== *)
(** * Task groups

    Translates [internal/taskgroup] (group.go, coordinator.go, and of storage.go
    which files exist): tasks of several repositories that are submitted
    together.  A group is shared by pointer: the coordinator's map and a call
    that has still to save it hold the same one.  A file is kept as the group it
    encodes; the encoder reads the group field by field without the lock, each
    field whole, and the change a call makes to a group is one step. *)

From S2P Require Import Prelude Proc ProcLocks.

(** ** Groups *)

Definition StatusActive : string := "active".
Definition StatusReady : string := "ready".
Definition StatusSubmitted : string := "submitted".
Definition StatusCompleted : string := "completed".

Definition readyStates : list string := ["reviewing"; "submitted"; "completed"].

Record TaskRef := mkTaskRef { ProjectDir : string; TaskID : string; TState : string }.
#[export] Instance eta_TaskRef : Eta TaskRef := fun t => mkTaskRef (ProjectDir t) (TaskID t) (TState t).
#[export] Instance TaskRef_eq_dec : EqDecision TaskRef.
Proof. solve_decision. Defined.

Record Group := mkGroup {
  gr_ID : string;
  Label : string;
  Tasks : list TaskRef;
  Status : string;
  CreatedAt : Time;
  UpdatedAt : Time
}.
#[export] Instance eta_Group : Eta Group := fun g =>
  mkGroup (gr_ID g) (Label g) (Tasks g) (Status g) (CreatedAt g) (UpdatedAt g).

Definition AllReady (g : Group) : bool :=
  negb (bool_decide (Tasks g = [])) && forallb (fun t => slice_contains readyStates (TState t)) (Tasks g).

Definition ContainsTask (taskID : string) (g : Group) : bool :=
  existsb (fun t => bool_decide (TaskID t = taskID)) (Tasks g).

Definition refreshStatus (g : Group) : Group :=
  if AllReady g && bool_decide (Status g = StatusActive) then g <| Status := StatusReady |> else g.

Definition AddTask_ (now : Time) (ref : TaskRef) (g : Group) : Group * option string :=
  if ContainsTask (TaskID ref) g then (g, Some ("add task: task " +:+ quote (TaskID ref) +:+ " already in group"))
  else (refreshStatus (g <| Tasks ::= fun l => l ++ [ref] |> <| UpdatedAt := now |>), None).

(** Without the first reference to the task. *)
Fixpoint delete_task (taskID : string) (l : list TaskRef) : list TaskRef :=
  match l with
  | [] => []
  | t :: l => if decide (TaskID t = taskID) then l else t :: delete_task taskID l
  end.

Definition RemoveTask (now : Time) (taskID : string) (g : Group) : Group * option string :=
  if ContainsTask taskID g
  then (refreshStatus (g <| Tasks ::= delete_task taskID |> <| UpdatedAt := now |>), None)
  else (g, Some ("remove task: task " +:+ quote taskID +:+ " not found in group")).

Fixpoint set_task_state (taskID st : string) (l : list TaskRef) : list TaskRef :=
  match l with
  | [] => []
  | t :: l => if decide (TaskID t = taskID) then t <| TState := st |> :: l else t :: set_task_state taskID st l
  end.

Definition UpdateTaskState_ (now : Time) (taskID st : string) (g : Group) : Group :=
  if ContainsTask taskID g
  then refreshStatus (g <| Tasks ::= set_task_state taskID st |> <| UpdatedAt := now |>) else g.

Definition ValidateStatus (s : string) : option string :=
  if slice_contains [StatusActive; StatusReady; StatusSubmitted; StatusCompleted] s then None
  else Some ("unknown group status: " +:+ s).

(** ** The coordinator

    [heap] holds the groups, by address; [groups] is the map behind the lock;
    [disk] is the directory of the store, the group that each file encodes. *)

Record Coordinator := mkCoordinator {
  heap : gmap nat Group;
  groups : gmap string nat;
  disk : gmap string Group
}.
#[export] Instance eta_Coordinator : Eta Coordinator := fun c => mkCoordinator (heap c) (groups c) (disk c).

(** What a call asks: the clock, a random identifier, whether a file could be
    written or removed, the order of a range over the map. *)
Inductive tg_question := TNow | TNewID | TSave (id : string) | TDelete (id : string) | TOrder.

Definition tg_answer (q : tg_question) : Type :=
  match q with
  | TNow => Time
  | TNewID => result string string
  | TSave _ | TDelete _ => option string
  | TOrder => list string
  end.

Notation gproc := (@proc Coordinator tg_question Empty_set tg_answer).
Notation gask := (@ask Coordinator tg_question Empty_set tg_answer).

(** A new group in the map. *)
Definition load_group (c : Coordinator) (g : Group) : Coordinator :=
  let p := fresh (dom (heap c)) in
  c <| heap ::= <[p := g]> |> <| groups ::= <[gr_ID g := p]> |>.

(** [NewCoordinator] on the files that [LoadAll] can read, in the order of the
    directory. *)
Definition NewCoordinator (files : list (string * Group)) : Coordinator :=
  fold_left load_group files.*2 (mkCoordinator ∅ ∅ (list_to_map files)).

(** The groups by identifier. *)
Definition groups_of (c : Coordinator) : gmap string Group := omap (fun p => heap c !! p) (groups c).

(** The first group of the range that has the task. *)
Definition group_with (taskID : string) (order : list string) (m : gmap string Group) : option (string * Group) :=
  List.find (fun e : string * Group => ContainsTask taskID e.2) (map_range order m).

(** The group at an address; every address a call has holds one. *)
Definition group_at (p : nat) (c : Coordinator) : Group :=
  default (mkGroup "" "" [] StatusActive 0%Z 0%Z) (heap c !! p).

Definition set_group (p : nat) (g : Group) (c : Coordinator) : Coordinator := c <| heap ::= <[p := g]> |>.

(** What a call that holds the write lock does to one group: [f] gives the new
    group, or an error; the address of the group when it was changed. *)
Definition change_group (missing : string) (id : string) (f : Group -> Group * option string) (c : Coordinator)
  : Coordinator * (string + nat) :=
  match groups c !! id with
  | None => (c, inl missing)
  | Some p =>
      match f (group_at p c) with
      | (_, Some e) => (c, inl e)
      | (g, None) => (set_group p g c, inr p)
      end
  end.

Definition no_group (what id : string) : string := what +:+ ": group " +:+ quote id +:+ " not found".

Definition submit_ (now : Time) (id : string) (g : Group) : Group * option string :=
  if AllReady g then (g <| Status := StatusSubmitted |> <| UpdatedAt := now |>, None)
  else (g, Some ("submit group: not all tasks are ready in group " +:+ quote id)).

Section coordinator.
Local Open Scope proc_scope.

(** The task at an index of the array of a group. *)
Definition task_at (p i : nat) (c : Coordinator) : TaskRef := default (mkTaskRef "" "" "") (Tasks (group_at p c) !! i).

(** [json.MarshalIndent] reads the group where it is, one field after the other,
    and of the tasks as many as there were when it came to them. *)
Fixpoint encode_tasks (p i n : nat) : gproc (list TaskRef) :=
  match n with
  | 0 => Ret []
  | S n =>
      let* dir := unsynced (fun c => ProjectDir (task_at p i c)) in
      let* id := unsynced (fun c => TaskID (task_at p i c)) in
      let* st := unsynced (fun c => TState (task_at p i c)) in
      let* ts := encode_tasks p (S i) n in
      Ret (mkTaskRef dir id st :: ts)
  end.

Definition encode (p : nat) : gproc Group :=
  let* id := unsynced (fun c => gr_ID (group_at p c)) in
  let* label := unsynced (fun c => Label (group_at p c)) in
  let* n := unsynced (fun c => length (Tasks (group_at p c))) in
  let* tasks := encode_tasks p 0 n in
  let* status := unsynced (fun c => Status (group_at p c)) in
  let* created := unsynced (fun c => CreatedAt (group_at p c)) in
  let* updated := unsynced (fun c => UpdatedAt (group_at p c)) in
  Ret (mkGroup id label tasks status created updated).

(** [c.store.Save(g)]: the group is encoded without a lock of its own, and its
    file is replaced at the end. *)
Definition Save (p : nat) : gproc (option string) :=
  let* g := encode p in
  let* failed := gask (TSave (gr_ID g)) in
  match failed with
  | Some e => Ret (Some e)
  | None => freely (fun c => c <| disk ::= <[gr_ID g := g]> |>);;; Ret None
  end.

Definition save_error (what : string) (failed : option string) : result string unit :=
  match failed with Some e => Err (what +:+ ": " +:+ e) | None => Ok tt end.

Definition CreateGroup (label : string) : gproc (result string nat) :=
  let* id := gask TNewID in
  match id with
  | Err e => Ret (Err ("create group: " +:+ e))
  | Ok id =>
      let* now := gask TNow in
      lock Write;;;
      let* p := update Writes (fun c =>
        (load_group c (mkGroup id label [] StatusActive now now), fresh (dom (heap c)))) in
      unlock Write;;;
      let* failed := Save p in
      Ret (match failed with Some e => Err ("create group: " +:+ e) | None => Ok p end)
  end.

Definition GetGroup (id : string) : gproc (result string nat) :=
  lock Read;;;
  let* p := reads (fun c => groups c !! id) in
  unlock Read;;;
  Ret (match p with Some p => Ok p | None => Err (no_group "get group" id) end).

(** Shallow copies: the tasks of a copy are those of the group, in one array. *)
Definition ListGroups : gproc (list Group) :=
  lock Read;;;
  let* order := gask TOrder in
  let* l := reads (fun c => map snd (map_range order (groups_of c))) in
  unlock Read;;;
  Ret l.

Definition AddTask (groupID : string) (ref : TaskRef) : gproc (result string unit) :=
  lock Write;;;
  let* now := gask TNow in
  let* r := update Writes (change_group (no_group "add task to group" groupID) groupID (AddTask_ now ref)) in
  unlock Write;;;
  match r with
  | inl e => Ret (Err e)
  | inr p => let* failed := Save p in Ret (save_error "add task to group" failed)
  end.

Definition UpdateTaskState (taskID st : string) : gproc unit :=
  deferred (
    let* order := gask TOrder in
    let* now := gask TNow in
    let* p := update Writes (fun c =>
      match group_with taskID order (groups_of c) with
      | None => (c, None)
      | Some (id, g) =>
          match groups c !! id with
          | None => (c, None)
          | Some p => (set_group p (UpdateTaskState_ now taskID st g) c, Some p)
          end
      end) in
    match p with
    | None => Ret tt
    | Some p => Save p;;; Ret tt
    end).

Definition CanSubmit (taskID : string) (syncSubmit : bool) : gproc (result string unit) :=
  if negb syncSubmit then Ret (Ok tt) else
  lock Read;;;
  let* order := gask TOrder in
  let* g := reads (fun c => group_with taskID order (groups_of c)) in
  unlock Read;;;
  Ret (match g with
       | Some (id, g) =>
           if AllReady g then Ok tt
           else Err ("cannot submit: task group " +:+ quote (gr_ID g) +:+ " (" +:+ Label g +:+
                       ") has members not yet ready")
       | None => Ok tt
       end).

Definition SubmitGroup (id : string) : gproc (result string unit) :=
  lock Write;;;
  let* now := gask TNow in
  let* r := update Writes (change_group (no_group "submit group" id) id (submit_ now id)) in
  unlock Write;;;
  match r with
  | inl e => Ret (Err e)
  | inr p => let* failed := Save p in Ret (save_error "submit group" failed)
  end.

(** [store.Delete]: the file has to exist. *)
Definition Delete (id : string) : gproc (option string) :=
  let* failed := gask (TDelete id) in
  update Free (fun c =>
    match failed, disk c !! id with
    | Some e, _ => (c, Some e)
    | None, None => (c, Some ("delete group: no file " +:+ id))
    | None, Some _ => (c <| disk ::= delete id |>, None)
    end).

Definition RemoveGroup (id : string) : gproc (result string unit) :=
  lock Write;;;
  let* known := update Writes (fun c =>
    match groups c !! id with
    | None => (c, false)
    | Some _ => (c <| groups ::= delete id |>, true)
    end) in
  unlock Write;;;
  if known : bool then let* failed := Delete id in Ret (save_error "remove group" failed)
  else Ret (Err (no_group "remove group" id)).

Definition FindGroupForTask (taskID : string) : gproc (option nat) :=
  lock Read;;;
  let* order := gask TOrder in
  let* p := reads (fun c => e ← group_with taskID order (groups_of c); groups c !! e.1) in
  unlock Read;;;
  Ret p.
End coordinator.

(** ** The calls *)

Inductive group_call :=
| CallCreate (label : string)
| CallGet (id : string)
| CallList
| CallAdd (id : string) (ref : TaskRef)
| CallUpdate (taskID st : string)
| CallCan (taskID : string) (sync : bool)
| CallSubmit (id : string)
| CallRemove (id : string)
| CallFind (taskID : string).

(** A call, with its error. *)
Definition error_of {A} (r : result string A) : option string := match r with Ok _ => None | Err e => Some e end.

Definition run_group_call (t : group_call) : gproc (option string) :=
  (match t with
   | CallCreate label => let* r := CreateGroup label in Ret (error_of r)
   | CallGet id => let* r := GetGroup id in Ret (error_of r)
   | CallList => ListGroups;;; Ret None
   | CallAdd id ref => let* r := AddTask id ref in Ret (error_of r)
   | CallUpdate taskID st => UpdateTaskState taskID st;;; Ret None
   | CallCan taskID sync => let* r := CanSubmit taskID sync in Ret (error_of r)
   | CallSubmit id => let* r := SubmitGroup id in Ret (error_of r)
   | CallRemove id => let* r := RemoveGroup id in Ret (error_of r)
   | CallFind taskID => FindGroupForTask taskID;;; Ret None
   end)%proc.

Definition no_goroutines (t : Empty_set) : gproc unit := match t with end.

Definition groups_start (c : Coordinator) (ts : list group_call) :=
  start_config c ((fun t => discard (run_group_call t)) <$> ts).

(** ** Lemmas: groups *)

(** The tasks of a group are distinct, its status is one of the four, and it is
    active only while a member is not ready. *)
Definition sound (g : Group) : Prop :=
  NoDup (TaskID <$> Tasks g) /\ ValidateStatus (Status g) = None /\
  (Status g = StatusActive -> AllReady g = false).

(** What a file keeps of it. *)
Definition filed (g : Group) : Prop := NoDup (TaskID <$> Tasks g) /\ ValidateStatus (Status g) = None.

Lemma sound_filed g : sound g -> filed g.
Proof. by intros (? & ? & _). Qed.

Lemma ContainsTask_elem id g : ContainsTask id g = true <-> id ∈ TaskID <$> Tasks g.
Proof.
  unfold ContainsTask. rewrite existsb_exists, list_elem_of_fmap. setoid_rewrite <- list_elem_of_In.
  split; intros (t & H1 & H2); exists t; [apply bool_decide_eq_true in H2|rewrite bool_decide_eq_true]; auto.
Qed.

Lemma refresh_sound g :
  NoDup (TaskID <$> Tasks g) -> ValidateStatus (Status g) = None -> sound (refreshStatus g).
Proof.
  intros Hn Hv. unfold refreshStatus. destruct (AllReady g) eqn:Ea; cbn [andb].
  - case_bool_decide as Hs; [by split_and!|]. split_and!; [done..|]. intros E. by destruct Hs.
  - by split_and!.
Qed.

Lemma refresh_ID g : gr_ID (refreshStatus g) = gr_ID g.
Proof. unfold refreshStatus. by destruct (_ && _). Qed.

Lemma set_task_state_IDs id st l : TaskID <$> set_task_state id st l = TaskID <$> l.
Proof. induction l as [|t l IH]; [done|]. cbn. destruct (decide _); cbn; [done|by rewrite IH]. Qed.

(** The operations on one group keep it sound and keep its identifier. *)
Definition keeps_sound (f : Group -> Group * option string) : Prop :=
  forall g g', f g = (g', None) -> (sound g -> sound g') /\ gr_ID g' = gr_ID g.

Lemma AddTask_sound now ref : keeps_sound (AddTask_ now ref).
Proof.
  intros g g'. unfold AddTask_. destruct (ContainsTask (TaskID ref) g) eqn:E; intros [= <-].
  split; [|by rewrite refresh_ID]. intros (Hn & Hv & _). apply refresh_sound; [|done]. cbn.
  rewrite fmap_app. apply NoDup_app. split_and!; [done| |apply NoDup_singleton].
  intros x Hx ->%list_elem_of_singleton. apply ContainsTask_elem in Hx. congruence.
Qed.

Lemma submit_sound now id : keeps_sound (submit_ now id).
Proof. intros g g'. unfold submit_. destruct (AllReady g); intros [= <-]. split; [|done]. intros (Hn & _ & _). by split_and!. Qed.

Lemma UpdateTaskState_sound now id st g :
  (sound g -> sound (UpdateTaskState_ now id st g)) /\ gr_ID (UpdateTaskState_ now id st g) = gr_ID g.
Proof.
  unfold UpdateTaskState_. destruct (ContainsTask id g); [|done]. split; [|by rewrite refresh_ID].
  intros (Hn & Hv & _). apply refresh_sound; cbn; [by rewrite set_task_state_IDs|done].
Qed.

(** ** Lemmas: the coordinator *)

Record wf (c : Coordinator) : Prop := {
  wf_ids id p : groups c !! id = Some p -> exists g, heap c !! p = Some g /\ gr_ID g = id;
  wf_heap p g : heap c !! p = Some g -> sound g;
  wf_disk id g : disk c !! id = Some g -> gr_ID g = id /\ filed g
}.

Lemma group_at_sound c p : wf c -> sound (group_at p c).
Proof.
  intros Hw. unfold group_at. destruct (heap c !! p) eqn:E; [by eapply wf_heap|].
  by split_and!; [apply NoDup_nil_2|..].
Qed.

Lemma wf_load c g : wf c -> sound g -> wf (load_group c g).
Proof.
  intros Hw Hg. unfold load_group. pose proof (is_fresh (dom (heap c))) as Hf.
  set (p := fresh (dom (heap c))) in *. split; cbn.
  - intros id q. destruct (decide (gr_ID g = id)) as [<-|Hne].
    + rewrite lookup_insert_eq. intros [= <-]. rewrite lookup_insert_eq. by eexists.
    + rewrite lookup_insert_ne by done. intros Hq. destruct (wf_ids c Hw _ _ Hq) as (g' & Hg' & <-).
      exists g'. split; [|done]. rewrite lookup_insert_ne; [done|]. intros <-. apply Hf. by apply elem_of_dom_2 in Hg'.
  - intros q g'. destruct (decide (p = q)) as [<-|Hne]; [rewrite lookup_insert_eq; by intros [= <-]|].
    rewrite lookup_insert_ne by done. by apply wf_heap.
  - apply (wf_disk c Hw).
Qed.

Lemma wf_set c p g : wf c -> sound g -> gr_ID g = gr_ID (group_at p c) -> wf (set_group p g c).
Proof.
  intros Hw Hg Hid. split; cbn.
  - intros id q Hq. destruct (wf_ids c Hw _ _ Hq) as (g' & Hg' & <-). destruct (decide (p = q)) as [<-|Hne].
    + exists g. rewrite lookup_insert_eq. split; [done|]. rewrite Hid. unfold group_at. by rewrite Hg'.
    + exists g'. by rewrite lookup_insert_ne.
  - intros q g'. destruct (decide (p = q)) as [<-|Hne]; [rewrite lookup_insert_eq; by intros [= <-]|].
    rewrite lookup_insert_ne by done. by apply wf_heap.
  - apply (wf_disk c Hw).
Qed.

Lemma wf_change missing id f c : keeps_sound f -> wf c -> wf (change_group missing id f c).1.
Proof.
  intros Hf Hw. unfold change_group. destruct (groups c !! id) as [p|]; [|done].
  destruct (f (group_at p c)) as [g [e|]] eqn:E; [done|]. destruct (Hf _ _ E) as [Hs Hi].
  apply wf_set; [done| |done]. by apply Hs, group_at_sound.
Qed.

Lemma wf_save c g : wf c -> filed g -> wf (c <| disk ::= <[gr_ID g := g]> |>).
Proof.
  intros [H1 H2 H3] Hg. split; cbn; [done..|]. intros id g'. destruct (decide (gr_ID g = id)) as [<-|Hne].
  - rewrite lookup_insert_eq. by intros [= <-].
  - rewrite lookup_insert_ne by done. apply H3.
Qed.

Lemma wf_drop_group c id : wf c -> wf (c <| groups ::= delete id |>).
Proof. intros [H1 H2 H3]. split; cbn; [|done..]. intros i p [_ Hp]%lookup_delete_Some. by apply H1. Qed.

Lemma wf_drop_file c id : wf c -> wf (c <| disk ::= delete id |>).
Proof. intros [H1 H2 H3]. split; cbn; [done..|]. intros i p [_ Hp]%lookup_delete_Some. by apply H3. Qed.

Lemma new_group_sound id label now : sound (mkGroup id label [] StatusActive now now).
Proof. by split_and!; [apply NoDup_nil_2|..]. Qed.

(** *** The map of the groups *)

Lemma groups_of_lookup c id : groups_of c !! id = p ← groups c !! id; heap c !! p.
Proof. unfold groups_of. apply lookup_omap. Qed.

Lemma groups_of_Some c id g : wf c -> groups_of c !! id = Some g ->
  exists p, groups c !! id = Some p /\ heap c !! p = Some g /\ group_at p c = g /\ gr_ID g = id.
Proof.
  intros Hw. rewrite groups_of_lookup. intros (p & Hp & Hg)%bind_Some. exists p.
  destruct (wf_ids c Hw _ _ Hp) as (g' & Hg' & Hi). unfold group_at. rewrite Hg. by split_and!; [..|congruence].
Qed.

Lemma groups_of_None c id : wf c -> groups_of c !! id = None -> groups c !! id = None.
Proof.
  intros Hw. rewrite groups_of_lookup. destruct (groups c !! id) as [p|] eqn:E; [|done].
  destruct (wf_ids c Hw _ _ E) as (g & Hg & _). cbn. by rewrite Hg.
Qed.

Lemma groups_of_load c g : wf c -> groups_of (load_group c g) = <[gr_ID g := g]> (groups_of c).
Proof.
  intros Hw. apply map_eq. intros id. rewrite groups_of_lookup. unfold load_group. cbn.
  pose proof (is_fresh (dom (heap c))) as Hf. set (p := fresh (dom (heap c))) in *.
  destruct (decide (gr_ID g = id)) as [<-|Hne].
  - rewrite !lookup_insert_eq. cbn. by rewrite lookup_insert_eq.
  - rewrite !lookup_insert_ne, groups_of_lookup by done. destruct (groups c !! id) as [q|] eqn:E; [|done]. cbn.
    destruct (wf_ids c Hw _ _ E) as (g' & Hg' & _). apply lookup_insert_ne. intros <-. apply Hf.
    by apply elem_of_dom_2 in Hg'.
Qed.

Lemma groups_of_set c id p g :
  wf c -> groups c !! id = Some p -> groups_of (set_group p g c) = <[id := g]> (groups_of c).
Proof.
  intros Hw Hp. apply map_eq. intros i. rewrite groups_of_lookup. unfold set_group. cbn.
  destruct (decide (id = i)) as [<-|Hne].
  - rewrite Hp, lookup_insert_eq. cbn. by rewrite lookup_insert_eq.
  - rewrite lookup_insert_ne, groups_of_lookup by done. destruct (groups c !! i) as [q|] eqn:E; [|done]. cbn.
    destruct (wf_ids c Hw _ _ E) as (g' & Hg' & Hi), (wf_ids c Hw _ _ Hp) as (g'' & Hg'' & Hi').
    apply lookup_insert_ne. intros <-. congruence.
Qed.

(** ** The contract: a map of groups

    What each call does to the map of groups by identifier, and its error. *)

Definition spec_change (missing : string) (id : string) (f : Group -> Group * option string)
  (m : gmap string Group) : gmap string Group * option string :=
  match m !! id with
  | None => (m, Some missing)
  | Some g => match f g with (_, Some e) => (m, Some e) | (g', None) => (<[id := g']> m, None) end
  end.

Definition group_spec (a : forall q, tg_answer q) (t : group_call) (m : gmap string Group)
  : gmap string Group * option string :=
  match t with
  | CallCreate label =>
      match a TNewID with
      | Ok id => (<[id := mkGroup id label [] StatusActive (a TNow) (a TNow)]> m, None)
      | Err e => (m, Some ("create group: " +:+ e))
      end
  | CallGet id => (m, if m !! id then None else Some (no_group "get group" id))
  | CallList | CallFind _ => (m, None)
  | CallAdd id ref => spec_change (no_group "add task to group" id) id (AddTask_ (a TNow) ref) m
  | CallUpdate taskID st =>
      match group_with taskID (a TOrder) m with
      | Some (id, g) => (<[id := UpdateTaskState_ (a TNow) taskID st g]> m, None)
      | None => (m, None)
      end
  | CallCan taskID sync =>
      match group_with taskID (a TOrder) m with
      | Some (id, g) =>
          if sync && negb (AllReady g)
          then (m, Some ("cannot submit: task group " +:+ quote id +:+ " (" +:+ Label g +:+
                           ") has members not yet ready"))
          else (m, None)
      | None => (m, None)
      end
  | CallSubmit id => spec_change (no_group "submit group" id) id (submit_ (a TNow) id) m
  | CallRemove id => match m !! id with Some _ => (delete id m, None) | None => (m, Some (no_group "remove group" id)) end
  end.

Definition group_alone (c : Coordinator) : @local Coordinator Empty_set := mkLocal c Unheld [] 0.

Definition run_alone (a : forall q, tg_answer q) (t : group_call) (c : Coordinator) :=
  exec (fun _ => a) (run_group_call t) (group_alone c).

(** The store takes every write, and removes every file there is. *)
Definition stores (a : forall q, tg_answer q) : Prop := forall id, a (TSave id) = None /\ a (TDelete id) = None.

Definition in_sync (c : Coordinator) : Prop := wf c /\ disk c = groups_of c.

Lemma group_with_Some taskID order m id g : group_with taskID order m = Some (id, g) ->
  m !! id = Some g /\ ContainsTask taskID g = true.
Proof. intros [H1 H2]%find_some. split; [|done]. by apply list_elem_of_In, elem_of_map_range in H1. Qed.

Lemma group_with_None taskID order m : group_with taskID order m = None ->
  forall id g, m !! id = Some g -> ContainsTask taskID g = false.
Proof. intros H id g Hg. apply (find_none _ _ H (id, g)), list_elem_of_In, elem_of_map_range, Hg. Qed.

(** Saving the group that was just set brings the file up to date. *)
Lemma sync_set c id p g :
  in_sync c -> groups c !! id = Some p -> sound g -> gr_ID g = id ->
  in_sync (set_group p g c <| disk ::= <[gr_ID g := g]> |>) /\
  groups_of (set_group p g c <| disk ::= <[gr_ID g := g]> |>) = <[id := g]> (groups_of c).
Proof.
  intros [Hw Hd] Hp Hs Hi. change (groups_of (set_group p g c <| disk ::= <[gr_ID g := g]> |>)) with (groups_of (set_group p g c)).
  assert (Hw' : wf (set_group p g c)).
  { apply wf_set; [done..|]. destruct (wf_ids c Hw _ _ Hp) as (g' & Hg' & <-). unfold group_at. by rewrite Hg'. }
  split; [|by apply groups_of_set]. split; [by apply wf_save, sound_filed|].
  change (groups_of (set_group p g c <| disk ::= <[gr_ID g := g]> |>)) with (groups_of (set_group p g c)).
  rewrite (groups_of_set c id) by done. cbn. by rewrite Hd, Hi.
Qed.

(** Saving a group that was just created brings its file up to date. *)
Lemma sync_load c g :
  in_sync c -> sound g ->
  in_sync (load_group c g <| disk ::= <[gr_ID g := g]> |>) /\
  groups_of (load_group c g <| disk ::= <[gr_ID g := g]> |>) = <[gr_ID g := g]> (groups_of c).
Proof.
  intros [Hw Hd] Hg. change (groups_of (load_group c g <| disk ::= <[gr_ID g := g]> |>)) with (groups_of (load_group c g)).
  split; [|by apply groups_of_load]. split; [by apply wf_save; [apply wf_load|apply sound_filed]|].
  change (groups_of (load_group c g <| disk ::= <[gr_ID g := g]> |>)) with (groups_of (load_group c g)).
  rewrite groups_of_load by done. cbn. by rewrite Hd.
Qed.

Lemma group_at_set p g c : group_at p (set_group p g c) = g.
Proof. unfold group_at, set_group. cbn. by rewrite lookup_insert_eq. Qed.

(** Alone, the encoder gets the group as it is. *)
Lemma encode_tasks_alone (a : forall q, tg_answer q) p n i (s : @local Coordinator Empty_set) :
  i + n <= length (Tasks (group_at p (shared s))) ->
  exec (fun _ => a) (encode_tasks p i n) s = (s, Done (take n (drop i (Tasks (group_at p (shared s)))))).
Proof.
  revert i. induction n as [|n IH]; intros i Hi; [done|]. destruct s as [c l sp k]. cbn [encode_tasks]. cbn in Hi.
  destruct (lookup_lt_is_Some_2 (Tasks (group_at p c)) i) as [t Ht]; [lia|].
  cbn [bind unsynced exec shared held_lock spawned asked]. rewrite exec_bind.
  change (id c) with c. rewrite IH by (cbn; lia). cbn [outcome_bind exec shared].
  rewrite (drop_S _ t i Ht). cbn [take]. unfold task_at. change (Datatypes.id c) with c. rewrite !Ht. by destruct t.
Qed.

Lemma encode_alone (a : forall q, tg_answer q) p (s : @local Coordinator Empty_set) :
  exec (fun _ => a) (encode p) s = (s, Done (group_at p (shared s))).
Proof.
  destruct s as [c l sp k]. unfold encode. cbn [bind unsynced exec shared held_lock spawned asked]. change (id c) with c.
  rewrite exec_bind, encode_tasks_alone by (cbn; lia). cbn [outcome_bind exec bind shared held_lock spawned asked].
  change (id c) with c. rewrite drop_0, take_ge by (cbn; lia). unfold Datatypes.id. by destruct (group_at p c).
Qed.

Lemma Save_alone (a : forall q, tg_answer q) p (s : @local Coordinator Empty_set) :
  a (TSave (gr_ID (group_at p (shared s)))) = None ->
  exec (fun _ => a) (Save p) s =
    (mkLocal (shared s <| disk ::= <[gr_ID (group_at p (shared s)) := group_at p (shared s)]> |>) (held_lock s) (spawned s) (S (asked s)),
     Done None).
Proof.
  intros Ha. unfold Save. rewrite exec_bind, encode_alone. cbn [outcome_bind bind ask exec]. rewrite Ha. by destruct s.
Qed.

(** [r] is what the contract [s] says. *)
Definition meets (r : @local Coordinator Empty_set * outcome (option string))
  (s : gmap string Group * option string) : Prop :=
  r.2 = Done s.2 /\ held_lock r.1 = Unheld /\ in_sync (shared r.1) /\ groups_of (shared r.1) = s.1.

(** The end of a call that changes one group: [n] questions were asked before. *)
Lemma change_meets a c n missing what id f :
  stores a -> in_sync c -> keeps_sound f ->
  meets (exec (fun _ => a)
    (let* r := match (change_group missing id f c).2 with
               | inl e => Ret (Err e)
               | inr p => let* failed := Save p in Ret (save_error what failed)
               end in Ret (error_of r))%proc
    (mkLocal (change_group missing id f c).1 Unheld [] n))
    (spec_change missing id f (groups_of c)).
Proof.
  intros Ha Hs Hf. pose proof Hs as [Hw Hd]. unfold spec_change. destruct (groups_of c !! id) as [g|] eqn:Eg.
  - destruct (groups_of_Some _ _ _ Hw Eg) as (p & Hp & Hh & Hat & Hid). unfold change_group. rewrite Hp, Hat.
    destruct (f g) as [g' [e|]] eqn:Ef; [done|]. destruct (Hf _ _ Ef) as [Hs' Hi'].
    cbn [fst snd]. rewrite !exec_bind, Save_alone; cbn [shared]; rewrite group_at_set; [|apply Ha].
    cbn [outcome_bind exec save_error error_of shared held_lock fst snd].
    destruct (sync_set c id p g' Hs Hp) as [H1 H2]; [by apply Hs', (wf_heap c Hw p)|congruence|]. by split_and!.
  - apply groups_of_None in Eg; [|done]. unfold change_group. by rewrite Eg.
Qed.

Lemma create_meets a c label : stores a -> in_sync c -> meets (run_alone a (CallCreate label) c) (group_spec a (CallCreate label) (groups_of c)).
Proof.
  intros Ha Hs. unfold run_alone, run_group_call, CreateGroup. cbn [group_spec bind ask exec].
  destruct (a TNewID) as [id|e]; [|by split_and!].
  cbn [bind lock unlock update exec acquire release group_alone held_lock shared].
  set (g := mkGroup id label [] StatusActive (a TNow) (a TNow)).
  assert (Hat : group_at (fresh (dom (heap c))) (load_group c g) = g).
  { unfold group_at, load_group. cbn. by rewrite lookup_insert_eq. }
  assert (Hg : sound g) by apply new_group_sound.
  cbn [fst snd]. rewrite !exec_bind, Save_alone; cbn [shared]; rewrite Hat; [|apply Ha].
  cbn [outcome_bind exec error_of shared held_lock fst snd].
  destruct (sync_load c g) as [H1 H2]; [done..|]. by split_and!.
Qed.

Lemma update_meets a c taskID st :
  stores a -> in_sync c -> meets (run_alone a (CallUpdate taskID st) c) (group_spec a (CallUpdate taskID st) (groups_of c)).
Proof.
  intros Ha Hs. pose proof Hs as [Hw Hd]. unfold run_alone, run_group_call, UpdateTaskState, deferred.
  cbn [group_spec bind ask exec update lock unlock acquire release group_alone held_lock shared].
  destruct (group_with taskID (a TOrder) (groups_of c)) as [[id g]|] eqn:E; [|by split_and!].
  destruct (group_with_Some _ _ _ _ _ E) as [Hg _].
  destruct (groups_of_Some _ _ _ Hw Hg) as (p & Hp & Hh & Hat & Hid). rewrite Hp. cbn [fst snd].
  destruct (UpdateTaskState_sound (a TNow) taskID st g) as [Hs' Hi'].
  set (g' := UpdateTaskState_ (a TNow) taskID st g) in *.
  rewrite !exec_bind, Save_alone; cbn [shared]; rewrite group_at_set; [|apply Ha].
  cbn [outcome_bind exec shared held_lock release snd fst].
  destruct (sync_set c id p g' Hs Hp) as [H1 H2]; [by apply Hs', (wf_heap c Hw p)|congruence|]. by split_and!.
Qed.

Lemma remove_meets a c id : stores a -> in_sync c -> meets (run_alone a (CallRemove id) c) (group_spec a (CallRemove id) (groups_of c)).
Proof.
  intros Ha [Hw Hd]. unfold run_alone, run_group_call, RemoveGroup.
  cbn [group_spec bind ask exec update lock unlock acquire release group_alone held_lock shared].
  destruct (groups_of c !! id) as [g|] eqn:Eg.
  - destruct (groups_of_Some _ _ _ Hw Eg) as (p & Hp & _). rewrite Hp. cbn [fst snd]. unfold Delete.
    cbn [bind ask exec update shared held_lock spawned asked]. destruct (Ha id) as [_ ->].
    assert (Hf : disk c !! id = Some g) by by rewrite Hd.
    change (disk (c <| groups ::= delete id |>)) with (disk c). rewrite Hf. cbn [fst snd].
    set (c' := c <| groups ::= delete id |> <| disk ::= delete id |>).
    assert (E : groups_of c' = delete id (groups_of c)).
    { apply map_eq. intros i. rewrite groups_of_lookup. cbn. destruct (decide (i = id)) as [->|Hne].
      - by rewrite !lookup_delete_eq.
      - by rewrite !lookup_delete_ne, groups_of_lookup by done. }
    assert (Hs : in_sync c').
    { split; [by apply wf_drop_file, wf_drop_group|]. rewrite E. unfold c'. cbn. by rewrite Hd. }
    by split_and!.
  - apply groups_of_None in Eg; [|done]. by rewrite Eg.
Qed.

Lemma can_meets a c taskID sync :
  in_sync c -> meets (run_alone a (CallCan taskID sync) c) (group_spec a (CallCan taskID sync) (groups_of c)).
Proof.
  intros Hs. pose proof Hs as [Hw _]. unfold run_alone, run_group_call, CanSubmit.
  destruct sync; cbn [negb andb group_spec];
    [|by destruct (group_with taskID (a TOrder) (groups_of c)) as [[id g]|]; split_and!].
  cbn [bind ask exec reads lock unlock acquire release group_alone held_lock shared].
  destruct (group_with taskID (a TOrder) (groups_of c)) as [[id g]|] eqn:E; [|by split_and!].
  destruct (group_with_Some _ _ _ _ _ E) as [Hg _].
  destruct (groups_of_Some _ _ _ Hw Hg) as (p & _ & _ & _ & <-). by destruct (AllReady g); split_and!.
Qed.

Lemma call_meets a t c : stores a -> in_sync c -> meets (run_alone a t c) (group_spec a t (groups_of c)).
Proof.
  intros Ha Hs. destruct t; try by split_and!.
  - by apply create_meets.
  - pose proof Hs as [Hw _]. unfold run_alone, meets. cbn. destruct (groups_of c !! id) as [g|] eqn:E.
    + destruct (groups_of_Some _ _ _ Hw E) as (p & -> & _). by split_and!.
    + rewrite (groups_of_None _ _ Hw E). by split_and!.
  - apply (change_meets a c 1 _ "add task to group"); [done..|apply AddTask_sound].
  - by apply update_meets.
  - by apply can_meets.
  - apply (change_meets a c 1 _ "submit group"); [done..|apply submit_sound].
  - by apply remove_meets.
Qed.

(** *** Reading the files *)

(** One file per group, named by its identifier. *)
Definition good_files (files : list (string * Group)) : Prop :=
  NoDup files.*1 /\ Forall (fun e : string * Group => gr_ID e.2 = e.1 /\ sound e.2) files.

Lemma load_all_wf l c :
  wf c -> Forall sound l ->
  wf (fold_left load_group l c) /\ disk (fold_left load_group l c) = disk c /\
  groups_of (fold_left load_group l c) = fold_left (fun m g => <[gr_ID g := g]> m) l (groups_of c).
Proof.
  intros Hw Hl. revert c Hw. induction Hl as [|g l Hg _ IH]; intros c Hw; [done|]. cbn [fold_left].
  destruct (IH (load_group c g)) as (H1 & H2 & H3); [by apply wf_load|]. by rewrite groups_of_load in H3.
Qed.

Lemma fold_insert_files files (m : gmap string Group) :
  good_files files -> fold_left (fun (m : gmap string Group) g => <[gr_ID g := g]> m) files.*2 m = list_to_map files ∪ m.
Proof.
  intros [Hn Hf]. revert m Hn. induction Hf as [|[id g] files [Hi _] _ IH]; intros m Hn.
  { cbn. by rewrite (left_id_L ∅ (∪)). }
  apply NoDup_cons in Hn as [Hid Hn]. cbn in *. rewrite IH by done. rewrite Hi.
  rewrite <- insert_union_r, insert_union_l; [done|]. by apply not_elem_of_list_to_map_1.
Qed.

Lemma NewCoordinator_in_sync files :
  good_files files -> in_sync (NewCoordinator files) /\ groups_of (NewCoordinator files) = list_to_map files.
Proof.
  intros Hg. pose proof Hg as [Hn Hf]. unfold NewCoordinator.
  assert (Hw : wf (mkCoordinator ∅ ∅ (list_to_map files))).
  { split; cbn; [by intros ? ? ?%lookup_empty_Some..|]. intros id g Hl%elem_of_list_to_map_2.
    rewrite Forall_forall in Hf. destruct (Hf (id, g) Hl) as [Hi Hs]. split; [exact Hi|by apply sound_filed]. }
  destruct (load_all_wf files.*2 _ Hw) as (H1 & H2 & H3).
  { apply Forall_fmap. eapply Forall_impl; [exact Hf|]. by intros e [_ ?]. }
  rewrite fold_insert_files in H3 by done.
  assert (E : groups_of (fold_left load_group files.*2 (mkCoordinator ∅ ∅ (list_to_map files))) = list_to_map files).
  { rewrite H3. apply map_eq. intros id. rewrite lookup_union. by destruct (list_to_map files !! id). }
  split; [|done]. split; [done|]. by rewrite H2, E.
Qed.

Lemma in_sync_restart c files :
  in_sync c -> files ≡ₚ map_to_list (disk c) -> groups_of (NewCoordinator files) = groups_of c.
Proof.
  intros [Hw Hd] Hp.
  assert (Hg : good_files files).
  { split; [rewrite Hp; apply NoDup_fst_map_to_list|]. apply Forall_forall. intros [id g] He.
    rewrite Hp in He. apply elem_of_map_to_list in He. rewrite Hd in He.
    destruct (groups_of_Some _ _ _ Hw He) as (p & _ & Hh & _ & Hi). split; [exact Hi|by eapply wf_heap]. }
  destruct (NewCoordinator_in_sync files Hg) as [_ ->]. rewrite <- Hd, <- (list_to_map_to_list (disk c)).
  apply list_to_map_proper; [apply Hg|done].
Qed.

(** *** Interleavings *)

(** What every access does: a group keeps its identifier and its place, and new
    tasks come after the ones it has. *)
Definition grows (c c' : Coordinator) : Prop :=
  forall p g, heap c !! p = Some g ->
    exists g', heap c' !! p = Some g' /\ gr_ID g' = gr_ID g /\ (TaskID <$> Tasks g) `prefix_of` (TaskID <$> Tasks g').

#[export] Instance grows_preorder : PreOrder grows.
Proof.
  split; [intros c p g Hg; by exists g|]. intros c1 c2 c3 H12 H23 p g Hg. destruct (H12 p g Hg) as (g2 & Hg2 & Hi2 & Hp2).
  destruct (H23 p g2 Hg2) as (g3 & Hg3 & Hi3 & Hp3). exists g3. split_and!; [done|congruence|by etrans].
Qed.

Lemma grows_heap c c' : heap c' = heap c -> grows c c'.
Proof. intros E p g Hg. exists g. by rewrite E. Qed.

Lemma grows_load c g : grows c (load_group c g).
Proof.
  intros p g' Hg'. exists g'. split; [|done]. cbn. rewrite lookup_insert_ne; [done|]. intros <-.
  apply (is_fresh (dom (heap c))). by apply elem_of_dom_2 in Hg'.
Qed.

Lemma grows_set c p g g' :
  heap c !! p = Some g -> gr_ID g' = gr_ID g -> (TaskID <$> Tasks g) `prefix_of` (TaskID <$> Tasks g') ->
  grows c (set_group p g' c).
Proof.
  intros Hg Hi Hp q g0 Hg0. cbn. destruct (decide (p = q)) as [<-|Hne].
  - exists g'. rewrite lookup_insert_eq. by simplify_eq.
  - exists g0. by rewrite lookup_insert_ne.
Qed.

(** The operations on one group only append. *)
Definition appends (f : Group -> Group * option string) : Prop :=
  forall g g', f g = (g', None) -> (TaskID <$> Tasks g) `prefix_of` (TaskID <$> Tasks g').

Lemma refresh_Tasks g : Tasks (refreshStatus g) = Tasks g.
Proof. unfold refreshStatus. by destruct (_ && _). Qed.

Lemma AddTask_appends now ref : appends (AddTask_ now ref).
Proof.
  intros g g'. unfold AddTask_. destruct (ContainsTask _ _); intros [= <-]. rewrite refresh_Tasks. cbn.
  rewrite fmap_app. by apply prefix_app_r.
Qed.

Lemma submit_appends now id : appends (submit_ now id).
Proof. intros g g'. unfold submit_. by destruct (AllReady g); intros [= <-]. Qed.

Lemma UpdateTaskState_IDs now id st g : TaskID <$> Tasks (UpdateTaskState_ now id st g) = TaskID <$> Tasks g.
Proof.
  unfold UpdateTaskState_. destruct (ContainsTask id g); [|done]. rewrite refresh_Tasks. apply set_task_state_IDs.
Qed.

Lemma change_grows missing id f c : keeps_sound f -> appends f -> wf c ->
  grows c (change_group missing id f c).1 /\
  forall p, (change_group missing id f c).2 = inr p -> is_Some (heap (change_group missing id f c).1 !! p).
Proof.
  intros Hf Ha Hw. unfold change_group. destruct (groups c !! id) as [p|] eqn:Ep; [|done].
  destruct (wf_ids c Hw _ _ Ep) as (g0 & Hg0 & _). 
  assert (group_at p c = g0) as -> by (unfold group_at; by rewrite Hg0).
  destruct (f g0) as [g [e|]] eqn:E; [done|]. cbn. destruct (Hf _ _ E) as [_ Hi]. split; [by eapply grows_set; eauto|].
  intros q [= <-]. by rewrite lookup_insert_eq.
Qed.

Notation rely := (relies wf grows).

Lemma prefix_window {A} (l l' : list A) i n : l `prefix_of` l' -> i + n <= length l -> take n (drop i l') = take n (drop i l).
Proof. intros [k ->] Hi. rewrite drop_app_le, take_app_le; [done|rewrite length_drop; lia|lia]. Qed.

(** The tasks that are read are the first ones, though each may be of another
    moment. *)
Lemma encode_tasks_relies p n i c g :
  heap c !! p = Some g -> i + n <= length (Tasks g) ->
  rely (encode_tasks p i n) c (fun ts _ => TaskID <$> ts = take n (drop i (TaskID <$> Tasks g))).
Proof.
  revert i c g. induction n as [|n IH]; intros i c g Hg Hi; [done|]. cbn [encode_tasks].
  apply (relies_see wf grows). intros c1 _ Hc1. apply (relies_see wf grows). intros c2 _ Hc2.
  apply (relies_see wf grows). intros c3 _ Hc3.
  assert (Hc02 : grows c c2) by by etrans. destruct (Hc02 p g Hg) as (g2 & Hg2 & _ & Hp2).
  destruct (Hc3 p g2 Hg2) as (g3 & Hg3 & _ & Hp3). assert (Hp : (TaskID <$> Tasks g) `prefix_of` (TaskID <$> Tasks g3)) by by etrans.
  assert (Hl : length (Tasks g) <= length (Tasks g3)) by (apply prefix_length in Hp; by rewrite !length_fmap in Hp).
  apply (relies_bind wf grows). eapply relies_mono; [|apply (IH (S i) c3 g3 Hg3); lia]. intros ts c4 Hts. apply relies_ret. intros _ _.
  rewrite fmap_cons, Hts, (prefix_window _ _ (S i) n Hp) by (rewrite length_fmap; lia).
  destruct (lookup_lt_is_Some_2 (Tasks g) i) as [t Ht]; [lia|].
  rewrite (drop_S (TaskID <$> Tasks g) (TaskID t) i) by (by rewrite list_lookup_fmap, Ht). cbn [take TaskID]. f_equal.
  assert (H2 : (TaskID <$> Tasks g2) !! i = Some (TaskID t)).
  { eapply prefix_lookup_Some; [|exact Hp2]. by rewrite list_lookup_fmap, Ht. }
  rewrite list_lookup_fmap in H2. unfold task_at, group_at. rewrite Hg2. cbn.
  destruct (Tasks g2 !! i); [by injection H2|done].
Qed.

Lemma encode_relies p c g : heap c !! p = Some g -> rely (encode p) c (fun e _ => gr_ID e = gr_ID g /\ filed e).
Proof.
  intros Hg. unfold encode. apply (relies_see wf grows). intros c1 _ Hc1. apply (relies_see wf grows). intros c2 _ Hc2.
  destruct (Hc1 p g Hg) as (g1 & Hg1 & Hi1 & _). destruct (Hc2 p g1 Hg1) as (g2 & Hg2 & _).
  apply (relies_see wf grows). intros c3 Hw3 Hc3. destruct (Hc3 p g2 Hg2) as (g3 & Hg3 & _).
  assert (E1 : group_at p c1 = g1) by (unfold group_at; by rewrite Hg1).
  assert (E3 : group_at p c3 = g3) by (unfold group_at; by rewrite Hg3). rewrite E3.
  apply (relies_bind wf grows). eapply relies_mono; [|apply (encode_tasks_relies p _ 0 c3 g3 Hg3); lia]. intros ts c4 Hts.
  apply (relies_see wf grows). intros c5 Hw5 _. do 2 (apply (relies_see wf grows); intros ? _ _). apply relies_ret. intros _ _.
  cbn [gr_ID]. rewrite E1. split; [exact Hi1|]. split; cbn.
  - rewrite Hts, drop_0, <- (length_fmap TaskID), firstn_all. by apply (wf_heap c3 Hw3 p g3 Hg3).
  - by destruct (group_at_sound c5 p Hw5) as (_ & ? & _).
Qed.

Lemma Save_relies p c : is_Some (heap c !! p) -> rely (Save p) c (fun _ _ => True).
Proof.
  intros [g Hg]. unfold Save. apply (relies_bind wf grows). eapply relies_mono; [|by apply encode_relies]. intros e c1 [_ He] [x|]; [done|].
  intros c2 Hw _. split_and!; [by apply wf_save|by apply grows_heap|done].
Qed.

Lemma AddTask_relies id ref c : rely (AddTask id ref) c (fun _ _ => True).
Proof.
  intros now c1 Hw _. destruct (change_grows (no_group "add task to group" id) id (AddTask_ now ref) c1) as [Hg Hp]; [..|done|].
  { apply AddTask_sound. } { apply AddTask_appends. }
  split_and!; [by apply wf_change; [apply AddTask_sound|]|exact Hg|]. cbn [bind unlock relies].
  destruct (change_group _ _ _ _) as [c2 [e|p]]; [done|]. apply (relies_any wf grows); [|done]. by apply Save_relies, Hp.
Qed.

Lemma SubmitGroup_relies id c : rely (SubmitGroup id) c (fun _ _ => True).
Proof.
  intros now c1 Hw _. destruct (change_grows (no_group "submit group" id) id (submit_ now id) c1) as [Hg Hp]; [..|done|].
  { apply submit_sound. } { apply submit_appends. }
  split_and!; [by apply wf_change; [apply submit_sound|]|exact Hg|]. cbn [bind unlock relies].
  destruct (change_group _ _ _ _) as [c2 [e|p]]; [done|]. apply (relies_any wf grows); [|done]. by apply Save_relies, Hp.
Qed.

Lemma CreateGroup_relies label c : rely (CreateGroup label) c (fun _ _ => True).
Proof.
  intros [id|e]; [|done]. intros now c1 Hw _. split_and!; [apply wf_load; [done|apply new_group_sound]|apply grows_load|].
  cbn [bind unlock relies]. apply (relies_any wf grows); [|done]. apply Save_relies. cbn. by rewrite lookup_insert_eq.
Qed.

Lemma UpdateTaskState_relies taskID st c : rely (UpdateTaskState taskID st) c (fun _ _ => True).
Proof.
  intros order now c1 Hw _. destruct (group_with taskID order (groups_of c1)) as [[id g]|] eqn:E; [|done].
  apply group_with_Some in E as [Hg _]. destruct (groups_of_Some _ _ _ Hw Hg) as (p & Hp & Hh & Hat & Hid). rewrite Hp.
  destruct (UpdateTaskState_sound now taskID st g) as [Hs Hi]. split_and!.
  - apply wf_set; [done| |by rewrite Hat]. by apply Hs, (wf_heap c1 Hw p).
  - apply (grows_set c1 p g); [done..|]. by rewrite UpdateTaskState_IDs.
  - cbn [fst snd bind]. apply (relies_bind wf grows), (relies_any wf grows); [|intros ? ? ? ? ? ?; exact Logic.I].
    apply Save_relies. cbn. by rewrite lookup_insert_eq.
Qed.

Lemma RemoveGroup_relies id c : rely (RemoveGroup id) c (fun _ _ => True).
Proof.
  intros c1 Hw _. destruct (groups c1 !! id); [|by split; [|split; [apply grows_heap|]]].
  split; [by apply wf_drop_group|]. split; [by apply grows_heap|]. intros failed c2 Hw2 _. destruct failed as [e|]; [done|].
  destruct (disk c2 !! id); [|done]. split_and!; [by apply wf_drop_file|by apply grows_heap|done].
Qed.

Lemma run_group_call_relies t c : rely (run_group_call t) c (fun _ _ => True).
Proof.
  destruct t as [label|id| |id ref|taskID st|taskID sync|id|id|taskID]; cbn [run_group_call]; apply (relies_any wf grows); try done.
  - apply CreateGroup_relies.
  - apply AddTask_relies.
  - apply UpdateTaskState_relies.
  - unfold CanSubmit. by destruct sync.
  - apply SubmitGroup_relies.
  - apply RemoveGroup_relies.
Qed.

Lemma group_calls_rely t c : rely (discard (run_group_call t)) c (fun _ _ => True).
Proof. apply (relies_any wf grows); [apply run_group_call_relies|done]. Qed.

Lemma Save_locked h p : well_locked h (Save p) h /\ panic_free (Save p).
Proof.
  assert (Ht : forall n i, well_locked h (encode_tasks p i n) h /\ panic_free (encode_tasks p i n)).
  { induction n as [|n IH]; intros i; [done|]. cbn [encode_tasks].
    split; [check_locks; apply IH|]. intros ? ? ?. cbn [bind]. apply pf_bind; [exact (proj2 (IH (S i)))|done]. }
  unfold Save, encode. split; [check_locks; apply Ht|].
  apply pf_bind; [|by intros ? []]. intros ? ? ?. cbn [bind]. apply pf_bind; [exact (proj2 (Ht _ _))|done].
Qed.

Lemma group_calls_locked t :
  well_locked None (discard (run_group_call t)) None /\ panic_free (discard (run_group_call t)).
Proof.
  assert (Hs : forall p, panic_free (Save p)) by (intros p; apply (Save_locked None p)).
  split.
  - destruct t; unfold discard, run_group_call, CreateGroup, GetGroup, ListGroups, AddTask, UpdateTaskState, CanSubmit,
      SubmitGroup, RemoveGroup, Delete, FindGroupForTask; check_locks; apply Save_locked.
  - destruct t; unfold discard, run_group_call, CreateGroup, GetGroup, ListGroups, AddTask, UpdateTaskState, CanSubmit,
      SubmitGroup, RemoveGroup, Delete, FindGroupForTask; check_panics.
Qed.

(** ** Properties *)

(** Calls one after the other, each with what it is answered. *)
Fixpoint run_calls (ts : list ((forall q, tg_answer q) * group_call)) (c : Coordinator)
  : Coordinator * list (outcome (option string)) :=
  match ts with
  | [] => (c, [])
  | (a, t) :: ts =>
      let r := run_alone a t c in
      let '(c, rs) := run_calls ts (shared r.1) in (c, r.2 :: rs)
  end.

Fixpoint spec_calls (ts : list ((forall q, tg_answer q) * group_call)) (m : gmap string Group)
  : gmap string Group * list (option string) :=
  match ts with
  | [] => (m, [])
  | (a, t) :: ts =>
      let '(m, e) := group_spec a t m in
      let '(m, es) := spec_calls ts m in (m, e :: es)
  end.

Lemma run_calls_meet ts c :
  Forall (fun t : (forall q, tg_answer q) * group_call => stores t.1) ts -> in_sync c ->
  in_sync (run_calls ts c).1 /\ groups_of (run_calls ts c).1 = (spec_calls ts (groups_of c)).1 /\
  (run_calls ts c).2 = map Done (spec_calls ts (groups_of c)).2.
Proof.
  intros Ha. revert c. induction Ha as [|[a t] ts Ha _ IH]; intros c Hs; [done|]. cbn [run_calls spec_calls].
  destruct (call_meets a t c Ha Hs) as (Hr & _ & Hs' & Hm).
  destruct (group_spec a t (groups_of c)) as [m e]. cbn [fst snd] in *.
  destruct (IH _ Hs') as (H1 & H2 & H3). rewrite Hm in H2, H3.
  destruct (run_calls ts _) as [c' rs], (spec_calls ts m) as [m' es]. cbn [fst snd map] in *.
  split_and!; [done|done|]. by rewrite Hr, H3.
Qed.

(** C23: calls that do not overlap and whose files can be written implement a map
    of groups: each returns the error the map says, the groups are the map's, and
    a coordinator that starts again on the files, read in any order, has the same
    groups. *)
Theorem coordinator_refines_map files ts files' :
  good_files files -> Forall (fun t : (forall q, tg_answer q) * group_call => stores t.1) ts ->
  let r := run_calls ts (NewCoordinator files) in
  let s := spec_calls ts (list_to_map files) in
  r.2 = map Done s.2 /\ groups_of r.1 = s.1 /\
  (files' ≡ₚ map_to_list (disk r.1) -> groups_of (NewCoordinator files') = s.1).
Proof.
  intros Hf Ha r s. destruct (NewCoordinator_in_sync files Hf) as [Hs Hm].
  destruct (run_calls_meet ts _ Ha Hs) as (H1 & H2 & H3). rewrite Hm in H2, H3.
  split_and!; [exact H3|exact H2|]. intros Hp. unfold s. rewrite <- H2. by apply in_sync_restart.
Qed.

(** C24: in every interleaving of calls, with any files that cannot be written,
    the map gives each group under its own identifier, the tasks of a group stay
    distinct, and a group whose members are all ready is not active; a file is
    that of its identifier, with distinct tasks and a known status, though its
    fields may be of different moments ([torn_file]); no call panics, and the
    map and the groups have no data race under the lock (the encoder of a file
    reads without it, see [save_races]). *)
Theorem groups_interleaved files ts c :
  good_files files -> rtc (step no_goroutines) (groups_start (NewCoordinator files) ts) c ->
  (forall id p, groups (cf_shared c) !! id = Some p ->
     exists g, heap (cf_shared c) !! p = Some g /\ gr_ID g = id /\ sound g) /\
  (forall id g, disk (cf_shared c) !! id = Some g -> gr_ID g = id /\ filed g) /\
  cf_crashed c = false /\
  forall i j p q a, cf_threads c !! i = Some p -> cf_threads c !! j = Some q ->
    accesses Writes p -> accesses a q -> a = Reads \/ a = Writes -> i = j.
Proof.
  intros Hf Hr. destruct (NewCoordinator_in_sync files Hf) as [[Hw _] _].
  assert (Hk : Forall (fun p => rely p (NewCoordinator files) (fun _ _ => True)) ((fun t => discard (run_group_call t)) <$> ts)).
  { apply Forall_fmap, Forall_forall. intros t _. apply group_calls_rely. }
  assert (Hl : Forall (fun p : gproc unit => well_locked None p None) ((fun t => discard (run_group_call t)) <$> ts)).
  { apply Forall_fmap, Forall_forall. intros t _. apply group_calls_locked. }
  assert (Hpf : Forall panic_free ((fun t => discard (run_group_call t)) <$> ts)).
  { apply Forall_fmap, Forall_forall. intros t _. apply group_calls_locked. }
  destruct (steps_rely wf grows no_goroutines _ _ _ (fun t => match t with end) Hk Hw Hr) as (Hw' & _ & _).
  destruct (no_crash_reachable no_goroutines (fun t => match t with end) _ _ _
    (fun t => match t with end) Hl Hpf Hr) as [Hc Hinv].
  split_and!.
  - intros id p Hp. destruct (wf_ids _ Hw' _ _ Hp) as (g & Hg & Hi). exists g. by split_and!; [..|eapply wf_heap].
  - apply (wf_disk _ Hw').
  - done.
  - intros i j p q a. by eapply locked_race_free.
Qed.

(** a task of at most one group may be submitted, when submissions are
    synchronised, exactly when every member of its group is ready. *)
Theorem CanSubmit_spec a taskID c :
  in_sync c ->
  (forall id id' g g', groups_of c !! id = Some g -> groups_of c !! id' = Some g' ->
     ContainsTask taskID g = true -> ContainsTask taskID g' = true -> id = id') ->
  (run_alone a (CallCan taskID true) c).2 = Done None <->
  (forall id g t, groups_of c !! id = Some g -> ContainsTask taskID g = true -> t ∈ Tasks g -> TState t ∈ readyStates).
Proof.
  intros Hs Hone. destruct (can_meets a c taskID true Hs) as (-> & _). cbn [group_spec andb].
  assert (Hall : forall g, ContainsTask taskID g = true ->
    (AllReady g = true <-> forall t, t ∈ Tasks g -> TState t ∈ readyStates)).
  { intros g Hc. unfold AllReady, slice_contains. rewrite andb_true_iff, forallb_forall. split.
    - intros [_ H] t Ht%list_elem_of_In. apply H in Ht. by apply bool_decide_eq_true in Ht.
    - intros H. split; [|intros t Ht%list_elem_of_In; by apply bool_decide_eq_true, H].
      apply ContainsTask_elem in Hc. destruct (Tasks g); [by apply not_elem_of_nil in Hc|done]. }
  destruct (group_with taskID (a TOrder) (groups_of c)) as [[id g]|] eqn:E.
  - destruct (group_with_Some _ _ _ _ _ E) as [Hg Hc]. destruct (AllReady g) eqn:Er; cbn [negb snd].
    + split; [|done]. intros _ id' g' t Hg' Hc'. rewrite (Hone id id' g g') in Hg by done.
      assert (g' = g) as -> by congruence. by apply (proj1 (Hall g Hc)).
    + split; [done|]. intros H. exfalso. rewrite (proj2 (Hall g Hc)) in Er; [done|]. intros t. by apply (H id).
  - split; [|done]. intros _ id g t Hg Hc. by rewrite (group_with_None _ _ _ E id g Hg) in Hc.
Qed.

(** ** Concrete runs *)

Definition sim_group_answer (q : tg_question) : tg_answer q :=
  match q with
  | TNow => 5%Z
  | TNewID => Ok "h"
  | TSave _ | TDelete _ => None
  | TOrder => []
  end.

Lemma sim_group_stores : stores sim_group_answer.
Proof. done. Qed.

Definition member (id st : string) : TaskRef := mkTaskRef "/repo" id st.
Definition sim_group : Group := mkGroup "g" "release" [member "t1" "implementing"] StatusActive 1%Z 1%Z.
Definition sim_files : list (string * Group) := [("g", sim_group)].

Lemma sim_files_good : good_files sim_files.
Proof.
  split; [apply NoDup_singleton|]. apply Forall_singleton. split; [done|].
  split_and!; [apply NoDup_singleton|done|done].
Qed.

(** A group is made, filled, made ready and submitted; a second submit of an
    unknown group fails. *)
Definition sim_group_calls : list ((forall q, tg_answer q) * group_call) :=
  (fun t => (sim_group_answer, t)) <$>
    [CallAdd "g" (member "t2" "reviewing"); CallSubmit "g"; CallUpdate "t1" "reviewing"; CallCan "t2" true;
     CallSubmit "g"; CallCreate "next"; CallRemove "h"; CallSubmit "h"].

Lemma coordinator_refines_map_witness :
  let r := run_calls sim_group_calls (NewCoordinator sim_files) in
  let s := spec_calls sim_group_calls (list_to_map sim_files) in
  r.2 = map Done s.2 /\ groups_of r.1 = s.1 /\
  (map_to_list (disk r.1) ≡ₚ map_to_list (disk r.1) -> groups_of (NewCoordinator (map_to_list (disk r.1))) = s.1).
Proof.
  apply (coordinator_refines_map sim_files sim_group_calls); [apply sim_files_good|].
  unfold sim_group_calls. apply Forall_fmap, Forall_forall. intros t _. apply sim_group_stores.
Defined.

Lemma sim_group_submitted :
  let r := run_calls sim_group_calls (NewCoordinator sim_files) in
  r.2 = Done <$> [None; Some ("submit group: not all tasks are ready in group " +:+ quote "g"); None; None; None; None; None;
         Some (no_group "submit group" "h")] /\
  Status <$> groups_of r.1 !! "g" = Some StatusSubmitted /\ dom (groups_of r.1) = {["g"]}.
Proof. by vm_compute. Qed.

Definition group_run (schedule : list nat) (ts : list group_call) :=
  run_schedule no_goroutines (fun _ => sim_group_answer) 0 schedule (groups_start (NewCoordinator sim_files) ts).

(** The save of [AddTask] has encoded the group before [UpdateTaskState] changes
    and saves it, and is written after: the file has the old state, so the update
    is lost when the coordinator starts again. *)
Definition stale_calls : list group_call := [CallAdd "g" (member "t2" "reviewing"); CallUpdate "t1" "reviewing"].

Definition states_of (o : option Group) : option (list string) := (fun g => TState <$> Tasks g) <$> o.

Lemma stale_save_loses_update :
  exists c, rtc (step no_goroutines) (groups_start (NewCoordinator sim_files) stale_calls) c /\
    cf_threads c = [Ret tt; Ret tt] /\
    states_of (groups_of (cf_shared c) !! "g") = Some ["reviewing"; "reviewing"] /\
    states_of (groups_of (NewCoordinator (map_to_list (disk (cf_shared c)))) !! "g") =
      Some ["implementing"; "reviewing"].
Proof.
  destruct (group_run (replicate 17 0 ++ replicate 19 1 ++ [0]) stale_calls) as [c|] eqn:E; [|by vm_compute in E].
  exists c. split; [by eapply run_schedule_steps|]. vm_compute in E. injection E as <-. by vm_compute.
Qed.

(** A file whose fields are of different moments: while [AddTask] encodes the
    group, the first task becomes ready, is read, and goes back; then the other
    one becomes ready and is read.  The file says that every member is ready,
    which at no moment was so, and that the group is active: after a restart it
    may be submitted. *)
Definition torn_calls : list group_call :=
  [CallAdd "g" (member "t2" "planning"); CallUpdate "t1" "reviewing"; CallUpdate "t1" "implementing"; CallUpdate "t2" "reviewing"].

Lemma torn_file :
  exists c, rtc (step no_goroutines) (groups_start (NewCoordinator sim_files) torn_calls) c /\
    cf_threads c = [Ret tt; Ret tt; Ret tt; Ret tt] /\
    states_of (groups_of (cf_shared c) !! "g") = Some ["implementing"; "reviewing"] /\
    let again := groups_of (NewCoordinator (map_to_list (disk (cf_shared c)))) !! "g" in
    states_of again = Some ["reviewing"; "reviewing"] /\ Status <$> again = Some StatusActive.
Proof.
  destruct (group_run (replicate 7 0 ++ replicate 19 1 ++ replicate 3 0 ++ replicate 19 2 ++ replicate 19 3 ++ replicate 8 0) torn_calls)
    as [c|] eqn:E; [|by vm_compute in E].
  exists c. split; [by eapply run_schedule_steps|]. vm_compute in E. injection E as <-. by vm_compute.
Qed.

(** A group that is removed while [AddTask] saves it is back after a restart. *)
Definition removed_calls : list group_call := [CallAdd "g" (member "t2" "reviewing"); CallRemove "g"].

Lemma removed_group_returns :
  exists c, rtc (step no_goroutines) (groups_start (NewCoordinator sim_files) removed_calls) c /\
    cf_threads c = [Ret tt; Ret tt] /\ groups_of (cf_shared c) = ∅ /\
    dom (groups_of (NewCoordinator (map_to_list (disk (cf_shared c))))) = {["g"]}.
Proof.
  destruct (group_run (replicate 17 0 ++ replicate 5 1 ++ [0]) removed_calls) as [c|] eqn:E; [|by vm_compute in E].
  exists c. split; [by eapply run_schedule_steps|]. vm_compute in E. injection E as <-. by vm_compute.
Qed.

Lemma groups_interleaved_witness :
  match group_run (replicate 17 0 ++ replicate 5 1 ++ [0]) removed_calls with
  | Some c =>
      (forall id p, groups (cf_shared c) !! id = Some p ->
         exists g, heap (cf_shared c) !! p = Some g /\ gr_ID g = id /\ sound g) /\
      (forall id g, disk (cf_shared c) !! id = Some g -> gr_ID g = id /\ filed g) /\
      cf_crashed c = false /\
      forall i j p q a, cf_threads c !! i = Some p -> cf_threads c !! j = Some q ->
        accesses Writes p -> accesses a q -> a = Reads \/ a = Writes -> i = j
  | None => False
  end.
Proof.
  destruct (group_run _ removed_calls) as [c|] eqn:E; [|by vm_compute in E].
  apply (groups_interleaved sim_files removed_calls c); [apply sim_files_good|]. by eapply run_schedule_steps.
Defined.

(** A group stays ready, or submitted, when a member is not ready any more; what
    [SubmitGroup] changes is the status, not the members. *)
Lemma ready_is_kept :
  let calls := (fun t => (sim_group_answer, t)) <$>
    [CallUpdate "t1" "reviewing"; CallUpdate "t1" "implementing"] in
  let c := (run_calls calls (NewCoordinator sim_files)).1 in
  (fun g => (Status g, AllReady g)) <$> groups_of c !! "g" = Some (StatusReady, false).
Proof. by vm_compute. Qed.

Lemma submit_keeps_states :
  let calls := (fun t => (sim_group_answer, t)) <$> [CallUpdate "t1" "reviewing"; CallSubmit "g"] in
  let c := (run_calls calls (NewCoordinator sim_files)).1 in
  (fun g => (Status g, TState <$> Tasks g)) <$> groups_of c !! "g" = Some (StatusSubmitted, ["reviewing"]).
Proof. by vm_compute. Qed.

(** Nothing keeps a task out of a second group; then the order of the map decides
    whether it may be submitted. *)
Definition two_groups : list (string * Group) :=
  [("g", sim_group); ("h", mkGroup "h" "hotfix" [member "t1" "reviewing"] StatusReady 1%Z 1%Z)].

Definition in_order_of (order : list string) (q : tg_question) : tg_answer q :=
  match q with TOrder => order | q => sim_group_answer q end.

Lemma CanSubmit_depends_on_order :
  (run_alone (in_order_of ["h"; "g"]) (CallCan "t1" true) (NewCoordinator two_groups)).2 = Done None /\
  (run_alone (in_order_of ["g"; "h"]) (CallCan "t1" true) (NewCoordinator two_groups)).2 <> Done None.
Proof. by vm_compute. Qed.

Lemma CanSubmit_spec_witness :
  (run_alone sim_group_answer (CallCan "t1" true) (NewCoordinator sim_files)).2 = Done None <->
  (forall id g t, groups_of (NewCoordinator sim_files) !! id = Some g -> ContainsTask "t1" g = true ->
     t ∈ Tasks g -> TState t ∈ readyStates).
Proof.
  destruct (NewCoordinator_in_sync sim_files sim_files_good) as [Hs Hm].
  apply (CanSubmit_spec sim_group_answer "t1" (NewCoordinator sim_files)); [exact Hs|].
  intros id id' g g'. rewrite Hm. cbn. rewrite !lookup_insert_Some. intros [[<- _]|[_ H]]; [|by apply lookup_empty_Some in H].
  intros [[<- _]|[_ H]]; [done|by apply lookup_empty_Some in H].
Defined.

(** [Save] reads the group without the lock: while [AddTask] is about to encode
    it, another call is about to change it. *)
Lemma save_races :
  exists c p q, rtc (step no_goroutines) (groups_start (NewCoordinator sim_files) stale_calls) c /\
    cf_threads c = [p; q] /\ accesses Unsynced p /\ accesses Writes q.
Proof.
  assert (Hb : match group_run (replicate 4 0 ++ replicate 3 1) stale_calls with
               | Some c => match cf_threads c with [Act Unsynced _ _; Act Writes _ _] => true | _ => false end
               | None => false
               end = true) by by vm_compute.
  destruct (group_run _ stale_calls) as [c|] eqn:E; [|done].
  destruct (cf_threads c) as [|p [|q [|]]] eqn:Et; [done|..]; [by destruct p as [| | |[]| | | |]| |].
  - exists c, p, q. destruct p as [| | |[]| | | |], q as [| | |[]| | | |]; try done.
    split_and!; [by eapply run_schedule_steps|done..].
  - by destruct p as [| | |[]| | | |], q as [| | |[]| | | |].
Qed.
