(* ===== verification/NodeStates.v ===== *)
(** * The state of a running graph

    Translates [internal/graph/state.go].  Every method takes the lock for its
    whole body, so each is one function on the [StateManager] record.  A read
    of a missing key gives the zero value: the empty string for a node state,
    which is [None] here, 0 for a count and [EdgeUnknown] for an edge. *)

From S2P Require Import Prelude Graph.

(** ** Data *)

Inductive NodeState :=
| StatePending | StateQueued | StateRunning | StateDone | StateFailed | StateSkipped.

#[export] Instance NodeState_eq_dec : EqDecision NodeState.
Proof. solve_decision. Defined.

Record StateManager := mkSM {
  states : gmap NodeID NodeState;
  results : gmap NodeID string;
  errors : gmap NodeID string;
  edgeStates : gmap string EdgeState;
  sm_failEdges : gmap NodeID NodeID;
  iterationCount : gmap NodeID Z;
  retryCount : gmap NodeID Z
}.

#[export] Instance eta_StateManager : Eta StateManager := fun s =>
  mkSM (states s) (results s) (errors s) (edgeStates s) (sm_failEdges s) (iterationCount s)
    (retryCount s).

Inductive StateError :=
| SUnknownNode (id : NodeID)
| SInvalidTransition (from to : NodeState) (id : NodeID)
| SCannotReset (id : NodeID) (from : NodeState).

(** ** Operations *)

Definition NewStateManager (g : Graph) : StateManager :=
  mkSM ((fun _ => StatePending) <$> Nodes g) ∅ ∅ ∅ (failEdges g) ∅ ∅.

Definition Get (id : NodeID) (sm : StateManager) : option NodeState := states sm !! id.

Definition validTransition (from to : NodeState) : bool :=
  match from, to with
  | StatePending, (StateQueued | StateSkipped | StateDone) => true
  | StateQueued, (StateRunning | StateSkipped) => true
  | StateRunning, (StateDone | StateFailed) => true
  | _, _ => false
  end.

Definition set_state (id : NodeID) (st : NodeState) (sm : StateManager) : StateManager :=
  sm <| states ::= <[id := st]> |>.

Definition Transition_ (id : NodeID) (to : NodeState) (sm : StateManager)
  : StateManager * result StateError unit :=
  match states sm !! id with
  | None => (sm, Err (SUnknownNode id))
  | Some from =>
      if negb (validTransition from to) then (sm, Err (SInvalidTransition from to id))
      else (set_state id to sm, Ok tt)
  end.

Definition SetResult (id : NodeID) (r : string) (sm : StateManager) : StateManager :=
  sm <| results ::= <[id := r]> |>.

Definition Result (id : NodeID) (sm : StateManager) : string := default "" (results sm !! id).

Definition SetError (id : NodeID) (e : string) (sm : StateManager) : StateManager :=
  sm <| errors ::= <[id := e]> |>.

Definition Error (id : NodeID) (sm : StateManager) : string := default "" (errors sm !! id).

Definition Results (sm : StateManager) : gmap NodeID string := results sm.

(** The cached results in the order of the range; the keys of a map are
    distinct, so the order does not show in the result. *)
Definition PreloadResults (cached : list (NodeID * string)) (sm : StateManager) : StateManager :=
  fold_left (fun sm (e : NodeID * string) =>
    match states sm !! e.1 with
    | None => sm
    | Some _ => SetResult e.1 e.2 (set_state e.1 StateDone sm)
    end) cached sm.

Definition terminal (st : NodeState) : bool :=
  match st with StateDone | StateFailed | StateSkipped => true | _ => false end.

Definition AllDone (sm : StateManager) : bool :=
  forallb terminal (map_to_list (states sm)).*2.

Definition HasFailures (sm : StateManager) : bool :=
  existsb (fun st => bool_decide (st = StateFailed)) (map_to_list (states sm)).*2.

Definition CountByState (st : NodeState) (sm : StateManager) : nat :=
  length (filter (fun s => s = st) (map_to_list (states sm)).*2).

Definition dependency_satisfied (sm : StateManager) (node : Node) (dep : NodeID) : bool :=
  match states sm !! dep with
  | Some (StateDone | StateSkipped) => true
  | Some StateFailed => bool_decide (default "" (sm_failEdges sm !! dep) = ID node)
  | Some (StatePending | StateQueued | StateRunning) => false
  | None => true
  end.

Definition DependenciesSatisfied (node : Node) (sm : StateManager) : bool :=
  forallb (dependency_satisfied sm node) (DependsOn node).

Definition count_of (m : gmap NodeID Z) (id : NodeID) : Z := default 0%Z (m !! id).

Definition IncrementIteration (id : NodeID) (sm : StateManager) : StateManager * Z :=
  let n := (count_of (iterationCount sm) id + 1)%Z in
  (sm <| iterationCount ::= <[id := n]> |>, n).

Definition IterationCount (id : NodeID) (sm : StateManager) : Z := count_of (iterationCount sm) id.

Definition IncrementRetry (id : NodeID) (sm : StateManager) : StateManager * Z :=
  let n := (count_of (retryCount sm) id + 1)%Z in
  (sm <| retryCount ::= <[id := n]> |>, n).

Definition RetryCount (id : NodeID) (sm : StateManager) : Z := count_of (retryCount sm) id.

Definition ResetForIteration (id : NodeID) (sm : StateManager)
  : StateManager * result StateError unit :=
  match states sm !! id with
  | None => (sm, Err (SUnknownNode id))
  | Some st =>
      match st with
      | StateDone | StateFailed =>
          let sm := set_state id StatePending sm in
          let sm := sm <| errors ::= delete id |> in
          let sm := if decide (st = StateFailed) then sm <| results ::= delete id |> else sm in
          (sm, Ok tt)
      | _ => (sm, Err (SCannotReset id st))
      end
  end.

Definition edgeKey (from to : NodeID) : string := from +:+ "->" +:+ to.

Definition SetEdgeState (from to : NodeID) (st : EdgeState) (sm : StateManager) : StateManager :=
  sm <| edgeStates ::= <[edgeKey from to := st]> |>.

Definition GetEdgeState (from to : NodeID) (sm : StateManager) : EdgeState :=
  default EdgeUnknown (edgeStates sm !! edgeKey from to).

Definition AllIncomingEdgesSkipped (node : Node) (sm : StateManager) : bool :=
  match DependsOn node with
  | [] => false
  | deps => forallb (fun dep => bool_decide (GetEdgeState dep (ID node) sm = EdgeSkipped)) deps
  end.

(** ** Lemmas *)

Lemma lookup_set_state id st sm k :
  states (set_state id st sm) !! k = if decide (id = k) then Some st else states sm !! k.
Proof.
  unfold set_state. cbn [states set_field]. destruct (decide (id = k)) as [->|].
  - apply lookup_insert_eq.
  - by apply lookup_insert_ne.
Qed.

(** A transition that succeeds, and one that fails. *)
Lemma Transition_inv id to sm sm' r :
  Transition_ id to sm = (sm', r) ->
  (exists e, r = Err e /\ sm' = sm) \/
  (exists from, r = Ok tt /\ states sm !! id = Some from /\ validTransition from to = true /\
     sm' = set_state id to sm).
Proof.
  unfold Transition_. destruct (states sm !! id) as [from|]; [|intros; simplify_eq; left; eauto].
  destruct (validTransition from to) eqn:E; simpl; intros; simplify_eq; [right|left]; eauto.
Qed.

Lemma Reset_inv id sm sm' r :
  ResetForIteration id sm = (sm', r) ->
  (exists e, r = Err e /\ sm' = sm) \/
  (exists from, r = Ok tt /\ states sm !! id = Some from /\
     (from = StateDone \/ from = StateFailed) /\
     states sm' = <[id := StatePending]> (states sm) /\ edgeStates sm' = edgeStates sm /\
     sm_failEdges sm' = sm_failEdges sm /\ iterationCount sm' = iterationCount sm /\
     retryCount sm' = retryCount sm).
Proof.
  unfold ResetForIteration. destruct (states sm !! id) as [st|]; [|intros; simplify_eq; left; eauto].
  destruct st; intros; simplify_eq; try (left; by eexists); right; eexists;
    (split_and!; [done|done|auto|..]); by destruct (decide _).
Qed.

Lemma terminal_no_transition st to : terminal st = true -> validTransition st to = false.
Proof. by destruct st. Qed.

Lemma elem_of_state_values sm st :
  st ∈ (map_to_list (states sm)).*2 <-> exists id, states sm !! id = Some st.
Proof.
  rewrite list_elem_of_fmap. split.
  - intros ([k s] & -> & Hk). apply elem_of_map_to_list in Hk. by exists k.
  - intros [k Hk]. exists (k, st). by rewrite elem_of_map_to_list.
Qed.

Lemma AllDone_spec sm :
  AllDone sm = true <-> forall id st, states sm !! id = Some st -> terminal st = true.
Proof.
  unfold AllDone. rewrite forallb_forall. split.
  - intros H id st Hst. apply H, list_elem_of_In, elem_of_state_values. by exists id.
  - intros H st Hst. apply list_elem_of_In, elem_of_state_values in Hst as [id Hid]. by eapply H.
Qed.

Lemma HasFailures_spec sm :
  HasFailures sm = true <-> exists id, states sm !! id = Some StateFailed.
Proof.
  unfold HasFailures. rewrite existsb_exists. split.
  - intros (st & Hin & Hst%bool_decide_eq_true). subst.
    by apply list_elem_of_In, elem_of_state_values in Hin.
  - intros Hex. exists StateFailed. split; [|done]. by apply list_elem_of_In, elem_of_state_values.
Qed.

Lemma DependenciesSatisfied_spec node sm :
  DependenciesSatisfied node sm = true <->
  forall dep st, dep ∈ DependsOn node -> states sm !! dep = Some st ->
    st = StateDone \/ st = StateSkipped \/
    (st = StateFailed /\ default "" (sm_failEdges sm !! dep) = ID node).
Proof.
  unfold DependenciesSatisfied. rewrite forallb_forall. unfold dependency_satisfied. split.
  - intros H dep st Hin Hst. apply list_elem_of_In in Hin. specialize (H dep Hin).
    rewrite Hst in H. destruct st; auto; try done. apply bool_decide_eq_true in H. auto.
  - intros H dep Hin%list_elem_of_In. destruct (states sm !! dep) as [st|] eqn:E; [|done].
    destruct (H dep st Hin E) as [->|[->|[-> ?]]]; try done. by apply bool_decide_eq_true.
Qed.

(** ** Steps *)

(** The calls that change node states, as the scheduler makes them. *)
Inductive sm_op :=
| SMTransition (id : NodeID) (to : NodeState)
| SMReset (id : NodeID)
| SMSetResult (id : NodeID) (r : string)
| SMSetError (id : NodeID) (e : string)
| SMSetEdge (from to : NodeID) (st : EdgeState)
| SMIncrementIteration (id : NodeID)
| SMIncrementRetry (id : NodeID).

Definition run_sm_op (o : sm_op) (sm : StateManager) : StateManager :=
  match o with
  | SMTransition id to => (Transition_ id to sm).1
  | SMReset id => (ResetForIteration id sm).1
  | SMSetResult id r => SetResult id r sm
  | SMSetError id e => SetError id e sm
  | SMSetEdge from to st => SetEdgeState from to st sm
  | SMIncrementIteration id => (IncrementIteration id sm).1
  | SMIncrementRetry id => (IncrementRetry id sm).1
  end.

(** The moves of one node that the rules allow: the table of transitions and
    the reset of a finished node. *)
Definition node_move (from to : NodeState) : Prop :=
  validTransition from to = true \/
  ((from = StateDone \/ from = StateFailed) /\ to = StatePending).

Lemma run_sm_op_states o sm id :
  states (run_sm_op o sm) !! id = states sm !! id \/
  exists from to, states sm !! id = Some from /\ states (run_sm_op o sm) !! id = Some to /\
    node_move from to.
Proof.
  destruct o as [k to|k| | | | |]; simpl; try by left.
  - destruct (Transition_ k to sm) as [sm' r] eqn:E; simpl.
    apply Transition_inv in E as [(e & _ & ->)|(from & _ & Hk & Hv & ->)]; [by left|].
    rewrite lookup_set_state. destruct (decide (k = id)) as [->|]; [|by left].
    right. exists from, to. split_and!; [done|done|by left].
  - destruct (ResetForIteration k sm) as [sm' r] eqn:E; simpl.
    apply Reset_inv in E as [(e & _ & ->)|(from & _ & Hk & Hfrom & Hst & _)]; [by left|].
    rewrite Hst. destruct (decide (k = id)) as [->|]; [|left; by rewrite lookup_insert_ne].
    right. exists from, StatePending. split_and!; [done|apply lookup_insert_eq|by right].
Qed.

(** ** Properties *)

(** Whatever the scheduler calls, no node enters or leaves the table of
    states and each node moves only along the rules: pending to queued,
    skipped or done, queued to running or skipped, running to done or failed,
    and a done or failed node back to pending by a reset. *)
Theorem node_states_follow_rules (g : Graph) (ops : list sm_op) (id : NodeID) :
  let run n := fold_left (fun sm o => run_sm_op o sm) (take n ops) (NewStateManager g) in
  (forall n, is_Some (Get id (run n)) <-> is_Some (Nodes g !! id)) /\
  (forall n from to, Get id (run n) = Some from -> Get id (run (S n)) = Some to ->
     from = to \/ node_move from to).
Proof.
  intros run. unfold Get.
  assert (Hstep : forall n, run (S n) = run n \/ exists o, run (S n) = run_sm_op o (run n)).
  { intros n. unfold run. destruct (ops !! n) as [o|] eqn:Eo.
    - right. exists o. by rewrite (take_S_r _ _ _ Eo), fold_left_app.
    - left. apply lookup_ge_None in Eo. by rewrite !take_ge by lia. }
  split.
  - induction n as [|n IH].
    + unfold run. simpl. rewrite lookup_fmap. by rewrite fmap_is_Some.
    + rewrite <- IH. destruct (Hstep n) as [->|[o ->]]; [done|].
      destruct (run_sm_op_states o (run n) id) as [->|(from & to & -> & -> & _)]; [done|].
      by split.
  - intros n from to Hf Ht. destruct (Hstep n) as [Hn|[o Hn]]; rewrite Hn in Ht; [left; congruence|].
    destruct (run_sm_op_states o (run n) id) as [He|(f & t & Hf' & Ht' & Hm)].
    + left. congruence.
    + right. assert (f = from) by congruence. assert (t = to) by congruence. by subst.
Qed.

(** Edge keys collide: the key of an edge is the two IDs joined by an
    arrow, so with an ID that contains the arrow two different edges share one
    entry and marking one of them skipped marks the other. *)
Theorem edge_keys_collide :
  ("a", "b->c") <> ("a->b", "c") /\
  forall sm, GetEdgeState "a->b" "c" (SetEdgeState "a" "b->c" EdgeSkipped sm) = EdgeSkipped.
Proof.
  split; [done|]. intros sm. unfold GetEdgeState, SetEdgeState. cbn [edgeStates set_field].
  change (edgeKey "a->b" "c") with (edgeKey "a" "b->c"). by rewrite lookup_insert_eq.
Qed.
