(* ===== verification/Scheduler.v ===== *)
(** * The graph scheduler

    Translates [internal/graph/scheduler.go] and scheduler_handlers.go.  The
    bodies that hold [s.mu] ([enqueueReady], [dispatchNode]) are functions on
    the [Scheduler] record.  A goroutine is a [thread], the list of the
    instructions it still has to run: each instruction is one lock region or
    one call on the state manager, so that the steps of several goroutines
    interleave where the code lets them.  The worker pool is the class
    [JobQueue]; what a job or a sub-task returns is chosen by the step
    relation. *)

From S2P Require Import Prelude Graph NodeStates.

(** ** Data *)

Definition DefaultMaxParallel : Z := 10.

Inductive SchedulerEventType :=
| EventNodeQueued | EventNodeStarted | EventNodeCompleted | EventNodeFailed | EventNodeSkipped
| EventNodeFailRouted | EventNodeOutput | EventNodeIteration | EventNodeRetry
| EventNodeApprovalRequired | EventPhaseProgress | EventAllDone.

#[export] Instance SchedulerEventType_eq_dec : EqDecision SchedulerEventType.
Proof. solve_decision. Defined.

Record SchedulerEvent := mkSchedulerEvent {
  se_Type : SchedulerEventType;
  se_NodeID : NodeID;
  se_NodeLabel : string;
  se_JobID : string;
  se_Content : string;
  se_Error : string;
  se_Done : nat;
  se_Total : nat
}.

#[export] Instance eta_SchedulerEvent : Eta SchedulerEvent := fun e =>
  mkSchedulerEvent (se_Type e) (se_NodeID e) (se_NodeLabel e) (se_JobID e) (se_Content e)
    (se_Error e) (se_Done e) (se_Total e).

(** An event about a node, the other fields at their zero values. *)
Definition node_event (t : SchedulerEventType) (id : NodeID) (node : Node) : SchedulerEvent :=
  mkSchedulerEvent t id (Label node) "" "" "" 0 0.

(** The options of a run but [Metadata], which is shared state, see
    [opts_metadata]. *)
Record JobOpts := {
  WorktreeID : string;
  WorkDir : string;
  Environment : go_map string;
  ResumeFrom : list (NodeID * string)
}.

(** What the pool promises: a submission gives a job ID or an error.  The
    arguments are the job type, the worktree ID and the prompt. *)
Class JobQueue (W : Type) := {
  submit : string -> string -> string -> W -> W * result string string
}.

(** One call on the state manager or on the event channel by a goroutine. *)
Inductive act :=
| ATransition (id : NodeID) (to : NodeState)
| AFailIfRunning (id : NodeID)
| AReset (id : NodeID)
| ASetResult (id : NodeID) (r : string)
| ASetError (id : NodeID) (e : string)
| ASetEdge (from to : NodeID) (st : EdgeState)
| AEmit (e : SchedulerEvent)
| ASpawnRetry.

Inductive instr :=
| IAct (a : act)
| IDecRunning
| IHandle (id : NodeID) (out : result string string)
| IProgress
| IEnqueue
| IDispatch (id : NodeID)
| IForgetApproval (id : NodeID)
| IWatch (id : NodeID) (jobID : string)
| ISubTask (id : NodeID)
| IAwaitApproval (id : NodeID)
| IRetryTimer.

Definition thread := list instr.

(** The metadata map a job holds: the one the caller put in the options, which
    all jobs of the run then share, or one made for the job. *)
Inductive JobMetadata := MetaShared | MetaOwn (m : gmap string string).

Record Scheduler (W : Type) := mkScheduler {
  graph : Graph;
  pool : W;
  sm : StateManager;
  maxParallel : Z;
  running : Z;
  events : list SchedulerEvent;
  events_dropped : nat;
  nodeJobs : gmap NodeID string;
  approvals : gmap NodeID (option bool);
  hasExecutor : bool;
  opts : JobOpts;
  opts_metadata : go_map string;
  job_metadata : gmap string JobMetadata;
  threads : list thread;
  finished : bool
}.
Arguments mkScheduler {W}.
Arguments graph {W}.
Arguments pool {W}.
Arguments sm {W}.
Arguments maxParallel {W}.
Arguments running {W}.
Arguments events {W}.
Arguments events_dropped {W}.
Arguments nodeJobs {W}.
Arguments approvals {W}.
Arguments hasExecutor {W}.
Arguments opts {W}.
Arguments opts_metadata {W}.
Arguments job_metadata {W}.
Arguments threads {W}.
Arguments finished {W}.

#[export] Instance eta_Scheduler {W} : Eta (Scheduler W) := fun s =>
  mkScheduler (graph s) (pool s) (sm s) (maxParallel s) (running s) (events s)
    (events_dropped s) (nodeJobs s) (approvals s) (hasExecutor s) (opts s) (opts_metadata s)
    (job_metadata s) (threads s) (finished s).

(** ** Construction *)

Inductive SchedOption := WithMaxParallel (n : Z) | WithSubTaskExecutor (present : bool).

Definition apply_option {W} (o : SchedOption) (s : Scheduler W) : Scheduler W :=
  match o with
  | WithMaxParallel n =>
      if (0 <? n)%Z && (n <=? DefaultMaxParallel)%Z then s <| maxParallel := n |> else s
  | WithSubTaskExecutor present => s <| hasExecutor := present |>
  end.

Definition NewScheduler {W} (g : Graph) (p : W) (o : JobOpts) (meta : go_map string)
    (os : list SchedOption) : Scheduler W :=
  fold_left (fun s o => apply_option o s) os
    (mkScheduler g p (NewStateManager g) DefaultMaxParallel 0%Z [] 0 ∅ ∅ false o meta ∅ [] false).

Definition SchedulerID {W} (s : Scheduler W) : string :=
  match Roots (graph s) with
  | [r] => r
  | roots => String.concat "+" roots
  end.

(** ** Events *)

Definition events_capacity : nat := 100.

(** The non-blocking send; [EventAllDone] is sent by the main loop only. *)
Definition emit {W} (e : SchedulerEvent) (s : Scheduler W) : Scheduler W :=
  if length (events s) <? events_capacity then s <| events := events s ++ [e] |>
  else s <| events_dropped ::= S |>.

Definition emitProgress {W} (s : Scheduler W) : Scheduler W :=
  let done := CountByState StateDone (sm s) + CountByState StateFailed (sm s) +
              CountByState StateSkipped (sm s) in
  emit (mkSchedulerEvent EventPhaseProgress "" "" "" "" "" done (NodeCount (graph s))) s.

Definition spawn {W} (t : thread) (s : Scheduler W) : Scheduler W :=
  s <| threads := threads s ++ [t] |>.

(** ** Handlers *)

Definition exec_act {W} (a : act) (s : Scheduler W) : Scheduler W :=
  match a with
  | ATransition id to => s <| sm ::= fun m => (Transition_ id to m).1 |>
  | AFailIfRunning id =>
      if decide (Get id (sm s) = Some StateRunning)
      then s <| sm ::= fun m => (Transition_ id StateFailed m).1 |> else s
  | AReset id => s <| sm ::= fun m => (ResetForIteration id m).1 |>
  | ASetResult id r => s <| sm ::= SetResult id r |>
  | ASetError id e => s <| sm ::= SetError id e |>
  | ASetEdge from to st => s <| sm ::= SetEdgeState from to st |>
  | AEmit e => emit e s
  | ASpawnRetry => spawn [IRetryTimer] s
  end.

Definition exec_acts {W} (acts : list act) (s : Scheduler W) : Scheduler W :=
  fold_left (fun s a => exec_act a s) acts s.

(** The loop that marks the outgoing edges of a node. *)
Definition mark_edges {W} (id : NodeID) (st : EdgeState) (s : Scheduler W) : list act :=
  map (fun dep => ASetEdge id dep st) (Dependents id (graph s)).

(** The handlers decide with the counters and leave the calls they make. *)
Definition handleNodeSuccess {W} (id : NodeID) (node : Node) (r : string) (s : Scheduler W)
  : Scheduler W * list act :=
  let completion :=
    [ATransition id StateDone; ASetResult id r] ++ mark_edges id EdgeTaken s ++
    [AEmit (node_event EventNodeCompleted id node)] in
  let iterates := match IterationCheckFn node with
                  | Some check => (0 <? MaxIterations node)%Z && check r
                  | None => false
                  end in
  if iterates then
    let '(m, iteration) := IncrementIteration id (sm s) in
    let s := s <| sm := m |> in
    if (iteration <? MaxIterations node)%Z then
      (s, [AEmit (node_event EventNodeIteration id node
                    <| se_Content := "iteration " +:+ pretty (iteration + 1)%Z +:+ "/" +:+
                                     pretty (MaxIterations node) |>);
           ATransition id StateDone; ASetResult id r; AReset id])
    else (s, completion)
  else (s, completion).

Definition markFailureEdges {W} (id : NodeID) (errMsg : string) (s : Scheduler W) : list act :=
  let failTarget := FailBranchTarget id (graph s) in
  map (fun dep => ASetEdge id dep
         (if decide (failTarget = Some dep) then EdgeTaken else EdgeSkipped))
    (Dependents id (graph s)) ++
  match failTarget with
  | Some target =>
      [ASetResult (FailErrorKey id) errMsg;
       AEmit (mkSchedulerEvent EventNodeFailRouted id "" "" target "" 0 0)]
  | None => []
  end.

Definition handleNodeFailure {W} (id : NodeID) (node : Node) (err : string) (s : Scheduler W)
  : Scheduler W * list act :=
  let failure :=
    [ATransition id StateFailed; ASetError id err] ++ markFailureEdges id err s ++
    [AEmit (node_event EventNodeFailed id node <| se_Error := err |>)] in
  match Strategy node with
  | ErrorFail => (s, failure)
  | ErrorDefaultValue =>
      (s, [ATransition id StateDone; ASetResult id (DefaultOutput node)] ++
          mark_edges id EdgeTaken s ++
          [AEmit (node_event EventNodeCompleted id node <| se_Content := "default-value" |>)])
  | ErrorRetryThenFail =>
      let '(m, retryCount) := IncrementRetry id (sm s) in
      let s := s <| sm := m |> in
      if (retryCount <=? MaxRetries node)%Z then
        (s, [AEmit (node_event EventNodeRetry id node
                      <| se_Content := "retry " +:+ pretty retryCount +:+ "/" +:+
                                       pretty (MaxRetries node) |> <| se_Error := err |>);
             AFailIfRunning id; AReset id] ++
            (if (0 <? RetryDelay node)%Z then [ASpawnRetry] else []))
      else (s, failure)
  end.

Definition skipNodeAndPropagate {W} (id : NodeID) (node : Node) (s : Scheduler W) : Scheduler W :=
  match Transition_ id StateSkipped (sm s) with
  | (_, Err _) => s
  | (m, Ok _) =>
      let s := s <| sm := m |> in
      let s := exec_acts (mark_edges id EdgeSkipped s) s in
      emit (node_event EventNodeSkipped id node) s
  end.

(** ** Dispatch *)

(** A goroutine that completes a node. *)
Definition completeNode (id : NodeID) (out : result string string) : thread :=
  [IDecRunning; IHandle id out; IProgress; IEnqueue].

(** [_ = s.state.Transition(id, StateRunning)] and the failure handler, run on
    the spot. *)
Definition fail_now {W} (id : NodeID) (node : Node) (err : string) (s : Scheduler W) : Scheduler W :=
  let s := exec_act (ATransition id StateRunning) s in
  let '(s, acts) := handleNodeFailure id node err s in
  exec_acts acts s.

Definition dispatchSubTask {W} (id : NodeID) (node : Node) (cfg : SubTaskConfig) (s : Scheduler W)
  : Scheduler W :=
  if negb (hasExecutor s) then
    spawn [IEnqueue] (fail_now id node "no sub-task executor configured" s)
  else
    let s := s <| running := (running s + 1)%Z |> in
    let s := exec_act (ATransition id StateRunning) s in
    let s := emit (node_event EventNodeStarted id node
                     <| se_Content := "sub-task: " +:+ stc_Title cfg |>) s in
    let s := emitProgress s in
    spawn [ISubTask id] s.

(** The two keys [dispatchNode] writes into the metadata map. *)
Definition node_metadata (id : NodeID) (node : Node) (m : gmap string string) : gmap string string :=
  <["graph_node_label" := Label node]> (<["graph_node_id" := (id : string)]> m).

Definition dispatchNode {W} `{JobQueue W} (id : NodeID) (node : Node) (s : Scheduler W)
  : Scheduler W :=
  match SubTask node with
  | Some cfg => dispatchSubTask id node cfg s
  | None =>
      let '(s, meta) :=
        match opts_metadata s with
        | None => (s, MetaOwn (node_metadata id node ∅))
        | Some m => (s <| opts_metadata := Some (node_metadata id node m) |>, MetaShared)
        end in
      match submit (JobType node) (WorktreeID (opts s)) (Prompt node) (pool s) with
      | (p, Err err) =>
          let s := s <| pool := p |> in
          spawn [IEnqueue] (fail_now id node err s)
      | (p, Ok jobID) =>
          let s := s <| pool := p |> <| job_metadata ::= <[jobID := meta]> |> in
          let s := s <| nodeJobs ::= <[id := jobID]> |> <| running := (running s + 1)%Z |> in
          let s := exec_act (ATransition id StateRunning) s in
          let s := emit (node_event EventNodeStarted id node <| se_JobID := jobID |>) s in
          let s := emitProgress s in
          spawn [IWatch id jobID] s
      end
  end.

Definition waitForApproval {W} (id : NodeID) (node : Node) (s : Scheduler W) : Scheduler W :=
  let s := s <| approvals ::= <[id := None]> |> in
  let prompt := if decide (ApprovalPrompt node = "")
                then "Approve execution of node " +:+ quote id +:+ "?" else ApprovalPrompt node in
  let s := emit (node_event EventNodeApprovalRequired id node <| se_Content := prompt |>) s in
  spawn [IAwaitApproval id] s.

(** ** The ready queue *)

(** One round of the first loop of [enqueueReady]: the pending node is left,
    finished from its cache, skipped, or made a candidate. *)
Definition classify {W} (acc : Scheduler W * list NodeID) (id : NodeID)
  : Scheduler W * list NodeID :=
  let '(s, candidates) := acc in
  if decide (Get id (sm s) <> Some StatePending) then acc else
  match Nodes (graph s) !! id with
  | None => acc
  | Some node =>
      if negb (DependenciesSatisfied node (sm s)) then acc else
      let cachedResult := Result id (sm s) in
      if Frozen node && bool_decide (cachedResult <> "") then
        match Transition_ id StateDone (sm s) with
        | (_, Err _) => acc
        | (m, Ok _) =>
            (emit (node_event EventNodeCompleted id node <| se_Content := cachedResult |>)
               (s <| sm := m |>), candidates)
        end
      else if AllIncomingEdgesSkipped node (sm s) then
        (skipNodeAndPropagate id node s, candidates)
      else if match Condition node with Some f => negb (f (Results (sm s))) | None => false end then
        (skipNodeAndPropagate id node s, candidates)
      else (s, candidates ++ [id])
  end.

(** The order of the candidates: more transitive dependents first, then by ID. *)
Definition before (g : Graph) (a b : NodeID) : Prop :=
  TransitiveDepCount b g < TransitiveDepCount a g \/
  (TransitiveDepCount b g = TransitiveDepCount a g /\ String.le a b).

#[export] Instance before_dec g a b : Decision (before g a b).
Proof. unfold before. apply _. Defined.

Definition sort_candidates (g : Graph) (l : list NodeID) : list NodeID := merge_sort (before g) l.

Definition dispatch_candidate {W} `{JobQueue W} (id : NodeID) (s : Scheduler W) : Scheduler W :=
  match Nodes (graph s) !! id with
  | None => s
  | Some node =>
      match Transition_ id StateQueued (sm s) with
      | (_, Err _) => s
      | (m, Ok _) =>
          let s := emit (node_event EventNodeQueued id node) (s <| sm := m |>) in
          if RequiresApproval node then waitForApproval id node s else dispatchNode id node s
      end
  end.

Fixpoint dispatch_candidates {W} `{JobQueue W} (l : list NodeID) (s : Scheduler W) : Scheduler W :=
  match l with
  | [] => s
  | id :: l =>
      if (maxParallel s <=? running s)%Z then s
      else dispatch_candidates l (dispatch_candidate id s)
  end.

Definition enqueueReady {W} `{JobQueue W} (s : Scheduler W) : Scheduler W :=
  let '(s, candidates) := fold_left classify (NodeIDs (graph s)) (s, []) in
  dispatch_candidates (sort_candidates (graph s) candidates) s.

(** ** Approvals *)

Definition decide_approval {W} (b : bool) (id : NodeID) (s : Scheduler W) : Scheduler W * bool :=
  match approvals s !! id with
  | None => (s, false)
  | Some (Some _) => (s, false)
  | Some None => (s <| approvals ::= <[id := Some b]> |>, true)
  end.

Definition ApproveNode {W} : NodeID -> Scheduler W -> Scheduler W * bool := decide_approval true.
Definition RejectNode {W} : NodeID -> Scheduler W -> Scheduler W * bool := decide_approval false.

(** ** Summary *)

Definition isFailHandled {W} (id : NodeID) (s : Scheduler W) : bool :=
  match FailBranchTarget id (graph s) with
  | None => false
  | Some target => bool_decide (Get target (sm s) = Some StateDone)
  end.

Fixpoint join_rest (msgs : list string) : string :=
  match msgs with [] => "" | m :: msgs => "; " +:+ m +:+ join_rest msgs end.

Definition joinErrors (msgs : list string) : string :=
  match msgs with [] => "" | m :: msgs => m +:+ join_rest msgs end.

(** The failed nodes the summary names. *)
Definition unhandled_failures {W} (s : Scheduler W) : list NodeID :=
  filter (fun id => Get id (sm s) = Some StateFailed /\ isFailHandled id s = false)
    (NodeIDs (graph s)).

Definition summaryError {W} (s : Scheduler W) : string :=
  if negb (HasFailures (sm s)) then "" else
  let msgs := map (fun id => id +:+ ": " +:+ Error id (sm s)) (unhandled_failures s) in
  match msgs with
  | [] => ""
  | _ => "graph: " +:+ pretty (length msgs) +:+ " node(s) failed: " +:+ joinErrors msgs
  end.
