(* ===== verification/SchedulerRun.v ===== *)
(** * Runs of the graph scheduler

    The rest of [internal/graph/scheduler.go]: the main loop [run], the
    goroutines that watch jobs, sub-tasks, approvals and retry timers, and the
    step relation they make together.  A step is chosen by a [choice]: which
    goroutine runs its next instruction, or what the environment answers to one
    that waits. *)

From S2P Require Import Prelude Graph NodeStates Scheduler.

(** ** Instructions *)

(** One instruction of a goroutine: the new state and the instructions that
    take its place; [None] for the ones that wait. *)
Definition exec_instr {W} `{JobQueue W} (i : instr) (s : Scheduler W) : option (Scheduler W * thread) :=
  match i with
  | IAct a => Some (exec_act a s, [])
  | IDecRunning => Some (s <| running := (running s - 1)%Z |>, [])
  | IHandle id out =>
      match Nodes (graph s) !! id with
      | None => Some (s, [])
      | Some node =>
          let '(s, acts) := match out with
                            | Ok r => handleNodeSuccess id node r s
                            | Err e => handleNodeFailure id node e s
                            end in
          Some (s, map IAct acts)
      end
  | IProgress => Some (emitProgress s, [])
  | IEnqueue => Some (enqueueReady s, [])
  | IDispatch id =>
      match Nodes (graph s) !! id with
      | None => Some (s, [])
      | Some node => Some (dispatchNode id node s, [])
      end
  | IForgetApproval id => Some (s <| approvals ::= delete id |>, [])
  | IWatch _ _ | ISubTask _ | IAwaitApproval _ | IRetryTimer => None
  end.

(** The rejection branches of [waitForApproval]; a cancelled run does not call
    [enqueueReady] again. *)
Definition reject (id : NodeID) (err : string) (again : bool) : thread :=
  [IAct (ATransition id StateRunning); IHandle id (Err err); IProgress] ++
  (if again then [IEnqueue] else []) ++ [IForgetApproval id].

Definition timeout_message (node : Node) : string :=
  "approval timed out after " +:+ duration_string (ApprovalTimeout node).

(** ** Watching a job *)

(** What [watchNode] reads of a job record. *)
Record JobView := mkJobView { jv_Failed : bool; jv_Error : string; jv_Result : string }.

(** What the [select] of [watchNode] finds: no stream, the end of the run's
    context, the stream closed, or an event of the stream by its type. *)
Inductive watch_input :=
| WNoStream
| WCancelled (err : string)
| WClosed
| WCompleted
| WFailed (content : string)
| WOther (content : string).

(** The texts [watchNode] forwards as output and, unless it goes on watching,
    how the node ends.  [job] is the answer of [GetJob] where it is asked; the
    local variable [result] is still empty when the stream closes. *)
Definition watchNode (jobID : string) (input : watch_input) (job : option JobView)
  : list string * option (result string string) :=
  match input with
  | WNoStream =>
      match job with
      | None => ([], Some (Err ("no stream or job record for " +:+ jobID)))
      | Some v =>
          if jv_Failed v then ([], Some (Err (jv_Error v)))
          else ((if decide (jv_Result v = "") then [] else [jv_Result v]), Some (Ok (jv_Result v)))
      end
  | WCancelled err => ([], Some (Err err))
  | WClosed =>
      match job with
      | Some v => if jv_Failed v then ([], Some (Err (jv_Error v))) else ([], Some (Ok ""))
      | None => ([], Some (Ok ""))
      end
  | WCompleted => ([], Some (Ok (match job with Some v => jv_Result v | None => "" end)))
  | WFailed content => ([], Some (Err content))
  | WOther content => ([content], None)
  end.

(** ** Choices *)

Inductive choice :=
| CExec (j : nat)
| CWatch (j : nat) (input : watch_input) (job : option JobView)
| CSubTask (j : nat) (out : result string string)
| CApprove (id : NodeID) (b : bool)
| CReceive (j : nat)
| CTimeout (j : nat)
| CCancelWait (j : nat) (err : string)
| CTimer (j : nat) (cancelled : bool)
| CConsume
| CMain
| CCancelRun (err : string) (sent : bool).

(** Goroutine [j] goes on with [more] before what it had left. *)
Definition resume {W} (j : nat) (more : thread) (s : Scheduler W) : Scheduler W :=
  s <| threads ::= alter (fun t => more ++ t) j |>.

(** The waiting instruction at the head of goroutine [j], and the state with it
    taken off. *)
Definition head_of {W} (j : nat) (s : Scheduler W) : option (instr * Scheduler W) :=
  match threads s !! j with
  | Some (i :: t) => Some (i, s <| threads ::= <[j := t]> |>)
  | _ => None
  end.

(** The output event a watcher forwards. *)
Definition output_event {W} (id : NodeID) (jobID content : string) (s : Scheduler W) : SchedulerEvent :=
  mkSchedulerEvent EventNodeOutput id
    (match Nodes (graph s) !! id with Some n => Label n | None => "" end) jobID content "" 0 0.

Definition all_done_event (err content : string) : SchedulerEvent :=
  mkSchedulerEvent EventAllDone "" "" "" content err 0 0.

(** The output events of a watcher. *)
Definition forward {W} (id : NodeID) (jobID : string) (outs : list string) (s : Scheduler W)
  : Scheduler W :=
  fold_left (fun s c => emit (output_event id jobID c s) s) outs s.

(** The text of a validation error. *)
Definition graph_error_text (e : GraphError) : string :=
  "graph: " +:+
  match e with
  | EDuplicate id => "duplicate node ID " +:+ quote id
  | EEmpty => "empty graph"
  | EUnknownDep node dep => "node " +:+ quote node +:+ " depends on unknown node " +:+ quote dep
  | EOwnFailBranch node => "node " +:+ quote node +:+ " cannot be its own fail-branch target"
  | EUnknownFailBranch node target =>
      "node " +:+ quote node +:+ " fail-branch references unknown node " +:+ quote target
  | EFailBranchNotDependent target node =>
      "fail-branch target " +:+ quote target +:+ " must list " +:+ quote node +:+ " in DependsOn"
  | EPromptAndSubTask node => "node " +:+ quote node +:+ " cannot have both prompt and sub-task"
  | ENoIterationCheck node max =>
      "node " +:+ quote node +:+ " has MaxIterations=" +:+ pretty max +:+ " but no IterationCheck"
  | ENegativeIterations node => "node " +:+ quote node +:+ " has negative MaxIterations"
  | ERetriesNotPositive node max =>
      "node " +:+ quote node +:+ " uses ErrorRetryThenFail but MaxRetries=" +:+ pretty max
  | ECycle node => "cycle detected involving node " +:+ quote node
  | EPanic => ""
  end.

(** The iteration of the main loop that finds the context done: the final send
    and the context are both ready then, so the event may be lost. *)
Definition cancel_run {W} (err : string) (sent : bool) (s : Scheduler W) : option (Scheduler W) :=
  if finished s then None else
  if sent : bool then
    if length (events s) <? events_capacity
    then Some (emit (all_done_event err "") s <| finished := true |>) else None
  else Some (s <| finished := true |>).

(** The iteration of the main loop that ends the run; the final send blocks
    until there is room. *)
Definition main_loop {W} (s : Scheduler W) : option (Scheduler W) :=
  if finished s || negb (AllDone (sm s)) then None else
  let s := emitProgress s in
  if length (events s) <? events_capacity
  then Some (emit (all_done_event (summaryError s) "") s <| finished := true |>) else None.

Definition step_fn {W} `{JobQueue W} (c : choice) (s : Scheduler W) : option (Scheduler W) :=
  match c with
  | CExec j =>
      match head_of j s with
      | Some (i, s1) => match exec_instr i s1 with
                        | Some (s2, more) => Some (resume j more s2)
                        | None => None
                        end
      | None => None
      end
  | CWatch j input job =>
      match head_of j s with
      | Some (IWatch id jobID, s1) =>
          match watchNode jobID input job with
          | (outs, None) => Some (forward id jobID outs s)
          | (outs, Some out) => Some (resume j (completeNode id out) (forward id jobID outs s1))
          end
      | _ => None
      end
  | CSubTask j out =>
      match head_of j s with
      | Some (ISubTask id, s1) => Some (resume j (completeNode id out) s1)
      | _ => None
      end
  | CApprove id b => Some (decide_approval b id s).1
  | CReceive j =>
      match head_of j s with
      | Some (IAwaitApproval id, s1) =>
          match approvals s !! id with
          | Some (Some b) =>
              let s1 := s1 <| approvals ::= <[id := None]> |> in
              Some (resume j (if b : bool then [IDispatch id; IForgetApproval id]
                              else reject id "approval rejected" true) s1)
          | _ => None
          end
      | _ => None
      end
  | CTimeout j =>
      match head_of j s with
      | Some (IAwaitApproval id, s1) =>
          match Nodes (graph s) !! id with
          | Some node => if (0 <? ApprovalTimeout node)%Z
                         then Some (resume j (reject id (timeout_message node) true) s1) else None
          | None => None
          end
      | _ => None
      end
  | CCancelWait j err =>
      match head_of j s with
      | Some (IAwaitApproval id, s1) => Some (resume j (reject id err false) s1)
      | _ => None
      end
  | CTimer j cancelled =>
      match head_of j s with
      | Some (IRetryTimer, s1) => Some (resume j (if cancelled : bool then [] else [IEnqueue]) s1)
      | _ => None
      end
  | CConsume => match events s with [] => None | _ :: es => Some (s <| events := es |>) end
  | CMain => main_loop s
  | CCancelRun err sent => cancel_run err sent s
  end.

Inductive sched_step {W} `{JobQueue W} : Scheduler W -> Scheduler W -> Prop :=
| sched_step_choice c s s' : step_fn c s = Some s' -> sched_step s s'.

(** A run of choices; [None] when one of them does not apply. *)
Fixpoint run_choices {W} `{JobQueue W} (cs : list choice) (s : Scheduler W) : option (Scheduler W) :=
  match cs with
  | [] => Some s
  | c :: cs => match step_fn c s with Some s => run_choices cs s | None => None end
  end.

(** ** The start of a run *)

(** The loop that announces the preloaded nodes. *)
Definition announce_cached {W} (s : Scheduler W) : Scheduler W :=
  fold_left (fun s id =>
    if decide (Get id (sm s) <> Some StateDone) then s
    else if decide (id ∉ (ResumeFrom (opts s)).*1) then s
    else match Nodes (graph s) !! id with
         | None => s
         | Some node =>
             let s := exec_acts (mark_edges id EdgeTaken s) s in
             emit (node_event EventNodeSkipped id node <| se_Content := "cached" |>) s
         end) (NodeIDs (graph s)) s.

Definition preload {W} (s : Scheduler W) : Scheduler W :=
  match ResumeFrom (opts s) with
  | [] => s
  | cached => announce_cached (s <| sm ::= PreloadResults cached |>)
  end.

(** [run] up to the main loop; a graph that fails validation ends the run. *)
Definition start {W} `{JobQueue W} (order : nat -> list NodeID) (s : Scheduler W) : option (Scheduler W) :=
  match Validate order (graph s) with
  | None => None
  | Some (Err e) =>
      Some (emit (all_done_event (graph_error_text e) "graph validation failed") s
              <| finished := true |>)
  | Some (Ok g) => Some (enqueueReady (preload (s <| graph := g |>)))
  end.

Definition sched_reachable {W} `{JobQueue W} (order : nat -> list NodeID) (s0 s : Scheduler W) : Prop :=
  exists s1, start order s0 = Some s1 /\ rtc sched_step s1 s.

(** ** Lemmas: what the parts of a pass leave alone *)

Lemma emit_sched {W} e (s : Scheduler W) :
  sm (emit e s) = sm s /\ graph (emit e s) = graph s /\ running (emit e s) = running s /\
  threads (emit e s) = threads s /\ maxParallel (emit e s) = maxParallel s.
Proof. unfold emit. by destruct (_ <? events_capacity). Qed.

(** *** Slots *)

(** The instructions that stand for a running node: [s.running] was raised for
    them and is still to be lowered. *)
Definition slot (i : instr) : Z :=
  match i with IWatch _ _ | ISubTask _ | IDecRunning => 1 | _ => 0 end%Z.

Definition thread_slots (t : thread) : Z := foldr (fun i n => (slot i + n)%Z) 0%Z t.

Definition total_slots (ts : list thread) : Z := foldr (fun t n => (thread_slots t + n)%Z) 0%Z ts.

Definition counted {W} (s : Scheduler W) : Prop := running s = total_slots (threads s).

Lemma thread_slots_app t u : thread_slots (t ++ u) = (thread_slots t + thread_slots u)%Z.
Proof. induction t as [|i t IH]; simpl; [done|]. rewrite IH. lia. Qed.

Lemma total_slots_app ts us : total_slots (ts ++ us) = (total_slots ts + total_slots us)%Z.
Proof. induction ts as [|t ts IH]; simpl; [done|]. rewrite IH. lia. Qed.



Lemma total_slots_insert ts j t u :
  ts !! j = Some t ->
  total_slots (<[j := u]> ts) = (total_slots ts - thread_slots t + thread_slots u)%Z.
Proof.
  intros Hj. rewrite <- (take_drop_middle ts j t Hj) at 2. rewrite insert_take_drop
    by (by eapply lookup_lt_Some). rewrite !total_slots_app. simpl. lia.
Qed.

Lemma total_slots_alter ts j t more :
  ts !! j = Some t ->
  total_slots (alter (fun t => more ++ t) j ts) = (total_slots ts + thread_slots more)%Z.
Proof.
  revert j. induction ts as [|u ts IH]; intros [|j] Hj; simplify_eq/=.
  - rewrite thread_slots_app. lia.
  - specialize (IH j Hj). unfold alter in IH |- *. simpl. lia.
Qed.

(** *** Instructions that may occur *)

(** A node that can run more than once. *)
Definition repeats (n : Node) : Prop := (0 < MaxIterations n)%Z \/ Strategy n = ErrorRetryThenFail.

Definition no_repeat (g : Graph) : Prop := forall id n, Nodes g !! id = Some n -> ~ repeats n.

Definition act_ok (g : Graph) (a : act) : Prop :=
  match a with
  | ATransition _ to => to <> StateQueued
  | AReset _ | ASpawnRetry => ~ no_repeat g
  | _ => True
  end.

Definition instr_ok (g : Graph) (i : instr) : Prop :=
  match i with
  | IAct a => act_ok g a
  | IDispatch id | IAwaitApproval id =>
      exists n, Nodes g !! id = Some n /\ RequiresApproval n = true
  | _ => True
  end.

Definition threads_ok {W} (s : Scheduler W) : Prop :=
  Forall (Forall (instr_ok (graph s))) (threads s).

(** *** Monotone states *)

Definition active (st : option NodeState) : Prop :=
  st = Some StateQueued \/ st = Some StateRunning.

(** The same nodes, the same fail branches, and every finished node as it was. *)
Record sm_le (m m' : StateManager) : Prop := {
  sl_dom : forall id, is_Some (states m' !! id) <-> is_Some (states m !! id);
  sl_fail : sm_failEdges m' = sm_failEdges m;
  sl_final : forall id st, states m !! id = Some st -> terminal st = true ->
    states m' !! id = Some st;
  sl_pending : forall id, states m' !! id = Some StatePending -> states m !! id = Some StatePending
}.

#[export] Instance sm_le_preorder : PreOrder sm_le.
Proof.
  split; [by split|]. intros m1 m2 m3 [D1 F1 T1 P1] [D2 F2 T2 P2]. split; [|congruence|auto..].
  intros id. by rewrite D2.
Qed.

Lemma DependenciesSatisfied_mono node m m' :
  sm_le m m' -> DependenciesSatisfied node m = true -> DependenciesSatisfied node m' = true.
Proof.
  intros [Hd Hf Ht _]. rewrite !DependenciesSatisfied_spec, Hf. intros H dep st Hin Hst.
  destruct (states m !! dep) as [st0|] eqn:E.
  - assert (Hterm : terminal st0 = true).
    { destruct (H dep st0 Hin E) as [->|[->|[-> _]]]; done. }
    rewrite (Ht dep st0 E Hterm) in Hst. simplify_eq. by apply H.
  - assert (is_Some (states m !! dep)) as [? ?] by (apply Hd; by eexists). congruence.
Qed.

(** *** Quiet changes

    A part of a pass that starts no node: it keeps the graph and the slots,
    leaves well-formed threads, and activates no node; when no node repeats it
    also keeps every finished node. *)
Record quiet {W} (s s' : Scheduler W) : Prop := {
  q_graph : graph s' = graph s;
  q_max : maxParallel s' = maxParallel s;
  q_slack : (running s' - total_slots (threads s') = running s - total_slots (threads s))%Z;
  q_threads : threads_ok s -> threads_ok s';
  q_sm : no_repeat (graph s) -> sm_le (sm s) (sm s');
  q_active : forall id, active (Get id (sm s')) -> active (Get id (sm s));
  q_len : length (threads s) <= length (threads s')
}.

#[export] Instance quiet_preorder W : PreOrder (@quiet W).
Proof.
  split; [intros s; by split|]. intros s1 s2 s3 [G1 M1 S1 T1 L1 A1 N1] [G2 M2 S2 T2 L2 A2 N2].
  split; [congruence|congruence|lia|auto| |auto|lia].
  intros Hn. etrans; [by apply L1|]. apply L2. by rewrite G1.
Qed.

Lemma quiet_same {W} (s s' : Scheduler W) :
  graph s' = graph s -> maxParallel s' = maxParallel s -> running s' = running s ->
  threads s' = threads s -> states (sm s') = states (sm s) ->
  sm_failEdges (sm s') = sm_failEdges (sm s) -> quiet s s'.
Proof.
  intros Hg Hm Hr Ht Hs Hf. split; unfold threads_ok, Get; rewrite ?Hg, ?Hr, ?Ht, ?Hs; try done.
  intros _. split; rewrite ?Hs; done.
Qed.

Lemma quiet_emit {W} e (s : Scheduler W) : quiet s (emit e s).
Proof. destruct (emit_sched e s) as (Hm & Hg & Hr & Ht & Hx). apply quiet_same; by rewrite ?Hm. Qed.

Lemma quiet_emitProgress {W} (s : Scheduler W) : quiet s (emitProgress s).
Proof. apply quiet_emit. Qed.

#[export] Hint Resolve quiet_emit quiet_emitProgress : kvelmo.

(** A goroutine without slots. *)
Lemma quiet_spawn {W} t (s : Scheduler W) :
  thread_slots t = 0%Z -> Forall (instr_ok (graph s)) t -> quiet s (spawn t s).
Proof.
  intros Ht Hok. split; simpl; try done.
  - rewrite total_slots_app. simpl. lia.
  - intros Hs. unfold threads_ok. simpl. apply Forall_app. split; [done|]. by constructor.
  - rewrite length_app. lia.
Qed.

Lemma sm_le_transition id to m :
  sm_le m (Transition_ id to m).1.
Proof.
  destruct (Transition_ id to m) as [m' r] eqn:E; simpl.
  apply Transition_inv in E as [(e & _ & ->)|(from & _ & Hid & Hv & ->)]; [done|].
  split; [|done| |].
  - intros k. rewrite lookup_set_state. destruct (decide (id = k)) as [->|]; [|done].
    rewrite Hid. split; intros; by eexists.
  - intros k st Hk Hst. rewrite lookup_set_state. destruct (decide (id = k)) as [->|]; [|done].
    simplify_eq. by rewrite (terminal_no_transition _ to Hst) in Hv.
  - intros k. rewrite lookup_set_state. destruct (decide (id = k)) as [->|]; [|done].
    intros ?. simplify_eq. by destruct from.
Qed.

Lemma transition_active id to m k :
  to <> StateQueued -> active (Get k (Transition_ id to m).1) -> active (Get k m).
Proof.
  intros Hto. destruct (Transition_ id to m) as [m' r] eqn:E; simpl.
  apply Transition_inv in E as [(e & _ & ->)|(from & _ & Hid & Hv & ->)]; [done|].
  unfold Get. rewrite lookup_set_state. destruct (decide (id = k)) as [->|]; [|done].
  rewrite Hid. intros [?|?]; simplify_eq. destruct from; simpl in Hv; try done. by left.
Qed.

Lemma quiet_transition {W} id to (s : Scheduler W) :
  to <> StateQueued -> quiet s (s <| sm ::= fun m => (Transition_ id to m).1 |>).
Proof.
  intros Hto. split; simpl; try done.
  - intros _. apply sm_le_transition.
  - intros k. by apply transition_active.
Qed.

Lemma quiet_set_state {W} id to m r (s : Scheduler W) :
  to <> StateQueued -> Transition_ id to (sm s) = (m, r) -> quiet s (s <| sm := m |>).
Proof.
  intros Hto E. pose proof (quiet_transition id to s Hto) as Hq. simpl in Hq. by rewrite E in Hq.
Qed.

Lemma reset_active id m k : active (Get k (ResetForIteration id m).1) -> active (Get k m).
Proof.
  destruct (ResetForIteration id m) as [m' r] eqn:E; simpl.
  apply Reset_inv in E as [(e & _ & ->)|(from & _ & Hid & Hf & Hs & _)]; [done|].
  unfold Get. rewrite Hs. destruct (decide (id = k)) as [->|].
  - rewrite lookup_insert_eq. by intros [?|?].
  - by rewrite lookup_insert_ne.
Qed.

Lemma quiet_exec_act {W} a (s : Scheduler W) : act_ok (graph s) a -> quiet s (exec_act a s).
Proof.
  destruct a as [id to|id|id|id r|id e|f t st|e|]; simpl; intros Hok.
  - by apply quiet_transition.
  - destruct (decide _); [by apply quiet_transition|done].
  - split; simpl; try done. intros k. apply reset_active.
  - by apply quiet_same.
  - by apply quiet_same.
  - by apply quiet_same.
  - auto with kvelmo.
  - apply quiet_spawn; [done|]. by repeat constructor.
Qed.

Lemma quiet_exec_acts {W} acts (s : Scheduler W) :
  Forall (act_ok (graph s)) acts -> quiet s (exec_acts acts s).
Proof.
  unfold exec_acts. revert s. induction acts as [|a acts IH]; intros s Hok; simpl; [done|].
  apply Forall_cons in Hok as [Ha Hok]. pose proof (quiet_exec_act a s Ha) as Hq.
  etrans; [exact Hq|]. apply IH. by rewrite (q_graph _ _ Hq).
Qed.

(** *** Handlers and dispatch *)

(** Instructions of a literal list that may occur. *)
Ltac acts_ok := repeat first [apply Forall_nil_2 | apply Forall_cons_2]; simpl; done.

Lemma mark_edges_ok {W} g id st (s : Scheduler W) : Forall (act_ok g) (mark_edges id st s).
Proof. unfold mark_edges. apply Forall_map. by apply Forall_true. Qed.

Lemma markFailureEdges_ok {W} g id e (s : Scheduler W) : Forall (act_ok g) (markFailureEdges id e s).
Proof.
  unfold markFailureEdges. apply Forall_app. split; [apply Forall_map; by apply Forall_true|].
  destruct (FailBranchTarget _ _); acts_ok.
Qed.

Lemma repeats_not_no_repeat g id node :
  Nodes g !! id = Some node -> repeats node -> ~ no_repeat g.
Proof. intros Hn Hr H. by apply (H id node). Qed.

Lemma handleNodeSuccess_spec {W} id node r (s s' : Scheduler W) acts :
  Nodes (graph s) !! id = Some node ->
  handleNodeSuccess id node r s = (s', acts) ->
  quiet s s' /\ Forall (act_ok (graph s)) acts.
Proof.
  intros Hn. unfold handleNodeSuccess.
  assert (Hok : Forall (act_ok (graph s)) ([ATransition id StateDone; ASetResult id r] ++
    mark_edges id EdgeTaken s ++ [AEmit (node_event EventNodeCompleted id node)])).
  { rewrite !Forall_app. split_and!; [acts_ok|apply mark_edges_ok|acts_ok]. }
  destruct (match IterationCheckFn node with Some _ => _ | None => _ end) eqn:Ei;
    [|intros; by simplify_eq].
  assert (Hr : repeats node).
  { left. destruct (IterationCheckFn node); [|done]. apply andb_true_iff in Ei as [Ei _].
    by apply Z.ltb_lt. }
  unfold IncrementIteration. cbv zeta. set (n := (count_of _ _ + 1)%Z).
  destruct (n <? MaxIterations node)%Z; intros; simplify_eq;
    (split; [by apply quiet_same|]); [|exact Hok].
  repeat apply Forall_cons_2; simpl; try done. by apply (repeats_not_no_repeat (graph s) id node).
Qed.

Lemma handleNodeFailure_spec {W} id node e (s s' : Scheduler W) acts :
  Nodes (graph s) !! id = Some node ->
  handleNodeFailure id node e s = (s', acts) ->
  quiet s s' /\ Forall (act_ok (graph s)) acts.
Proof.
  intros Hn. unfold handleNodeFailure.
  assert (Hok : Forall (act_ok (graph s)) ([ATransition id StateFailed; ASetError id e] ++
    markFailureEdges id e s ++ [AEmit (node_event EventNodeFailed id node <| se_Error := e |>)])).
  { rewrite !Forall_app. split_and!; [acts_ok|apply markFailureEdges_ok|acts_ok]. }
  destruct (Strategy node) eqn:Es.
  - intros; by simplify_eq.
  - intros; simplify_eq. split; [done|].
    rewrite !Forall_app. split_and!; [acts_ok|apply mark_edges_ok|acts_ok].
  - pose proof (repeats_not_no_repeat _ _ _ Hn (or_intror Es)) as Hnr.
    unfold IncrementRetry. cbv zeta. set (n := (count_of _ _ + 1)%Z).
    destruct (n <=? MaxRetries node)%Z; intros; simplify_eq; (split; [by apply quiet_same|]); [|exact Hok].
    apply Forall_app. split; [acts_ok|]. destruct (_ <? _)%Z; acts_ok.
Qed.

Lemma quiet_fail_now {W} id node e (s : Scheduler W) :
  Nodes (graph s) !! id = Some node -> quiet s (fail_now id node e s).
Proof.
  intros Hn. unfold fail_now.
  assert (Hq : quiet s (exec_act (ATransition id StateRunning) s)) by (apply quiet_exec_act; done).
  destruct (handleNodeFailure id node e _) as [s1 acts] eqn:E.
  apply handleNodeFailure_spec in E as [Hq1 Hok]; [|by rewrite (q_graph _ _ Hq)].
  etrans; [exact Hq|]. etrans; [exact Hq1|]. apply quiet_exec_acts. by rewrite (q_graph _ _ Hq1).
Qed.

(** A node that is started: the counter is raised and a goroutine with one slot
    takes over. *)
Lemma quiet_start {W} i (f : Scheduler W -> Scheduler W) (s s1 : Scheduler W) :
  slot i = 1%Z -> instr_ok (graph s) i -> (forall s0, quiet s0 (f s0)) ->
  graph s1 = graph s -> maxParallel s1 = maxParallel s -> running s1 = (running s + 1)%Z ->
  threads s1 = threads s -> sm s1 = sm s ->
  quiet s (spawn [i] (f s1)).
Proof.
  intros Hi Hok Hf Hg Hm Hr Ht Hs. destruct (Hf s1) as [G M S T L A N].
  split; simpl.
  - congruence.
  - congruence.
  - rewrite total_slots_app. simpl. rewrite Hi. rewrite Hr, Ht in S. lia.
  - intros Hts. unfold threads_ok in *. simpl. rewrite Hg, Ht in T. apply Forall_app. split; [by apply T|].
    apply Forall_singleton, Forall_singleton. by rewrite G, Hg.
  - rewrite Hg, Hs in L. exact L.
  - intros k. rewrite Hs in A. apply A.
  - rewrite length_app. rewrite Ht in N. lia.
Qed.

Lemma quiet_dispatchNode {W} `{JobQueue W} id node (s : Scheduler W) :
  Nodes (graph s) !! id = Some node -> quiet s (dispatchNode id node s).
Proof.
  intros Hn. unfold dispatchNode. destruct (SubTask node) as [cfg|].
  - unfold dispatchSubTask. destruct (hasExecutor s); simpl negb; cbv iota.
    + apply (quiet_start (ISubTask id) (fun s => emitProgress (emit (node_event EventNodeStarted id node
        <| se_Content := "sub-task: " +:+ stc_Title cfg |>) (exec_act (ATransition id StateRunning) s))));
        [done|done| |done..]. intros s0. etrans; [|apply quiet_emitProgress].
      etrans; [|apply quiet_emit]. by apply quiet_exec_act.
    + pose proof (quiet_fail_now id node "no sub-task executor configured" s Hn) as Hq.
      etrans; [exact Hq|]. apply quiet_spawn; [done|]. acts_ok.
  - set (s1 := match opts_metadata s with None => _ | Some _ => _ end).
    assert (Hs1 : quiet s s1.1) by (unfold s1; destruct (opts_metadata s); by apply quiet_same).
    destruct s1 as [s1 meta]. simpl in Hs1.
    destruct (submit _ _ _ _) as [p [jobID|err]].
    + etrans; [exact Hs1|].
      set (s2 := s1 <| pool := p |> <| job_metadata ::= <[jobID := meta]> |>).
      etrans; [apply (quiet_same s1 s2); done|].
      apply (quiet_start (IWatch id jobID) (fun s => emitProgress (emit (node_event EventNodeStarted
        id node <| se_JobID := jobID |>) (exec_act (ATransition id StateRunning) s))));
        [done|done| |done..]. intros s0. etrans; [|apply quiet_emitProgress]. etrans; [|apply quiet_emit].
      by apply quiet_exec_act.
    + etrans; [exact Hs1|]. etrans; [apply (quiet_same s1 (s1 <| pool := p |>)); done|].
      assert (Hn1 : Nodes (graph (s1 <| pool := p |>)) !! id = Some node)
        by (change (Nodes (graph s1) !! id = Some node); by rewrite (q_graph _ _ Hs1)).
      pose proof (quiet_fail_now id node err _ Hn1) as Hq.
      etrans; [exact Hq|]. apply quiet_spawn; [done|]. acts_ok.
Qed.

Lemma quiet_waitForApproval {W} id node (s : Scheduler W) :
  Nodes (graph s) !! id = Some node -> RequiresApproval node = true ->
  quiet s (waitForApproval id node s).
Proof.
  intros Hn Ha. unfold waitForApproval.
  etrans; [apply (quiet_same s (s <| approvals ::= <[id := None]> |>)); done|].
  match goal with |- quiet ?s0 (spawn _ (emit ?e _)) => pose proof (quiet_emit e s0) as Hq end.
  etrans; [exact Hq|]. apply quiet_spawn; [done|].
  repeat constructor. exists node. by rewrite (q_graph _ _ Hq).
Qed.

Lemma quiet_skip {W} id node (s : Scheduler W) : quiet s (skipNodeAndPropagate id node s).
Proof.
  unfold skipNodeAndPropagate. destruct (Transition_ id StateSkipped (sm s)) as [m [[]|e]] eqn:E;
    [|done].
  etrans; [|apply quiet_emit]. etrans; [|apply quiet_exec_acts, mark_edges_ok].
  eapply quiet_set_state; [|exact E]; done.
Qed.

Lemma quiet_classify {W} acc id : quiet acc.1 (@classify W acc id).1.
Proof.
  destruct acc as [s cands]. unfold classify. simpl.
  destruct (decide _); [done|]. destruct (Nodes (graph s) !! id) as [node|]; [|done].
  destruct (negb _); [done|]. destruct (Frozen node && _).
  - destruct (Transition_ id StateDone (sm s)) as [m [[]|e]] eqn:E; [|done].
    etrans; [eapply quiet_set_state; [|exact E]; done|]. apply quiet_emit.
  - destruct (AllIncomingEdgesSkipped _ _); [apply quiet_skip|].
    destruct (match Condition node with Some _ => _ | None => _ end); [apply quiet_skip|done].
Qed.

Lemma quiet_fold_classify {W} ids acc : quiet acc.1 (fold_left (@classify W) ids acc).1.
Proof.
  revert acc. induction ids as [|id ids IH]; intros acc; simpl; [done|].
  etrans; [apply quiet_classify|apply IH].
Qed.

(** Queueing a node activates that node alone, and it was pending. *)
Lemma dispatch_candidate_spec {W} `{JobQueue W} id (s : Scheduler W) :
  let s' := dispatch_candidate id s in
  graph s' = graph s /\ maxParallel s' = maxParallel s /\
  (running s' - total_slots (threads s') = running s - total_slots (threads s))%Z /\
  (threads_ok s -> threads_ok s') /\ (no_repeat (graph s) -> sm_le (sm s) (sm s')) /\
  (forall k, active (Get k (sm s')) -> active (Get k (sm s)) \/ k = id) /\
  length (threads s) <= length (threads s').
Proof.
  unfold dispatch_candidate. destruct (Nodes (graph s) !! id) as [node|] eqn:Hn; [|split_and!; by auto].
  destruct (Transition_ id StateQueued (sm s)) as [m [[]|e]] eqn:E; [|split_and!; by auto].
  cbv zeta. set (s1 := emit _ (s <| sm := m |>)).
  assert (Hs1 : graph s1 = graph s /\ maxParallel s1 = maxParallel s /\ running s1 = running s /\
    threads s1 = threads s /\ sm s1 = m).
  { unfold s1. by destruct (emit_sched (node_event EventNodeQueued id node) (s <| sm := m |>))
      as (-> & -> & -> & -> & ->). }
  destruct Hs1 as (Hg & Hmax & Hr & Ht & Hm).
  assert (Hq : quiet s1 (if RequiresApproval node then waitForApproval id node s1
                         else dispatchNode id node s1)).
  { destruct (RequiresApproval node) eqn:Ea; [apply quiet_waitForApproval|apply quiet_dispatchNode];
      by rewrite ?Hg. }
  destruct Hq as [G M S T L A N]. split_and!; [congruence|congruence|congruence| | | |congruence].
  - intros Hok. apply T. unfold threads_ok. by rewrite Hg, Ht.
  - intros Hnr. etrans; [|apply L; by rewrite Hg]. rewrite Hm.
    pose proof (sm_le_transition id StateQueued (sm s)) as Hle. by rewrite E in Hle.
  - intros k Hk. apply A in Hk. rewrite Hm in Hk.
    apply Transition_inv in E as [(e & ? & _)|(from & _ & Hid & _ & ->)]; [done|].
    unfold Get in *. rewrite lookup_set_state in Hk. destruct (decide (id = k)); auto.
Qed.

(** *** The running count *)

Lemma running_exec_acts {W} acts (s : Scheduler W) : running (exec_acts acts s) = running s.
Proof.
  unfold exec_acts. revert s. induction acts as [|a acts IH]; intros s; simpl; [done|].
  rewrite IH. destruct a; simpl; try done; [by destruct (decide _)|].
  apply (emit_sched e s).
Qed.

Lemma running_emit {W} e (s : Scheduler W) : running (emit e s) = running s.
Proof. apply emit_sched. Qed.

Lemma running_skip {W} id node (s : Scheduler W) : running (skipNodeAndPropagate id node s) = running s.
Proof.
  unfold skipNodeAndPropagate. destruct (Transition_ _ _ _) as [m [[]|e]]; [|done].
  by rewrite running_emit, running_exec_acts.
Qed.

Lemma running_classify {W} acc id : running (@classify W acc id).1 = running acc.1.
Proof.
  destruct acc as [s cands]. unfold classify. simpl.
  destruct (decide _); [done|]. destruct (Nodes (graph s) !! id) as [node|]; [|done].
  destruct (negb _); [done|]. destruct (Frozen node && _).
  - destruct (Transition_ _ _ _) as [m [[]|e]]; [|done]. simpl. by rewrite running_emit.
  - destruct (AllIncomingEdgesSkipped _ _); [apply running_skip|].
    destruct (match Condition node with Some _ => _ | None => _ end); [apply running_skip|done].
Qed.

Lemma running_handleNodeSuccess {W} id node r (s : Scheduler W) :
  running (handleNodeSuccess id node r s).1 = running s.
Proof.
  unfold handleNodeSuccess, IncrementIteration. cbv zeta.
  destruct (match IterationCheckFn node with Some _ => _ | None => _ end); [|done].
  by destruct (_ <? MaxIterations node)%Z.
Qed.

Lemma running_handleNodeFailure {W} id node e (s : Scheduler W) :
  running (handleNodeFailure id node e s).1 = running s.
Proof.
  unfold handleNodeFailure, IncrementRetry. cbv zeta.
  destruct (Strategy node); [done|done|]. by destruct (_ <=? MaxRetries node)%Z.
Qed.

Lemma running_fail_now {W} id node e (s : Scheduler W) : running (fail_now id node e s) = running s.
Proof.
  unfold fail_now. set (s0 := exec_act _ s).
  pose proof (running_handleNodeFailure id node e s0) as Hr.
  destruct (handleNodeFailure id node e s0) as [s1 acts]. rewrite running_exec_acts. simpl in Hr.
  rewrite Hr. apply (running_exec_acts [ATransition id StateRunning] s).
Qed.

Lemma running_dispatchNode {W} `{JobQueue W} id node (s : Scheduler W) :
  (running s <= running (dispatchNode id node s) <= running s + 1)%Z.
Proof.
  unfold dispatchNode, dispatchSubTask, emitProgress. destruct (SubTask node) as [cfg|].
  - destruct (hasExecutor s); simpl; rewrite ?running_emit, ?running_fail_now; simpl; lia.
  - set (s1 := match opts_metadata s with None => _ | Some _ => _ end).
    assert (Hs1 : running s1.1 = running s) by (unfold s1; by destruct (opts_metadata s)).
    destruct s1 as [s1 meta]. simpl in Hs1.
    destruct (submit _ _ _ _) as [p [jobID|err]]; simpl;
      rewrite ?running_emit, ?running_fail_now; simpl; lia.
Qed.

Lemma running_dispatch_candidate {W} `{JobQueue W} id (s : Scheduler W) :
  (running s <= running (dispatch_candidate id s) <= running s + 1)%Z.
Proof.
  unfold dispatch_candidate. destruct (Nodes _ !! id) as [node|]; [|lia].
  destruct (Transition_ _ _ _) as [m [[]|e]]; [|lia]. cbv zeta.
  set (s1 := emit _ _). assert (Hr : running s1 = running s) by (unfold s1; by rewrite running_emit).
  destruct (RequiresApproval node).
  - unfold waitForApproval. simpl. rewrite running_emit. simpl. lia.
  - rewrite <- Hr. apply running_dispatchNode.
Qed.

(** *** A whole pass *)

(** A node may be started: it is known and its dependencies are satisfied. *)
Definition startable {W} (s : Scheduler W) (k : NodeID) : Prop :=
  exists node, Nodes (graph s) !! k = Some node /\
    (no_repeat (graph s) -> DependenciesSatisfied node (sm s) = true).

Lemma startable_mono {W} (s s' : Scheduler W) k :
  graph s' = graph s -> (no_repeat (graph s) -> sm_le (sm s) (sm s')) ->
  startable s k -> startable s' k.
Proof.
  intros Hg Hle (node & Hn & Hd). exists node. rewrite Hg. split; [done|].
  intros Hnr. eapply DependenciesSatisfied_mono; [by apply Hle|by apply Hd].
Qed.

Lemma classify_candidates {W} acc id :
  (forall k, k ∈ acc.2 -> startable acc.1 k) ->
  forall k, k ∈ (@classify W acc id).2 -> startable (classify acc id).1 k.
Proof.
  intros Hacc k Hk. pose proof (quiet_classify acc id) as Hq.
  assert (Hold : k ∈ acc.2 -> startable (classify acc id).1 k).
  { intros Hin. eapply startable_mono; [apply Hq|apply Hq|by apply Hacc]. }
  clear Hq. destruct acc as [s cands]. revert Hk Hold. unfold classify. simpl.
  destruct (decide _); [auto|]. destruct (Nodes (graph s) !! id) as [node|] eqn:Hn; [|auto].
  destruct (DependenciesSatisfied node (sm s)) eqn:Hd; simpl; [|auto].
  destruct (Frozen node && _); [destruct (Transition_ _ _ _) as [m [[]|e]]; auto|].
  destruct (AllIncomingEdgesSkipped _ _); [auto|].
  destruct (match Condition node with Some _ => _ | None => _ end); [auto|]. simpl.
  rewrite elem_of_app, list_elem_of_singleton. intros [Hin|Heq] Hold; [auto|]. subst. by exists node.
Qed.

Lemma fold_classify_candidates {W} ids acc :
  (forall k, k ∈ acc.2 -> startable acc.1 k) ->
  forall k, k ∈ (fold_left (@classify W) ids acc).2 -> startable (fold_left classify ids acc).1 k.
Proof.
  revert acc. induction ids as [|id ids IH]; intros acc Hacc; simpl; [done|].
  apply IH. by apply classify_candidates.
Qed.

(** What a pass may do to the rest of the state. *)
Record pass {W} (s s' : Scheduler W) : Prop := {
  p_graph : graph s' = graph s;
  p_max : maxParallel s' = maxParallel s;
  p_slack : (running s' - total_slots (threads s') = running s - total_slots (threads s))%Z;
  p_threads : threads_ok s -> threads_ok s';
  p_sm : no_repeat (graph s) -> sm_le (sm s) (sm s');
  p_running : (running s <= maxParallel s -> running s' <= maxParallel s)%Z;
  p_active : forall k, active (Get k (sm s')) -> active (Get k (sm s)) \/ startable s' k;
  p_len : length (threads s) <= length (threads s')
}.

Lemma dispatch_candidates_pass {W} `{JobQueue W} l (s : Scheduler W) :
  (forall k, k ∈ l -> startable s k) -> pass s (dispatch_candidates l s).
Proof.
  revert s. induction l as [|id l IH]; intros s Hl; simpl.
  { split; auto. done. }
  destruct (Z.leb_spec (maxParallel s) (running s)); [split; auto; done|].
  destruct (dispatch_candidate_spec id s) as (Hg & Hm & Hsl & Ht & Hle & Ha & Hn).
  pose proof (running_dispatch_candidate id s) as Hrun.
  set (s1 := dispatch_candidate id s) in *.
  destruct (IH s1) as [G M S T L R A N].
  { intros k Hk. eapply startable_mono; [exact Hg|exact Hle|]. apply Hl. by right. }
  split; [congruence|congruence|lia|auto| | | |lia].
  - intros Hnr. etrans; [by apply Hle|]. apply L. by rewrite Hg.
  - intros _. rewrite Hm in R. apply R. lia.
  - intros k Hk. destruct (A k Hk) as [Hk1|]; [|by right].
    destruct (Ha k Hk1) as [Hk2|Hk2]; [by left|right; subst k].
    eapply startable_mono; [exact G|exact L|]. eapply startable_mono; [exact Hg|exact Hle|].
    apply Hl. by left.
Qed.

Lemma running_fold_classify {W} ids acc :
  running (fold_left (@classify W) ids acc).1 = running acc.1.
Proof.
  revert acc. induction ids as [|id ids IH]; intros acc; simpl; [done|].
  by rewrite IH, running_classify.
Qed.

Lemma enqueueReady_pass {W} `{JobQueue W} (s : Scheduler W) : pass s (enqueueReady s).
Proof.
  unfold enqueueReady. pose proof (quiet_fold_classify (NodeIDs (graph s)) (s, [])) as Hq.
  pose proof (running_fold_classify (NodeIDs (graph s)) (s, [])) as Hr.
  pose proof (fold_classify_candidates (NodeIDs (graph s)) (s, [])) as Hc.
  destruct (fold_left classify _ _) as [s1 cands] eqn:E. simpl in *.
  destruct Hq as [G M S T L A N].
  destruct (dispatch_candidates_pass (sort_candidates (graph s1) cands) s1) as [G' M' S' T' L' R' A' N'].
  { intros k Hk. apply Hc; [by intros j ?%not_elem_of_nil|].
    unfold sort_candidates in Hk. by rewrite merge_sort_Permutation in Hk. }
  split; [congruence|congruence|lia|auto| | | |lia].
  - intros Hnr. etrans; [by apply L|]. apply L'. by rewrite G.
  - intros Hb. rewrite M in R'. apply R'. lia.
  - intros k Hk. destruct (A' k Hk) as [Hk1|]; [left; by apply A|by right].
Qed.

(** ** The invariant of a run *)

Definition no_approval (g : Graph) : Prop :=
  forall id n, Nodes g !! id = Some n -> RequiresApproval n = false.

Record sched_inv {W} (s : Scheduler W) : Prop := {
  si_counted : counted s;
  si_threads : threads_ok s;
  si_bound : no_approval (graph s) -> (running s <= maxParallel s)%Z;
  si_deps : no_repeat (graph s) -> forall id node, Nodes (graph s) !! id = Some node ->
    active (Get id (sm s)) -> DependenciesSatisfied node (sm s) = true
}.

(** Nodes that stay ready: no node was activated but startable ones. *)
Lemma deps_pass {W} (s s' : Scheduler W) :
  graph s' = graph s -> (no_repeat (graph s) -> sm_le (sm s) (sm s')) ->
  (forall k, active (Get k (sm s')) -> active (Get k (sm s)) \/ startable s' k) ->
  (no_repeat (graph s) -> forall id node, Nodes (graph s) !! id = Some node ->
     active (Get id (sm s)) -> DependenciesSatisfied node (sm s) = true) ->
  (no_repeat (graph s') -> forall id node, Nodes (graph s') !! id = Some node ->
     active (Get id (sm s')) -> DependenciesSatisfied node (sm s') = true).
Proof.
  intros Hg Hle Ha Hd. rewrite Hg. intros Hnr id node Hn Hact.
  destruct (Ha id Hact) as [Hact'|(node' & Hn' & Hd')].
  - eapply DependenciesSatisfied_mono; [by apply Hle|]. by eapply Hd.
  - rewrite Hg in Hn', Hd'. simplify_eq. by apply Hd'.
Qed.

(** A goroutine takes the place of its head by [more] after the state went from
    [s1] to [s2]. *)
Lemma advance {W} j i t more (s s2 : Scheduler W) :
  let s1 := s <| threads ::= <[j := t]> |> in
  sched_inv s -> threads s !! j = Some (i :: t) ->
  graph s2 = graph s -> maxParallel s2 = maxParallel s ->
  length (threads s1) <= length (threads s2) ->
  (threads_ok s1 -> threads_ok s2) -> Forall (instr_ok (graph s)) more ->
  (running s2 - total_slots (threads s2) = thread_slots more)%Z ->
  (no_approval (graph s) -> (running s2 <= maxParallel s)%Z) ->
  (no_repeat (graph s) -> sm_le (sm s) (sm s2)) ->
  (forall k, active (Get k (sm s2)) -> active (Get k (sm s)) \/ startable s2 k) ->
  sched_inv (resume j more s2).
Proof.
  intros s1 [Hc Ht Hb Hd] Hj Hg Hm Hlen Hts Hmore Hslots Hbound Hle Hact.
  assert (Hj1 : is_Some (threads s2 !! j)).
  { apply lookup_lt_is_Some. unfold s1 in Hlen. simpl in Hlen. rewrite length_insert in Hlen.
    apply lookup_lt_Some in Hj. unfold thread in *. lia. }
  destruct Hj1 as [t2 Hj2].
  assert (Ht1 : threads_ok s1).
  { unfold threads_ok, s1. simpl. unfold threads_ok in Ht. apply Forall_insert; [done|].
    rewrite Forall_lookup in Ht. specialize (Ht j _ Hj). by apply Forall_cons in Ht as [_ ?]. }
  specialize (Hts Ht1). split.
  - unfold counted, resume. simpl. rewrite (total_slots_alter _ _ _ _ Hj2). lia.
  - unfold threads_ok, resume. simpl. rewrite Hg. unfold threads_ok in Hts. rewrite Hg in Hts.
    apply Forall_alter; [done|]. intros u Hu Hok. apply Forall_app. split; [done|exact Hok].
  - unfold resume. simpl. rewrite Hg, Hm. exact Hbound.
  - apply (deps_pass s2 (resume j more s2)); [done|done|by left|].
    by apply (deps_pass s s2).
Qed.

Lemma head_of_Some {W} j (s : Scheduler W) i s1 :
  head_of j s = Some (i, s1) ->
  exists t, threads s !! j = Some (i :: t) /\ s1 = s <| threads ::= <[j := t]> |>.
Proof.
  unfold head_of. destruct (threads s !! j) as [[|i' t]|]; intros; simplify_eq. by exists t.
Qed.

(** Taking the head off leaves its slot unaccounted for. *)
Lemma head_slack {W} j i t (s : Scheduler W) :
  counted s -> threads s !! j = Some (i :: t) ->
  let s1 := s <| threads ::= <[j := t]> |> in
  (running s1 - total_slots (threads s1) = slot i)%Z.
Proof.
  intros Hc Hj. simpl. rewrite (total_slots_insert _ _ _ _ Hj). unfold counted in Hc. simpl. lia.
Qed.

Lemma slots_acts acts : thread_slots (map IAct acts) = 0%Z.
Proof. induction acts as [|a acts IH]; simpl; [done|]. by rewrite IH. Qed.

Lemma acts_instr_ok g acts : Forall (act_ok g) acts -> Forall (instr_ok g) (map IAct acts).
Proof. intros H. apply Forall_map. exact H. Qed.

(** The instructions that only change the state quietly. *)
Lemma exec_instr_inv {W} `{JobQueue W} j i t more (s s2 : Scheduler W) :
  let s1 := s <| threads ::= <[j := t]> |> in
  sched_inv s -> threads s !! j = Some (i :: t) ->
  exec_instr i s1 = Some (s2, more) -> sched_inv (resume j more s2).
Proof.
  intros s1 Hi Hj He.
  assert (Hiok : instr_ok (graph s) i).
  { pose proof (si_threads _ Hi) as Ht. unfold threads_ok in Ht. rewrite Forall_lookup in Ht.
    specialize (Ht j _ Hj). by apply Forall_cons in Ht as [? _]. }
  pose proof (head_slack j i t s (si_counted _ Hi) Hj) as Hsl.
  pose proof (si_bound _ Hi) as Hb. cbv zeta in Hsl. fold s1 in Hsl.
  assert (Hquiet : forall s2, quiet s1 s2 -> running s2 = running s1 -> slot i = 0%Z ->
    forall more, thread_slots more = 0%Z -> Forall (instr_ok (graph s)) more ->
    sched_inv (resume j more s2)).
  { intros s3 [G M S T L A N] Hr Hz more' Hm0 Hmok.
    apply (advance j i t more' s s3); try done; [lia|by rewrite Hr|by left; apply A]. }
  assert (Hpass : forall s2, pass s1 s2 -> slot i = 0%Z -> sched_inv (resume j [] s2)).
  { intros s3 [G M S T L R A N] Hz.
    apply (advance j i t [] s s3); try done; [simpl; lia|].
    intros Hna. apply R. by apply Hb. }
  destruct i as [a| |id out| | |id|id|id job|id|id|]; simpl in He; try done; simplify_eq.
  - apply Hquiet; [by apply quiet_exec_act| |done|done|done].
    apply (running_exec_acts [a] s1).
  - apply (advance j IDecRunning t [] s _ Hi Hj); try done; [simpl in *; lia| |by left].
    simpl. intros Hna. specialize (Hb Hna). lia.
  - change (graph s1) with (graph s) in He. destruct (Nodes (graph s) !! id) as [node|] eqn:Hn.
    2:{ simplify_eq. by apply Hquiet. }
    destruct out as [r|e].
    + destruct (handleNodeSuccess id node r s1) as [s3 acts] eqn:Eh. simplify_eq.
      pose proof (running_handleNodeSuccess id node r s1) as Hr. rewrite Eh in Hr.
      apply handleNodeSuccess_spec in Eh as [Hq Hok]; [|done].
      apply Hquiet; [done|done|done|apply slots_acts|by apply acts_instr_ok].
    + destruct (handleNodeFailure id node e s1) as [s3 acts] eqn:Eh. simplify_eq.
      pose proof (running_handleNodeFailure id node e s1) as Hr. rewrite Eh in Hr.
      apply handleNodeFailure_spec in Eh as [Hq Hok]; [|done].
      apply Hquiet; [done|done|done|apply slots_acts|by apply acts_instr_ok].
  - apply Hquiet; [apply quiet_emitProgress|apply running_emit|done|done|done].
  - apply Hpass; [apply enqueueReady_pass|done].
  - change (graph s1) with (graph s) in He.
    destruct Hiok as (node & Hn & Hap). rewrite Hn in He. simplify_eq.
    destruct (quiet_dispatchNode id node s1 Hn) as [G M S T L A N].
    apply (advance j (IDispatch id) t [] s _ Hi Hj); try done; [simpl in *; lia| |by left; apply A].
    intros Hna. by rewrite (Hna id node Hn) in Hap.
  - apply Hquiet; [by apply quiet_same|done|done|done|done].
Qed.

Lemma quiet_inv {W} (s s' : Scheduler W) :
  sched_inv s -> quiet s s' -> running s' = running s -> sched_inv s'.
Proof.
  intros [Hc Ht Hb Hd] [G M S T L A N] Hr. split.
  - unfold counted in *. lia.
  - auto.
  - rewrite G, M, Hr. exact Hb.
  - apply (deps_pass s s'); auto.
Qed.

(** An environment step at the head of a goroutine that changes at most the
    approval channels. *)
Lemma answer_inv {W} j i t more (s : Scheduler W) (f : Scheduler W -> Scheduler W) :
  sched_inv s -> threads s !! j = Some (i :: t) ->
  (forall s0, graph (f s0) = graph s0 /\ maxParallel (f s0) = maxParallel s0 /\
     running (f s0) = running s0 /\ threads (f s0) = threads s0 /\ sm (f s0) = sm s0) ->
  thread_slots more = slot i -> Forall (instr_ok (graph s)) more ->
  sched_inv (resume j more (f (s <| threads ::= <[j := t]> |>))).
Proof.
  intros Hi Hj Hf Hm Hok.
  pose proof (head_slack j i t s (si_counted _ Hi) Hj) as Hsl. cbv zeta in Hsl.
  destruct (Hf (s <| threads ::= <[j := t]> |>)) as (G & M & R & T & S).
  apply (advance j i t more s _ Hi Hj); rewrite ?G, ?M, ?R, ?T, ?S; try done.
  - unfold threads_ok. by rewrite T, G.
  - by rewrite Hm.
  - by intros Hna; apply (si_bound _ Hi).
  - by left.
Qed.

Lemma head_instr_ok {W} j i t (s : Scheduler W) :
  sched_inv s -> threads s !! j = Some (i :: t) -> instr_ok (graph s) i.
Proof.
  intros Hi Hj. pose proof (si_threads _ Hi) as Ht. unfold threads_ok in Ht.
  rewrite Forall_lookup in Ht. specialize (Ht j _ Hj). by apply Forall_cons in Ht as [? _].
Qed.

Lemma forward_sched {W} id jobID outs (s : Scheduler W) :
  graph (forward id jobID outs s) = graph s /\
  maxParallel (forward id jobID outs s) = maxParallel s /\
  running (forward id jobID outs s) = running s /\
  threads (forward id jobID outs s) = threads s /\ sm (forward id jobID outs s) = sm s.
Proof.
  unfold forward. revert s. induction outs as [|c outs IH]; intros s; simpl; [done|].
  destruct (IH (emit (output_event id jobID c s) s)) as (-> & -> & -> & -> & ->).
  by destruct (emit_sched (output_event id jobID c s) s) as (-> & -> & -> & -> & ->).
Qed.

Lemma reject_ok g id err again :
  thread_slots (reject id err again) = 0%Z /\ Forall (instr_ok g) (reject id err again).
Proof.
  split; [by destruct again|]. unfold reject.
  destruct again; simpl; repeat first [apply Forall_nil_2|apply Forall_cons_2]; done.
Qed.

Lemma step_inv {W} `{JobQueue W} c (s s' : Scheduler W) :
  sched_inv s -> step_fn c s = Some s' -> sched_inv s'.
Proof.
  intros Hi. destruct c as [j|j input job|j out|id b|j|j|j err|j cancelled| | |err sent]; simpl; intros Hs.
  - destruct (head_of j s) as [[i s1]|] eqn:Eh; [|done].
    apply head_of_Some in Eh as (t & Hj & ->).
    destruct (exec_instr i _) as [[s2 more]|] eqn:Ee; [|done]. simplify_eq.
    by eapply exec_instr_inv.
  - destruct (head_of j s) as [[i s1]|] eqn:Eh; [|done].
    apply head_of_Some in Eh as (t & Hj & ->).
    destruct i as [| | | | | | |id jobID| | |]; try done.
    destruct (watchNode jobID input job) as [outs [out|]]; injection Hs as <-.
    + pose proof (answer_inv j (IWatch id jobID) t (completeNode id out) s (forward id jobID outs)
        Hi Hj) as Ha.
      apply Ha; [apply forward_sched|done|by repeat constructor].
    + destruct (forward_sched id jobID outs s) as (Eg & Em & Er & Et & Es).
      apply (quiet_inv s); [done|apply quiet_same; by rewrite ?Es|done].
  - destruct (head_of j s) as [[i s1]|] eqn:Eh; [|done].
    apply head_of_Some in Eh as (t & Hj & ->).
    destruct i; try done. injection Hs as <-.
    pose proof (answer_inv j (ISubTask id) t (completeNode id out) s (fun s => s) Hi Hj) as Ha.
    apply Ha; [done|done|by repeat constructor].
  - simplify_eq. apply (quiet_inv s); [done| |];
      unfold decide_approval; destruct (approvals s !! id) as [[?|]|]; simpl; first [done|by apply quiet_same].
  - destruct (head_of j s) as [[i s1]|] eqn:Eh; [|done].
    apply head_of_Some in Eh as (t & Hj & ->). destruct i as [| | | | | | | | |id|]; try done.
    pose proof (head_instr_ok _ _ _ _ Hi Hj) as Hok. simpl in Hok.
    destruct (approvals s !! id) as [[b|]|]; try done. injection Hs as <-.
    pose proof (answer_inv j (IAwaitApproval id) t
             (if b then [IDispatch id; IForgetApproval id] else reject id "approval rejected" true) s
             (fun s => s <| approvals ::= <[(id : NodeID) := None]> |>) Hi Hj) as Ha.
    simpl in Ha. apply Ha; [done| |]; destruct b; try apply (reject_ok (graph s)); try done.
    repeat first [apply Forall_nil_2|apply Forall_cons_2]; done.
  - destruct (head_of j s) as [[i s1]|] eqn:Eh; [|done].
    apply head_of_Some in Eh as (t & Hj & ->). destruct i as [| | | | | | | | |id|]; try done.
    destruct (Nodes (graph s) !! id) as [node|]; [|done].
    destruct (0 <? ApprovalTimeout node)%Z; [|done]. simplify_eq.
    by eapply (answer_inv j _ t _ s (fun s => s)); [|exact Hj| |apply (reject_ok (graph s))|apply reject_ok].
  - destruct (head_of j s) as [[i s1]|] eqn:Eh; [|done].
    apply head_of_Some in Eh as (t & Hj & ->). destruct i as [| | | | | | | | |id|]; try done.
    simplify_eq.
    by eapply (answer_inv j _ t _ s (fun s => s)); [|exact Hj| |apply (reject_ok (graph s))|apply reject_ok].
  - destruct (head_of j s) as [[i s1]|] eqn:Eh; [|done].
    apply head_of_Some in Eh as (t & Hj & ->). destruct i; try done. simplify_eq.
    eapply (answer_inv j _ t _ s (fun s => s)); [done|exact Hj|done|by destruct cancelled|].
    destruct cancelled; repeat first [apply Forall_nil_2|apply Forall_cons_2]; done.
  - destruct (events s) as [|e es]; [done|]. simplify_eq.
    apply (quiet_inv s); [done|by apply quiet_same|done].
  - unfold main_loop in Hs. destruct (_ || _); [done|]. destruct (_ <? events_capacity); [|done].
    simplify_eq. set (s1 := emit _ (emitProgress s)).
    apply (quiet_inv s1); [|by apply quiet_same|done].
    apply (quiet_inv s); [done| |].
    + etrans; [apply quiet_emitProgress|apply quiet_emit].
    + unfold s1. rewrite running_emit. apply running_emit.
  - unfold cancel_run in Hs. destruct (finished s); [done|]. destruct sent.
    + destruct (_ <? events_capacity); [|done]. injection Hs as <-.
      apply (quiet_inv (emit (all_done_event err "") s)); [|by apply quiet_same|done].
      apply (quiet_inv s); [done|apply quiet_emit|apply running_emit].
    + injection Hs as <-. apply (quiet_inv s); [done|by apply quiet_same|done].
Qed.

Lemma preload_inactive cached m :
  (forall id, ~ active (Get id m)) -> forall id, ~ active (Get id (PreloadResults cached m)).
Proof.
  unfold PreloadResults. revert m. induction cached as [|[k r] cached IH]; intros m Hm; simpl; [done|].
  apply IH. destruct (states m !! k) eqn:E; [|done]. intros id.
  unfold Get. cbn [states SetResult set_field]. rewrite lookup_set_state.
  destruct (decide (k = id)); [by intros [?|?]|apply Hm].
Qed.

Lemma announce_cached_quiet {W} (s : Scheduler W) :
  quiet s (announce_cached s) /\ running (announce_cached s) = running s.
Proof.
  unfold announce_cached. generalize (NodeIDs (graph s)) as ids. intros ids. revert s.
  induction ids as [|id ids IH]; intros s; simpl; [done|].
  match goal with |- quiet s (fold_left ?f ids ?s1) /\ _ =>
    assert (Hs1 : quiet s s1 /\ running s1 = running s) end.
  { destruct (decide _); [done|]. destruct (decide _); [done|].
    destruct (Nodes (graph s) !! id) as [node|]; [|done]. split.
    - pose proof (quiet_exec_acts (mark_edges id EdgeTaken s) s (mark_edges_ok _ _ _ s)) as Hq.
      etrans; [exact Hq|apply quiet_emit].
    - by rewrite running_emit, running_exec_acts. }
  destruct Hs1 as [Hq Hr].
  match goal with |- quiet s (fold_left ?f ids ?s1) /\ _ => destruct (IH s1) as [Hq' Hr'] end.
  split; [by etrans|by rewrite <- Hr].
Qed.

Lemma start_inv {W} `{JobQueue W} order g p o meta os (s : Scheduler W) :
  start order (NewScheduler g p o meta os) = Some s -> sched_inv s.
Proof.
  set (s0 := NewScheduler g p o meta os).
  assert (H0 : running s0 = 0%Z /\ threads s0 = [] /\ (0 <= maxParallel s0)%Z /\
    forall id, ~ active (Get id (sm s0))).
  { unfold s0, NewScheduler.
    assert (Hop : forall os (s : Scheduler W),
      running s = 0%Z /\ threads s = [] /\ (0 <= maxParallel s)%Z /\ (forall id, ~ active (Get id (sm s))) ->
      let s' := fold_left (fun s o => apply_option o s) os s in
      running s' = 0%Z /\ threads s' = [] /\ (0 <= maxParallel s')%Z /\
      forall id, ~ active (Get id (sm s'))).
    { induction os0 as [|op os0 IH]; intros s1 Hs1; simpl; [done|]. apply IH.
      destruct op as [n|b]; simpl; [|exact Hs1].
      destruct (Z.ltb_spec 0 n); simpl; [|exact Hs1].
      destruct (n <=? _)%Z; simpl; [|exact Hs1].
      destruct Hs1 as (? & ? & ? & ?). split_and!; [done|done|lia|done]. }
    apply Hop. simpl. split_and!; [done|done|done|]. intros id. unfold Get. simpl.
    rewrite lookup_fmap. destruct (Nodes g !! id); simpl; by intros [?|?]. }
  destruct H0 as (Hr0 & Ht0 & Hm0 & Ha0). generalize dependent s0. intros s0 Hr0 Ht0 Hm0 Ha0.
  assert (Hbase : forall s1, running s1 = 0%Z -> threads s1 = [] -> (0 <= maxParallel s1)%Z ->
    (forall id, ~ active (Get id (sm s1))) -> @sched_inv W s1).
  { intros s1 Hr Ht Hm Ha. split.
    - unfold counted. by rewrite Hr, Ht.
    - unfold threads_ok. rewrite Ht. by constructor.
    - intros _. lia.
    - intros _ id node _ Hact. by destruct (Ha id). }
  unfold start. destruct (Validate order (graph s0)) as [[g'|e]|]; [| |done]; intros; simplify_eq.
  - set (s1 := s0 <| graph := g' |>).
    assert (Hs1 : sched_inv (preload s1)).
    { unfold preload. destruct (ResumeFrom (opts s1)) as [|c cs]; [by apply Hbase|].
      set (s2 := s1 <| sm ::= PreloadResults (c :: cs) |>).
      destruct (announce_cached_quiet s2) as [Hq Hr].
      apply (quiet_inv s2); [|done|done]. apply Hbase; try done. by apply preload_inactive. }
    pose proof (enqueueReady_pass (preload s1)) as [G M S T L R A N]. split.
    + unfold counted. pose proof (si_counted _ Hs1) as Hc. unfold counted in Hc. lia.
    + apply T, Hs1.
    + rewrite G, M. intros Hna. apply R. by apply (si_bound _ Hs1).
    + apply (deps_pass (preload s1)); [done|done|done|apply Hs1].
  - destruct (emit_sched (all_done_event (graph_error_text e) "graph validation failed") s0)
      as (Es & Eg & Er & Et & Em).
    apply Hbase; simpl; rewrite ?Er, ?Et, ?Em, ?Es; done.
Qed.

(** ** What a run keeps *)

Lemma head_graph {W} `{JobQueue W} j i t (s : Scheduler W) s2 more :
  sched_inv s -> threads s !! j = Some (i :: t) ->
  exec_instr i (s <| threads ::= <[j := t]> |>) = Some (s2, more) ->
  graph s2 = graph s /\ maxParallel s2 = maxParallel s.
Proof.
  intros Hi Hj. set (s1 := s <| threads ::= <[j := t]> |>).
  change (graph s) with (graph s1). change (maxParallel s) with (maxParallel s1).
  pose proof (head_instr_ok _ _ _ _ Hi Hj) as Hok. change (graph s) with (graph s1) in Hok.
  generalize dependent s1. intros s1 Hok.
  assert (Hq : forall s2, quiet s1 s2 -> graph s2 = graph s1 /\ maxParallel s2 = maxParallel s1).
  { intros ? Hq. split; apply Hq. }
  destruct i as [a| |id out| | |id|id|id job|id|id|]; simpl; intros He; try done; simplify_eq; try done.
  - by apply Hq, quiet_exec_act.
  - destruct (Nodes (graph s1) !! id) as [node|] eqn:Hn; [|by simplify_eq].
    destruct out as [r|e].
    + destruct (handleNodeSuccess id node r s1) as [s3 acts] eqn:Eh. simplify_eq.
      apply Hq. by eapply handleNodeSuccess_spec.
    + destruct (handleNodeFailure id node e s1) as [s3 acts] eqn:Eh. simplify_eq.
      apply Hq. by eapply handleNodeFailure_spec.
  - apply Hq, quiet_emitProgress.
  - split; apply enqueueReady_pass.
  - destruct Hok as (node & Hn & _). rewrite Hn in He. simplify_eq. by apply Hq, quiet_dispatchNode.
Qed.

Lemma step_graph {W} `{JobQueue W} c (s s' : Scheduler W) :
  sched_inv s -> step_fn c s = Some s' -> graph s' = graph s /\ maxParallel s' = maxParallel s.
Proof.
  intros Hi. unfold step_fn, main_loop, cancel_run. intros Hs.
  destruct c as [j|j input job|j out|id b|j|j|j err|j cancelled| | |err sent];
    try (destruct (head_of j s) as [[i s1]|] eqn:Eh; [|done];
         apply head_of_Some in Eh as (t & Hj & ->)).
  - destruct (exec_instr i _) as [[s2 more]|] eqn:Ee; [|done]. injection Hs as <-.
    by destruct (head_graph _ _ _ _ _ _ Hi Hj Ee).
  - destruct i as [| | | | | | |id jobID| | |]; try done.
    destruct (watchNode jobID input job) as [outs [out|]]; injection Hs as <-.
    + by destruct (forward_sched id jobID outs (s <| threads ::= <[j := t]> |>)) as (? & ? & _).
    + by destruct (forward_sched id jobID outs s) as (? & ? & _).
  - destruct i; try done. by injection Hs as <-.
  - injection Hs as <-. unfold decide_approval. by destruct (approvals s !! id) as [[?|]|].
  - destruct i as [| | | | | | | | |id|]; try done.
    destruct (approvals s !! id) as [[b|]|]; try done. by injection Hs as <-.
  - destruct i as [| | | | | | | | |id|]; try done. destruct (Nodes (graph s) !! id); [|done].
    destruct (_ <? _)%Z; [|done]. by injection Hs as <-.
  - destruct i; try done. by injection Hs as <-.
  - destruct i; try done. by injection Hs as <-.
  - destruct (events s); [done|]. by injection Hs as <-.
  - destruct (_ || _); [done|]. destruct (_ <? _); [|done]. injection Hs as <-. simpl.
    set (s1 := emitProgress s).
    destruct (emit_sched (all_done_event (summaryError s1) "") s1) as (_ & -> & _ & _ & ->).
    unfold s1, emitProgress. by destruct (emit_sched (W:=W) (mkSchedulerEvent EventPhaseProgress "" "" "" "" ""
      (CountByState StateDone (sm s) + CountByState StateFailed (sm s) + CountByState StateSkipped (sm s))
      (NodeCount (graph s))) s) as (_ & -> & _ & _ & ->).
  - destruct (finished s); [done|]. destruct sent.
    + destruct (_ <? _); [|done]. injection Hs as <-. simpl.
      by destruct (emit_sched (all_done_event err "") s) as (_ & -> & _ & _ & ->).
    + by injection Hs as <-.
Qed.

Lemma NewScheduler_max {W} g (p : W) o meta os :
  (1 <= maxParallel (NewScheduler g p o meta os) <= DefaultMaxParallel)%Z /\
  graph (NewScheduler g p o meta os) = g.
Proof.
  unfold NewScheduler. set (s0 := mkScheduler _ _ _ _ _ _ _ _ _ _ _ _ _ _ _).
  assert (H0 : (1 <= maxParallel s0 <= DefaultMaxParallel)%Z /\ graph s0 = g)
    by (simpl; unfold DefaultMaxParallel; split; [lia|done]).
  generalize dependent s0. induction os as [|op os IH]; intros s0 H0; simpl; [done|]. apply IH.
  destruct op as [n|b]; simpl; [|done]. destruct (Z.ltb_spec 0 n); simpl; [|done].
  destruct (Z.leb_spec n DefaultMaxParallel); simpl; [|done]. split; [lia|apply H0].
Qed.

(** A reachable state satisfies the invariant, on the graph's nodes and with
    the chosen bound. *)
Lemma reachable_run {W} `{JobQueue W} order g p o meta os (s : Scheduler W) :
  let s0 := NewScheduler g p o meta os in
  sched_reachable order s0 s ->
  sched_inv s /\ Nodes (graph s) = Nodes g /\ maxParallel s = maxParallel s0.
Proof.
  intros s0 (s1 & Hs1 & Hr). pose proof (start_inv _ _ _ _ _ _ _ Hs1) as Hi.
  assert (Hb : Nodes (graph s1) = Nodes g /\ maxParallel s1 = maxParallel s0).
  { unfold start in Hs1. fold s0 in Hs1.
    assert (Hg0 : graph s0 = g) by apply NewScheduler_max. rewrite Hg0 in Hs1.
    destruct (Validate order g) as [[g'|e]|] eqn:HV; [| |done]; injection Hs1 as <-.
    - apply Validate_Nodes in HV. rewrite <- HV.
      set (s2 := s0 <| graph := g' |>).
      assert (Hp : graph (preload s2) = g' /\ maxParallel (preload s2) = maxParallel s0).
      { unfold preload. destruct (ResumeFrom _) as [|c cs]; [done|].
        destruct (announce_cached_quiet (s2 <| sm ::= PreloadResults (c :: cs) |>)) as [Hq _].
        by rewrite (q_graph _ _ Hq), (q_max _ _ Hq). }
      destruct Hp as [Hpg Hpm]. pose proof (enqueueReady_pass (preload s2)) as Hp.
      split; [transitivity (Nodes (graph (preload s2))); [apply f_equal, (p_graph _ _ Hp)|by rewrite Hpg]
             |etrans; [apply (p_max _ _ Hp)|done]].
    - destruct (emit_sched (all_done_event (graph_error_text e) "graph validation failed") s0)
        as (_ & Eg & _ & _ & Em). simpl. by rewrite Eg, Em, Hg0. }
  clear Hs1. induction Hr as [s1|s1 s2 s3 [c s1' s2' Hstep] _ IH]; [done|].
  destruct (step_graph _ _ _ Hi Hstep) as [Hg Hm]. apply IH; [by eapply step_inv|].
  by rewrite Hg, Hm.
Qed.

Lemma run_choices_rtc {W} `{JobQueue W} cs (s s' : Scheduler W) :
  run_choices cs s = Some s' -> rtc sched_step s s'.
Proof.
  revert s. induction cs as [|c cs IH]; intros s Hr; simpl in Hr; [by simplify_eq|].
  destruct (step_fn c s) as [s1|] eqn:E; [|done]. eapply rtc_l; [by econstructor|by apply IH].
Qed.

(** ** A queue to run on *)

(** A pool that accepts every job and numbers them. *)
#[export] Instance counting_queue : JobQueue nat :=
  {| submit := fun _ _ _ n => (S n, Ok ("job-" +:+ pretty (S n))) |}.

Definition plain_opts : JobOpts := {| WorktreeID := "w"; WorkDir := "/w"; Environment := None; ResumeFrom := [] |}.

(** A run of a graph from the start: the choices [cs] in order. *)
Definition run_from (order : nat -> list NodeID) (g : Graph) (meta : go_map string)
    (os : list SchedOption) (cs : list choice) : option (Scheduler nat) :=
  match start order (NewScheduler g 0 plain_opts meta os) with
  | Some s => run_choices cs s
  | None => None
  end.

Lemma run_from_reachable order g meta os cs s :
  run_from order g meta os cs = Some s ->
  sched_reachable order (NewScheduler g 0 plain_opts meta os) s.
Proof.
  unfold run_from. destruct (start _ _) as [s1|] eqn:E; [|done]. intros Hr.
  exists s1. split; [done|]. by eapply run_choices_rtc.
Qed.

(** The steps by which goroutine [j] completes a node after its job ended. *)
Definition complete_steps (j : nat) : list choice := replicate 4 (CExec j).

(** A graph with one edge and its run up to the moment the second node runs. *)
Definition ab_order : nat -> list NodeID := fun _ => ["b"; "a"].

Definition ab_choices : list choice :=
  [CWatch 0 WCompleted (Some (mkJobView false "" "done"))] ++ complete_steps 0 ++
  replicate 4 (CExec 0).

(** ** Properties *)


Lemma two_nodes_plain da db id n :
  Nodes (two_nodes da db) !! id = Some n ->
  RequiresApproval n = false /\ MaxIterations n = 0%Z /\ Strategy n = ErrorFail.
Proof.
  intros Hn. cbn [Nodes two_nodes] in Hn.
  apply lookup_insert_Some in Hn as [[<- <-]|[_ Hn]]; [done|].
  by apply lookup_singleton_Some in Hn as [<- <-].
Qed.


(** C13: No node starts early: in a graph without iterations and retries, in
    every state a run can reach, a node that is queued or running has each
    dependency done, skipped, or failed with that node as its fail branch. *)
Theorem running_deps_finished {W} `{JobQueue W} order g (p : W) o meta os (s : Scheduler W)
    (id : NodeID) (node : Node) (dep : NodeID) (st : NodeState) :
  no_repeat g ->
  sched_reachable order (NewScheduler g p o meta os) s ->
  Nodes g !! id = Some node ->
  (Get id (sm s) = Some StateQueued \/ Get id (sm s) = Some StateRunning) ->
  dep ∈ DependsOn node -> Get dep (sm s) = Some st ->
  st = StateDone \/ st = StateSkipped \/
  (st = StateFailed /\ default "" (sm_failEdges (sm s) !! dep) = ID node).
Proof.
  intros Hnr Hr Hn Hact Hdep Hst. destruct (reachable_run _ _ _ _ _ _ _ Hr) as (Hi & Hg & _).
  assert (Hd : DependenciesSatisfied node (sm s) = true).
  { apply (si_deps _ Hi) with id; [|by rewrite Hg|exact Hact]. intros k n. rewrite Hg. apply Hnr. }
  by apply (proj1 (DependenciesSatisfied_spec node (sm s)) Hd dep).
Qed.

Lemma running_deps_finished_witness :
  exists s, run_from ab_order (two_nodes ["b"] []) None [] ab_choices = Some s /\
    Get "a" (sm s) = Some StateRunning /\ Get "b" (sm s) = Some StateDone.
Proof.
  destruct (run_from ab_order (two_nodes ["b"] []) None [] ab_choices) as [s|] eqn:E;
    [|by vm_compute in E].
  assert (Hs : (fun s => (Get "a" (sm s), Get "b" (sm s))) <$>
    run_from ab_order (two_nodes ["b"] []) None [] ab_choices = Some (Some StateRunning, Some StateDone))
    by by_eval.
  rewrite E in Hs. injection Hs as Ha Hb. exists s. split; [done|]. split; [done|].
  apply run_from_reachable in E.
  destruct (running_deps_finished ab_order (two_nodes ["b"] []) 0 plain_opts None [] s "a"
    (simple_node "a" "A" "implement" "p" <| DependsOn := ["b"] |>) "b" StateDone)
    as [_|[Hx|[Hx _]]]; [|exact E|by eexists|by right|by left|exact Hb|exact Hb|by simplify_eq|by simplify_eq].
  intros id n Hn Hrep. apply two_nodes_plain in Hn as (_ & Hm & Hs). destruct Hrep as [Hrep|Hrep].
  - rewrite Hm in Hrep. lia.
  - by rewrite Hs in Hrep.
Defined.
