(* ===== verification/SchedulerProgress.v ===== *)
(** * Progress of the graph scheduler

    What one pass of [enqueueReady] achieves, what the error of a finished run
    says, and the runs in which the scheduler does not do what it means to:
    each is a concrete run of the steps of SchedulerRun.v. *)

From S2P Require Import Prelude Graph NodeStates Scheduler SchedulerRun.

(** ** One pass moves a node *)

Definition pending {W} (s : Scheduler W) (id : NodeID) : Prop := Get id (sm s) = Some StatePending.

Lemma emit_sm {W} e (s : Scheduler W) : sm (emit e s) = sm s.
Proof. apply emit_sched. Qed.

(** Marking edges leaves the node states. *)
Lemma mark_edges_states {W} id st (s s0 : Scheduler W) :
  states (sm (exec_acts (mark_edges id st s0) s)) = states (sm s).
Proof.
  unfold mark_edges, exec_acts. generalize (Dependents id (graph s0)) as l. intros l. revert s.
  induction l as [|d l IH]; intros s; simpl; [done|]. by rewrite IH.
Qed.

Lemma Get_states m m' k : states m = states m' -> Get k m = Get k m'.
Proof. unfold Get. by intros ->. Qed.

Lemma transition_pending id to m :
  Get id m = Some StatePending -> validTransition StatePending to = true ->
  Transition_ id to m = (set_state id to m, Ok tt).
Proof. unfold Get, Transition_. by intros -> ->. Qed.

Lemma skip_states {W} id node (s : Scheduler W) k :
  pending s id ->
  Get k (sm (skipNodeAndPropagate id node s)) =
  if decide (id = k) then Some StateSkipped else Get k (sm s).
Proof.
  intros Hp. unfold skipNodeAndPropagate. rewrite (transition_pending id StateSkipped) by done.
  rewrite emit_sm. erewrite Get_states by apply mark_edges_states. apply lookup_set_state.
Qed.

(** One round of the first loop: another node is left as it is, and a pending
    node that is ready becomes a candidate or stops being pending. *)
Lemma classify_other {W} (acc : Scheduler W * list NodeID) id k :
  k <> id -> Get k (sm (classify acc id).1) = Get k (sm acc.1).
Proof.
  intros Hk. destruct acc as [s cands]. unfold classify. simpl.
  destruct (decide (Get id (sm s) <> Some StatePending)) as [|Hp]; [done|]. apply dec_stable in Hp.
  destruct (Nodes (graph s) !! id) as [node|]; [|done]. destruct (negb _); [done|].
  destruct (Frozen node && _).
  - rewrite (transition_pending id StateDone) by done. simpl. rewrite emit_sm. unfold Get. simpl.
    apply lookup_insert_ne. congruence.
  - assert (Hs : Get k (sm (skipNodeAndPropagate id node s)) = Get k (sm s)).
    { rewrite skip_states by done. destruct (decide (id = k)); congruence. }
    destruct (AllIncomingEdgesSkipped _ _); [done|].
    by destruct (match Condition node with Some _ => _ | None => _ end).
Qed.

Lemma classify_cands {W} (acc : Scheduler W * list NodeID) id k :
  k ∈ acc.2 -> k ∈ (classify acc id).2.
Proof.
  destruct acc as [s cands]. unfold classify. simpl. intros Hk.
  destruct (decide _); [done|]. destruct (Nodes (graph s) !! id) as [node|]; [|done].
  destruct (negb _); [done|]. destruct (Frozen node && _).
  - by destruct (Transition_ _ _ _) as [m [[]|e]].
  - destruct (AllIncomingEdgesSkipped _ _); [done|].
    destruct (match Condition node with Some _ => _ | None => _ end); [done|]. apply elem_of_app. by left.
Qed.

Lemma classify_new {W} (acc : Scheduler W * list NodeID) id k :
  k ∈ (classify acc id).2 -> k ∈ acc.2 \/ k = id /\ pending (classify acc id).1 id.
Proof.
  destruct acc as [s cands]. unfold classify, pending. simpl. intros Hk.
  destruct (decide (Get id (sm s) <> Some StatePending)) as [|Hp]; [by left|]. apply dec_stable in Hp.
  destruct (Nodes (graph s) !! id) as [node|]; [|by left].
  destruct (negb _); [by left|]. destruct (Frozen node && _).
  - left. by destruct (Transition_ _ _ _) as [m [[]|e]].
  - destruct (AllIncomingEdgesSkipped _ _); [by left|].
    destruct (match Condition node with Some _ => _ | None => _ end); [by left|].
    simpl in *. rewrite elem_of_app, list_elem_of_singleton in Hk. destruct Hk; auto.
Qed.

Lemma classify_ready {W} (acc : Scheduler W * list NodeID) id node :
  pending acc.1 id -> Nodes (graph acc.1) !! id = Some node ->
  DependenciesSatisfied node (sm acc.1) = true ->
  ~ pending (classify acc id).1 id \/ id ∈ (classify acc id).2.
Proof.
  destruct acc as [s cands]. unfold classify, pending. simpl. intros Hp Hn Hd.
  destruct (decide _) as [Hx|_]; [done|]. rewrite Hn, Hd. simpl. destruct (Frozen node && _).
  - left. rewrite (transition_pending id StateDone) by done. simpl. rewrite emit_sm. unfold Get. simpl.
    by rewrite lookup_insert_eq.
  - assert (Hs : Get id (sm (skipNodeAndPropagate id node s)) = Some StateSkipped).
    { rewrite skip_states by done. by destruct (decide (id = id)). }
    destruct (AllIncomingEdgesSkipped _ _); [left; simpl; congruence|].
    destruct (match Condition node with Some _ => _ | None => _ end); [left; simpl; congruence|].
    right. simpl. apply elem_of_app. right. by apply list_elem_of_singleton.
Qed.

(** The whole first loop. *)
Lemma fold_classify_pending {W} ids (acc : Scheduler W * list NodeID) :
  NoDup ids -> (forall k, k ∈ acc.2 -> pending acc.1 k /\ k ∉ ids) ->
  forall k, k ∈ (fold_left classify ids acc).2 -> pending (fold_left classify ids acc).1 k.
Proof.
  revert acc. induction ids as [|id ids IH]; intros acc Hnd Hacc; simpl.
  - intros k Hk. by apply Hacc.
  - apply NoDup_cons in Hnd as [Hid Hnd]. apply IH; [done|]. intros k Hk.
    destruct (classify_new acc id k Hk) as [Hold|[-> Hp]]; [|done].
    destruct (Hacc k Hold) as [Hp Hni]. apply not_elem_of_cons in Hni as [Hne Hni].
    split; [|done]. unfold pending. by rewrite classify_other.
Qed.

Lemma fold_classify_ready {W} ids (acc : Scheduler W * list NodeID) k node :
  no_repeat (graph acc.1) -> k ∈ ids -> pending acc.1 k ->
  Nodes (graph acc.1) !! k = Some node -> DependenciesSatisfied node (sm acc.1) = true ->
  ~ pending (fold_left classify ids acc).1 k \/ k ∈ (fold_left classify ids acc).2.
Proof.
  revert acc. induction ids as [|id ids IH]; intros acc Hnr Hin Hp Hn Hd; simpl;
    [by apply not_elem_of_nil in Hin|].
  pose proof (quiet_classify acc id) as Hq. pose proof (q_graph _ _ Hq) as Hg.
  pose proof (quiet_fold_classify ids (classify acc id)) as Hq'.
  destruct (decide (k = id)) as [->|Hne].
  - destruct (classify_ready acc id node Hp Hn Hd) as [Hnp|Hc].
    + left. intros Hpk. apply Hnp, (sl_pending _ _ (q_sm _ _ Hq' ltac:(by rewrite Hg))), Hpk.
    + right. clear -Hc. generalize dependent (classify acc id). induction ids as [|x ids IH]; intros a Ha;
        [done|]. simpl. apply IH, classify_cands, Ha.
  - apply IH; [by rewrite Hg| |unfold pending; by rewrite classify_other|by rewrite Hg|].
    + apply elem_of_cons in Hin as [|]; [done|done].
    + eapply DependenciesSatisfied_mono; [by apply (q_sm _ _ Hq)|done].
Qed.

(** Dispatching a pending node leaves it no longer pending. *)
Lemma dispatch_candidate_moves {W} `{JobQueue W} id (s : Scheduler W) :
  no_repeat (graph s) -> pending s id -> is_Some (Nodes (graph s) !! id) ->
  ~ pending (dispatch_candidate id s) id.
Proof.
  intros Hnr Hp [node Hn] Hp'. revert Hp'. unfold dispatch_candidate, pending.
  rewrite Hn, (transition_pending id StateQueued) by done. cbv zeta.
  set (s1 := emit _ _).
  assert (Hm : sm s1 = set_state id StateQueued (sm s)) by (unfold s1; by rewrite emit_sm).
  assert (Hg : graph s1 = graph s).
  { unfold s1. by destruct (emit_sched (node_event EventNodeQueued id node)
      (s <| sm := set_state id StateQueued (sm s) |>)) as (_ & -> & _). }
  intros Hp'.
  assert (Hq : quiet s1 (if RequiresApproval node then waitForApproval id node s1
                         else dispatchNode id node s1)).
  { destruct (RequiresApproval node) eqn:Ea; [apply quiet_waitForApproval|apply quiet_dispatchNode];
      by rewrite ?Hg. }
  assert (Hnr1 : no_repeat (graph s1)) by (by rewrite Hg).
  apply (sl_pending _ _ (q_sm _ _ Hq Hnr1)) in Hp'. rewrite Hm, lookup_set_state in Hp'.
  by destruct (decide (id = id)).
Qed.

Lemma NodeIDs_NoDup g : NoDup (NodeIDs g).
Proof.
  unfold NodeIDs, sort_strings. rewrite merge_sort_Permutation. apply NoDup_fst_map_to_list.
Qed.

(** A pass with a free slot moves a node that is ready. *)
Lemma enqueueReady_moves {W} `{JobQueue W} (s : Scheduler W) k node :
  no_repeat (graph s) -> (running s < maxParallel s)%Z ->
  pending s k -> Nodes (graph s) !! k = Some node -> DependenciesSatisfied node (sm s) = true ->
  exists id, pending s id /\ ~ pending (enqueueReady s) id.
Proof.
  intros Hnr Hrun Hp Hn Hd. unfold enqueueReady.
  pose proof (quiet_fold_classify (NodeIDs (graph s)) (s, [])) as Hq.
  pose proof (running_fold_classify (NodeIDs (graph s)) (s, [])) as Hr.
  assert (Hk : k ∈ NodeIDs (graph s)) by (apply elem_of_NodeIDs; by eexists).
  pose proof (fold_classify_ready (NodeIDs (graph s)) (s, []) k node Hnr Hk Hp Hn Hd) as Hready.
  pose proof (fold_classify_pending (NodeIDs (graph s)) (s, []) (NodeIDs_NoDup _)) as Hcp.
  pose proof (fold_classify_candidates (NodeIDs (graph s)) (s, [])) as Hst.
  destruct (fold_left classify _ _) as [s1 cands]. simpl in *.
  assert (Hcp' : forall j, j ∈ cands -> pending s1 j) by (apply Hcp; by intros j ?%not_elem_of_nil).
  assert (Hst' : forall j, j ∈ cands -> startable s1 j) by (apply Hst; by intros j ?%not_elem_of_nil).
  clear Hcp Hst. pose proof (q_graph _ _ Hq) as Hg. pose proof (q_max _ _ Hq) as Hmax. simpl in Hg, Hmax.
  assert (Hnr1 : no_repeat (graph s1)) by (by rewrite Hg).
  assert (Hsort : forall j, j ∈ sort_candidates (graph s1) cands <-> j ∈ cands).
  { intros j. unfold sort_candidates. by rewrite merge_sort_Permutation. }
  assert (Hback : forall j, pending s1 j -> pending s j).
  { intros j. apply (sl_pending _ _ (q_sm _ _ Hq Hnr)). }
  destruct (sort_candidates (graph s1) cands) as [|h l] eqn:Es.
  - simpl. destruct Hready as [Hnp|Hc]; [by exists k|].
    apply Hsort, not_elem_of_nil in Hc. done.
  - assert (Hh : h ∈ cands) by (apply Hsort; by left).
    exists h. split; [by apply Hback, Hcp'|]. simpl.
    destruct (Z.leb_spec (maxParallel s1) (running s1)); [lia|].
    destruct (dispatch_candidate_spec h s1) as (Hg1 & _ & _ & _ & Hle & _).
    assert (Hpass : pass (dispatch_candidate h s1) (dispatch_candidates l (dispatch_candidate h s1))).
    { apply dispatch_candidates_pass. intros j Hj. eapply startable_mono; [done|done|].
      apply Hst', Hsort. by right. }
    intros Hp'. apply (sl_pending _ _ (p_sm _ _ Hpass ltac:(by rewrite Hg1))) in Hp'.
    destruct (Hst' h Hh) as (nh & Hnh & _).
    apply (dispatch_candidate_moves h s1 Hnr1 (Hcp' h Hh)); [by eexists|exact Hp'].
Qed.

(** ** Idle schedulers *)

(** Every goroutine of the run but the main loop has ended. *)
Definition idle {W} (s : Scheduler W) : Prop := Forall (fun t => t = []) (threads s).

#[export] Instance idle_dec {W} (s : Scheduler W) : Decision (idle s).
Proof. unfold idle. apply _. Defined.

Lemma idle_head {W} j (s : Scheduler W) : idle s -> head_of j s = None.
Proof.
  unfold idle, head_of. rewrite Forall_lookup. intros Hi.
  destruct (threads s !! j) as [[|i t]|] eqn:E; [done| |done]. by apply Hi in E.
Qed.

Lemma emit_idle {W} e (s : Scheduler W) : idle s -> idle (emit e s).
Proof. unfold idle. by destruct (emit_sched e s) as (_ & _ & _ & -> & _). Qed.

Lemma idle_step {W} `{JobQueue W} c (s s' : Scheduler W) :
  idle s -> step_fn c s = Some s' -> idle s' /\ sm s' = sm s.
Proof.
  intros Hi. unfold step_fn, main_loop, cancel_run.
  destruct c as [j|j input job|j out|id b|j|j|j err|j cancelled| | |err sent];
    rewrite ?idle_head by done; intros Hs; try done.
  - injection Hs as <-. unfold decide_approval. by destruct (approvals s !! id) as [[?|]|].
  - destruct (events s); [done|]. by injection Hs as <-.
  - destruct (_ || _); [done|]. destruct (_ <? _); [|done]. injection Hs as <-. split.
    + apply (emit_idle (all_done_event _ "")), emit_idle, Hi.
    + simpl. rewrite emit_sm. apply emit_sm.
  - destruct (finished s); [done|]. destruct sent; [destruct (_ <? _); [|done]|]; injection Hs as <-.
    + split; [apply (emit_idle (all_done_event err "")), Hi|apply emit_sm].
    + done.
Qed.

(** An idle run changes no node any more, whatever happens to it. *)
Lemma idle_forever {W} `{JobQueue W} (s s' : Scheduler W) :
  idle s -> rtc sched_step s s' -> sm s' = sm s.
Proof.
  intros Hi Hr. induction Hr as [s|s s1 s' [c s0 s1' Hs] _ IH]; [done|].
  destruct (idle_step _ _ _ Hi Hs) as [Hi1 <-]. by apply IH.
Qed.

(** ** Properties *)

(** The ready queue makes progress: with a validated graph without
    iterations and retries, a free slot and no failed or active node, one pass
    of [enqueueReady] takes at least one pending node out of that state
    whenever there is one, and puts no node back. *)
Theorem enqueue_progress {W} `{JobQueue W} order g (s : Scheduler W) id0 :
  well_keyed g -> (forall i, is_order (order i) g) ->
  Validate order g = Some (Ok (graph s)) -> no_repeat g ->
  (forall id st, Get id (sm s) = Some st -> is_Some (Nodes g !! id) /\
     (st = StatePending \/ st = StateDone \/ st = StateSkipped)) ->
  (running s < maxParallel s)%Z -> pending s id0 ->
  (exists id, pending s id /\ ~ pending (enqueueReady s) id) /\
  (forall id, pending (enqueueReady s) id -> pending s id).
Proof.
  intros Hk Ho HV Hnr Hst Hrun Hp.
  destruct (Validate_result g order Hk Ho) as (r & Hr & Hok). rewrite HV in Hr. simplify_eq.
  assert (Hg : graph_ok g) by (by apply Hok).
  destruct (Validate_counts g (graph s) order Hk Ho (gok_refs _ Hg) (gok_acyclic _ Hg) HV)
    as (Hn & _ & Hlt).
  assert (Hnr' : no_repeat (graph s)) by (intros id n; rewrite Hn; apply Hnr).
  split.
  - set (f := fun id => TransitiveDepCount id (graph s)).
    destruct (exists_max f (filter (fun id => Get id (sm s) = Some StatePending) (NodeIDs (graph s))) id0)
      as (m & Hm & Hmax).
    { apply list_elem_of_filter. split; [done|]. apply elem_of_NodeIDs. rewrite Hn. by eapply Hst. }
    apply list_elem_of_filter in Hm as [Hpm Hm]. apply elem_of_NodeIDs in Hm as [node Hnode].
    apply (enqueueReady_moves s m node); [done|done|done|done|].
    apply DependenciesSatisfied_spec. intros dep st Hdep Hs.
    destruct (Hst dep st Hs) as [Hsome [-> |[?|?]]]; [exfalso|by left|by right; left].
    assert (Hd : depends g m dep) by (exists node; by rewrite <- Hn).
    assert (Hin : dep ∈ filter (fun id => Get id (sm s) = Some StatePending) (NodeIDs (graph s))).
    { apply list_elem_of_filter. split; [done|]. apply elem_of_NodeIDs. by rewrite Hn. }
    specialize (Hmax dep Hin). unfold f in Hmax. pose proof (Hlt m dep Hd). lia.
  - intros id. apply (sl_pending _ _ (p_sm _ _ (enqueueReady_pass s) Hnr')).
Qed.

Lemma enqueue_progress_witness :
  exists s : Scheduler nat, pending s "a" /\ pending s "b" /\
    exists id, pending s id /\ ~ pending (enqueueReady s) id.
Proof.
  destruct (Validate ab_order (two_nodes ["b"] [])) as [[g'|e]|] eqn:E;
    [|by vm_compute in E|by vm_compute in E].
  set (s := NewScheduler (two_nodes ["b"] []) 0 plain_opts None [] <| graph := g' |>).
  exists s. split; [by_eval|]. split; [by_eval|].
  refine (proj1 (enqueue_progress ab_order (two_nodes ["b"] []) s "a" _ _ _ _ _ _ _)).
  - apply two_nodes_keyed.
  - intros i. apply two_nodes_order.
  - exact E.
  - intros id n Hn Hrep. apply two_nodes_plain in Hn as (_ & Hm & Hs). destruct Hrep as [Hrep|Hrep].
    + rewrite Hm in Hrep. lia.
    + by rewrite Hs in Hrep.
  - intros id st Hid. unfold s, Get, NewScheduler, NewStateManager in Hid. simpl in Hid.
    rewrite lookup_fmap in Hid. unfold two_nodes. cbn [Nodes].
    destruct (_ !! id) eqn:En; simplify_eq/=. split; [by eexists|by left].
  - by_eval.
  - by_eval.
Defined.

(** The target of the node's fail branch is done. *)
Definition failure_handled {W} (s : Scheduler W) (id : NodeID) : Prop :=
  exists target, FailBranchTarget id (graph s) = Some target /\ Get target (sm s) = Some StateDone.

(** The error of a finished run tells the truth: [summaryError] is empty
    exactly when every failed node has a fail branch whose target is done. *)
Theorem summary_error_spec {W} (s : Scheduler W) :
  (forall id, is_Some (Get id (sm s)) -> is_Some (Nodes (graph s) !! id)) ->
  summaryError s = "" <->
  forall id, Get id (sm s) = Some StateFailed -> failure_handled s id.
Proof.
  intros Hdom. unfold failure_handled.
  assert (Hh : forall id, isFailHandled id s = true <->
    exists target, FailBranchTarget id (graph s) = Some target /\ Get target (sm s) = Some StateDone).
  { intros id. unfold isFailHandled. destruct (FailBranchTarget id (graph s)) as [t|].
    - rewrite bool_decide_eq_true. split; [by exists t|]. intros (t' & ? & ?). by simplify_eq.
    - split; [done|]. by intros (? & ? & ?). }
  assert (Hu : unhandled_failures s = [] <->
    forall id, Get id (sm s) = Some StateFailed -> isFailHandled id s = true).
  { unfold unhandled_failures. split.
    - intros Hnil id Hf. destruct (isFailHandled id s) eqn:Eh; [done|].
      assert (Hin : id ∈ @nil NodeID); [|by apply not_elem_of_nil in Hin].
      rewrite <- Hnil. apply list_elem_of_filter. split; [done|].
      apply elem_of_NodeIDs, Hdom. by eexists.
    - intros Hall. destruct (filter _ _) as [|id l] eqn:Ef; [done|].
      assert (Hin : id ∈ id :: l) by (by left). rewrite <- Ef in Hin.
      apply list_elem_of_filter in Hin as [[Hf Hn] _]. rewrite Hall in Hn by done. done. }
  transitivity (unhandled_failures s = []).
  - unfold summaryError. destruct (HasFailures (sm s)) eqn:Ehf; simpl.
    + by destruct (unhandled_failures s).
    + split; [|done]. intros _. apply Hu. intros id Hf.
      assert (Ht : HasFailures (sm s) = true) by (apply HasFailures_spec; by exists id). congruence.
  - rewrite Hu. split; intros Hall id Hf; apply Hh; by apply Hall.
Qed.

Lemma summary_error_spec_witness :
  exists s, run_from ab_order (two_nodes [] []) None []
      ([CWatch 0 (WFailed "boom") None] ++ replicate 6 (CExec 0)) = Some s /\
    Get "a" (sm s) = Some StateFailed /\ summaryError s <> "".
Proof.
  destruct (run_from ab_order (two_nodes [] []) None []
    ([CWatch 0 (WFailed "boom") None] ++ replicate 6 (CExec 0))) as [s|] eqn:E; [|by vm_compute in E].
  assert (Hs : (fun s => (Get "a" (sm s), FailBranchTarget "a" (graph s))) <$>
    run_from ab_order (two_nodes [] []) None []
      ([CWatch 0 (WFailed "boom") None] ++ replicate 6 (CExec 0)) = Some (Some StateFailed, None)) by by_eval.
  assert (Hd : (fun s => forallb (fun id => bool_decide (is_Some (Nodes (graph s) !! id)))
      (map_to_list (states (sm s))).*1) <$>
    run_from ab_order (two_nodes [] []) None []
      ([CWatch 0 (WFailed "boom") None] ++ replicate 6 (CExec 0)) = Some true) by by_eval.
  rewrite E in Hs, Hd. injection Hs as Ha Hf. injection Hd as Hd.
  exists s. split; [done|]. split; [done|]. intros He.
  assert (Hdom : forall id, is_Some (Get id (sm s)) -> is_Some (Nodes (graph s) !! id)).
  { intros id [st Hst]. rewrite forallb_forall in Hd. apply (bool_decide_eq_true_1 _), Hd.
    apply list_elem_of_In, list_elem_of_fmap. exists (id, st). split; [done|]. by apply elem_of_map_to_list. }
  destruct (proj1 (summary_error_spec s Hdom) He "a" Ha) as (t & Ht & _). by rewrite Hf in Ht.
Defined.

(** ** Runs that go wrong *)

(** A failure of the first node of the graph "a depends on b". *)
Definition fail_choices : list choice := [CWatch 0 (WFailed "boom") None] ++ replicate 8 (CExec 0).

(** A run evaluates to a state in which [P] holds. *)
Lemma run_with {A} (f : Scheduler nat -> A) (x : A) order g meta os cs (P : Scheduler nat -> Prop) :
  f <$> run_from order g meta os cs = Some x ->
  (forall s, run_from order g meta os cs = Some s -> f s = x -> P s) ->
  exists s, run_from order g meta os cs = Some s /\ P s.
Proof.
  destruct (run_from order g meta os cs) as [s|] eqn:E; intros Hf HP; [|done].
  injection Hf as Hf. exists s. split; [done|]. by apply HP.
Qed.

(** A plain failure strands the dependents: when a node without a fail
    branch fails, the scheduler is idle with the dependent still pending, and
    it stays so whatever happens, although the documentation of the error
    strategy promises to skip the dependents. *)
Theorem failed_node_strands_dependents :
  exists s, run_from ab_order (two_nodes ["b"] []) None [] fail_choices = Some s /\ idle s /\
    forall s', rtc sched_step s s' ->
      Get "b" (sm s') = Some StateFailed /\ Get "a" (sm s') = Some StatePending.
Proof.
  apply (run_with (fun s => (bool_decide (idle s), Get "b" (sm s), Get "a" (sm s)))
    (true, Some StateFailed, Some StatePending)); [by_eval|].
  intros s _ Hf. injection Hf as Hi Hb Ha. apply bool_decide_eq_true in Hi.
  split; [done|]. intros s' Hr. by rewrite (idle_forever s s' Hi Hr).
Qed.

(** The graph "a depends on b" where the condition of b is false. *)
Definition skipped_root : Graph :=
  mkGraph {[ "a" := simple_node "a" "A" "implement" "p" <| DependsOn := ["b"] |>;
             "b" := simple_node "b" "B" "implement" "p" <| Condition := Some (fun _ => false) |> ]} [] ∅ ∅.

(** A skipped root can hang the run: a pass that skips a node after it
    has looked at the dependent leaves the dependent pending, no goroutine is
    there to start another pass, and the run stays so; another pass would
    have skipped the dependent too. *)
Theorem skipped_root_hangs :
  exists s, run_from ab_order skipped_root None [] [] = Some s /\ idle s /\
    Get "a" (sm (enqueueReady s)) = Some StateSkipped /\
    forall s', rtc sched_step s s' -> Get "a" (sm s') = Some StatePending.
Proof.
  apply (run_with (fun s => (bool_decide (idle s), Get "a" (sm (enqueueReady s)), Get "a" (sm s)))
    (true, Some StateSkipped, Some StatePending)); [by_eval|].
  intros s _ Hf. injection Hf as Hi Hb Ha. apply bool_decide_eq_true in Hi.
  split; [done|]. split; [done|]. intros s' Hr. by rewrite (idle_forever s s' Hi Hr).
Qed.

(** One node behind an approval gate that is retried once. *)
Definition gated_retry : Graph :=
  mkGraph {[ "a" := simple_node "a" "A" "implement" "p" <| RequiresApproval := true |>
                      <| Strategy := ErrorRetryThenFail |> <| MaxRetries := 1%Z |> ]} [] ∅ ∅.

Definition reject_once : list choice :=
  [CApprove "a" false; CReceive 0] ++ replicate 8 (CExec 0).

(** A retry after a rejection loses its approval gate: the goroutine of
    the rejected gate opens the gate of the retry and then deletes its channel,
    so the node waits for a decision that neither [ApproveNode] nor
    [RejectNode] can deliver any more. *)
Theorem rejected_retry_loses_gate :
  exists s, run_from (fun _ => ["a"]) gated_retry None [] reject_once = Some s /\
    Get "a" (sm s) = Some StateQueued /\
    threads s = [[]; [IAwaitApproval "a"]] /\
    (ApproveNode "a" s).2 = false /\ (RejectNode "a" s).2 = false.
Proof.
  apply (run_with (fun s => (Get "a" (sm s), threads s, (ApproveNode "a" s).2, (RejectNode "a" s).2))
    (Some StateQueued, [[]; [IAwaitApproval "a"]], false, false)); [by_eval|].
  intros s _ Hf. by injection Hf as -> -> -> ->.
Qed.

(** Two nodes behind approval gates. *)
Definition gated_pair : Graph :=
  mkGraph {[ "a" := simple_node "a" "A" "implement" "p" <| RequiresApproval := true |>;
             "b" := simple_node "b" "B" "implement" "p" <| RequiresApproval := true |> ]} [] ∅ ∅.

(** Approvals get round the limit: with a maximum of one node, two
    approved gates have two nodes running, because an approved node is
    dispatched without a look at the count. *)
Theorem approvals_exceed_limit :
  exists s, run_from ab_order gated_pair None [WithMaxParallel 1]
      [CApprove "a" true; CApprove "b" true; CReceive 0; CReceive 1; CExec 0; CExec 1] = Some s /\
    maxParallel s = 1%Z /\ running s = 2%Z.
Proof.
  apply (run_with (fun s => (maxParallel s, running s)) (1%Z, 2%Z)); [by_eval|].
  intros s _ Hf. by injection Hf as -> ->.
Qed.

(** The metadata a job sees. *)
Definition metadata_of {W} (s : Scheduler W) (jobID : string) : go_map string :=
  match job_metadata s !! jobID with
  | Some MetaShared => opts_metadata s
  | Some (MetaOwn m) => Some m
  | None => None
  end.

Definition metadata_key {W} (s : Scheduler W) (jobID key : string) : option string :=
  match metadata_of s jobID with Some m => m !! key | None => None end.

(** The jobs of a run share one metadata map: when the caller puts a map
    in the options, every job holds that map, and the first job's
    [graph_node_id] names the node dispatched last. *)
Theorem job_metadata_overwritten :
  exists s, run_from ab_order (two_nodes [] []) (Some ∅) [] [] = Some s /\
    nodeJobs s !! "a" = Some "job-1" /\ nodeJobs s !! "b" = Some "job-2" /\
    metadata_of s "job-1" = metadata_of s "job-2" /\
    metadata_key s "job-1" "graph_node_id" = Some "b".
Proof.
  apply (run_with (fun s => (nodeJobs s !! "a", nodeJobs s !! "b", metadata_of s "job-1",
      metadata_of s "job-2", metadata_key s "job-1" "graph_node_id"))
    (Some "job-1", Some "job-2", Some (node_metadata "b" (simple_node "b" "B" "implement" "p") ∅),
     Some (node_metadata "b" (simple_node "b" "B" "implement" "p") ∅), Some "b")); [by_eval|].
  intros s _ Hf. by injection Hf as -> -> -> -> ->.
Qed.

(** The graph "a depends on b" with an unrelated node c, where b iterates. *)
Definition iterating : Graph :=
  mkGraph {[ "a" := simple_node "a" "A" "implement" "p" <| DependsOn := ["b"] |>;
             "b" := simple_node "b" "B" "implement" "p" <| MaxIterations := 2%Z |>
                      <| IterationCheckFn := Some (fun _ => true) |>;
             "c" := simple_node "c" "C" "implement" "p" ]} [] ∅ ∅.

Definition early_choices : list choice :=
  [CWatch 0 WCompleted (Some (mkJobView false "" "first"))] ++ replicate 4 (CExec 0) ++
  [CWatch 1 WCompleted (Some (mkJobView false "" "c"))] ++ replicate 7 (CExec 1) ++
  replicate 2 (CExec 0).

(** A dependent can start before its dependency has iterated: between the
    moment an iterating node is marked done and its reset, the pass of another
    goroutine sees it done and starts the dependent, which then runs while the
    dependency is pending again. *)
Theorem dependent_starts_between_iterations :
  exists s, run_from (fun _ => ["c"; "a"; "b"]) iterating None [] early_choices = Some s /\
    Get "a" (sm s) = Some StateRunning /\ Get "b" (sm s) = Some StatePending /\
    IterationCount "b" (sm s) = 1%Z.
Proof.
  apply (run_with (fun s => (Get "a" (sm s), Get "b" (sm s), IterationCount "b" (sm s)))
    (Some StateRunning, Some StatePending, 1%Z)); [by_eval|].
  intros s _ Hf. by injection Hf as -> -> ->.
Qed.
