(* ===== verification/Pool.v ===== *)
(** * The worker pool

    Translates [internal/worker/pool.go], pool_dispatch.go and pool_workers.go.
    Workers, jobs, metadata maps and channels are shared by pointer, so they
    live in heaps indexed by addresses; the maps of the pool hold addresses.
    The identifiers a fresh UUID gives, the clock and what agents answer are
    arguments. *)

From S2P Require Import Prelude.

(** ** Data *)

Inductive WorkerStatus := StatusAvailable | StatusWorking | StatusDisconnected.

#[export] Instance WorkerStatus_eq_dec : EqDecision WorkerStatus.
Proof. solve_decision. Defined.

Inductive JobStatus := JobStatusQueued | JobStatusInProgress | JobStatusDone | JobStatusFailed.

#[export] Instance JobStatus_eq_dec : EqDecision JobStatus.
Proof. solve_decision. Defined.

Definition JobTypeDryRun : string := "dry_run".

Definition EventJobCompleted : string := "job_completed".
Definition EventJobFailed : string := "job_failed".

(** A value of a [map[string]any]. *)
Inductive MetaValue := MString (s : string) | MBool (b : bool) | MOther (text : string).

#[export] Instance MetaValue_eq_dec : EqDecision MetaValue.
Proof. solve_decision. Defined.

Definition addr := nat.

Record Worker := mkWorker {
  w_ID : string;
  w_Status : WorkerStatus;
  w_CurrentJob : string;
  w_StartedAt : Time;
  w_AgentName : string;
  w_IsDefault : bool;
  w_Agent : option string
}.

#[export] Instance eta_Worker : Eta Worker := fun w =>
  mkWorker (w_ID w) (w_Status w) (w_CurrentJob w) (w_StartedAt w) (w_AgentName w) (w_IsDefault w)
    (w_Agent w).

Record Job := mkJob {
  j_ID : string;
  j_Type : string;
  j_WorktreeID : string;
  j_Prompt : string;
  j_Status : JobStatus;
  j_WorkerID : string;
  j_CreatedAt : Time;
  j_StartedAt : option Time;
  j_CompletedAt : option Time;
  j_Result : string;
  j_Error : string;
  j_WorkDir : string;
  j_Environment : go_map string;
  j_Metadata : option addr
}.

#[export] Instance eta_Job : Eta Job := fun j =>
  mkJob (j_ID j) (j_Type j) (j_WorktreeID j) (j_Prompt j) (j_Status j) (j_WorkerID j)
    (j_CreatedAt j) (j_StartedAt j) (j_CompletedAt j) (j_Result j) (j_Error j) (j_WorkDir j)
    (j_Environment j) (j_Metadata j).

(** [JobOptions]; the metadata map is the caller's, by address. *)
Record JobOptions := mkJobOptions {
  o_WorkDir : string;
  o_Environment : go_map string;
  o_Metadata : option addr;
  o_Agent : string
}.

Record Event := mkEvent {
  e_Type : string;
  e_JobID : string;
  e_Content : string;
  e_Data : go_map MetaValue;
  e_Timestamp : Time
}.

(** What [executeWithAgent] reads of an [agent.Event]. *)
Record AgentEvent := mkAgentEvent {
  a_Type : string;
  a_Content : string;
  a_Data : go_map MetaValue;
  a_Timestamp : Time;
  a_Error : string
}.

Definition EventStream : string := "stream".
Definition EventAssistant : string := "assistant".
Definition EventComplete : string := "complete".
Definition EventError : string := "error".

Record Chan := mkChan { ch_buf : list Event; ch_cap : nat; ch_closed : bool }.

#[export] Instance eta_Chan : Eta Chan := fun c => mkChan (ch_buf c) (ch_cap c) (ch_closed c).

(** The counters of [metrics.Global()] the pool raises. *)
Record Counters := mkCounters {
  submitted : nat;
  completed : nat;
  failed : nat;
  dropped : nat
}.

#[export] Instance eta_Counters : Eta Counters := fun c =>
  mkCounters (submitted c) (completed c) (failed c) (dropped c).

(** The local variables of the loop in [executeWithAgent]. *)
Record Accumulated := mkAcc {
  acc_result : string;
  acc_fallback : string;
  acc_stream : bool
}.

(** What a goroutine still has to do: a lock region, an event, or a wait.
    [ctx] is the context of the job. *)
Inductive pinstr :=
| PIDispatch
| PIRequeue (j : addr)
| PIPush (j : addr)
| PIEmit (jobID : string) (ev : Event)
| PICloseStream (jobID : string)
| PIDropCancel (jobID : string)
| PIMetric (ok : bool)
| PIStart (ctx j w : addr) (withAgent : bool)
| PIConnect (ctx j w : addr)
| PIRecord (ctx j w : addr)
| PISend (ctx j w : addr)
| PIRecv (ctx j w : addr) (acc : Accumulated)
| PIDone (j w : addr) (result : string) (data : go_map MetaValue)
| PIFail (j w : addr) (err : string)
| PIClosed (j w : addr) (result : string)
| PISim (ctx j w : addr) (msgs : list string)
| PISimDone (j w : addr)
| PIDryStart (j : addr)
| PIDryDone (j : addr)
| PIAddAgent (uuid : string) (isDefault : bool).

Definition pthread := list pinstr.

Record Pool := mkPool {
  workers : gmap string addr;
  wheap : gmap addr Worker;
  maxWorkers : Z;
  jobs : gmap string addr;
  jheap : gmap addr Job;
  mheap : gmap addr (gmap string MetaValue);
  queue : list addr;
  streams : gmap string addr;
  cheap : gmap addr Chan;
  jobCancels : gmap string addr;
  cancelled : gset addr;
  stopped : bool;
  next : addr;
  clock : Time;
  counters : Counters;
  pthreads : list pthread;
  allowedAgents : list string;
  recordingEnabled : bool
}.

#[export] Instance eta_Pool : Eta Pool := fun p =>
  mkPool (workers p) (wheap p) (maxWorkers p) (jobs p) (jheap p) (mheap p) (queue p) (streams p)
    (cheap p) (jobCancels p) (cancelled p) (stopped p) (next p) (clock p) (counters p)
    (pthreads p) (allowedAgents p) (recordingEnabled p).

Definition queue_capacity : nat := 100.
Definition stream_capacity : nat := 100.

(** ** Construction *)

Definition DefaultMaxWorkers : Z := 5.

Definition NewPool (max : Z) (allowed : list string) (recording : bool) (now : Time) : Pool :=
  mkPool ∅ ∅ max ∅ ∅ ∅ [] ∅ ∅ ∅ ∅ false 0 now (mkCounters 0 0 0 0) [] allowed recording.

Definition Start (p : Pool) : Pool := p <| pthreads := pthreads p ++ [[PIDispatch]] |>.

(** The goroutines still run until they see the context end; the agents are
    closed outside of the model. *)
Definition Stop (p : Pool) : Pool := p <| stopped := true |>.

(** ** Memory *)

Definition set_job (j : addr) (f : Job -> Job) (p : Pool) : Pool := p <| jheap ::= alter f j |>.
Definition set_worker (w : addr) (f : Worker -> Worker) (p : Pool) : Pool := p <| wheap ::= alter f w |>.

Definition free_worker (w : addr) (p : Pool) : Pool :=
  set_worker w (fun w => w <| w_Status := StatusAvailable |> <| w_CurrentJob := "" |>) p.

(** [if job.Metadata == nil { job.Metadata = make(map[string]any) }]. *)
Definition ensure_metadata (j : addr) (p : Pool) : Pool :=
  match jheap p !! j with
  | None => p
  | Some job =>
      match j_Metadata job with
      | Some _ => p
      | None =>
          let m := next p in
          let p := p <| next ::= S |> <| mheap ::= <[m := ∅]> |> in
          set_job j (fun job => job <| j_Metadata := Some m |>) p
      end
  end.

Definition put_metadata (j : addr) (key : string) (v : MetaValue) (p : Pool) : Pool :=
  match jheap p !! j with
  | None => p
  | Some job =>
      match j_Metadata job with
      | Some m => p <| mheap ::= alter (<[key := v]>) m |>
      | None => p
      end
  end.

Definition set_metadata (j : addr) (key : string) (v : MetaValue) (p : Pool) : Pool :=
  put_metadata j key v (ensure_metadata j p).

Definition metadata (job : Job) (p : Pool) : go_map MetaValue :=
  match j_Metadata job with Some m => mheap p !! m | None => None end.

(** ** Events *)

Definition simple_event (type jobID content : string) : Event :=
  mkEvent type jobID content None 0%Z.

(** A send that does not block. *)
Definition chan_send (ev : Event) (c : Chan) : option Chan :=
  if length (ch_buf c) <? ch_cap c then Some (c <| ch_buf := ch_buf c ++ [ev] |>) else None.

Definition emitEvent (jobID : string) (ev : Event) (p : Pool) : Pool :=
  let ev := mkEvent (e_Type ev) (e_JobID ev) (e_Content ev) (e_Data ev) (clock p) in
  match streams p !! jobID with
  | None => p
  | Some ch =>
      match cheap p !! ch with
      | None => p
      | Some c =>
          match chan_send ev c with
          | Some c => p <| cheap ::= <[ch := c]> |>
          | None => p <| counters ::= fun k => k <| dropped ::= S |> |>
          end
      end
  end.

(** [closeStream] is two lock regions. *)
Definition close_channel (jobID : string) (p : Pool) : Pool :=
  match streams p !! jobID with
  | Some ch => p <| cheap ::= alter (fun c => c <| ch_closed := true |>) ch |> <| streams ::= delete jobID |>
  | None => p
  end.

Definition drop_cancel (jobID : string) (p : Pool) : Pool := p <| jobCancels ::= delete jobID |>.

Definition closeStream (jobID : string) : pthread := [PICloseStream jobID; PIDropCancel jobID].

(** ** Submitting *)

(** [if opts != nil] of both submissions: the job takes the caller's map and
    the override is written into it. *)
Definition apply_options (j : addr) (opts : option JobOptions) (p : Pool) : Pool :=
  match opts with
  | None => p
  | Some o =>
      let p := set_job j (fun job => job <| j_WorkDir := o_WorkDir o |>
                 <| j_Environment := o_Environment o |> <| j_Metadata := o_Metadata o |>) p in
      if decide (o_Agent o = "") then p else set_metadata j "agent_override" (MString (o_Agent o)) p
  end.

(** The job object, with the address it gets. *)
Definition new_job (job : Job) (p : Pool) : addr * Pool :=
  (next p, p <| next ::= S |> <| jheap ::= <[next p := job]> |>).

Definition new_stream (jobID : string) (c : Chan) (p : Pool) : Pool :=
  p <| next ::= S |> <| cheap ::= <[next p := c]> |> <| streams ::= <[jobID := next p]> |>.

(** The send on the job queue: [None] while it blocks; when the pool has been
    stopped as well the select may take either case. *)
Definition queue_send (j : addr) (prefer_stop : bool) (p : Pool) : option (Pool * bool) :=
  if stopped p && (prefer_stop || negb (length (queue p) <? queue_capacity)) then Some (p, false)
  else if length (queue p) <? queue_capacity then Some (p <| queue := queue p ++ [j] |>, true)
  else None.

Definition SubmitWithOptions (id type worktreeID prompt : string) (opts : option JobOptions)
    (prefer_stop : bool) (p : Pool) : option (Pool * result string addr) :=
  let job := mkJob id type worktreeID prompt JobStatusQueued "" (clock p) None None "" "" "" None None in
  let '(j, p) := new_job job p in
  let p := apply_options j opts p in
  let p := p <| jobs ::= <[id := j]> |> in
  let p := new_stream id (mkChan [] stream_capacity false) p in
  match queue_send j prefer_stop p with
  | Some (p, true) => Some (p <| counters ::= fun k => k <| submitted ::= S |> |>, Ok j)
  | Some (p, false) => Some (p, Err "pool stopped")
  | None => None
  end.

Definition Submit (id type worktreeID prompt : string) (prefer_stop : bool) (p : Pool)
  : option (Pool * result string addr) :=
  SubmitWithOptions id type worktreeID prompt None prefer_stop p.

Definition SubmitCached (id type worktreeID prompt cachedResult : string) (opts : option JobOptions)
    (p : Pool) : Pool * addr :=
  let now := clock p in
  let job := mkJob id type worktreeID prompt JobStatusDone "" now (Some now) (Some now) cachedResult
               "" "" None None in
  let '(j, p) := new_job job p in
  let p := apply_options j opts p in
  let p := set_metadata j "cached" (MBool true) p in
  let p := p <| jobs ::= <[id := j]> |> in
  let p := p <| counters ::= fun k => k <| submitted ::= S |> |> in
  let events := [mkEvent "stream" id cachedResult None now; mkEvent "complete" id "" None now;
                 mkEvent EventJobCompleted id "Job completed" None now] in
  let p := new_stream id (mkChan events 10 true) p in
  (p <| counters ::= fun k => k <| completed ::= S |> |>, j).

(** ** Jobs *)

Definition Stream (jobID : string) (p : Pool) : option addr := streams p !! jobID.

Definition GetJob (jobID : string) (p : Pool) : option addr := jobs p !! jobID.

(** The job object the map has for an identifier. *)
Definition job_of (jobID : string) (p : Pool) : option (addr * Job) :=
  match jobs p !! jobID with
  | Some j => match jheap p !! j with Some job => Some (j, job) | None => None end
  | None => None
  end.

Definition terminal (st : JobStatus) : bool :=
  match st with JobStatusDone | JobStatusFailed => true | _ => false end.

Definition fail_job (err : string) (now : Time) (job : Job) : Job :=
  job <| j_Status := JobStatusFailed |> <| j_CompletedAt := Some now |> <| j_Error := err |>.

Definition finish_job (r : string) (now : Time) (job : Job) : Job :=
  job <| j_Status := JobStatusDone |> <| j_CompletedAt := Some now |> <| j_Result := r |>.

Definition begin_job (now : Time) (job : Job) : Job :=
  job <| j_Status := JobStatusInProgress |> <| j_StartedAt := Some now |>.

(** The worker the map has under an identifier is released, if any. *)
Definition release (workerID : string) (p : Pool) : Pool :=
  if decide (workerID = "") then p else
  match workers p !! workerID with Some w => free_worker w p | None => p end.

Definition CancelJob (jobID : string) (p : Pool) : Pool * result string unit :=
  match job_of jobID p with
  | None => (p, Err ("cancel job: job " +:+ jobID +:+ " not found"))
  | Some (j, job) =>
      if terminal (j_Status job) then (p, Ok tt) else
      let p := match jobCancels p !! jobID with
               | Some ctx => p <| cancelled ::= union {[ ctx ]} |>
               | None => p
               end in
      let p := set_job j (fail_job "cancelled" (clock p)) p in
      let p := release (j_WorkerID job) p in
      (p <| counters ::= fun k => k <| failed ::= S |> |>, Ok tt)
  end.

(** The agent that gets the interrupt, if one does. *)
Definition InterruptJob (jobID : string) (p : Pool) : option string :=
  match job_of jobID p with
  | Some (_, job) =>
      if decide (j_Status job <> JobStatusInProgress) then None else
      if decide (j_WorkerID job = "") then None else
      match workers p !! j_WorkerID job with
      | Some w => match wheap p !! w with Some w => w_Agent w | None => None end
      | None => None
      end
  | None => None
  end.

Definition RemoveJob (jobID : string) (p : Pool) : Pool :=
  match job_of jobID p with
  | Some (_, job) =>
      if terminal (j_Status job)
      then p <| jobs ::= delete jobID |> <| jobCancels ::= delete jobID |> else p
  | None => p
  end.

(** The range over the job map in the order [order] of its keys. *)
Definition jobs_in (order : list string) (p : Pool) : list Job :=
  omap (fun id => snd <$> job_of id p) order.

Definition created_before (a b : Job) : Prop := (j_CreatedAt a <= j_CreatedAt b)%Z.

#[export] Instance created_before_dec a b : Decision (created_before a b).
Proof. unfold created_before. apply _. Defined.

Definition ListJobs (order : list string) (p : Pool) : list Job :=
  merge_sort created_before (jobs_in order p).

Definition ListQueuedJobs (order : list string) (p : Pool) : list Job :=
  merge_sort created_before
    (filter (fun job => j_Status job = JobStatusQueued \/ j_Status job = JobStatusInProgress)
       (jobs_in order p)).

Record PoolStats := mkStats {
  TotalWorkers : nat;
  AvailableWorkers : nat;
  WorkingWorkers : nat;
  QueuedJobs : nat;
  InProgressJobs : nat;
  CompletedJobs : nat;
  FailedJobs : nat
}.

(** The objects the two maps point to. *)
Definition all_jobs (p : Pool) : list Job := omap (fun j => jheap p !! j) (map_to_list (jobs p)).*2.

Definition all_workers (p : Pool) : list (addr * Worker) :=
  omap (fun w => match wheap p !! w with Some x => Some (w, x) | None => None end)
    (map_to_list (workers p)).*2.

(** [connected] is what the agent of a worker answers to [Connected]. *)
Definition shown_status (connected : addr -> bool) (w : addr * Worker) : WorkerStatus :=
  match w_Agent w.2 with
  | Some _ => if connected w.1 then w_Status w.2 else StatusDisconnected
  | None => w_Status w.2
  end.

Definition count_status (connected : addr -> bool) (st : WorkerStatus) (p : Pool) : nat :=
  length (filter (fun w => shown_status connected w = st) (all_workers p)).

Definition count_jobs (st : JobStatus) (p : Pool) : nat :=
  length (filter (fun job => j_Status job = st) (all_jobs p)).

Definition Stats (connected : addr -> bool) (p : Pool) : PoolStats :=
  mkStats (size (workers p)) (count_status connected StatusAvailable p)
    (count_status connected StatusWorking p) (count_jobs JobStatusQueued p)
    (count_jobs JobStatusInProgress p) (count_jobs JobStatusDone p) (count_jobs JobStatusFailed p).

(** ** Workers *)

Definition add_worker (w : Worker) (p : Pool) : Pool * addr :=
  (p <| next ::= S |> <| wheap ::= <[next p := w]> |> <| workers ::= <[w_ID w := next p]> |>, next p).

Definition full (p : Pool) : bool := (maxWorkers p <=? Z.of_nat (size (workers p)))%Z.

Definition AddWorker (uuid : string) (p : Pool) : Pool * option addr :=
  if full p then (p, None) else
  let '(p, w) := add_worker (mkWorker ("w-" +:+ uuid) StatusAvailable "" (clock p) "" false None) p in
  (p, Some w).

Definition AddWorkerWithAgent (uuid agentName : string) (p : Pool) : Pool * option addr :=
  if full p then (p, None) else
  let '(p, w) := add_worker (mkWorker ("w-" +:+ uuid) StatusAvailable "" (clock p) agentName false None) p in
  (p, Some w).

Definition AddDefaultWorker (agentName : string) (p : Pool) : Pool * addr :=
  add_worker (mkWorker "default" StatusAvailable "" (clock p) agentName true None) p.

(** [AddAgentWorker] checks the limit in one lock region and adds the worker in
    another one, after the agent was found and connected: [lookup] is the
    answer of the registry and of [Connect], the agent's name. *)
Definition AddAgentWorker_check (agentName : string) (p : Pool) : result string unit :=
  if full p then Err ("max workers (" +:+ pretty (maxWorkers p) +:+ ") reached") else
  if bool_decide (agentName <> "") && bool_decide (allowedAgents p <> []) &&
     negb (slice_contains (allowedAgents p) agentName)
  then Err ("agent " +:+ quote agentName +:+ " is not in the allowed list (allowed: [" +:+
            String.concat " " (allowedAgents p) +:+ "])")
  else Ok tt.

Definition AddAgentWorker_add (uuid name : string) (isDefault : bool) (p : Pool) : Pool * addr :=
  let id := if isDefault then "default" else "ag-" +:+ uuid in
  add_worker (mkWorker id StatusAvailable "" (clock p) name isDefault (Some name)) p.

Definition AddAgentWorker (uuid agentName : string) (isDefault : bool)
    (lookup : result string string) (p : Pool) : Pool * result string addr :=
  match AddAgentWorker_check agentName p with
  | Err e => (p, Err e)
  | Ok _ =>
      match lookup with
      | Err e => (p, Err e)
      | Ok name => let '(p, w) := AddAgentWorker_add uuid name isDefault p in (p, Ok w)
      end
  end.

Definition RemoveWorker (id : string) (p : Pool) : Pool * result string unit :=
  match workers p !! id with
  | None => (p, Err ("worker " +:+ id +:+ " not found"))
  | Some w =>
      match wheap p !! w with
      | None => (p, Err ("worker " +:+ id +:+ " not found"))
      | Some x =>
          if w_IsDefault x then (p, Err "cannot remove default worker")
          else (p <| workers ::= delete id |>, Ok tt)
      end
  end.

(** The status update of [ListWorkers] on one worker. *)
Definition refresh (connected : addr -> bool) (w : addr) (p : Pool) : Pool :=
  match wheap p !! w with
  | None => p
  | Some x =>
      match w_Agent x with
      | None => p
      | Some _ =>
          if connected w && bool_decide (w_Status x = StatusDisconnected)
          then set_worker w (fun x => x <| w_Status := StatusAvailable |>) p
          else if negb (connected w) && bool_decide (w_Status x <> StatusDisconnected)
          then set_worker w (fun x => x <| w_Status := StatusDisconnected |>) p
          else p
      end
  end.

Definition worker_before (a b : Worker) : Prop := String.le (w_ID a) (w_ID b).

#[export] Instance worker_before_dec a b : Decision (worker_before a b).
Proof. unfold worker_before. apply _. Defined.

Definition ListWorkers (connected : addr -> bool) (p : Pool) : Pool * list Worker :=
  let p := fold_left (fun p w => refresh connected w p) (map_to_list (workers p)).*2 p in
  (p, merge_sort worker_before (all_workers p).*2).

(** ** Running a job *)

(** The loop of [executeWithAgent] on the local variables. *)
Definition accumulate (ev : AgentEvent) (acc : Accumulated) : Accumulated :=
  if decide (a_Type ev = EventStream) then
    if decide (a_Content ev = "") then acc
    else mkAcc (acc_result acc +:+ a_Content ev) (acc_fallback acc) true
  else if decide (a_Type ev = EventAssistant) then
    if decide (a_Content ev = "") then acc
    else mkAcc (acc_result acc) (a_Content ev) (acc_stream acc)
  else acc.

(** The text at the end: the fallback when no delta came. *)
Definition final_result (acc : Accumulated) : string :=
  if negb (acc_stream acc) && bool_decide (acc_fallback acc <> "")
  then acc_result acc +:+ acc_fallback acc else acc_result acc.

Definition no_output : Accumulated := mkAcc "" "" false.

Definition agent_error (ev : AgentEvent) : string :=
  if decide (a_Error ev = "") then a_Content ev else a_Error ev.

Definition worker_event (jobID : string) (ev : AgentEvent) : Event :=
  mkEvent (a_Type ev) jobID (a_Content ev) (a_Data ev) (a_Timestamp ev).

Definition job_id (j : addr) (p : Pool) : string :=
  match jheap p !! j with Some job => j_ID job | None => "" end.

Definition completed_event (jobID : string) : Event := simple_event EventJobCompleted jobID "Job completed".
Definition failed_event (jobID err : string) : Event := simple_event EventJobFailed jobID err.

(** The recovery of a panic. *)
Definition panic_steps (j w : addr) (v : string) (p : Pool) : pthread :=
  [PIFail j w ("panic: " +:+ v); PIMetric false] ++ closeStream (job_id j p).

(** What a simulated worker streams, one text every 200 ms. *)
Definition simulated_messages (job : Job) : list string :=
  ["Starting " +:+ j_Type job +:+ " job..."; "Analyzing task requirements..."; "Processing...";
   "Generating output..."].

Definition execute_start (ctx j w : addr) (withAgent : bool) (p : Pool) : pthread :=
  match jheap p !! j with
  | None => []
  | Some job =>
      if withAgent then
        (if decide (j_WorkDir job = "") then [] else [PIConnect ctx j w]) ++
        (if recordingEnabled p then [PIRecord ctx j w] else []) ++ [PISend ctx j w]
      else [PISim ctx j w (simulated_messages job)]
  end.

Definition recv_event (ctx j w : addr) (acc : Accumulated) (ev : AgentEvent) (p : Pool)
  : Pool * pthread :=
  let id := job_id j p in
  let p := emitEvent id (worker_event id ev) p in
  let acc := accumulate ev acc in
  if decide (a_Type ev = EventComplete) then
    (p, [PIDone j w (final_result acc) (a_Data ev); PIMetric true; PIEmit id (completed_event id)] ++
        closeStream id)
  else if decide (a_Type ev = EventError) then
    (p, [PIFail j w (agent_error ev); PIMetric false; PIEmit id (failed_event id (agent_error ev))] ++
        closeStream id)
  else (p, [PIRecv ctx j w acc]).

Definition token_keys : list string := ["input_tokens"; "output_tokens"; "total_tokens"].

(** The token counts of the last event. *)
Definition record_tokens (j : addr) (data : go_map MetaValue) (p : Pool) : Pool :=
  match data with
  | None => p
  | Some d =>
      fold_left (fun p key => match d !! key with Some v => put_metadata j key v p | None => p end)
        token_keys (ensure_metadata j p)
  end.

Definition simulated_result (job : Job) : string :=
  "Simulated " +:+ j_Type job +:+ " result for: " +:+ String.substring 0 50 (j_Prompt job).

Definition dry_result (job : Job) : string :=
  "[dry-run] Phase would execute. Prompt: " +:+ pretty (String.length (j_Prompt job)) +:+ " chars".

(** ** Dispatching *)

(** [job.Metadata["agent_override"]] when it is a string. *)
Definition preferredAgent (job : Job) (p : Pool) : string :=
  match metadata job p with
  | Some m => match m !! "agent_override" with Some (MString s) => s | _ => "" end
  | None => ""
  end.

Inductive assignment := ByAgent (w : addr) | Simulated (w : addr) | Fallback (w : addr).

(** The search for a worker in the order of the range. *)
Fixpoint pick_worker (order : list string) (preferred : string) (connected : addr -> bool)
    (fallback : option addr) (p : Pool) : option assignment :=
  match order with
  | [] => Fallback <$> fallback
  | id :: order =>
      match workers p !! id with
      | None => pick_worker order preferred connected fallback p
      | Some w =>
          match wheap p !! w with
          | None => pick_worker order preferred connected fallback p
          | Some x =>
              if decide (w_Status x <> StatusAvailable)
              then pick_worker order preferred connected fallback p else
              match w_Agent x with
              | None => Some (Simulated w)
              | Some _ =>
                  if negb (connected w) then pick_worker order preferred connected fallback p
                  else if bool_decide (preferred <> "") && bool_decide (w_AgentName x <> preferred)
                  then pick_worker order preferred connected
                         (match fallback with None => Some w | Some _ => fallback end) p
                  else Some (ByAgent w)
              end
          end
      end
  end.

Definition started_content (a : assignment) (x : Worker) (preferred : string) : string :=
  "Job assigned to worker " +:+ w_ID x +:+
  match a with
  | ByAgent _ => " (" +:+ w_AgentName x +:+ ")"
  | Simulated _ => ""
  | Fallback _ => " (" +:+ w_AgentName x +:+ ", preferred " +:+ preferred +:+ " unavailable)"
  end.

(** The assignment proper; [ctx] is the new context of the job. *)
Definition assign_to (j w : addr) (p : Pool) : Pool * addr :=
  let ctx := next p in
  let id := job_id j p in
  let wid := match wheap p !! w with Some x => w_ID x | None => "" end in
  let p := p <| next ::= S |> in
  let p := set_worker w (fun x => x <| w_Status := StatusWorking |> <| w_CurrentJob := id |>) p in
  let p := set_job j (fun job => job <| j_Status := JobStatusInProgress |> <| j_WorkerID := wid |>
                        <| j_StartedAt := Some (clock p) |>) p in
  (p <| jobCancels ::= <[id := ctx]> |>, ctx).

(** [assignJob] by the dispatcher: the state and what the dispatcher still
    has to do before it goes back to its queue.  The agent of a fallback is
    asked a second time, [connected']. *)
Definition assignJob (order : list string) (connected connected' : addr -> bool) (j : addr) (p : Pool)
  : Pool * pthread :=
  match jheap p !! j with
  | None => (p, [])
  | Some job =>
      let id := j_ID job in
      if decide (j_Type job = JobTypeDryRun) then
        (p, [PIDryStart j; PIEmit id (simple_event "job_output" id (dry_result job)); PIDryDone j;
             PIEmit id (simple_event EventJobCompleted id (dry_result job)); PIMetric true] ++
            closeStream id)
      else
        let preferred := preferredAgent job p in
        let start w a agent :=
          let x := default (mkWorker "" StatusAvailable "" 0%Z "" false None) (wheap p !! w) in
          let '(p, ctx) := assign_to j w p in
          (p, [PIEmit id (simple_event "job_started" id (started_content a x preferred));
               PIStart ctx j w agent]) in
        let requeue := (p <| pthreads := pthreads p ++ [[PIRequeue j]] |>, []) in
        match pick_worker order preferred connected None p with
        | Some (ByAgent w) => start w (ByAgent w) true
        | Some (Simulated w) => start w (Simulated w) false
        | Some (Fallback w) => if connected' w then start w (Fallback w) true else requeue
        | None => requeue
        end
  end.

(** ** Steps *)

(** An instruction that does not wait: the new state, with what the goroutine
    does before the rest of its instructions. *)
Definition run_pinstr (i : pinstr) (p : Pool) : option (Pool * pthread) :=
  match i with
  | PIEmit id ev => Some (emitEvent id ev p, [])
  | PICloseStream id => Some (close_channel id p, [])
  | PIDropCancel id => Some (drop_cancel id p, [])
  | PIMetric ok =>
      Some (p <| counters ::= fun k => if ok : bool then k <| completed ::= S |> else k <| failed ::= S |> |>, [])
  | PIStart ctx j w agent =>
      Some (p <| pthreads := pthreads p ++ [execute_start ctx j w agent p] |>, [])
  | PIDone j w r data =>
      Some (free_worker w (record_tokens j data (set_job j (finish_job r (clock p)) p)), [])
  | PIFail j w err => Some (set_job j (fail_job err (clock p)) (free_worker w p), [])
  | PIClosed j w r =>
      Some (free_worker w (match jheap p !! j with
                           | Some job => if decide (j_Status job = JobStatusInProgress)
                                         then set_job j (finish_job r (clock p)) p else p
                           | None => p
                           end), [])
  | PISimDone j w =>
      match jheap p !! j with
      | None => Some (p, [])
      | Some job =>
          let id := j_ID job in
          Some (free_worker w (set_job j (finish_job (simulated_result job) (clock p)) p),
                [PIMetric true; PIEmit id (completed_event id)] ++ closeStream id)
      end
  | PIDryStart j =>
      Some (set_job j (begin_job (clock p)) p, [])
  | PIDryDone j =>
      match jheap p !! j with
      | None => Some (p, [])
      | Some job => Some (set_job j (finish_job (dry_result job) (clock p)) p, [])
      end
  | _ => None
  end.

(** What the world answers to an instruction that waits. *)
Inductive answer :=
| AJob (order : list string) (connected connected' : addr -> bool)
| ATimer
| AStop
| ARoom
| AConnected (r : result string unit)
| ARecorded (path : option string)
| ASent (r : result string unit)
| AEvent (ev : AgentEvent)
| AClosed
| APanic (v : string)
| ALookup (r : result string string).

(** The context of a job is done. *)
Definition ctx_done (ctx : addr) (p : Pool) : bool := bool_decide (ctx ∈ cancelled p) || stopped p.

(** The whole goroutine after the answer; [rest] is what follows the
    instruction. *)
Definition run_answer (i : pinstr) (a : answer) (rest : pthread) (p : Pool) : option (Pool * pthread) :=
  match i, a with
  | PIDispatch, AJob order connected connected' =>
      match queue p with
      | [] => None
      | j :: q => let '(p, t) := assignJob order connected connected' j (p <| queue := q |>) in
                  Some (p, t ++ PIDispatch :: rest)
      end
  | PIDispatch, AStop => if stopped p then Some (p, []) else None
  | PIRequeue j, ATimer => Some (p, PIPush j :: rest)
  | PIRequeue j, AStop => if stopped p then Some (p, []) else None
  | PIPush j, ARoom =>
      if length (queue p) <? queue_capacity then Some (p <| queue := queue p ++ [j] |>, rest) else None
  | PIPush j, AStop => if stopped p then Some (p, []) else None
  | PIConnect ctx j w, AConnected (Ok _) => Some (p, rest)
  | PIConnect ctx j w, AConnected (Err e) =>
      let id := job_id j p in
      Some (p, [PIEmit id (failed_event id ("agent connect failed: " +:+ e)); PIFail j w e; PIMetric false] ++
               closeStream id)
  | PIRecord ctx j w, ARecorded path =>
      Some (match path with
            | Some f => set_metadata j "recording_path" (MString f) p
            | None => p
            end, rest)
  | PISend ctx j w, ASent (Ok _) => Some (p, [PIRecv ctx j w no_output])
  | PISend ctx j w, ASent (Err e) =>
      let id := job_id j p in
      Some (p, [PIEmit id (failed_event id e); PIFail j w e; PIMetric false] ++ closeStream id)
  | PIRecv ctx j w acc, AEvent ev => Some (recv_event ctx j w acc ev p)
  | PIRecv ctx j w acc, AClosed =>
      let id := job_id j p in
      Some (p, [PIClosed j w (final_result acc); PIEmit id (completed_event id)] ++ closeStream id)
  | (PIConnect _ j w | PISend _ j w | PIRecv _ j w _), APanic v => Some (p, panic_steps j w v p)
  | PISim ctx j w (m :: ms), ATimer =>
      Some (emitEvent (job_id j p) (simple_event "stream" (job_id j p) m) p,
            match ms with [] => [PISimDone j w] | _ => [PISim ctx j w ms] end)
  | PISim ctx j w _, AStop => if ctx_done ctx p then Some (p, []) else None
  | PIAddAgent uuid isDefault, ALookup (Ok name) => Some ((AddAgentWorker_add uuid name isDefault p).1, rest)
  | PIAddAgent uuid isDefault, ALookup (Err _) => Some (p, rest)
  | _, _ => None
  end.

(** The calls other components make. *)
Inductive call :=
| KSubmit (id type worktreeID prompt : string) (opts : option JobOptions) (prefer_stop : bool)
| KSubmitCached (id type worktreeID prompt cachedResult : string) (opts : option JobOptions)
| KCancel (jobID : string)
| KRemoveJob (jobID : string)
| KAddWorker (uuid : string)
| KAddWorkerWithAgent (uuid agentName : string)
| KAddDefault (agentName : string)
| KAddAgent (uuid agentName : string) (isDefault : bool)
| KRemoveWorker (id : string)
| KListWorkers (connected : addr -> bool)
| KStop.

Definition run_call (k : call) (p : Pool) : option Pool :=
  match k with
  | KSubmit id type wt prompt opts ps => fst <$> SubmitWithOptions id type wt prompt opts ps p
  | KSubmitCached id type wt prompt r opts => Some (SubmitCached id type wt prompt r opts p).1
  | KCancel id => Some (CancelJob id p).1
  | KRemoveJob id => Some (RemoveJob id p)
  | KAddWorker uuid => Some (AddWorker uuid p).1
  | KAddWorkerWithAgent uuid name => Some (AddWorkerWithAgent uuid name p).1
  | KAddDefault name => Some (AddDefaultWorker name p).1
  | KAddAgent uuid name isDefault =>
      match AddAgentWorker_check name p with
      | Ok _ => Some (p <| pthreads := pthreads p ++ [[PIAddAgent uuid isDefault]] |>)
      | Err _ => Some p
      end
  | KRemoveWorker id => Some (RemoveWorker id p).1
  | KListWorkers connected => Some (ListWorkers connected p).1
  | KStop => Some (Stop p)
  end.

Inductive pchoice :=
| PRun (k : nat)
| PAnswer (k : nat) (a : answer)
| PCall (c : call)
| PTick (t : Time)
| PTake (ch : addr).

(** Goroutine [k] becomes [t]. *)
Definition set_thread (k : nat) (t : pthread) (p : Pool) : Pool :=
  p <| pthreads ::= <[k := t]> |>.

Definition pool_step_fn (c : pchoice) (p : Pool) : option Pool :=
  match c with
  | PRun k =>
      match pthreads p !! k with
      | Some (i :: rest) =>
          match run_pinstr i p with
          | Some (p, t) => Some (set_thread k (t ++ rest) p)
          | None => None
          end
      | _ => None
      end
  | PAnswer k a =>
      match pthreads p !! k with
      | Some (i :: rest) =>
          match run_answer i a rest p with
          | Some (p, t) => Some (set_thread k t p)
          | None => None
          end
      | _ => None
      end
  | PCall k => run_call k p
  | PTick t => if (clock p <=? t)%Z then Some (p <| clock := t |>) else None
  | PTake ch => Some (p <| cheap ::= alter (fun c => c <| ch_buf ::= tail |>) ch |>)
  end.

Fixpoint run_pool (cs : list pchoice) (p : Pool) : option Pool :=
  match cs with
  | [] => Some p
  | c :: cs => match pool_step_fn c p with Some p => run_pool cs p | None => None end
  end.
