(* ===== verification/PoolRun.v ===== *)
(** * Runs of the worker pool

    Who works on what: every goroutine and every entry of the queue claims at
    most one job and one worker.  While nobody cancels a job the claims are
    exclusive, no job and no worker is lost, and a finished job stays as it
    is.  The last part has the runs in which a cancellation or a lost event
    breaks this. *)

From S2P Require Import Prelude Pool.

(** ** Claims *)

Definition claim_t : Type := addr * option addr.

Definition instr_claim (i : pinstr) : option claim_t :=
  match i with
  | PIRequeue j | PIPush j | PIDryStart j | PIDryDone j => Some (j, None)
  | PIStart _ j w _ | PIConnect _ j w | PIRecord _ j w | PISend _ j w | PIRecv _ j w _
  | PIDone j w _ _ | PIFail j w _ | PIClosed j w _ | PISim _ j w _ | PISimDone j w => Some (j, Some w)
  | _ => None
  end.

Fixpoint claim (t : pthread) : option claim_t :=
  match t with
  | [] => None
  | i :: t => match instr_claim i with Some c => Some c | None => claim t end
  end.

Definition claims (p : Pool) : list claim_t :=
  map (fun j => (j, None)) (queue p) ++ omap claim (pthreads p).

(** The instructions after which a goroutine gives up its claim. *)
Definition last_claim (i : pinstr) : bool :=
  match i with PIConnect _ _ _ | PIRecord _ _ _ | PIDryStart _ => false | _ => true end.

Definition followed (i : pinstr) (rest : pthread) : Prop :=
  match i with
  | PIDispatch => rest = []
  | _ => match instr_claim i with
         | None => True
         | Some c => if last_claim i then claim rest = None else claim rest = Some c
         end
  end.

Fixpoint wf_thread (t : pthread) : Prop :=
  match t with [] => True | i :: t => followed i t /\ wf_thread t end.

(** ** Views *)

Record jview := mkJView { v_ID : string; v_Status : JobStatus; v_Result : string }.

Definition job_view (job : Job) : jview := mkJView (j_ID job) (j_Status job) (j_Result job).
Definition worker_view (x : Worker) : WorkerStatus * string := (w_Status x, w_CurrentJob x).

Definition jviews (p : Pool) : gmap addr jview := job_view <$> jheap p.
Definition wviews (p : Pool) : gmap addr (WorkerStatus * string) := worker_view <$> wheap p.

(** A finished job keeps its status and its result. *)
Definition jkeep (J J' : gmap addr jview) : Prop :=
  forall j v, J !! j = Some v -> terminal (v_Status v) = true -> J' !! j = Some v.

#[export] Instance jkeep_preorder : PreOrder jkeep.
Proof. split; [by intros J j v ? _|]. intros J1 J2 J3 H1 H2 j v Hj Ht. auto. Qed.

(** Changes that concern neither claims nor statuses. *)
Record side (p p' : Pool) : Prop := {
  sd_threads : pthreads p' = pthreads p;
  sd_queue : queue p' = queue p;
  sd_stopped : stopped p' = stopped p;
  sd_jobs : jviews p' = jviews p;
  sd_workers : wviews p' = wviews p;
  sd_next : next p <= next p'
}.

#[export] Instance side_preorder : PreOrder side.
Proof.
  split; [by split|]. intros p1 p2 p3 [A1 B1 C1 D1 E1 F1] [A2 B2 C2 D2 E2 F2].
  split; [congruence..|lia].
Qed.

Lemma jviews_lookup p j : jviews p !! j = job_view <$> (jheap p !! j).
Proof. apply lookup_fmap. Qed.

Lemma jviews_set_job j (f : Job -> Job) (g : jview -> jview) p :
  (forall job, job_view (f job) = g (job_view job)) ->
  jviews (set_job j f p) = alter g j (jviews p).
Proof.
  intros Hf. unfold jviews, set_job. cbn [jheap set_field]. apply fmap_alter. intros job _. apply Hf.
Qed.

Lemma wviews_set_worker w (f : Worker -> Worker) g p :
  (forall x, worker_view (f x) = g (worker_view x)) ->
  wviews (set_worker w f p) = alter g w (wviews p).
Proof.
  intros Hf. unfold wviews, set_worker. cbn [wheap set_field]. apply fmap_alter. intros x _. apply Hf.
Qed.

Lemma alter_id {A} (m : gmap addr A) k : alter (fun x => x) k m = m.
Proof.
  apply map_eq. intros i. destruct (decide (i = k)) as [->|].
  - rewrite lookup_alter_eq. by destruct (m !! k).
  - by rewrite lookup_alter_ne.
Qed.

Lemma side_emitEvent id ev p : side p (emitEvent id ev p).
Proof.
  unfold emitEvent. destruct (streams p !! id); [|done]. destruct (cheap p !! _); [|done].
  by destruct (chan_send _ _).
Qed.

Lemma side_close_channel id p : side p (close_channel id p).
Proof. unfold close_channel. by destruct (streams p !! id). Qed.

Lemma side_set_job j f p : (forall job, job_view (f job) = job_view job) -> side p (set_job j f p).
Proof.
  intros Hf. split; try done. rewrite (jviews_set_job j f (fun v => v)) by done. apply alter_id.
Qed.

Lemma side_ensure_metadata j p : side p (ensure_metadata j p).
Proof.
  unfold ensure_metadata. destruct (jheap p !! j) as [job|]; [|done]. destruct (j_Metadata job); [done|].
  etrans; [|by apply side_set_job]. split; simpl; try done. lia.
Qed.

Lemma side_put_metadata j k v p : side p (put_metadata j k v p).
Proof.
  unfold put_metadata. destruct (jheap p !! j) as [job|]; [|done]. by destruct (j_Metadata job).
Qed.

Lemma side_set_metadata j k v p : side p (set_metadata j k v p).
Proof. etrans; [apply side_ensure_metadata|apply side_put_metadata]. Qed.

Lemma side_record_tokens j data p : side p (record_tokens j data p).
Proof.
  unfold record_tokens. destruct data as [d|]; [|done].
  etrans; [apply (side_ensure_metadata j)|]. generalize (ensure_metadata j p) as q. intros q.
  revert q. induction token_keys as [|k ks IH]; intros q; simpl; [done|].
  etrans; [|apply IH]. destruct (d !! k); [apply side_put_metadata|done].
Qed.

Lemma side_apply_options j opts p : side p (apply_options j opts p).
Proof.
  unfold apply_options. destruct opts as [o|]; [|done].
  assert (H1 : side p (set_job j (fun job => job <| j_WorkDir := o_WorkDir o |>
     <| j_Environment := o_Environment o |> <| j_Metadata := o_Metadata o |>) p)) by (by apply side_set_job).
  destruct (decide _); [done|]. etrans; [exact H1|apply side_set_metadata].
Qed.

#[export] Hint Resolve side_emitEvent side_close_channel side_set_metadata side_record_tokens
  side_apply_options : kvelmo.

(** ** Exclusive claims *)

(** The claims [C] fit the views of the jobs and the workers: no job and no
    worker is claimed twice; a claimed job is not finished, and the claimed
    worker works on it; while the pool runs, a job that is not finished and a
    worker that works are claimed; a worker that does not work is available
    and has no job. *)
Record claims_ok (C : list claim_t) (J : gmap addr jview) (V : gmap addr (WorkerStatus * string))
    (st : bool) : Prop := {
  co_jobs : NoDup C.*1;
  co_workers : NoDup (omap snd C);
  co_claim : forall j ow, (j, ow) ∈ C -> exists v, J !! j = Some v /\ terminal (v_Status v) = false /\
    forall w, ow = Some w -> v_Status v = JobStatusInProgress /\ V !! w = Some (StatusWorking, v_ID v);
  co_job : forall j v, J !! j = Some v -> terminal (v_Status v) = false -> st = false -> j ∈ C.*1;
  co_worker : forall w a, V !! w = Some a -> a = (StatusAvailable, "") \/
    exists id, a = (StatusWorking, id) /\ (st = false -> w ∈ omap snd C)
}.

Lemma elem_of_snd (C : list claim_t) w : w ∈ omap snd C <-> exists j, (j, Some w) ∈ C.
Proof.
  rewrite list_elem_of_omap. split.
  - intros ([j ow] & Hin & Hs). simpl in Hs. subst. by exists j.
  - intros [j Hj]. by exists (j, Some w).
Qed.

Lemma elem_of_fst (C : list claim_t) j : j ∈ C.*1 <-> exists ow, (j, ow) ∈ C.
Proof.
  rewrite list_elem_of_fmap. split.
  - intros ([j' ow] & -> & Hin). by exists ow.
  - intros [ow Hj]. by exists (j, ow).
Qed.

Lemma claims_perm C C' J V st : C ≡ₚ C' -> claims_ok C J V st -> claims_ok C' J V st.
Proof.
  intros HP [A B Cl D E].
  assert (H1 : C.*1 ≡ₚ C'.*1) by (by rewrite HP).
  assert (H2 : omap snd C ≡ₚ omap snd C') by (by rewrite HP).
  split.
  - by rewrite <- H1.
  - by rewrite <- H2.
  - intros j ow Hin. apply Cl. by rewrite HP.
  - intros j v Hj Ht Hst. rewrite <- H1. by eapply D.
  - intros w a Hw. destruct (E w a Hw) as [?|(id & ? & Hc)]; [by left|]. right. exists id.
    split; [done|]. intros Hst. rewrite <- H2. by apply Hc.
Qed.

Section claim_lemmas.
Context (C : list claim_t) (J : gmap addr jview) (V : gmap addr (WorkerStatus * string)) (st : bool).

(** The claim at the front is exclusive. *)
Lemma claim_front j ow :
  claims_ok ((j, ow) :: C) J V st ->
  j ∉ C.*1 /\ (forall w, ow = Some w -> w ∉ omap snd C) /\
  exists v, J !! j = Some v /\ terminal (v_Status v) = false.
Proof.
  intros [A B Cl _ _]. split; [by apply NoDup_cons in A as [? _]|]. split.
  - intros w ->. cbn in B. by apply NoDup_cons in B as [? _].
  - destruct (Cl j ow) as (v & ? & ? & _); [by left|]. by exists v.
Qed.

Lemma claims_drop c : st = true -> claims_ok (c :: C) J V st -> claims_ok C J V st.
Proof.
  intros Hst [A B Cl D E]. split.
  - by apply NoDup_cons in A as [_ ?].
  - destruct c as [j [w|]]; cbn in B; [by apply NoDup_cons in B as [_ ?]|done].
  - intros j ow Hin. apply Cl. by right.
  - intros. congruence.
  - intros w a Hw. destruct (E w a Hw) as [?|(id & ? & _)]; [by left|]. right. exists id.
    split; [done|]. congruence.
Qed.

Lemma claims_stop : claims_ok C J V st -> claims_ok C J V true.
Proof.
  intros [A B Cl D E]. split; try done.
  intros w a Hw. destruct (E w a Hw) as [?|(id & ? & _)]; [by left|]. right. by exists id.
Qed.

(** A new job, queued and claimed or already finished. *)
Lemma claims_new_job j id r :
  J !! j = None -> claims_ok C J V st ->
  claims_ok ((j, None) :: C) (<[j := mkJView id JobStatusQueued r]> J) V st.
Proof.
  intros Hj [A B Cl D E]. split.
  - apply NoDup_cons. split; [|done]. intros (ow & Hin)%elem_of_fst.
    destruct (Cl j ow Hin) as (v & Hv & _). congruence.
  - done.
  - intros k ow [[= -> ->]|Hin]%elem_of_cons.
    + eexists. rewrite lookup_insert_eq. split_and!; try done.
    + destruct (Cl k ow Hin) as (v & Hv & Ht & Hw). exists v. rewrite lookup_insert_ne by congruence. done.
  - intros k v. rewrite lookup_insert. destruct (decide (j = k)) as [->|].
    + intros _ _ _. by left.
    + intros. right. by eapply D.
  - done.
Qed.

Lemma claims_cached_job j v :
  J !! j = None -> terminal (v_Status v) = true -> claims_ok C J V st -> claims_ok C (<[j := v]> J) V st.
Proof.
  intros Hj Ht [A B Cl D E]. split; try done.
  - intros k ow Hin. destruct (Cl k ow Hin) as (u & Hu & Ht' & Hw). exists u.
    rewrite lookup_insert_ne by congruence. done.
  - intros k u. rewrite lookup_insert. destruct (decide (j = k)) as [->|]; [intros; congruence|apply D].
Qed.

Lemma claims_unclaimed_job j v :
  J !! j = None -> st = true -> claims_ok C J V st -> claims_ok C (<[j := v]> J) V st.
Proof.
  intros Hj Hst [A B Cl D E]. split; try done.
  - intros k ow Hin. destruct (Cl k ow Hin) as (u & Hu & Ht' & Hw). exists u.
    rewrite lookup_insert_ne by congruence. done.
  - intros. congruence.
Qed.

Lemma claims_new_worker w : V !! w = None -> claims_ok C J V st ->
  claims_ok C J (<[w := (StatusAvailable, "")]> V) st.
Proof.
  intros Hw [A B Cl D E]. split; try done.
  - intros k ow Hin. destruct (Cl k ow Hin) as (u & Hu & Ht' & Hs). exists u. split_and!; [done|done|].
    intros x Hx. destruct (Hs x Hx) as [? Hv]. split; [done|]. rewrite lookup_insert_ne by congruence. done.
  - intros x a. rewrite lookup_insert. destruct (decide (w = x)); [intros; left; congruence|apply E].
Qed.

(** The dispatcher gives a queued job to an available worker. *)
Lemma claims_assign j w v :
  claims_ok ((j, None) :: C) J V st -> J !! j = Some v -> V !! w = Some (StatusAvailable, "") ->
  claims_ok ((j, Some w) :: C)
    (alter (fun v => mkJView (v_ID v) JobStatusInProgress (v_Result v)) j J)
    (alter (fun _ => (StatusWorking, v_ID v)) w V) st.
Proof.
  intros Hok Hj Hw. pose proof (claim_front j None Hok) as (Hni & _ & _).
  destruct Hok as [A B Cl D E].
  assert (Hwc : w ∉ omap snd C).
  { intros (k & Hk)%elem_of_snd. destruct (Cl k (Some w)) as (u & _ & _ & Hu); [by right|].
    destruct (Hu w eq_refl) as [_ Hu']. congruence. }
  split.
  - done.
  - cbn. by apply NoDup_cons.
  - intros k ow [[= -> ->]|Hin]%elem_of_cons.
    + eexists. rewrite lookup_alter_eq, Hj. split; [done|]. split; [done|]. intros x [= <-].
      split; [done|]. by rewrite lookup_alter_eq, Hw.
    + assert (k <> j) by (intros ->; apply Hni, elem_of_fst; by exists ow).
      destruct (Cl k ow) as (u & Hu & Ht & Hs); [by right|]. exists u.
      rewrite lookup_alter_ne by done. split_and!; [done|done|]. intros x Hx.
      destruct (Hs x Hx) as [? Hv]. split; [done|]. rewrite lookup_alter_ne; [done|].
      intros ->. apply Hwc, elem_of_snd. exists k. by rewrite <- Hx.
  - intros k u. rewrite lookup_alter. destruct (decide (j = k)) as [->|]; [intros; by left|].
    intros Hk Ht Hst. by apply (D k u).
  - intros x a. rewrite lookup_alter. destruct (decide (w = x)) as [->|].
    + rewrite Hw. intros [= <-]. right. eexists. split; [done|]. intros _. cbn. by left.
    + intros Hx. destruct (E x a Hx) as [?|(id & ? & Hc)]; [by left|]. right. exists id.
      split; [done|]. intros Hst. cbn. right. by apply Hc.
Qed.

(** A goroutine finishes its job and frees its worker. *)
Lemma claims_finish j w f :
  (forall v, terminal (v_Status (f v)) = true) ->
  claims_ok ((j, Some w) :: C) J V st ->
  claims_ok C (alter f j J) (alter (fun _ => (StatusAvailable, "")) w V) st.
Proof.
  intros Hf Hok. pose proof (claim_front j (Some w) Hok) as (Hni & Hnw & _).
  destruct Hok as [A B Cl D E]. specialize (Hnw w eq_refl). split.
  - by apply NoDup_cons in A as [_ ?].
  - cbn in B. by apply NoDup_cons in B as [_ ?].
  - intros k ow Hin.
    assert (k <> j) by (intros ->; apply Hni, elem_of_fst; by exists ow).
    destruct (Cl k ow) as (u & Hu & Ht & Hs); [by right|]. exists u.
    rewrite lookup_alter_ne by done. split_and!; [done|done|]. intros x Hx.
    destruct (Hs x Hx) as [? Hv]. split; [done|]. rewrite lookup_alter_ne; [done|].
    intros ->. apply Hnw, elem_of_snd. exists k. by rewrite <- Hx.
  - intros k u. rewrite lookup_alter. destruct (decide (j = k)) as [->|].
    + intros (u' & Hu & ->)%fmap_Some Ht _. by rewrite Hf in Ht.
    + intros Hk Ht Hst. specialize (D k u Hk Ht Hst). cbn in D.
      apply elem_of_cons in D as [->|]; [done|done].
  - intros x a. rewrite lookup_alter. destruct (decide (w = x)) as [->|].
    + intros (u' & _ & ->)%fmap_Some. by left.
    + intros Hx. destruct (E x a Hx) as [?|(id & ? & Hc)]; [by left|]. right. exists id.
      split; [done|]. intros Hst. specialize (Hc Hst). cbn in Hc. by apply elem_of_cons in Hc as [->|].
Qed.

(** A job without a worker (a dry run) starts, or finishes. *)
Lemma claims_dry_start j :
  claims_ok ((j, None) :: C) J V st ->
  claims_ok ((j, None) :: C) (alter (fun v => mkJView (v_ID v) JobStatusInProgress (v_Result v)) j J) V st.
Proof.
  intros Hok. pose proof (claim_front j None Hok) as (Hni & _ & _). destruct Hok as [A B Cl D E].
  split; try done.
  - intros k ow [[= -> ->]|Hin]%elem_of_cons.
    + destruct (Cl j None) as (u & Hu & _); [by left|]. eexists. by rewrite lookup_alter_eq, Hu.
    + assert (k <> j) by (intros ->; apply Hni, elem_of_fst; by exists ow).
      destruct (Cl k ow) as (u & Hu); [by right|]. exists u. by rewrite lookup_alter_ne.
  - intros k u. rewrite lookup_alter. destruct (decide (j = k)) as [->|]; [intros; by left|apply D].
Qed.

Lemma claims_dry_done j f :
  (forall v, terminal (v_Status (f v)) = true) ->
  claims_ok ((j, None) :: C) J V st -> claims_ok C (alter f j J) V st.
Proof.
  intros Hf Hok. pose proof (claim_front j None Hok) as (Hni & _ & _). destruct Hok as [A B Cl D E].
  split; try done.
  - by apply NoDup_cons in A as [_ ?].
  - intros k ow Hin. assert (k <> j) by (intros ->; apply Hni, elem_of_fst; by exists ow).
    destruct (Cl k ow) as (u & Hu); [by right|]. exists u. by rewrite lookup_alter_ne.
  - intros k u. rewrite lookup_alter. destruct (decide (j = k)) as [->|].
    + intros (u' & Hu & ->)%fmap_Some Ht _. by rewrite Hf in Ht.
    + intros Hk Ht Hst. specialize (D k u Hk Ht Hst). cbn in D. by apply elem_of_cons in D as [->|].
Qed.
End claim_lemmas.

(** A claimed job may change: the finished ones do not. *)
Lemma jkeep_claimed C J V st j ow f :
  claims_ok ((j, ow) :: C) J V st -> jkeep J (alter f j J).
Proof.
  intros Hok k v Hk Ht. rewrite lookup_alter. destruct (decide (j = k)) as [->|]; [|done].
  destruct (claim_front C J V st k ow Hok) as (_ & _ & u & Hu & Hnt). congruence.
Qed.

Lemma jkeep_insert J j v : J !! j = None -> jkeep J (<[j := v]> J).
Proof. intros Hj k u Hk Ht. rewrite lookup_insert_ne; [done|congruence]. Qed.

(** ** The invariant *)

Definition fresh (p : Pool) : Prop :=
  forall a, next p <= a -> jviews p !! a = None /\ wviews p !! a = None.

Record pool_inv (p : Pool) : Prop := {
  pv_wf : Forall wf_thread (pthreads p);
  pv_ok : claims_ok (claims p) (jviews p) (wviews p) (stopped p);
  pv_fresh : fresh p;
  pv_cancelled : cancelled p = ∅
}.

Definition opt_list {A} (o : option A) : list A := match o with Some x => [x] | None => [] end.

Definition queued (q : list addr) : list claim_t := map (fun j => (j, None)) q.

Lemma thread_split (ts : list pthread) k t :
  ts !! k = Some t ->
  exists R, omap claim ts ≡ₚ opt_list (claim t) ++ R /\
    forall t', omap claim (<[k := t']> ts) ≡ₚ opt_list (claim t') ++ R.
Proof.
  intros Hk. exists (omap claim (take k ts) ++ omap claim (drop (S k) ts)).
  assert (Hsplit : forall u, omap claim (take k ts ++ u :: drop (S k) ts) ≡ₚ
    opt_list (claim u) ++ omap claim (take k ts) ++ omap claim (drop (S k) ts)).
  { intros u. rewrite omap_app. cbn. destruct (claim u); simpl; [by rewrite Permutation_middle|done]. }
  split.
  - rewrite <- (take_drop_middle ts k t Hk) at 1. apply Hsplit.
  - intros t'. rewrite insert_take_drop by (by eapply lookup_lt_Some). apply Hsplit.
Qed.

(** Goroutine [k] goes from [t] to [t'], with new goroutines [us]. *)
Lemma thread_inv k t t' us (p p' : Pool) :
  pool_inv p -> pthreads p !! k = Some t -> pthreads p' = pthreads p ++ us ->
  wf_thread t' -> Forall wf_thread us -> fresh p' -> cancelled p' = cancelled p ->
  (forall R, claims_ok (opt_list (claim t) ++ queued (queue p) ++ R) (jviews p) (wviews p) (stopped p) ->
     claims_ok (opt_list (claim t') ++ omap claim us ++ queued (queue p') ++ R)
       (jviews p') (wviews p') (stopped p')) ->
  pool_inv (set_thread k t' p').
Proof.
  intros [Hwf Hok Hf Hc] Hk Hts Hwf' Hus Hf' Hc' Hclaims.
  destruct (thread_split _ _ _ Hk) as (R & HR & HR').
  assert (Hins : <[k := t']> (pthreads p') = <[k := t']> (pthreads p) ++ us).
  { rewrite Hts. apply insert_app_l. by eapply lookup_lt_Some. }
  split.
  - unfold set_thread. cbn [pthreads set_field]. rewrite Hins. apply Forall_app. split; [|done].
    by apply Forall_insert.
  - unfold claims, set_thread. cbn [pthreads queue set_field]. rewrite Hins.
    refine (claims_perm (opt_list (claim t') ++ omap claim us ++ queued (queue p') ++ R) _ _ _ _ _ _).
    + rewrite omap_app, HR'. unfold queued. solve_Permutation.
    + apply Hclaims. eapply claims_perm; [|exact Hok]. unfold claims. rewrite HR.
      unfold queued. solve_Permutation.
  - done.
  - unfold set_thread. cbn [cancelled set_field]. congruence.
Qed.

Lemma side_fresh p p' : side p p' -> fresh p -> fresh p'.
Proof. intros [_ _ _ HJ HV Hn] Hf a Ha. rewrite HJ, HV. apply Hf. lia. Qed.

Lemma fresh_alter p p' j w f h :
  fresh p -> next p <= next p' -> jviews p' = alter f j (jviews p) -> wviews p' = alter h w (wviews p) ->
  fresh p'.
Proof.
  intros Hf Hn HJ HV a Ha. destruct (Hf a) as [H1 H2]; [lia|]. rewrite HJ, HV, !lookup_alter.
  split; destruct (decide _) as [->|]; by rewrite ?H1, ?H2.
Qed.

(** The goroutine keeps its claim and the rest changes on the side. *)
Lemma side_thread_inv k t t' (p p' : Pool) :
  pool_inv p -> pthreads p !! k = Some t -> side p p' -> cancelled p' = cancelled p ->
  claim t' = claim t -> wf_thread t' -> pool_inv (set_thread k t' p').
Proof.
  intros Hi Hk Hs Hc Hcl Hwf. apply (thread_inv k t t' [] p); try done.
  - rewrite app_nil_r. apply Hs.
  - eapply side_fresh; [exact Hs|apply Hi].
  - intros R. rewrite Hcl, (sd_queue _ _ Hs), (sd_jobs _ _ Hs), (sd_workers _ _ Hs), (sd_stopped _ _ Hs).
    done.
Qed.

Lemma side_inv (p p' : Pool) : pool_inv p -> side p p' -> cancelled p' = cancelled p -> pool_inv p'.
Proof.
  intros [Hwf Hok Hf Hc] Hs Hc'. split.
  - by rewrite (sd_threads _ _ Hs).
  - unfold claims. by rewrite (sd_threads _ _ Hs), (sd_queue _ _ Hs), (sd_jobs _ _ Hs),
      (sd_workers _ _ Hs), (sd_stopped _ _ Hs).
  - by eapply side_fresh.
  - congruence.
Qed.

Lemma wf_tail i t : wf_thread (i :: t) -> wf_thread t.
Proof. by intros [_ ?]. Qed.

Lemma pv_thread k t p : pool_inv p -> pthreads p !! k = Some t -> wf_thread t.
Proof. intros Hi Hk. pose proof (pv_wf _ Hi) as Hw. rewrite Forall_lookup in Hw. by eapply Hw. Qed.

(** The job and the worker of a claim. *)
Lemma pv_claim k t j ow p :
  pool_inv p -> pthreads p !! k = Some t -> claim t = Some (j, ow) ->
  exists job, jheap p !! j = Some job /\ terminal (j_Status job) = false /\
    forall w, ow = Some w -> j_Status job = JobStatusInProgress /\
      wviews p !! w = Some (StatusWorking, j_ID job).
Proof.
  intros Hi Hk Hc. destruct (co_claim _ _ _ _ (pv_ok _ Hi) j ow) as (v & Hv & Ht & Hw).
  { unfold claims. apply elem_of_app. right. apply list_elem_of_omap. exists t. split; [|done].
    by eapply list_elem_of_lookup_2. }
  rewrite jviews_lookup in Hv. destruct (jheap p !! j) as [job|]; [|done]. injection Hv as <-.
  by exists job.
Qed.

(** Claim-free ends of goroutines. *)
Definition loose (t : pthread) : Prop := Forall (fun i => instr_claim i = None /\ i <> PIDispatch) t.

Lemma loose_claim t rest : loose t -> claim (t ++ rest) = claim rest.
Proof. induction 1 as [|i t [Hi _] _ IH]; simpl; [done|]. by rewrite Hi. Qed.

Lemma loose_wf t rest : loose t -> wf_thread rest -> wf_thread (t ++ rest).
Proof.
  intros Ht Hr. induction Ht as [|i t [Hi Hd] _ IH]; simpl; [done|]. split; [|done].
  unfold followed. rewrite Hi. by destruct i.
Qed.

Lemma loose_close id : loose (closeStream id).
Proof. repeat constructor; done. Qed.

(** ** Steps keep the invariant *)

(** A goroutine that finishes its job. *)
Lemma finish_inv k t t' j w f (p p' : Pool) :
  pool_inv p -> pthreads p !! k = Some t -> claim t = Some (j, Some w) ->
  pthreads p' = pthreads p -> queue p' = queue p -> stopped p' = stopped p ->
  cancelled p' = cancelled p -> next p <= next p' ->
  jviews p' = alter f j (jviews p) -> wviews p' = alter (fun _ => (StatusAvailable, "")) w (wviews p) ->
  (forall v, terminal (v_Status (f v)) = true) -> claim t' = None -> wf_thread t' ->
  pool_inv (set_thread k t' p') /\ jkeep (jviews p) (jviews p').
Proof.
  intros Hi Hk Hc Hts Hq Hst Hca Hn HJ HV Hf Hc' Hwf. split.
  - apply (thread_inv k t t' [] p); try done; [by rewrite app_nil_r| |].
    + by apply (fresh_alter p p' j w f (fun _ => (StatusAvailable, ""))); [apply Hi|..].
    + intros R. rewrite Hc, Hc', Hq, Hst, HJ, HV. simpl. by apply claims_finish.
  - rewrite HJ. destruct (thread_split _ _ _ Hk) as (R & HR & _). rewrite Hc in HR. simpl in HR.
    eapply (jkeep_claimed (R ++ queued (queue p)) _ _ _ _ (Some w)).
    eapply claims_perm; [|apply (pv_ok _ Hi)]. unfold claims. rewrite HR. unfold queued. solve_Permutation.
Qed.

Definition failed_view (v : jview) : jview := mkJView (v_ID v) JobStatusFailed (v_Result v).
Definition done_view (r : string) (v : jview) : jview := mkJView (v_ID v) JobStatusDone r.
Definition started_view (v : jview) : jview := mkJView (v_ID v) JobStatusInProgress (v_Result v).

Lemma jviews_fail j err now p : jviews (set_job j (fail_job err now) p) = alter failed_view j (jviews p).
Proof. by apply jviews_set_job. Qed.

Lemma jviews_finish j r now p : jviews (set_job j (finish_job r now) p) = alter (done_view r) j (jviews p).
Proof. by apply jviews_set_job. Qed.

Lemma jviews_begin j now p : jviews (set_job j (begin_job now) p) = alter started_view j (jviews p).
Proof. by apply jviews_set_job. Qed.

Lemma wviews_free w p : wviews (free_worker w p) = alter (fun _ => (StatusAvailable, "")) w (wviews p).
Proof. by apply wviews_set_worker. Qed.

Lemma cancelled_emitEvent id ev p : cancelled (emitEvent id ev p) = cancelled p.
Proof.
  unfold emitEvent. destruct (streams p !! id); [|done]. destruct (cheap p !! _); [|done].
  by destruct (chan_send _ _).
Qed.

Lemma cancelled_set_metadata j key v p : cancelled (set_metadata j key v p) = cancelled p.
Proof.
  unfold set_metadata, put_metadata.
  assert (He : cancelled (ensure_metadata j p) = cancelled p).
  { unfold ensure_metadata. destruct (jheap p !! j) as [job|]; [|done]. by destruct (j_Metadata job). }
  destruct (jheap _ !! j) as [job|]; [|done]. by destruct (j_Metadata job).
Qed.

Lemma cancelled_record_tokens j data p : cancelled (record_tokens j data p) = cancelled p.
Proof.
  unfold record_tokens. destruct data as [d|]; [|done].
  assert (He : cancelled (ensure_metadata j p) = cancelled p).
  { unfold ensure_metadata. destruct (jheap p !! j) as [job|]; [|done]. by destruct (j_Metadata job). }
  rewrite <- He. generalize (ensure_metadata j p) as q. intros q. revert q.
  induction token_keys as [|key ks IH]; intros q; simpl; [done|]. rewrite IH.
  destruct (d !! key); [|done]. unfold put_metadata. destruct (jheap q !! j) as [job|]; [|done].
  by destruct (j_Metadata job).
Qed.

Lemma cancelled_apply_options j opts p : cancelled (apply_options j opts p) = cancelled p.
Proof.
  unfold apply_options. destruct opts as [o|]; [|done]. destruct (decide _); [done|].
  by rewrite cancelled_set_metadata.
Qed.

Lemma wf_execute_start ctx j w agent p :
  is_Some (jheap p !! j) ->
  wf_thread (execute_start ctx j w agent p) /\
  claim (execute_start ctx j w agent p) = Some (j, Some w).
Proof.
  intros [job Hj]. unfold execute_start. rewrite Hj. destruct agent; [|done].
  destruct (decide (j_WorkDir job = "")), (recordingEnabled p); done.
Qed.

(** The part of a claim's job the final instructions look at. *)
Lemma run_pinstr_inv k i rest t' (p p' : Pool) :
  pool_inv p -> pthreads p !! k = Some (i :: rest) -> run_pinstr i p = Some (p', t') ->
  pool_inv (set_thread k (t' ++ rest) p') /\ jkeep (jviews p) (jviews p').
Proof.
  intros Hi Hk Hr. pose proof (pv_thread _ _ _ Hi Hk) as Hwf. destruct Hwf as [Hfol Hwf].
  assert (Hside : forall p', side p p' -> cancelled p' = cancelled p -> claim rest = claim (i :: rest) ->
    pool_inv (set_thread k ([] ++ rest) p') /\ jkeep (jviews p) (jviews p')).
  { intros q Hs Hc Hcl. split; [by eapply side_thread_inv|]. by rewrite (sd_jobs _ _ Hs). }
  destruct i as [|j|j|id ev|id|id|ok|ctx j w agent|ctx j w|ctx j w|ctx j w|ctx j w acc|j w r data|j w err
                |j w r|ctx j w msgs|j w|j|j|uuid d]; simpl in Hr; try done;
    try (pose proof (fun c ow => pv_claim k _ c ow p Hi Hk) as Hcl; simpl in Hcl).
  - apply (inj Some), pair_eq in Hr as [<- <-]. apply Hside; [apply side_emitEvent|apply cancelled_emitEvent|done].
  - apply (inj Some), pair_eq in Hr as [<- <-]. apply Hside; [apply side_close_channel| |done].
    unfold close_channel. by destruct (streams p !! id).
  - apply (inj Some), pair_eq in Hr as [<- <-]. by apply Hside.
  - apply (inj Some), pair_eq in Hr as [<- <-]. by apply Hside.
  - apply (inj Some), pair_eq in Hr as [<- <-]. destruct (Hcl _ _ eq_refl) as (job & Hj & _).
    destruct (wf_execute_start ctx j w agent p (mk_is_Some _ _ Hj)) as [Hw Hc]. split; [|done].
    apply (thread_inv k _ rest [execute_start ctx j w agent p] p _ Hi Hk); try done.
    + by constructor.
    + apply Hi.
    + intros R. cbn. simpl in Hfol. by rewrite Hfol, Hc.
  - apply (inj Some), pair_eq in Hr as [<- <-].
    apply (finish_inv k _ rest j w (done_view r) p _ Hi Hk eq_refl); try done.
    + apply (sd_threads _ _ (side_record_tokens j data (set_job j (finish_job r (clock p)) p))).
    + apply (sd_queue _ _ (side_record_tokens j data (set_job j (finish_job r (clock p)) p))).
    + apply (sd_stopped _ _ (side_record_tokens j data (set_job j (finish_job r (clock p)) p))).
    + apply (cancelled_record_tokens j data (set_job j (finish_job r (clock p)) p)).
    + apply (sd_next _ _ (side_record_tokens j data (set_job j (finish_job r (clock p)) p))).
    + rewrite <- (jviews_finish j r (clock p) p).
      apply (sd_jobs _ _ (side_record_tokens j data (set_job j (finish_job r (clock p)) p))).
    + rewrite wviews_free. f_equal.
      apply (sd_workers _ _ (side_record_tokens j data (set_job j (finish_job r (clock p)) p))).
  - apply (inj Some), pair_eq in Hr as [<- <-].
    apply (finish_inv k _ rest j w failed_view p _ Hi Hk eq_refl); try done.
    + by rewrite jviews_fail.
    + apply (wviews_free w p).
  - apply (inj Some), pair_eq in Hr as [<- <-]. destruct (Hcl _ _ eq_refl) as (job & Hj & _ & Hw).
    destruct (Hw w eq_refl) as [Hst _]. rewrite Hj. destruct (decide _) as [_|]; [|done].
    apply (finish_inv k _ rest j w (done_view r) p _ Hi Hk eq_refl); try done.
    + apply (jviews_finish j r (clock p) p).
    + by rewrite wviews_free.
  - destruct (Hcl _ _ eq_refl) as (job & Hj & _). rewrite Hj in Hr. apply (inj Some), pair_eq in Hr as [<- <-].
    set (t := [PIMetric true; PIEmit (j_ID job) (completed_event (j_ID job))] ++ closeStream (j_ID job)).
    assert (Hl : loose t) by (by repeat constructor).
    apply (finish_inv k _ (t ++ rest) j w (done_view (simulated_result job)) p _ Hi Hk eq_refl); try done.
    + apply (jviews_finish j (simulated_result job) (clock p) p).
    + by rewrite wviews_free.
  - apply (inj Some), pair_eq in Hr as [<- <-].
    pose proof (jviews_begin j (clock p) p) as HJ.
    split.
    + apply (thread_inv k _ rest [] p _ Hi Hk); try done; [by rewrite app_nil_r| |].
      * apply (fresh_alter p _ j 0 started_view (fun x => x)); [apply Hi|done|done|]. by rewrite alter_id.
      * intros R. simpl in Hfol. rewrite Hfol, HJ. simpl. by apply claims_dry_start.
    + rewrite HJ. destruct (thread_split _ _ _ Hk) as (R & HR & _). simpl in HR.
      eapply (jkeep_claimed (R ++ queued (queue p)) _ _ _ _ None).
      eapply claims_perm; [|apply (pv_ok _ Hi)]. unfold claims. rewrite HR. unfold queued. solve_Permutation.
  - destruct (Hcl _ _ eq_refl) as (job & Hj & _). rewrite Hj in Hr. apply (inj Some), pair_eq in Hr as [<- <-].
    pose proof (jviews_finish j (dry_result job) (clock p) p) as HJ.
    split.
    + apply (thread_inv k _ rest [] p _ Hi Hk); try done; [by rewrite app_nil_r| |].
      * apply (fresh_alter p _ j 0 (done_view (dry_result job)) (fun x => x)); [apply Hi|done|done|].
        by rewrite alter_id.
      * intros R. simpl in Hfol. rewrite Hfol, HJ. simpl. by apply claims_dry_done.
    + rewrite HJ. destruct (thread_split _ _ _ Hk) as (R & HR & _). simpl in HR.
      eapply (jkeep_claimed (R ++ queued (queue p)) _ _ _ _ None).
      eapply claims_perm; [|apply (pv_ok _ Hi)]. unfold claims. rewrite HR. unfold queued. solve_Permutation.
Qed.

(** *** Dispatching *)

Definition target (a : assignment) : addr :=
  match a with ByAgent w | Simulated w | Fallback w => w end.

Definition available (p : Pool) (w : addr) : Prop :=
  exists x, wheap p !! w = Some x /\ w_Status x = StatusAvailable.

Lemma pick_worker_available order preferred connected fallback p a :
  pick_worker order preferred connected fallback p = Some a ->
  (forall w, fallback = Some w -> available p w) -> available p (target a).
Proof.
  revert fallback. induction order as [|id order IH]; intros fallback; simpl.
  - destruct fallback as [w|]; simpl; [|done]. intros [= <-] H. by apply H.
  - destruct (workers p !! id) as [w|]; [|apply IH]. destruct (wheap p !! w) as [x|] eqn:Hx; [|apply IH].
    destruct (decide (w_Status x <> StatusAvailable)) as [|Hs]; [apply IH|]. apply dec_stable in Hs.
    destruct (w_Agent x) as [name|]; [|intros [= <-] _; by exists x].
    destruct (connected w); simpl; [|apply IH].
    destruct (bool_decide _ && _); [|intros [= <-] _; by exists x].
    intros Hp Hf. apply (IH _ Hp). intros w' Hw'. destruct fallback; [by apply Hf|].
    injection Hw' as <-. by exists x.
Qed.

Lemma assign_to_views j w p :
  let p' := (assign_to j w p).1 in
  jviews p' = alter started_view j (jviews p) /\
  wviews p' = alter (fun _ => (StatusWorking, job_id j p)) w (wviews p) /\
  pthreads p' = pthreads p /\ queue p' = queue p /\ stopped p' = stopped p /\
  cancelled p' = cancelled p /\ next p <= next p'.
Proof.
  unfold assign_to. cbv zeta. split; [|split].
  - simpl. unfold jviews. simpl. by apply fmap_alter.
  - simpl. unfold wviews. simpl. by apply fmap_alter.
  - simpl. split_and!; try done. lia.
Qed.

Lemma available_view (p : Pool) w :
  pool_inv p -> available p w -> wviews p !! w = Some (StatusAvailable, "").
Proof.
  intros Hi (x & Hx & Hs). unfold wviews. rewrite lookup_fmap, Hx. simpl.
  destruct (co_worker _ _ _ _ (pv_ok _ Hi) w (worker_view x)) as [->|(id & He & _)].
  - unfold wviews. by rewrite lookup_fmap, Hx.
  - done.
  - unfold worker_view in He. rewrite Hs in He. done.
Qed.

(** What a dispatch does with the claim on the job. *)
Lemma assign_inv k j q order connected connected' (p p' : Pool) t :
  pool_inv p -> pthreads p !! k = Some [PIDispatch] -> queue p = j :: q ->
  assignJob order connected connected' j (p <| queue := q |>) = (p', t) ->
  pool_inv (set_thread k (t ++ [PIDispatch]) p') /\ jkeep (jviews p) (jviews p').
Proof.
  intros Hi Hk Hq Ha.
  assert (Hjob : exists job, jheap p !! j = Some job).
  { destruct (co_claim _ _ _ _ (pv_ok _ Hi) j None) as (v & Hv & _).
    - unfold claims. rewrite Hq. by left.
    - rewrite jviews_lookup in Hv. destruct (jheap p !! j) as [job|]; [by exists job|done]. }
  destruct Hjob as [job Hj]. unfold assignJob in Ha.
  change (jheap (p <| queue := q |>)) with (jheap p) in Ha. rewrite Hj in Ha.
  set (p1 := p <| queue := q |>) in *.
  assert (Hrequeue : (p1 <| pthreads := pthreads p1 ++ [[PIRequeue j]] |>, []) = (p', t) ->
    pool_inv (set_thread k (t ++ [PIDispatch]) p') /\ jkeep (jviews p) (jviews p')).
  { intros [<- <-]%pair_eq. split; [|done].
    apply (thread_inv k _ _ [[PIRequeue j]] p _ Hi Hk); try done; [by repeat constructor|apply Hi|].
    intros R. rewrite Hq. done. }
  assert (Hstart : forall w a agent, available p w ->
    (let x := default (mkWorker "" StatusAvailable "" 0%Z "" false None) (wheap p1 !! w) in
     let '(p2, ctx) := assign_to j w p1 in
     (p2, [PIEmit (j_ID job) (simple_event "job_started" (j_ID job)
             (started_content a x (preferredAgent job p1))); PIStart ctx j w agent])) = (p', t) ->
    pool_inv (set_thread k (t ++ [PIDispatch]) p') /\ jkeep (jviews p) (jviews p')).
  { intros w a agent Hw. cbv zeta.
    destruct (assign_to_views j w p1) as (HJ & HV & Hts & Hqq & Hst & Hc & Hn).
    destruct (assign_to j w p1) as [p2 ctx]. simpl in HJ, HV, Hts, Hqq, Hst, Hc, Hn.
    intros [<- <-]%pair_eq. pose proof (available_view p w Hi Hw) as Hview.
    assert (Hid : job_id j p1 = j_ID job).
    { unfold job_id. change (jheap p1) with (jheap p). by rewrite Hj. }
    rewrite Hid in HV.
    change (jviews p1) with (jviews p) in HJ. change (wviews p1) with (wviews p) in HV.
    split.
    - apply (thread_inv k _ _ [] p _ Hi Hk); try done; [by rewrite app_nil_r| |].
      + by apply (fresh_alter p p2 j w started_view (fun _ => (StatusWorking, j_ID job))); [apply Hi|..].
      + intros R. rewrite Hq, Hqq, Hst, HJ, HV. simpl. intros Hok.
        apply (claims_assign _ _ _ _ j w (job_view job)); [done| |done].
        by rewrite jviews_lookup, Hj.
    - rewrite HJ. eapply (jkeep_claimed (queued q ++ omap claim (pthreads p)) _ _ _ _ None).
      pose proof (pv_ok _ Hi) as Hok. unfold claims in Hok. rewrite Hq in Hok. exact Hok. }
  destruct (decide (j_Type job = JobTypeDryRun)).
  - apply pair_eq in Ha as [<- <-]. split; [|done].
    apply (thread_inv k _ _ [] p _ Hi Hk); try done; [by rewrite app_nil_r|apply Hi|].
    intros R. rewrite Hq. done.
  - destruct (pick_worker order _ connected None p1) as [a|] eqn:Ep; [|by apply Hrequeue].
    assert (Hav : available p (target a)).
    { apply (pick_worker_available _ _ _ _ _ _ Ep). by intros ?. }
    destruct a as [w|w|w]; simpl in Hav.
    + by apply (Hstart w (ByAgent w) true).
    + by apply (Hstart w (Simulated w) false).
    + destruct (connected' w); [by apply (Hstart w (Fallback w) true)|by apply Hrequeue].
Qed.

(** *** Answers *)

Lemma emit_thread_inv k t t' id ev p :
  pool_inv p -> pthreads p !! k = Some t -> claim t' = claim t -> wf_thread t' ->
  pool_inv (set_thread k t' (emitEvent id ev p)) /\ jkeep (jviews p) (jviews (emitEvent id ev p)).
Proof.
  intros Hi Hk Hc Hw. split.
  - apply (side_thread_inv k t t' p); auto using cancelled_emitEvent with kvelmo.
  - by rewrite (sd_jobs _ _ (side_emitEvent id ev p)).
Qed.

(** A goroutine that ends because the pool was stopped. *)
Lemma stopped_inv k t p :
  pool_inv p -> pthreads p !! k = Some t -> stopped p = true -> pool_inv (set_thread k [] p).
Proof.
  intros Hi Hk Hst. apply (thread_inv k t [] [] p p Hi Hk); try done; [by rewrite app_nil_r|apply Hi|].
  intros R Hok. destruct (claim t) as [c|]; [|done].
  eapply (claims_drop _ _ _ _ c); [exact Hst|exact Hok].
Qed.

Lemma new_worker_views x p :
  let p' := (add_worker x p).1 in
  jviews p' = jviews p /\ wviews p' = <[next p := worker_view x]> (wviews p).
Proof. simpl. split; [done|]. unfold wviews. simpl. apply fmap_insert. Qed.

Lemma fresh_insert_worker p p' a v :
  fresh p -> a = next p -> next p' = S (next p) -> jviews p' = jviews p ->
  wviews p' = <[a := v]> (wviews p) -> fresh p'.
Proof.
  intros Hf -> Hn HJ HV b Hb. destruct (Hf b) as [H1 H2]; [lia|]. rewrite HJ, HV. split; [done|].
  rewrite lookup_insert_ne by lia. done.
Qed.

Lemma add_worker_thread_inv k i rest x p :
  pool_inv p -> pthreads p !! k = Some (i :: rest) -> worker_view x = (StatusAvailable, "") ->
  claim rest = claim (i :: rest) -> wf_thread rest ->
  pool_inv (set_thread k rest (add_worker x p).1) /\ jkeep (jviews p) (jviews (add_worker x p).1).
Proof.
  intros Hi Hk Hx Hc Hw. destruct (new_worker_views x p) as [HJ HV]. rewrite Hx in HV.
  split; [|by rewrite HJ].
  apply (thread_inv k (i :: rest) rest [] p _ Hi Hk); try done; [by rewrite app_nil_r| |].
  - by eapply fresh_insert_worker; [apply Hi|..].
  - intros R. rewrite HJ, HV, Hc. apply claims_new_worker. by apply (pv_fresh _ Hi).
Qed.

Lemma run_answer_inv k i a rest t' (p p' : Pool) :
  pool_inv p -> pthreads p !! k = Some (i :: rest) -> run_answer i a rest p = Some (p', t') ->
  pool_inv (set_thread k t' p') /\ jkeep (jviews p) (jviews p').
Proof.
  intros Hi Hk Hr. pose proof (pv_thread _ _ _ Hi Hk) as [Hfol Hwf].
  assert (Hsame : forall t', claim t' = claim (i :: rest) -> wf_thread t' ->
    pool_inv (set_thread k t' p) /\ jkeep (jviews p) (jviews p)).
  { intros u Hc Hw. split; [|done]. by eapply side_thread_inv. }
  assert (Hstop : stopped p = true -> pool_inv (set_thread k [] p) /\ jkeep (jviews p) (jviews p)).
  { intros Hst. split; [|done]. by eapply stopped_inv. }
  destruct i as [|j|j|id ev|id|id|ok|ctx j w agent|ctx j w|ctx j w|ctx j w|ctx j w acc|j w r data|j w err
                |j w r|ctx j w msgs|j w|j|j|uuid d];
    destruct a as [order conn conn'| | | |[[]|e]|path|[[]|e]|ev'| |v|[name|e]]; simpl in Hr; try done;
    try (destruct msgs; done).
  - destruct (queue p) as [|j q] eqn:Hq; [done|]. simpl in Hfol. subst rest.
    destruct (assignJob order conn conn' j _) as [p2 t] eqn:Ea.
    apply (inj Some), pair_eq in Hr as [<- <-]. by eapply assign_inv.
  - destruct (stopped p) eqn:Hst; [|done]. apply (inj Some), pair_eq in Hr as [<- <-]. by apply Hstop.
  - apply (inj Some), pair_eq in Hr as [<- <-]. by apply Hsame.
  - destruct (stopped p) eqn:Hst; [|done]. apply (inj Some), pair_eq in Hr as [<- <-]. by apply Hstop.
  - destruct (stopped p) eqn:Hst; [|done]. apply (inj Some), pair_eq in Hr as [<- <-]. by apply Hstop.
  - destruct (_ <? queue_capacity); [|done]. apply (inj Some), pair_eq in Hr as [<- <-]. split; [|done].
    apply (thread_inv k _ rest [] p _ Hi Hk); try done; [by rewrite app_nil_r|apply Hi|].
    intros R. simpl in Hfol. rewrite Hfol. cbn. intros Hok. eapply claims_perm; [|exact Hok].
    unfold queued. rewrite map_app. simpl. solve_Permutation.
  - apply (inj Some), pair_eq in Hr as [<- <-]. apply Hsame; done.
  - apply (inj Some), pair_eq in Hr as [<- <-]. apply Hsame; done.
  - apply (inj Some), pair_eq in Hr as [<- <-]. apply Hsame; done.
  - apply (inj Some), pair_eq in Hr as [<- <-]. simpl in Hfol. destruct path as [f|]; [|by apply Hsame].
    split.
    + apply (side_thread_inv k (PIRecord ctx j w :: rest) rest p); auto using cancelled_set_metadata with kvelmo.
    + by rewrite (sd_jobs _ _ (side_set_metadata j "recording_path" (MString f) p)).
  - apply (inj Some), pair_eq in Hr as [<- <-]. apply Hsame; done.
  - apply (inj Some), pair_eq in Hr as [<- <-]. apply Hsame; done.
  - apply (inj Some), pair_eq in Hr as [<- <-]. apply Hsame; done.
  - apply (inj Some) in Hr. unfold recv_event in Hr. cbv zeta in Hr.
    destruct (decide (a_Type ev' = EventComplete)); [|destruct (decide (a_Type ev' = EventError))];
      apply pair_eq in Hr as [<- <-]; by eapply emit_thread_inv.
  - apply (inj Some), pair_eq in Hr as [<- <-]. apply Hsame; done.
  - apply (inj Some), pair_eq in Hr as [<- <-]. apply Hsame; done.
  - destruct msgs as [|m ms]; [done|]. apply (inj Some), pair_eq in Hr as [<- <-].
    eapply emit_thread_inv; [done|exact Hk| |]; by destruct ms.
  - assert (Hst : stopped p = true).
    { unfold ctx_done in Hr. rewrite (pv_cancelled _ Hi) in Hr. by destruct msgs, (stopped p). }
    assert (Hr' : p' = p /\ t' = []).
    { unfold ctx_done in Hr. rewrite Hst, orb_true_r in Hr. by destruct msgs; simplify_eq. }
    destruct Hr' as [-> ->]. by apply Hstop.
  - apply (inj Some), pair_eq in Hr as [<- <-].
    by apply (add_worker_thread_inv k (PIAddAgent uuid d) rest (mkWorker (if d then "default" else "ag-" +:+ uuid)
      StatusAvailable "" (clock p) name d (Some name)) p Hi Hk).
  - apply (inj Some), pair_eq in Hr as [<- <-]. by apply Hsame.
Qed.

(** *** Calls *)

Lemma add_worker_inv x p :
  pool_inv p -> worker_view x = (StatusAvailable, "") ->
  pool_inv (add_worker x p).1 /\ jkeep (jviews p) (jviews (add_worker x p).1).
Proof.
  intros Hi Hx. destruct (new_worker_views x p) as [HJ HV]. rewrite Hx in HV. split; [|by rewrite HJ].
  destruct Hi as [Hwf Hok Hf Hc]. split; try done.
  - unfold claims. rewrite HJ, HV. apply claims_new_worker; [by apply Hf|exact Hok].
  - by eapply fresh_insert_worker.
Qed.

(** A job object with its options and its stream. *)
Lemma new_job_views (job : Job) opts p (f : Pool -> Pool) :
  (forall q, side q (f q)) ->
  let p' := f (apply_options (next p) opts (new_job job p).2) in
  jviews p' = <[next p := job_view job]> (jviews p) /\ wviews p' = wviews p /\
  pthreads p' = pthreads p /\ queue p' = queue p /\ stopped p' = stopped p /\ next p < next p'.
Proof.
  intros Hf p'. set (p0 := (new_job job p).2).
  assert (Hs : side p0 p') by (etrans; [apply side_apply_options|apply Hf]).
  destruct Hs as [A B C D E F].
  assert (H0 : jviews p0 = <[next p := job_view job]> (jviews p)) by (unfold jviews; simpl; apply fmap_insert).
  rewrite D, E, A, B, C, H0. simpl in F. split_and!; done.
Qed.

Lemma fresh_insert_job p p' a v :
  fresh p -> a = next p -> next p < next p' -> jviews p' = <[a := v]> (jviews p) ->
  wviews p' = wviews p -> fresh p'.
Proof.
  intros Hf -> Hn HJ HV b Hb. destruct (Hf b) as [H1 H2]; [lia|]. rewrite HJ, HV. split; [|done].
  rewrite lookup_insert_ne by lia. done.
Qed.

Lemma new_job_inv p p' v qs :
  pool_inv p -> cancelled p' = cancelled p -> pthreads p' = pthreads p -> queue p' = queue p ++ qs ->
  stopped p' = stopped p -> next p < next p' ->
  jviews p' = <[next p := v]> (jviews p) -> wviews p' = wviews p ->
  (qs = [next p] /\ v_Status v = JobStatusQueued \/
   qs = [] /\ (stopped p = true \/ terminal (v_Status v) = true)) ->
  pool_inv p' /\ jkeep (jviews p) (jviews p').
Proof.
  intros [Hwf Hok Hf Hc] Hca Hts Hq Hst Hn HJ HV Hcase.
  assert (Hnone : jviews p !! next p = None) by (by apply Hf).
  split; [|rewrite HJ; by apply jkeep_insert]. split.
  - by rewrite Hts.
  - unfold claims. rewrite Hts, Hq, Hst, HJ, HV. destruct Hcase as [[-> Hs]|[-> Hs]].
    + rewrite map_app. simpl. eapply claims_perm; [|apply (claims_new_job (claims p) (jviews p) (wviews p)
        (stopped p) (next p) (v_ID v) (v_Result v)) in Hok; [|done]; destruct v; simpl in Hs; subst; exact Hok].
      unfold claims. solve_Permutation.
    + rewrite app_nil_r. destruct Hs as [Hs|Hs]; [by apply claims_unclaimed_job|by apply claims_cached_job].
  - by eapply fresh_insert_job.
  - congruence.
Qed.

Lemma submit_inv id type wt prompt opts ps p p' r :
  pool_inv p -> SubmitWithOptions id type wt prompt opts ps p = Some (p', r) ->
  pool_inv p' /\ jkeep (jviews p) (jviews p').
Proof.
  intros Hi. unfold SubmitWithOptions.
  set (job := mkJob id type wt prompt JobStatusQueued "" (clock p) None None "" "" "" None None).
  set (f := fun q => new_stream id (mkChan [] stream_capacity false) (q <| jobs ::= <[id := next p]> |>)).
  assert (Hf : forall q, side q (f q)) by (intros q; split; simpl; try done; lia).
  destruct (new_job_views job opts p f Hf) as (HJ & HV & Hts & Hq & Hst & Hn).
  assert (Hc : cancelled (f (apply_options (next p) opts (new_job job p).2)) = cancelled p)
    by (unfold f; simpl; by rewrite cancelled_apply_options).
  set (q := f (apply_options (next p) opts (new_job job p).2)) in *.
  intros Hs.
  change (match queue_send (next p) ps q with
     | Some (q, true) => Some (q <| counters ::= fun k => k <| submitted ::= S |> |>, Ok (next p))
     | Some (q, false) => Some (q, Err "pool stopped")
     | None => None
     end = Some (p', r)) in Hs.
  unfold queue_send in Hs. destruct (stopped q && _) eqn:Estop.
  - apply (inj Some), pair_eq in Hs as [<- _]. apply andb_true_iff in Estop as [Estop _].
    apply (new_job_inv p q (job_view job) []); try done; [by rewrite app_nil_r|].
    right. split; [done|]. left. congruence.
  - destruct (_ <? queue_capacity); [|done]. apply (inj Some), pair_eq in Hs as [<- _].
    apply (new_job_inv p _ (job_view job) [next p]); try done; [|by left].
    change (queue q ++ [next p] = queue p ++ [next p]). by rewrite Hq.
Qed.

Lemma submit_cached_inv id type wt prompt cached opts p :
  pool_inv p -> let p' := (SubmitCached id type wt prompt cached opts p).1 in
  pool_inv p' /\ jkeep (jviews p) (jviews p').
Proof.
  intros Hi p'.
  set (job := mkJob id type wt prompt JobStatusDone "" (clock p) (Some (clock p)) (Some (clock p)) cached
               "" "" None None).
  set (ch := mkChan [mkEvent "stream" id cached None (clock p); mkEvent "complete" id "" None (clock p);
                     mkEvent EventJobCompleted id "Job completed" None (clock p)] 10 true).
  set (f := fun q => new_stream id ch (set_metadata (next p) "cached" (MBool true) q
              <| jobs ::= <[id := next p]> |> <| counters ::= fun k => k <| submitted ::= S |> |>)
              <| counters ::= fun k => k <| completed ::= S |> |>).
  assert (Hf : forall q, side q (f q)).
  { intros q. destruct (side_set_metadata (next p) "cached" (MBool true) q). split; simpl; try done. lia. }
  destruct (new_job_views job opts p f Hf) as (HJ & HV & Hts & Hq & Hst & Hn).
  change (f (apply_options (next p) opts (new_job job p).2)) with p' in HJ, HV, Hts, Hq, Hst, Hn.
  apply (new_job_inv p p' (job_view job) []); try done.
  - unfold p', SubmitCached. simpl. by rewrite cancelled_set_metadata, cancelled_apply_options.
  - by rewrite app_nil_r.
  - right. split; [done|]. by right.
Qed.

(** The calls of a run without cancellation, where every agent stays
    connected when the workers are listed. *)
Definition calm_call (k : call) : Prop :=
  match k with
  | KCancel _ => False
  | KListWorkers connected => forall w, connected w = true
  | _ => True
  end.

Lemma refresh_calm connected w p :
  pool_inv p -> (forall w, connected w = true) -> refresh connected w p = p.
Proof.
  intros Hi Hc. unfold refresh. destruct (wheap p !! w) as [x|] eqn:Hx; [|done].
  destruct (w_Agent x); [|done]. rewrite Hc. simpl.
  destruct (bool_decide _) eqn:Eb; [|done]. apply bool_decide_eq_true in Eb.
  destruct (co_worker _ _ _ _ (pv_ok _ Hi) w (worker_view x)) as [He|(id & He & _)];
    [by unfold wviews; rewrite lookup_fmap, Hx| |]; unfold worker_view in He; rewrite Eb in He; done.
Qed.

Lemma run_call_inv k p p' :
  pool_inv p -> calm_call k -> run_call k p = Some p' ->
  pool_inv p' /\ jkeep (jviews p) (jviews p').
Proof.
  intros Hi Hk. destruct k as [id type wt prompt opts ps|id type wt prompt cached opts|id|id|uuid|uuid name|name
    |uuid name d|id|conn|]; simpl; intros Hr.
  - destruct (SubmitWithOptions id type wt prompt opts ps p) as [[q r]|] eqn:Es; [|done].
    injection Hr as <-. by eapply submit_inv.
  - injection Hr as <-. by apply submit_cached_inv.
  - done.
  - apply (inj Some) in Hr as <-. unfold RemoveJob. destruct (job_of id p) as [[j job]|]; [|done].
    destruct (terminal (j_Status job)); [|done]. split; [|done]. by apply (side_inv p).
  - apply (inj Some) in Hr as <-. unfold AddWorker. destruct (full p); [done|].
    by apply (add_worker_inv (mkWorker ("w-" +:+ uuid) StatusAvailable "" (clock p) "" false None) p).
  - apply (inj Some) in Hr as <-. unfold AddWorkerWithAgent. destruct (full p); [done|].
    by apply (add_worker_inv (mkWorker ("w-" +:+ uuid) StatusAvailable "" (clock p) name false None) p).
  - apply (inj Some) in Hr as <-.
    by apply (add_worker_inv (mkWorker "default" StatusAvailable "" (clock p) name true None) p).
  - destruct (AddAgentWorker_check name p); apply (inj Some) in Hr as <-; [|done]. split; [|done].
    destruct Hi as [Hwf Hok Hf Hc]. split; try done.
    + apply Forall_app. split; [done|]. by repeat constructor.
    + eapply claims_perm; [|exact Hok]. unfold claims. simpl. rewrite omap_app. simpl. by rewrite app_nil_r.
  - apply (inj Some) in Hr as <-. unfold RemoveWorker. destruct (workers p !! id) as [w|]; [|done].
    destruct (wheap p !! w) as [x|]; [|done]. destruct (w_IsDefault x); [done|].
    split; [|done]. by apply (side_inv p).
  - apply (inj Some) in Hr as <-. unfold ListWorkers. simpl.
    assert (Hs : fold_left (fun p w => refresh conn w p) (map_to_list (workers p)).*2 p = p).
    { generalize (map_to_list (workers p)).*2 as l. induction l as [|w l IH]; simpl; [done|].
      by rewrite (refresh_calm conn w p). }
    by rewrite Hs.
  - apply (inj Some) in Hr as <-. split; [|done]. destruct Hi as [Hwf Hok Hf Hc]. split; try done.
    by eapply claims_stop.
Qed.

Definition calm (c : pchoice) : Prop := match c with PCall k => calm_call k | _ => True end.

Lemma pool_step_inv c p p' :
  pool_inv p -> calm c -> pool_step_fn c p = Some p' -> pool_inv p' /\ jkeep (jviews p) (jviews p').
Proof.
  intros Hi Hc. destruct c as [k|k a|k|t|ch]; simpl; intros Hs.
  - destruct (pthreads p !! k) as [[|i rest]|] eqn:Hk; try done.
    destruct (run_pinstr i p) as [[q t]|] eqn:Er; [|done]. apply (inj Some) in Hs as <-.
    by destruct (run_pinstr_inv k i rest t p q Hi Hk Er).
  - destruct (pthreads p !! k) as [[|i rest]|] eqn:Hk; try done.
    destruct (run_answer i a rest p) as [[q t]|] eqn:Er; [|done]. apply (inj Some) in Hs as <-.
    by destruct (run_answer_inv k i a rest t p q Hi Hk Er).
  - by eapply run_call_inv.
  - destruct (_ <=? _)%Z; [|done]. apply (inj Some) in Hs as <-. split; [|done]. by apply (side_inv p).
  - apply (inj Some) in Hs as <-. split; [|done]. by apply (side_inv p).
Qed.

(** ** Calm runs *)

Inductive calm_step (p p' : Pool) : Prop :=
| calm_step_intro c : calm c -> pool_step_fn c p = Some p' -> calm_step p p'.

Definition fresh_pool (max : Z) (allowed : list string) (recording : bool) (now : Time) : Pool :=
  Start (NewPool max allowed recording now).

Lemma fresh_pool_inv max allowed recording now : pool_inv (fresh_pool max allowed recording now).
Proof.
  split; simpl.
  - by repeat constructor.
  - split; simpl; try apply NoDup_nil_2.
    + intros j ow H. by apply not_elem_of_nil in H.
    + intros j v H. unfold jviews in H. simpl in H. by rewrite fmap_empty, lookup_empty in H.
    + intros w a H. unfold wviews in H. simpl in H. by rewrite fmap_empty, lookup_empty in H.
  - intros a _. unfold jviews, wviews. simpl. by rewrite !fmap_empty, !lookup_empty.
  - done.
Qed.

Lemma calm_run p p' :
  pool_inv p -> rtc calm_step p p' -> pool_inv p' /\ jkeep (jviews p) (jviews p').
Proof.
  intros Hi Hr. induction Hr as [p|p q p' [c Hc Hs] _ IH]; [done|].
  destruct (pool_step_inv c p q Hi Hc Hs) as [Hq Hk]. destruct (IH Hq) as [Hp' Hk'].
  split; [done|]. by etrans.
Qed.

(** A run of choices that are all calm. *)
Definition calmb (c : pchoice) : bool :=
  match c with PCall (KCancel _) | PCall (KListWorkers _) => false | _ => true end.

Lemma run_pool_calm cs p p' :
  run_pool cs p = Some p' -> forallb calmb cs = true -> rtc calm_step p p'.
Proof.
  revert p. induction cs as [|c cs IH]; intros p Hr Hc; simpl in *; [by simplify_eq|].
  apply andb_true_iff in Hc as [Hc Hcs]. destruct (pool_step_fn c p) as [q|] eqn:E; [|done].
  eapply rtc_l; [|by apply IH]. exists c; [|done].
  destruct c as [| |k| |]; try done. by destruct k.
Qed.

(** Two goroutines with a claim. *)
Lemma two_claims (ts : list pthread) k1 k2 t1 t2 c1 c2 :
  ts !! k1 = Some t1 -> ts !! k2 = Some t2 -> k1 <> k2 -> claim t1 = Some c1 -> claim t2 = Some c2 ->
  exists R, omap claim ts ≡ₚ c1 :: c2 :: R.
Proof.
  intros H1 H2 Hne Hc1 Hc2. destruct (thread_split ts k1 t1 H1) as (R1 & HR & HR').
  assert (H2' : <[k1 := []]> ts !! k2 = Some t2) by (by rewrite list_lookup_insert_ne).
  destruct (thread_split _ _ _ H2') as (R2 & HR2 & _). specialize (HR' []). simpl in HR'.
  rewrite Hc1 in HR. rewrite Hc2 in HR2. simpl in HR, HR2. exists R2.
  rewrite HR. f_equiv. by rewrite <- HR', HR2.
Qed.

(** A pool with a simulated worker for each of two jobs. *)
Definition any_worker : addr -> bool := fun _ => true.

Definition two_jobs : list pchoice :=
  [PCall (KAddWorker "1"); PCall (KAddWorker "2");
   PCall (KSubmit "job-1" "plan" "w" "p" None false); PCall (KSubmit "job-2" "plan" "w" "p" None false);
   PAnswer 0 (AJob ["w-1"; "w-2"] any_worker any_worker); PRun 0; PRun 0;
   PAnswer 0 (AJob ["w-1"; "w-2"] any_worker any_worker); PRun 0; PRun 0].

(** Where the claims come from. *)
Lemma queued_jobs (q : list addr) : (map (fun j => (j, None)) q : list claim_t).*1 = q.
Proof. induction q as [|j q IH]; [done|]. cbn. by f_equal. Qed.

Lemma claim_listed (ts : list pthread) k t c : ts !! k = Some t -> claim t = Some c -> c ∈ omap claim ts.
Proof. intros Hk Hc. apply list_elem_of_omap. exists t. split; [by eapply list_elem_of_lookup_2|done]. Qed.

Lemma elem_of_fst_thread (ts : list pthread) j :
  j ∈ (omap claim ts).*1 -> exists ow k t, ts !! k = Some t /\ claim t = Some (j, ow).
Proof.
  intros (ow & (t & Ht & Hc)%list_elem_of_omap)%elem_of_fst. apply list_elem_of_lookup in Ht as [k Hk]. by exists ow, k, t.
Qed.

(** ** Properties *)

(** C14: The pool gives each job and each worker to one goroutine and loses none.  In
    every state a run can reach in which nobody cancels a job and every listing of the
    workers finds their agents connected: the queue has no job twice; a job that a
    goroutine holds is not in the queue, and two goroutines hold different jobs and
    different workers; while the pool runs, every job that is not finished is in the
    queue or held by a goroutine, and every working worker is held by a goroutine that
    runs its current job, which is in progress. *)
Theorem pool_exclusive max allowed recording now p :
  rtc calm_step (fresh_pool max allowed recording now) p ->
  (NoDup (queue p) /\ forall k t j ow, pthreads p !! k = Some t -> claim t = Some (j, ow) -> j ∉ queue p) /\
  (forall k1 k2 t1 t2 j1 j2 ow1 ow2,
     pthreads p !! k1 = Some t1 -> pthreads p !! k2 = Some t2 -> k1 <> k2 ->
     claim t1 = Some (j1, ow1) -> claim t2 = Some (j2, ow2) -> j1 <> j2 /\ forall w, ow1 = Some w -> ow2 <> Some w) /\
  (forall j job, jheap p !! j = Some job -> terminal (j_Status job) = false -> stopped p = false ->
     j ∈ queue p \/ exists k t ow, pthreads p !! k = Some t /\ claim t = Some (j, ow)) /\
  (forall w x, wheap p !! w = Some x -> w_Status x = StatusWorking -> stopped p = false ->
     exists k t j job, pthreads p !! k = Some t /\ claim t = Some (j, Some w) /\
       jheap p !! j = Some job /\ j_Status job = JobStatusInProgress /\ w_CurrentJob x = j_ID job).
Proof.
  intros Hr. destruct (calm_run _ _ (fresh_pool_inv _ _ _ _) Hr) as [Hi _].
  pose proof (pv_ok _ Hi) as [A B Cl D E]. split_and!.
  - unfold claims in A. rewrite fmap_app in A. apply NoDup_app in A as (A & _). by rewrite queued_jobs in A.
  - intros k t j ow Hk Hc Hq. unfold claims in A. rewrite fmap_app in A. apply NoDup_app in A as (_ & A & _).
    apply (A j); [by rewrite queued_jobs|]. apply elem_of_fst. exists ow. by eapply claim_listed.
  - intros k1 k2 t1 t2 j1 j2 ow1 ow2 H1 H2 Hne Hc1 Hc2.
    destruct (two_claims _ _ _ _ _ _ _ H1 H2 Hne Hc1 Hc2) as [R HR].
    assert (HC : claims p ≡ₚ (j1, ow1) :: (j2, ow2) :: queued (queue p) ++ R).
    { unfold claims. rewrite HR. unfold queued. solve_Permutation. }
    rewrite HC in A, B. split.
    + intros ->. cbn in A. apply NoDup_cons in A as [A _]. apply A. by left.
    + intros w -> ->. cbn in B. apply NoDup_cons in B as [B _]. apply B. by left.
  - intros j job Hj Ht Hst. pose proof (D j (job_view job)) as Hin. rewrite jviews_lookup, Hj in Hin.
    specialize (Hin eq_refl Ht Hst). unfold claims in Hin. rewrite fmap_app, queued_jobs in Hin.
    apply elem_of_app in Hin as [?|(ow & Hin)%elem_of_fst_thread]; [by left|right].
    destruct Hin as (k & t & ? & ?). by exists k, t, ow.
  - intros w x Hx Hw Hst.
    assert (Hv : wviews p !! w = Some (worker_view x)) by (unfold wviews; by rewrite lookup_fmap, Hx).
    destruct (E w _ Hv) as [He|(id & He & Hin)]; unfold worker_view in He; rewrite Hw in He; [done|].
    specialize (Hin Hst). apply elem_of_snd in Hin as [j Hj].
    destruct (Cl j (Some w) Hj) as (v & Hjv & _ & Hwv). destruct (Hwv w eq_refl) as [Hs Hww].
    rewrite jviews_lookup in Hjv. destruct (jheap p !! j) as [job|] eqn:Hjob; [|done]. injection Hjv as <-.
    unfold claims in Hj. apply elem_of_app in Hj as [Hj|Hj].
    { apply list_elem_of_fmap in Hj as (? & ? & _). done. }
    apply list_elem_of_omap in Hj as (t & Ht & Hc). apply list_elem_of_lookup in Ht as [k Hk].
    exists k, t, j, job. split_and!; try done.
    rewrite Hv in Hww. unfold worker_view in Hww. by injection Hww as _ ->.
Qed.

Lemma pool_exclusive_witness :
  exists p t1 t2 j1 j2 w1 w2, run_pool two_jobs (fresh_pool 5 [] false 0%Z) = Some p /\
    pthreads p !! 1 = Some t1 /\ pthreads p !! 2 = Some t2 /\
    claim t1 = Some (j1, Some w1) /\ claim t2 = Some (j2, Some w2) /\ j1 <> j2 /\ w1 <> w2.
Proof.
  destruct (run_pool two_jobs (fresh_pool 5 [] false 0%Z)) as [p|] eqn:Er; [|by vm_compute in Er].
  assert (Hp : (fun p => (claim <$> pthreads p !! 1, claim <$> pthreads p !! 2)) <$>
    run_pool two_jobs (fresh_pool 5 [] false 0%Z) =
    Some (Some (Some (2, Some 0)), Some (Some (4, Some 1)))) by by_eval.
  rewrite Er in Hp. injection Hp as H1 H2.
  apply fmap_Some in H1 as (t1 & Ht1 & Hc1). apply fmap_Some in H2 as (t2 & Ht2 & Hc2).
  exists p, t1, t2, 2, 4, 0, 1. split; [reflexivity|].
  split; [exact Ht1|]. split; [exact Ht2|]. split; [by symmetry|]. split; [by symmetry|].
  apply run_pool_calm in Er; [|reflexivity].
  destruct (proj1 (proj2 (pool_exclusive 5 [] false 0%Z p Er)) 1 2 t1 t2 2 4 (Some 0) (Some 1) Ht1 Ht2 ltac:(done) (eq_sym Hc1) (eq_sym Hc2)) as [Hj Hw].
  split; [exact Hj|]. intros E. apply (Hw 0 eq_refl). f_equal. symmetry. exact E.
Defined.

(** A job finishes once: in a run without cancellation, a job that is done
    or failed keeps its status and its result whatever happens later. *)
Theorem job_finishes_once max allowed recording now p p' j job :
  rtc calm_step (fresh_pool max allowed recording now) p -> rtc calm_step p p' ->
  jheap p !! j = Some job -> terminal (j_Status job) = true ->
  exists job', jheap p' !! j = Some job' /\ j_Status job' = j_Status job /\ j_Result job' = j_Result job.
Proof.
  intros Hr Hr' Hj Ht. destruct (calm_run _ _ (fresh_pool_inv _ _ _ _) Hr) as [Hi _].
  destruct (calm_run _ _ Hi Hr') as [_ Hk].
  assert (Hv : jviews p !! j = Some (job_view job)) by (by rewrite jviews_lookup, Hj).
  specialize (Hk j _ Hv Ht). rewrite jviews_lookup in Hk.
  destruct (jheap p' !! j) as [job'|]; [|done]. exists job'.
  unfold job_view in Hk. by injection Hk.
Qed.

(** The first job of [two_jobs] to its end, then the second. *)
Definition sim_steps (k : nat) : list pchoice :=
  replicate 4 (PAnswer k ATimer) ++ replicate 5 (PRun k).

Lemma job_finishes_once_witness :
  exists p p' job', run_pool (two_jobs ++ sim_steps 1) (fresh_pool 5 [] false 0%Z) = Some p /\
    run_pool (sim_steps 2) p = Some p' /\
    jheap p' !! 2 = Some job' /\ j_Status job' = JobStatusDone /\ j_Result job' = "Simulated plan result for: p".
Proof.
  set (init := fresh_pool 5 [] false 0%Z).
  destruct (run_pool (two_jobs ++ sim_steps 1) init) as [p|] eqn:E1; [|by vm_compute in E1].
  assert (Hp : ((fun j => (j_Status j, j_Result j)) <$>
      (run_pool (two_jobs ++ sim_steps 1) init ≫= fun p => jheap p !! 2)) =
    Some (JobStatusDone, "Simulated plan result for: p")) by by_eval.
  assert (H2 : (fun _ => tt) <$> (run_pool (two_jobs ++ sim_steps 1) init ≫= run_pool (sim_steps 2)) = Some tt)
    by by_eval.
  rewrite E1 in Hp, H2. cbn in Hp. change (Some p ≫= run_pool (sim_steps 2)) with (run_pool (sim_steps 2) p) in H2.
  apply fmap_Some in H2 as (p' & E2 & _).
  apply fmap_Some in Hp as (job & Hj & He). injection He as Hs Hres.
  destruct (job_finishes_once 5 [] false 0%Z p p' 2 job) as (job' & Hj' & Hs' & Hr').
  - apply (run_pool_calm (two_jobs ++ sim_steps 1)); [exact E1|reflexivity].
  - apply (run_pool_calm (sim_steps 2)); [exact E2|reflexivity].
  - exact Hj.
  - by rewrite <- Hs.
  - exists p, p', job'. split; [reflexivity|]. split; [exact E2|]. split; [exact Hj'|].
    exact (conj (eq_trans Hs' (eq_sym Hs)) (eq_trans Hr' (eq_sym Hres))).
Defined.

(** ** The result of an agent *)

(** The contents of the stream events, empty ones left out. *)
Definition deltas (evs : list AgentEvent) : list string :=
  omap (fun ev => if decide (a_Type ev = EventStream /\ a_Content ev <> "") then Some (a_Content ev) else None) evs.

Definition messages (evs : list AgentEvent) : list string :=
  omap (fun ev => if decide (a_Type ev = EventAssistant /\ a_Content ev <> "") then Some (a_Content ev) else None) evs.

Definition concat_all (l : list string) : string := foldr (fun s r => s +:+ r) "" l.

Lemma concat_all_snoc l s : concat_all (l ++ [s]) = concat_all l +:+ s.
Proof.
  induction l as [|x l IH].
  - exact (string_app_nil s).
  - etrans; [exact (f_equal (fun r => x +:+ r) IH)|]. symmetry. apply string_app_assoc.
Qed.

(** What the variables of the loop hold after any number of events. *)
Lemma accumulate_spec evs :
  let acc := fold_left (fun acc ev => accumulate ev acc) evs no_output in
  acc_result acc = concat_all (deltas evs) /\
  acc_fallback acc = default "" (last (messages evs)) /\
  acc_stream acc = bool_decide (deltas evs <> []).
Proof.
  induction evs as [|ev evs (IH1 & IH2 & IH3)] using rev_ind; simpl; [done|].
  rewrite fold_left_app. cbn [fold_left]. unfold deltas, messages in *. rewrite !omap_app. cbn [omap list_omap].
  set (acc := fold_left _ evs no_output) in *. unfold accumulate.
  destruct (decide (a_Type ev = EventStream)) as [Ht|Ht].
  - destruct (decide (a_Type ev = EventStream /\ a_Content ev <> "")) as [[_ Hc]|Hc].
    + destruct (decide (a_Content ev = "")); [done|].
      destruct (decide (a_Type ev = EventAssistant /\ _)) as [[Ha _]|_]; [by rewrite Ht in Ha|].
      cbn. rewrite IH1, IH2, app_nil_r, concat_all_snoc. split_and!; [done|done|].
      symmetry. apply bool_decide_eq_true. by destruct (omap _ evs).
    + destruct (decide (a_Content ev = "")) as [|Hne]; [|by destruct Hc].
      destruct (decide (a_Type ev = EventAssistant /\ _)) as [[Ha _]|_]; [by rewrite Ht in Ha|].
      by rewrite !app_nil_r.
  - destruct (decide (a_Type ev = EventStream /\ a_Content ev <> "")) as [[? _]|_]; [done|].
    rewrite app_nil_r. destruct (decide (a_Type ev = EventAssistant)) as [Ha|Ha].
    + destruct (decide (a_Type ev = EventAssistant /\ a_Content ev <> "")) as [[_ Hc]|Hc].
      * destruct (decide (a_Content ev = "")); [done|]. cbn. rewrite IH1, IH3, last_snoc. done.
      * destruct (decide (a_Content ev = "")) as [|Hne]; [|by destruct Hc]. by rewrite app_nil_r.
    + destruct (decide (a_Type ev = EventAssistant /\ _)) as [[? _]|_]; [done|]. by rewrite app_nil_r.
Qed.

(** The result of an agent's turn: whatever events an agent sends, the
    job's text is the concatenation of the streamed deltas in order when there
    is one, else the last full message, so that text sent in both forms is
    never counted twice. *)
Theorem agent_result_spec (evs : list AgentEvent) :
  final_result (fold_left (fun acc ev => accumulate ev acc) evs no_output) =
  match deltas evs with [] => default "" (last (messages evs)) | ds => concat_all ds end.
Proof.
  destruct (accumulate_spec evs) as (H1 & H2 & H3). unfold final_result. rewrite H1, H2, H3.
  destruct (deltas evs) as [|d ds]; simpl; [|done].
  destruct (last (messages evs)) as [m|]; simpl; [|done].
  by destruct (bool_decide (m <> "")) eqn:E; [|apply bool_decide_eq_false, dec_stable in E].
Qed.
