(* ===== verification/PoolFaults.v ===== *)
(** * Runs of the worker pool that go wrong

    Concrete runs of the steps of Pool.v in which a cancellation, a full
    stream, a race for the limit or a listing of the workers breaks what
    PoolRun.v proves of calm runs, with what the graph scheduler makes of
    them. *)

From S2P Require Import Prelude SchedulerRun Pool PoolRun.

(** A run evaluates to a state in which [P] holds. *)
Lemma pool_run_with {A} (f : Pool -> A) (x : A) cs p0 (P : Pool -> Prop) :
  f <$> run_pool cs p0 = Some x ->
  (forall p, run_pool cs p0 = Some p -> f p = x -> P p) ->
  exists p, run_pool cs p0 = Some p /\ P p.
Proof.
  destruct (run_pool cs p0) as [p|] eqn:E; intros Hf HP; [|done].
  injection Hf as Hf. exists p. split; [done|]. by apply HP.
Qed.

Definition agent_event (type content : string) : AgentEvent := mkAgentEvent type content None 0%Z "".

(** The dispatcher takes the next job and starts its goroutine. *)
Definition dispatch_to (order : list string) : list pchoice :=
  [PAnswer 0 (AJob order any_worker any_worker); PRun 0; PRun 0].

(** One agent worker, at address 0, and a job, at address 1 with its stream at
    2, whose goroutine, number 2, has sent the prompt. *)
Definition agent_job : list pchoice :=
  [PCall (KAddAgent "1" "claude" false); PAnswer 1 (ALookup (Ok "claude"));
   PCall (KSubmit "job-1" "implement" "w" "p" None false)] ++ dispatch_to ["ag-1"] ++
  [PAnswer 2 (ASent (Ok tt))].

Definition one_worker : Pool := fresh_pool 1 [] false 0%Z.

Definition status_of (p : Pool) (j : addr) : option JobStatus := j_Status <$> (jheap p !! j).
Definition worker_of (p : Pool) (w : addr) : option (WorkerStatus * string) := worker_view <$> (wheap p !! w).

(** ** Cancelling *)

(** The job is cancelled, a second one (at address 4, goroutine 3) gets its
    worker, and then the agent of the first one completes. *)
Definition cancel_and_reuse : list pchoice :=
  agent_job ++ [PCall (KCancel "job-1"); PCall (KSubmit "job-2" "implement" "w" "p" None false)] ++
  dispatch_to ["ag-1"] ++ [PAnswer 3 (ASent (Ok tt))].

(** A cancelled job frees the worker of another job: cancelling releases
    the worker at once, so that the next job gets it, but the goroutine of the
    cancelled job goes on; when its agent completes, the failed job becomes
    done and the worker is marked available while the second job still runs
    on it. *)
Theorem cancel_frees_busy_worker :
  exists p, run_pool cancel_and_reuse one_worker = Some p /\
    status_of p 1 = Some JobStatusFailed /\ worker_of p 0 = Some (StatusWorking, "job-2") /\
    exists p', run_pool [PAnswer 2 (AEvent (agent_event EventComplete "")); PRun 2] p = Some p' /\
      status_of p' 1 = Some JobStatusDone /\ worker_of p' 0 = Some (StatusAvailable, "") /\
      status_of p' 4 = Some JobStatusInProgress /\ (claim <$> pthreads p' !! 3) = Some (Some (4, Some 0)).
Proof.
  set (rest := [PAnswer 2 (AEvent (agent_event EventComplete "")); PRun 2]).
  apply (pool_run_with (fun p => (status_of p 1, worker_of p 0,
      (fun p' => (status_of p' 1, worker_of p' 0, status_of p' 4, claim <$> pthreads p' !! 3)) <$> run_pool rest p))
    (Some JobStatusFailed, Some (StatusWorking, "job-2"),
     Some (Some JobStatusDone, Some (StatusAvailable, ""), Some JobStatusInProgress, Some (Some (4, Some 0)))));
    [by_eval|].
  intros p _ Hf. injection Hf as -> -> Hr. split; [done|]. split; [done|].
  apply fmap_Some in Hr as (p' & Hp' & He). injection He as H1 H2 H3 H4. exists p'.
  split; [exact Hp'|]. by rewrite <- H1, <- H2, <- H3, <- H4.
Qed.

(** What a watcher is told of a job: the view of its record. *)
Definition job_record (p : Pool) (j : addr) : option JobView :=
  (fun job => mkJobView (bool_decide (j_Status job = JobStatusFailed)) (j_Error job) (j_Result job))
    <$> (jheap p !! j).

Definition stream_types (p : Pool) (ch : addr) : list string :=
  match cheap p !! ch with Some c => map e_Type (ch_buf c) | None => [] end.

(** The job is cancelled and its agent closes its channel. *)
Definition cancel_and_close : list pchoice :=
  agent_job ++ [PCall (KCancel "job-1"); PAnswer 2 AClosed; PRun 2; PRun 2].

(** A cancelled job counts as a success: when the agent of a cancelled job
    closes its channel, the goroutine announces [job_completed] although the
    job is failed, and the scheduler, which takes the event's word, completes
    the node as done with an empty result. *)
Theorem cancelled_job_succeeds :
  exists p, run_pool cancel_and_close one_worker = Some p /\
    job_record p 1 = Some (mkJobView true "cancelled" "") /\
    stream_types p 2 = ["job_started"; EventJobCompleted] /\
    watchNode "job-1" WCompleted (job_record p 1) = ([], Some (Ok "")).
Proof.
  apply (pool_run_with (fun p => (job_record p 1, stream_types p 2))
    (Some (mkJobView true "cancelled" ""), ["job_started"; EventJobCompleted])); [by_eval|].
  intros p _ Hf. injection Hf as -> ->. done.
Qed.

(** A job that was cancelled in the queue is given to a worker all the same. *)
Theorem cancelled_queued_job_runs :
  exists p, run_pool ([PCall (KAddWorker "1"); PCall (KSubmit "job-1" "plan" "w" "p" None false);
                       PCall (KCancel "job-1")] ++ dispatch_to ["w-1"]) one_worker = Some p /\
    status_of p 1 = Some JobStatusInProgress.
Proof. apply (pool_run_with (fun p => status_of p 1) (Some JobStatusInProgress)); [by_eval|done]. Qed.

(** ** A stream that is full *)

(** The agent streams 99 deltas that nobody reads, then completes. *)
Definition unread_stream : list pchoice :=
  agent_job ++ replicate 99 (PAnswer 2 (AEvent (agent_event EventStream "x"))) ++
  [PAnswer 2 (AEvent (agent_event EventComplete ""))] ++ replicate 5 (PRun 2).

(** A full stream loses the result: the stream holds 100 events and drops
    the rest, the announcement of the completion among them; the watcher then
    finds the stream closed and completes the node with an empty result,
    although the job is done and its record has the whole text. *)
Theorem full_stream_loses_result :
  exists p, run_pool unread_stream one_worker = Some p /\
    status_of p 1 = Some JobStatusDone /\
    job_record p 1 = Some (mkJobView false "" (String.concat "" (replicate 99 "x"))) /\
    EventJobCompleted ∉ stream_types p 2 /\ (ch_closed <$> cheap p !! 2) = Some true /\
    watchNode "job-1" WClosed (job_record p 1) = ([], Some (Ok "")).
Proof.
  apply (pool_run_with (fun p => (status_of p 1, job_record p 1,
      bool_decide (EventJobCompleted ∈ stream_types p 2), ch_closed <$> cheap p !! 2))
    (Some JobStatusDone, Some (mkJobView false "" (String.concat "" (replicate 99 "x"))), false, Some true));
    [by_eval|].
  intros p _ (((Hs & Hj)%pair_eq & Hb)%pair_eq & Hc)%pair_eq.
  rewrite Hs, Hj, Hc. split_and!; try done. by apply bool_decide_eq_false in Hb.
Qed.

(** ** Limits *)

(** Two additions of agent workers that overlap pass the same check, so that
    the pool has more workers than its maximum. *)
Theorem agent_workers_exceed_limit :
  exists p, run_pool [PCall (KAddAgent "1" "claude" false); PCall (KAddAgent "2" "codex" false);
      PAnswer 1 (ALookup (Ok "claude")); PAnswer 2 (ALookup (Ok "codex"))] one_worker = Some p /\
    maxWorkers p = 1%Z /\ size (workers p) = 2.
Proof.
  apply (pool_run_with (fun p => (maxWorkers p, size (workers p))) (1%Z, 2)); [by_eval|].
  intros p _ Hf. by injection Hf as -> ->.
Qed.

(** The default worker is added whatever the limit says. *)
Theorem default_worker_ignores_limit name p :
  workers p !! "default" = None ->
  size (workers (AddDefaultWorker name p).1) = S (size (workers p)).
Proof. intros Hn. unfold AddDefaultWorker. simpl. by rewrite map_size_insert_None. Qed.

(** The stream of a cached job stays in the map when the job is removed. *)
Theorem cached_stream_leaks :
  exists p, run_pool [PCall (KSubmitCached "job-1" "plan" "w" "p" "r" None); PCall (KRemoveJob "job-1")]
      one_worker = Some p /\
    GetJob "job-1" p = None /\ Stream "job-1" p <> None.
Proof.
  apply (pool_run_with (fun p => (GetJob "job-1" p, bool_decide (Stream "job-1" p = None))) (None, false)); [by_eval|].
  intros p _ Hf. injection Hf as -> Hb. split; [done|]. by apply bool_decide_eq_false in Hb.
Qed.

(** A listing while the agent of a busy worker is disconnected for a moment,
    and another one after it is back, mark the worker available. *)
Theorem listing_frees_busy_worker :
  exists p, run_pool (agent_job ++ [PCall (KListWorkers (fun _ => false)); PCall (KListWorkers any_worker)])
      one_worker = Some p /\
    status_of p 1 = Some JobStatusInProgress /\ worker_of p 0 = Some (StatusAvailable, "job-1").
Proof.
  apply (pool_run_with (fun p => (status_of p 1, worker_of p 0))
    (Some JobStatusInProgress, Some (StatusAvailable, "job-1"))); [by_eval|].
  intros p _ Hf. by injection Hf as -> ->.
Qed.
