(* ===== verification/Retry.v ===== *)
(** * Retries and the circuit breaker

    Translates [internal/retry/circuit.go] and retry.go.  Every method of the
    breaker holds its lock for the whole body.  [RetryableOp] runs beside other
    users of the same breaker: what they do while an attempt runs or sleeps is
    an argument, as are the clock, the outcomes of the operation and the end of
    the context.  The jitter of the delay is left out: it only changes how long
    the operation sleeps. *)

From S2P Require Import Prelude.

(** ** The breaker *)

Inductive CircuitState := CircuitClosed | CircuitOpen | CircuitHalfOpen.

#[export] Instance CircuitState_eq_dec : EqDecision CircuitState.
Proof. solve_decision. Defined.

Definition CircuitState_String (s : CircuitState) : string :=
  match s with CircuitClosed => "closed" | CircuitOpen => "open" | CircuitHalfOpen => "half-open" end.

Record CircuitBreaker := mkBreaker {
  cb_name : string;
  threshold : Z;
  cooldown : Duration;
  cb_state : CircuitState;
  consecutiveFails : Z;
  lastFailure : Time
}.

#[export] Instance eta_CircuitBreaker : Eta CircuitBreaker := fun cb =>
  mkBreaker (cb_name cb) (threshold cb) (cooldown cb) (cb_state cb) (consecutiveFails cb) (lastFailure cb).

Definition second : Duration := 1000000000%Z.

Definition NewCircuitBreaker (name : string) (thr : Z) (cool : Duration) : CircuitBreaker :=
  mkBreaker name (if (thr <=? 0)%Z then 5%Z else thr) (if (cool <=? 0)%Z then (30 * second)%Z else cool)
    CircuitClosed 0%Z 0%Z.

Definition Allow (now : Time) (cb : CircuitBreaker) : CircuitBreaker * bool :=
  match cb_state cb with
  | CircuitClosed => (cb, true)
  | CircuitHalfOpen => (cb, false)
  | CircuitOpen =>
      if (cooldown cb <=? now - lastFailure cb)%Z then (cb <| cb_state := CircuitHalfOpen |>, true)
      else (cb, false)
  end.

Definition RecordSuccess (cb : CircuitBreaker) : CircuitBreaker :=
  cb <| consecutiveFails := 0%Z |> <| cb_state := CircuitClosed |>.

Definition RecordFailure (now : Time) (cb : CircuitBreaker) : CircuitBreaker :=
  let cb := cb <| consecutiveFails := (consecutiveFails cb + 1)%Z |> <| lastFailure := now |> in
  if (threshold cb <=? consecutiveFails cb)%Z || bool_decide (cb_state cb = CircuitHalfOpen)
  then cb <| cb_state := CircuitOpen |> else cb.

(** The calls on a breaker, in the order they take its lock. *)
Inductive cb_op := OpAllow (now : Time) | OpSuccess | OpFailure (now : Time).

Definition run_cb_op (o : cb_op) (cb : CircuitBreaker) : CircuitBreaker :=
  match o with
  | OpAllow now => (Allow now cb).1
  | OpSuccess => RecordSuccess cb
  | OpFailure now => RecordFailure now cb
  end.

Definition run_cb_ops (os : list cb_op) (cb : CircuitBreaker) : CircuitBreaker :=
  fold_left (fun cb o => run_cb_op o cb) os cb.

(** ** Retrying *)

Definition maxBackoff : Duration := (5 * 60 * second)%Z.

(** The delay before the jitter: a 64-bit shift, then the cap. *)
Definition backoff (base : Duration) (attempt : nat) : Duration :=
  let shift := Z.min (Z.of_nat attempt) 62 in
  let delay := wrap64 (Z.shiftl base shift) in
  if (delay <=? 0)%Z || (maxBackoff <? delay)%Z then maxBackoff else delay.

Definition retryableSubstrings : list string :=
  ["Unable to create"; ".lock"; "File exists"; "lock file"; "could not lock"; "Cannot lock ref";
   "temporarily unavailable"; "try again"; "resource temporarily"].

Definition IsRetryable (msg : string) : bool := existsb (fun sub => contains sub msg) retryableSubstrings.

Inductive RetryError :=
| ErrCircuitOpen (name : string)
| ErrLast (err : string)
| ErrCancelled (err : string)
| ErrExhausted (attempts : Z) (last : option string).

(** What happens around one attempt: the clock at [Allow], the outcome of [fn],
    the clock at [RecordFailure], the calls of others while [fn] runs and while
    the operation sleeps, and the error of the context when it ends the sleep. *)
Record attempt_env := mkAttempt {
  at_allow : Time;
  at_outcome : result string unit;
  at_record : Time;
  at_during : list cb_op;
  at_sleep : list cb_op;
  at_cancel : option string
}.

(** The loop from attempt [n] with [fuel] attempts to go, and the outcomes of
    the attempts it makes.  Without a breaker [cb] is [None]. *)
Fixpoint retry_loop (fuel n : nat) (maxRetries : Z) (check : string -> bool) (env : nat -> attempt_env)
    (lastErr : option string) (cb : option CircuitBreaker)
  : option CircuitBreaker * result RetryError unit * list (result string unit) :=
  match fuel with
  | 0 => (cb, Err (ErrExhausted (maxRetries + 1) lastErr), [])
  | S fuel =>
      let a := env n in
      let '(cb, admitted) := match cb with
                             | None => (None, true)
                             | Some b => let '(b, ok) := Allow (at_allow a) b in (Some b, ok)
                             end in
      if negb admitted
      then (cb, Err (ErrCircuitOpen (match cb with Some b => cb_name b | None => "" end)), [])
      else
        let cb := run_cb_ops (at_during a) <$> cb in
        match at_outcome a with
        | Ok _ => (RecordSuccess <$> cb, Ok tt, [Ok tt])
        | Err e =>
            let cb := RecordFailure (at_record a) <$> cb in
            if (Z.of_nat n =? maxRetries)%Z
            then (cb, Err (ErrExhausted (maxRetries + 1) (Some e)), [Err e])
            else if negb (check e) then (cb, Err (ErrLast e), [Err e])
            else match at_cancel a with
                 | Some c => (cb, Err (ErrCancelled c), [Err e])
                 | None =>
                     let '(cb, r, outs) := retry_loop fuel (S n) maxRetries check env (Some e)
                                             (run_cb_ops (at_sleep a) <$> cb) in
                     (cb, r, Err e :: outs)
                 end
        end
  end.

Definition RetryableOp (maxRetries : Z) (check : option (string -> bool)) (env : nat -> attempt_env)
    (cb : option CircuitBreaker)
  : option CircuitBreaker * result RetryError unit * list (result string unit) :=
  retry_loop (Z.to_nat (maxRetries + 1)) 0 maxRetries (default IsRetryable check) env None cb.

(** ** Lemmas *)

(** What the loop promises: the attempts but the last failed with an error that
    may be retried, it succeeds exactly when the last attempt did, and it makes
    no more attempts than it may. *)
Definition retry_promise (fuel : nat) (maxRetries : Z) (check : string -> bool)
    (r : result RetryError unit) (outs : list (result string unit)) : Prop :=
  length outs <= fuel /\
  (forall i o, outs !! i = Some o -> S i < length outs -> exists e, o = Err e /\ check e = true) /\
  (r = Ok tt <-> last outs = Some (Ok tt)) /\
  (forall k e, r = Err (ErrExhausted k e) -> length outs = fuel /\ k = (maxRetries + 1)%Z) /\
  (forall e, r = Err (ErrLast e) -> last outs = Some (Err e) /\ check e = false).

Lemma retry_loop_promise fuel n maxRetries check env lastErr cb :
  (Z.of_nat fuel + Z.of_nat n = maxRetries + 1)%Z ->
  let '(_, r, outs) := retry_loop fuel n maxRetries check env lastErr cb in
  retry_promise fuel maxRetries check r outs.
Proof.
  revert n lastErr cb. induction fuel as [|fuel IH]; intros n lastErr cb Hn; simpl.
  { unfold retry_promise. simpl. split_and!; try done; try lia; intros; simplify_eq; done. }
  destruct (match cb with None => _ | Some b => _ end) as [cb1 admitted]. destruct admitted; simpl.
  2:{ unfold retry_promise. simpl. split_and!; try done; try lia; intros; simplify_eq. }
  destruct (at_outcome (env n)) as [[]|e].
  { unfold retry_promise. simpl. split_and!; try done; try lia; intros; simplify_eq. }
  destruct (Z.eqb_spec (Z.of_nat n) maxRetries) as [Hmax|Hmax].
  { unfold retry_promise. simpl. split_and!; try done; try lia; intros; simplify_eq.
    split; [lia|done]. }
  destruct (check e) eqn:Ec; simpl.
  2:{ unfold retry_promise. simpl. split_and!; try done; try lia; intros; by simplify_eq. }
  destruct (at_cancel (env n)) as [c|].
  { unfold retry_promise. simpl. split_and!; try done; try lia; intros; simplify_eq. }
  specialize (IH (S n) (Some e) (run_cb_ops (at_sleep (env n)) <$> (RecordFailure (at_record (env n)) <$>
    (run_cb_ops (at_during (env n)) <$> cb1))) ltac:(lia)).
  destruct (retry_loop fuel _ _ _ _ _ _) as [[cb2 r] outs].
  destruct IH as (Hlen & Hall & Hok & Hex & Hlast). unfold retry_promise. simpl.
  split_and!.
  - lia.
  - intros [|i] o Ho Hi; simpl in Ho; [injection Ho as <-; by exists e|]. apply (Hall i o Ho). lia.
  - rewrite Hok. destruct outs as [|o outs]; [|done]. simpl.
    split; [done|]. intros H. discriminate.
  - intros k e' Hr. destruct (Hex k e' Hr). split; [lia|done].
  - intros e' Hr. destruct (Hlast e' Hr) as [Hl Hc]. split; [|done]. by destruct outs.
Qed.

(** A closed breaker is below its threshold. *)
Definition breaker_ok (cb : CircuitBreaker) : Prop :=
  (0 < threshold cb)%Z /\ (0 <= consecutiveFails cb)%Z /\
  (cb_state cb = CircuitClosed -> consecutiveFails cb < threshold cb)%Z.

Lemma breaker_ok_step o cb : breaker_ok cb -> breaker_ok (run_cb_op o cb) /\
  threshold (run_cb_op o cb) = threshold cb /\ cooldown (run_cb_op o cb) = cooldown cb.
Proof.
  intros Hok. pose proof Hok as (Ht & Hf & Hc). destruct o as [now| |now]; simpl.
  - unfold Allow. destruct (cb_state cb) eqn:Es; simpl; try done.
    destruct (_ <=? _)%Z; simpl; [|done]. by split_and!.
  - split_and!; done.
  - unfold RecordFailure. simpl.
    destruct (Z.leb_spec (threshold cb) (consecutiveFails cb + 1)) as [Hle|Hlt]; simpl.
    + unfold breaker_ok. simpl. split_and!; try done; lia.
    + destruct (bool_decide (cb_state cb = CircuitHalfOpen)) eqn:Eh; unfold breaker_ok; simpl;
        split_and!; try done; lia.
Qed.

Lemma breaker_ok_run os cb : breaker_ok cb -> breaker_ok (run_cb_ops os cb) /\
  threshold (run_cb_ops os cb) = threshold cb /\ cooldown (run_cb_ops os cb) = cooldown cb.
Proof.
  revert cb. induction os as [|o os IH]; intros cb Hok; simpl; [done|].
  destruct (breaker_ok_step o cb Hok) as (H1 & H2 & H3). destruct (IH _ H1) as (H4 & H5 & H6).
  split_and!; [done|congruence|congruence].
Qed.

(** The times at which a breaker admits a call, of those in [times]. *)
Fixpoint admitted (times : list Time) (cb : CircuitBreaker) : list Time :=
  match times with
  | [] => []
  | t :: times => let '(cb, ok) := Allow t cb in if ok then t :: admitted times cb else admitted times cb
  end.

Lemma admitted_half_open times cb : cb_state cb = CircuitHalfOpen -> admitted times cb = [].
Proof. induction times as [|t times IH]; intros Hs; simpl; [done|]. unfold Allow. rewrite Hs. by apply IH. Qed.

Lemma admitted_open times cb :
  cb_state cb = CircuitOpen ->
  length (admitted times cb) <= 1 /\
  forall t, t ∈ admitted times cb -> (lastFailure cb + cooldown cb <= t)%Z.
Proof.
  induction times as [|t times IH]; intros Hs; simpl.
  { split; [lia|]. by intros t ?%not_elem_of_nil. }
  unfold Allow. rewrite Hs. destruct (Z.leb_spec (cooldown cb) (t - lastFailure cb)) as [Hle|Hlt].
  - rewrite admitted_half_open by done. simpl. split; [lia|].
    intros t' Ht. apply list_elem_of_singleton in Ht as ->. lia.
  - by apply IH.
Qed.

Lemma failures_open times cb :
  (threshold cb <= consecutiveFails cb + Z.of_nat (length times))%Z -> times <> [] ->
  cb_state (run_cb_ops (map OpFailure times) cb) = CircuitOpen.
Proof.
  intros Hlen Hne.
  assert (Hrun : forall ts c, consecutiveFails (run_cb_ops (map OpFailure ts) c) =
      (consecutiveFails c + Z.of_nat (length ts))%Z /\
    threshold (run_cb_ops (map OpFailure ts) c) = threshold c).
  { induction ts as [|t ts IH]; intros c; simpl; [split; [lia|done]|].
    destruct (IH (RecordFailure t c)) as [H1 H2]. unfold run_cb_ops in *. simpl. rewrite H1, H2.
    unfold RecordFailure. simpl. destruct (_ || _); simpl; split; try done; lia. }
  destruct times as [|t times _] using rev_ind; [done|].
  rewrite map_app. unfold run_cb_ops. rewrite fold_left_app. simpl. fold (run_cb_ops (map OpFailure times) cb).
  destruct (Hrun times cb) as [H1 H2]. rewrite length_app in Hlen. simpl in Hlen.
  unfold RecordFailure. simpl. rewrite H1, H2.
  destruct (Z.leb_spec (threshold cb) (consecutiveFails cb + Z.of_nat (length times) + 1)); simpl; [done|lia].
Qed.

(** ** Properties *)

(** The circuit breaker guards the service: whatever calls came before,
    while it is closed fewer failures than the threshold have come in a row
    and as many as the threshold open it; once it is open, no call is admitted
    before the cooldown is over, and at most one is until somebody records an
    outcome. *)
Theorem circuit_breaker_guards name thr cool os times :
  let cb := run_cb_ops os (NewCircuitBreaker name thr cool) in
  (cb_state cb = CircuitClosed -> consecutiveFails cb < threshold cb)%Z /\
  ((threshold cb <= Z.of_nat (length times))%Z ->
     cb_state (run_cb_ops (map OpFailure times) cb) = CircuitOpen) /\
  (cb_state cb <> CircuitClosed ->
     length (admitted times cb) <= 1 /\
     forall t, t ∈ admitted times cb -> (lastFailure cb + cooldown cb <= t)%Z).
Proof.
  intros cb. destruct (breaker_ok_run os (NewCircuitBreaker name thr cool)) as ((Ht & Hf & Hc) & _ & _).
  { unfold breaker_ok, NewCircuitBreaker. simpl. destruct (Z.leb_spec thr 0); split_and!; lia. }
  fold cb in Ht, Hf, Hc. split; [done|]. split.
  - intros Hlen. apply failures_open; [lia|]. intros ->. simpl in Hlen. lia.
  - intros Hs. destruct (cb_state cb) eqn:E; [done|by apply admitted_open|].
    rewrite admitted_half_open by done. simpl. split; [lia|]. by intros t ?%not_elem_of_nil.
Qed.

(** Retrying keeps its contract: with [maxRetries] at least 0, whatever
    the environment does, the operation makes at most [maxRetries] + 1
    attempts, it returns nil exactly when its last attempt succeeded, every
    attempt before the last one failed with an error that may be retried, it
    reports exhaustion only after all attempts, and it returns an error as it
    is only when that error may not be retried. *)
Theorem retry_outcome maxRetries check env cb :
  (0 <= maxRetries)%Z ->
  let '(_, r, outs) := RetryableOp maxRetries check env cb in
  (Z.of_nat (length outs) <= maxRetries + 1)%Z /\
  (r = Ok tt <-> last outs = Some (Ok tt)) /\
  (forall i o, outs !! i = Some o -> S i < length outs ->
     exists e, o = Err e /\ default IsRetryable check e = true) /\
  (forall k e, r = Err (ErrExhausted k e) ->
     k = (maxRetries + 1)%Z /\ Z.of_nat (length outs) = (maxRetries + 1)%Z) /\
  (forall e, r = Err (ErrLast e) -> last outs = Some (Err e) /\ default IsRetryable check e = false).
Proof.
  intros Hmax. unfold RetryableOp.
  pose proof (retry_loop_promise (Z.to_nat (maxRetries + 1)) 0 maxRetries (default IsRetryable check) env
    None cb ltac:(lia)) as Hp.
  destruct (retry_loop _ _ _ _ _ _ _) as [[cb' r] outs]. destruct Hp as (H1 & H2 & H3 & H4 & H5).
  split_and!; [lia|done|done| |done].
  intros k e Hr. destruct (H4 k e Hr). split; [done|lia].
Qed.

(** Two lock failures, then success. *)
Definition flaky_env (n : nat) : attempt_env :=
  mkAttempt 0%Z (if n <? 2 then Err "could not lock" else Ok tt) 0%Z [] [] None.

Lemma retry_outcome_witness :
  let '(_, r, outs) := RetryableOp 3%Z None flaky_env None in
  outs = [Err "could not lock"; Err "could not lock"; Ok tt] /\ r = Ok tt.
Proof.
  pose proof (retry_outcome 3%Z None flaky_env None ltac:(lia)) as H.
  destruct (RetryableOp 3%Z None flaky_env None) as [[cb r] outs] eqn:E.
  assert (Ho : (RetryableOp 3%Z None flaky_env None).2 = [Err "could not lock"; Err "could not lock"; Ok tt])
    by by_eval.
  rewrite E in Ho. simpl in Ho. split; [exact Ho|].
  destruct H as (_ & H & _). apply H. by rewrite Ho.
Defined.

(** The delay is positive and capped, and it is the exponential one while that
    fits a 64-bit integer. *)
Theorem backoff_bounds base attempt :
  (0 < backoff base attempt <= maxBackoff)%Z /\
  (0 < base -> base * 2 ^ Z.of_nat attempt < 2 ^ 63 -> (attempt <= 62)%nat ->
   backoff base attempt = Z.min (base * 2 ^ Z.of_nat attempt) maxBackoff)%Z.
Proof.
  unfold backoff. cbv zeta. split.
  - destruct (Z.leb_spec (wrap64 (Z.shiftl base (Z.min (Z.of_nat attempt) 62))) 0); simpl;
      [unfold maxBackoff, second; lia|].
    destruct (Z.ltb_spec maxBackoff (wrap64 (Z.shiftl base (Z.min (Z.of_nat attempt) 62))));
      unfold maxBackoff, second in *; lia.
  - intros Hb Hlt Ha. rewrite Z.min_l by lia. rewrite Z.shiftl_mul_pow2 by lia.
    assert (Hpos : (0 < base * 2 ^ Z.of_nat attempt)%Z) by (apply Z.mul_pos_pos; lia).
    rewrite wrap64_id by lia.
    destruct (Z.leb_spec (base * 2 ^ Z.of_nat attempt) 0); [lia|]. simpl.
    destruct (Z.ltb_spec maxBackoff (base * 2 ^ Z.of_nat attempt)); lia.
Qed.

(** The cap on the shift does not prevent the overflow: a base of 67 ms and
    1 ns shifted 38 times wraps around to a delay below the one it replaces. *)
Theorem backoff_overflows :
  (maxBackoff < 67108865 * 2 ^ 38)%Z /\ backoff 67108865%Z 38 = (2 ^ 38)%Z.
Proof. split; by_eval. Qed.
