(* ===== verification/Budget.v ===== *)
(** * The token budget

    Translates [internal/worker/middleware_budget.go] and middleware.go.  The
    counter is an atomic 64-bit integer: a call of [TryAdd] is a loop of a load
    and a compare-and-swap that other calls interleave with, so the calls are
    threads of a step relation.  The warning at 80% only logs and is left
    out. *)

From S2P Require Import Prelude.

(** ** Data *)

Record TokenBudget := mkBudget { consumed : Z; limit : Z }.

#[export] Instance eta_TokenBudget : Eta TokenBudget := fun b => mkBudget (consumed b) (limit b).

Definition NewTokenBudget (l : Z) : TokenBudget := mkBudget 0%Z l.

(** A call and where it is: before the load, between the load and the swap
    with the value it loaded, or returned. *)
Inductive budget_call :=
| TryAdd (tokens : Z)
| Loaded (tokens current : Z)
| Add (tokens : Z)
| Returned (tokens : Z) (ok : bool).

(** ** Operations *)

(** [consumed.Add]: an atomic addition of machine integers. *)
Definition atomic_add (tokens : Z) (b : TokenBudget) : TokenBudget :=
  b <| consumed := wrap64 (consumed b + tokens) |>.

(** The next step of a call. *)
Definition call_step (c : budget_call) (b : TokenBudget) : option (TokenBudget * budget_call) :=
  match c with
  | TryAdd tokens =>
      if (limit b =? 0)%Z then Some (atomic_add tokens b, Returned tokens true)
      else Some (b, Loaded tokens (consumed b))
  | Loaded tokens current =>
      if (limit b <? wrap64 (current + tokens))%Z then Some (b, Returned tokens false)
      else if (consumed b =? current)%Z
      then Some (b <| consumed := wrap64 (current + tokens) |>, Returned tokens true)
      else Some (b, TryAdd tokens)
  | Add tokens =>
      let b := atomic_add tokens b in
      Some (b, Returned tokens ((limit b =? 0)%Z || (consumed b <=? limit b)%Z))
  | Returned _ _ => None
  end.

Definition Remaining (b : TokenBudget) : Z :=
  if (limit b =? 0)%Z then (-1)%Z else
  let remaining := wrap64 (limit b - consumed b) in
  if (remaining <? 0)%Z then 0%Z else remaining.

(** The calls of a budget, each at its own point. *)
Definition budget_state : Type := TokenBudget * list budget_call.

(** Call number [k] takes a step. *)
Definition budget_step_fn (k : nat) (s : budget_state) : option budget_state :=
  match s.2 !! k with
  | Some c => match call_step c s.1 with
              | Some (b, c) => Some (b, <[k := c]> s.2)
              | None => None
              end
  | None => None
  end.

Inductive budget_step (s s' : budget_state) : Prop :=
| budget_step_intro k : budget_step_fn k s = Some s' -> budget_step s s'.

Fixpoint run_budget (ks : list nat) (s : budget_state) : option budget_state :=
  match ks with
  | [] => Some s
  | k :: ks => match budget_step_fn k s with Some s => run_budget ks s | None => None end
  end.

(** ** Middlewares *)

(** An agent call over a world [W]; a middleware wraps one. *)
Definition AgentExecFunc (W : Type) : Type := string -> W -> W * result string unit.
Definition AgentMiddleware (W : Type) : Type := AgentExecFunc W -> AgentExecFunc W.

(** The loop over the middlewares from the last one. *)
Definition Chain {W} (ms : list (AgentMiddleware W)) : AgentMiddleware W :=
  fun next => fold_left (fun next m => m next) (reverse ms) next.

Definition estimate_tokens (prompt : string) : Z := Z.of_nat (String.length prompt) / 4.

(** A [TryAdd] that nothing interleaves with, see [try_add_alone]. *)
Definition try_add (tokens : Z) (b : TokenBudget) : TokenBudget * bool :=
  if (limit b =? 0)%Z then (atomic_add tokens b, true)
  else if (limit b <? wrap64 (consumed b + tokens))%Z then (b, false)
  else (atomic_add tokens b, true).

Definition exhausted_error (b : TokenBudget) : string :=
  "budget_exhausted: token budget exceeded (consumed: " +:+ pretty (consumed b) +:+ ", limit: " +:+
  pretty (limit b) +:+ ")".

(** [BudgetMiddleware] for a call of its own, where [get] and [put] reach the
    budget in the world; a nil budget is [None]. *)
Definition BudgetMiddleware {W} (get : W -> option TokenBudget) (put : TokenBudget -> W -> W)
  : AgentMiddleware W :=
  fun next prompt w =>
    match get w with
    | None => next prompt w
    | Some b =>
        match try_add (estimate_tokens prompt) b with
        | (b, true) => next prompt (put b w)
        | (b, false) => (put b w, Err (exhausted_error b))
        end
    end.

(** ** Lemmas *)

(** The tokens of the calls that returned true. *)
Definition granted (cs : list budget_call) : Z :=
  foldr (fun c n => match c with Returned t true => (t + n)%Z | _ => n end) 0%Z cs.

Definition tokens_of (c : budget_call) : Z :=
  match c with TryAdd t | Loaded t _ | Add t | Returned t _ => t end.

(** Calls of [TryAdd] with sane numbers of tokens, as they may be at a limit. *)
Definition call_ok (l : Z) (c : budget_call) : Prop :=
  (0 <= tokens_of c)%Z /\ (tokens_of c + l < 2 ^ 63)%Z /\
  match c with Add _ => False | Loaded _ cur => (0 <= cur <= l)%Z | _ => True end.

Lemma granted_insert cs k c c' :
  cs !! k = Some c ->
  granted (<[k := c']> cs) =
  (granted cs - match c with Returned t true => t | _ => 0 end + match c' with Returned t true => t | _ => 0 end)%Z.
Proof.
  revert k. induction cs as [|x cs IH]; intros [|k] Hk; simplify_eq/=.
  - destruct c as [| | |t []], c' as [| | |t' []]; lia.
  - rewrite (IH k Hk). destruct x as [| | |t []]; lia.
Qed.

Definition budget_inv (l : Z) (s : budget_state) : Prop :=
  limit s.1 = l /\ (0 <= consumed s.1 <= l)%Z /\ consumed s.1 = granted s.2 /\ Forall (call_ok l) s.2.

Lemma budget_step_inv l k s s' :
  (0 < l)%Z -> budget_inv l s -> budget_step_fn k s = Some s' -> budget_inv l s'.
Proof.
  intros Hl (Hlim & Hc & Hg & Hok) Hs. destruct s as [b cs]. unfold budget_step_fn in Hs. simpl in *.
  destruct (cs !! k) as [c|] eqn:Hk; [|done].
  pose proof (proj1 (Forall_lookup _ _) Hok k c Hk) as (Ht0 & Htl & Hcur).
  destruct c as [t|t cur|t|t ok]; simpl in *; [|..|done].
  - destruct (Z.eqb_spec (limit b) 0); [lia|]. injection Hs as <-. unfold budget_inv. simpl.
    split_and!; try done; try lia.
    + rewrite (granted_insert _ _ _ _ Hk). lia.
    + apply Forall_insert; [done|]. unfold call_ok. simpl. lia.
  - destruct (Z.ltb_spec (limit b) (wrap64 (cur + t))) as [Hlt|Hle].
    + injection Hs as <-. unfold budget_inv. simpl. split_and!; try done; try lia.
      * rewrite (granted_insert _ _ _ _ Hk). lia.
      * by apply Forall_insert.
    + rewrite wrap64_id in Hle, Hs by lia. destruct (Z.eqb_spec (consumed b) cur) as [He|He];
        injection Hs as <-; unfold budget_inv; simpl; split_and!; try done; try lia.
      * rewrite (granted_insert _ _ _ _ Hk). lia.
      * by apply Forall_insert.
      * rewrite (granted_insert _ _ _ _ Hk). lia.
      * by apply Forall_insert.
  - done.
Qed.

Lemma run_budget_rtc ks s s' : run_budget ks s = Some s' -> rtc budget_step s s'.
Proof.
  revert s. induction ks as [|k ks IH]; intros s Hr; simpl in Hr; [by simplify_eq|].
  destruct (budget_step_fn k s) as [s1|] eqn:E; [|done]. eapply rtc_l; [by econstructor|by apply IH].
Qed.

(** ** Properties *)

(** C26: The budget is never exceeded: however any number of [TryAdd] calls
    interleave, with a positive limit and numbers of tokens that fit, the
    consumed total stays between 0 and the limit and is exactly the sum of
    what the calls that returned true asked for. *)
Theorem budget_never_exceeded l (calls : list Z) s :
  (0 < l)%Z -> Forall (fun t => 0 <= t /\ t + l < 2 ^ 63)%Z calls ->
  rtc budget_step (NewTokenBudget l, map TryAdd calls) s ->
  (0 <= consumed s.1 <= l)%Z /\ consumed s.1 = granted s.2.
Proof.
  intros Hl Hcalls Hr.
  assert (Hi : budget_inv l (NewTokenBudget l, map TryAdd calls)).
  { unfold budget_inv. simpl. split_and!; try done; try lia.
    - clear. by induction calls.
    - apply Forall_map. eapply Forall_impl; [exact Hcalls|]. intros t [? ?]. by unfold call_ok. }
  clear Hcalls. induction Hr as [s|s s1 s2 [k Hs] _ IH].
  - by destruct Hi as (_ & ? & ? & _).
  - apply IH. by eapply budget_step_inv.
Qed.

(** Two calls that load at the same time: one of them has to load again. *)
Lemma budget_never_exceeded_witness :
  exists s, run_budget [0; 1; 0; 1; 1; 1] (NewTokenBudget 10%Z, map TryAdd [6%Z; 6%Z]) = Some s /\
    s.2 = [Returned 6%Z true; Returned 6%Z false] /\ (0 <= consumed s.1 <= 10)%Z.
Proof.
  eexists. split; [by_eval|]. split; [reflexivity|].
  refine (proj1 (budget_never_exceeded 10%Z [6%Z; 6%Z] _ ltac:(lia) _ _)).
  - repeat constructor; lia.
  - apply (run_budget_rtc [0; 1; 0; 1; 1; 1]). by_eval.
Defined.

(** The first middleware of a chain is the outermost one. *)
Lemma chain_order {W} (ms : list (AgentMiddleware W)) next :
  Chain ms next = foldr (fun m k => m k) next ms.
Proof.
  unfold Chain, reverse. rewrite <- rev_alt, <- fold_left_rev_right, rev_involutive. done.
Qed.

(** Alone, a call of [TryAdd] returns after at most two steps, with the result
    of [try_add]. *)
Lemma try_add_alone tokens b :
  exists ks, run_budget ks (b, [TryAdd tokens]) =
    Some ((try_add tokens b).1, [Returned tokens (try_add tokens b).2]).
Proof.
  unfold try_add. destruct (limit b =? 0)%Z eqn:El.
  - exists [0]. simpl. unfold budget_step_fn. simpl. by rewrite El.
  - exists [0; 0]. simpl. unfold budget_step_fn. simpl. rewrite El. simpl.
    destruct (limit b <? _)%Z; [done|]. by rewrite Z.eqb_refl.
Qed.
