(* ===== verification/PhaseCtl.v ===== *)
(** * The conductor's phases: state, environment and primitives

    The fields of the [Conductor] struct (conductor/conductor.go) that the
    phases use, the questions a phase asks its environment, the goroutines it
    starts, and the small methods every phase calls.  A method is a [proc] over
    [Ctl]: [Writes] and [Reads] are accesses to fields behind [c.mu], [Free]
    ones go through the machine's own lock, the events' lock or an atomic. *)

From S2P Require Import Prelude Floats WorkUnit Transitions Machine Persist Interfaces Conductor.
From S2P Require Import Progress Errors VarPool Findings FailClass Policy RespCache Proc ProcLocks.
From S2P Require Import Names.
From S2P Require Scheduler.

(** ** Settings

    The effective settings the phases read.  They are loaded once and cached;
    the model has them constant. *)

Record TransitionHook := mkHook { hk_Command : string; hk_Description : string; hk_Required : bool }.

Record RiskBasedApproval := mkRiskBased {
  rba_Enabled : bool;
  AutoApproveThreshold : spec_float;
  HighRiskThreshold : spec_float
}.

Record StartSettings := mkStartSettings {
  CreateBranch : bool;
  BranchPattern : string;
  BranchValidationPattern : string;
  UseWorktreeIsolation : bool;
  ProvisionEnabled : bool;
  IncludeParentContext : bool;
  IncludeSiblingContext : bool
}.

Record Settings := mkSettings {
  ApprovalRequired : gset string;
  RiskApproval : option RiskBasedApproval;
  MinSpecSections : Z;
  ReviewChecklist : list string;
  RequiredPhases : list string;
  SensitivePaths : list string;
  DocRequirements : list DocRequirement;
  RequireSecurityScan : bool;
  Hooks : gmap string (list TransitionHook);
  PhaseGuardrails : gmap string (list string);
  SkipPhasesSetting : list string;
  PhaseAgent : gmap string string;
  SyncSubmit : bool;
  CanaryEnabled : bool;
  ProgressEnabled : bool;
  AutoFixEnabled : bool;
  AutoFixPhases : list string;
  AutoFixMaxAttempts : Z;
  HoldTheLineEnabled : bool;
  FailureClassificationEnabled : bool;
  FailureHistoryWindow : Z;
  ExternalReviewCommand : string;
  ExternalReviewMode : string;
  CommitPattern : string;
  BaseBranch : string;
  CIWatchEnabled : bool;
  CIAutoFix : bool;
  Identity : string;
  StartWith : StartSettings
}.

(** The settings of one conductor, found by instance search. *)
Class Config := cfg : Settings.

(** ** State *)

Inductive FailurePolicy := FailurePolicyFail | FailurePolicyRetry | FailurePolicySkip.

Record PhasePolicy := mkPhasePolicy { pp_Policy : FailurePolicy; pp_MaxRetries : Z; pp_RetryDelay : Duration }.

(** A strategy is one of the two that can be registered. *)
Inductive Strategy := Direct | Iterative.

Record SpecWatcher := mkSpecWatcher { sw_files : gmap string Time; sw_changed : bool }.

(** [stray] is [c.workUnit] while it is not the machine's: a task being started,
    or one that its branch name has kept from starting.  The other calls look at
    the machine's work unit, so what they do with a task kept from starting is
    not modelled. *)
Record Ctl (W : Type) := mkCtl {
  cd : Conductor W;
  activeScheduler : option string;
  phaseStartedAt : option Time;
  specWatcher : option SpecWatcher;
  autoAdvance : bool;
  runtimeSkipPhases : list string;
  dryRun : bool;
  varPool : VarMap;
  strategy : option Strategy;
  phaseStrategies : gmap string Strategy;
  iterationCount : gmap string Z;
  maxIterations : Z;
  phasePolicies : gmap string PhasePolicy;
  retryCount : gmap string Z;
  router : option Z;
  lastFailureClass : FailureClass;
  autoFixAttempt : Z;
  autoFixLastErr : string;
  qualityGateCh : option nat;
  closedChans : list bool;
  responseCache : option Cache;
  progressEstimator : option ProgressEstimator;
  progressCalibrator : ProgressCalibrator;
  canaryHarness : bool;
  hasTaskGroupChecker : bool;
  hasProviders : bool;
  hasIndexer : bool;
  failclassHistory : option FailHistory;
  eventLog : list (string * string);
  stray : option WorkUnit
}.
Arguments mkCtl {W}.
Arguments cd {W}.
Arguments activeScheduler {W}.
Arguments phaseStartedAt {W}.
Arguments specWatcher {W}.
Arguments autoAdvance {W}.
Arguments runtimeSkipPhases {W}.
Arguments dryRun {W}.
Arguments varPool {W}.
Arguments strategy {W}.
Arguments phaseStrategies {W}.
Arguments iterationCount {W}.
Arguments maxIterations {W}.
Arguments phasePolicies {W}.
Arguments retryCount {W}.
Arguments router {W}.
Arguments lastFailureClass {W}.
Arguments autoFixAttempt {W}.
Arguments autoFixLastErr {W}.
Arguments qualityGateCh {W}.
Arguments closedChans {W}.
Arguments responseCache {W}.
Arguments progressEstimator {W}.
Arguments progressCalibrator {W}.
Arguments canaryHarness {W}.
Arguments hasTaskGroupChecker {W}.
Arguments hasProviders {W}.
Arguments hasIndexer {W}.
Arguments failclassHistory {W}.
Arguments eventLog {W}.
Arguments stray {W}.

#[export] Instance eta_Ctl {W} : Eta (Ctl W) := fun s =>
  mkCtl (cd s) (activeScheduler s) (phaseStartedAt s) (specWatcher s) (autoAdvance s)
    (runtimeSkipPhases s) (dryRun s) (varPool s) (strategy s) (phaseStrategies s)
    (iterationCount s) (maxIterations s) (phasePolicies s) (retryCount s) (router s)
    (lastFailureClass s) (autoFixAttempt s) (autoFixLastErr s) (qualityGateCh s) (closedChans s)
    (responseCache s) (progressEstimator s) (progressCalibrator s) (canaryHarness s)
    (hasTaskGroupChecker s) (hasProviders s) (hasIndexer s) (failclassHistory s) (eventLog s) (stray s).

(** ** The environment and the goroutines *)

(** What a worker's stream, a finished job and the graph scheduler report. *)
Record StreamEvent := mkStream { st_Type : string; st_Content : string }.

Record JobInfo := mkJobInfo {
  jb_Prompt : string;
  jb_Result : string;
  jb_Duration : option Duration;
  jb_AgentOverride : option string;
  jb_WorkerAgent : string;
  jb_RecordingPath : string;
  jb_InputTokens : Z;
  jb_OutputTokens : Z;
  jb_TotalTokens : Z
}.

(** The results of a graph run: for each node its text and whether it is done. *)
Definition GraphResults := list (string * (string * bool)).

(** [provider.Task], and the parent and sibling tasks attached to one. *)
Record RelatedTask := mkRelated {
  rt_ID : string;
  rt_Title : string;
  rt_Description : string;
  rt_URL : string;
  rt_Labels : list string
}.

Record ProviderTask := mkProviderTask {
  pt_ID : string;
  pt_Title : string;
  pt_Description : string;
  pt_ParentTask : option RelatedTask;
  pt_SiblingTasks : list RelatedTask
}.
#[export] Instance eta_ProviderTask : Eta ProviderTask := fun t =>
  mkProviderTask (pt_ID t) (pt_Title t) (pt_Description t) (pt_ParentTask t) (pt_SiblingTasks t).

Inductive question :=
| QNow
| QHook (command workDir : string)
| QDiffLines (workDir : string)
| QDiffNumStat
| QFactorOrder
| QPrompt (phase : string)
| QCanarySetup
| QCanaryCheck (output : string)
| QNewScheduler (jobType prompt workDir : string)
| QGitOpen (workDir : string)
| QStageAll (workDir : string)
| QHasChanges (workDir : string)
| QCommit (workDir message : string)
| QHeadCommit (workDir : string)
| QDefaultBranch
| QCommitsSince (workDir sha : string)
| QSubmitJob (jobType workDir prompt : string) (cached : option string)
| QStream (jobID : string)
| QGetJob (jobID : string)
| QGraphRun (sched : string) (resume : list (string * string))
| QGraphResults (sched : string)
| QModTime (path : string)
| QSpecFiles (dir : string)
| QCommitSpecs (taskID : string)
| QCacheOrder
| QApprover
| QPromptUser (question : string)
| QCheckers (workDir : string)
| QQualityRunner (workDir : string)
| QSecurityScan (workDir : string)
| QDiffHunks (base : string)
| QLookPath (command : string)
| QReviewTool (path workDir : string)
| QTaskGroup (taskID : string)
| QDiffFiles
| QPush (branch : string)
| QProvider (name : string)
| QBranchWarnings (base : string)
| QMissingSections
| QCreatePR (branch base : string)
| QDeleteBranch (branch : string)
| QDeleteRemoteBranch (branch : string)
| QRemoveWorktree (path : string)
| QCheckout (branch : string)
| QPull
| QMergeProvider (operation prID argument : string)
| QFetchTask (name id : string)
| QFetchParent (name id : string)
| QFetchSiblings (name id : string)
| QUUID
| QAddWorktree (path branch startPoint : string)
| QProvision (srcDir worktreeDir : string)
| QBranchExists (branch : string)
| QSwitchBranch (branch : string)
| QCreateBranch (branch base : string)
| QDiscoverTools (dir : string)
| QMetricsOrder
| QPriorContext (recordingPath phase : string).

Definition answer (q : question) : Type :=
  match q with
  | QNow => Time
  | QHook _ _ => option string
  | QDiffLines _ => option Z
  | QDiffNumStat => option (Z * Z * list string)
  | QFactorOrder => list (string * spec_float) -> list (string * spec_float)
  | QPrompt _ => string
  | QCanarySetup => bool
  | QCanaryCheck _ => nat * string
  | QNewScheduler _ _ _ => string
  | QGitOpen _ | QStageAll _ | QHasChanges _ => bool
  | QCommit _ _ | QHeadCommit _ => option string
  | QDefaultBranch => result string string
  | QCommitsSince _ _ => option (list (string * string * bool))
  | QSubmitJob _ _ _ _ => result string string
  | QStream _ => option (list StreamEvent * bool)
  | QGetJob _ => option JobInfo
  | QGraphRun _ _ => list Scheduler.SchedulerEvent * bool
  | QGraphResults _ => GraphResults
  | QModTime _ => option Time
  | QSpecFiles _ => option (list (string * bool))
  | QCommitSpecs _ => option string
  | QCacheOrder => list string
  | QApprover => string
  | QPromptUser _ => result string bool
  | QCheckers _ => list (string * result string (list Finding))
  | QQualityRunner _ => option (result string (bool * list string))
  | QSecurityScan _ => option (list Finding)
  | QDiffHunks _ => option (gmap string (list LineRange))
  | QLookPath _ => option string
  | QReviewTool _ _ => option string
  | QTaskGroup _ => option string
  | QDiffFiles => option (list string)
  | QPush _ => option string
  | QProvider _ => result string bool
  | QBranchWarnings _ => list string
  | QMissingSections => list string
  | QCreatePR _ _ => result string (string * string)
  | QDeleteBranch _ | QDeleteRemoteBranch _ | QRemoveWorktree _ | QPull => bool
  | QCheckout _ => option string
  | QMergeProvider _ _ _ => result string unit
  | QFetchTask _ _ => result string ProviderTask
  | QFetchParent _ _ => result string (option RelatedTask)
  | QFetchSiblings _ _ => result string (list RelatedTask)
  | QUUID => string
  | QAddWorktree _ _ _ => option string
  | QProvision _ _ => result string (nat * nat * nat * string)
  | QBranchExists _ => bool
  | QSwitchBranch _ => option string
  | QCreateBranch _ _ => option string
  | QDiscoverTools _ => list string
  | QMetricsOrder => list string
  | QPriorContext _ _ => string
  end.

(** The calls of the interface and the goroutines the phases start. *)
Inductive call :=
| CallPlan
| CallImplement
| CallSimplify
| CallOptimize
| CallReview (fix_ : bool)
| CallSubmit (deleteBranch : bool)
| CallFinish (deleteRemote force : bool)
| CallApprovePR (comment : string)
| CallMergePR (method : string)
| CallFinalizePhase (done_ : Event)
| CallApprove (event : string)
| CallCheckReviewItem (item : string)
| CallUncheckReviewItem (item : string)
| CallSetAutoAdvance (enabled : bool)
| CallStop
| CallAbort
| CallReset
| CallStart (source : string)
| CallResume (sha : string)
| GoEmit (e : ConductorEvent)
| GoWatchJob (jobID : string) (done_ : Event)
| GoWatchGraph (sched : string) (done_ : Event)
| GoResubmit (phase : string)
| GoRetry (phase : string)
| GoRoute (phase : string)
| GoIndex (done_ : Event)
| GoRemoveJob (jobID : string)
| GoQualityGate
| GoSpecAlignment (workDir : string)
| GoCIFix
| GoStart (source : string)
| GoAdvance (phase : string).

(** The pure functions of the standard library and of other packages whose
    results are only stored or shown. *)
Class Env := {
  json_of_error : UserError -> string;
  json_of_risk : RiskScore -> string;
  fmt2 : spec_float -> string;
  sha256_hex : string -> string;
  path_clean : string -> string;
  SpecificationsDir : string -> string;
  text_libs :: TextLibs;
  git_path : string;
  worktrees_dir : string;
  registry_names : gset string;
  hierarchy_names : gset string
}.

(** ** Names *)

Definition phaseFromEvent (event : Event) : string :=
  go_switch event [(EventPlanDone, EventPlan); (EventImplementDone, EventImplement);
    (EventSimplifyDone, EventSimplify); (EventOptimizeDone, EventOptimize)] "".

Definition expectedInProgressState (phase : string) : State :=
  go_switch phase [(EventPlan, StatePlanning); (EventImplement, StateImplementing);
    (EventSimplify, StateSimplifying); (EventOptimize, StateOptimizing)] NoState.

Definition stateToPhase (s : State) : string :=
  go_switch s [(StatePlanning, PhasePlan); (StateImplementing, PhaseImplement);
    (StateSimplifying, PhaseSimplify); (StateOptimizing, PhaseOptimize)] "".

Definition phaseToScope (phase : string) : string :=
  go_switch phase [(PhasePlan, ScopePlan); (PhaseImplement, ScopeImplement);
    (PhaseSimplify, ScopeSimplify); (PhaseOptimize, ScopeOptimize); (PhaseReview, ScopeReview)] phase.

Definition JobTypePlan : string := "plan".
Definition JobTypeImplement : string := "implement".
Definition JobTypeSimplify : string := "simplify".
Definition JobTypeOptimize : string := "optimize".
Definition JobTypeReview : string := "review".
Definition JobTypeDryRun : string := "dry_run".

(** ** Strategies: [agent/strategy] *)

Definition unresolvedMarkers : list string := ["TODO"; "FIXME"; "HACK"; "NEEDS_REVIEW"; "XXX"].

(** [strings.ToUpper] on ASCII. *)
Definition upper_ascii (c : Ascii.ascii) : Ascii.ascii :=
  let n := Ascii.nat_of_ascii c in
  if (97 <=? n) && (n <=? 122) then Ascii.ascii_of_nat (n - 32) else c.

Fixpoint to_upper (s : string) : string :=
  match s with "" => "" | String c s => String (upper_ascii c) (to_upper s) end.

(** The marker that asks for another iteration; [None] is the status
    "complete". *)
Definition EvaluateOutput (st : Strategy) (output : string) : option string :=
  match st with
  | Direct => None
  | Iterative => List.find (fun m => contains m (to_upper output)) unresolvedMarkers
  end.

(** ** Costs: [estimateCost] *)

Definition token_prices (agentName : string) : option (spec_float * spec_float) :=
  go_switch agentName
    [("anthropic", Some (float_of_Z 3, float_of_Z 15)); ("openai", Some (float_dec 25 1, float_of_Z 10));
     ("ollama", None)] (Some (float_of_Z 3, float_of_Z 15)).

Definition estimateCost (agentName : string) (inputTokens outputTokens : Z) : spec_float :=
  match token_prices agentName with
  | None => float_zero
  | Some (inPrice, outPrice) =>
      float_add (float_mul (float_div (float_of_Z inputTokens) (float_of_Z 1000000)) inPrice)
                (float_mul (float_div (float_of_Z outputTokens) (float_of_Z 1000000)) outPrice)
  end.

(** ** The primitives *)

Section prims.
Context {W : Type} {HG : Git W} {HJ : JobControl W} {HT : TaskFiles W} {HC : Config} {HE : Env}.
Notation cproc := (@proc (Ctl W) question call answer).
Notation ask := (@ask (Ctl W) question call answer).
Local Open Scope proc_scope.
Implicit Types (s : Ctl W).

Definition upd_cd (f : Conductor W -> Conductor W) s : Ctl W := s <| cd ::= f |>.

(** [c.emit] *)
Definition emits (e : ConductorEvent) : cproc unit := freely (upd_cd (emit e)).

(** [c.machine.State()] *)
Definition machine_state : cproc State := peeks (fun s => state (machine (cd s))).

Definition emits_state (type msg : string) : cproc unit :=
  let* st := machine_state in emits (simple_event type st msg).

Definition emitEnrichedError (err phase : string) : cproc unit :=
  let ue := EnrichError err phase in
  emits (mkConductorEvent "error" NoState "" (ue_Fix ue) (json_of_error ue) <| ce_Error := ue_Message ue |>).

Definition work_unit : cproc (option WorkUnit) := reads (fun s => cd_workUnit (cd s)).

(** [c.workUnit.f], a nil dereference when there is none. *)
Definition the_unit : cproc WorkUnit :=
  let* wu := work_unit in match wu with Some wu => Ret wu | None => Panic end.

Definition write_unit (f : WorkUnit -> WorkUnit) : cproc unit :=
  let* _ := the_unit in writes (upd_cd (upd_workUnit f)).

Definition dispatches (event : Event) : cproc (result string unit) :=
  let* now := ask QNow in
  update Free (fun s => let '(m, r) := Dispatch now event (machine (cd s)) in
                        (upd_cd (fun c => c <| machine := m |>) s, r)).

Definition set_prior (st : State) : cproc unit :=
  freely (upd_cd (fun c => c <| machine ::= SetPriorStableState st |>)).
Definition clear_prior : cproc unit :=
  freely (upd_cd (fun c => c <| machine ::= ClearPriorStableState |>)).

Definition persists : cproc unit := writes (upd_cd persistState).

Definition getWorkDir s : string :=
  match cd_workUnit (cd s) with
  | Some wu => if decide (wu_WorktreePath wu = "") then worktree (cd s) else wu_WorktreePath wu
  | None => worktree (cd s)
  end.

Definition touch_unit : cproc unit :=
  let* now := ask QNow in write_unit (fun wu => wu <| wu_UpdatedAt := now |>).

(** [emitEventLog] with the type and phase of the entry. *)
Definition emitEventLog (type phase : string) : cproc unit :=
  freely (fun s => s <| eventLog ::= fun l => l ++ [(type, phase)] |>).

(** *** Checkpoints *)

(** The commit of everything uncommitted, [None] when any step fails or there
    is nothing to commit. *)
Definition commit_all (dir message : string) : cproc (option string) :=
  let* opened := ask (QGitOpen dir) in
  if negb opened then Ret None else
  let* staged := ask (QStageAll dir) in
  if negb staged then Ret None else
  let* changes := ask (QHasChanges dir) in
  if negb changes then Ret None else
  let* msg := reads (fun s => formatCheckpointMessage message (cd s)) in
  ask (QCommit dir msg).

Definition append_checkpoint (sha : string) : cproc unit :=
  write_unit (fun wu => wu <| wu_Checkpoints ::= fun l => l ++ [sha] |>).

Definition createSafetyCheckpoint (message : string) : cproc unit :=
  let* dir := reads getWorkDir in
  let* sha := commit_all dir message in
  match sha with None => Ret tt | Some sha => append_checkpoint sha end.

Definition record_meta (sha message : string) : cproc unit :=
  let* st := machine_state in
  let* now := ask QNow in
  writes (upd_cd (upd_workUnit (recordCheckpointMeta now sha message st))).

(** The agent's own commit, when it is not a checkpoint already. *)
Definition capture_head (dir : string) (with_meta : option string) : cproc unit :=
  let* head := ask (QHeadCommit dir) in
  match head with
  | None | Some "" => Ret tt
  | Some sha =>
      let* wu := the_unit in
      if slice_contains (wu_Checkpoints wu) sha then Ret tt else
      append_checkpoint sha;;;
      match with_meta with None => Ret tt | Some m => record_meta sha m end
  end.

(** The checkpoint after a job: [watchJob] also records its metadata, the graph
    path does not. *)
Definition completion_checkpoint (completionEvent : Event) (meta : bool) : cproc unit :=
  let* dir := reads getWorkDir in
  let* opened := ask (QGitOpen dir) in
  if negb opened then Ret tt else
  let* staged := ask (QStageAll dir) in
  if negb staged then Ret tt else
  let* changes := ask (QHasChanges dir) in
  let message := completionEvent +:+ " complete" in
  if changes then
    let* msg := reads (fun s => formatCheckpointMessage message (cd s)) in
    let* sha := ask (QCommit dir msg) in
    match sha with
    | None => Ret tt
    | Some sha =>
        append_checkpoint sha;;;
        if meta then record_meta sha message else Ret tt
    end
  else capture_head dir (if meta then Some (message +:+ " (agent commit)") else None).
End prims.
