(* ===== verification/PhaseSim.v ===== *)
(** * A simulated conductor

    Settings, pure functions, a state and answers of the environment for the
    concrete runs of the phases.  None of them is an instance found by search
    unless a file declares it. *)

From S2P Require Import Prelude Floats WorkUnit Transitions Machine Persist Interfaces Conductor.
From S2P Require Import Progress Errors VarPool Findings FailClass Policy RespCache Names Proc PhaseCtl.

(** Everything optional is off. *)
Definition sim_settings : Settings :=
  mkSettings ∅ None 0 [] [] [] [] false ∅ ∅ [] ∅ false false false false [] 0 false false 0
    "" "never" "" "main" false false "tester"
    (mkStartSettings true "" "" true false false false).

Definition sim_env : Env := {|
  json_of_error _ := "{}";
  json_of_risk _ := "{}";
  fmt2 _ := "0.00";
  sha256_hex s := s;
  path_clean s := s;
  SpecificationsDir id := "work/" +:+ id +:+ "/specifications";
  text_libs := sim_libs;
  git_path := "repo";
  worktrees_dir := ".kvelmo-worktrees";
  registry_names := list_to_set registered;
  hierarchy_names := ∅
|}.

Definition sim_ctl_of (c : Conductor SimWorld) : Ctl SimWorld :=
  mkCtl c None None None false [] false ∅ None ∅ ∅ 5%Z ∅ ∅ (Some 2%Z) "" 0%Z "" None [] None None ∅
    false false false false None [] None.

(** In [st], with the task of the machine's sample. *)
Definition sim_ctl (st : State) : Ctl SimWorld := sim_ctl_of (sim_conductor st ["a"] []).

(** Jobs are accepted, commands succeed, nothing is found. *)
Definition sim_answer (n : nat) (q : question) : answer q :=
  match q return answer q with
  | QNow => sim_clock n
  | QHook _ _ => None
  | QDiffLines _ => Some 0%Z
  | QDiffNumStat => Some (0%Z, 0%Z, [])
  | QFactorOrder => id
  | QPrompt phase => "prompt for " +:+ phase
  | QCanarySetup => false
  | QCanaryCheck _ => (0, "")
  | QNewScheduler _ _ _ => "sched-1"
  | QGitOpen _ | QStageAll _ | QHasChanges _ => true
  | QCommit _ _ => Some ("commit-" +:+ pretty (Z.of_nat n))
  | QHeadCommit _ => None
  | QDefaultBranch => Ok "main"
  | QCommitsSince _ _ => None
  | QSubmitJob _ _ _ _ => Ok "job-2"
  | QStream _ => None
  | QGetJob _ => None
  | QGraphRun _ _ => ([], true)
  | QGraphResults _ => []
  | QModTime _ => None
  | QSpecFiles _ => None
  | QCommitSpecs _ => None
  | QCacheOrder => []
  | QApprover => "tester"
  | QPromptUser _ => Ok false
  | QCheckers _ => []
  | QQualityRunner _ => None
  | QSecurityScan _ => None
  | QDiffHunks _ => None
  | QLookPath _ => None
  | QReviewTool _ _ => None
  | QTaskGroup _ => None
  | QDiffFiles => Some []
  | QPush _ => None
  | QProvider _ => Ok true
  | QBranchWarnings _ => []
  | QMissingSections => []
  | QCreatePR _ _ => Ok ("https://example/1", "1")
  | QDeleteBranch _ | QDeleteRemoteBranch _ | QRemoveWorktree _ | QPull => true
  | QCheckout _ => None
  | QMergeProvider _ _ _ => Ok tt
  | QFetchTask _ id => Ok (mkProviderTask id "Add a button" "A button is missing" None [])
  | QFetchParent _ _ => Ok None
  | QFetchSiblings _ _ => Ok []
  | QUUID => "uuid-" +:+ pretty (Z.of_nat n)
  | QAddWorktree _ _ _ => None
  | QProvision _ _ => Ok (0, 0, 0, "{}")
  | QBranchExists _ => false
  | QSwitchBranch _ => None
  | QCreateBranch _ _ => None
  | QDiscoverTools _ => []
  | QMetricsOrder => []
  | QPriorContext _ _ => ""
  end.

(** The worker pool refuses every job. *)
Definition sim_pool_full (n : nat) (q : question) : answer q :=
  match q return answer q with
  | QSubmitJob _ _ _ _ => Err "job queue full"
  | q => sim_answer n q
  end.

(** Results are encoded as nothing; the graph runs of the simulation keep none. *)
Definition sim_encode (_ : list (string * string)) : string := "".
Definition sim_decode (_ : string) : option (list (string * string)) := None.
