(* ===== verification/PhaseJobs.v ===== *)
(** * Starting a phase

    Translates [Plan], [Implement], [Simplify] and [Optimize]
    (conductor_plan.go, conductor_implement.go) with what they call before the
    agent starts: approval (conductor_approve.go), hooks (hooks.go), guardrails
    (conductor_guardrail.go), the reset of per-phase state
    (conductor_accessors.go), progress (conductor_progress.go) and the response
    cache (conductor_cache.go).  The prompt of a phase is an answer of the
    environment, and the options of a job are left out. *)

From S2P Require Import Prelude Floats WorkUnit Transitions Machine Persist Interfaces Conductor.
From S2P Require Import Progress Errors VarPool Findings Policy RespCache Proc ProcLocks PhaseCtl.

(** ** Complexity: complexity.go *)

Definition ComplexitySimple : string := "simple".
Definition ComplexityMedium : string := "medium".
Definition ComplexityComplex : string := "complex".

Definition complexArchitecturalKeywords : list string :=
  ["refactor"; "redesign"; "migrate"; "breaking-change"; "architecture"; "integrate"; "replace";
   "abstract"; "rewrite"; "restructure"; "overhaul"; "design pattern"].

Definition complexLabels : list string :=
  ["architecture"; "breaking-change"; "migration"; "refactor"; "redesign"; "epic"].

Definition isDefinitelyComplex (combinedText : string) (fileCount : Z) (labels : list string)
    (hasParent : bool) : bool :=
  (4 <=? fileCount)%Z || hasParent ||
  existsb (fun k => contains k combinedText) complexArchitecturalKeywords ||
  existsb (fun l => slice_contains complexLabels (to_lower l)) labels.

Definition isDefinitelySimple (title content : string) (fileCount : Z) : bool :=
  (String.length title <=? 100) && (String.length content <=? 500) && (fileCount <=? 1)%Z.

Definition DetectTaskComplexity (title content : string) (fileCount : Z) (labels : list string)
    (hasParent : bool) : string :=
  if isDefinitelyComplex (to_lower title +:+ " " +:+ to_lower content) fileCount labels hasParent
  then ComplexityComplex
  else if isDefinitelySimple title content fileCount then ComplexitySimple else ComplexityMedium.

Section phases.
Context {W : Type} {HG : Git W} {HJ : JobControl W} {HT : TaskFiles W} {HC : Config} {HE : Env}.
Notation cproc := (@proc (Ctl W) question call answer).
Notation ask := (@ask (Ctl W) question call answer).
Local Open Scope proc_scope.
Implicit Types (s : Ctl W).

(** ** Approval *)

(** The git handle is read under a lock of its own, so a caller that holds
    [c.mu] already blocks here. *)
Definition evaluateRiskUnlocked : cproc RiskScore :=
  lock Read;;;
  let* git := reads (fun s => hasGit (cd s)) in
  unlock Read;;;
  let* stat := (if git then ask QDiffNumStat else Ret None) in
  let* order := ask QFactorOrder in
  Ret (EvaluateRisk order
    match stat with
    | Some (added, removed, files) =>
        mkRiskInput added removed files (SensitivePaths cfg) 0
          (Z.of_nat (length (List.filter isTestFile files))) (Z.of_nat (length files))
    | None => mkRiskInput 0 0 [] (SensitivePaths cfg) 0 0 0
    end).

(** [EvaluateRisk], the exported call. *)
Definition evaluate_risk_call : cproc RiskScore :=
  lock Read;;;
  let* wu := work_unit in
  match wu with
  | None => unlock Read;;; Ret (mkRiskScore float_zero [] LevelLow)
  | Some _ => unlock Read;;; evaluateRiskUnlocked
  end.

Definition emitRiskEvaluated (score : RiskScore) : cproc unit :=
  let* st := machine_state in
  emits (mkConductorEvent "risk_evaluated" st ""
    ("Risk evaluated: " +:+ fmt2 (rs_Score score) +:+ " (" +:+ rs_Level score +:+ ")")
    (json_of_risk score)).

Definition approved (event : Event) (wu : WorkUnit) : bool :=
  match wu_Approvals wu with
  | None => false
  | Some m => match m !! event with
              | Some r => bool_decide (ApprovedAt r <> 0%Z)
              | None => false
              end
  end.

Definition explicit_approval (event : Event) (msg err : string) : cproc (option string) :=
  let* wu := the_unit in
  if approved event wu then Ret None else
  emits_state "approval_required" msg;;;
  Ret (Some err).

Definition float_nonzero (f : spec_float) : bool :=
  match f with S754_zero _ => false | _ => true end.

Definition checkApproval (event : Event) : cproc (option string) :=
  let required := bool_decide (event ∈ ApprovalRequired cfg) in
  let normal := explicit_approval event ("Approval required for: " +:+ event)
    ("cannot " +:+ event +:+ ": explicit approval required. Run: kvelmo approve " +:+ event) in
  if negb required then Ret None else
  match RiskApproval cfg with
  | Some rba =>
      if rba_Enabled rba then
        let* score := evaluateRiskUnlocked in
        emitRiskEvaluated score;;;
        let low := if float_nonzero (AutoApproveThreshold rba) then AutoApproveThreshold rba
                   else DefaultLowThreshold in
        let high := if float_nonzero (HighRiskThreshold rba) then HighRiskThreshold rba
                    else DefaultHighThreshold in
        if float_lt (rs_Score score) low then Ret None
        else if negb (float_lt (rs_Score score) high) then
          let shown := "(score=" +:+ fmt2 (rs_Score score) +:+ ")" in
          explicit_approval event
            ("High-risk change " +:+ shown +:+ ": approval required for " +:+ event)
            ("cannot " +:+ event +:+ ": high-risk change " +:+ shown +:+
             " requires explicit approval. Run: kvelmo approve " +:+ event)
        else normal
      else normal
  | None => normal
  end.

Definition Approve (event : string) : cproc (result string unit) :=
  deferred (
    let* wu := work_unit in
    match wu with
    | None => Ret (Err "no task loaded")
    | Some _ =>
        let* by_ := (if decide (Identity cfg = "") then ask QApprover else Ret (Identity cfg)) in
        let* now := ask QNow in
        write_unit (fun wu => wu <| wu_Approvals ::= fun m =>
          Some (<[event := {| ApprovedBy := by_; ApprovedAt := now |}]> (default ∅ m)) |>);;;
        touch_unit;;;
        persists;;;
        emits_state "transition_approved" ("Approved: " +:+ event);;;
        Ret (Ok tt)
    end).

Definition CheckReviewItem (item : string) : cproc (result string unit) :=
  deferred (
    let* wu := work_unit in
    match wu with
    | None => Ret (Err "no task loaded")
    | Some _ =>
        write_unit (fun wu => if slice_contains (wu_ChecklistChecked wu) item then wu
                              else wu <| wu_ChecklistChecked ::= fun l => l ++ [item] |>);;;
        touch_unit;;;
        persists;;;
        Ret (Ok tt)
    end).

Definition UncheckReviewItem (item : string) : cproc (result string unit) :=
  deferred (
    let* wu := work_unit in
    match wu with
    | None => Ret (Err "no task loaded")
    | Some _ =>
        write_unit (fun wu => wu <| wu_ChecklistChecked ::= filter (fun i => i <> item) |>);;;
        touch_unit;;;
        persists;;;
        Ret (Ok tt)
    end).

(** ** Hooks and guardrails *)

Definition hookDescription (h : TransitionHook) : string :=
  if decide (hk_Description h = "") then hk_Command h else hk_Description h.

Fixpoint run_hooks (hooks : list TransitionHook) (workDir : string) : cproc (option string) :=
  match hooks with
  | [] => Ret None
  | h :: hooks =>
      let* failed := ask (QHook (hk_Command h) workDir) in
      match failed with
      | Some err =>
          if hk_Required h
          then Ret (Some ("required hook " +:+ quote (hookDescription h) +:+ " failed: " +:+
                          hookDescription h +:+ ": " +:+ err))
          else run_hooks hooks workDir
      | None => run_hooks hooks workDir
      end
  end.

(** The work directory is read without the lock. *)
Definition RunTransitionHooks (event : Event) : cproc (option string) :=
  match Hooks cfg !! ("pre_" +:+ event) with
  | None | Some [] => Ret None
  | Some hooks => let* dir := unsynced getWorkDir in run_hooks hooks dir
  end.

Fixpoint executeGuardrails (names : list string) (phase workDir : string) (specs : list string)
  : cproc (list Finding) :=
  match names with
  | [] => Ret []
  | name :: names =>
      match GetGuardrail name with
      | None => executeGuardrails names phase workDir specs
      | Some g =>
          let* lines := match g with
                        | MaxDiffSize _ => ask (QDiffLines workDir)
                        | RequireSpec => Ret None
                        end in
          let* rest := executeGuardrails names phase workDir specs in
          Ret (guardrail_Check g phase specs lines ++ rest)
      end
  end.

Definition runPreGuardrails (phase : string) : cproc (option string) :=
  match PhaseGuardrails cfg !! phase with
  | None | Some [] => Ret None
  | Some names =>
      lock Read;;;
      let* specs := reads (fun s => match cd_workUnit (cd s) with
                                    | Some wu => wu_Specifications wu | None => [] end) in
      let* dir := reads getWorkDir in
      unlock Read;;;
      let* found := executeGuardrails names phase dir specs in
      match List.filter (fun f => (f_Severity f <=? SeverityHigh)%Z) found with
      | [] => Ret None
      | blocking =>
          Ret (Some ("pre-guardrail blocked " +:+ phase +:+ ": " +:+ join_with "; "
            (map (fun f => "[" +:+ f_Rule f +:+ "] " +:+ f_Message f) blocking)))
      end
  end.

(** ** Per-phase state *)

(** The counters are zeroed and the gate's result is dropped whenever a phase is
    requested. *)
Definition resetPhaseState (phase : string) : cproc unit :=
  writes (fun s => s <| iterationCount ::= <[phase := 0%Z]> |> <| retryCount ::= <[phase := 0%Z]> |>);;;
  writes (upd_cd (upd_workUnit (fun wu => wu <| wu_QualityGatePassed := None |>
                                            <| wu_QualityGateError := "" |>)));;;
  let* pool := reads (fun s => hasVarPool (cd s)) in
  if pool then freely (fun s => s <| varPool ::= ClearScope (phaseToScope phase) |>) else Panic.

Definition recorded_metrics (phase : string) s : option PhaseMetrics :=
  match cd_workUnit (cd s) with
  | Some wu => match wu_PhaseMetrics wu with Some m => m !! phase | None => None end
  | None => None
  end.

Definition initProgressEstimator (phase : string) : cproc unit :=
  if negb (ProgressEnabled cfg) then writes (fun s => s <| progressEstimator := None |>) else
  let* now := ask QNow in
  writes (fun s =>
    let mean := MeanDuration phase (progressCalibrator s) in
    let mean := if (mean =? 0)%Z then
        match recorded_metrics phase s with
        | Some pm => if (0 <? pm_Duration pm)%Z then pm_Duration pm else mean
        | None => mean
        end else mean in
    s <| progressEstimator ::= fun e =>
      Some (match e with None => NewProgressEstimator now mean
                       | Some e => ResetEstimator now mean e end) |>).

Definition setupCanaryHarness : cproc unit :=
  if negb (CanaryEnabled cfg) then Ret tt else
  let* made := ask QCanarySetup in
  if made then writes (fun s => s <| canaryHarness := true |>) else Ret tt.

Definition lookupResponseCache (prompt : string) : cproc (option string) :=
  let* now := ask QNow in
  update Free (fun s =>
    match responseCache s with
    | None => (s, None)
    | Some c => let '(c, r) := get_alone (sha256_hex prompt) now c in
                (s <| responseCache := Some c |>, r)
    end).

Definition storeResponseCache (prompt response phase : string) : cproc unit :=
  let* now := ask QNow in
  let* order := ask QCacheOrder in
  freely (fun s => s <| responseCache ::= fmap (put_entry sha256_hex now order prompt response phase) |>).

(** ** The phases *)

(** An error that is announced and returned. *)
Definition phase_error {A} (err phase : string) : cproc (result string A) :=
  emitEnrichedError err phase;;; Ret (Err err).

(** The hooks run unlocked; then from which states the state to roll back to is
    recorded, and the transition. *)
Definition hooks_unlocked (event : Event) (phase : string) : cproc (option string) :=
  unlock Write;;;
  let* err := RunTransitionHooks event in
  lock Write;;;
  match err with
  | Some e => emitEnrichedError e phase;;; Ret (Some e)
  | None => Ret None
  end.

Definition record_prior (normal : list State) : cproc State :=
  let* currentState := machine_state in
  (if bool_decide (currentState ∈ normal) then Ret tt else set_prior currentState);;;
  Ret currentState.

Definition enter_phase (event : Event) (phase : string) : cproc (option string) :=
  resetPhaseState phase;;;
  let* r := dispatches event in
  match r with
  | Err e =>
      clear_prior;;;
      let wrapped := "cannot " +:+ phase +:+ ": " +:+ e in
      emitEnrichedError wrapped phase;;;
      Ret (Some wrapped)
  | Ok _ => Ret None
  end.

(** The guardrails run unlocked; a failure rolls the transition back. *)
Definition guardrails_unlocked (phase : string) : cproc (option string) :=
  unlock Write;;;
  let* err := runPreGuardrails phase in
  lock Write;;;
  match err with
  | Some e =>
      dispatches EventError;;;
      emitEnrichedError e phase;;;
      Ret (Some e)
  | None => Ret None
  end.

Definition check_task_and_pool (phase : string) : cproc (option string) :=
  let* wu := work_unit in
  match wu with
  | None => emitEnrichedError "no task loaded" phase;;; Ret (Some "no task loaded")
  | Some _ =>
      let* pool := reads (fun s => hasPool (cd s)) in
      if pool then Ret None else
      emitEnrichedError "no worker pool available" phase;;;
      Ret (Some "no worker pool available")
  end.

Definition phase_started (phase : string) : cproc unit :=
  let* now := ask QNow in
  writes (fun s => s <| phaseStartedAt := Some now |>);;;
  initProgressEstimator phase;;;
  emitEventLog "phase_started" phase.

(** The prompt, for which [applyStrategy] also emits context metrics. *)
Definition build_prompt (phase : string) : cproc string :=
  let* _ := the_unit in
  let* prompt := ask (QPrompt phase) in
  go (GoEmit (simple_event "context_metrics" NoState ("Phase " +:+ phase +:+ " context")));;;
  Ret prompt.

Definition new_scheduler (jobType prompt dir : string) : cproc string :=
  ask (QNewScheduler jobType prompt dir).

Definition task_complexity : cproc string :=
  let* wu := the_unit in
  Ret (DetectTaskComplexity (wu_Title wu) (wu_Description wu) 0 [] false).

Definition Plan : cproc (result string string) :=
  deferred (
    let* err := check_task_and_pool PhasePlan in
    match err with Some e => Ret (Err e) | None =>
    let* err := checkApproval EventPlan in
    match err with Some e => Ret (Err e) | None =>
    let* err := hooks_unlocked EventPlan PhasePlan in
    match err with Some e => Ret (Err e) | None =>
    let* _ := record_prior [StateLoaded] in
    let* err := enter_phase EventPlan PhasePlan in
    match err with Some e => Ret (Err e) | None =>
    let* err := guardrails_unlocked PhasePlan in
    match err with Some e => Ret (Err e) | None =>
    let* complexity := task_complexity in
    let* prompt := build_prompt PhasePlan in
    setupCanaryHarness;;;
    let* dry := reads dryRun in
    let jobType := if dry then JobTypeDryRun else JobTypePlan in
    let* dir := reads getWorkDir in
    let* sched := new_scheduler jobType prompt dir in
    createSafetyCheckpoint "pre-plan_done checkpoint";;;
    touch_unit;;;
    persists;;;
    phase_started PhasePlan;;;
    emits_state "planning_started" ("Planning started (complexity: " +:+ complexity +:+ ")");;;
    go (GoWatchGraph sched EventPlanDone);;;
    Ret (Ok sched)
    end end end end end).

(** [SubmitCached] or [SubmitWithOptions], by the response cache. *)
Definition submit_job (jobType prompt : string) : cproc (result string string) :=
  let* cached := lookupResponseCache prompt in
  let* dir := reads getWorkDir in
  ask (QSubmitJob jobType dir prompt cached).

(** From the prompt on, the part [Implement], [Simplify] and [Optimize] share. *)
Definition run_phase_job (phase jobType : string) (done_ : Event) (started message : string)
  : cproc (result string string) :=
  let* dry := reads dryRun in
  let* prompt := build_prompt phase in
  let* job := submit_job (if dry then JobTypeDryRun else jobType) prompt in
  match job with
  | Err e =>
      dispatches EventError;;;
      phase_error ("submit " +:+ phase +:+ " job: " +:+ e) phase
  | Ok jobID =>
      write_unit (fun wu => wu <| wu_Jobs ::= fun l => l ++ [jobID] |>);;;
      touch_unit;;;
      writes (upd_cd (fun c => c <| activeJobID := jobID |>));;;
      persists;;;
      phase_started phase;;;
      let* st := machine_state in
      emits (mkConductorEvent started st jobID message "");;;
      go (GoWatchJob jobID done_);;;
      Ret (Ok jobID)
  end.

(** [newSpecWatcher]: the modification times of the files that can be read. *)
Fixpoint read_times (paths : list string) (files : gmap string Time) : cproc (gmap string Time) :=
  match paths with
  | [] => Ret files
  | p :: paths =>
      let* t := ask (QModTime p) in
      read_times paths (match t with Some t => <[p := t]> files | None => files end)
  end.

Definition newSpecWatcher : cproc unit :=
  let* wu := the_unit in
  let* files := read_times (wu_Specifications wu) ∅ in
  writes (fun s => s <| specWatcher := Some (mkSpecWatcher files false) |>).

Definition Implement : cproc (result string string) :=
  deferred (
    let* err := check_task_and_pool PhaseImplement in
    match err with Some e => Ret (Err e) | None =>
    let* err := checkApproval EventImplement in
    match err with Some e => Ret (Err e) | None =>
    let* wu := the_unit in
    let specCount := Z.of_nat (length (wu_Specifications wu)) in
    if (0 <? MinSpecSections cfg)%Z && (specCount <? MinSpecSections cfg)%Z
    then Ret (Err ("minimum " +:+ pretty (MinSpecSections cfg) +:+
                   " specification file(s) required, found " +:+ pretty specCount))
    else
    let* err := hooks_unlocked EventImplement PhaseImplement in
    match err with Some e => Ret (Err e) | None =>
    let* _ := record_prior [StateLoaded; StatePlanned] in
    let* err := enter_phase EventImplement PhaseImplement in
    match err with Some e => Ret (Err e) | None =>
    let* err := guardrails_unlocked PhaseImplement in
    match err with Some e => Ret (Err e) | None =>
    setupCanaryHarness;;;
    newSpecWatcher;;;
    run_phase_job PhaseImplement JobTypeImplement EventImplementDone
      "implementing_started" "Implementation started"
    end end end end end).

(** [Simplify] and [Optimize] differ in names only. *)
Definition optional_phase (event : Event) (phase jobType : string) (done_ : Event)
    (started message : string) : cproc (result string string) :=
  deferred (
    let* err := check_task_and_pool phase in
    match err with Some e => Ret (Err e) | None =>
    let* err := hooks_unlocked event phase in
    match err with Some e => Ret (Err e) | None =>
    let* _ := record_prior [StateImplemented] in
    let* err := enter_phase event phase in
    match err with Some e => Ret (Err e) | None =>
    setupCanaryHarness;;;
    run_phase_job phase jobType done_ started message
    end end end).

Definition Simplify : cproc (result string string) :=
  optional_phase EventSimplify PhaseSimplify JobTypeSimplify EventSimplifyDone
    "simplifying_started" "Simplification started".

Definition Optimize : cproc (result string string) :=
  optional_phase EventOptimize PhaseOptimize JobTypeOptimize EventOptimizeDone
    "optimizing_started" "Optimization started".
End phases.
