(* ===== verification/PhaseWatch.v ===== *)
(** * Running and finishing a phase

    Translates the goroutines that follow a phase's job or graph to its end:
    [watchJob] (conductor_job.go), [watchGraph] and [handleGraphCompletion]
    (conductor_graph.go), the checkpoints and partial results
    (conductor_graph_helpers.go), [finalizePhaseLocked] (conductor_mcp.go), the
    specification files (conductor_job_specs.go), metrics, iteration and failure
    policy (conductor_phase_policy.go), routing (router.go) and auto-advance
    (conductor_implement.go).  A stream is answered by the environment as the
    list of events it delivers and whether it is closed after them. *)

From S2P Require Import Prelude Floats WorkUnit Transitions Machine Persist Interfaces Conductor.
From S2P Require Import Progress Errors VarPool Findings Policy RespCache Proc ProcLocks PhaseCtl PhaseJobs.
From S2P Require Scheduler Pool.

Section watch.
Context {W : Type} {HG : Git W} {HJ : JobControl W} {HT : TaskFiles W} {HC : Config} {HE : Env}.
Notation cproc := (@proc (Ctl W) question call answer).
Notation ask := (@ask (Ctl W) question call answer).
Local Open Scope proc_scope.
Implicit Types (s : Ctl W).

(** ** Specification files *)

Definition specDir s : string :=
  match cd_workUnit (cd s) with Some wu => SpecificationsDir (wu_ID wu) | None => "" end.

Definition new_specs (dir : string) (entries : list (string * bool)) (wu : WorkUnit) : list string :=
  let known := map path_clean (wu_Specifications wu) in
  flat_map (fun e : string * bool =>
    let fullPath := dir +:+ "/" +:+ e.1 in
    if e.2 || negb (has_prefix e.1 "specification-") || negb (has_suffix e.1 ".md") then []
    else if slice_contains known (path_clean fullPath) then [] else [fullPath]) entries.

Definition detectSpecificationFiles : cproc unit :=
  let* store := reads (fun s => hasStore (cd s)) in
  if negb store then Ret tt else
  let* dir := reads specDir in
  let* entries := ask (QSpecFiles dir) in
  match entries with
  | None => Ret tt
  | Some entries => write_unit (fun wu => wu <| wu_Specifications ::= fun l => l ++ new_specs dir entries wu |>)
  end.

(** [copySpecsToRepo], [copyPlanToRepo] and [commitRepoSpecs]: the files are
    copied and committed by the environment, which answers the commit made. *)
Definition commit_specs : cproc unit :=
  let* wu := the_unit in
  let* sha := ask (QCommitSpecs (wu_ID wu)) in
  match sha with None => Ret tt | Some sha => append_checkpoint sha end.

(** ** Metrics *)

Definition elapsed_phase (now : Time) s : Duration :=
  match phaseStartedAt s with None => 0%Z | Some t => (now - t)%Z end.

Definition job_metrics (elapsed : Duration) (job : option JobInfo) (sha : string) : PhaseMetrics :=
  match job with
  | None => {| pm_Agent := ""; pm_Duration := elapsed; pm_InputTokens := 0; pm_OutputTokens := 0;
               pm_TotalTokens := 0; pm_EstCostUSD := float_zero; pm_RecordingPath := "";
               pm_CheckpointSHA := sha |}
  | Some j =>
      let agent := default (jb_WorkerAgent j) (jb_AgentOverride j) in
      {| pm_Agent := agent;
         pm_Duration := if (elapsed =? 0)%Z then default 0%Z (jb_Duration j) else elapsed;
         pm_InputTokens := jb_InputTokens j; pm_OutputTokens := jb_OutputTokens j;
         pm_TotalTokens := jb_TotalTokens j;
         pm_EstCostUSD := if (0 <? jb_TotalTokens j)%Z
                          then estimateCost agent (jb_InputTokens j) (jb_OutputTokens j) else float_zero;
         pm_RecordingPath := jb_RecordingPath j; pm_CheckpointSHA := sha |}
  end.

Definition store_metrics (phase : string) (pm : PhaseMetrics) : cproc unit :=
  write_unit (fun wu => wu <| wu_PhaseMetrics ::= fun m => Some (<[phase := pm]> (default ∅ m)) |>);;;
  writes (fun s => s <| progressCalibrator ::= fun c =>
    if (0 <? pm_Duration pm)%Z then Calibrate phase (pm_Duration pm) c else c |>
    <| progressEstimator := None |>).

Definition last_checkpoint (wu : WorkUnit) : string := default "" (last (wu_Checkpoints wu)).

Definition recordPhaseMetrics (completionEvent : Event) (jobID : string) : cproc unit :=
  let phase := phaseFromEvent completionEvent in
  let* wu := work_unit in
  match wu with
  | None => Ret tt
  | Some wu =>
      if decide (phase = "") then Ret tt else
      let* now := ask QNow in
      let* elapsed := reads (elapsed_phase now) in
      let* job := ask (QGetJob jobID) in
      store_metrics phase (job_metrics elapsed job (last_checkpoint wu));;;
      emitEventLog "phase_completed" phase
  end.

Definition resolveAgent (phase : string) : string := default "" (PhaseAgent cfg !! phase).

Definition recordPhaseMetricsFromGraph (completionEvent : Event) : cproc unit :=
  let phase := phaseFromEvent completionEvent in
  let* wu := work_unit in
  match wu with
  | None => Ret tt
  | Some wu =>
      if decide (phase = "") then Ret tt else
      let* now := ask QNow in
      let* elapsed := reads (elapsed_phase now) in
      store_metrics phase
        {| pm_Agent := resolveAgent phase; pm_Duration := elapsed; pm_InputTokens := 0;
           pm_OutputTokens := 0; pm_TotalTokens := 0; pm_EstCostUSD := float_zero;
           pm_RecordingPath := ""; pm_CheckpointSHA := last_checkpoint wu |}
  end.

(** [checkCanaryViolations] *)
Definition checkCanaryViolations (jobOutput : string) : cproc unit :=
  let* active := reads canaryHarness in
  if negb active then Ret tt else
  let* ' (count, data) := ask (QCanaryCheck jobOutput) in
  (if 0 <? count
   then emits (mkConductorEvent "canary_violation" NoState ""
                 (pretty (Z.of_nat count) +:+ " canary violations detected") data)
   else Ret tt);;;
  writes (fun s => s <| canaryHarness := false |>).

(** ** Auto-advance *)

Definition phase_candidates (completedEvent : Event) : list string :=
  go_switch completedEvent
    [(EventPlanDone, [PhaseImplement]); (EventImplementDone, [PhaseSimplify; PhaseOptimize; PhaseReview]);
     (EventSimplifyDone, [PhaseOptimize; PhaseReview]); (EventOptimizeDone, [PhaseReview])] [].

Definition resolveNextPhase (completedEvent : Event) (skipPhases : list string) : string :=
  default "" (List.find (fun p => negb (slice_contains skipPhases p)) (phase_candidates completedEvent)).

Definition merge_skip (configured runtime : list string) : list string :=
  fold_left (fun merged p => if slice_contains merged p then merged else merged ++ [p]) runtime configured.

Definition SkipPhases : cproc (list string) :=
  lock Read;;;
  let* runtime := reads runtimeSkipPhases in
  unlock Read;;;
  Ret (merge_skip (SkipPhasesSetting cfg) runtime).

(** ** Review

    [Review] is here because auto-advance calls it.  The consensus and
    adversarial reviews, off unless configured, are left out. *)

Definition reviewFixPrompt : string :=
  join_with nl
    ["Review the changes and fix any issues you find. Focus on correctness, error handling, and code quality.";
     "Go through each file that was modified and ensure:";
     "1. All error cases are handled properly";
     "2. The logic is correct and complete";
     "3. Code follows project conventions";
     "4. No obvious bugs or edge cases are missed";
     "Commit your fixes with meaningful commit messages."].

(** [runQualityGateAsync]: a new channel per run, the gate in a goroutine. *)
Definition runQualityGateAsync : cproc unit :=
  lock Write;;;
  writes (fun s => s <| qualityGateCh := Some (length (closedChans s)) |>
                     <| closedChans ::= fun l => l ++ [false] |>);;;
  unlock Write;;;
  go GoQualityGate.

Definition review_fix (workDir : string) : cproc (option string) :=
  let* cached := lookupResponseCache reviewFixPrompt in
  let* job := ask (QSubmitJob JobTypeImplement workDir reviewFixPrompt cached) in
  match job with
  | Err e =>
      lock Write;;;
      dispatches EventError;;;
      unlock Write;;;
      Ret (Some ("submit review-fix job: " +:+ e))
  | Ok jobID =>
      lock Write;;;
      write_unit (fun wu => wu <| wu_Jobs ::= fun l => l ++ [jobID] |>);;;
      touch_unit;;;
      persists;;;
      let* st := machine_state in
      emits (mkConductorEvent "review_fix_started" st jobID "Review fix job started" "");;;
      unlock Write;;;
      go (GoWatchJob jobID EventImplementDone);;;
      Ret None
  end.

Definition Review (fix_ : bool) : cproc (result string unit) :=
  lock Write;;;
  let* wu := work_unit in
  match wu with
  | None => unlock Write;;; phase_error "no task loaded" PhaseReview
  | Some _ =>
  let* pool := reads (fun s => hasPool (cd s)) in
  if fix_ && negb pool then unlock Write;;; phase_error "no worker pool available" PhaseReview else
  unlock Write;;;
  let* err := RunTransitionHooks EventReview in
  match err with
  | Some e => phase_error e PhaseReview
  | None =>
  lock Write;;;
  let* _ := record_prior [StateImplemented] in
  let* r := dispatches EventReview in
  match r with
  | Err e =>
      clear_prior;;;
      unlock Write;;;
      phase_error ("cannot review: " +:+ e) PhaseReview
  | Ok _ =>
  persists;;;
  emits_state "review_started" "Review started";;;
  let* dir := reads getWorkDir in
  unlock Write;;;
  let* err := (if fix_ then review_fix dir else Ret None) in
  match err with
  | Some e => Ret (Err e)
  | None =>
  go (GoSpecAlignment dir);;;
  runQualityGateAsync;;;
  Ret (Ok tt)
  end end end end.

(** A phase called for its effect, its error kept. *)
Definition only_error {A} (p : cproc (result string A)) : cproc (option string) :=
  let* r := p in Ret (match r with Err e => Some e | Ok _ => None end).

(** No phase "plan" here: a request for it returns at once. *)
Definition dispatchAutoAdvance (phase : string) : cproc unit :=
  let report err :=
    match err with
    | None => Ret tt
    | Some e => emits_state "auto_advance_failed" ("Auto-advance to " +:+ phase +:+ " failed: " +:+ e)
    end in
  if decide (phase = PhaseImplement) then (let* e := only_error Implement in report e)
  else if decide (phase = PhaseSimplify) then (let* e := only_error Simplify in report e)
  else if decide (phase = PhaseOptimize) then (let* e := only_error Optimize in report e)
  else if decide (phase = PhaseReview) then (let* e := only_error (Review false) in report e)
  else Ret tt.

Definition maybeAutoAdvance (completedEvent : Event) : cproc unit :=
  lock Read;;;
  let* enabled := reads autoAdvance in
  unlock Read;;;
  if negb enabled then Ret tt else
  let* skip := SkipPhases in
  let nextPhase := resolveNextPhase completedEvent skip in
  if decide (nextPhase = "") then Ret tt else
  emits_state "auto_advance" ("Auto-advancing to " +:+ nextPhase);;;
  dispatchAutoAdvance nextPhase.

(** ** Iteration *)

Definition resolveStrategy (phase : string) s : Strategy :=
  match phaseStrategies s !! phase with
  | Some st => st
  | None => default Direct (strategy s)
  end.

Definition count_of (m : gmap string Z) (phase : string) : Z := default 0%Z (m !! phase).

Definition drop_iterations (phase : string) : cproc unit :=
  lock Write;;; writes (fun s => s <| iterationCount ::= delete phase |>);;; unlock Write.

(** True: the phase was submitted again and the caller is done. *)
Definition evaluateAndMaybeIterate (completionEvent : Event) (output : string) : cproc bool :=
  let phase := phaseFromEvent completionEvent in
  if decide (phase = "") then Ret false else
  lock Read;;;
  let* start := reads (resolveStrategy phase) in
  unlock Read;;;
  match EvaluateOutput start output with
  | None => drop_iterations phase;;; Ret false
  | Some marker =>
      lock Write;;;
      writes (fun s => s <| iterationCount ::= fun m => <[phase := (count_of m phase + 1)%Z]> m |>);;;
      let* attempt := reads (fun s => count_of (iterationCount s) phase) in
      let* maxIter := reads maxIterations in
      unlock Write;;;
      if (maxIter <=? attempt)%Z then drop_iterations phase;;; Ret false else
      emits (simple_event "iteration_retry" NoState
        ("Retrying " +:+ phase +:+ " (attempt " +:+ pretty attempt +:+ "/" +:+ pretty maxIter +:+
         "): unresolved " +:+ marker +:+ " marker"));;;
      go (GoResubmit phase);;;
      Ret true
  end.

(** The goroutine it starts. *)
Definition resubmit (phase : string) : cproc unit :=
  let* stop := peeks (fun s => closed (cd s)) in
  if stop then Ret tt
  else if decide (phase = EventImplement) then discard Implement
  else if decide (phase = EventSimplify) then discard Simplify
  else if decide (phase = EventOptimize) then discard Optimize
  else if decide (phase = EventPlan) then discard Plan
  else Ret tt.

(** ** Failure policy *)

(** True: the policy dealt with the failure. *)
Definition applyFailurePolicy (completionEvent : Event) (errMsg : string) : cproc bool :=
  let phase := phaseFromEvent completionEvent in
  if decide (phase = "") then Ret false else
  let failClass := ClassifyError (Some errMsg) phase in
  lock Write;;;
  writes (fun s => s <| lastFailureClass := failClass |>);;;
  unlock Write;;;
  emits (simple_event "phase_failure_classified" NoState
      ("Phase " +:+ phase +:+ " failed (" +:+ failClass +:+ "): " +:+ errMsg)
    <| ce_Phase := phase |> <| ce_Error := errMsg |> <| ce_FailureClass := failClass |>
    <| ce_FailureMessage := errMsg |>);;;
  lock Read;;;
  let* policy := reads (fun s => phasePolicies s !! phase) in
  unlock Read;;;
  match policy with
  | None => Ret false
  | Some p =>
      match pp_Policy p with
      | FailurePolicyRetry =>
          lock Write;;;
          writes (fun s => s <| retryCount ::= fun m => <[phase := (count_of m phase + 1)%Z]> m |>);;;
          let* attempt := reads (fun s => count_of (retryCount s) phase) in
          unlock Write;;;
          if (attempt <=? pp_MaxRetries p)%Z then
            emits (simple_event "phase_retry" NoState
              ("Retrying " +:+ phase +:+ " (attempt " +:+ pretty attempt +:+ "/" +:+
               pretty (pp_MaxRetries p) +:+ ")"));;;
            go (GoRetry phase);;;
            Ret true
          else
            lock Write;;;
            writes (fun s => s <| retryCount ::= delete phase |>);;;
            unlock Write;;;
            Ret false
      | FailurePolicySkip =>
          emits (simple_event "phase_skipped" NoState ("Skipping failed " +:+ phase +:+ " phase"));;;
          lock Write;;;
          let* currentState := machine_state in
          if decide (expectedInProgressState phase = NoState \/
                     currentState <> expectedInProgressState phase)
          then unlock Write;;; Ret false
          else
            clear_prior;;;
            dispatches completionEvent;;;
            persists;;;
            unlock Write;;;
            maybeAutoAdvance completionEvent;;;
            Ret true
      | FailurePolicyFail => Ret false
      end
  end.

(** ** Routing *)

Definition RouteAdvance : string := "advance".
Definition RouteRetry : string := "retry".
Definition RouteSkip : string := "skip".
Definition RouteRollback : string := "rollback".

(** [DefaultRouter.Route], the router every conductor is created with. *)
Definition default_Route (maxRetries : Z) (attempt : Z) : RouteDecision :=
  {| rd_Action := RouteAdvance; rd_Reason := "phase completed successfully"; rd_TargetPhase := "";
     rd_Attempt := attempt; rd_MaxRetries := maxRetries |}.

(** True: the decision replaces the normal completion. *)
Definition applyRouteDecision (d : RouteDecision) (completionEvent : Event) : cproc bool :=
  let phase := phaseFromEvent completionEvent in
  lock Write;;;
  let* wu := work_unit in
  match wu with
  | None => Ret tt
  | Some _ => write_unit (fun wu => wu <| wu_RouteHistory ::= fun l => l ++ [d] |>);;; persists
  end;;;
  unlock Write;;;
  if decide (rd_Action d = RouteRetry) then
    if (rd_MaxRetries d <=? rd_Attempt d)%Z then Ret false else
    emits (simple_event "route_retry" NoState
      ("Router retrying " +:+ phase +:+ " (attempt " +:+ pretty (rd_Attempt d + 1)%Z +:+ "/" +:+
       pretty (rd_MaxRetries d) +:+ "): " +:+ rd_Reason d) <| ce_Phase := phase |>);;;
    go (GoRoute phase);;;
    Ret true
  else if decide (rd_Action d = RouteSkip) then
    emits (simple_event "route_skip" NoState
      ("Router skipping " +:+ rd_TargetPhase d +:+ " after " +:+ phase +:+ ": " +:+ rd_Reason d)
      <| ce_Phase := phase |>);;;
    lock Write;;;
    clear_prior;;;
    dispatches completionEvent;;;
    persists;;;
    unlock Write;;;
    maybeAutoAdvance completionEvent;;;
    Ret true
  else if decide (rd_Action d = RouteRollback) then
    if decide (rd_TargetPhase d = "") then Ret false else
    emits (simple_event "route_rollback" NoState
      ("Router rolling back from " +:+ phase +:+ " to " +:+ rd_TargetPhase d +:+ ": " +:+ rd_Reason d)
      <| ce_Phase := phase |>);;;
    lock Write;;;
    dispatches EventError;;;
    persists;;;
    unlock Write;;;
    go (GoRoute (rd_TargetPhase d));;;
    Ret true
  else Ret false.

(** The goroutine of a retry or a rollback. *)
Definition route_phase (phase : string) : cproc unit :=
  let* stop := peeks (fun s => closed (cd s)) in
  if stop then Ret tt else dispatchAutoAdvance phase.

Definition route (completionEvent : Event) : cproc bool :=
  let* r := peeks router in
  match r with
  | None => Ret false
  | Some maxRetries => applyRouteDecision (default_Route maxRetries 0) completionEvent
  end.
End watch.
