(* ===== verification/PhaseFinish.v ===== *)
(** * The end of a phase

    Translates [watchJob] (conductor_job.go), [watchGraph] and
    [handleGraphCompletion] (conductor_graph.go), the partial results of a graph
    (conductor_graph_helpers.go), [finalizePhaseLocked] (conductor_mcp.go), the
    commit validation (conductor_job_helpers.go) and the specification watcher
    (conductor_specwatch.go). *)

From S2P Require Import Prelude Floats WorkUnit Transitions Machine Persist Interfaces Conductor.
From S2P Require Import Progress Errors VarPool Findings Policy RespCache Proc ProcLocks.
From S2P Require Import PhaseCtl PhaseJobs PhaseWatch.
From S2P Require Scheduler Pool.

Section finish.
Context {W : Type} {HG : Git W} {HJ : JobControl W} {HT : TaskFiles W} {HC : Config} {HE : Env}.
Context (encode_results : list (string * string) -> string)
  (decode_results : string -> option (list (string * string))).
Notation cproc := (@proc (Ctl W) question call answer).
Notation ask := (@ask (Ctl W) question call answer).
Local Open Scope proc_scope.
Implicit Types (s : Ctl W).

(** ** Commit validation *)

(** The parameters taken under the lock: the work directory, the reference
    commit and the checkpoints, which are kvelmo's own commits. *)
Definition prepareCommitValidation (lastCheckpoint : string)
  : cproc (option (string * string * list string)) :=
  if bool_decide (lastCheckpoint = "") || bool_decide (CommitPattern cfg = "") then Ret None else
  let* dir := reads getWorkDir in
  let* wu := the_unit in
  Ret (Some (dir, lastCheckpoint, wu_Checkpoints wu)).

(** The environment answers each commit with whether its message matches the
    pattern. *)
Definition validateAgentCommits (params : option (string * string * list string)) : cproc unit :=
  match params with
  | None => Ret tt
  | Some (dir, lastCheckpoint, own) =>
      let* opened := ask (QGitOpen dir) in
      if negb opened then Ret tt else
      let* commits := ask (QCommitsSince dir lastCheckpoint) in
      match commits with
      | None => Ret tt
      | Some commits =>
          let invalid := List.filter (fun e : string * string * bool =>
            negb (slice_contains own e.1.1) && negb e.2) commits in
          match invalid with
          | [] => Ret tt
          | _ =>
              let msg := pretty (Z.of_nat (length invalid)) +:+ " commit(s) do not match pattern " +:+
                CommitPattern cfg +:+ ": " +:+ join_with "; "
                (map (fun e : string * string * bool => truncateSHA e.1.1 8 +:+ ": " +:+ e.1.2) invalid) in
              emits (simple_event "commit_validation_warning" NoState msg
                <| ce_FailureClass := FailureClassDegraded |> <| ce_FailureMessage := msg |>)
          end
      end
  end.

(** ** The common end of a successful phase

    From the dispatch on: the outcome of [watchJob] and of
    [handleGraphCompletion] differs in the metrics only. *)
Definition complete_phase (completionEvent : Event) (metrics : cproc unit) : cproc unit :=
  (if decide (completionEvent = EventImplementDone)
   then write_unit (fun wu => wu <| wu_HasImplemented := true |>) else Ret tt);;;
  clear_prior;;;
  metrics;;;
  dispatches completionEvent;;;
  persists.

(** [getBaseBranch] and the memory indexing in the background. *)
Definition getBaseBranch : cproc (result string string) :=
  if decide (BaseBranch cfg <> "") then Ret (Ok (BaseBranch cfg)) else
  let* git := unsynced (fun s => hasGit (cd s)) in
  if git then ask QDefaultBranch
  else Ret (Err "cannot determine base branch: git not available and git.base_branch not configured").

Definition index_task (completionEvent : Event) (base : result string string) (indexer : bool) : cproc unit :=
  match base with
  | Err _ => Ret tt
  | Ok _ => if indexer && bool_decide (completionEvent = EventPlanDone \/
                                       completionEvent = EventImplementDone)
            then go (GoIndex completionEvent) else Ret tt
  end.

(** The evaluation of the output, unlocked; true when the phase goes on
    elsewhere. *)
Definition evaluate_output (completionEvent : Event) (output : string) : cproc bool :=
  let* again := (if decide (output = "") then Ret false
                 else evaluateAndMaybeIterate completionEvent output) in
  if again then Ret true else route completionEvent.

(** ** Jobs *)

(** [SignalProgress] *)
Definition SignalProgress : cproc unit :=
  lock Read;;;
  let* est := reads progressEstimator in
  unlock Read;;;
  match est with
  | None => Ret tt
  | Some _ => freely (fun s => s <| progressEstimator ::= fmap Signal |>)
  end.

Definition pre_job_checkpoint (completionEvent : Event) : cproc unit :=
  lock Write;;;
  let* wu := work_unit in
  match wu with
  | None => Ret tt
  | Some _ =>
      let message := "pre-" +:+ completionEvent +:+ " checkpoint" in
      let* dir := reads getWorkDir in
      let* sha := commit_all dir message in
      match sha with
      | None => Ret tt
      | Some sha => append_checkpoint sha;;; record_meta sha message
      end
  end;;;
  unlock Write.

Definition noSpecError : string :=
  "plan phase produced no specification file (agent did not write required deliverable)".

(** The lock is held on entry and released at the end. *)
Definition job_outputs (jobID : string) (completionEvent : Event) : cproc string :=
  let* job := ask (QGetJob jobID) in
  match job with
  | None => Ret ""
  | Some j =>
      (if bool_decide (jb_Result j <> "") && bool_decide (jb_Prompt j <> "")
       then storeResponseCache (jb_Prompt j) (jb_Result j) (phaseFromEvent completionEvent) else Ret tt);;;
      Ret (jb_Result j)
  end.

Definition after_completion (jobID : string) (completionEvent : Event) (indexer : bool) : cproc unit :=
  let* base := getBaseBranch in
  unlock Write;;;
  index_task completionEvent base indexer;;;
  maybeAutoAdvance completionEvent;;;
  go (GoRemoveJob jobID).

Definition job_completed (jobID : string) (completionEvent : Event) : cproc unit :=
  lock Write;;;
  writes (upd_cd (fun c => c <| activeJobID := "" |>));;;
  let* wu := work_unit in
  match wu with
  | None => after_completion jobID completionEvent false
  | Some wu =>
      let preJobCheckpoint := last_checkpoint wu in
      let* written := (if decide (completionEvent = EventPlanDone) then
          detectSpecificationFiles;;;
          let* wu := the_unit in Ret (negb (bool_decide (wu_Specifications wu = [])))
        else Ret true) in
      if negb written then
        emitEnrichedError noSpecError PhasePlan;;;
        dispatches EventError;;;
        persists;;;
        unlock Write
      else
        (if decide (completionEvent = EventPlanDone) then commit_specs else Ret tt);;;
        completion_checkpoint completionEvent true;;;
        let* params := prepareCommitValidation preJobCheckpoint in
        let* output := job_outputs jobID completionEvent in
        checkCanaryViolations output;;;
        unlock Write;;;
        validateAgentCommits params;;;
        let* elsewhere := evaluate_output completionEvent output in
        if elsewhere then Ret tt else
        lock Write;;;
        complete_phase completionEvent (recordPhaseMetrics completionEvent jobID);;;
        let* indexer := reads hasIndexer in
        after_completion jobID completionEvent indexer
  end.

Definition job_failed (jobID content : string) (completionEvent : Event) : cproc unit :=
  lock Write;;;
  writes (upd_cd (fun c => c <| activeJobID := "" |>));;;
  checkCanaryViolations "";;;
  let* wu := work_unit in
  match wu with
  | None => Ret tt
  | Some _ => createSafetyCheckpoint ("partial work before " +:+ completionEvent +:+ " failure")
  end;;;
  unlock Write;;;
  let* handled := applyFailurePolicy completionEvent content in
  if handled then Ret tt else
  lock Write;;;
  dispatches EventError;;;
  persists;;;
  unlock Write;;;
  emits (mkConductorEvent Pool.EventJobFailed NoState jobID "Job failed" "" <| ce_Error := content |>);;;
  if decide (content = "") then Ret tt else emitEnrichedError content completionEvent.

(** The receive loop; a stream that is not closed after its last event blocks
    the goroutine for good. *)
Fixpoint job_events (jobID : string) (completionEvent : Event) (closes : bool) (evs : list StreamEvent)
  : cproc unit :=
  match evs with
  | [] => if closes then Ret tt else await (fun _ => false)
  | ev :: evs =>
      (if bool_decide (st_Type ev = "tool_use") || bool_decide (st_Type ev = "tool_result")
       then SignalProgress else Ret tt);;;
      emits (mkConductorEvent "job_output" NoState jobID (st_Content ev) "");;;
      if decide (st_Type ev = Pool.EventJobCompleted) then job_completed jobID completionEvent
      else if decide (st_Type ev = Pool.EventJobFailed) then job_failed jobID (st_Content ev) completionEvent
      else job_events jobID completionEvent closes evs
  end.

Definition watchJob (jobID : string) (completionEvent : Event) : cproc unit :=
  let* pool := unsynced (fun s => hasPool (cd s)) in
  if negb pool then Ret tt else
  let* stream := ask (QStream jobID) in
  match stream with
  | None => Ret tt
  | Some (evs, closes) =>
      pre_job_checkpoint completionEvent;;;
      job_events jobID completionEvent closes evs
  end.

(** ** Graphs *)

Definition partialResultsKey (phase : string) : string := "_graph_partial_results_" +:+ phase.

Definition completed_results (rs : GraphResults) : list (string * string) :=
  flat_map (fun r : string * (string * bool) =>
    if negb (has_prefix r.1 "__") && r.2.2 then [(r.1, r.2.1)] else []) rs.

Definition savePartialResults (sched : string) (completionEvent : Event) : cproc unit :=
  let phase := phaseFromEvent completionEvent in
  let* pool := reads (fun s => hasVarPool (cd s)) in
  if bool_decide (phase = "") || negb pool then Ret tt else
  let* results := ask (QGraphResults sched) in
  match completed_results results with
  | [] => Ret tt
  | completed =>
      let* now := ask QNow in
      freely (fun s => s <| varPool ::= SetScoped now ScopeSystem (partialResultsKey phase)
                                          (VString (encode_results completed)) "graph-scheduler" |>);;;
      writes (upd_cd persistVarPool)
  end.

Definition loadPartialResults (completionEvent : Event) : cproc (list (string * string)) :=
  let phase := phaseFromEvent completionEvent in
  let* pool := reads (fun s => hasVarPool (cd s)) in
  if bool_decide (phase = "") || negb pool then Ret [] else
  let* now := ask QNow in
  let* raw := peeks (fun s => GetScopedString now ScopeSystem (partialResultsKey phase) (varPool s)) in
  Ret (if decide (raw = "") then [] else default [] (decode_results raw)).

Definition clearPartialResults (completionEvent : Event) : cproc unit :=
  let phase := phaseFromEvent completionEvent in
  let* pool := reads (fun s => hasVarPool (cd s)) in
  if bool_decide (phase = "") || negb pool then Ret tt else
  freely (fun s => s <| varPool ::= DeleteVar (ScopeSystem +:+ "." +:+ partialResultsKey phase) |>).

Definition phaseLabelFromEvent (e : Event) : string :=
  go_switch e [(EventPlanDone, PhasePlan); (EventImplementDone, PhaseImplement);
    (EventSimplifyDone, PhaseSimplify); (EventOptimizeDone, PhaseOptimize);
    (EventReviewDone, PhaseReview)] e.

Definition finalizePhaseLocked (completionEvent : Event) : cproc (option string) :=
  let* wu := work_unit in
  match wu with
  | None => Ret (Some "no task loaded")
  | Some _ =>
      let* err := (if decide (completionEvent = EventPlanDone) then
          detectSpecificationFiles;;;
          let* wu := the_unit in
          if decide (wu_Specifications wu = [])
          then Ret (Some "plan phase produced no specification file")
          else commit_specs;;; Ret None
        else Ret None) in
      match err with
      | Some e => Ret (Some e)
      | None => completion_checkpoint completionEvent false;;; Ret None
      end
  end.

Definition FinalizePhase (completionEvent : Event) : cproc (option string) :=
  deferred (finalizePhaseLocked completionEvent).

(** A failure of the graph, with the lock held on entry. *)
Definition graph_failed (sched : string) (completionEvent : Event) (errMsg : string) : cproc unit :=
  savePartialResults sched completionEvent;;;
  createSafetyCheckpoint ("partial work before " +:+ completionEvent +:+ " failure");;;
  unlock Write;;;
  let* handled := applyFailurePolicy completionEvent errMsg in
  if handled then Ret tt else
  lock Write;;;
  dispatches EventError;;;
  persists;;;
  unlock Write;;;
  emits (simple_event Pool.EventJobFailed NoState "Graph execution failed" <| ce_Error := errMsg |>);;;
  emitEnrichedError errMsg completionEvent.

Definition handleGraphCompletion (sched : string) (completionEvent : Event) (errMsg : string) : cproc unit :=
  lock Write;;;
  writes (upd_cd (fun c => c <| activeJobID := "" |>));;;
  let* wu := work_unit in
  match wu with
  | None => unlock Write
  | Some wu =>
      if decide (errMsg <> "") then graph_failed sched completionEvent errMsg else
      clearPartialResults completionEvent;;;
      let* params := prepareCommitValidation (last_checkpoint wu) in
      let* err := finalizePhaseLocked completionEvent in
      match err with
      | Some e =>
          emitEnrichedError e (phaseLabelFromEvent completionEvent);;;
          dispatches EventError;;;
          persists;;;
          unlock Write
      | None =>
          let* results := ask (QGraphResults sched) in
          let output := join_with "" (map (fun r : string * (string * bool) => r.2.1) results) in
          unlock Write;;;
          validateAgentCommits params;;;
          let* elsewhere := evaluate_output completionEvent output in
          if elsewhere then Ret tt else
          lock Write;;;
          complete_phase completionEvent (recordPhaseMetricsFromGraph completionEvent);;;
          let* indexer := reads hasIndexer in
          let* base := getBaseBranch in
          unlock Write;;;
          index_task completionEvent base indexer;;;
          maybeAutoAdvance completionEvent
      end
  end.

(** [specWatcher.Check] on the modification times the environment answers. *)
Definition check_times (sw : SpecWatcher) (times : list (string * option Time)) : SpecWatcher :=
  fold_left (fun sw (e : string * option Time) =>
    match e.2, sw_files sw !! e.1 with
    | Some t, Some baseline =>
        if (baseline <? t)%Z then mkSpecWatcher (<[e.1 := t]> (sw_files sw)) true else sw
    | _, _ => sw
    end) times sw.

Fixpoint ask_times (paths : list string) : cproc (list (string * option Time)) :=
  match paths with
  | [] => Ret []
  | p :: paths =>
      let* t := ask (QModTime p) in
      let* rest := ask_times paths in
      Ret ((p, t) :: rest)
  end.

(** The watcher's pointer is read without the lock. *)
Definition check_specs : cproc unit :=
  let* sw := unsynced specWatcher in
  match sw with
  | None => Ret tt
  | Some sw =>
      if decide (sw_files sw = ∅) then Ret tt else
      let* times := ask_times (map_to_list (sw_files sw)).*1 in
      freely (fun s => s <| specWatcher ::= fmap (fun sw => check_times sw times) |>);;;
      let* changed := peeks (fun s => match specWatcher s with
                                      | Some sw => sw_changed sw | None => false end) in
      if changed then
        emits (simple_event "spec_changed" NoState
          "Specification modified during execution — agent will adapt");;;
        freely (fun s => s <| specWatcher ::= fmap (fun sw => mkSpecWatcher (sw_files sw) false) |>)
      else Ret tt
  end.

Definition node_event (type nodeID msg : string) : ConductorEvent :=
  simple_event type NoState msg <| ce_NodeID := nodeID |>.

(** The conductor's event for a scheduler event. *)
Definition graph_event (e : Scheduler.SchedulerEvent) : option ConductorEvent :=
  let id := Scheduler.se_NodeID e in
  let label := Scheduler.se_NodeLabel e in
  match Scheduler.se_Type e with
  | Scheduler.EventNodeOutput =>
      Some (node_event "job_output" id (Scheduler.se_Content e) <| ce_JobID := Scheduler.se_JobID e |>)
  | Scheduler.EventNodeQueued => Some (node_event "node_queued" id ("Node queued: " +:+ label))
  | Scheduler.EventNodeStarted =>
      Some (node_event "node_started" id ("Node started: " +:+ label) <| ce_JobID := Scheduler.se_JobID e |>)
  | Scheduler.EventNodeCompleted => Some (node_event "node_completed" id ("Node completed: " +:+ label))
  | Scheduler.EventNodeFailed =>
      Some (node_event "node_failed" id ("Node failed: " +:+ label) <| ce_Error := Scheduler.se_Error e |>)
  | Scheduler.EventNodeFailRouted =>
      Some (node_event "node_fail_routed" id ("Failure routed to handler: " +:+ Scheduler.se_Content e))
  | Scheduler.EventNodeSkipped => Some (node_event "node_skipped" id ("Node skipped: " +:+ label))
  | Scheduler.EventNodeIteration =>
      Some (node_event "node_iteration" id ("Node iterating: " +:+ Scheduler.se_Content e))
  | Scheduler.EventNodeRetry =>
      Some (node_event "node_retry" id ("Node retrying: " +:+ Scheduler.se_Content e)
              <| ce_Error := Scheduler.se_Error e |>)
  | Scheduler.EventNodeApprovalRequired =>
      Some (node_event "node_approval_required" id (Scheduler.se_Content e))
  | Scheduler.EventPhaseProgress =>
      Some (simple_event "phase_progress" NoState
        (pretty (Scheduler.se_Done e) +:+ "/" +:+ pretty (Scheduler.se_Total e) +:+ " nodes complete"))
  | Scheduler.EventAllDone => None
  end.

Fixpoint graph_events (sched : string) (completionEvent : Event) (closes : bool)
    (evs : list Scheduler.SchedulerEvent) : cproc unit :=
  match evs with
  | [] => if closes then Ret tt else await (fun _ => false)
  | e :: evs =>
      match graph_event e with
      | None => handleGraphCompletion sched completionEvent (Scheduler.se_Error e)
      | Some ce =>
          emits ce;;;
          match Scheduler.se_Type e with
          | Scheduler.EventNodeCompleted => check_specs
          | _ => Ret tt
          end;;;
          graph_events sched completionEvent closes evs
      end
  end.

Definition set_scheduler (sched : option string) : cproc unit :=
  lock Write;;; writes (fun s => s <| activeScheduler := sched |>);;; unlock Write.

(** The deferred reset of the active scheduler runs at every return. *)
Definition watchGraph (sched : string) (completionEvent : Event) : cproc unit :=
  set_scheduler (Some sched);;;
  lock Read;;;
  let* resume := loadPartialResults completionEvent in
  unlock Read;;;
  let* ' (evs, closes) := ask (QGraphRun sched resume) in
  graph_events sched completionEvent closes evs;;;
  set_scheduler None.
End finish.
