(* ===== verification/PhaseGate.v ===== *)
(** * The quality gate

    Translates conductor_quality.go, conductor_hold_the_line.go and
    conductor_autofix.go.  What the checkers, the scanner and the review tool
    report are answers of the environment; how their findings are filtered and
    when they block is computed. *)

From S2P Require Import Prelude Floats WorkUnit Transitions Machine Persist Interfaces Conductor.
From S2P Require Import Progress Errors VarPool Findings FailClass Policy RespCache Proc ProcLocks.
From S2P Require Import PhaseCtl PhaseJobs PhaseWatch PhaseFinish.
From S2P Require Pool.

Section gate.
Context {W : Type} {HG : Git W} {HJ : JobControl W} {HT : TaskFiles W} {HC : Config} {HE : Env}.
Notation cproc := (@proc (Ctl W) question call answer).
Notation ask := (@ask (Ctl W) question call answer).
Local Open Scope proc_scope.
Implicit Types (s : Ctl W).

(** ** Filters *)

Definition classifyFindings (input : list Finding) : cproc (list Finding) :=
  if negb (HoldTheLineEnabled cfg) then Ret input else
  let* git := unsynced (fun s => hasGit (cd s)) in
  if negb git then Ret input else
  let* base := getBaseBranch in
  match base with
  | Err _ => Ret input
  | Ok base =>
      let* hunks := ask (QDiffHunks base) in
      Ret (match hunks with
           | None => input
           | Some hunks => FilterIntroduced (ClassifyByDiff hunks input)
           end)
  end.

(** [None]: every finding is flaky and the gate passes. *)
Definition applyFailureClassification (filtered : list Finding) : cproc (option (list Finding)) :=
  if negb (FailureClassificationEnabled cfg) then Ret (Some filtered) else
  let window := if (FailureHistoryWindow cfg =? 0)%Z then 10%Z else FailureHistoryWindow cfg in
  lock Write;;;
  writes (fun s => s <| failclassHistory ::= fun h =>
    Some (match h with None => NewFailHistory window | Some h => h end) |>);;;
  let* history := reads failclassHistory in
  unlock Write;;;
  Ret (genuine_findings history filtered).

Definition messagesToFindings (messages : list string) : list Finding :=
  map (fun msg => simple_finding "" SeverityHigh CategoryQuality "" msg "quality_runner") messages.

(** ** The checks *)

Definition finding_line (f : Finding) : string :=
  if bool_decide (f_File f <> "") && (0 <? f_Line f)%Z
  then "  " +:+ f_File f +:+ ":" +:+ pretty (f_Line f) +:+ ": [" +:+ f_Rule f +:+ "] " +:+ f_Message f
  else if bool_decide (f_File f <> "")
  then "  " +:+ f_File f +:+ ": [" +:+ f_Rule f +:+ "] " +:+ f_Message f
  else "  [" +:+ f_Rule f +:+ "] " +:+ f_Message f.

Definition gate_error (lines : list string) (n : nat) : string :=
  "quality gate failed with " +:+ pretty (Z.of_nat n) +:+ " finding(s):" +:+ nl +:+ join_with nl lines.

(** The filters on blocking findings; [None] is a pass. *)
Definition filter_findings (blockers : list Finding) : cproc (option (list Finding)) :=
  let* filtered := classifyFindings blockers in
  match filtered with
  | [] => Ret None
  | _ => applyFailureClassification filtered
  end.

Definition runUnifiedQualityGates (workDir : string) : cproc (option string) :=
  let* checkers := ask (QCheckers workDir) in
  match RunGates checkers [NoErrorsGate; NoSecurityIssuesGate] with
  | Err e => Ret (Some ("quality gates: " +:+ e))
  | Ok r =>
      if gr_Passed r then Ret None else
      let* filtered := filter_findings (gr_Blockers r) in
      Ret (match filtered with
           | None => None
           | Some fs => Some (gate_error (map finding_line fs) (length fs))
           end)
  end.

Definition runStructuredQualityGates (workDir : string) : cproc (option string) :=
  let* answer := ask (QQualityRunner workDir) in
  match answer with
  | None => Ret None
  | Some (Err e) => Ret (Some ("quality runner: " +:+ e))
  | Some (Ok (passed, messages)) =>
      if passed || bool_decide (messages = []) then Ret None else
      let* filtered := filter_findings (messagesToFindings messages) in
      Ret (match filtered with
           | None => None
           | Some fs => Some (gate_error (map f_Message fs) (length fs))
           end)
  end.

(** A scan that fails does not block. *)
Definition qualityGateSecurity (workDir : string) : cproc (option string) :=
  if negb (RequireSecurityScan cfg) then Ret None else
  emits_state "quality_gate" "Running security scan...";;;
  let* scan := ask (QSecurityScan workDir) in
  match scan with
  | None | Some [] => Ret None
  | Some fs =>
      let* filtered := classifyFindings fs in
      match List.filter (fun f => (f_Severity f <=? SeverityHigh)%Z) filtered with
      | [] => Ret None
      | blocking =>
          Ret (Some ("security scan found " +:+ pretty (Z.of_nat (length blocking)) +:+
            " blocking issue(s):" +:+ nl +:+ join_with nl (map (fun f =>
              "  [" +:+ severity_String (f_Severity f) +:+ "] " +:+ f_Rule f +:+ ": " +:+ f_Message f)
              blocking)))
      end
  end.

Definition ExternalReviewNever : string := "never".
Definition ExternalReviewAlways : string := "always".
Definition ExternalReviewAsk : string := "ask".

Definition run_review_tool (command toolPath workDir : string) : cproc (option string) :=
  let* failed := ask (QReviewTool toolPath workDir) in
  Ret (match failed with
       | None => None
       | Some output => Some (command +:+ " review failed:" +:+ nl +:+ output)
       end).

Definition qualityGateExternalReview (workDir : string) : cproc (option string) :=
  let command := if decide (ExternalReviewCommand cfg = "") then "coderabbit"
                 else ExternalReviewCommand cfg in
  if contains "/" command || contains "\" command
  then Ret (Some ("external review command must be a plain name, not a path: " +:+ quote command)) else
  let* found := ask (QLookPath command) in
  match found with
  | None => Ret None
  | Some toolPath =>
      let mode := if decide (ExternalReviewMode cfg = "") then ExternalReviewAsk
                  else ExternalReviewMode cfg in
      if decide (mode = ExternalReviewAlways) then run_review_tool command toolPath workDir
      else if decide (mode = ExternalReviewAsk) then
        let* answer := ask (QPromptUser ("Run " +:+ command +:+
                              " review? (this may take several minutes)")) in
        match answer with
        | Ok true => run_review_tool command toolPath workDir
        | _ => Ret None
        end
      else Ret None
  end.

(** The first check that fails decides. *)
Definition and_then (p q : cproc (option string)) : cproc (option string) :=
  let* err := p in match err with Some e => Ret (Some e) | None => q end.

(** The work directory is read without the lock. *)
Definition runQualityGateChecks : cproc (option string) :=
  let* dir := unsynced getWorkDir in
  and_then (runUnifiedQualityGates dir)
    (and_then (runStructuredQualityGates dir)
       (and_then (qualityGateSecurity dir) (qualityGateExternalReview dir))).

(** ** Auto-fix *)

Definition shouldAutoFix : cproc bool :=
  if negb (AutoFixEnabled cfg) then Ret false else
  let* st := machine_state in
  let phase := stateToPhase st in
  if decide (phase = "") then Ret false else
  let phases := match AutoFixPhases cfg with
                | [] => [PhaseImplement; PhaseSimplify; PhaseOptimize]
                | l => l
                end in
  Ret (slice_contains phases phase).

Definition clearAutoFixState : cproc unit :=
  lock Write;;;
  writes (fun s => s <| autoFixAttempt := 0%Z |> <| autoFixLastErr := "" |>);;;
  unlock Write.

(** The stream of the fix job up to its end; a closed stream counts as success. *)
Fixpoint autofix_events (jobID : string) (closes : bool) (evs : list StreamEvent) : cproc (option string) :=
  match evs with
  | [] => if closes then Ret None else await (fun _ => false);;; Ret None
  | ev :: evs =>
      emits (mkConductorEvent "job_output" NoState jobID (st_Content ev) "");;;
      if decide (st_Type ev = Pool.EventJobCompleted) then Ret None
      else if decide (st_Type ev = Pool.EventJobFailed)
      then Ret (Some ("auto-fix job failed: " +:+ st_Content ev))
      else autofix_events jobID closes evs
  end.

Definition waitForAutoFixJob (jobID : string) : cproc (option string) :=
  let* stream := ask (QStream jobID) in
  match stream with
  | None => Ret (Some ("could not stream auto-fix job " +:+ jobID))
  | Some (evs, closes) => autofix_events jobID closes evs
  end.

Definition autofix_exhausted (maxAttempts : Z) (lastErr : string) : cproc (option string) :=
  emits_state "autofix_exhausted" ("Auto-fix exhausted after " +:+ pretty maxAttempts +:+ " attempts");;;
  clearAutoFixState;;;
  Ret (Some ("auto-fix exhausted after " +:+ pretty maxAttempts +:+ " attempts: " +:+ lastErr)).

Definition attempt_label (attempt maxAttempts : Z) : string :=
  pretty attempt +:+ "/" +:+ pretty maxAttempts.

(** [remaining] attempts are left, [attempt] is the number of the next one. *)
Fixpoint autofix_loop (remaining : nat) (attempt maxAttempts : Z) (lastErr : string) : cproc (option string) :=
  match remaining with
  | 0 => autofix_exhausted maxAttempts lastErr
  | S remaining =>
      lock Write;;;
      writes (fun s => s <| autoFixAttempt := attempt |> <| autoFixLastErr := lastErr |>);;;
      unlock Write;;;
      emits_state "autofix_attempt"
        ("Auto-fix attempt " +:+ attempt_label attempt maxAttempts +:+ ": " +:+ lastErr);;;
      lock Write;;;
      let* dir := reads getWorkDir in
      unlock Write;;;
      let* prompt := ask (QPrompt ("autofix: " +:+ lastErr)) in
      let* cached := lookupResponseCache prompt in
      let* job := ask (QSubmitJob JobTypeImplement dir prompt cached) in
      match job with
      | Err e => clearAutoFixState;;; Ret (Some ("auto-fix: submit fix job: " +:+ e))
      | Ok jobID =>
          emits (mkConductorEvent "autofix_started" NoState jobID
            ("Auto-fix agent started (attempt " +:+ attempt_label attempt maxAttempts +:+ ")") "");;;
          let* failed := waitForAutoFixJob jobID in
          match failed with
          | Some e =>
              emits (simple_event "autofix_job_failed" NoState
                ("Auto-fix attempt " +:+ attempt_label attempt maxAttempts +:+ " job failed: " +:+ e)
                <| ce_Error := e |>);;;
              (* the last attempt's own failure does not replace the error *)
              autofix_loop remaining (attempt + 1) maxAttempts
                (if (maxAttempts <=? attempt)%Z then lastErr else e)
          | None =>
              let* err := runQualityGateChecks in
              match err with
              | None =>
                  emits_state "autofix_success"
                    ("Auto-fix succeeded on attempt " +:+ attempt_label attempt maxAttempts);;;
                  clearAutoFixState;;;
                  Ret None
              | Some e => autofix_loop remaining (attempt + 1) maxAttempts e
              end
          end
      end
  end.

Definition runQualityAutoFix (qualityErr : string) : cproc (option string) :=
  lock Read;;;
  let* pool := reads (fun s => hasPool (cd s)) in
  let* wu := work_unit in
  unlock Read;;;
  if negb pool then Ret (Some "auto-fix: no worker pool available") else
  match wu with
  | None => Ret (Some "auto-fix: no task loaded")
  | Some _ =>
      let maxAttempts := if (AutoFixMaxAttempts cfg <=? 0)%Z then 3%Z else AutoFixMaxAttempts cfg in
      autofix_loop (Z.to_nat maxAttempts) 1 maxAttempts qualityErr
  end.

(** [None]: the gate passes. *)
Definition runQualityGate : cproc (option string) :=
  let* err := runQualityGateChecks in
  match err with
  | None => Ret None
  | Some e =>
      let* fix_ := shouldAutoFix in
      if fix_ then runQualityAutoFix e else Ret (Some e)
  end.

(** ** The gate in the background *)

Definition chan_closed s : bool :=
  match qualityGateCh s with Some ch => nth ch (closedChans s) true | None => true end.

(** [close(c.qualityGateCh)]: false when it is closed or nil, a panic. *)
Definition close_gate : cproc bool :=
  update Writes (fun s =>
    if chan_closed s then (s, false)
    else (match qualityGateCh s with
          | Some ch => s <| closedChans ::= <[ch := true]> |>
          | None => s
          end, true)).

Definition set_gate (passed : bool) (err : string) : cproc unit :=
  write_unit (fun wu => wu <| wu_QualityGatePassed := Some passed |> <| wu_QualityGateError := err |>).

(** The deferred recover: it records the panic and closes the channel again. *)
Definition recover_gate : cproc unit :=
  lock Write;;;
  let* wu := work_unit in
  match wu with
  | None => Ret tt
  | Some _ => set_gate false "panic: close of closed channel";;; touch_unit;;; persists
  end;;;
  let* ok := close_gate in
  if ok then unlock Write else Panic.

Definition gate_goroutine : cproc unit :=
  let* err := runQualityGate in
  lock Write;;;
  let* wu := work_unit in
  match wu with
  | None => Ret tt
  | Some _ =>
      set_gate (bool_decide (err = None)) (default "" err);;;
      touch_unit;;;
      persists
  end;;;
  let* ok := close_gate in
  unlock Write;;;
  if ok then Ret tt else recover_gate.
End gate.
