(* ===== verification/PhaseStart.v ===== *)
(** * Starting and resuming a task

    Translates [Start] and [provisionWorktree] (conductor_start.go) with
    [FetchWithHierarchy] (provider/registry.go), [CreateTaskWorktree]
    (git/worktree.go) and [populateStandardVars] (conductor_graph_strategy.go),
    [ResumeFromCheckpoint] (conductor_resume.go), and the goroutine that starts
    the next queued task (conductor_finish.go). *)

From S2P Require Import Prelude Floats WorkUnit Transitions Machine Persist Interfaces Conductor.
From S2P Require Import Progress Errors VarPool Findings FailClass Policy RespCache Names Proc.
From S2P Require Import PhaseCtl PhaseJobs PhaseWatch PhaseFinish.
From S2P Require Lifecycle.

Definition summary_of (t : RelatedTask) : TaskSummary :=
  {| ts_ID := rt_ID t; ts_Title := rt_Title t; ts_Description := rt_Description t; ts_URL := rt_URL t;
     ts_Status := getStatusFromLabels (rt_Labels t) |}.

(** [task.ParentTask != nil || len(task.SiblingTasks) > 0] *)
Definition hierarchy_of (t : ProviderTask) : option HierarchyContext :=
  match pt_ParentTask t, pt_SiblingTasks t with
  | None, [] => None
  | parent, siblings => Some {| Parent := summary_of <$> parent; Siblings := summary_of <$> siblings |}
  end.

Definition new_unit (name sourceRef id trace : string) (created updated : Time) (t : ProviderTask) : WorkUnit :=
  {| wu_ID := "task-" +:+ id;
     wu_ExternalID := pt_ID t;
     wu_Title := pt_Title t;
     wu_Description := pt_Description t;
     wu_Source := Some {| Provider := name; Reference := sourceRef; URL := ""; Content := pt_Description t |};
     wu_Branch := ""; wu_WorktreePath := ""; wu_Specifications := []; wu_Checkpoints := [];
     wu_RedoStack := []; wu_Jobs := [];
     wu_Metadata := Some ∅;
     wu_TaskTraceID := "ttrace-" +:+ trace;
     wu_PRID := "";
     wu_Hierarchy := hierarchy_of t;
     wu_QualityGatePassed := None; wu_QualityGateError := ""; wu_CancelledBy := "";
     wu_CancelledAt := wu_CancelledAt zero_WorkUnit; wu_Approvals := None; wu_ChecklistChecked := [];
     wu_ContextItems := []; wu_Tags := []; wu_Priority := 0; wu_DependsOn := []; wu_VarPoolPath := "";
     wu_HasImplemented := false;
     wu_CreatedAt := created;
     wu_UpdatedAt := updated;
     wu_CheckpointMeta := None; wu_PhaseMetrics := None; wu_RouteHistory := []; wu_Forks := [] |}.

Section start.
Context {W : Type} {HG : Git W} {HJ : JobControl W} {HT : TaskFiles W} {HC : Config} {HE : Env}.
Notation cproc := (@proc (Ctl W) question call answer).
Notation ask := (@ask (Ctl W) question call answer).
Local Open Scope proc_scope.
Implicit Types (s : Ctl W).

(** ** The provider *)

Definition FetchWithHierarchy (name id : string) (parent siblings : bool) : cproc (result string ProviderTask) :=
  if negb (bool_decide (name ∈ registry_names)) then Ret (Err ("unknown provider: " +:+ name)) else
  let* task := ask (QFetchTask name id) in
  match task with
  | Err e => Ret (Err e)
  | Ok t =>
      if negb (bool_decide (name ∈ hierarchy_names)) then Ret (Ok t) else
      let* t := (if parent then
                   let* r := ask (QFetchParent name (pt_ID t)) in
                   Ret (match r with Ok p => t <| pt_ParentTask := p |> | Err _ => t end)
                 else Ret t) in
      let* t := (if siblings then
                   let* r := ask (QFetchSiblings name (pt_ID t)) in
                   Ret (match r with Ok l => t <| pt_SiblingTasks := l |> | Err _ => t end)
                 else Ret t) in
      Ret (Ok t)
  end.

(** ** The branch *)

Definition write_stray (f : WorkUnit -> WorkUnit) : cproc unit := writes (fun s => s <| stray ::= fmap f |>).

Definition provisionWorktree (srcDir worktreeDir : string) : cproc unit :=
  if negb (ProvisionEnabled (StartWith cfg)) then Ret tt else
  let* r := ask (QProvision srcDir worktreeDir) in
  match r with
  | Err e => emits (simple_event "warning" NoState ("Worktree provisioning partially failed: " +:+ e))
  | Ok (0, 0, 0, _) => Ret tt
  | Ok (files, links, _, data) =>
      emits (mkConductorEvent "worktree_provisioned" NoState ""
        ("Worktree provisioned: " +:+ pretty (Z.of_nat files) +:+ " files, " +:+
           pretty (Z.of_nat links) +:+ " symlinks") data)
  end.

(** [CreateTaskWorktree] up to the guardrails it writes into the worktree; the
    path it made. *)
Definition CreateTaskWorktree (taskID startPoint : string) : cproc (option string) :=
  let path := path_clean (worktrees_dir +:+ "/" +:+ taskID) in
  let* failed := ask (QAddWorktree path ("kvelmo/" +:+ taskID) startPoint) in
  Ret (match failed with Some _ => None | None => Some path end).

(** The branch on the main repository, when there is no worktree. *)
Definition fallback_branch (branchName baseBranch : string) : cproc unit :=
  let* exists_ := ask (QBranchExists branchName) in
  let* failed := (if exists_ then ask (QSwitchBranch branchName) else ask (QCreateBranch branchName baseBranch)) in
  match failed with
  | Some _ => Ret tt
  | None => write_stray (fun wu => wu <| wu_Branch := branchName |>)
  end.

(** A worktree with its branch, or else the branch alone. *)
Definition make_branch (wu : WorkUnit) (branchName : string) : cproc unit :=
  let* base := getBaseBranch in
  let baseBranch := match base with Ok b => b | Err _ => "" end in
  let* worktree := (if UseWorktreeIsolation (StartWith cfg)
                    then CreateTaskWorktree (wu_ID wu) baseBranch else Ret None) in
  match worktree with
  | Some path =>
      write_stray (fun wu' => wu' <| wu_Branch := "kvelmo/" +:+ wu_ID wu |> <| wu_WorktreePath := path |>);;;
      (if decide (path = "") then Ret tt else provisionWorktree git_path path)
  | None => fallback_branch branchName baseBranch
  end.

(** The branch of a new task; the error of a name that is not valid. *)
Definition start_branch (wu : WorkUnit) : cproc (option string) :=
  let branchName := generateBranchName (BranchPattern (StartWith cfg)) wu in
  match validateBranchName branchName (BranchValidationPattern (StartWith cfg)) with
  | Some e => Ret (Some e)
  | None => make_branch wu branchName;;; Ret None
  end.

(** ** The variables every prompt can use *)

Definition set_sys (name value setBy : string) : cproc unit :=
  let* now := ask QNow in
  freely (fun s => s <| varPool ::= SetScoped now ScopeSystem name (VString value) setBy |>).

Definition populateStandardVars : cproc unit :=
  let* wu := work_unit in
  let* pool := reads (fun s => hasVarPool (cd s)) in
  match wu with
  | None => Ret tt
  | Some wu =>
      if negb pool then Ret tt else
      set_sys "task_id" (wu_ID wu) "conductor";;;
      set_sys "task_title" (wu_Title wu) "conductor";;;
      set_sys "task_description" (wu_Description wu) "conductor";;;
      (if decide (wu_Branch wu = "") then Ret tt else set_sys "branch" (wu_Branch wu) "conductor");;;
      let* dir := reads getWorkDir in
      let* tools := ask (QDiscoverTools dir) in
      set_sys "project_commands" (if decide (tools = []) then "" else join_with nl tools) "conductor"
  end.

(** ** Start *)

(** [c.machine.SetWorkUnit(c.workUnit)]; the machine stamps it. *)
Definition adopt_stray : cproc unit :=
  let* now := ask QNow in
  writes (fun s => upd_cd (fun c => c <| machine ::= SetWorkUnit now (stray s) |>) s <| stray := None |>).

Definition start_dispatch (wu : WorkUnit) : cproc (result string unit) :=
  adopt_stray;;;
  let* r := dispatches EventStart in
  match r with
  | Err e => Ret (Err ("dispatch start: " +:+ e))
  | Ok _ =>
      populateStandardVars;;;
      persists;;;
      emits_state "task_started" ("Task started: " +:+ wu_Title wu);;;
      Ret (Ok tt)
  end.

(** The branch and the dispatch for the work unit that has just been made. *)
Definition start_unit (wu : WorkUnit) : cproc (result string unit) :=
  let* git := reads (fun s => hasGit (cd s)) in
  let* invalid := (if git && CreateBranch (StartWith cfg) then start_branch wu else Ret None) in
  match invalid with
  | Some e => Ret (Err ("branch name validation: " +:+ e))
  | None => start_dispatch wu
  end.

Definition start_task (name sourceRef : string) (task : ProviderTask) : cproc (result string unit) :=
  let* id := ask QUUID in
  let* trace := ask QUUID in
  let* created := ask QNow in
  let* updated := ask QNow in
  let wu := new_unit name sourceRef id trace created updated task in
  writes (fun s => s <| stray := Some wu |>);;;
  start_unit wu.

Definition Start (sourceRef : string) : cproc (result string unit) :=
  deferred (
    let* st := machine_state in
    if decide (st <> StateNone)
    then Ret (Err ("cannot start: current state is " +:+ st +:+ " (expected none)")) else
    match Parse sourceRef with
    | Err e => Ret (Err ("parse source: " +:+ e))
    | Ok (name, id) =>
        let* providers := reads hasProviders in
        if negb providers then Panic else
        let wrike := bool_decide (name = NameWrike) in
        let* task := FetchWithHierarchy name id (wrike && IncludeParentContext (StartWith cfg))
                       (wrike && IncludeSiblingContext (StartWith cfg)) in
        match task with
        | Err e => Ret (Err ("fetch task: " +:+ e))
        | Ok task => start_task name sourceRef task
        end
    end).

(** The goroutine that [Finish] starts for the next task of the queue. *)
Definition start_queued (source : string) : cproc unit :=
  let* r := Start source in
  match r with
  | Ok _ => Ret tt
  | Err e => emits_state "queue_advance_failed" ("Failed to load next task: " +:+ e)
  end.

(** ** Resume *)

Definition GotoCheckpoint (sha : string) : cproc (result string unit) :=
  deferred (
    let* t := ask QNow in
    update Writes (fun s => let '(c, r) := Lifecycle.GotoCheckpoint (fun _ => t) sha (cd s) in (s <| cd := c |>, r))).

(** The phase whose metrics end with the checkpoint, and its recording. *)
Definition phase_of_checkpoint (order : list string) (sha : string) (wu : WorkUnit) : option (string * string) :=
  match wu_PhaseMetrics wu with
  | None => None
  | Some m =>
      (fun e : string * PhaseMetrics => (e.1, pm_RecordingPath e.2)) <$>
        List.find (fun e : string * PhaseMetrics => bool_decide (pm_CheckpointSHA e.2 = sha)) (map_range order m)
  end.

Definition ResumeFromCheckpoint (sha : string) : cproc (result string unit) :=
  lock Read;;;
  let* wu := work_unit in
  match wu with
  | None => unlock Read;;; Ret (Err "no task loaded")
  | Some wu =>
      let* order := ask QMetricsOrder in
      unlock Read;;;
      match phase_of_checkpoint order sha wu with
      | None | Some ("", _) => Ret (Err ("no phase found for checkpoint " +:+ sha))
      | Some (phase, recordingPath) =>
          let* r := GotoCheckpoint sha in
          match r with
          | Err e => Ret (Err ("goto checkpoint: " +:+ e))
          | Ok _ =>
              (if decide (recordingPath = "") then Ret tt else
               let* prior := ask (QPriorContext recordingPath phase) in
               if decide (prior = "") then Ret tt else
               lock Write;;;
               let* pool := reads (fun s => hasVarPool (cd s)) in
               (if pool then set_sys "prior_context" prior "resume" else Ret tt);;;
               unlock Write);;;
              go (GoAdvance phase);;;
              Ret (Ok tt)
          end
      end
  end.
End start.
