(* ===== verification/PhaseSubmit.v ===== *)
(** * Submit, finish and the calls as goroutines

    Translates [Submit] (conductor_submit.go) with its checks
    (conductor_submit_helpers.go), [Finish], [ApprovePR] and [MergePR]
    (conductor_finish.go), and gives every call and goroutine its body.  The
    diff statistics, the text of the pull request, the changelog entry, the
    archive and the memory have no effect on the state and are left out. *)

From S2P Require Import Prelude Floats WorkUnit Transitions Machine Persist Interfaces Conductor.
From S2P Require Import Progress Errors VarPool Findings FailClass Policy RespCache Proc ProcLocks.
From S2P Require Import PhaseCtl PhaseJobs PhaseWatch PhaseFinish PhaseGate PhaseStart.
From S2P Require Lifecycle TaskQueue.

(** ** Checks on the history *)

(** The entries since the last submit. *)
Fixpoint since_submit (h : list HistoryEntry) : list HistoryEntry :=
  match h with
  | [] => []
  | e :: rest =>
      if existsb (fun e => bool_decide (he_Event e = EventSubmit)) rest then since_submit rest
      else if decide (he_Event e = EventSubmit) then rest else e :: rest
  end.

Definition phaseEventMap (phase : string) : option Event :=
  go_switch phase
    [(PhasePlan, Some EventPlanDone); (PhaseImplement, Some EventImplementDone);
     (PhaseReview, Some EventReviewDone); (PhaseSimplify, Some EventSimplifyDone);
     (PhaseOptimize, Some EventOptimizeDone)] None.

Definition happened (event : Event) (h : list HistoryEntry) : bool :=
  existsb (fun e => bool_decide (he_Event e = event)) h.

Definition missing_phase (requiredPhases : list string) (h : list HistoryEntry) : option string :=
  List.find (fun phase => match phaseEventMap phase with
                          | None => false
                          | Some doneEvent => negb (happened doneEvent (since_submit h))
                          end) requiredPhases.

Definition checkReviewChecklist (checklist checked : list string) : option string :=
  match List.find (fun item => negb (slice_contains checked item)) checklist with
  | None => None
  | Some item =>
      Some ("cannot submit: review checklist item " +:+ quote item +:+
            " not checked. Run: kvelmo review --check " +:+ quote item)
  end.

(** [strings.TrimRight(pattern, "*")] *)
Fixpoint trim_stars (s : string) : string :=
  match s with
  | "" => ""
  | String c rest =>
      match trim_stars rest with
      | "" => if decide (c = chr 42) then "" else String c ""
      | t => String c t
      end
  end.

Definition sensitive_match (pattern file : string) : bool :=
  path_Match pattern file ||
  (let dir := trim_stars pattern in has_suffix dir "/" && has_prefix file dir).

(** [None] for the files: the diff failed or there is no repository. *)
Definition sensitive_error (sensitivePaths : list string) (files : option (list string))
    (h : list HistoryEntry) : option string :=
  match files with
  | None => None
  | Some files =>
      if happened EventReviewDone (since_submit h) then None else
      match List.filter (fun p => existsb (sensitive_match p) files) sensitivePaths with
      | [] => None
      | matched => Some ("changes to sensitive files require review: " +:+ join_with ", " matched)
      end
  end.

Section submit.
Context {W : Type} {HG : Git W} {HJ : JobControl W} {HT : TaskFiles W} {HC : Config} {HE : Env}.
Notation cproc := (@proc (Ctl W) question call answer).
Notation ask := (@ask (Ctl W) question call answer).
Local Open Scope proc_scope.
Implicit Types (s : Ctl W).

(** The error of a check, with the lock let go. *)
Definition fail_unlocked {A} (e : string) : cproc (result string A) := unlock Write;;; Ret (Err e).

(** ** Submit *)

Definition policy_error (st : State) (specs files : list string) : option string :=
  let settings := mkPolicySettings (RequiredPhases cfg) (SensitivePaths cfg) (MinSpecSections cfg)
                    (RequireSecurityScan cfg) (DocRequirements cfg) in
  let violations := policy_Evaluate settings PhaseSubmit st specs files in
  if HasBlockingViolation violations then
    Some ("policy violations block submit: " +:+ join_with "; "
      (map vi_Message (List.filter (fun v => bool_decide (vi_Severity v = SeverityError)) violations)))
  else None.

(** The checklist, the required phases and the task group. *)
Definition submit_checks : cproc (option string) :=
  let* wu := the_unit in
  match checkReviewChecklist (ReviewChecklist cfg) (wu_ChecklistChecked wu) with
  | Some e => Ret (Some e)
  | None =>
      let* h := peeks (fun s => history (machine (cd s))) in
      match missing_phase (RequiredPhases cfg) h with
      | Some phase => Ret (Some ("cannot submit: required phase " +:+ quote phase +:+ " was not completed"))
      | None =>
          let* checker := reads hasTaskGroupChecker in
          if negb checker then Ret None else
          unlock Write;;;
          let* err := ask (QTaskGroup (wu_ID wu)) in
          lock Write;;;
          Ret err
      end
  end.

(** The changed files, read unlocked; then the policy. *)
Definition submit_policy : cproc (option (list string) * option string) :=
  let* git := reads (fun s => hasGit (cd s)) in
  let* files := (if git then unlock Write;;; let* files := ask QDiffFiles in lock Write;;; Ret files
                 else Ret None) in
  let* wu := the_unit in
  let* st := machine_state in
  Ret (files, policy_error st (wu_Specifications wu) (default [] files)).

Definition gate_failed (wu : WorkUnit) : string := "quality gate failed: " +:+ wu_QualityGateError wu.

(** The cached result, the result of a run in progress, or a run of its own. *)
Definition submit_gate : cproc (option string) :=
  let* wu := the_unit in
  match wu_QualityGatePassed wu with
  | Some passed => Ret (if passed then None else Some (gate_failed wu))
  | None =>
      let* ch := reads qualityGateCh in
      match ch with
      | Some ch =>
          unlock Write;;;
          await (fun s => nth ch (closedChans s) true);;;
          lock Write;;;
          let* wu := the_unit in
          Ret (if bool_decide (wu_QualityGatePassed wu = Some true) then None else Some (gate_failed wu))
      | None =>
          writes (fun s => s <| qualityGateCh := Some (length (closedChans s)) |>
                             <| closedChans ::= fun l => l ++ [false] |>);;;
          unlock Write;;;
          let* err := runQualityGate in
          lock Write;;;
          let* ok := close_gate in
          if negb ok then Panic else
          match err with
          | Some e => Ret (Some ("quality gate failed: " +:+ e))
          | None =>
              write_unit (fun wu => wu <| wu_QualityGatePassed := Some true |>);;;
              Ret None
          end
      end
  end.

(** The last checks before the network. *)
Definition submit_ready (files : option (list string)) : cproc (option string) :=
  let* wu := the_unit in
  let* git := reads (fun s => hasGit (cd s)) in
  let* h := peeks (fun s => history (machine (cd s))) in
  match (if git then sensitive_error (SensitivePaths cfg) files h else None) with
  | Some e => Ret (Some e)
  | None =>
      if RequireSecurityScan cfg && bool_decide (wu_QualityGatePassed wu = None)
      then Ret (Some "security scan required before submission") else
      let* ' (can, reason) := peeks (fun s => CanDispatch EventSubmit (machine (cd s))) in
      Ret (if (can : bool) then None else Some ("cannot submit: " +:+ reason))
  end.

(** What [Submit] copies before it lets go of the lock. *)
Record SubmitData := mkSubmitData {
  sd_Branch : string;
  sd_WorktreePath : string;
  sd_PRID : string;
  sd_Provider : string;
  sd_Git : bool;
  sd_Providers : bool
}.

Definition submit_data : cproc SubmitData :=
  let* wu := the_unit in
  let* git := reads (fun s => hasGit (cd s)) in
  let* providers := reads hasProviders in
  Ret (mkSubmitData (wu_Branch wu) (wu_WorktreePath wu) (wu_PRID wu)
    (match wu_Source wu with Some src => Provider src | None => "" end) git providers).

Fixpoint emit_warnings (msgs : list string) : cproc unit :=
  match msgs with
  | [] => Ret tt
  | m :: msgs => emits (simple_event "warning" NoState m);;; emit_warnings msgs
  end.

(** The pull request: an existing one is kept, a failure to create one ends the
    submit.  The result is the PR's ID. *)
Definition create_pr (d : SubmitData) : cproc (result string string) :=
  let* provider := (if bool_decide (sd_Provider d <> "") && sd_Providers d
                    then ask (QProvider (sd_Provider d)) else Ret (Ok false)) in
  if match provider with Ok submits => negb submits | Err _ => true end then Ret (Ok "") else
  let* base := getBaseBranch in
  match base with
  | Err e => Ret (Err ("determine base branch for PR: " +:+ e))
  | Ok base =>
      let* warnings := ask (QBranchWarnings base) in
      emit_warnings warnings;;;
      let* missing := ask QMissingSections in
      match missing with
      | _ :: _ => Ret (Err ("PR template has unfilled required sections: " +:+ join_with ", " missing))
      | [] =>
          if decide (sd_PRID d <> "") then Ret (Ok (sd_PRID d)) else
          let* created := ask (QCreatePR (sd_Branch d) base) in
          match created with
          | Ok (url, id) => Ret (Ok id)
          | Err e => phase_error ("create PR: " +:+ e) PhaseSubmit
          end
      end
  end.

Definition submit_network (d : SubmitData) (deleteBranch : bool) : cproc (result string string) :=
  if negb (sd_Git d) || bool_decide (sd_Branch d = "") then Ret (Ok "") else
  let* pushed := ask (QPush (sd_Branch d)) in
  match pushed with
  | Some e => phase_error ("push branch " +:+ sd_Branch d +:+ ": " +:+ e) PhaseSubmit
  | None =>
      let* pr := create_pr d in
      match pr with
      | Err e => Ret (Err e)
      | Ok prID =>
          (if deleteBranch then (let* _ := ask (QDeleteBranch (sd_Branch d)) in Ret tt) else Ret tt);;;
          Ret (Ok prID)
      end
  end.

(** What follows the transition. *)
Definition submit_cleanup (d : SubmitData) (prID : string) : cproc unit :=
  (if bool_decide (sd_WorktreePath d <> "") && sd_Git d
   then (let* _ := ask (QRemoveWorktree (sd_WorktreePath d)) in Ret tt) else Ret tt);;;
  lock Write;;;
  writes (upd_cd (upd_workUnit (fun wu => wu <| wu_WorktreePath := "" |>)));;;
  (if decide (prID <> "")
   then writes (upd_cd (upd_workUnit (fun wu => wu <| wu_PRID := prID |>))) else Ret tt);;;
  persists;;;
  emits_state "task_submitted" "Task submitted";;;
  (if bool_decide (prID <> "") && CIWatchEnabled cfg && CIAutoFix cfg then go GoCIFix else Ret tt);;;
  let* indexer := reads hasIndexer in
  let* wu := work_unit in
  (match wu with
   | Some _ => if indexer then (let* base := getBaseBranch in
                                match base with Ok _ => go (GoIndex EventSubmit) | Err _ => Ret tt end)
               else Ret tt
   | None => Ret tt
   end);;;
  unlock Write.

(** The dispatch is not under the lock. *)
Definition submit_finish (d : SubmitData) (prID : string) : cproc (result string unit) :=
  let* r := dispatches EventSubmit in
  match r with
  | Err e => Ret (Err ("state transition failed: " +:+ e))
  | Ok _ => submit_cleanup d prID;;; Ret (Ok tt)
  end.

Definition Submit (deleteBranch : bool) : cproc (result string unit) :=
  lock Write;;;
  let* wu := work_unit in
  match wu with
  | None => unlock Write;;; phase_error "no task loaded" PhaseSubmit
  | Some _ =>
  let* err := submit_checks in
  match err with Some e => fail_unlocked e | None =>
  let* err := checkApproval EventSubmit in
  match err with Some e => fail_unlocked e | None =>
  unlock Write;;;
  let* err := RunTransitionHooks EventSubmit in
  match err with Some e => phase_error e PhaseSubmit | None =>
  lock Write;;;
  let* ' (files, err) := submit_policy in
  match (err : option string) with Some e => fail_unlocked e | None =>
  let* err := submit_gate in
  match err with Some e => fail_unlocked e | None =>
  let* err := submit_ready files in
  match err with Some e => fail_unlocked e | None =>
  let* d := submit_data in
  unlock Write;;;
  let* pr := submit_network d deleteBranch in
  match pr with
  | Err e => Ret (Err e)
  | Ok prID => submit_finish d prID
  end end end end end end end end.

(** ** Finish *)

Definition finish_branches (branch base : string) (deleteRemote : bool) : cproc unit :=
  if bool_decide (branch <> "") && bool_decide (branch <> base) then
    let* _ := ask (QDeleteBranch branch) in
    if deleteRemote then (let* _ := ask (QDeleteRemoteBranch branch) in Ret tt) else Ret tt
  else Ret tt.

Definition Finish (deleteRemote force : bool) : cproc (result string unit) :=
  deferred (
    let* wu := work_unit in
    match wu with
    | None => Ret (Err "no task loaded")
    | Some wu =>
        let* st := machine_state in
        if negb (bool_decide (st = StateSubmitted)) && negb force
        then Ret (Err ("cannot finish: task is " +:+ st +:+ " (expected submitted). Use --force to override"))
        else
        let* git := reads (fun s => hasGit (cd s)) in
        if negb git then Ret (Err "git not available") else
        let* base := getBaseBranch in
        match base with
        | Err e => Ret (Err ("get base branch: " +:+ e))
        | Ok base =>
            let* failed := ask (QCheckout base) in
            match failed with
            | Some e => Ret (Err ("checkout " +:+ base +:+ ": " +:+ e))
            | None =>
                let* _ := ask QPull in
                finish_branches (wu_Branch wu) base deleteRemote;;;
                let* r := dispatches EventFinish in
                (match r with
                 | Ok _ => Ret tt
                 | Err _ => freely (upd_cd (fun c => c <| machine ::= Machine.Reset |>))
                 end);;;
                emits_state "task_finished" ("Task finished: " +:+ wu_Title wu);;;
                writes (upd_cd (fun c => c <| machine ::= SetWorkUnit 0%Z None |>));;;
                persists;;;
                let* next := update Writes (fun s =>
                  let '(c, next) := TaskQueue.popNextTask (cd s) in (s <| cd := c |>, next)) in
                (match next with
                 | Some t =>
                     emits_state "queue_advancing" ("Loading next queued task: " +:+ qt_Source t);;;
                     go (GoStart (qt_Source t))
                 | None => Ret tt
                 end);;;
                Ret (Ok tt)
            end
        end
    end).

(** [ApprovePR] and [MergePR] under the lock for the whole call. *)
Definition pr_operation (verb operation argument event message : string) : cproc (result string unit) :=
  deferred (
    let* wu := work_unit in
    match wu with
    | None => Ret (Err "no task loaded")
    | Some wu =>
        let* st := machine_state in
        if decide (st <> StateSubmitted)
        then Ret (Err ("cannot " +:+ verb +:+ ": task is " +:+ st +:+ " (expected submitted)")) else
        let* providers := reads hasProviders in
        match wu_Source wu with
        | None => Ret (Err "no provider configured")
        | Some src =>
            if negb providers then Ret (Err "no provider configured") else
            let* provider := ask (QProvider (Provider src)) in
            match provider with Err e => Ret (Err ("get provider: " +:+ e)) | Ok supported =>
            if negb supported
            then Ret (Err ("provider " +:+ Provider src +:+ " does not support " +:+ operation)) else
            if decide (wu_PRID wu = "")
            then Ret (Err "no PR ID found (task may not have been submitted yet)") else
            let* r := ask (QMergeProvider verb (wu_PRID wu) argument) in
            match r with
            | Err e => Ret (Err (verb +:+ " PR: " +:+ e))
            | Ok _ => emits_state event (message +:+ wu_PRID wu);;; Ret (Ok tt)
            end end
        end
    end).

Definition ApprovePR (comment : string) : cproc (result string unit) :=
  pr_operation "approve" "PR approval" comment "pr_approved" "PR approved: ".

Definition MergePR (method : string) : cproc (result string unit) :=
  pr_operation "merge" "PR merging" (if decide (method = "") then "rebase" else method)
    "pr_merged" "PR merged: ".

(** ** Operations of the other files, as goroutines *)

(** Each holds the lock for its whole body and reads the clock. *)
Definition locked_operation (f : (nat -> Time) -> Conductor W -> Conductor W * result string unit)
  : cproc unit :=
  deferred (let* t := ask QNow in writes (upd_cd (fun c => (f (fun _ => t) c).1))).

Definition SetAutoAdvance (enabled : bool) : cproc unit :=
  deferred (writes (fun s => s <| autoAdvance := enabled |>)).

(** The spec alignment job: a review job whose result is only stored. *)
Definition spec_alignment (workDir : string) : cproc unit :=
  lock Read;;;
  let* wu := work_unit in
  let* ready := reads (fun s => hasStore (cd s) && hasPool (cd s)) in
  unlock Read;;;
  match wu with
  | None => Ret tt
  | Some _ =>
      if negb ready then Ret tt else
      let* prompt := ask (QPrompt "spec alignment") in
      if decide (prompt = "") then Ret tt else
      let* cached := lookupResponseCache prompt in
      let* job := ask (QSubmitJob JobTypeReview workDir prompt cached) in
      match job with
      | Err _ => Ret tt
      | Ok jobID =>
          lock Write;;;
          let* wu := work_unit in
          match wu with
          | None => Ret tt
          | Some _ => write_unit (fun wu => wu <| wu_Jobs ::= fun l => l ++ [jobID] |>);;; touch_unit;;; persists
          end;;;
          unlock Write;;;
          let* st := machine_state in
          emits (mkConductorEvent "spec_alignment_started" st jobID "Spec alignment check started" "")
      end
  end.

Context (encode_results : list (string * string) -> string)
  (decode_results : string -> option (list (string * string))).

(** The body of every call and goroutine.  [GoIndex], [GoRemoveJob] and
    [GoCIFix] act on other parts only. *)
Definition body (t : call) : cproc unit :=
  match t with
  | CallPlan => discard Plan
  | CallImplement => discard Implement
  | CallSimplify => discard Simplify
  | CallOptimize => discard Optimize
  | CallReview fix_ => discard (Review fix_)
  | CallSubmit deleteBranch => discard (Submit deleteBranch)
  | CallFinish deleteRemote force => discard (Finish deleteRemote force)
  | CallApprovePR comment => discard (ApprovePR comment)
  | CallMergePR method => discard (MergePR method)
  | CallFinalizePhase done_ => discard (FinalizePhase done_)
  | CallApprove event => discard (Approve event)
  | CallCheckReviewItem item => discard (CheckReviewItem item)
  | CallUncheckReviewItem item => discard (UncheckReviewItem item)
  | CallSetAutoAdvance enabled => SetAutoAdvance enabled
  | CallStop => locked_operation Lifecycle.Stop
  | CallAbort => locked_operation Lifecycle.Abort
  | CallReset => locked_operation Lifecycle.ResetTask
  | CallStart source => discard (Start source)
  | CallResume sha => discard (ResumeFromCheckpoint sha)
  | GoEmit e => emits e
  | GoWatchJob jobID done_ => watchJob jobID done_
  | GoWatchGraph sched done_ => watchGraph encode_results decode_results sched done_
  | GoResubmit phase => resubmit phase
  | GoRetry phase => dispatchAutoAdvance phase
  | GoRoute phase => route_phase phase
  | GoQualityGate => gate_goroutine
  | GoSpecAlignment workDir => spec_alignment workDir
  | GoIndex _ | GoRemoveJob _ | GoCIFix => Ret tt
  | GoStart source => start_queued source
  | GoAdvance phase => dispatchAutoAdvance phase
  end.
End submit.
