(* ===== verification/PhaseLocks.v ===== *)
(** * The conductor's calls obey the lock discipline

    One lemma per body of the phases: how it holds [c.mu] on entry and on
    return.  The theorem at the end is for settings without risk-based approval;
    with it, [checkApproval] asks for the lock its caller holds. *)

From S2P Require Import Prelude Floats WorkUnit Transitions Machine Persist Interfaces Conductor.
From S2P Require Import Progress Errors VarPool Findings FailClass Policy RespCache Proc ProcLocks.
From S2P Require Import PhaseCtl PhaseJobs PhaseWatch PhaseFinish PhaseGate PhaseStart PhaseSubmit.

(** Opens the named body and walks through it. *)
Tactic Notation "locks" constr(p) := unfold p; check_locks.

Section locks.
Context {W : Type} {HG : Git W} {HJ : JobControl W} {HT : TaskFiles W} {HC : Config} {HE : Env}.
Notation cproc := (@proc (Ctl W) question call answer).
Notation held := (Some Write).
Implicit Types (h : option mode).

Lemma wl_discard {A} h (p : cproc A) : well_locked h p None -> well_locked h (discard p) None.
Proof. intros Hp. by eapply wl_bind. Qed.

(** ** Primitives *)

Lemma wl_emits h e : well_locked h (emits e : cproc unit) h.
Proof. locks @emits. Qed.
Lemma wl_machine_state h : well_locked h (machine_state : cproc State) h.
Proof. locks @machine_state. Qed.
#[local] Hint Resolve wl_emits wl_machine_state : locks.
Lemma wl_emits_state h type msg : well_locked h (emits_state type msg : cproc unit) h.
Proof. locks @emits_state. Qed.
Lemma wl_emitEnrichedError h err phase : well_locked h (emitEnrichedError err phase : cproc unit) h.
Proof. locks @emitEnrichedError. Qed.
Lemma wl_work_unit m : well_locked (Some m) (work_unit : cproc _) (Some m).
Proof. locks @work_unit. Qed.
#[local] Hint Resolve wl_emits_state wl_emitEnrichedError wl_work_unit : locks.
Lemma wl_the_unit m : well_locked (Some m) (the_unit : cproc _) (Some m).
Proof. locks @the_unit. Qed.
#[local] Hint Resolve wl_the_unit : locks.
Lemma wl_write_unit f : well_locked held (write_unit f : cproc unit) held.
Proof. locks @write_unit. Qed.
Lemma wl_dispatches h e : well_locked h (dispatches e : cproc _) h.
Proof. locks @dispatches. Qed.
Lemma wl_set_prior h st : well_locked h (set_prior st : cproc unit) h.
Proof. locks @set_prior. Qed.
Lemma wl_clear_prior h : well_locked h (clear_prior : cproc unit) h.
Proof. locks @clear_prior. Qed.
Lemma wl_persists : well_locked held (persists : cproc unit) held.
Proof. locks @persists. Qed.
#[local] Hint Resolve wl_write_unit wl_dispatches wl_set_prior wl_clear_prior wl_persists : locks.
Lemma wl_touch_unit : well_locked held (touch_unit : cproc unit) held.
Proof. locks @touch_unit. Qed.
Lemma wl_emitEventLog h type phase : well_locked h (emitEventLog type phase : cproc unit) h.
Proof. locks @emitEventLog. Qed.
Lemma wl_commit_all dir msg : well_locked held (commit_all dir msg : cproc _) held.
Proof. locks @commit_all. Qed.
Lemma wl_append_checkpoint sha : well_locked held (append_checkpoint sha : cproc unit) held.
Proof. locks @append_checkpoint. Qed.
Lemma wl_record_meta sha msg : well_locked held (record_meta sha msg : cproc unit) held.
Proof. locks @record_meta. Qed.
#[local] Hint Resolve wl_touch_unit wl_emitEventLog wl_commit_all wl_append_checkpoint wl_record_meta : locks.
Lemma wl_createSafetyCheckpoint msg : well_locked held (createSafetyCheckpoint msg : cproc unit) held.
Proof. locks @createSafetyCheckpoint. Qed.
Lemma wl_capture_head dir m : well_locked held (capture_head dir m : cproc unit) held.
Proof. locks @capture_head. Qed.
#[local] Hint Resolve wl_createSafetyCheckpoint wl_capture_head : locks.
Lemma wl_completion_checkpoint e b : well_locked held (completion_checkpoint e b : cproc unit) held.
Proof. locks @completion_checkpoint. Qed.
#[local] Hint Resolve wl_completion_checkpoint : locks.

(** ** Starting a phase *)

Lemma wl_evaluateRiskUnlocked : well_locked None (evaluateRiskUnlocked : cproc _) None.
Proof. locks @evaluateRiskUnlocked. Qed.
Lemma wl_explicit_approval m e a b : well_locked (Some m) (explicit_approval e a b : cproc _) (Some m).
Proof. locks @explicit_approval. Qed.
#[local] Hint Resolve wl_evaluateRiskUnlocked wl_explicit_approval : locks.

Definition risk_based : bool := match RiskApproval cfg with Some r => rba_Enabled r | None => false end.

Lemma wl_checkApproval e : risk_based = false -> well_locked held (checkApproval e : cproc _) held.
Proof.
  unfold risk_based, checkApproval. destruct (RiskApproval cfg) as [rba|]; [intros ->|intros _];
    check_locks.
Qed.

Lemma wl_Approve e : well_locked None (Approve e : cproc _) None.
Proof. locks @Approve. Qed.
Lemma wl_CheckReviewItem i : well_locked None (CheckReviewItem i : cproc _) None.
Proof. locks @CheckReviewItem. Qed.
Lemma wl_UncheckReviewItem i : well_locked None (UncheckReviewItem i : cproc _) None.
Proof. locks @UncheckReviewItem. Qed.
Lemma wl_run_hooks h hooks dir : well_locked h (run_hooks hooks dir : cproc _) h.
Proof. induction hooks; cbn [run_hooks]; check_locks. Qed.
#[local] Hint Resolve wl_run_hooks : locks.
Lemma wl_RunTransitionHooks h e : well_locked h (RunTransitionHooks e : cproc _) h.
Proof. locks @RunTransitionHooks. Qed.
Lemma wl_executeGuardrails h names phase dir specs :
  well_locked h (executeGuardrails names phase dir specs : cproc _) h.
Proof. induction names; cbn [executeGuardrails]; check_locks. Qed.
#[local] Hint Resolve wl_RunTransitionHooks wl_executeGuardrails : locks.
Lemma wl_runPreGuardrails phase : well_locked None (runPreGuardrails phase : cproc _) None.
Proof. locks @runPreGuardrails. Qed.
#[local] Hint Resolve wl_runPreGuardrails : locks.
Lemma wl_resetPhaseState phase : well_locked held (resetPhaseState phase : cproc unit) held.
Proof. locks @resetPhaseState. Qed.
Lemma wl_initProgressEstimator phase : well_locked held (initProgressEstimator phase : cproc unit) held.
Proof. locks @initProgressEstimator. Qed.
Lemma wl_setupCanaryHarness : well_locked held (setupCanaryHarness : cproc unit) held.
Proof. locks @setupCanaryHarness. Qed.
Lemma wl_lookupResponseCache h p : well_locked h (lookupResponseCache p : cproc _) h.
Proof. locks @lookupResponseCache. Qed.
Lemma wl_storeResponseCache h p r ph : well_locked h (storeResponseCache p r ph : cproc unit) h.
Proof. locks @storeResponseCache. Qed.
Lemma wl_phase_error {A} h e ph : well_locked h (phase_error e ph : cproc (result string A)) h.
Proof. locks @phase_error. Qed.
#[local] Hint Resolve wl_resetPhaseState wl_initProgressEstimator wl_setupCanaryHarness
  wl_lookupResponseCache wl_storeResponseCache wl_phase_error : locks.
Lemma wl_hooks_unlocked e ph : well_locked held (hooks_unlocked e ph : cproc _) held.
Proof. locks @hooks_unlocked. Qed.
Lemma wl_record_prior h l : well_locked h (record_prior l : cproc _) h.
Proof. locks @record_prior. Qed.
Lemma wl_enter_phase e ph : well_locked held (enter_phase e ph : cproc _) held.
Proof. locks @enter_phase. Qed.
Lemma wl_guardrails_unlocked ph : well_locked held (guardrails_unlocked ph : cproc _) held.
Proof. locks @guardrails_unlocked. Qed.
Lemma wl_check_task_and_pool m ph : well_locked (Some m) (check_task_and_pool ph : cproc _) (Some m).
Proof. locks @check_task_and_pool. Qed.
Lemma wl_phase_started ph : well_locked held (phase_started ph : cproc unit) held.
Proof. locks @phase_started. Qed.
Lemma wl_build_prompt m ph : well_locked (Some m) (build_prompt ph : cproc _) (Some m).
Proof. locks @build_prompt. Qed.
Lemma wl_task_complexity m : well_locked (Some m) (task_complexity : cproc _) (Some m).
Proof. locks @task_complexity. Qed.
Lemma wl_new_scheduler h a b c : well_locked h (new_scheduler a b c : cproc _) h.
Proof. locks @new_scheduler. Qed.
Lemma wl_submit_job m a b : well_locked (Some m) (submit_job a b : cproc _) (Some m).
Proof. locks @submit_job. Qed.
#[local] Hint Resolve wl_hooks_unlocked wl_record_prior wl_enter_phase wl_guardrails_unlocked
  wl_check_task_and_pool wl_phase_started wl_build_prompt wl_task_complexity wl_new_scheduler
  wl_submit_job : locks.
Lemma wl_run_phase_job a b c d e : well_locked held (run_phase_job a b c d e : cproc _) held.
Proof. locks @run_phase_job. Qed.
Lemma wl_read_times h paths files : well_locked h (read_times paths files : cproc _) h.
Proof. revert files. induction paths; intros; cbn [read_times]; check_locks. Qed.
#[local] Hint Resolve wl_run_phase_job wl_read_times : locks.
Lemma wl_newSpecWatcher : well_locked held (newSpecWatcher : cproc unit) held.
Proof. locks @newSpecWatcher. Qed.
#[local] Hint Resolve wl_newSpecWatcher : locks.
Lemma wl_optional_phase a b c d e f : well_locked None (optional_phase a b c d e f : cproc _) None.
Proof. locks @optional_phase. Qed.

Context (no_risk : risk_based = false).
#[local] Hint Resolve wl_optional_phase wl_checkApproval : locks.

Lemma wl_Plan : well_locked None (Plan : cproc _) None.
Proof. locks @Plan. Qed.
Lemma wl_Implement : well_locked None (Implement : cproc _) None.
Proof. locks @Implement. Qed.
Lemma wl_Simplify : well_locked None (Simplify : cproc _) None.
Proof. apply wl_optional_phase. Qed.
Lemma wl_Optimize : well_locked None (Optimize : cproc _) None.
Proof. apply wl_optional_phase. Qed.
#[local] Hint Resolve wl_discard wl_Plan wl_Implement wl_Simplify wl_Optimize : locks.

(** ** Following a phase *)

Lemma wl_detectSpecificationFiles : well_locked held (detectSpecificationFiles : cproc unit) held.
Proof. locks @detectSpecificationFiles. Qed.
Lemma wl_commit_specs : well_locked held (commit_specs : cproc unit) held.
Proof. locks @commit_specs. Qed.
Lemma wl_store_metrics ph pm : well_locked held (store_metrics ph pm : cproc unit) held.
Proof. locks @store_metrics. Qed.
#[local] Hint Resolve wl_detectSpecificationFiles wl_commit_specs wl_store_metrics : locks.
Lemma wl_recordPhaseMetrics e j : well_locked held (recordPhaseMetrics e j : cproc unit) held.
Proof. locks @recordPhaseMetrics. Qed.
Lemma wl_recordPhaseMetricsFromGraph e : well_locked held (recordPhaseMetricsFromGraph e : cproc unit) held.
Proof. locks @recordPhaseMetricsFromGraph. Qed.
Lemma wl_checkCanaryViolations o : well_locked held (checkCanaryViolations o : cproc unit) held.
Proof. locks @checkCanaryViolations. Qed.
Lemma wl_SkipPhases : well_locked None (SkipPhases : cproc _) None.
Proof. locks @SkipPhases. Qed.
Lemma wl_runQualityGateAsync : well_locked None (runQualityGateAsync : cproc unit) None.
Proof. locks @runQualityGateAsync. Qed.
Lemma wl_review_fix d : well_locked None (review_fix d : cproc _) None.
Proof. locks @review_fix. Qed.
#[local] Hint Resolve wl_recordPhaseMetrics wl_recordPhaseMetricsFromGraph wl_checkCanaryViolations wl_SkipPhases wl_runQualityGateAsync wl_review_fix : locks.
Lemma wl_Review b : well_locked None (Review b : cproc _) None.
Proof. locks @Review. Qed.
#[local] Hint Resolve wl_Review : locks.
Lemma wl_only_error {A} (p : cproc (result string A)) :
  well_locked None p None -> well_locked None (only_error p) None.
Proof. intros. unfold only_error. check_locks. Qed.
#[local] Hint Resolve wl_only_error : locks.
Lemma wl_dispatchAutoAdvance ph : well_locked None (dispatchAutoAdvance ph : cproc unit) None.
Proof. locks @dispatchAutoAdvance. Qed.
#[local] Hint Resolve wl_dispatchAutoAdvance : locks.
Lemma wl_maybeAutoAdvance e : well_locked None (maybeAutoAdvance e : cproc unit) None.
Proof. locks @maybeAutoAdvance. Qed.
Lemma wl_drop_iterations ph : well_locked None (drop_iterations ph : cproc unit) None.
Proof. locks @drop_iterations. Qed.
Lemma wl_resubmit ph : well_locked None (resubmit ph : cproc unit) None.
Proof. locks @resubmit. Qed.
#[local] Hint Resolve wl_maybeAutoAdvance wl_drop_iterations : locks.
Lemma wl_evaluateAndMaybeIterate e o : well_locked None (evaluateAndMaybeIterate e o : cproc _) None.
Proof. locks @evaluateAndMaybeIterate. Qed.
Lemma wl_applyFailurePolicy e msg : well_locked None (applyFailurePolicy e msg : cproc _) None.
Proof. locks @applyFailurePolicy. Qed.
Lemma wl_applyRouteDecision d e : well_locked None (applyRouteDecision d e : cproc _) None.
Proof. locks @applyRouteDecision. Qed.
Lemma wl_route_phase ph : well_locked None (route_phase ph : cproc unit) None.
Proof. locks @route_phase. Qed.
#[local] Hint Resolve wl_evaluateAndMaybeIterate wl_applyFailurePolicy wl_applyRouteDecision : locks.
Lemma wl_route e : well_locked None (route e : cproc _) None.
Proof. locks @route. Qed.
#[local] Hint Resolve wl_route : locks.

(** ** The end of a phase *)

Lemma wl_prepareCommitValidation c : well_locked held (prepareCommitValidation c : cproc _) held.
Proof. locks @prepareCommitValidation. Qed.
Lemma wl_validateAgentCommits ps h : well_locked h (validateAgentCommits ps : cproc unit) h.
Proof. locks @validateAgentCommits. Qed.
Lemma wl_getBaseBranch h : well_locked h (getBaseBranch : cproc _) h.
Proof. locks @getBaseBranch. Qed.
Lemma wl_index_task e b i h : well_locked h (index_task e b i : cproc unit) h.
Proof. locks @index_task. Qed.
#[local] Hint Resolve wl_prepareCommitValidation wl_validateAgentCommits wl_getBaseBranch wl_index_task : locks.
Lemma wl_complete_phase e m : well_locked held m held -> well_locked held (complete_phase e m : cproc unit) held.
Proof. intros. locks @complete_phase. Qed.
#[local] Hint Resolve wl_complete_phase : locks.
Lemma wl_evaluate_output e o : well_locked None (evaluate_output e o : cproc _) None.
Proof. locks @evaluate_output. Qed.
Lemma wl_SignalProgress : well_locked None (SignalProgress : cproc unit) None.
Proof. locks @SignalProgress. Qed.
Lemma wl_pre_job_checkpoint e : well_locked None (pre_job_checkpoint e : cproc unit) None.
Proof. locks @pre_job_checkpoint. Qed.
Lemma wl_job_outputs j e h : well_locked h (job_outputs j e : cproc _) h.
Proof. locks @job_outputs. Qed.
Lemma wl_after_completion j e i : well_locked held (after_completion j e i : cproc unit) None.
Proof. locks @after_completion. Qed.
#[local] Hint Resolve wl_evaluate_output wl_SignalProgress wl_pre_job_checkpoint wl_job_outputs wl_after_completion : locks.
Lemma wl_job_completed j e : well_locked None (job_completed j e : cproc unit) None.
Proof. locks @job_completed. Qed.
Lemma wl_job_failed j c e : well_locked None (job_failed j c e : cproc unit) None.
Proof. locks @job_failed. Qed.
#[local] Hint Resolve wl_job_completed wl_job_failed : locks.
Lemma wl_job_events j e closes evs : well_locked None (job_events j e closes evs : cproc unit) None.
Proof. induction evs; cbn [job_events]; check_locks. Qed.
#[local] Hint Resolve wl_job_events : locks.
Lemma wl_watchJob j e : well_locked None (watchJob j e : cproc unit) None.
Proof. locks @watchJob. Qed.
#[local] Hint Resolve wl_watchJob : locks.
Lemma wl_finalizePhaseLocked e : well_locked held (finalizePhaseLocked e : cproc _) held.
Proof. locks @finalizePhaseLocked. Qed.
#[local] Hint Resolve wl_finalizePhaseLocked : locks.
Lemma wl_FinalizePhase e : well_locked None (FinalizePhase e : cproc _) None.
Proof. locks @FinalizePhase. Qed.
#[local] Hint Resolve wl_FinalizePhase : locks.

Context (encode : list (string * string) -> string) (decode : string -> option (list (string * string))).

Lemma wl_savePartialResults g e : well_locked held (savePartialResults encode g e : cproc unit) held.
Proof. locks @savePartialResults. Qed.
Lemma wl_loadPartialResults e m : well_locked (Some m) (loadPartialResults decode e : cproc _) (Some m).
Proof. locks @loadPartialResults. Qed.
Lemma wl_clearPartialResults e : well_locked held (clearPartialResults e : cproc unit) held.
Proof. locks @clearPartialResults. Qed.
#[local] Hint Resolve wl_savePartialResults wl_loadPartialResults wl_clearPartialResults : locks.
Lemma wl_graph_failed g e msg : well_locked held (graph_failed encode g e msg : cproc unit) None.
Proof. locks @graph_failed. Qed.
#[local] Hint Resolve wl_graph_failed : locks.
Lemma wl_handleGraphCompletion g e msg : well_locked None (handleGraphCompletion encode g e msg : cproc unit) None.
Proof. locks @handleGraphCompletion. Qed.
#[local] Hint Resolve wl_handleGraphCompletion : locks.
Lemma wl_ask_times h paths : well_locked h (ask_times paths : cproc _) h.
Proof. induction paths; cbn [ask_times]; check_locks. Qed.
#[local] Hint Resolve wl_ask_times : locks.
Lemma wl_check_specs h : well_locked h (check_specs : cproc unit) h.
Proof. locks @check_specs. Qed.
#[local] Hint Resolve wl_check_specs : locks.
Lemma wl_graph_events g e closes evs :
  well_locked None (graph_events encode g e closes evs : cproc unit) None.
Proof. induction evs; cbn [graph_events]; check_locks. Qed.
Lemma wl_set_scheduler g : well_locked None (set_scheduler g : cproc unit) None.
Proof. locks @set_scheduler. Qed.
#[local] Hint Resolve wl_graph_events wl_set_scheduler : locks.
Lemma wl_watchGraph g e : well_locked None (watchGraph encode decode g e : cproc unit) None.
Proof. locks @watchGraph. Qed.
#[local] Hint Resolve wl_watchGraph : locks.

(** ** The quality gate *)

Lemma wl_classifyFindings fs h : well_locked h (classifyFindings fs : cproc _) h.
Proof. locks @classifyFindings. Qed.
Lemma wl_applyFailureClassification fs : well_locked None (applyFailureClassification fs : cproc _) None.
Proof. locks @applyFailureClassification. Qed.
#[local] Hint Resolve wl_classifyFindings wl_applyFailureClassification : locks.
Lemma wl_filter_findings fs : well_locked None (filter_findings fs : cproc _) None.
Proof. locks @filter_findings. Qed.
#[local] Hint Resolve wl_filter_findings : locks.
Lemma wl_runUnifiedQualityGates d : well_locked None (runUnifiedQualityGates d : cproc _) None.
Proof. locks @runUnifiedQualityGates. Qed.
Lemma wl_runStructuredQualityGates d : well_locked None (runStructuredQualityGates d : cproc _) None.
Proof. locks @runStructuredQualityGates. Qed.
Lemma wl_qualityGateSecurity d : well_locked None (qualityGateSecurity d : cproc _) None.
Proof. locks @qualityGateSecurity. Qed.
Lemma wl_run_review_tool c t d : well_locked None (run_review_tool c t d : cproc _) None.
Proof. locks @run_review_tool. Qed.
#[local] Hint Resolve wl_run_review_tool : locks.
Lemma wl_qualityGateExternalReview d : well_locked None (qualityGateExternalReview d : cproc _) None.
Proof. locks @qualityGateExternalReview. Qed.
#[local] Hint Resolve wl_runUnifiedQualityGates wl_runStructuredQualityGates wl_qualityGateSecurity wl_qualityGateExternalReview : locks.
Lemma wl_and_then (p q : cproc (option string)) :
  well_locked None p None -> well_locked None q None -> well_locked None (and_then p q) None.
Proof. intros. unfold and_then. check_locks. Qed.
#[local] Hint Resolve wl_and_then : locks.
Lemma wl_runQualityGateChecks : well_locked None (runQualityGateChecks : cproc _) None.
Proof. locks @runQualityGateChecks. Qed.
Lemma wl_shouldAutoFix h : well_locked h (shouldAutoFix : cproc _) h.
Proof. locks @shouldAutoFix. Qed.
Lemma wl_clearAutoFixState : well_locked None (clearAutoFixState : cproc unit) None.
Proof. locks @clearAutoFixState. Qed.
#[local] Hint Resolve wl_runQualityGateChecks wl_shouldAutoFix wl_clearAutoFixState : locks.
Lemma wl_autofix_events j closes evs : well_locked None (autofix_events j closes evs : cproc _) None.
Proof. induction evs; cbn [autofix_events]; check_locks. Qed.
#[local] Hint Resolve wl_autofix_events : locks.
Lemma wl_waitForAutoFixJob j : well_locked None (waitForAutoFixJob j : cproc _) None.
Proof. locks @waitForAutoFixJob. Qed.
Lemma wl_autofix_exhausted m e : well_locked None (autofix_exhausted m e : cproc _) None.
Proof. locks @autofix_exhausted. Qed.
#[local] Hint Resolve wl_waitForAutoFixJob wl_autofix_exhausted : locks.
Lemma wl_autofix_loop n i m e : well_locked None (autofix_loop n i m e : cproc _) None.
Proof. revert i e. induction n; intros; cbn [autofix_loop]; check_locks. Qed.
#[local] Hint Resolve wl_autofix_loop : locks.
Lemma wl_runQualityAutoFix e : well_locked None (runQualityAutoFix e : cproc _) None.
Proof. locks @runQualityAutoFix. Qed.
#[local] Hint Resolve wl_runQualityAutoFix : locks.
Lemma wl_runQualityGate : well_locked None (runQualityGate : cproc _) None.
Proof. locks @runQualityGate. Qed.
Lemma wl_close_gate : well_locked held (close_gate : cproc _) held.
Proof. locks @close_gate. Qed.
Lemma wl_set_gate b e : well_locked held (set_gate b e : cproc unit) held.
Proof. locks @set_gate. Qed.
#[local] Hint Resolve wl_runQualityGate wl_close_gate wl_set_gate : locks.
Lemma wl_recover_gate : well_locked None (recover_gate : cproc unit) None.
Proof. locks @recover_gate. Qed.
#[local] Hint Resolve wl_recover_gate : locks.
Lemma wl_gate_goroutine : well_locked None (gate_goroutine : cproc unit) None.
Proof. locks @gate_goroutine. Qed.
#[local] Hint Resolve wl_gate_goroutine : locks.

(** ** Starting and resuming *)

Lemma wl_FetchWithHierarchy h n i p c : well_locked h (FetchWithHierarchy n i p c : cproc _) h.
Proof. locks @FetchWithHierarchy. Qed.
#[local] Hint Resolve wl_FetchWithHierarchy : locks.
Lemma wl_write_stray f : well_locked held (write_stray f : cproc _) held.
Proof. locks @write_stray. Qed.
#[local] Hint Resolve wl_write_stray : locks.
Lemma wl_provisionWorktree h a b : well_locked h (provisionWorktree a b : cproc _) h.
Proof. locks @provisionWorktree. Qed.
#[local] Hint Resolve wl_provisionWorktree : locks.
Lemma wl_CreateTaskWorktree h a b : well_locked h (CreateTaskWorktree a b : cproc _) h.
Proof. locks @CreateTaskWorktree. Qed.
#[local] Hint Resolve wl_CreateTaskWorktree : locks.
Lemma wl_fallback_branch a b : well_locked held (fallback_branch a b : cproc _) held.
Proof. locks @fallback_branch. Qed.
#[local] Hint Resolve wl_fallback_branch : locks.
Lemma wl_make_branch wu b : well_locked held (make_branch wu b : cproc _) held.
Proof. locks @make_branch. Qed.
#[local] Hint Resolve wl_make_branch : locks.
Lemma wl_start_branch wu : well_locked held (start_branch wu : cproc _) held.
Proof. locks @start_branch. Qed.
#[local] Hint Resolve wl_start_branch : locks.
Lemma wl_set_sys h a b c : well_locked h (set_sys a b c : cproc _) h.
Proof. locks @set_sys. Qed.
#[local] Hint Resolve wl_set_sys : locks.
Lemma wl_populateStandardVars : well_locked held (populateStandardVars : cproc _) held.
Proof. locks @populateStandardVars. Qed.
#[local] Hint Resolve wl_populateStandardVars : locks.
Lemma wl_adopt_stray : well_locked held (adopt_stray : cproc _) held.
Proof. locks @adopt_stray. Qed.
#[local] Hint Resolve wl_adopt_stray : locks.
Lemma wl_start_dispatch wu : well_locked held (start_dispatch wu : cproc _) held.
Proof. locks @start_dispatch. Qed.
#[local] Hint Resolve wl_start_dispatch : locks.
Lemma wl_start_unit wu : well_locked held (start_unit wu : cproc _) held.
Proof. locks @start_unit. Qed.
#[local] Hint Resolve wl_start_unit : locks.
Lemma wl_start_task n r t : well_locked held (start_task n r t : cproc _) held.
Proof. locks @start_task. Qed.
#[local] Hint Resolve wl_start_task : locks.
Lemma wl_Start r : well_locked None (Start r : cproc _) None.
Proof. locks @Start. Qed.
#[local] Hint Resolve wl_Start : locks.
Lemma wl_start_queued r : well_locked None (start_queued r : cproc _) None.
Proof. locks @start_queued. Qed.
#[local] Hint Resolve wl_start_queued : locks.
Lemma wl_GotoCheckpoint sha : well_locked None (GotoCheckpoint sha : cproc _) None.
Proof. locks @GotoCheckpoint. Qed.
#[local] Hint Resolve wl_GotoCheckpoint : locks.
Lemma wl_ResumeFromCheckpoint sha : well_locked None (ResumeFromCheckpoint sha : cproc _) None.
Proof. locks @ResumeFromCheckpoint. Qed.
#[local] Hint Resolve wl_ResumeFromCheckpoint : locks.

(** ** Submit and finish *)

Lemma wl_fail_unlocked {A} e : well_locked held (fail_unlocked e : cproc (result string A)) None.
Proof. locks @fail_unlocked. Qed.
#[local] Hint Resolve wl_fail_unlocked : locks.
Lemma wl_submit_checks : well_locked held (submit_checks : cproc _) held.
Proof. locks @submit_checks. Qed.
Lemma wl_submit_policy : well_locked held (submit_policy : cproc _) held.
Proof. locks @submit_policy. Qed.
Lemma wl_submit_gate : well_locked held (submit_gate : cproc _) held.
Proof. locks @submit_gate. Qed.
Lemma wl_submit_ready fs : well_locked held (submit_ready fs : cproc _) held.
Proof. locks @submit_ready. Qed.
Lemma wl_submit_data : well_locked held (submit_data : cproc _) held.
Proof. locks @submit_data. Qed.
#[local] Hint Resolve wl_submit_checks wl_submit_policy wl_submit_gate wl_submit_ready wl_submit_data : locks.
Lemma wl_emit_warnings h msgs : well_locked h (emit_warnings msgs : cproc unit) h.
Proof. induction msgs; cbn [emit_warnings]; check_locks. Qed.
#[local] Hint Resolve wl_emit_warnings : locks.
Lemma wl_create_pr d h : well_locked h (create_pr d : cproc _) h.
Proof. locks @create_pr. Qed.
#[local] Hint Resolve wl_create_pr : locks.
Lemma wl_submit_network d b h : well_locked h (submit_network d b : cproc _) h.
Proof. locks @submit_network. Qed.
Lemma wl_submit_cleanup d id : well_locked None (submit_cleanup d id : cproc _) None.
Proof. locks @submit_cleanup. Qed.
#[local] Hint Resolve wl_submit_cleanup : locks.
Lemma wl_submit_finish d id : well_locked None (submit_finish d id : cproc _) None.
Proof. locks @submit_finish. Qed.
#[local] Hint Resolve wl_submit_network wl_submit_finish : locks.
Lemma wl_Submit b : well_locked None (Submit b : cproc _) None.
Proof. locks @Submit. Qed.
Lemma wl_finish_branches b base r h : well_locked h (finish_branches b base r : cproc unit) h.
Proof. locks @finish_branches. Qed.
#[local] Hint Resolve wl_Submit wl_finish_branches : locks.
Lemma wl_Finish r f : well_locked None (Finish r f : cproc _) None.
Proof. locks @Finish. Qed.
Lemma wl_pr_operation a b c d e : well_locked None (pr_operation a b c d e : cproc _) None.
Proof. locks @pr_operation. Qed.
#[local] Hint Resolve wl_Finish wl_pr_operation : locks.
Lemma wl_ApprovePR c : well_locked None (ApprovePR c : cproc _) None.
Proof. locks @ApprovePR. Qed.
Lemma wl_MergePR m : well_locked None (MergePR m : cproc _) None.
Proof. locks @MergePR. Qed.
Lemma wl_locked_operation f : well_locked None (locked_operation f : cproc unit) None.
Proof. locks @locked_operation. Qed.
Lemma wl_SetAutoAdvance b : well_locked None (SetAutoAdvance b : cproc unit) None.
Proof. locks @SetAutoAdvance. Qed.
Lemma wl_spec_alignment d : well_locked None (spec_alignment d : cproc unit) None.
Proof. locks @spec_alignment. Qed.
#[local] Hint Resolve wl_ApprovePR wl_MergePR wl_locked_operation wl_SetAutoAdvance wl_spec_alignment wl_Approve wl_CheckReviewItem wl_UncheckReviewItem wl_resubmit wl_route_phase wl_dispatchAutoAdvance : locks.

(** Every call and goroutine takes and releases the lock as the discipline
    says. *)
Lemma bodies_locked (t : call) : well_locked None (body encode decode t) None.
Proof.
  destruct t; simpl body; try apply wl_discard; auto with locks.
Qed.
End locks.
