(* ===== verification/PhaseInv.v ===== *)
(** * What every interleaving of the conductor's calls keeps

    [ctl_inv] is the invariant of the shared state: the machine is in a declared
    state with an unbroken history, the event channel and the response cache
    stay within their bounds, and no event [review_done] is ever recorded.  One lemma per body says that each of its
    accesses keeps it. *)

From S2P Require Import Prelude Floats WorkUnit Transitions Machine Persist Interfaces Conductor.
From S2P Require Import Progress Errors VarPool Findings FailClass Policy RespCache Proc ProcLocks.
From S2P Require Import PhaseCtl PhaseJobs PhaseWatch PhaseFinish PhaseGate PhaseStart PhaseSubmit.
From S2P Require Lifecycle TaskQueue.

(** ** The conductor *)

Definition never_review_done (h : list HistoryEntry) : Prop :=
  Forall (fun e => he_Event e <> EventReviewDone) h.

Record cd_inv {W} (c : Conductor W) : Prop := {
  cdi_machine : machine_inv (machine c);
  cdi_events : length (events c) <= events_capacity;
  cdi_review : never_review_done (history (machine c))
}.

Section conductor.
Context {W : Type} `{Git W} `{JobControl W} `{TaskFiles W}.
Implicit Types c : Conductor W.

Lemma machine_inv_unit f m : machine_inv m -> machine_inv (m <| workUnit ::= f |>).
Proof. by intros []. Qed.

Lemma cd_inv_upd f c : cd_inv c -> cd_inv (upd_workUnit f c).
Proof. intros []. split; [by apply machine_inv_unit|done|done]. Qed.

Lemma cd_inv_emit e c : cd_inv c -> cd_inv (emit e c).
Proof.
  intros []. destruct (emit_frame e c) as (Hm & _).
  split; rewrite ?Hm; [done|by apply emit_bounded|done].
Qed.

Lemma cd_inv_world f c : cd_inv c -> cd_inv (c <| world ::= f |>).
Proof. by intros []. Qed.

Lemma cd_inv_persistVarPool c : cd_inv c -> cd_inv (persistVarPool c).
Proof.
  intros Hc. unfold persistVarPool. destruct (cd_workUnit c); [|done].
  destruct (_ && _); [|done]. by apply cd_inv_upd, cd_inv_world.
Qed.

Lemma cd_inv_persistState c : cd_inv c -> cd_inv (persistState c).
Proof.
  intros Hc. unfold persistState. destruct (negb _); [done|]. destruct (cd_workUnit c); [|done].
  apply cd_inv_persistVarPool in Hc. destruct (cd_workUnit (persistVarPool c)); [|done].
  by apply cd_inv_world.
Qed.

Lemma cd_inv_dispatch now e c :
  e <> EventReviewDone -> cd_inv c -> cd_inv (c <| machine := (Dispatch now e (machine c)).1 |>).
Proof.
  intros He []. split; simpl; [by apply Dispatch_inv_preserved|done|].
  destruct (Dispatch now e (machine c)) as [m r] eqn:E. simpl.
  apply Dispatch_inv in E as [(? & _ & -> & _)|(t & _ & _ & _ & _ & _ & -> & _)]; [done|].
  apply Forall_app. by split; [|apply Forall_singleton].
Qed.

Lemma cd_inv_dispatched now e c c' r :
  Lifecycle.dispatch now e c = (c', r) -> e <> EventReviewDone -> cd_inv c -> cd_inv c'.
Proof.
  unfold Lifecycle.dispatch. intros Hd He Hc. apply (cd_inv_dispatch now e c He) in Hc.
  by destruct (Dispatch now e (machine c)); simplify_eq/=.
Qed.

Lemma cd_inv_on_active f c : cd_inv c -> cd_inv (Lifecycle.on_active_job f c).
Proof. intros Hc. unfold Lifecycle.on_active_job. destruct (_ && _); [|done]. by apply cd_inv_world. Qed.

Lemma cd_inv_reset c : cd_inv c -> cd_inv (c <| machine ::= Machine.Reset |>).
Proof.
  intros [Hm ? ?]. split; simpl; [by apply (apply_op_inv OpReset)|done|by constructor].
Qed.

Lemma cd_inv_clear c : cd_inv c -> cd_inv (c <| machine ::= ClearPriorStableState |>).
Proof. intros [Hm ? ?]. split; simpl; [by apply (apply_op_inv OpClearPrior)|done|done]. Qed.

Lemma cd_inv_set_unit now wu c : cd_inv c -> cd_inv (c <| machine ::= SetWorkUnit now wu |>).
Proof. intros [Hm ? ?]. split; simpl; [by apply (apply_op_inv (OpSetWorkUnit now wu))|done|done]. Qed.

Lemma cd_inv_job j c : cd_inv c -> cd_inv (c <| activeJobID := j |>).
Proof. by intros []. Qed.
End conductor.

Create HintDb inv.
#[export] Hint Resolve cd_inv_upd cd_inv_emit cd_inv_world cd_inv_persistVarPool cd_inv_persistState cd_inv_on_active
  cd_inv_reset cd_inv_clear cd_inv_set_unit cd_inv_job cd_inv_dispatch : inv.
#[export] Hint Extern 1 (_ <> EventReviewDone) => discriminate : inv acts.

Section operations.
Context {W : Type} `{Git W} `{JobControl W} `{TaskFiles W}.
Implicit Types c : Conductor W.

(** After a dispatch that may fail. *)
Ltac after_dispatch :=
  lazymatch goal with
  | |- context [Lifecycle.dispatch ?n ?e ?c] =>
      let E := fresh in
      destruct (Lifecycle.dispatch n e c) as [? [[]|?]] eqn:E; simpl;
      apply cd_inv_dispatched in E; auto 10 with inv
  end.

Lemma Stop_inv now c : cd_inv c -> cd_inv (Lifecycle.Stop now c).1.
Proof. intros Hc. unfold Lifecycle.Stop. destruct (negb _); [done|]. after_dispatch. Qed.

Lemma Abort_inv now c : cd_inv c -> cd_inv (Lifecycle.Abort now c).1.
Proof. intros Hc. unfold Lifecycle.Abort. after_dispatch. Qed.

Lemma ResetTask_inv now c : cd_inv c -> cd_inv (Lifecycle.ResetTask now c).1.
Proof. intros Hc. unfold Lifecycle.ResetTask. case_decide; [done|]. after_dispatch. Qed.

Lemma GotoCheckpoint_inv now sha c : cd_inv c -> cd_inv (Lifecycle.GotoCheckpoint now sha c).1.
Proof.
  intros Hc. unfold Lifecycle.GotoCheckpoint. destruct (cd_workUnit c); [|done].
  destruct (Lifecycle.index_of sha _); [|done].
  destruct (Lifecycle.reset_repo sha c) as [c1 r] eqn:E.
  assert (Hc1 : cd_inv c1).
  { unfold Lifecycle.reset_repo in E. destruct (hasGit c); [|by simplify_eq].
    destruct (git_Reset _ _ _); simplify_eq. by apply cd_inv_world. }
  destruct r; [|done]. simpl.
  destruct (CanDispatch EventUndo (machine c1)).1; [after_dispatch|auto 10 with inv].
Qed.

Lemma popNextTask_inv c : cd_inv c -> cd_inv (TaskQueue.popNextTask c).1.
Proof. intros []. unfold TaskQueue.popNextTask. by destruct (taskQueue c). Qed.
End operations.

Lemma get_alone_bounded hash now c : bounded c -> bounded (get_alone hash now c).1.
Proof.
  intros Hc. unfold get_alone. destruct (look now hash c); simpl; [done| |];
    (eapply bounded_size; [exact Hc|done|]; simpl).
  - rewrite map_size_delete. destruct (entries c !! hash); simpl; lia.
  - by rewrite <- !(size_dom (D := gset string)), dom_alter_L.
Qed.

(** ** The shared state *)

Record ctl_inv {W} (s : Ctl W) : Prop := {
  ci_cd : cd_inv (cd s);
  ci_cache : match responseCache s with Some c => bounded c | None => True end
}.

(** The calls whose watcher ends one of the phases. *)
Definition phase_call (t : call) : Prop :=
  match t with GoWatchJob _ e | GoWatchGraph _ e => e <> EventReviewDone | _ => True end.

Section bodies.
Context {W : Type} {HG : Git W} {HJ : JobControl W} {HT : TaskFiles W} {HC : Config} {HE : Env}.
Notation cproc := (@proc (Ctl W) question call answer).
Notation keep := (acts_keep (ctl_inv (W := W)) phase_call).
Implicit Types (s : Ctl W).

Lemma ctl_inv_upd f s : (forall c, cd_inv c -> cd_inv (f c)) -> ctl_inv s -> ctl_inv (upd_cd f s).
Proof. intros Hf []. split; simpl; auto. Qed.

Lemma wrap_keep {A} (p : cproc A) : keep p -> keep (discard p).
Proof. intros Hp. by apply ak_bind. Qed.

(** Closes the accesses that change what the invariant does not speak of. *)
Ltac close_acts :=
  match goal with
  | |- phase_call _ => simpl; first [exact I | assumption | discriminate]
  | |- ctl_inv (upd_cd _ _) => apply ctl_inv_upd; [intros ??; auto with inv | assumption]
  | H : ctl_inv ?s |- ctl_inv _ => destruct H; split; simpl;
                                         solve [done | auto with inv | rewrite length_app; simpl; lia]
  | |- _ => idtac
  end.

(** Opens the named body and walks through it. *)
Tactic Notation "keeps" constr(p) := unfold p; check_acts; close_acts.

(** *** Primitives *)

Lemma ak_emits e : keep (emits e : cproc unit).
Proof. keeps @emits. Qed.
Lemma ak_machine_state : keep (machine_state : cproc State).
Proof. keeps @machine_state. Qed.
#[local] Hint Resolve ak_emits ak_machine_state wrap_keep : acts.
Lemma ak_emits_state t m : keep (emits_state t m : cproc unit).
Proof. keeps @emits_state. Qed.
Lemma ak_emitEnrichedError e p : keep (emitEnrichedError e p : cproc unit).
Proof. keeps @emitEnrichedError. Qed.
Lemma ak_work_unit : keep (work_unit : cproc _).
Proof. keeps @work_unit. Qed.
#[local] Hint Resolve ak_emits_state ak_emitEnrichedError ak_work_unit : acts.
Lemma ak_the_unit : keep (the_unit : cproc _).
Proof. keeps @the_unit. Qed.
#[local] Hint Resolve ak_the_unit : acts.
Lemma ak_write_unit f : keep (write_unit f : cproc unit).
Proof. keeps @write_unit. Qed.
Lemma ak_clear_prior : keep (clear_prior : cproc unit).
Proof. keeps @clear_prior. Qed.
Lemma ak_persists : keep (persists : cproc unit).
Proof. keeps @persists. Qed.
#[local] Hint Resolve ak_write_unit ak_clear_prior ak_persists : acts.
Lemma ak_dispatches e : e <> EventReviewDone -> keep (dispatches e : cproc _).
Proof.
  intros. keeps @dispatches. pose proof (cd_inv_dispatch a e (cd s) ltac:(done) (ci_cd _ H0)) as Hc.
  destruct (Dispatch _ _ _) as [m r]. destruct H0. by split.
Qed.
Lemma ak_record_prior l : keep (record_prior l : cproc _).
Proof.
  intros s Hs. split; [exact Hs|]. simpl. case_bool_decide; simpl; [done|]. intros s' Hs'. split; [|done].
  destruct Hs' as [[Hm ? ?] ?]. split; [split; [|done..]|done]. simpl.
  destruct Hm. split; simpl; [done| |done..]. right. apply Hs.
Qed.
#[local] Hint Resolve ak_dispatches ak_record_prior : acts.
Lemma ak_touch_unit : keep (touch_unit : cproc unit).
Proof. keeps @touch_unit. Qed.
Lemma ak_emitEventLog t p : keep (emitEventLog t p : cproc unit).
Proof. keeps @emitEventLog. Qed.
Lemma ak_commit_all d m : keep (commit_all d m : cproc _).
Proof. keeps @commit_all. Qed.
Lemma ak_append_checkpoint x : keep (append_checkpoint x : cproc unit).
Proof. keeps @append_checkpoint. Qed.
Lemma ak_record_meta x m : keep (record_meta x m : cproc unit).
Proof. keeps @record_meta. Qed.
#[local] Hint Resolve ak_touch_unit ak_emitEventLog ak_commit_all ak_append_checkpoint ak_record_meta : acts.
Lemma ak_createSafetyCheckpoint m : keep (createSafetyCheckpoint m : cproc unit).
Proof. keeps @createSafetyCheckpoint. Qed.
Lemma ak_capture_head d m : keep (capture_head d m : cproc unit).
Proof. keeps @capture_head. Qed.
#[local] Hint Resolve ak_createSafetyCheckpoint ak_capture_head : acts.
Lemma ak_completion_checkpoint e b : keep (completion_checkpoint e b : cproc unit).
Proof. keeps @completion_checkpoint. Qed.
#[local] Hint Resolve ak_completion_checkpoint : acts.

(** *** Starting a phase *)

Lemma ak_evaluateRiskUnlocked : keep (evaluateRiskUnlocked : cproc _).
Proof. keeps @evaluateRiskUnlocked. Qed.
Lemma ak_explicit_approval e a b : keep (explicit_approval e a b : cproc _).
Proof. keeps @explicit_approval. Qed.
Lemma ak_emitRiskEvaluated r : keep (emitRiskEvaluated r : cproc unit).
Proof. keeps @emitRiskEvaluated. Qed.
#[local] Hint Resolve ak_evaluateRiskUnlocked ak_explicit_approval ak_emitRiskEvaluated : acts.
Lemma ak_checkApproval e : keep (checkApproval e : cproc _).
Proof. keeps @checkApproval. Qed.
Lemma ak_Approve e : keep (Approve e : cproc _).
Proof. keeps @Approve. Qed.
Lemma ak_CheckReviewItem i : keep (CheckReviewItem i : cproc _).
Proof. keeps @CheckReviewItem. Qed.
Lemma ak_UncheckReviewItem i : keep (UncheckReviewItem i : cproc _).
Proof. keeps @UncheckReviewItem. Qed.
#[local] Hint Resolve ak_checkApproval ak_Approve ak_CheckReviewItem ak_UncheckReviewItem : acts.
Lemma ak_run_hooks hooks dir : keep (run_hooks hooks dir : cproc _).
Proof. induction hooks; cbn [run_hooks]; check_acts. Qed.
#[local] Hint Resolve ak_run_hooks : acts.
Lemma ak_RunTransitionHooks e : keep (RunTransitionHooks e : cproc _).
Proof. keeps @RunTransitionHooks. Qed.
Lemma ak_executeGuardrails names phase dir specs : keep (executeGuardrails names phase dir specs : cproc _).
Proof. induction names; cbn [executeGuardrails]; check_acts. Qed.
#[local] Hint Resolve ak_RunTransitionHooks ak_executeGuardrails : acts.
Lemma ak_runPreGuardrails p : keep (runPreGuardrails p : cproc _).
Proof. keeps @runPreGuardrails. Qed.
Lemma ak_resetPhaseState p : keep (resetPhaseState p : cproc unit).
Proof. keeps @resetPhaseState. Qed.
Lemma ak_initProgressEstimator p : keep (initProgressEstimator p : cproc unit).
Proof. keeps @initProgressEstimator. Qed.
Lemma ak_setupCanaryHarness : keep (setupCanaryHarness : cproc unit).
Proof. keeps @setupCanaryHarness. Qed.
#[local] Hint Resolve ak_runPreGuardrails ak_resetPhaseState ak_initProgressEstimator ak_setupCanaryHarness : acts.
Lemma ak_lookupResponseCache p : keep (lookupResponseCache p : cproc _).
Proof.
  unfold lookupResponseCache. check_acts. destruct H as [? Hc].
  destruct (responseCache s) as [c|] eqn:E; [|split; [done|simpl; by rewrite E]].
  pose proof (get_alone_bounded (sha256_hex p) a c Hc) as Hb.
  destruct (get_alone _ _ _). by split.
Qed.
Lemma ak_storeResponseCache p r ph : keep (storeResponseCache p r ph : cproc unit).
Proof.
  unfold storeResponseCache. check_acts. destruct H as [? Hc]. split; [done|]. simpl.
  destruct (responseCache s); [|done]. by apply put_bounded.
Qed.
#[local] Hint Resolve ak_lookupResponseCache ak_storeResponseCache : acts.
Lemma ak_phase_error {A} e ph : keep (phase_error e ph : cproc (result string A)).
Proof. keeps @phase_error. Qed.
#[local] Hint Resolve ak_phase_error : acts.
Lemma ak_hooks_unlocked e ph : keep (hooks_unlocked e ph : cproc _).
Proof. keeps @hooks_unlocked. Qed.
Lemma ak_enter_phase e ph : e <> EventReviewDone -> keep (enter_phase e ph : cproc _).
Proof. intros. keeps @enter_phase. Qed.
Lemma ak_guardrails_unlocked ph : keep (guardrails_unlocked ph : cproc _).
Proof. keeps @guardrails_unlocked. Qed.
Lemma ak_check_task_and_pool ph : keep (check_task_and_pool ph : cproc _).
Proof. keeps @check_task_and_pool. Qed.
Lemma ak_phase_started ph : keep (phase_started ph : cproc unit).
Proof. keeps @phase_started. Qed.
Lemma ak_build_prompt ph : keep (build_prompt ph : cproc _).
Proof. keeps @build_prompt. Qed.
Lemma ak_task_complexity : keep (task_complexity : cproc _).
Proof. keeps @task_complexity. Qed.
Lemma ak_new_scheduler a b c : keep (new_scheduler a b c : cproc _).
Proof. keeps @new_scheduler. Qed.
Lemma ak_submit_job a b : keep (submit_job a b : cproc _).
Proof. keeps @submit_job. Qed.
#[local] Hint Resolve ak_hooks_unlocked ak_enter_phase ak_guardrails_unlocked ak_check_task_and_pool ak_phase_started ak_build_prompt ak_task_complexity ak_new_scheduler ak_submit_job : acts.
Lemma ak_run_phase_job a b e c d : e <> EventReviewDone -> keep (run_phase_job a b e c d : cproc _).
Proof. intros. keeps @run_phase_job. Qed.
Lemma ak_read_times paths files : keep (read_times paths files : cproc _).
Proof. revert files. induction paths; intros; cbn [read_times]; check_acts. Qed.
#[local] Hint Resolve ak_run_phase_job ak_read_times : acts.
Lemma ak_newSpecWatcher : keep (newSpecWatcher : cproc unit).
Proof. keeps @newSpecWatcher. Qed.
#[local] Hint Resolve ak_newSpecWatcher : acts.
Lemma ak_optional_phase a b c d e f :
  a <> EventReviewDone -> d <> EventReviewDone -> keep (optional_phase a b c d e f : cproc _).
Proof. intros. keeps @optional_phase. Qed.
#[local] Hint Resolve ak_optional_phase : acts.
Lemma ak_Plan : keep (Plan : cproc _).
Proof. keeps @Plan. Qed.
Lemma ak_Implement : keep (Implement : cproc _).
Proof. keeps @Implement. Qed.
Lemma ak_Simplify : keep (Simplify : cproc _).
Proof. keeps @Simplify. Qed.
Lemma ak_Optimize : keep (Optimize : cproc _).
Proof. keeps @Optimize. Qed.
#[local] Hint Resolve ak_Plan ak_Implement ak_Simplify ak_Optimize : acts.

(** *** Following a phase *)

Lemma ak_detectSpecificationFiles : keep (detectSpecificationFiles : cproc unit).
Proof. keeps @detectSpecificationFiles. Qed.
Lemma ak_commit_specs : keep (commit_specs : cproc unit).
Proof. keeps @commit_specs. Qed.
Lemma ak_store_metrics ph pm : keep (store_metrics ph pm : cproc unit).
Proof. keeps @store_metrics. Qed.
#[local] Hint Resolve ak_detectSpecificationFiles ak_commit_specs ak_store_metrics : acts.
Lemma ak_recordPhaseMetrics e j : keep (recordPhaseMetrics e j : cproc unit).
Proof. keeps @recordPhaseMetrics. Qed.
Lemma ak_recordPhaseMetricsFromGraph e : keep (recordPhaseMetricsFromGraph e : cproc unit).
Proof. keeps @recordPhaseMetricsFromGraph. Qed.
Lemma ak_checkCanaryViolations o : keep (checkCanaryViolations o : cproc unit).
Proof. keeps @checkCanaryViolations. Qed.
Lemma ak_SkipPhases : keep (SkipPhases : cproc _).
Proof. keeps @SkipPhases. Qed.
Lemma ak_runQualityGateAsync : keep (runQualityGateAsync : cproc unit).
Proof. keeps @runQualityGateAsync. Qed.
Lemma ak_review_fix d : keep (review_fix d : cproc _).
Proof. keeps @review_fix. Qed.
#[local] Hint Resolve ak_recordPhaseMetrics ak_recordPhaseMetricsFromGraph ak_checkCanaryViolations ak_SkipPhases ak_runQualityGateAsync ak_review_fix : acts.
Lemma ak_Review b : keep (Review b : cproc _).
Proof. keeps @Review. Qed.
#[local] Hint Resolve ak_Review : acts.
Lemma ak_only_error {A} (p : cproc (result string A)) : keep p -> keep (only_error p).
Proof. intros. keeps @only_error. Qed.
#[local] Hint Resolve ak_only_error : acts.
Lemma ak_dispatchAutoAdvance ph : keep (dispatchAutoAdvance ph : cproc unit).
Proof. keeps @dispatchAutoAdvance. Qed.
#[local] Hint Resolve ak_dispatchAutoAdvance : acts.
Lemma ak_maybeAutoAdvance e : keep (maybeAutoAdvance e : cproc unit).
Proof. keeps @maybeAutoAdvance. Qed.
Lemma ak_drop_iterations ph : keep (drop_iterations ph : cproc unit).
Proof. keeps @drop_iterations. Qed.
Lemma ak_resubmit ph : keep (resubmit ph : cproc unit).
Proof. keeps @resubmit. Qed.
#[local] Hint Resolve ak_maybeAutoAdvance ak_drop_iterations : acts.
Lemma ak_evaluateAndMaybeIterate e o : keep (evaluateAndMaybeIterate e o : cproc _).
Proof. keeps @evaluateAndMaybeIterate. Qed.
Lemma ak_applyFailurePolicy e msg : e <> EventReviewDone -> keep (applyFailurePolicy e msg : cproc _).
Proof. intros. keeps @applyFailurePolicy. Qed.
Lemma ak_applyRouteDecision d e : e <> EventReviewDone -> keep (applyRouteDecision d e : cproc _).
Proof. intros. keeps @applyRouteDecision. Qed.
Lemma ak_route_phase ph : keep (route_phase ph : cproc unit).
Proof. keeps @route_phase. Qed.
#[local] Hint Resolve ak_evaluateAndMaybeIterate ak_applyFailurePolicy ak_applyRouteDecision : acts.
Lemma ak_route e : e <> EventReviewDone -> keep (route e : cproc _).
Proof. intros. keeps @route. Qed.
#[local] Hint Resolve ak_route : acts.

(** *** The end of a phase *)

Lemma ak_prepareCommitValidation c : keep (prepareCommitValidation c : cproc _).
Proof. keeps @prepareCommitValidation. Qed.
Lemma ak_validateAgentCommits ps : keep (validateAgentCommits ps : cproc unit).
Proof. keeps @validateAgentCommits. Qed.
Lemma ak_getBaseBranch : keep (getBaseBranch : cproc _).
Proof. keeps @getBaseBranch. Qed.
Lemma ak_index_task e b i : keep (index_task e b i : cproc unit).
Proof. keeps @index_task. Qed.
#[local] Hint Resolve ak_prepareCommitValidation ak_validateAgentCommits ak_getBaseBranch ak_index_task : acts.
Lemma ak_complete_phase e m :
  e <> EventReviewDone -> keep m -> keep (complete_phase e m : cproc unit).
Proof. intros. keeps @complete_phase. Qed.
#[local] Hint Resolve ak_complete_phase : acts.
Lemma ak_evaluate_output e o : e <> EventReviewDone -> keep (evaluate_output e o : cproc _).
Proof. intros. keeps @evaluate_output. Qed.
Lemma ak_SignalProgress : keep (SignalProgress : cproc unit).
Proof. keeps @SignalProgress. Qed.
Lemma ak_pre_job_checkpoint e : keep (pre_job_checkpoint e : cproc unit).
Proof. keeps @pre_job_checkpoint. Qed.
Lemma ak_job_outputs j e : keep (job_outputs j e : cproc _).
Proof. keeps @job_outputs. Qed.
Lemma ak_after_completion j e i : keep (after_completion j e i : cproc unit).
Proof. keeps @after_completion. Qed.
#[local] Hint Resolve ak_evaluate_output ak_SignalProgress ak_pre_job_checkpoint ak_job_outputs ak_after_completion : acts.
Lemma ak_job_completed j e : e <> EventReviewDone -> keep (job_completed j e : cproc unit).
Proof. intros. keeps @job_completed. Qed.
Lemma ak_job_failed j c e : e <> EventReviewDone -> keep (job_failed j c e : cproc unit).
Proof. intros. keeps @job_failed. Qed.
#[local] Hint Resolve ak_job_completed ak_job_failed : acts.
Lemma ak_job_events j e closes evs :
  e <> EventReviewDone -> keep (job_events j e closes evs : cproc unit).
Proof. intros. induction evs; cbn [job_events]; check_acts. Qed.
#[local] Hint Resolve ak_job_events : acts.
Lemma ak_watchJob j e : e <> EventReviewDone -> keep (watchJob j e : cproc unit).
Proof. intros. keeps @watchJob. Qed.
#[local] Hint Resolve ak_watchJob : acts.
Lemma ak_finalizePhaseLocked e : keep (finalizePhaseLocked e : cproc _).
Proof. keeps @finalizePhaseLocked. Qed.
#[local] Hint Resolve ak_finalizePhaseLocked : acts.
Lemma ak_FinalizePhase e : keep (FinalizePhase e : cproc _).
Proof. keeps @FinalizePhase. Qed.
#[local] Hint Resolve ak_FinalizePhase : acts.

Context (encode : list (string * string) -> string) (decode : string -> option (list (string * string))).

Lemma ak_savePartialResults g e : keep (savePartialResults encode g e : cproc unit).
Proof. keeps @savePartialResults. Qed.
Lemma ak_loadPartialResults e : keep (loadPartialResults decode e : cproc _).
Proof. keeps @loadPartialResults. Qed.
Lemma ak_clearPartialResults e : keep (clearPartialResults e : cproc unit).
Proof. keeps @clearPartialResults. Qed.
#[local] Hint Resolve ak_savePartialResults ak_loadPartialResults ak_clearPartialResults : acts.
Lemma ak_graph_failed g e msg : e <> EventReviewDone -> keep (graph_failed encode g e msg : cproc unit).
Proof. intros. keeps @graph_failed. Qed.
#[local] Hint Resolve ak_graph_failed : acts.
Lemma ak_handleGraphCompletion g e msg : e <> EventReviewDone -> keep (handleGraphCompletion encode g e msg : cproc unit).
Proof. intros. keeps @handleGraphCompletion. Qed.
#[local] Hint Resolve ak_handleGraphCompletion : acts.
Lemma ak_ask_times paths : keep (ask_times paths : cproc _).
Proof. induction paths; cbn [ask_times]; check_acts. Qed.
#[local] Hint Resolve ak_ask_times : acts.
Lemma ak_check_specs : keep (check_specs : cproc unit).
Proof. keeps @check_specs. Qed.
#[local] Hint Resolve ak_check_specs : acts.
Lemma ak_graph_events g e closes evs :
  e <> EventReviewDone -> keep (graph_events encode g e closes evs : cproc unit).
Proof. intros. induction evs; cbn [graph_events]; check_acts. Qed.
Lemma ak_set_scheduler g : keep (set_scheduler g : cproc unit).
Proof. keeps @set_scheduler. Qed.
#[local] Hint Resolve ak_graph_events ak_set_scheduler : acts.
Lemma ak_watchGraph g e : e <> EventReviewDone -> keep (watchGraph encode decode g e : cproc unit).
Proof. intros. keeps @watchGraph. Qed.
#[local] Hint Resolve ak_watchGraph : acts.

(** *** The quality gate *)

Lemma ak_classifyFindings fs : keep (classifyFindings fs : cproc _).
Proof. keeps @classifyFindings. Qed.
Lemma ak_applyFailureClassification fs : keep (applyFailureClassification fs : cproc _).
Proof. keeps @applyFailureClassification. Qed.
#[local] Hint Resolve ak_classifyFindings ak_applyFailureClassification : acts.
Lemma ak_filter_findings fs : keep (filter_findings fs : cproc _).
Proof. keeps @filter_findings. Qed.
#[local] Hint Resolve ak_filter_findings : acts.
Lemma ak_runUnifiedQualityGates d : keep (runUnifiedQualityGates d : cproc _).
Proof. keeps @runUnifiedQualityGates. Qed.
Lemma ak_runStructuredQualityGates d : keep (runStructuredQualityGates d : cproc _).
Proof. keeps @runStructuredQualityGates. Qed.
Lemma ak_qualityGateSecurity d : keep (qualityGateSecurity d : cproc _).
Proof. keeps @qualityGateSecurity. Qed.
Lemma ak_run_review_tool c t d : keep (run_review_tool c t d : cproc _).
Proof. keeps @run_review_tool. Qed.
#[local] Hint Resolve ak_run_review_tool : acts.
Lemma ak_qualityGateExternalReview d : keep (qualityGateExternalReview d : cproc _).
Proof. keeps @qualityGateExternalReview. Qed.
#[local] Hint Resolve ak_runUnifiedQualityGates ak_runStructuredQualityGates ak_qualityGateSecurity ak_qualityGateExternalReview : acts.
Lemma ak_and_then (p q : cproc (option string)) : keep p -> keep q -> keep (and_then p q).
Proof. intros. keeps @and_then. Qed.
#[local] Hint Resolve ak_and_then : acts.
Lemma ak_runQualityGateChecks : keep (runQualityGateChecks : cproc _).
Proof. keeps @runQualityGateChecks. Qed.
Lemma ak_shouldAutoFix : keep (shouldAutoFix : cproc _).
Proof. keeps @shouldAutoFix. Qed.
Lemma ak_clearAutoFixState : keep (clearAutoFixState : cproc unit).
Proof. keeps @clearAutoFixState. Qed.
#[local] Hint Resolve ak_runQualityGateChecks ak_shouldAutoFix ak_clearAutoFixState : acts.
Lemma ak_autofix_events j closes evs : keep (autofix_events j closes evs : cproc _).
Proof. induction evs; cbn [autofix_events]; check_acts. Qed.
#[local] Hint Resolve ak_autofix_events : acts.
Lemma ak_waitForAutoFixJob j : keep (waitForAutoFixJob j : cproc _).
Proof. keeps @waitForAutoFixJob. Qed.
Lemma ak_autofix_exhausted m e : keep (autofix_exhausted m e : cproc _).
Proof. keeps @autofix_exhausted. Qed.
#[local] Hint Resolve ak_waitForAutoFixJob ak_autofix_exhausted : acts.
Lemma ak_autofix_loop n i m e : keep (autofix_loop n i m e : cproc _).
Proof. revert i e. induction n; intros; cbn [autofix_loop]; check_acts; close_acts. Qed.
#[local] Hint Resolve ak_autofix_loop : acts.
Lemma ak_runQualityAutoFix e : keep (runQualityAutoFix e : cproc _).
Proof. keeps @runQualityAutoFix. Qed.
#[local] Hint Resolve ak_runQualityAutoFix : acts.
Lemma ak_runQualityGate : keep (runQualityGate : cproc _).
Proof. keeps @runQualityGate. Qed.
Lemma ak_close_gate : keep (close_gate : cproc _).
Proof.
  unfold close_gate. check_acts. destruct (chan_closed s); [done|]. simpl.
  destruct (qualityGateCh s); [|done]. by destruct H.
Qed.
Lemma ak_set_gate b e : keep (set_gate b e : cproc unit).
Proof. keeps @set_gate. Qed.
#[local] Hint Resolve ak_runQualityGate ak_close_gate ak_set_gate : acts.
Lemma ak_recover_gate : keep (recover_gate : cproc unit).
Proof. keeps @recover_gate. Qed.
#[local] Hint Resolve ak_recover_gate : acts.
Lemma ak_gate_goroutine : keep (gate_goroutine : cproc unit).
Proof. keeps @gate_goroutine. Qed.
#[local] Hint Resolve ak_gate_goroutine : acts.

(** *** Starting and resuming *)

Lemma ak_FetchWithHierarchy n i p c : keep (FetchWithHierarchy n i p c : cproc _).
Proof. keeps @FetchWithHierarchy. Qed.
#[local] Hint Resolve ak_FetchWithHierarchy : acts.
Lemma ak_write_stray f : keep (write_stray f : cproc _).
Proof. keeps @write_stray. Qed.
#[local] Hint Resolve ak_write_stray : acts.
Lemma ak_provisionWorktree a b : keep (provisionWorktree a b : cproc _).
Proof. keeps @provisionWorktree. Qed.
#[local] Hint Resolve ak_provisionWorktree : acts.
Lemma ak_CreateTaskWorktree a b : keep (CreateTaskWorktree a b : cproc _).
Proof. keeps @CreateTaskWorktree. Qed.
#[local] Hint Resolve ak_CreateTaskWorktree : acts.
Lemma ak_fallback_branch a b : keep (fallback_branch a b : cproc _).
Proof. keeps @fallback_branch. Qed.
#[local] Hint Resolve ak_fallback_branch : acts.
Lemma ak_make_branch wu b : keep (make_branch wu b : cproc _).
Proof. keeps @make_branch. Qed.
#[local] Hint Resolve ak_make_branch : acts.
Lemma ak_start_branch wu : keep (start_branch wu : cproc _).
Proof. keeps @start_branch. Qed.
#[local] Hint Resolve ak_start_branch : acts.
Lemma ak_set_sys a b c : keep (set_sys a b c : cproc _).
Proof. keeps @set_sys. Qed.
#[local] Hint Resolve ak_set_sys : acts.
Lemma ak_populateStandardVars : keep (populateStandardVars : cproc _).
Proof. keeps @populateStandardVars. Qed.
#[local] Hint Resolve ak_populateStandardVars : acts.
Lemma ak_adopt_stray : keep (adopt_stray : cproc _).
Proof.
  keeps @adopt_stray. destruct H as [Hc ? ?]. split; [|done..]. exact (cd_inv_set_unit a (stray s) (cd s) Hc).
Qed.
#[local] Hint Resolve ak_adopt_stray : acts.
Lemma ak_start_dispatch wu : keep (start_dispatch wu : cproc _).
Proof. keeps @start_dispatch. Qed.
#[local] Hint Resolve ak_start_dispatch : acts.
Lemma ak_start_unit wu : keep (start_unit wu : cproc _).
Proof. keeps @start_unit. Qed.
#[local] Hint Resolve ak_start_unit : acts.
Lemma ak_start_task n r t : keep (start_task n r t : cproc _).
Proof. keeps @start_task. Qed.
#[local] Hint Resolve ak_start_task : acts.
Lemma ak_Start r : keep (Start r : cproc _).
Proof. keeps @Start. Qed.
#[local] Hint Resolve ak_Start : acts.
Lemma ak_start_queued r : keep (start_queued r : cproc _).
Proof. keeps @start_queued. Qed.
#[local] Hint Resolve ak_start_queued : acts.
Lemma ak_GotoCheckpoint sha : keep (GotoCheckpoint sha : cproc _).
Proof.
  keeps @GotoCheckpoint. destruct H as [Hc ? ?]. apply (GotoCheckpoint_inv (fun _ => a) sha) in Hc.
  by destruct (Lifecycle.GotoCheckpoint _ sha (cd s)).
Qed.
#[local] Hint Resolve ak_GotoCheckpoint : acts.
Lemma ak_ResumeFromCheckpoint sha : keep (ResumeFromCheckpoint sha : cproc _).
Proof. keeps @ResumeFromCheckpoint. Qed.
#[local] Hint Resolve ak_ResumeFromCheckpoint : acts.

(** *** Submit and finish *)

Lemma ak_fail_unlocked {A} e : keep (fail_unlocked e : cproc (result string A)).
Proof. keeps @fail_unlocked. Qed.
#[local] Hint Resolve ak_fail_unlocked : acts.
Lemma ak_submit_checks : keep (submit_checks : cproc _).
Proof. keeps @submit_checks. Qed.
Lemma ak_submit_policy : keep (submit_policy : cproc _).
Proof. keeps @submit_policy. Qed.
Lemma ak_submit_gate : keep (submit_gate : cproc _).
Proof. keeps @submit_gate. Qed.
Lemma ak_submit_ready fs : keep (submit_ready fs : cproc _).
Proof. keeps @submit_ready. Qed.
Lemma ak_submit_data : keep (submit_data : cproc _).
Proof. keeps @submit_data. Qed.
#[local] Hint Resolve ak_submit_checks ak_submit_policy ak_submit_gate ak_submit_ready ak_submit_data : acts.
Lemma ak_emit_warnings msgs : keep (emit_warnings msgs : cproc unit).
Proof. induction msgs; cbn [emit_warnings]; check_acts. Qed.
#[local] Hint Resolve ak_emit_warnings : acts.
Lemma ak_create_pr d : keep (create_pr d : cproc _).
Proof. keeps @create_pr. Qed.
#[local] Hint Resolve ak_create_pr : acts.
Lemma ak_submit_network d b : keep (submit_network d b : cproc _).
Proof. keeps @submit_network. Qed.
Lemma ak_submit_cleanup d id : keep (submit_cleanup d id : cproc _).
Proof. keeps @submit_cleanup. Qed.
#[local] Hint Resolve ak_submit_cleanup : acts.
Lemma ak_submit_finish d id : keep (submit_finish d id : cproc _).
Proof. keeps @submit_finish. Qed.
#[local] Hint Resolve ak_submit_network ak_submit_finish : acts.
Lemma ak_Submit b : keep (Submit b : cproc _).
Proof. keeps @Submit. Qed.
Lemma ak_finish_branches b base r : keep (finish_branches b base r : cproc unit).
Proof. keeps @finish_branches. Qed.
#[local] Hint Resolve ak_Submit ak_finish_branches : acts.
Lemma ak_Finish r f : keep (Finish r f : cproc _).
Proof.
  keeps @Finish. destruct H as [Hc ? ?]. apply popNextTask_inv in Hc.
  by destruct (TaskQueue.popNextTask (cd s)).
Qed.
Lemma ak_pr_operation a b c d e : keep (pr_operation a b c d e : cproc _).
Proof. keeps @pr_operation. Qed.
#[local] Hint Resolve ak_Finish ak_pr_operation : acts.
Lemma ak_ApprovePR c : keep (ApprovePR c : cproc _).
Proof. keeps @ApprovePR. Qed.
Lemma ak_MergePR m : keep (MergePR m : cproc _).
Proof. keeps @MergePR. Qed.
Lemma ak_SetAutoAdvance b : keep (SetAutoAdvance b : cproc unit).
Proof. keeps @SetAutoAdvance. Qed.
Lemma ak_spec_alignment d : keep (spec_alignment d : cproc unit).
Proof. keeps @spec_alignment. Qed.
#[local] Hint Resolve ak_ApprovePR ak_MergePR ak_SetAutoAdvance ak_spec_alignment ak_resubmit ak_route_phase ak_dispatchAutoAdvance : acts.
Lemma ak_locked_operation f :
  (forall now c, cd_inv c -> cd_inv (f now c).1) -> keep (locked_operation f : cproc unit).
Proof. intros Hf. keeps @locked_operation. Qed.

Lemma bodies_keep (t : call) : phase_call t -> keep (body encode decode t).
Proof.
  intros Ht. destruct t; simpl in Ht; cbn [body]; try apply wrap_keep; auto with acts;
    apply ak_locked_operation; intros; [apply Stop_inv|apply Abort_inv|apply ResetTask_inv]; done.
Qed.
End bodies.
