(* ===== verification/PhaseCalm.v ===== *)
(** * What a phase leaves alone

    The helpers of the phases emit events, make checkpoints and persist; none
    of them moves the state machine.  [core] is what they leave as it is: the
    machine but for the work unit, the job in progress, the parts the conductor
    was built with, its strategies, policies and gate, and a [view] of the work unit.  [Bookkeeping] says that a
    view does not show the fields the helpers write. *)

From S2P Require Import Prelude Floats WorkUnit Transitions Machine Persist Interfaces Conductor.
From S2P Require Import Progress Errors VarPool Findings FailClass Policy RespCache Proc ProcWp.
From S2P Require Import PhaseCtl PhaseJobs PhaseWatch PhaseFinish.

Class Bookkeeping {V} (view : WorkUnit -> V) : Prop := {
  view_UpdatedAt f wu : view (wu <| wu_UpdatedAt ::= f |>) = view wu;
  view_Checkpoints f wu : view (wu <| wu_Checkpoints ::= f |>) = view wu;
  view_CheckpointMeta f wu : view (wu <| wu_CheckpointMeta ::= f |>) = view wu;
  view_VarPoolPath f wu : view (wu <| wu_VarPoolPath ::= f |>) = view wu;
  view_Jobs f wu : view (wu <| wu_Jobs ::= f |>) = view wu;
  view_PhaseMetrics f wu : view (wu <| wu_PhaseMetrics ::= f |>) = view wu;
  view_RouteHistory f wu : view (wu <| wu_RouteHistory ::= f |>) = view wu
}.

Definition core {W V} (view : WorkUnit -> V) (s : Ctl W) :=
  let m := machine (cd s) in
  (state m, history m, priorStableState m, previousState m, activeJobID (cd s),
   (hasVarPool (cd s), hasPool (cd s), hasStore (cd s), hasGit (cd s), closed (cd s)),
   (autoAdvance s, strategy s, phaseStrategies s, phasePolicies s, router s),
   (qualityGateCh s, closedChans s),
   view <$> workUnit m).

Definition same_core {W V} (view : WorkUnit -> V) (s s' : Ctl W) : Prop := core view s' = core view s.

(** A task is loaded, and the pool of variables exists. *)
Definition has_task {W} (s : Ctl W) : Prop :=
  is_Some (cd_workUnit (cd s)) /\ hasVarPool (cd s) = true.

(** The goroutines that follow a phase or start one. *)
Definition drives_phase (t : call) : bool :=
  match t with
  | GoWatchJob _ _ | GoWatchGraph _ _ | GoResubmit _ | GoRetry _ | GoRoute _ | GoAdvance _ => true
  | _ => false
  end.
Definition quiet (t : call) : Prop := drives_phase t = false.

Section core.
Context {W V : Type} (view : WorkUnit -> V) {HV : Bookkeeping view}.
Implicit Types s : Ctl W.

#[global] Instance core_frame : Frame (has_task (W := W)) (same_core view).
Proof.
  split.
  - split; [done|]. unfold same_core. intros s1 s2 s3 H1 H2. congruence.
  - unfold same_core, core, has_task, cd_workUnit. intros s s' [[wu Hwu] Hp] Hc. simplify_eq/=.
    rewrite Hwu in *. destruct (workUnit (machine (cd s'))); simpl in *; [|done].
    split; [by eexists|congruence].
Qed.

Lemma same_core_task s s' : same_core view s s' -> has_task s -> has_task s'.
Proof. intros. by eapply (frame_along has_task (same_core view)). Qed.

Lemma same_core_state s s' : same_core view s s' ->
  state (machine (cd s')) = state (machine (cd s)) /\
  history (machine (cd s')) = history (machine (cd s)) /\
  priorStableState (machine (cd s')) = priorStableState (machine (cd s)) /\
  activeJobID (cd s') = activeJobID (cd s) /\
  (view <$> cd_workUnit (cd s')) = (view <$> cd_workUnit (cd s)).
Proof. unfold same_core, core. intros H. by simplify_eq. Qed.

Lemma core_upd f s : (forall wu, view (f wu) = view wu) -> same_core view s (upd_cd (upd_workUnit f) s).
Proof.
  intros Hf. unfold same_core, core. simpl. destruct (workUnit (machine (cd s))); [|done]. simpl.
  by rewrite Hf.
Qed.

Lemma core_emit e s : same_core view s (upd_cd (emit e) s).
Proof.
  unfold same_core, core, upd_cd, emit. simpl. destruct (closed (cd s)) eqn:E; simpl; [by rewrite ?E|].
  destruct (_ <? _); simpl; by rewrite ?E.
Qed.

Lemma core_persistVarPool `{TaskFiles W} s : same_core view s (upd_cd persistVarPool s).
Proof.
  unfold same_core, core, upd_cd, persistVarPool, cd_workUnit. simpl.
  destruct (workUnit (machine (cd s))) eqn:E; [|by rewrite E].
  destruct (hasVarPool (cd s) && hasStore (cd s)) eqn:Eb; simpl; rewrite E; [|done].
  simpl. do 2 f_equal. apply (view_VarPoolPath (fun _ => _)).
Qed.

Lemma core_persist `{TaskFiles W} s : same_core view s (upd_cd persistState s).
Proof.
  pose proof (core_persistVarPool s) as Hv. unfold same_core, core, upd_cd, persistState in *. simpl in *.
  destruct (negb (hasStore (cd s))); [done|]. destruct (cd_workUnit (cd s)); [|done].
  by destruct (cd_workUnit (persistVarPool (cd s))).
Qed.
End core.

Create HintDb bookkeeping.
#[export] Hint Extern 1 (_ = _) =>
  first [apply view_UpdatedAt | apply view_Checkpoints | apply view_CheckpointMeta
        | apply view_VarPoolPath | apply view_Jobs | apply view_PhaseMetrics | apply view_RouteHistory] : bookkeeping.

(** Every access of the helpers keeps the core, or fails to by a projection. *)
Ltac calm_access :=
  match goal with
  | |- quiet _ => reflexivity
  | |- same_core _ _ (upd_cd (emit _) _) => apply core_emit
  | |- same_core _ _ (upd_cd persistState _) => apply core_persist; exact _
  | |- same_core _ _ (upd_cd persistVarPool _) => apply core_persistVarPool; exact _
  | |- same_core _ _ (upd_cd (upd_workUnit _) _) =>
      apply core_upd; intros ?; first [reflexivity | auto with bookkeeping]
  | |- same_core _ _ _ => reflexivity
  | |- _ => idtac
  end.

Section calm.
Context {W : Type} {HG : Git W} {HJ : JobControl W} {HT : TaskFiles W} {HC : Config} {HE : Env}.
Context {V : Type} (view : WorkUnit -> V) {HV : Bookkeeping view}.
Notation cproc := (@proc (Ctl W) question call answer).
Notation calm := (calm False (has_task (W := W)) (same_core view) quiet).
Implicit Types (s : Ctl W) (l : rwlock).

(** Opens the named body and walks through it. *)
Tactic Notation "calms" constr(p) := unfold p; check_calm; calm_access.

(** ** Primitives *)

Lemma calm_emits l e : calm l (emits e : cproc unit) l.
Proof. calms @emits. Qed.
Lemma calm_machine_state l : calm l (machine_state : cproc State) l.
Proof. calms @machine_state. Qed.
#[local] Hint Resolve calm_emits calm_machine_state : calm.
Lemma calm_emits_state l t m : calm l (emits_state t m : cproc unit) l.
Proof. calms @emits_state. Qed.
Lemma calm_emitEnrichedError l e p : calm l (emitEnrichedError e p : cproc unit) l.
Proof. calms @emitEnrichedError. Qed.
Lemma calm_work_unit l : calm l (work_unit : cproc _) l.
Proof. calms @work_unit. Qed.
Lemma calm_the_unit l : calm l (the_unit : cproc _) l.
Proof. intros s [[wu Hwu] _]. unfold the_unit. simpl. by rewrite Hwu. Qed.
#[local] Hint Resolve calm_emits_state calm_emitEnrichedError calm_work_unit calm_the_unit : calm.
Lemma calm_write_unit l f : (forall wu, view (f wu) = view wu) -> calm l (write_unit f : cproc unit) l.
Proof. intros Hf. calms @write_unit. Qed.
Lemma calm_persists l : calm l (persists : cproc unit) l.
Proof. calms @persists. Qed.
#[local] Hint Extern 2 (calm _ (write_unit _) _) => apply calm_write_unit; intros ?; auto with bookkeeping : calm.
#[local] Hint Resolve calm_persists : calm.
Lemma calm_touch_unit l : calm l (touch_unit : cproc unit) l.
Proof. calms @touch_unit. Qed.
Lemma calm_emitEventLog t p l : calm l (emitEventLog t p : cproc unit) l.
Proof. calms @emitEventLog. Qed.
Lemma calm_commit_all d m l : calm l (commit_all d m : cproc _) l.
Proof. calms @commit_all. Qed.
Lemma calm_append_checkpoint x l : calm l (append_checkpoint x : cproc unit) l.
Proof. calms @append_checkpoint. Qed.
#[local] Hint Resolve calm_touch_unit calm_emitEventLog calm_commit_all calm_append_checkpoint : calm.
Lemma calm_record_meta x m l : calm l (record_meta x m : cproc unit) l.
Proof. calms @record_meta. Qed.
#[local] Hint Resolve calm_record_meta : calm.
Lemma calm_createSafetyCheckpoint m l : calm l (createSafetyCheckpoint m : cproc unit) l.
Proof. calms @createSafetyCheckpoint. Qed.
Lemma calm_capture_head d m l : calm l (capture_head d m : cproc unit) l.
Proof. calms @capture_head. Qed.
#[local] Hint Resolve calm_createSafetyCheckpoint calm_capture_head : calm.
Lemma calm_completion_checkpoint e b l : calm l (completion_checkpoint e b : cproc unit) l.
Proof. calms @completion_checkpoint. Qed.
#[local] Hint Resolve calm_completion_checkpoint : calm.

(** ** Starting a phase *)

Lemma calm_explicit_approval e a b l : calm l (explicit_approval e a b : cproc _) l.
Proof. calms @explicit_approval. Qed.
Lemma calm_emitRiskEvaluated r l : calm l (emitRiskEvaluated r : cproc unit) l.
Proof. calms @emitRiskEvaluated. Qed.
Lemma calm_run_hooks hooks dir l : calm l (run_hooks hooks dir : cproc _) l.
Proof. induction hooks; cbn [run_hooks]; check_calm. Qed.
#[local] Hint Resolve calm_explicit_approval calm_emitRiskEvaluated calm_run_hooks : calm.
Lemma calm_RunTransitionHooks e l : calm l (RunTransitionHooks e : cproc _) l.
Proof. calms @RunTransitionHooks. Qed.
Lemma calm_executeGuardrails names phase dir specs l : calm l (executeGuardrails names phase dir specs : cproc _) l.
Proof. induction names; cbn [executeGuardrails]; check_calm. Qed.
#[local] Hint Resolve calm_RunTransitionHooks calm_executeGuardrails : calm.
Lemma calm_setupCanaryHarness l : calm l (setupCanaryHarness : cproc unit) l.
Proof. calms @setupCanaryHarness. Qed.
Lemma calm_initProgressEstimator p l : calm l (initProgressEstimator p : cproc unit) l.
Proof. calms @initProgressEstimator. Qed.
#[local] Hint Resolve calm_setupCanaryHarness calm_initProgressEstimator : calm.
Lemma calm_phase_started p l : calm l (phase_started p : cproc unit) l.
Proof. calms @phase_started. Qed.
Lemma calm_lookupResponseCache p l : calm l (lookupResponseCache p : cproc _) l.
Proof.
  calms @lookupResponseCache. destruct (responseCache s); [|done]. by destruct (get_alone _ _ _).
Qed.
Lemma calm_storeResponseCache p r ph l : calm l (storeResponseCache p r ph : cproc unit) l.
Proof. calms @storeResponseCache. Qed.
#[local] Hint Resolve calm_phase_started calm_lookupResponseCache calm_storeResponseCache : calm.
Lemma calm_phase_error {A} e ph l : calm l (phase_error e ph : cproc (result string A)) l.
Proof. calms @phase_error. Qed.
#[local] Hint Resolve calm_phase_error : calm.
Lemma calm_hooks_unlocked e ph : calm WriteHeld (hooks_unlocked e ph : cproc _) WriteHeld.
Proof. calms @hooks_unlocked. Qed.
Lemma calm_runPreGuardrails ph : calm Unheld (runPreGuardrails ph : cproc _) Unheld.
Proof. calms @runPreGuardrails. Qed.
Lemma calm_check_task_and_pool ph l : calm l (check_task_and_pool ph : cproc _) l.
Proof. calms @check_task_and_pool. Qed.
Lemma calm_build_prompt ph l : calm l (build_prompt ph : cproc _) l.
Proof. calms @build_prompt. Qed.
Lemma calm_task_complexity l : calm l (task_complexity : cproc _) l.
Proof. calms @task_complexity. Qed.
Lemma calm_new_scheduler a b c l : calm l (new_scheduler a b c : cproc _) l.
Proof. calms @new_scheduler. Qed.
Lemma calm_submit_job a b l : calm l (submit_job a b : cproc _) l.
Proof. calms @submit_job. Qed.
#[local] Hint Resolve calm_hooks_unlocked calm_runPreGuardrails calm_check_task_and_pool calm_build_prompt calm_task_complexity calm_new_scheduler calm_submit_job : calm.
Lemma calm_read_times paths files l : calm l (read_times paths files : cproc _) l.
Proof. revert files. induction paths; intros; cbn [read_times]; check_calm. Qed.
#[local] Hint Resolve calm_read_times : calm.
Lemma calm_newSpecWatcher l : calm l (newSpecWatcher : cproc unit) l.
Proof. calms @newSpecWatcher. Qed.
Lemma calm_evaluateRiskUnlocked : calm Unheld (evaluateRiskUnlocked : cproc _) Unheld.
Proof. calms @evaluateRiskUnlocked. Qed.
#[local] Hint Resolve calm_newSpecWatcher calm_evaluateRiskUnlocked : calm.
Lemma calm_checkApproval e l :
  match RiskApproval cfg with Some r => rba_Enabled r | None => false end = false ->
  calm l (checkApproval e : cproc _) l.
Proof.
  unfold checkApproval. destruct (RiskApproval cfg) as [rba|]; [intros ->|intros _]; check_calm.
Qed.

(** ** Following a phase *)

Lemma calm_commit_specs l : calm l (commit_specs : cproc unit) l.
Proof. calms @commit_specs. Qed.
Lemma calm_store_metrics ph pm l : calm l (store_metrics ph pm : cproc unit) l.
Proof. calms @store_metrics. Qed.
#[local] Hint Resolve calm_commit_specs calm_store_metrics : calm.
Lemma calm_recordPhaseMetrics e j l : calm l (recordPhaseMetrics e j : cproc unit) l.
Proof. calms @recordPhaseMetrics. Qed.
Lemma calm_recordPhaseMetricsFromGraph e l : calm l (recordPhaseMetricsFromGraph e : cproc unit) l.
Proof. calms @recordPhaseMetricsFromGraph. Qed.
Lemma calm_checkCanaryViolations o l : calm l (checkCanaryViolations o : cproc unit) l.
Proof. calms @checkCanaryViolations. Qed.
Lemma calm_SkipPhases : calm Unheld (SkipPhases : cproc _) Unheld.
Proof. calms @SkipPhases. Qed.
Lemma calm_drop_iterations ph : calm Unheld (drop_iterations ph : cproc unit) Unheld.
Proof. calms @drop_iterations. Qed.
Lemma calm_prepareCommitValidation c l : calm l (prepareCommitValidation c : cproc _) l.
Proof. calms @prepareCommitValidation. Qed.
Lemma calm_validateAgentCommits ps l : calm l (validateAgentCommits ps : cproc unit) l.
Proof. calms @validateAgentCommits. Qed.
Lemma calm_getBaseBranch l : calm l (getBaseBranch : cproc _) l.
Proof. calms @getBaseBranch. Qed.
Lemma calm_index_task e b i l : calm l (index_task e b i : cproc unit) l.
Proof. calms @index_task. Qed.
Lemma calm_SignalProgress : calm Unheld (SignalProgress : cproc unit) Unheld.
Proof. calms @SignalProgress. Qed.
Lemma calm_pre_job_checkpoint e : calm Unheld (pre_job_checkpoint e : cproc unit) Unheld.
Proof. calms @pre_job_checkpoint. Qed.
Lemma calm_job_outputs j e l : calm l (job_outputs j e : cproc _) l.
Proof. calms @job_outputs. Qed.
End calm.

#[export] Hint Resolve calm_emits calm_machine_state calm_emits_state calm_emitEnrichedError
  calm_work_unit calm_the_unit calm_persists calm_touch_unit calm_emitEventLog calm_commit_all
  calm_append_checkpoint calm_record_meta calm_createSafetyCheckpoint calm_capture_head
  calm_completion_checkpoint calm_explicit_approval calm_emitRiskEvaluated calm_run_hooks
  calm_RunTransitionHooks calm_executeGuardrails calm_setupCanaryHarness
  calm_initProgressEstimator calm_phase_started calm_lookupResponseCache calm_storeResponseCache
  calm_phase_error calm_hooks_unlocked calm_runPreGuardrails calm_check_task_and_pool
  calm_build_prompt calm_task_complexity calm_new_scheduler calm_submit_job calm_read_times
  calm_newSpecWatcher calm_evaluateRiskUnlocked calm_commit_specs calm_store_metrics
  calm_recordPhaseMetrics calm_recordPhaseMetricsFromGraph calm_checkCanaryViolations
  calm_SkipPhases calm_drop_iterations calm_prepareCommitValidation calm_validateAgentCommits
  calm_getBaseBranch calm_index_task calm_SignalProgress calm_pre_job_checkpoint calm_job_outputs : calm.
#[export] Hint Extern 2 (calm _ _ _ _ _ (write_unit _) _) =>
  apply calm_write_unit; intros ?; auto with bookkeeping : calm.
#[export] Hint Extern 1 (Bookkeeping _) => exact _ : calm.
