(* ===== verification/PhaseRuns.v ===== *)
(** * Requests for a phase

    What [Plan], [Implement], [Simplify] and [Optimize] do when nothing runs in
    between: the request is granted exactly as the table says and one watcher is
    started, or it is refused and the machine is where it was. *)

From S2P Require Import Prelude Floats WorkUnit Transitions Machine Persist Interfaces Conductor.
From S2P Require Import Progress Errors VarPool Findings FailClass Policy RespCache Proc ProcWp.
From S2P Require Import PhaseCtl PhaseJobs PhaseWatch PhaseFinish PhaseCalm PhaseGate PhaseSubmit PhaseLocks PhaseSim.

(** What the guards of the phases look at. *)
Definition guard_view (wu : WorkUnit) :=
  (wu_ID wu, wu_Title wu, wu_Description wu, wu_Source wu, wu_Specifications wu, wu_HasImplemented wu).

#[export] Instance guard_view_bookkeeping : Bookkeeping guard_view.
Proof. done. Qed.

Definition phase_requests : list Event := [EventPlan; EventImplement; EventSimplify; EventOptimize].

Lemma table_guards_view : Forall (fun e : TransitionKey * list Transition =>
  bool_decide (key_Event e.1 ∈ phase_requests) = true ->
  forall wu wu', guard_view wu = guard_view wu' ->
  Forall (fun t => EvaluateGuards (Some wu) (tr_Guards t) = EvaluateGuards (Some wu') (tr_Guards t)) e.2)
  TransitionTable.
Proof.
  unfold TransitionTable, phase_entries, review_entries, movement_entries. cbn [app].
  repeat (apply Forall_cons; split;
    [intros Hk wu wu' Hv; first [by vm_compute in Hk |
      injection Hv; intros Hi Hs Hr Hd Ht Hw; repeat constructor; cbn -[bool_decide];
      unfold guardHasSource, guardHasDescription, guardHasSpecifications, guardHasImplementation;
      by rewrite ?Hi, ?Hs, ?Hr, ?Hd] |]).
  constructor.
Qed.

Lemma guards_view key t wu wu' :
  key_Event key ∈ phase_requests -> t ∈ table_lookup key -> guard_view wu = guard_view wu' ->
  EvaluateGuards (Some wu) (tr_Guards t) = EvaluateGuards (Some wu') (tr_Guards t).
Proof.
  intros Hk Ht Hv. pose proof table_guards_view as Hall. rewrite Forall_forall in Hall.
  specialize (Hall _ (table_lookup_elem _ _ Ht) (bool_decide_eq_true_2 _ Hk) _ _ Hv).
  rewrite Forall_forall in Hall. by apply Hall.
Qed.

(** Every phase can fail, whatever the guards say. *)
Lemma phase_error_entry key t : t ∈ table_lookup key -> key_Event key ∈ phase_requests ->
  existsb (fun t' => bool_decide (length (tr_Guards t') = 0)) (table_lookup (mkKey (tr_To t) EventError))
  = true.
Proof.
  revert key t. apply (table_forall (fun key t => key_Event key ∈ phase_requests ->
    existsb (fun t' => bool_decide (length (tr_Guards t') = 0))
      (table_lookup (mkKey (tr_To t) EventError)) = true)). by_eval.
Qed.

(** The calls a body started, put together from its parts. *)
Ltac by_quiet :=
  rewrite ?app_nil_r; repeat first [apply Forall_app_2 | apply Forall_cons_2 | apply Forall_nil_2]; done.

Section requests.
Context {W : Type} {HG : Git W} {HJ : JobControl W} {HT : TaskFiles W} {HC : Config} {HE : Env}.
Notation cproc := (@proc (Ctl W) question call answer).
Notation calm := (calm False (has_task (W := W)) (same_core guard_view) quiet).
Notation wp := (wp False).
Implicit Types (s : Ctl W) (l : rwlock).

Lemma calm_resetPhaseState ph l : calm l (resetPhaseState ph : cproc unit) l.
Proof.
  intros s [[wu Hwu] Hp]. unfold resetPhaseState. simpl. rewrite Hp. simpl. split_and!; [|done|done].
  unfold same_core, core. simpl. unfold cd_workUnit in Hwu. by rewrite Hwu.
Qed.

#[local] Hint Resolve calm_resetPhaseState : calm.

(** The transition into a phase. *)
Definition entered (event : Event) (s s' : Ctl W) : Prop :=
  exists t now, t ∈ table_lookup (mkKey (state (machine (cd s))) event) /\
    EvaluateGuards (cd_workUnit (cd s)) (tr_Guards t) = true /\
    state (machine (cd s')) = tr_To t /\
    history (machine (cd s')) =
      history (machine (cd s)) ++ [mkHistoryEntry (state (machine (cd s))) (tr_To t) event now].

Definition with_machine (m : Machine) s : Ctl W := upd_cd (fun c => c <| machine := m |>) s.

Lemma wp_dispatches w e s l Post :
  (forall now m r, Dispatch now e (machine (cd s)) = (m, r) -> Post r (with_machine m s) l []) ->
  ProcWp.wp w (dispatches e : cproc _) s l Post.
Proof.
  intros H now. simpl. destruct (Dispatch now e (machine (cd s))) as [m r] eqn:E. by eapply H.
Qed.

Lemma wp_clear_prior s l (Post : unit -> Ctl W -> rwlock -> list call -> Prop) :
  Post tt (with_machine (ClearPriorStableState (machine (cd s))) s) l [] -> wp (clear_prior : cproc _) s l Post.
Proof. done. Qed.

(** Runs the calm part before the rest of the body. *)
Ltac calmly :=
  eapply (wp_calm False has_task (same_core guard_view) quiet);
    [solve [eauto with calm | check_calm; calm_access] | assumption |];
  let a := fresh "a" in let s := fresh "s" in let new := fresh "new" in
  let HR := fresh "HR" in let Hs := fresh "Hs" in let Hq := fresh "Hq" in
  intros a s new HR Hs Hq; apply same_core_state in HR as (?&?&?&?&?); cbn beta.

Lemma wp_enter_phase event ph s :
  event ∈ phase_requests -> has_task s ->
  wp (enter_phase event ph : cproc _) s WriteHeld (fun r s' l' new =>
    l' = WriteHeld /\ Forall quiet new /\ has_task s' /\ activeJobID (cd s') = activeJobID (cd s) /\
    match r with
    | Some _ => state (machine (cd s')) = state (machine (cd s)) /\
                history (machine (cd s')) = history (machine (cd s)) /\
                priorStableState (machine (cd s')) = NoState
    | None => entered event s s' /\
              priorStableState (machine (cd s')) = priorStableState (machine (cd s))
    end).
Proof.
  intros He Hs. unfold enter_phase. calmly.
  apply wp_bind, wp_dispatches. intros now m r Hd.
  apply Dispatch_inv in Hd as [(e & -> & -> & _)|(t & -> & Ht & Hg & _ & Hst & Hh & Hu & _ & _ & Hpr)].
  - apply wp_bind, wp_clear_prior.
    assert (Hs2 : has_task (with_machine (ClearPriorStableState (machine (cd s0))) s0)) by done.
    calmly. cbn in *. split_and!; try congruence; try done. all: by_quiet.
  - destruct Hs as [[wu Hwu] _], Hs0 as [[wu0 Hwu0] Hp0]. unfold cd_workUnit in *.
    rewrite Hwu0 in Hg, Hu, H3. rewrite Hwu in H3. apply (inj Some) in H3.
    assert (Hne : ~ (event = EventError \/ event = EventStop)).
    { intros [-> | ->]; revert He; apply (bool_decide_unpack _); by vm_compute. }
    assert (Htgt : dispatch_target (machine (cd s0)) event t = tr_To t).
    { unfold dispatch_target. by rewrite decide_False by tauto. }
    rewrite Htgt in *. rewrite decide_False in Hpr by done. cbn.
    split_and!; [done|by_quiet| |congruence| |congruence].
    + split; [|done]. unfold cd_workUnit; simpl. rewrite Hu. by eexists.
    + exists t, now. unfold cd_workUnit; simpl. rewrite Hwu, <- H, <- H0. split_and!; [done| |done|done].
      rewrite <- Hg. by apply (guards_view (mkKey (state (machine (cd s0))) event)).
Qed.

(** The state an error during the phase goes back to; [NoState] leaves it to the
    table. *)
Definition recorded (normal : list State) s : State :=
  if bool_decide (state (machine (cd s)) ∈ normal) then priorStableState (machine (cd s))
  else state (machine (cd s)).

(** The state after a refused request: the one before it, or, when the request
    was refused after the transition and no state had been recorded, the one the
    table's error transition leads to. *)
Definition refused_state (normal : list State) (event : Event) s (st : State) : Prop :=
  st = state (machine (cd s)) \/
  exists t t', t ∈ table_lookup (mkKey (state (machine (cd s))) event) /\
    t' ∈ table_lookup (mkKey (tr_To t) EventError) /\
    st = (if decide (recorded normal s = NoState) then tr_To t' else recorded normal s).

Definition request_post (normal : list State) (event : Event) (watch : string -> call) s
    (r : result string string) s' (new : list call) : Prop :=
  has_task s' /\
  match r with
  | Ok id =>
      hasPool (cd s) = true /\ entered event s s' /\
      priorStableState (machine (cd s')) = recorded normal s /\
      filter (fun t => drives_phase t = true) new = [watch id]
  | Err _ => Forall quiet new /\ refused_state normal event s (state (machine (cd s')))
  end.

Lemma quiet_filter new : Forall quiet new -> filter (fun t => drives_phase t = true) new = [].
Proof.
  induction 1 as [|t new Ht _ IH]; [done|]. rewrite filter_cons. unfold quiet in Ht.
  rewrite decide_False by congruence. done.
Qed.

Lemma wp_check_task_and_pool ph s l Post :
  has_task s ->
  (forall r s' new, same_core guard_view s s' -> has_task s' -> Forall quiet new ->
    (r = None -> hasPool (cd s) = true) -> Post r s' l new) ->
  wp (check_task_and_pool ph : cproc _) s l Post.
Proof.
  intros Hs HPost. destruct (hasPool (cd s)) eqn:Ep.
  - eapply wp_mono; [by apply (calm_check_task_and_pool guard_view)|].
    intros r s' l' new (HR & -> & Hq). apply HPost; auto. by eapply same_core_task.
  - destruct Hs as [[wu Hwu] Hp]. unfold check_task_and_pool. cbn. rewrite Hwu. cbn. rewrite Ep.
    pose proof (fun e => core_emit guard_view e s) as Hc. apply HPost; [apply Hc| |constructor|done].
    eapply same_core_task; [apply Hc|]. by split; [exists wu|].
Qed.

(** An error after the transition. *)
Lemma wp_roll_back normal event s s1 l Post :
  event ∈ phase_requests -> entered event s s1 -> has_task s1 ->
  priorStableState (machine (cd s1)) = recorded normal s ->
  (forall r s2, has_task s2 -> refused_state normal event s (state (machine (cd s2))) -> Post r s2 l []) ->
  wp (dispatches EventError : cproc _) s1 l Post.
Proof.
  intros He (t & now0 & Ht & _ & Est & _) [[wu Hwu] Hp] Hprior HPost.
  apply wp_dispatches. intros now m r Hd.
  apply Dispatch_inv in Hd as [(e & -> & -> & Hv)|(t' & -> & Ht' & _ & _ & Hst & _ & Hu & _)].
  - exfalso. revert Hv. rewrite Est.
    assert (Herr : is_Some (valid_transition (workUnit (machine (cd s1))) (table_lookup (mkKey (tr_To t) EventError)))).
    { pose proof (phase_error_entry _ _ Ht He) as Hx. apply existsb_exists in Hx as (t' & Hin & Hg).
      apply bool_decide_eq_true in Hg. apply nil_length_inv in Hg.
      eapply valid_transition_exists; [by apply list_elem_of_In|]. by rewrite Hg. }
    destruct Herr as [? Herr]. congruence.
  - apply HPost.
    + unfold cd_workUnit in Hwu. split; [|done]. unfold cd_workUnit. simpl. rewrite Hu, Hwu. by eexists.
    + rewrite Est in Ht'. right. exists t, t'. split_and!; [done|done|]. simpl. rewrite Hst.
      unfold dispatch_target. rewrite Hprior. destruct (decide (recorded normal s = NoState)) as [E|E].
      * by rewrite decide_False by tauto.
      * by rewrite decide_True by auto.
Qed.

(** In the phase, since the transition from [s]. *)
Definition in_phase (normal : list State) (event : Event) s s1 : Prop :=
  has_task s1 /\ entered event s s1 /\ priorStableState (machine (cd s1)) = recorded normal s.

Lemma in_phase_along normal event s s1 s2 :
  in_phase normal event s s1 -> same_core guard_view s1 s2 -> in_phase normal event s s2.
Proof.
  intros (Hs & (t & now & Ht & Hg & Est & Eh) & Hp) HR.
  pose proof (same_core_task _ _ _ HR Hs) as Hs2.
  apply same_core_state in HR as (Es2 & Eh2 & Ep2 & _).
  split_and!; [done| |by rewrite Ep2]. exists t, now. by rewrite Es2, Eh2.
Qed.

(** Runs a calm part inside the phase. *)
Ltac calmly_in H :=
  lazymatch type of H with
  | in_phase _ _ _ _ =>
      eapply (wp_calm False has_task (same_core guard_view) quiet);
        [solve [eauto with calm | check_calm; calm_access] | exact (proj1 H) |];
      let a := fresh "a" in let s := fresh "s" in let new := fresh "new" in
      let HR := fresh "HR" in let Hs := fresh "Hs" in let Hq := fresh "Hq" in
      intros a s new HR Hs Hq; apply (in_phase_along _ _ _ _ _ H) in HR; clear H Hs; rename HR into H;
      cbn beta
  end.

Lemma wp_roll_back_in normal event s s1 l ph err new0 :
  event ∈ phase_requests -> in_phase normal event s s1 -> Forall quiet new0 ->
  wp (dispatches EventError;;; phase_error err ph)%proc s1 l
    (fun (r : result string string) s' l' new =>
       l' = l /\ has_task s' /\ Forall quiet (new0 ++ new) /\ is_ok r = false /\
       refused_state normal event s (state (machine (cd s')))).
Proof.
  intros He (Hs1 & Hen & Hp) Hq. apply wp_bind.
  eapply (wp_roll_back normal event s); [done..|]. intros _ s2 Hs2 Hst.
  unfold phase_error. apply wp_bind. eapply wp_mono; [by apply (calm_emitEnrichedError guard_view)|].
  intros _ s3 l3 new3 (HR & -> & Hq3). pose proof (same_core_task _ _ _ HR Hs2).
  apply same_core_state in HR as (Es & _). cbn. rewrite Es, ?app_nil_r. split_and!; try done. by_quiet.
Qed.

Lemma wp_run_phase_job normal event s s1 ph jobType done_ started message :
  event ∈ phase_requests -> in_phase normal event s s1 ->
  wp (run_phase_job ph jobType done_ started message : cproc _) s1 WriteHeld (fun r s' l' new =>
    l' = WriteHeld /\
    match r with
    | Ok id => in_phase normal event s s' /\
               filter (fun t => drives_phase t = true) new = [GoWatchJob id done_]
    | Err _ => has_task s' /\ Forall quiet new /\ refused_state normal event s (state (machine (cd s')))
    end).
Proof.
  intros He Hin. unfold run_phase_job. do 3 calmly_in Hin.
  destruct a1 as [jobID|e].
  - do 2 calmly_in Hin. apply wp_bind, wp_act, wp_ret. cbn beta.
    assert (Hin' : in_phase normal event s (upd_cd (fun c => c <| activeJobID := jobID |>) s5)) by exact Hin.
    clear Hin. do 4 calmly_in Hin'. cbn. split; [done|]. split; [exact Hin'|].
    rewrite !filter_app, !quiet_filter by done. done.
  - eapply wp_mono; [by apply (wp_roll_back_in normal event s _ _ _ _ [])|].
    intros [id|err] s' l' new2 (-> & Hs' & Hq2 & Hr & Hst); [done|]. split_and!; [done..|by_quiet|done].
Qed.

Lemma wp_guardrails normal event s s1 ph :
  event ∈ phase_requests -> in_phase normal event s s1 ->
  wp (guardrails_unlocked ph : cproc _) s1 WriteHeld (fun r s' l' new =>
    l' = WriteHeld /\ Forall quiet new /\
    match r with
    | None => in_phase normal event s s'
    | Some _ => has_task s' /\ refused_state normal event s (state (machine (cd s')))
    end).
Proof.
  intros He Hin. unfold guardrails_unlocked.
  eapply wp_bind, wp_unlock; [done|]. cbn beta. calmly_in Hin.
  eapply wp_bind, wp_lock; [done|]. cbn beta. destruct a as [e|].
  - destruct Hin as (Hs0 & Hen & Hp). apply wp_bind.
    eapply (wp_roll_back normal event s); [done..|]. intros _ s2 Hs2 Hst.
    apply wp_bind. eapply wp_mono; [by apply (calm_emitEnrichedError guard_view)|].
    intros _ s3 l3 new3 (HR & -> & Hq3). pose proof (same_core_task _ _ _ HR Hs2).
    apply same_core_state in HR as (Es & _). cbn. rewrite Es. split_and!; try done. by_quiet.
  - apply wp_ret. split_and!; [done|by_quiet|done].
Qed.

(** The state before the request may be the one before a calm part. *)
Lemma entered_from event s s0 s1 :
  event ∈ phase_requests -> same_core guard_view s s0 -> has_task s -> entered event s0 s1 ->
  entered event s s1.
Proof.
  intros He HR Hs (t & now & Ht & Hg & Est & Eh). pose proof (same_core_task _ _ _ HR Hs) as [[wu0 Hwu0] _].
  apply same_core_state in HR as (Es & Eh0 & _ & _ & Eu). destruct Hs as [[wu Hwu] _].
  rewrite Hwu0, Hwu in Eu. apply (inj Some) in Eu. rewrite Es in *. rewrite Eh0 in Eh.
  exists t, now. split_and!; [done| |done|done]. rewrite Hwu. rewrite Hwu0 in Hg.
  rewrite <- Hg. symmetry. by apply (guards_view (mkKey (state (machine (cd s))) event)).
Qed.

Lemma recorded_from normal s s0 : same_core guard_view s s0 -> recorded normal s0 = recorded normal s.
Proof. intros HR. apply same_core_state in HR as (Es & _ & Ep & _). unfold recorded. by rewrite Es, Ep. Qed.

(** The transition into the phase, before the rest of the request. *)
Lemma wp_transition normal event ph s s0 (k : cproc (result string string)) Post :
  event ∈ phase_requests -> has_task s -> same_core guard_view s s0 ->
  (forall s1 new, in_phase normal event s s1 -> Forall quiet new ->
     wp k s1 WriteHeld (fun r s' l' new' => Post r s' l' (new ++ new'))) ->
  (forall e s1 new, has_task s1 -> Forall quiet new ->
     refused_state normal event s (state (machine (cd s1))) -> Post (Err e) s1 WriteHeld new) ->
  wp (let* _ := record_prior normal in
      let* err := enter_phase event ph in
      match err with Some e => Ret (Err e) | None => k end)%proc s0 WriteHeld Post.
Proof.
  intros He Hs HR Hk Herr. pose proof (same_core_task _ _ _ HR Hs) as Hs0.
  set (st := state (machine (cd s0))).
  set (s0' := if bool_decide (st ∈ normal) then s0
              else with_machine (SetPriorStableState st (machine (cd s0))) s0).
  assert (Hcore : state (machine (cd s0')) = st /\ history (machine (cd s0')) = history (machine (cd s0)) /\
    priorStableState (machine (cd s0')) = recorded normal s /\ cd_workUnit (cd s0') = cd_workUnit (cd s0) /\
    has_task s0').
  { rewrite <- (recorded_from _ _ _ HR). subst s0'. unfold recorded. fold st. by case_bool_decide. }
  destruct Hcore as (Es & Eh & Ep & Eu & Hs0').
  apply wp_bind. assert (Hw : forall P : State -> Ctl W -> rwlock -> list call -> Prop,
    P st s0' WriteHeld [] -> wp (record_prior normal : cproc _) s0 WriteHeld P).
  { intros P HP. unfold record_prior. cbn. fold st. subst s0'. by case_bool_decide. }
  apply Hw. clear Hw. apply wp_bind. eapply wp_mono; [by apply wp_enter_phase|].
  intros r s1 l1 new (-> & Hq & Hs1 & _ & Hr). destruct r as [e|].
  - destruct Hr as (Est & _). apply wp_ret. cbn. rewrite app_nil_r. apply Herr; [done..|].
    left. rewrite Est, Es. by destruct (same_core_state _ _ _ HR) as (E & _).
  - destruct Hr as (Hen & Hp). eapply wp_mono; [apply Hk; [|done]|done].
    split_and!; [done| |by rewrite Hp]. apply (entered_from event s s0 s1); [done..|].
    destruct Hen as (t & now & Ht & Hg & Est & Eh1). rewrite Es in Ht, Eh1. rewrite Eh in Eh1. rewrite Eu in Hg. by exists t, now.
Qed.

Context (no_risk : risk_based = false).

Lemma calm_checkApproval' e l : calm l (checkApproval e : cproc _) l.
Proof. apply (calm_checkApproval guard_view), no_risk. Qed.
#[local] Hint Resolve calm_checkApproval' : calm.

(** Runs a calm part before the transition; [HR] relates the state to the one at
    the start. *)
Ltac calmly_from HR :=
  eapply (wp_calm False has_task (same_core guard_view) quiet);
    [solve [eauto with calm | check_calm; calm_access] | assumption |];
  let a := fresh "a" in let s := fresh "s" in let new := fresh "new" in
  let HR' := fresh "HR'" in let Hs := fresh "Hs" in let Hq := fresh "Hq" in
  intros a s new HR' Hs Hq; apply (transitivity HR) in HR'; clear HR; rename HR' into HR; cbn beta.

(** Refused before the transition. *)
Lemma refused_early normal event watch s s' e new :
  same_core guard_view s s' -> has_task s' -> Forall quiet new ->
  request_post normal event watch s (Err e) s' new.
Proof.
  intros HR Hs Hq. split_and!; [done..|]. left. by apply same_core_state in HR as (-> & _).
Qed.

Ltac refuse_early := apply wp_ret; split_and!; [done..|apply refused_early; try done; by_quiet].

(** The start of a request: its checks are over, the transition is next. *)
Lemma wp_Plan s :
  has_task s ->
  wp (Plan : cproc _) s Unheld (fun r s' l' new =>
    l' = Unheld /\ request_post [StateLoaded] EventPlan (fun id => GoWatchGraph id EventPlanDone) s r s' new).
Proof.
  intros Hs. unfold Plan. apply wp_deferred, wp_bind. apply wp_check_task_and_pool; [done|].
  intros r1 s1 new1 HR Hs1 Hq1 Hpool. destruct r1 as [e|]; [refuse_early|]. specialize (Hpool eq_refl).
  calmly_from HR. destruct a as [e|]; [refuse_early|].
  calmly_from HR. destruct a as [e|]; [refuse_early|].
  assert (He : EventPlan ∈ phase_requests) by by apply (bool_decide_unpack _).
  eapply wp_transition; [exact He|exact Hs|exact HR| |].
  - intros s4 new4 Hin Hq4. apply wp_bind. eapply wp_mono; [by eapply wp_guardrails|].
    intros r5 s5 l5 new5 (-> & Hq5 & Hr). destruct r5 as [e|].
    { apply wp_ret. do 2 (split; [done|]). split; [apply Hr|]. split; [by_quiet|apply Hr]. }
    do 11 calmly_in Hr. cbn. do 2 (split; [done|]). split; [exact (proj1 Hr)|]. split_and!; [done|apply Hr..|].
    rewrite !filter_app, !quiet_filter by done. done.
  - intros e s4 new4 Hs4 Hq4 Hst. do 3 (split; [done|]). split; [by_quiet|done].
Qed.

Lemma wp_Implement s :
  has_task s ->
  wp (Implement : cproc _) s Unheld (fun r s' l' new =>
    l' = Unheld /\ request_post [StateLoaded; StatePlanned] EventImplement
                     (fun id => GoWatchJob id EventImplementDone) s r s' new).
Proof.
  intros Hs. unfold Implement. apply wp_deferred, wp_bind. apply wp_check_task_and_pool; [done|].
  intros r1 s1 new1 HR Hs1 Hq1 Hpool. destruct r1 as [e|]; [refuse_early|]. specialize (Hpool eq_refl).
  calmly_from HR. destruct a as [e|]; [refuse_early|].
  calmly_from HR. cbv zeta. destruct (_ && _)%Z; [refuse_early|].
  calmly_from HR. destruct a0 as [e|]; [refuse_early|].
  assert (He : EventImplement ∈ phase_requests) by by apply (bool_decide_unpack _).
  eapply wp_transition; [exact He|exact Hs|exact HR| |].
  - intros s4 new4 Hin Hq4. apply wp_bind. eapply wp_mono; [by eapply wp_guardrails|].
    intros r5 s5 l5 new5 (-> & Hq5 & Hr). destruct r5 as [e|].
    { apply wp_ret. do 2 (split; [done|]). split; [apply Hr|]. split; [by_quiet|apply Hr]. }
    do 2 calmly_in Hr. eapply wp_mono; [by eapply wp_run_phase_job|].
    intros [id|e] s8 l8 new8 (-> & H8).
    + destruct H8 as [Hin8 Hf]. do 2 (split; [done|]). split; [exact (proj1 Hin8)|]. split_and!; [done|apply Hin8..|].
      rewrite !filter_app, !quiet_filter by done. done.
    + destruct H8 as (? & ? & ?). do 3 (split; [done|]). split; [by_quiet|done].
  - intros e s4 new4 Hs4 Hq4 Hst. do 3 (split; [done|]). split; [by_quiet|done].
Qed.

Lemma wp_optional_phase event ph jobType done_ started message s :
  event ∈ phase_requests -> has_task s ->
  wp (optional_phase event ph jobType done_ started message : cproc _) s Unheld (fun r s' l' new =>
    l' = Unheld /\ request_post [StateImplemented] event (fun id => GoWatchJob id done_) s r s' new).
Proof.
  intros He Hs. unfold optional_phase. apply wp_deferred, wp_bind. apply wp_check_task_and_pool; [done|].
  intros r1 s1 new1 HR Hs1 Hq1 Hpool. destruct r1 as [e|]; [refuse_early|]. specialize (Hpool eq_refl).
  calmly_from HR. destruct a as [e|]; [refuse_early|].
  eapply wp_transition; [exact He|exact Hs|exact HR| |].
  - intros s4 new4 Hin Hq4. calmly_in Hin. eapply wp_mono; [by eapply wp_run_phase_job|].
    intros [id|e] s8 l8 new8 (-> & H8).
    + destruct H8 as [Hin8 Hf]. do 2 (split; [done|]). split; [exact (proj1 Hin8)|].
      split_and!; [done|apply Hin8..|]. rewrite !filter_app, !quiet_filter by done. done.
    + destruct H8 as (? & ? & ?). do 3 (split; [done|]). split; [by_quiet|done].
  - intros e s4 new4 Hs4 Hq4 Hst. do 3 (split; [done|]). split; [by_quiet|done].
Qed.
End requests.

(** ** The requests, run alone *)

Definition at_rest {W} (s : Ctl W) : @local (Ctl W) call := mkLocal s Unheld [] 0.

(** The state the requests are made in has no stale state to roll back to. *)
Definition no_stale_prior {W} (normal : list State) (s : Ctl W) : Prop :=
  state (machine (cd s)) ∈ normal -> priorStableState (machine (cd s)) = NoState.

(** What a request for the phase [event] ends in: it is granted, in a state the
    table has it in, and exactly one watcher follows the job; or the machine
    ends in the state [fallback] allows and nothing is started. *)
Definition request_outcome {W} (event : Event) (target : State) (watch : string -> call)
    (fallback : State -> State -> Prop) (s : Ctl W)
    (r : @local (Ctl W) call * outcome (result string string)) : Prop :=
  let m := machine (cd s) in
  let s' := shared r.1 in
  let m' := machine (cd s') in
  held_lock r.1 = Unheld /\
  match r.2 with
  | Done (Ok id) =>
      hasPool (cd s) = true /\ (CanDispatch event m).1 = true /\ state m' = target /\
      (exists now, history m' = history m ++ [mkHistoryEntry (state m) target event now]) /\
      filter (fun t => drives_phase t = true) (spawned r.1) = [watch id]
  | Done (Err _) =>
      fallback (state m) (state m') /\ filter (fun t => drives_phase t = true) (spawned r.1) = []
  | _ => False
  end.

Section specs.
Context {W : Type} {HG : Git W} {HJ : JobControl W} {HT : TaskFiles W} {HC : Config} {HE : Env}.
Implicit Types s : Ctl W.

Lemma request_outcome_intro normal event target watch fallback env
    (p : @proc (Ctl W) question call answer (result string string)) s :
  has_task s -> no_stale_prior normal s ->
  (forall st t, t ∈ table_lookup (mkKey st event) -> st <> NoState /\ tr_To t = target) ->
  (forall st, fallback st st) ->
  (forall st t', st ∈ normal -> t' ∈ table_lookup (mkKey target EventError) -> fallback st (tr_To t')) ->
  wp False p s Unheld (fun r s' l' new => l' = Unheld /\ request_post normal event watch s r s' new) ->
  request_outcome event target watch fallback s (exec env p (at_rest s)).
Proof.
  intros Hs Hprior Htable Hsame Herr Hwp. apply (wp_exec False env p (at_rest s)) in Hwp.
  unfold request_outcome. destruct (exec env p (at_rest s)) as [c [r| | |]]; [|done..]. simpl in *.
  destruct Hwp as (new & -> & -> & _ & Hr). split; [done|]. simpl. destruct r as [id|e].
  - destruct Hr as (Hpool & (t & now & Ht & Hg & Est & Eh) & _ & Hf).
    destruct (Htable _ _ Ht) as [_ Hto]. rewrite Hto in *. split_and!; [done| |done|by exists now|done].
    apply can_dispatch_ok_iff. by exists t.
  - destruct Hr as (Hq & Hst). split; [|by apply quiet_filter].
    destruct Hst as [->|(t & t' & Ht & Ht' & ->)]; [done|]. destruct (Htable _ _ Ht) as [Hne Hto].
    rewrite Hto in Ht'. unfold recorded. case_bool_decide as Hn; [|by rewrite decide_False].
    rewrite Hprior by done. rewrite decide_True by done. by apply Herr.
Qed.

(** Where the phases lead, and where their errors lead. *)
Lemma request_entry key t : t ∈ table_lookup key -> key_Event key ∈ phase_requests ->
  key_From key <> NoState /\ tr_To t = expectedInProgressState (key_Event key).
Proof.
  revert key t. apply (table_forall (fun key t => key_Event key ∈ phase_requests ->
    key_From key <> NoState /\ tr_To t = expectedInProgressState (key_Event key))). by_eval.
Qed.

Lemma request_table event st t : event ∈ phase_requests -> t ∈ table_lookup (mkKey st event) ->
  st <> NoState /\ tr_To t = expectedInProgressState event.
Proof. intros He Ht. exact (request_entry _ _ Ht He). Qed.

Definition error_state (from : State) : State :=
  if decide (from = StatePlanning) then StateLoaded
  else if decide (from = StateImplementing) then StatePlanned else StateImplemented.

Lemma error_entry key t : t ∈ table_lookup key ->
  key_Event key = EventError /\ key_From key ∈ agent_states -> tr_To t = error_state (key_From key).
Proof.
  revert key t. apply (table_forall (fun key t => key_Event key = EventError /\ key_From key ∈ agent_states ->
    tr_To t = error_state (key_From key))). by_eval.
Qed.

Lemma error_table from t :
  bool_decide (from ∈ agent_states) = true -> t ∈ table_lookup (mkKey from EventError) ->
  tr_To t = error_state from.
Proof. intros Hf%bool_decide_eq_true Ht. by apply (error_entry _ _ Ht). Qed.

(** C5: a request to plan, run alone and whatever the environment answers, never
    blocks or panics.  It is granted exactly from a state the table plans from,
    with the guards passed, and then one graph watcher is started; otherwise the
    machine is in the state it was in and nothing is started, also when a
    guardrail stops the request after the transition. *)
Theorem Plan_spec env s :
  risk_based = false -> has_task s -> no_stale_prior [StateLoaded] s ->
  request_outcome EventPlan StatePlanning (fun id => GoWatchGraph id EventPlanDone) eq s
    (exec env Plan (at_rest s)).
Proof.
  intros Hr Hs Hp. apply (request_outcome_intro [StateLoaded]); [done|done| |done| |].
  - intros st t. by apply (request_table EventPlan), (bool_decide_unpack _).
  - intros st t' ->%list_elem_of_singleton Ht'. by rewrite (error_table StatePlanning t' eq_refl Ht').
  - by apply wp_Plan.
Qed.

(** a request to implement, in the same way, with a job watcher; when it is
    refused after the transition and came from [loaded], the machine ends in
    [planned]: the table's error transition, since no state was recorded. *)
Theorem Implement_spec env s :
  risk_based = false -> has_task s -> no_stale_prior [StateLoaded; StatePlanned] s ->
  request_outcome EventImplement StateImplementing (fun id => GoWatchJob id EventImplementDone)
    (fun st st' => st' = st \/ st = StateLoaded /\ st' = StatePlanned) s
    (exec env Implement (at_rest s)).
Proof.
  intros Hr Hs Hp. apply (request_outcome_intro [StateLoaded; StatePlanned]);
    [done|done| |by left| |].
  - intros st t. by apply (request_table EventImplement), (bool_decide_unpack _).
  - intros st t' Hst Ht'. rewrite (error_table StateImplementing t' eq_refl Ht').
    apply elem_of_cons in Hst as [->| ->%list_elem_of_singleton]; [by right|by left].
  - by apply wp_Implement.
Qed.

(** the two optional passes, in the same way; a refused request leaves the
    machine in the state it was in. *)
Theorem optional_phase_spec env s :
  has_task s -> no_stale_prior [StateImplemented] s ->
  request_outcome EventSimplify StateSimplifying (fun id => GoWatchJob id EventSimplifyDone) eq s
    (exec env Simplify (at_rest s)) /\
  request_outcome EventOptimize StateOptimizing (fun id => GoWatchJob id EventOptimizeDone) eq s
    (exec env Optimize (at_rest s)).
Proof.
  intros Hs Hp. split; (apply (request_outcome_intro [StateImplemented]); [done|done| |done| |]).
  - intros st t. by apply (request_table EventSimplify), (bool_decide_unpack _).
  - intros st t' ->%list_elem_of_singleton Ht'. by rewrite (error_table StateSimplifying t' eq_refl Ht').
  - apply wp_optional_phase; [by apply (bool_decide_unpack _)|done].
  - intros st t. by apply (request_table EventOptimize), (bool_decide_unpack _).
  - intros st t' ->%list_elem_of_singleton Ht'. by rewrite (error_table StateOptimizing t' eq_refl Ht').
  - apply wp_optional_phase; [by apply (bool_decide_unpack _)|done].
Qed.
End specs.

(** ** Runs of the simulation *)

#[local] Instance run_config : Config := sim_settings.
#[local] Existing Instance sim_env.

(** A conductor that is not asked for is in no state to roll back to. *)
Lemma sim_has_task st : has_task (sim_ctl st).
Proof. split; [by eexists|done]. Qed.

Lemma Plan_spec_witness :
  request_outcome EventPlan StatePlanning (fun id => GoWatchGraph id EventPlanDone) eq
    (sim_ctl StateImplemented) (exec sim_answer Plan (at_rest (sim_ctl StateImplemented))) /\
  is_ok (match (exec sim_answer Plan (at_rest (sim_ctl StateImplemented))).2 with
         | Done r => r | _ => Err "" end) = true.
Proof.
  split; [|by vm_compute]. by apply Plan_spec; [done|apply sim_has_task|].
Defined.

Lemma Implement_spec_witness :
  request_outcome EventImplement StateImplementing (fun id => GoWatchJob id EventImplementDone)
    (fun st st' => st' = st \/ st = StateLoaded /\ st' = StatePlanned)
    (sim_ctl StateLoaded) (exec sim_pool_full Implement (at_rest (sim_ctl StateLoaded))) /\
  state (machine (cd (shared (exec sim_pool_full Implement (at_rest (sim_ctl StateLoaded))).1))) = StatePlanned.
Proof.
  split; [|by vm_compute]. by apply Implement_spec; [done|apply sim_has_task|].
Defined.

Lemma optional_phase_spec_witness :
  request_outcome EventSimplify StateSimplifying (fun id => GoWatchJob id EventSimplifyDone) eq
    (sim_ctl StateImplemented) (exec sim_answer Simplify (at_rest (sim_ctl StateImplemented))) /\
  request_outcome EventOptimize StateOptimizing (fun id => GoWatchJob id EventOptimizeDone) eq
    (sim_ctl StateImplemented) (exec sim_answer Optimize (at_rest (sim_ctl StateImplemented))).
Proof. apply optional_phase_spec; [apply sim_has_task|done]. Defined.
