(* ===== verification/PhaseEnds.v ===== *)
(** * How a phase ends

    The specifications of [job_events], the receive loop of [watchJob], and of
    [handleGraphCompletion] when nothing runs in between: the phase is completed,
    or rolled back, or handed to the failure policy; and what the retries of the
    policy, of the iteration strategy and of the router come to: they submit the phase
    again while the machine is still in it, which the table refuses. *)

From S2P Require Import Prelude Floats WorkUnit Transitions Machine Persist Interfaces Conductor.
From S2P Require Import Progress Errors VarPool Findings FailClass Policy RespCache Proc ProcWp.
From S2P Require Import PhaseCtl PhaseJobs PhaseWatch PhaseFinish PhaseCalm PhaseGate PhaseSubmit PhaseLocks.
From S2P Require Import PhaseRuns PhaseSim.
From S2P Require Pool.

(** Where the table leads from [st] on [event], for events without guards. *)
Definition event_target (event : Event) (st : State) : State :=
  match table_lookup (mkKey st event) with [t] => tr_To t | _ => st end.

Definition error_target (m : Machine) : State :=
  match table_lookup (mkKey (state m) EventError) with
  | [_] => if decide (priorStableState m = NoState) then event_target EventError (state m)
           else priorStableState m
  | _ => state m
  end.

Definition done_events : list Event := [EventPlanDone; EventImplementDone; EventSimplifyDone; EventOptimizeDone].

(** Completions and errors have no guards. *)
Lemma end_entry key t : t ∈ table_lookup key ->
  key_Event key ∈ EventError :: done_events -> length (tr_Guards t) = 0.
Proof.
  revert key t. apply (table_forall (fun key t => key_Event key ∈ EventError :: done_events ->
    length (tr_Guards t) = 0)). by_eval.
Qed.

Lemma dispatch_end now event m :
  event ∈ EventError :: done_events ->
  let m' := (Dispatch now event m).1 in
  state m' = (if decide (event = EventError) then error_target m else event_target event (state m)) /\
  (history m' = history m /\ table_lookup (mkKey (state m) event) = [] \/
   history m' = history m ++ [mkHistoryEntry (state m) (state m') event now]) /\
  (guard_view <$> workUnit m') = (guard_view <$> workUnit m).
Proof.
  intros He m'. subst m'. destruct (Dispatch now event m) as [m' r] eqn:Ed. simpl.
  assert (Hv : forall t, t ∈ table_lookup (mkKey (state m) event) ->
    is_Some (valid_transition (workUnit m) (table_lookup (mkKey (state m) event)))).
  { intros t Ht. eapply valid_transition_exists; [exact Ht|].
    by rewrite (nil_length_inv _ (end_entry _ _ Ht He)). }
  apply Dispatch_inv in Ed as [(e & -> & -> & Hn)|(t & -> & Ht & _ & _ & Hst & Hh & Hu & _)].
  - destruct (table_singleton (mkKey (state m) event)) as [E|[t E]].
    + unfold error_target, event_target. split_and!; [|by left|done].
      case_decide as Hd; [rewrite Hd in E|]; by rewrite E.
    + destruct (Hv t) as [? Hx]; [rewrite E; by left|congruence].
  - destruct (table_singleton (mkKey (state m) event)) as [E|[u E]]; rewrite E in Ht;
      [by apply not_elem_of_nil in Ht|]. apply list_elem_of_singleton in Ht as ->.
    rewrite Hst, Hh, Hu. split_and!; [|by right|by destruct (workUnit m)].
    unfold dispatch_target, error_target, event_target.
    destruct (decide (event = EventError)) as [Hd|Hd].
    + subst event. rewrite E. destruct (decide (priorStableState m = NoState)).
      * by rewrite decide_False by tauto.
      * by rewrite decide_True by auto.
    + rewrite E. rewrite decide_False; [done|]. intros [[-> | ->] _]; [done|]. revert He.
      apply (bool_decide_unpack _). by vm_compute.
Qed.

#[export] Instance wu_ID_bookkeeping : Bookkeeping wu_ID.
Proof. done. Qed.

Definition implemented {W} (s : Ctl W) : Prop := exists wu, cd_workUnit (cd s) = Some wu /\ wu_HasImplemented wu = true.

(** What drives the phases, apart from the machine. *)
Definition policies {W} (s : Ctl W) :=
  (autoAdvance s, strategy s, phaseStrategies s, phasePolicies s, router s).

(** Since [s] the machine has not moved, and no job is in progress. *)
Definition unmoved {W} (s s1 : Ctl W) : Prop :=
  has_task s1 /\ activeJobID (cd s1) = "" /\ policies s1 = policies s /\
  state (machine (cd s1)) = state (machine (cd s)) /\
  history (machine (cd s1)) = history (machine (cd s)) /\
  priorStableState (machine (cd s1)) = priorStableState (machine (cd s)).

Section ends.
Context {W : Type} {HG : Git W} {HJ : JobControl W} {HT : TaskFiles W} {HC : Config} {HE : Env}.
Notation cproc := (@proc (Ctl W) question call answer).
Implicit Types (s : Ctl W) (l : rwlock).

Lemma unmoved_along {V} (view : WorkUnit -> V) `{!Bookkeeping view} s s1 s2 :
  unmoved s s1 -> same_core view s1 s2 -> unmoved s s2.
Proof.
  intros (Ht & Ha & Hp & Es & Eh & Ep) HR. pose proof (same_core_task _ _ _ HR Ht).
  unfold same_core, core in HR. unfold unmoved, policies in *. simplify_eq. split_and!; congruence.
Qed.

Lemma implemented_along s1 s2 : implemented s1 -> same_core guard_view s1 s2 -> implemented s2.
Proof.
  intros (wu & Hwu & Hi) HR. apply same_core_state in HR as (_ & _ & _ & _ & Eu). rewrite Hwu in Eu.
  destruct (cd_workUnit (cd s2)) as [wu2|] eqn:E; [|done]. apply (inj Some) in Eu. exists wu2.
  unfold guard_view in Eu. split; [done|]. congruence.
Qed.

(** The state after the end of the phase by [event]. *)
Definition moved_by (event : Event) s s2 : Prop :=
  has_task s2 /\ activeJobID (cd s2) = "" /\ policies s2 = policies s /\
  let m := machine (cd s) in let m2 := machine (cd s2) in
  state m2 = (if decide (event = EventError) then error_target m else event_target event (state m)) /\
  ((history m2 = history m /\ table_lookup (mkKey (state m) event) = []) \/
   exists now, history m2 = history m ++ [mkHistoryEntry (state m) (state m2) event now]).

Lemma moved_along {V} (view : WorkUnit -> V) `{!Bookkeeping view} event s s1 s2 :
  moved_by event s s1 -> same_core view s1 s2 -> moved_by event s s2.
Proof.
  intros (Ht & Ha & Hp & Es & Eh) HR. pose proof (same_core_task _ _ _ HR Ht) as Ht2.
  unfold same_core, core in HR. unfold moved_by, policies in *. simplify_eq.
  split_and!; try congruence. destruct Eh as [[Eh El]|[now Eh]]; [left|right; exists now]; [split|]; congruence.
Qed.

Lemma wp_dispatch_end wait event s s1 l (Post : result string unit -> Ctl W -> rwlock -> list call -> Prop) :
  event ∈ EventError :: done_events -> unmoved s s1 ->
  (forall r s2, moved_by event s s2 -> (implemented s1 -> implemented s2) -> Post r s2 l []) ->
  wp wait (dispatches event : cproc _) s1 l Post.
Proof.
  intros He (Ht & Ha & Hp & Es & Eh & Ep) HPost now. simpl.
  pose proof (dispatch_end now event (machine (cd s1)) He) as (Est & Ehi & Hu).
  destruct (Dispatch now event (machine (cd s1))) as [m r]. simpl in *.
  destruct Ht as [[wu1 Hwu1] Hv]. unfold cd_workUnit in Hwu1. rewrite Hwu1 in Hu.
  destruct (workUnit m) as [wu2|] eqn:E2; [|done]. apply (inj Some) in Hu.
  apply HPost.
  - unfold moved_by. cbv zeta. split_and!; [split; [by exists wu2|done]|done|done| |]; simpl.
    + rewrite Est. unfold error_target. by rewrite Es, Ep.
    + rewrite <- Es, <- Eh. destruct Ehi as [|Ehi]; [by left|right; by exists now].
  - intros (wu & Hwu & Hi). exists wu2. unfold cd_workUnit in *. simpl. split; [done|].
    unfold guard_view in Hu. congruence.
Qed.

(** ** The pieces *)

Notation calm_ID := (calm False (has_task (W := W)) (same_core wu_ID) quiet).
Notation wp := (wp False).

(** Runs a calm part; [H] follows the state along it. *)
Ltac calmly_along view L H :=
  eapply (wp_calm False has_task (same_core view) quiet);
    [solve [eauto with calm | check_calm; calm_access] | exact (proj1 H) |];
  let a := fresh "a" in let s := fresh "s" in let new := fresh "new" in
  let HR := fresh "HR" in let Hs := fresh "Hs" in let Hq := fresh "Hq" in
  let H' := fresh "H" in
  intros a s new HR Hs Hq; pose proof (L _ _ _ H HR) as H'; clear H Hs HR; rename H' into H; cbn beta.

Lemma wp_complete_phase event metrics s s1 :
  event ∈ done_events -> unmoved s s1 ->
  calm False (has_task (W := W)) (same_core guard_view) quiet WriteHeld metrics WriteHeld ->
  wp (complete_phase event metrics : cproc unit) s1 WriteHeld (fun _ s' l' new =>
    l' = WriteHeld /\ Forall quiet new /\ moved_by event s s' /\
    (event = EventImplementDone -> implemented s')).
Proof.
  intros He Hun Hm. pose proof Hun as (Ht & Ha & Hp & Es & Eh & _). unfold complete_phase.
  set (s2 := if decide (event = EventImplementDone)
             then upd_cd (upd_workUnit (fun wu => wu <| wu_HasImplemented := true |>)) s1 else s1).
  assert (Hs2 : has_task s2 /\ activeJobID (cd s2) = "" /\ policies s2 = policies s /\
    state (machine (cd s2)) = state (machine (cd s)) /\
    history (machine (cd s2)) = history (machine (cd s)) /\
    (event = EventImplementDone -> implemented s2)).
  { subst s2. destruct (decide _) as [->|Hn]; [|done]. destruct Ht as [[wu Hwu] Hv].
    unfold implemented, has_task, cd_workUnit in *. simpl. rewrite ?Hwu. split_and!; try done; by eexists. }
  apply wp_bind. assert (Hw : forall P : unit -> Ctl W -> rwlock -> list call -> Prop, P tt s2 WriteHeld [] ->
    wp (if decide (event = EventImplementDone)
        then write_unit (fun wu => wu <| wu_HasImplemented := true |>) else Ret tt : cproc _) s1 WriteHeld P).
  { intros P HP. subst s2. destruct (decide _); [|done]. destruct Ht as [[wu Hwu] Hv].
    unfold write_unit, the_unit. cbn. by rewrite Hwu. }
  apply Hw. clear Hw. clearbody s2. destruct Hs2 as (Ht2 & Ha2 & Hp2 & Es2 & Eh2 & Hi2).
  apply wp_bind, wp_clear_prior. set (s3 := with_machine _ s2).
  assert (Hun3 : unmoved s3 s3) by done.
  apply wp_bind. eapply wp_mono; [by apply Hm|]. intros _ s4 l4 new4 (HR & -> & Hq4).
  pose proof (unmoved_along guard_view _ _ _ Hun3 HR) as Hun4.
  apply wp_bind. eapply wp_dispatch_end; [by right|exact Hun4|]. intros _ s5 Hmv Himp.
  eapply wp_mono; [apply (calm_persists guard_view), Hmv|]. intros _ s6 l6 new6 (HR6 & -> & Hq6).
  split_and!; [done|by_quiet| |].
  - apply (moved_along guard_view _ _ _ _ Hmv) in HR6. unfold moved_by in *.
    assert (Hne : event <> EventError) by (intros ->; revert He; apply (bool_decide_unpack _); by vm_compute).
    destruct HR6 as (Ht6 & Ha6 & Hp6 & Hst6 & Hh6). rewrite decide_False in Hst6 |- * by done.
    change (state (machine (cd s3))) with (state (machine (cd s2))) in *.
    change (history (machine (cd s3))) with (history (machine (cd s2))) in *.
    change (policies s3) with (policies s2) in *. rewrite Es2 in *. rewrite Eh2, Hp2 in *. done.
  - intros He'. eapply implemented_along; [|exact HR6]. apply Himp. eapply implemented_along; [|exact HR].
    by apply Hi2.
Qed.

Definition runs_direct event s : Prop := resolveStrategy (phaseFromEvent event) s = Direct.

Lemma runs_direct_along event s s1 : runs_direct event s -> policies s1 = policies s -> runs_direct event s1.
Proof.
  unfold runs_direct, resolveStrategy, policies. intros Hd Hp.
  assert (phaseStrategies s1 = phaseStrategies s /\ strategy s1 = strategy s) as [-> ->] by (split; congruence).
  done.
Qed.

Ltac calmly_ID H := calmly_along wu_ID (unmoved_along wu_ID) H.

Notation drivers new := (filter (fun t => drives_phase t = true) new).

Lemma wp_evaluateAndMaybeIterate event output s s1 :
  unmoved s s1 ->
  wp (evaluateAndMaybeIterate event output : cproc _) s1 Unheld (fun r s' l' new =>
    l' = Unheld /\ unmoved s s' /\ (runs_direct event s -> r = false) /\
    if r : bool then drivers new = [GoResubmit (phaseFromEvent event)] else Forall quiet new).
Proof.
  intros Hun. unfold evaluateAndMaybeIterate. cbv zeta. case_decide; [by apply wp_ret|].
  eapply wp_bind, wp_lock; [done|]. apply wp_bind, wp_act, wp_ret. cbn beta.
  eapply wp_bind, wp_unlock; [done|]. cbn beta.
  assert (Hd : runs_direct event s -> resolveStrategy (phaseFromEvent event) s1 = Direct).
  { intros Hd. apply (runs_direct_along _ _ s1) in Hd; [done|apply Hun]. }
  destruct (EvaluateOutput _ output) as [marker|] eqn:Ee.
  - do 5 calmly_ID Hun. destruct (_ <=? _)%Z.
    + calmly_ID Hun. apply wp_ret. split_and!; [done|done|done|by_quiet].
    + calmly_ID Hun. cbn. split_and!; [done|done| |].
      * intros Hd'. rewrite Hd in Ee by done. done.
      * rewrite !filter_app, !quiet_filter by done. done.
  - calmly_ID Hun. apply wp_ret. split_and!; [done|done|done|by_quiet].
Qed.

Lemma wp_route event s s1 :
  unmoved s s1 ->
  wp (route event : cproc _) s1 Unheld (fun r s' l' new =>
    r = false /\ l' = Unheld /\ Forall quiet new /\ unmoved s s').
Proof.
  intros Hun. unfold route. apply wp_bind, wp_act, wp_ret. cbn beta.
  destruct (router s1) as [maxRetries|]; [|by apply wp_ret]. unfold applyRouteDecision. cbv zeta.
  do 4 calmly_ID Hun. do 3 (rewrite decide_False by done). apply wp_ret. split_and!; [done|done|by_quiet|done].
Qed.

Lemma wp_evaluate_output event output s s1 :
  unmoved s s1 ->
  wp (evaluate_output event output : cproc _) s1 Unheld (fun r s' l' new =>
    l' = Unheld /\ unmoved s s' /\ (runs_direct event s -> r = false) /\
    if r : bool then drivers new = [GoResubmit (phaseFromEvent event)] else Forall quiet new).
Proof.
  intros Hun. unfold evaluate_output. apply wp_bind. case_decide.
  - apply wp_ret. eapply wp_mono; [by apply wp_route|]. intros r s' l' new (-> & -> & Hq & Hu). done.
  - eapply wp_mono; [by apply wp_evaluateAndMaybeIterate|]. intros [] s2 l2 new2 (-> & Hu2 & Hd & Hq2).
    + apply wp_ret. by rewrite app_nil_r.
    + eapply wp_mono; [by apply wp_route|]. intros r s' l' new (-> & -> & Hq & Hu).
      split_and!; [done|done|done|by_quiet].
Qed.

Lemma wp_maybeAutoAdvance_off event s l (Post : unit -> Ctl W -> rwlock -> list call -> Prop) :
  l = Unheld -> autoAdvance s = false -> Post tt s Unheld [] -> wp (maybeAutoAdvance event : cproc _) s l Post.
Proof. intros -> Ha HP. unfold maybeAutoAdvance. cbn. by rewrite Ha. Qed.

(** ** Jobs *)

Definition completed_by (event : Event) s s2 : Prop :=
  moved_by event s s2 /\ (event = EventImplementDone -> implemented s2).

Lemma completed_along event s s1 s2 :
  completed_by event s s1 -> same_core guard_view s1 s2 -> completed_by event s s2.
Proof.
  intros [Hm Hi] HR. split; [by eapply (moved_along guard_view)|].
  intros He. by eapply implemented_along, HR; apply Hi.
Qed.

Ltac calmly_done H :=
  lazymatch type of H with
  | completed_by _ _ _ =>
      eapply (wp_calm False has_task (same_core guard_view) quiet);
        [solve [eauto with calm | check_calm; calm_access] | exact (proj1 (proj1 H)) |];
      let a := fresh "a" in let s := fresh "s" in let new := fresh "new" in
      let HR := fresh "HR" in let Hs := fresh "Hs" in let Hq := fresh "Hq" in
      let H' := fresh "H" in
      intros a s new HR Hs Hq; pose proof (completed_along _ _ _ _ H HR) as H'; clear H Hs HR;
      rename H' into H; cbn beta
  end.

Lemma wp_after_completion jobID event indexer s s1 :
  completed_by event s s1 -> autoAdvance s = false ->
  wp (after_completion jobID event indexer : cproc unit) s1 WriteHeld (fun _ s' l' new =>
    l' = Unheld /\ Forall quiet new /\ completed_by event s s').
Proof.
  intros Hc Ha. assert (Hoff : forall x, completed_by event s x -> autoAdvance x = false).
  { intros x [(_ & _ & Hp & _) _]. unfold policies in Hp. congruence. }
  unfold after_completion. do 3 calmly_done Hc.
  apply wp_bind, wp_maybeAutoAdvance_off; [done|by apply Hoff|]. cbn. split_and!; [done|by_quiet|done].
Qed.

Definition job_done_events : list Event := [EventImplementDone; EventSimplifyDone; EventOptimizeDone].

(** A loaded task with no job in progress. *)
Lemma unmoved_idle s : has_task s -> unmoved s (upd_cd (fun c => c <| activeJobID := "" |>) s).
Proof. intros Hs. by split_and!. Qed.

Lemma wp_job_completed jobID event s :
  event ∈ job_done_events -> has_task s -> autoAdvance s = false ->
  wp (job_completed jobID event : cproc unit) s Unheld (fun _ s' l' new =>
    l' = Unheld /\
    (completed_by event s s' /\ Forall quiet new \/
     ~ runs_direct event s /\ unmoved s s' /\ drivers new = [GoResubmit (phaseFromEvent event)])).
Proof.
  intros He Hs Ha. assert (Hnp : event <> EventPlanDone).
  { intros ->. revert He. apply (bool_decide_unpack _). by vm_compute. }
  assert (Hde : event ∈ done_events) by by right.
  unfold job_completed. eapply wp_bind, wp_lock; [done|]. apply wp_bind, wp_act, wp_ret. cbn beta.
  pose proof (unmoved_idle s Hs) as Hun. set (s1 := upd_cd _ s) in *.
  apply wp_bind, wp_act. destruct Hs as [[wu Hwu] Hv]. change (cd_workUnit (cd s1)) with (cd_workUnit (cd s)).
  rewrite Hwu. apply wp_ret. cbn beta zeta. rewrite decide_False by done.
  apply wp_bind, wp_ret. cbn [negb]. rewrite decide_False by done. apply wp_bind, wp_ret. cbn beta.
  do 6 calmly_ID Hun.
  apply wp_bind. eapply wp_mono; [by apply wp_evaluate_output|].
  intros [] s8 l8 new8 (-> & Hun8 & Hd8 & Hq8).
  { apply wp_ret. split; [done|]. right. split; [intros Hd; by specialize (Hd8 Hd)|]. split; [done|].
    rewrite !filter_app, !quiet_filter by done. by rewrite Hq8. }
  eapply wp_bind, wp_lock; [done|]. cbn beta. apply wp_bind. eapply wp_mono.
  { apply (wp_complete_phase event _ s); [done|exact Hun8|]. apply (calm_recordPhaseMetrics guard_view). }
  intros _ s9 l9 new9 (-> & Hq9 & Hm & Hi). apply wp_bind, wp_act, wp_ret. cbn beta.
  eapply wp_mono; [by apply (wp_after_completion _ _ _ s)|].
  intros _ s10 l10 new10 (-> & Hq10 & Hc). split; [done|]. left. split; [done|by_quiet].
Qed.

(** ** Failures *)

(** What the failure policy of a phase comes to. *)
Definition gives_up event s : Prop :=
  match phasePolicies s !! phaseFromEvent event with
  | None => True
  | Some p => pp_Policy p = FailurePolicyFail
  end.

Definition may_retry event s : Prop :=
  exists p, phasePolicies s !! phaseFromEvent event = Some p /\ pp_Policy p = FailurePolicyRetry.

Lemma phase_named event : event ∈ done_events -> phaseFromEvent event <> "".
Proof. revert event. apply Forall_forall. by apply (bool_decide_unpack _); vm_compute. Qed.

Lemma wp_policy_gives_up event msg s s1 :
  gives_up event s -> unmoved s s1 ->
  wp (applyFailurePolicy event msg : cproc _) s1 Unheld (fun r s' l' new =>
    r = false /\ l' = Unheld /\ Forall quiet new /\ unmoved s s').
Proof.
  intros Hg Hun. unfold applyFailurePolicy. cbv zeta. case_decide; [by apply wp_ret|].
  do 5 calmly_ID Hun. apply wp_bind, wp_act, wp_ret. cbn beta.
  assert (Hp : forall x, unmoved s x -> phasePolicies x = phasePolicies s).
  { intros x (_ & _ & Hp & _). unfold policies in Hp. congruence. }
  rewrite (Hp _ Hun). calmly_ID Hun. unfold gives_up in Hg.
  destruct (phasePolicies s !! phaseFromEvent event) as [p|]; [rewrite Hg|];
    (apply wp_ret; split_and!; [done|done|by_quiet|done]).
Qed.

(** The end of a failure nobody retries. *)
Lemma wp_fail_tail ev (k : cproc unit) s s1 :
  unmoved s s1 -> calm_ID Unheld k Unheld ->
  wp (lock Write;;; dispatches EventError;;; persists;;; unlock Write;;; emits ev;;; k)%proc s1 Unheld
    (fun _ s' l' new => l' = Unheld /\ Forall quiet new /\ moved_by EventError s s').
Proof.
  intros Hun Hk. eapply wp_bind, wp_lock; [done|]. cbn beta.
  apply wp_bind. eapply wp_dispatch_end; [by left|exact Hun|]. intros _ s6 Hm _.
  do 3 calmly_along wu_ID (moved_along wu_ID EventError) Hm.
  eapply wp_mono; [apply Hk, Hm|]. intros _ s9 l9 new9 (HR & -> & Hq9).
  split_and!; [done|by_quiet|]. by eapply (moved_along wu_ID).
Qed.

Lemma wp_job_failed jobID content event s :
  has_task s -> gives_up event s ->
  wp (job_failed jobID content event : cproc unit) s Unheld (fun _ s' l' new =>
    l' = Unheld /\ Forall quiet new /\ moved_by EventError s s').
Proof.
  intros Hs Hg. unfold job_failed. eapply wp_bind, wp_lock; [done|]. apply wp_bind, wp_act, wp_ret. cbn beta.
  pose proof (unmoved_idle s Hs) as Hun. do 4 calmly_ID Hun.
  apply wp_bind. eapply wp_mono; [by apply (wp_policy_gives_up _ _ s)|].
  intros r s5 l5 new5 (-> & -> & Hq5 & Hun5).
  eapply wp_mono; [by apply wp_fail_tail; [exact Hun5|check_calm]|].
  intros _ s' l' new' (-> & Hq' & Hm). split_and!; [done|by_quiet|done].
Qed.

(** A retry is a goroutine of its own, and all the policy does; or the retries
    are used up. *)
Lemma wp_policy_retries event msg s s1 :
  event ∈ done_events -> may_retry event s -> unmoved s s1 ->
  wp (applyFailurePolicy event msg : cproc _) s1 Unheld (fun r s' l' new =>
    l' = Unheld /\ unmoved s s' /\
    if r : bool then drivers new = [GoRetry (phaseFromEvent event)]
    else Forall quiet new).
Proof.
  intros He (p & Ep & Hpol) Hun. unfold applyFailurePolicy. cbv zeta. rewrite decide_False by by apply phase_named.
  do 5 calmly_ID Hun. apply wp_bind, wp_act, wp_ret. cbn beta.
  assert (Hp : forall x, unmoved s x -> phasePolicies x = phasePolicies s).
  { intros x (_ & _ & Hx & _). unfold policies in Hx. congruence. }
  rewrite (Hp _ Hun). calmly_ID Hun. rewrite Ep, Hpol. do 4 calmly_ID Hun.
  destruct (_ <=? _)%Z.
  - calmly_ID Hun. cbn. split_and!; [done|done|]. rewrite !filter_app, !quiet_filter by done. done.
  - do 3 calmly_ID Hun. apply wp_ret. split_and!; [done|done|by_quiet].
Qed.

Lemma wp_job_failed_retry jobID content event s :
  event ∈ done_events -> has_task s -> may_retry event s ->
  wp (job_failed jobID content event : cproc unit) s Unheld (fun _ s' l' new =>
    l' = Unheld /\
    (moved_by EventError s s' /\ Forall quiet new \/
     unmoved s s' /\ drivers new = [GoRetry (phaseFromEvent event)])).
Proof.
  intros He Hs Hg. unfold job_failed. eapply wp_bind, wp_lock; [done|]. apply wp_bind, wp_act, wp_ret. cbn beta.
  pose proof (unmoved_idle s Hs) as Hun. do 4 calmly_ID Hun.
  apply wp_bind. eapply wp_mono; [by apply (wp_policy_retries _ _ s)|].
  intros [] s5 l5 new5 (-> & Hun5 & Hf5).
  - apply wp_ret. split; [done|]. right. split; [done|].
    rewrite !filter_app, !quiet_filter by done. by rewrite Hf5.
  - eapply wp_mono; [by apply wp_fail_tail; [exact Hun5|check_calm]|].
    intros _ s' l' new' (-> & Hq' & Hm). split; [done|]. left. split; [done|by_quiet].
Qed.

(** ** The receive loop *)

Lemma moved_from {V} (view : WorkUnit -> V) event s s0 s2 :
  same_core view s s0 -> moved_by event s0 s2 -> moved_by event s s2.
Proof.
  intros HR (Ht & Ha & Hp & Es & Eh). unfold same_core, core in HR. unfold moved_by, policies, error_target in *.
  assert (E : state (machine (cd s0)) = state (machine (cd s)) /\
    history (machine (cd s0)) = history (machine (cd s)) /\
    priorStableState (machine (cd s0)) = priorStableState (machine (cd s))) by (split_and!; congruence).
  destruct E as (E1 & E2 & E3). rewrite E1, E2 in Eh. rewrite E1, E3 in Es. split_and!; try done; congruence.
Qed.

Lemma unmoved_from {V} (view : WorkUnit -> V) s s0 s2 :
  same_core view s s0 -> unmoved s0 s2 -> unmoved s s2.
Proof.
  intros HR (Ht & Ha & Hp & Es & Eh & Ep). unfold same_core, core in HR. unfold unmoved, policies in *.
  split_and!; try done; congruence.
Qed.

Definition ends_job (ev : StreamEvent) : bool :=
  bool_decide (st_Type ev = Pool.EventJobCompleted) || bool_decide (st_Type ev = Pool.EventJobFailed).

(** How a stream ends: by its first terminal event, or without one. *)
Definition stream_post event evs s s' (new : list call) : Prop :=
  match List.find ends_job evs with
  | None => has_task s' /\ state (machine (cd s')) = state (machine (cd s)) /\
            activeJobID (cd s') = activeJobID (cd s) /\ drivers new = []
  | Some ev =>
      if decide (st_Type ev = Pool.EventJobCompleted) then
        completed_by event s s' /\ drivers new = [] \/
        ~ runs_direct event s /\ unmoved s s' /\ drivers new = [GoResubmit (phaseFromEvent event)]
      else moved_by EventError s s' /\ drivers new = []
  end.

Lemma stream_post_from event evs s s0 s' new0 new :
  same_core wu_ID s s0 -> Forall quiet new0 -> stream_post event evs s0 s' new ->
  stream_post event evs s s' (new0 ++ new).
Proof.
  intros HR Hq HP. unfold stream_post in *. rewrite filter_app, (quiet_filter new0) by done. cbn [app].
  pose proof HR as Hst. apply same_core_state in Hst as (Es & _ & _ & Eact & _).
  destruct (List.find ends_job evs) as [ev|]; [|naive_solver congruence].
  destruct (decide (st_Type ev = _)).
  - destruct HP as [[[Hc Hi] Hf]|(Hd & Hu & Hf)].
    + left. split; [|done]. split; [by eapply moved_from|done].
    + right. split_and!; [|by eapply unmoved_from|done]. contradict Hd. eapply runs_direct_along; [done|].
      unfold same_core, core in HR. unfold policies. congruence.
  - destruct HP. split; [by eapply moved_from|done].
Qed.

Lemma stream_post_completed event ev evs s s' new :
  st_Type ev = Pool.EventJobCompleted ->
  completed_by event s s' /\ Forall quiet new \/
  ~ runs_direct event s /\ unmoved s s' /\ drivers new = [GoResubmit (phaseFromEvent event)] ->
  stream_post event (ev :: evs) s s' new.
Proof.
  intros Ec HP. unfold stream_post, ends_job. cbn [List.find].
  rewrite (bool_decide_true (st_Type ev = Pool.EventJobCompleted)) by done. cbn [orb].
  rewrite decide_True by done. destruct HP as [[? ?%quiet_filter]|]; auto.
Qed.

Lemma stream_post_failed event ev evs s s' new :
  st_Type ev = Pool.EventJobFailed -> moved_by EventError s s' -> Forall quiet new ->
  stream_post event (ev :: evs) s s' new.
Proof.
  intros Ef Hm Hq%quiet_filter. unfold stream_post, ends_job. cbn [List.find].
  rewrite (bool_decide_true (st_Type ev = Pool.EventJobFailed)), orb_true_r by done.
  rewrite decide_False by (rewrite Ef; discriminate). done.
Qed.

Lemma stream_post_other event ev evs s s' new :
  ends_job ev = false -> stream_post event evs s s' new -> stream_post event (ev :: evs) s s' new.
Proof. intros He. unfold stream_post. cbn [List.find]. by rewrite He. Qed.

(** The stream stays open after its last event, and none of them ends the job. *)
Definition never_ends (closes : bool) (evs : list StreamEvent) : Prop :=
  closes = false /\ List.find ends_job evs = None.

Lemma never_ends_cons closes ev evs :
  ends_job ev = false -> never_ends closes evs -> never_ends closes (ev :: evs).
Proof. intros He [Hc Hf]. split; [done|]. cbn [List.find]. by rewrite He. Qed.

Lemma wp_job_events jobID event closes evs s :
  event ∈ job_done_events -> has_task s -> autoAdvance s = false -> gives_up event s ->
  ProcWp.wp (never_ends closes evs) (job_events jobID event closes evs : cproc unit) s Unheld
    (fun _ s' l' new => l' = Unheld /\ stream_post event evs s s' new).
Proof.
  intros He. revert s. induction evs as [|ev evs IH]; intros s Hs Ha Hg; cbn [job_events];
    [destruct closes; [by apply wp_ret|done]|].
  do 2 (eapply (wp_calm _ has_task (same_core wu_ID) quiet);
    [apply calm_weaken; check_calm | done |]; intros _ ?s ?new ?HR ?Hs ?Hq).
  pose proof (transitivity HR HR0 : same_core wu_ID s s1) as HR1.
  assert (Hp : autoAdvance s1 = autoAdvance s /\ phasePolicies s1 = phasePolicies s)
    by (unfold same_core, core in HR1; split; congruence).
  destruct Hp as [Ha1 Hp1]. rewrite Ha in Ha1.
  assert (Hg1 : gives_up event s1) by (unfold gives_up; by rewrite Hp1).
  assert (Hfrom : forall s' new1, stream_post event (ev :: evs) s1 s' new1 ->
    stream_post event (ev :: evs) s s' (new ++ new0 ++ new1)).
  { intros s' new1 HP. rewrite app_assoc. apply (stream_post_from _ _ s s1); [done|by_quiet|done]. }
  destruct (decide (st_Type ev = _)) as [Ec|Ec]; [|destruct (decide (st_Type ev = _)) as [Ef|Ef]].
  - apply (wp_weaken False); [done|]. eapply wp_mono; [by apply wp_job_completed|].
    intros _ s' l' new1 (-> & HP). split; [done|]. by apply Hfrom, stream_post_completed.
  - apply (wp_weaken False); [done|]. eapply wp_mono; [by apply wp_job_failed|].
    intros _ s' l' new1 (-> & Hq1 & Hm). split; [done|]. by apply Hfrom, stream_post_failed.
  - assert (Hne : ends_job ev = false) by (unfold ends_job; by rewrite !bool_decide_false).
    eapply wp_weaken; [by apply never_ends_cons|]. eapply wp_mono; [by apply IH|].
    intros _ s' l' new1 (-> & HP). split; [done|]. by apply Hfrom, stream_post_other.
Qed.

End ends.

(** C8: what the receive loop of a job comes to, alone and whatever the
    environment answers, with auto-advance off and no retries.  The first
    terminal event decides: a completion moves the machine as the table says,
    clears the job in progress and after [implement] marks the task implemented,
    unless the strategy asks for another iteration; a failure rolls back.  A
    stream that closes without a terminal event leaves the phase in progress,
    and one that stays open is waited for. *)
Theorem job_events_spec {W : Type} {HG : Git W} {HJ : JobControl W} {HT : TaskFiles W} {HC : Config} {HE : Env}
    env jobID event closes evs (s : Ctl W) :
  event ∈ job_done_events -> has_task s -> autoAdvance s = false -> gives_up event s ->
  let r := exec env (job_events jobID event closes evs) (at_rest s) in
  match r.2 with
  | Done _ => held_lock r.1 = Unheld /\ stream_post event evs s (shared r.1) (spawned r.1)
  | Waiting => never_ends closes evs
  | Blocked | Crashed => False
  end.
Proof.
  intros He Hs Ha Hg r. pose proof (wp_job_events jobID event closes evs s He Hs Ha Hg) as Hw.
  apply (wp_exec _ env _ (at_rest s)) in Hw. fold r in Hw. destruct r.2; [|done..].
  destruct Hw as (new & Hnew & -> & HP). simpl in Hnew. by rewrite Hnew.
Qed.

(** ** Retries

    The retries of the failure policy, of the iteration strategy and of the
    router all submit the phase again while the machine is still in it, which
    the table refuses: nothing is started, and no job is in progress. *)

Section again.
Context {W : Type} {HG : Git W} {HJ : JobControl W} {HT : TaskFiles W} {HC : Config} {HE : Env}.
Notation cproc := (@proc (Ctl W) question call answer).
Notation calm_ID := (calm False (has_task (W := W)) (same_core wu_ID) quiet).
Notation wp := (wp False).
Notation drivers new := (filter (fun t => drives_phase t = true) new).
Implicit Types (s : Ctl W) (l : rwlock).

Definition unchanged s s' (new : list call) : Prop :=
  has_task s' /\ state (machine (cd s')) = state (machine (cd s)) /\ drivers new = [].

Lemma in_progress_entry event : event ∈ phase_requests ->
  table_lookup (mkKey (expectedInProgressState event) event) = [].
Proof.
  intros He. apply nil_length_inv. revert event He. apply Forall_forall.
  by apply (bool_decide_unpack _); vm_compute.
Qed.

Lemma refused_again normal event watch s r s' new :
  event ∈ phase_requests -> state (machine (cd s)) = expectedInProgressState event ->
  request_post normal event watch s r s' new -> unchanged s s' new.
Proof.
  intros He Est (Hs' & Hr). pose proof (in_progress_entry _ He) as Hnone. rewrite <- Est in Hnone.
  destruct r as [id|e].
  - destruct Hr as (_ & (t & now & Ht & _) & _). rewrite Hnone in Ht. by apply not_elem_of_nil in Ht.
  - destruct Hr as (Hq & [Hst|(t & t' & Ht & _)]).
    + split_and!; [done|done|by apply quiet_filter].
    + rewrite Hnone in Ht. by apply not_elem_of_nil in Ht.
Qed.

Context (no_risk : risk_based = false).

Lemma unchanged_along s s1 s2 new new' :
  unchanged s s1 new -> same_core wu_ID s1 s2 -> Forall quiet new' -> unchanged s s2 (new ++ new').
Proof.
  intros (Ht & Est & Hd) HR Hq. pose proof (same_core_task _ _ _ HR Ht).
  apply same_core_state in HR as (Es & _). split_and!; [done|congruence|].
  by rewrite filter_app, Hd, (quiet_filter new').
Qed.

(** Requested with its error dropped, and with its error reported. *)
Lemma wp_request_dropped {A} (p : cproc (result string A)) s :
  wp p s Unheld (fun _ s' l' new => l' = Unheld /\ unchanged s s' new) ->
  wp (discard p) s Unheld (fun _ s' l' new => l' = Unheld /\ unchanged s s' new).
Proof.
  intros Hp. apply wp_bind. eapply wp_mono; [exact Hp|]. intros a s' l' new (-> & Hu). cbn.
  by rewrite app_nil_r.
Qed.

Lemma wp_request_reported {A} (p : cproc (result string A)) (report : option string -> cproc unit) s :
  wp p s Unheld (fun _ s' l' new => l' = Unheld /\ unchanged s s' new) ->
  (forall e, calm_ID Unheld (report e) Unheld) ->
  wp (let* e := only_error p in report e)%proc s Unheld (fun _ s' l' new => l' = Unheld /\ unchanged s s' new).
Proof.
  intros Hp Hk. unfold only_error. do 2 apply wp_bind. eapply wp_mono; [exact Hp|].
  intros a s1 l1 new1 (-> & Hu). apply wp_ret. eapply wp_mono; [apply Hk, Hu|].
  intros _ s2 l2 new2 (HR & -> & Hq). split; [done|]. rewrite app_nil_r. by eapply unchanged_along.
Qed.

Lemma wp_refused event normal watch (p : cproc (result string string)) s :
  event ∈ phase_requests -> state (machine (cd s)) = expectedInProgressState event ->
  wp p s Unheld (fun r s' l' new => l' = Unheld /\ request_post normal event watch s r s' new) ->
  wp p s Unheld (fun _ s' l' new => l' = Unheld /\ unchanged s s' new).
Proof.
  intros He Est Hp. eapply wp_mono; [exact Hp|]. intros r s' l' new (-> & HP). split; [done|].
  by eapply refused_again.
Qed.

Lemma wp_request_again s :
  has_task s ->
  (state (machine (cd s)) = StatePlanning ->
   wp (Plan : cproc _) s Unheld (fun _ s' l' new => l' = Unheld /\ unchanged s s' new)) /\
  (state (machine (cd s)) = StateImplementing ->
   wp (Implement : cproc _) s Unheld (fun _ s' l' new => l' = Unheld /\ unchanged s s' new)) /\
  (state (machine (cd s)) = StateSimplifying ->
   wp (Simplify : cproc _) s Unheld (fun _ s' l' new => l' = Unheld /\ unchanged s s' new)) /\
  (state (machine (cd s)) = StateOptimizing ->
   wp (Optimize : cproc _) s Unheld (fun _ s' l' new => l' = Unheld /\ unchanged s s' new)).
Proof.
  intros Hs. split_and!; intros Est.
  - by eapply (wp_refused EventPlan), wp_Plan; [apply (bool_decide_unpack _)|..].
  - by eapply (wp_refused EventImplement), wp_Implement; [apply (bool_decide_unpack _)|..].
  - by eapply (wp_refused EventSimplify), wp_optional_phase; [apply (bool_decide_unpack _)|..|apply (bool_decide_unpack _)|].
  - by eapply (wp_refused EventOptimize), wp_optional_phase; [apply (bool_decide_unpack _)|..|apply (bool_decide_unpack _)|].
Qed.

Lemma wp_again event s :
  event ∈ phase_requests -> has_task s -> state (machine (cd s)) = expectedInProgressState event ->
  wp (resubmit event : cproc unit) s Unheld (fun _ s' l' new => l' = Unheld /\ unchanged s s' new) /\
  wp (dispatchAutoAdvance event : cproc unit) s Unheld (fun _ s' l' new => l' = Unheld /\ unchanged s s' new).
Proof.
  intros He Hs Est. destruct (wp_request_again s Hs) as (HP & HI & HS & HO).
  assert (Hnop : forall A (a : A), wp (Ret a : cproc A) s Unheld (fun _ s' l' new => l' = Unheld /\ unchanged s s' new))
    by done.
  assert (Hrep : forall ph e, calm_ID Unheld (match e with None => Ret tt | Some e =>
    emits_state "auto_advance_failed" ("Auto-advance to " +:+ ph +:+ " failed: " +:+ e) end : cproc unit) Unheld)
    by (intros; check_calm).
  split.
  - unfold resubmit. apply wp_bind, wp_act, wp_ret. cbn beta. destruct (closed (cd s)); [apply Hnop|].
    repeat (case_decide; subst; [apply wp_request_dropped; auto|]). apply Hnop.
  - unfold dispatchAutoAdvance. cbv zeta.
    repeat (case_decide; subst; [first [apply wp_request_reported; by auto | exfalso; revert He;
      apply (bool_decide_unpack _); by vm_compute]|]). apply Hnop.
Qed.
End again.

Lemma phase_of_event event : event ∈ done_events -> phaseFromEvent event ∈ phase_requests.
Proof. revert event. apply Forall_forall. by apply (bool_decide_unpack _); vm_compute. Qed.

(** while a phase is in progress, every goroutine that submits it again (an
    iteration, a retry of the failure policy, a retry of the router) is refused,
    whatever the environment answers: it ends with the machine as it was, and no
    watcher is started. *)
Theorem resubmission_refused {W : Type} {HG : Git W} {HJ : JobControl W} {HT : TaskFiles W} {HC : Config}
    {HE : Env} encode decode env event t (s : Ctl W) :
  risk_based = false -> event ∈ phase_requests -> has_task s ->
  state (machine (cd s)) = expectedInProgressState event ->
  t ∈ [GoResubmit event; GoRetry event; GoRoute event] ->
  let r := exec env (body encode decode t) (at_rest s) in
  r.2 = Done tt /\ held_lock r.1 = Unheld /\
  state (machine (cd (shared r.1))) = state (machine (cd s)) /\
  filter (fun t => drives_phase t = true) (spawned r.1) = [].
Proof.
  intros Hr He Hs Est Ht r.
  assert (Hw : wp False (body encode decode t : @proc (Ctl W) question call answer unit) s Unheld
    (fun _ s' l' new => l' = Unheld /\ unchanged s s' new)).
  { destruct (wp_again Hr event s He Hs Est) as [H1 H2].
    apply elem_of_cons in Ht as [->|[->|[->|[]%not_elem_of_nil]%elem_of_cons]%elem_of_cons]; cbn [body];
      [done|done|]. unfold route_phase. apply wp_bind, wp_act, wp_ret. cbn beta.
    by destruct (closed (cd s)). }
  apply (wp_exec _ env _ (at_rest s)) in Hw. fold r in Hw. destruct r.2 as [[]| | |]; [|done..].
  destruct Hw as (new & Hnew & -> & _ & Hst & Hd). simpl in Hnew. by rewrite Hnew.
Qed.

(** C16: a failure under the retry policy either rolls the phase back, the
    retries used up, or it leaves the task stranded: the machine is still in the
    phase, no job is in progress, and the retry it starts is refused. *)
Theorem retry_strands_task {W : Type} {HG : Git W} {HJ : JobControl W} {HT : TaskFiles W} {HC : Config}
    {HE : Env} encode decode env env' jobID content event (s : Ctl W) :
  risk_based = false -> event ∈ done_events -> has_task s -> may_retry event s ->
  state (machine (cd s)) = expectedInProgressState (phaseFromEvent event) ->
  let r := exec env (job_failed jobID content event) (at_rest s) in
  let r' := exec env' (body encode decode (GoRetry (phaseFromEvent event))) (at_rest (shared r.1)) in
  let drivers l := filter (fun t => drives_phase t = true) l in
  r.2 = Done tt /\ activeJobID (cd (shared r.1)) = "" /\
  (state (machine (cd (shared r.1))) = error_target (machine (cd s)) /\ drivers (spawned r.1) = [] \/
   drivers (spawned r.1) = [GoRetry (phaseFromEvent event)] /\
   r'.2 = Done tt /\ state (machine (cd (shared r'.1))) = state (machine (cd s)) /\
   drivers (spawned r'.1) = []).
Proof.
  intros Hrisk He Hs Hm Est r r' drivers. pose proof (wp_job_failed_retry jobID content event s He Hs Hm) as Hw.
  apply (wp_exec _ env _ (at_rest s)) in Hw. fold r in Hw. destruct r.2 as [[]| | |]; [|done..].
  destruct Hw as (new & Hnew & _ & HP). simpl in Hnew. rewrite Hnew. subst drivers; cbn beta.
  destruct HP as [((Ht & Ha & _ & Hst & _) & Hq)|[(Ht & Ha & _ & Hst & _) Hf]]; (split; [done|]); (split; [done|]).
  - left. split; [exact Hst|by apply quiet_filter].
  - right. split; [done|].
    assert (Hph : phaseFromEvent event ∈ phase_requests).
    { by apply phase_of_event. }
    destruct (wp_again Hrisk (phaseFromEvent event) (shared r.1) Hph Ht) as [_ H2]; [congruence|].
    apply (wp_exec _ env' _ (at_rest (shared r.1))) in H2. cbn [body] in r'. fold r' in H2.
    destruct r'.2 as [[]| | |]; [|done..]. destruct H2 as (new' & Hnew' & _ & _ & Hst' & Hd'). simpl in Hnew'.
    rewrite Hnew'. split_and!; [done|congruence|done].
Qed.

Lemma implement_refused {W : Type} {HG : Git W} {HJ : JobControl W} {HT : TaskFiles W} {HC : Config}
    {HE : Env} env (s : Ctl W) :
  risk_based = false -> has_task s ->
  (CanDispatch EventImplement (machine (cd s))).1 = false ->
  exists e, (exec env Implement (at_rest s)).2 = Done (Err e).
Proof.
  intros Hr Hs Hno. pose proof (wp_exec False env Implement (at_rest s) _ (wp_Implement Hr s Hs)) as Hw.
  destruct (exec env Implement (at_rest s)) as [c [[id|e]| | |]]; [|by exists e|done..].
  destruct Hw as (new & _ & _ & _ & _ & (t & now & Ht & Hg & _) & _).
  assert ((CanDispatch EventImplement (machine (cd s))).1 = true) by (apply can_dispatch_ok_iff; by exists t).
  congruence.
Qed.

(** *** Runs of the simulation *)


#[local] Instance run_config : Config := sim_settings.
#[local] Existing Instance sim_env.

Definition sim_stream : list StreamEvent :=
  [mkStream "stream" "working"; mkStream Pool.EventJobCompleted "done"].

Lemma job_events_spec_witness :
  let r := exec sim_answer (job_events "job-1" EventImplementDone true sim_stream)
             (at_rest (sim_ctl StateImplementing)) in
  state (machine (cd (shared r.1))) = StateImplemented /\
  match r.2 with
  | Done _ => held_lock r.1 = Unheld /\
      stream_post EventImplementDone sim_stream (sim_ctl StateImplementing) (shared r.1) (spawned r.1)
  | Waiting => never_ends true sim_stream
  | Blocked | Crashed => False
  end.
Proof.
  split; [by vm_compute|]. apply (job_events_spec sim_answer "job-1" EventImplementDone true sim_stream
    (sim_ctl StateImplementing)); [by apply (bool_decide_unpack _)|split; [by eexists|done]|done|done].
Defined.



Lemma resubmission_refused_witness :
  let r := exec sim_answer (body sim_encode sim_decode (GoResubmit EventImplement))
             (at_rest (sim_ctl StateImplementing)) in
  r.2 = Done tt /\ held_lock r.1 = Unheld /\
  state (machine (cd (shared r.1))) = state (machine (cd (sim_ctl StateImplementing))) /\
  filter (fun t => drives_phase t = true) (spawned r.1) = [].
Proof.
  apply (resubmission_refused sim_encode sim_decode sim_answer EventImplement (GoResubmit EventImplement)
    (sim_ctl StateImplementing)); [done|by apply (bool_decide_unpack _)|apply sim_has_task|done|by left].
Defined.

Definition sim_retrying : Ctl SimWorld :=
  sim_ctl StateImplementing
    <| phasePolicies := {[PhaseImplement := mkPhasePolicy FailurePolicyRetry 2%Z 0%Z]} |>.

Lemma retry_strands_task_witness :
  let r := exec sim_answer (job_failed "job-1" "boom" EventImplementDone) (at_rest sim_retrying) in
  let r' := exec sim_answer (body sim_encode sim_decode (GoRetry (phaseFromEvent EventImplementDone)))
              (at_rest (shared r.1)) in
  let drivers l := filter (fun t => drives_phase t = true) l in
  r.2 = Done tt /\ activeJobID (cd (shared r.1)) = "" /\
  (state (machine (cd (shared r.1))) = error_target (machine (cd sim_retrying)) /\ drivers (spawned r.1) = [] \/
   drivers (spawned r.1) = [GoRetry (phaseFromEvent EventImplementDone)] /\
   r'.2 = Done tt /\ state (machine (cd (shared r'.1))) = state (machine (cd sim_retrying)) /\
   drivers (spawned r'.1) = []).
Proof.
  apply (retry_strands_task sim_encode sim_decode sim_answer sim_answer "job-1" "boom" EventImplementDone
    sim_retrying); [done|by apply (bool_decide_unpack _)|split; [by eexists|done]| |done].
  by eexists.
Defined.

(** The stranded outcome is the one this run has. *)
Lemma sim_retry_stranded :
  spawned (exec sim_answer (job_failed "job-1" "boom" EventImplementDone) (at_rest sim_retrying)).1 =
    [GoRetry PhaseImplement] /\
  state (machine (cd (shared (exec sim_answer (job_failed "job-1" "boom" EventImplementDone)
    (at_rest sim_retrying)).1))) = StateImplementing.
Proof. by vm_compute. Qed.

(** A task implemented without a plan, whose job is refused, is left in
    [planned] without specifications; from there it can no longer be
    implemented. *)
Definition sim_unplanned : Ctl SimWorld :=
  sim_ctl_of (sim_conductor StateLoaded ["a"] [] <| machine ::= fun m =>
    m <| workUnit ::= fmap (fun wu => wu <| wu_Specifications := [] |>) |> |>).

Definition after_failed_skip : Ctl SimWorld := shared (exec sim_pool_full Implement (at_rest sim_unplanned)).1.

Lemma after_failed_skip_facts :
  (CanDispatch EventImplement (machine (cd sim_unplanned))).1 = true /\
  state (machine (cd after_failed_skip)) = StatePlanned /\
  (CanDispatch EventImplement (machine (cd after_failed_skip))).1 = false /\
  has_task after_failed_skip.
Proof.
  do 3 (split; [by vm_compute|]). split; [|by vm_compute].
  destruct (cd_workUnit (cd after_failed_skip)) eqn:E; [done|by vm_compute in E].
Qed.

Lemma failed_skip_plan :
  (CanDispatch EventImplement (machine (cd sim_unplanned))).1 = true /\
  state (machine (cd after_failed_skip)) = StatePlanned /\
  forall env, exists e, (exec env Implement (at_rest after_failed_skip)).2 = Done (Err e).
Proof.
  destruct after_failed_skip_facts as (Hcan & Hst & Hno & Ht). do 2 (split; [done|]). intros env.
  by apply implement_refused.
Qed.
