(* ===== verification/PhaseSafety.v ===== *)
(** * Properties of every interleaving of the conductor's calls

    The calls of the interface and the goroutines they start run in any order.
    The lock discipline rules out races on the accesses made under the lock, and
    lock deadlocks, unless risk-based approval is on ([calls_well_locked],
    [risk_approval_deadlock]); the invariant of PhaseInv holds throughout
    ([calls_invariant]), and with it a required phase "review" can never be
    satisfied ([required_review_blocks_submit]). *)

From S2P Require Import Prelude Floats WorkUnit Transitions Machine Persist Interfaces Conductor.
From S2P Require Import Progress Errors VarPool Findings FailClass Policy RespCache Proc ProcLocks ProcWp.
From S2P Require Import PhaseCtl PhaseSim PhaseJobs PhaseWatch PhaseFinish PhaseGate PhaseSubmit PhaseLocks PhaseInv.

Section safety.
Context {W : Type} {HG : Git W} {HJ : JobControl W} {HT : TaskFiles W} {HC : Config} {HE : Env}.
Context (encode : list (string * string) -> string) (decode : string -> option (list (string * string))).
Notation calls := (body encode decode).
Notation cproc := (@proc (Ctl W) question call answer).
Implicit Types (s : Ctl W) (ts : list call).

(** The configurations the calls [ts] reach from [s]. *)
Definition calls_reach s ts (c : config) : Prop := rtc (step calls) (start_config s (calls <$> ts)) c.

Lemma all_bodies_locked ts :
  risk_based = false -> Forall (fun p : cproc unit => well_locked None p None) (calls <$> ts).
Proof. intros Hr. apply Forall_fmap, Forall_forall. intros t _. by apply bodies_locked. Qed.

Lemma answers_inhabited (q : question) : inhabited (answer q).
Proof. exact (inhabits (sim_answer 0 q)). Qed.

Lemma calls_invariant s ts c :
  Forall phase_call ts -> ctl_inv s -> calls_reach s ts c -> ctl_inv (cf_shared c).
Proof.
  intros Hts Hs Hr. eapply (steps_keep ctl_inv phase_call calls); [|..|exact Hs|exact Hr].
  - intros t. apply bodies_keep.
  - apply Forall_fmap. eapply Forall_impl; [exact Hts|]. intros t. apply bodies_keep.
Qed.

Lemma crashing_schedule env schedule s ts :
  option_map cf_crashed (run_schedule calls env 0 schedule (start_config s (calls <$> ts))) = Some true ->
  exists c, calls_reach s ts c /\ cf_crashed c = true.
Proof.
  destruct (run_schedule _ _ _ _ _) as [c|] eqn:E; intros H; simplify_eq/=.
  exists c. split; [by eapply run_schedule_steps|congruence].
Qed.

(** ** Required phases *)

Lemma since_submit_sub e h : e ∈ since_submit h -> e ∈ h.
Proof.
  induction h as [|e0 h IH]; cbn [since_submit]; [done|].
  destruct (existsb _ h); [intros ?; right; auto|]. case_decide; [by right|done].
Qed.

Lemma never_happened h : never_review_done h -> happened EventReviewDone (since_submit h) = false.
Proof.
  intros Hn. apply not_true_is_false. intros (e & Hin & He)%existsb_exists.
  apply bool_decide_eq_true in He. apply list_elem_of_In, since_submit_sub in Hin.
  unfold never_review_done in Hn. rewrite Forall_forall in Hn. by apply (Hn e).
Qed.

Lemma missing_review required h :
  PhaseReview ∈ required -> never_review_done h -> missing_phase required h <> None.
Proof.
  intros Hin Hn Hnone. unfold missing_phase in Hnone.
  eapply List.find_none in Hnone; [|by apply list_elem_of_In].
  assert (phaseEventMap PhaseReview = Some EventReviewDone) as E by done. rewrite E in Hnone.
  by rewrite never_happened in Hnone.
Qed.

(** What comes after a check that fails. *)
Lemma wp_submit_checks_fail s l (Post : option string -> Ctl W -> rwlock -> list call -> Prop) wu :
  cd_workUnit (cd s) = Some wu -> missing_phase (RequiredPhases cfg) (history (machine (cd s))) <> None ->
  (forall e, Post (Some e) s l []) -> wp False (submit_checks : cproc _) s l Post.
Proof.
  intros Hwu Hm HPost. unfold submit_checks, the_unit, work_unit. do 2 apply wp_bind. apply wp_act, wp_ret.
  rewrite Hwu. apply wp_ret. destruct (checkReviewChecklist _ _) as [e|]; [apply wp_ret, HPost|].
  apply wp_bind, wp_act, wp_ret. cbn beta. destruct (missing_phase _ _); [|done]. apply wp_ret, HPost.
Qed.

Lemma submit_missing_phase env b s :
  missing_phase (RequiredPhases cfg) (history (machine (cd s))) <> None ->
  exists e, (exec env (Submit b) (mkLocal s Unheld [] 0)).2 = Done (Err e).
Proof.
  intros Hm. assert (Hw : wp False (Submit b) s Unheld (fun r _ _ _ => exists e, r = Err e)).
  { unfold Submit. eapply wp_bind, wp_lock; [done|]. apply wp_bind. unfold work_unit. apply wp_act, wp_ret.
    destruct (cd_workUnit (cd s)) as [wu|] eqn:Ewu; [|cbn; by eexists].
    apply wp_bind. eapply wp_submit_checks_fail; [exact Ewu|exact Hm|]. intros e. cbn. by exists e. }
  apply (wp_exec _ env _ (mkLocal s Unheld [] 0)) in Hw.
  destruct (exec env (Submit b) _).2; [|done..]. destruct Hw as (_ & _ & e & ->). by exists e.
Qed.

(** ** Risk-based approval *)

Definition risk_approval_on (event : Event) : Prop :=
  exists rba, RiskApproval cfg = Some rba /\ rba_Enabled rba = true /\ event ∈ ApprovalRequired cfg.

Lemma checkApproval_blocks env event s sp n :
  risk_approval_on event ->
  exec env (checkApproval event : cproc _) (mkLocal s WriteHeld sp n) = (mkLocal s WriteHeld sp n, Blocked).
Proof.
  intros (rba & Hr & Hen & Hreq). unfold checkApproval. rewrite bool_decide_true by done. cbn [negb].
  by rewrite Hr, Hen.
Qed.

Lemma check_task_and_pool_passes env ph s l sp n :
  is_Some (cd_workUnit (cd s)) -> hasPool (cd s) = true ->
  exec env (check_task_and_pool ph : cproc _) (mkLocal s l sp n) = (mkLocal s l sp n, Done None).
Proof.
  intros [wu Hwu] Hp. unfold check_task_and_pool. rewrite !exec_bind. cbn. rewrite Hwu. cbn. by rewrite Hp.
Qed.

(** The request that holds the lock asks for it again. *)
Lemma approval_self_deadlock env event t s :
  (t = CallPlan /\ event = EventPlan) \/ (t = CallImplement /\ event = EventImplement) ->
  risk_approval_on event -> is_Some (cd_workUnit (cd s)) -> hasPool (cd s) = true ->
  exec env (calls t) (mkLocal s Unheld [] 0) = (mkLocal s WriteHeld [] 0, Blocked).
Proof.
  intros Ht Hrisk Hwu Hp.
  destruct Ht as [[-> ->]|[-> ->]]; cbn [body]; unfold discard, Plan, Implement, deferred; rewrite exec_bind;
    cbn [exec acquire held_lock]; rewrite !exec_bind;
    rewrite check_task_and_pool_passes by done; cbn [outcome_bind];
    rewrite exec_bind, checkApproval_blocks by done; reflexivity.
Qed.
End safety.

(** ** Theorems *)

(** C4: the conductor's lock discipline is sound for the accesses it makes under
    [c.mu].  With risk-based approval off (with it on, see
    [risk_approval_deadlock]), in every interleaving of any calls and of the
    goroutines they start, as long as none panics: an unlock is always of a lock
    that is held in that mode; a thread about to write the state behind [c.mu]
    is the only one about to write it or to read it under the lock; and when
    nothing can move, every goroutine is done or waits for a channel, so the
    lock never deadlocks.  Not covered are the reads the code makes without the
    lock ([Unsynced]: the working directory in [RunTransitionHooks] and
    [runQualityGateChecks], [c.git] in [classifyFindings] and [getBaseBranch],
    [c.pool] in [watchJob], [c.specWatcher] in [watchGraph]), which do race with
    writes ([unlocked_read_races]), and the work unit's [UpdatedAt], which the
    machine writes under its own lock. *)
Theorem calls_well_locked {W : Type} {HG : Git W} {HJ : JobControl W} {HT : TaskFiles W} {HC : Config}
    {HE : Env} encode decode (s : Ctl W) ts c :
  risk_based = false -> calls_reach encode decode s ts c -> cf_crashed c = false ->
  (forall i m p, cf_threads c !! i = Some (Unlock m p) -> is_Some (release m (cf_lock c))) /\
  (forall i j p q a, cf_threads c !! i = Some p -> cf_threads c !! j = Some q ->
     accesses Writes p -> accesses a q -> a = Reads \/ a = Writes -> i = j) /\
  ((forall p, p ∈ cf_threads c -> finished p \/ waiting (cf_shared c) p) \/
   exists c', step (body encode decode) c c').
Proof.
  intros Hrisk Hr Hc.
  assert (Hb : forall t, well_locked None (body encode decode t) None) by (intros t; by apply bodies_locked).
  pose proof (lock_inv_reachable _ Hb s _ c (all_bodies_locked encode decode ts Hrisk) Hr Hc) as Hinv.
  split_and!.
  - intros i m p. by apply locked_unlock.
  - intros i j p q a. by apply locked_race_free.
  - exact (locked_progress _ c answers_inhabited Hinv Hc).
Qed.

(** C3: a required phase "review" blocks every submit: no call records
    [review_done], so in whatever state the calls reach, a submit, run alone,
    ends in an error. *)
Theorem required_review_blocks_submit {W : Type} {HG : Git W} {HJ : JobControl W} {HT : TaskFiles W}
    {HC : Config} {HE : Env} encode decode env (s : Ctl W) ts c deleteBranch :
  Forall phase_call ts -> ctl_inv s -> calls_reach encode decode s ts c ->
  PhaseReview ∈ RequiredPhases cfg ->
  exists e, (exec env (Submit deleteBranch) (mkLocal (cf_shared c) Unheld [] 0)).2 = Done (Err e).
Proof.
  intros Hts Hs Hr Hreq. apply submit_missing_phase, missing_review; [done|].
  eapply calls_invariant in Hr; [|done|done]. apply Hr.
Qed.

(** C18: with risk-based approval on and an approval required, a request to plan
    or to implement deadlocks with itself: it holds [c.mu] and waits for it, and
    nothing can move any more. *)
Theorem risk_approval_deadlock {W : Type} {HG : Git W} {HJ : JobControl W} {HT : TaskFiles W} {HC : Config}
    {HE : Env} encode decode event t (s : Ctl W) :
  (t = CallPlan /\ event = EventPlan) \/ (t = CallImplement /\ event = EventImplement) ->
  risk_approval_on event -> is_Some (cd_workUnit (cd s)) -> hasPool (cd s) = true ->
  exists c, calls_reach encode decode s [t] c /\ cf_lock c = WriteHeld /\
    (exists p, cf_threads c = [p] /\ ~ finished p /\ ~ waiting (cf_shared c) p) /\
    forall c', ~ step (body encode decode) c c'.
Proof.
  intros Ht Hrisk Hwu Hp.
  pose proof (approval_self_deadlock encode decode sim_answer event t s Ht Hrisk Hwu Hp) as He.
  destruct (exec_steps (body encode decode) sim_answer (body encode decode t) (mkLocal s Unheld [] 0) [])
    as (p & Hstop & Hr).
  rewrite He in *. cbn in Hstop, Hr. destruct Hstop as (m & q & -> & Hacq).
  exists (mkConfig s WriteHeld [Lock m q] false). split_and!; [exact Hr|done| |].
  - exists (Lock m q). split_and!; [done|intros [? ?]; discriminate|intros (? & ? & ? & ?); discriminate].
  - intros c' Hs. inversion Hs as [i s1 l ts p s' l' p' new crash Hi Hst]; simplify_eq.
    destruct i as [|[|]]; simplify_eq/=. by inversion Hst; simplify_eq.
Qed.

(** ** Runs of the simulation *)

#[local] Instance run_config : Config := sim_settings.
#[local] Existing Instance sim_env.

(** A task taken through planning and implementation. *)
Definition sim_implemented : Ctl SimWorld :=
  sim_ctl_of (sim_conductor StateNone ["a"] [] <| machine := run_ops (take 6 sample_ops) NewMachine |>).

Lemma sim_ctl_inv : ctl_inv sim_implemented.
Proof.
  split; [|done]. split; [|simpl; lia|by repeat constructor].
  apply run_ops_inv, NewMachine_inv.
Qed.

(** Two overlapping reviews: the first gate closes the second one's channel, the
    second closes it again, and the recovery from that panic closes it once
    more, which ends the program. *)
Definition collision_calls : list call := [CallReview false; CallStop; CallReview false].
Definition collision_schedule : list nat :=
  replicate 18 0 ++ replicate 4 1 ++ replicate 18 2 ++ replicate 14 4 ++ replicate 24 6.

(** overlapping quality gates stop the program: a review that is stopped
    while its gate runs and asked for again starts a second gate, and when both
    have ended, in this interleaving, the process has panicked. *)
Theorem gate_runs_collide :
  exists c, calls_reach sim_encode sim_decode sim_implemented collision_calls c /\
    cf_crashed c = true.
Proof.
  apply (crashing_schedule sim_encode sim_decode sim_answer collision_schedule). by vm_compute.
Qed.

(** A review whose gate has just started while an item of its list is checked. *)
Definition racing_calls : list call := [CallReview false; CallCheckReviewItem "tests"].
Definition racing_schedule : list nat := replicate 18 0 ++ replicate 3 1.

Definition doing (p : @proc (Ctl SimWorld) question call answer unit) : option access :=
  match p with Act a _ _ => Some a | _ => None end.

(** The review is done, the item is about to be recorded under the lock, and the
    gate is about to read the working directory without it. *)
Lemma racing_reached :
  exists c, calls_reach sim_encode sim_decode sim_implemented racing_calls c /\
    cf_crashed c = false /\ cf_lock c = WriteHeld /\
    (doing <$> cf_threads c) = [None; Some Writes; None; Some Unsynced].
Proof.
  assert (Hb : match run_schedule (body sim_encode sim_decode) sim_answer 0 racing_schedule
                       (start_config sim_implemented (body sim_encode sim_decode <$> racing_calls)) with
               | Some c => (cf_crashed c, cf_lock c, doing <$> cf_threads c)
               | None => (true, Unheld, [])
               end = (false, WriteHeld, [None; Some Writes; None; Some Unsynced])) by by vm_compute.
  destruct (run_schedule _ _ _ racing_schedule _) as [c|] eqn:E; [|done]. injection Hb as H1 H2 H3.
  exists c. split_and!; [by eapply run_schedule_steps|done..].
Qed.

(** the gate reads the work unit without the lock while another call, which
    holds the lock, is about to change it: a data race. *)
Theorem unlocked_read_races :
  exists c i j p q, calls_reach sim_encode sim_decode sim_implemented racing_calls c /\
    i <> j /\ cf_threads c !! i = Some p /\ cf_threads c !! j = Some q /\ accesses Writes p /\ accesses Unsynced q.
Proof.
  destruct racing_reached as (c & Hr & _ & _ & Hd). exists c, 1, 3.
  destruct (cf_threads c) as [|? [|p [|? [|q []]]]]; try done. injection Hd as _ Hp _ Hq.
  exists p, q. split_and!; [done..| |]; [by destruct p as [| | |[]| | | |]|by destruct q as [| | |[]| | | |]].
Qed.

Lemma calls_well_locked_witness :
  exists c, length (cf_threads c) = 4 /\ cf_lock c = WriteHeld /\
  (forall i m p, cf_threads c !! i = Some (Unlock m p) -> is_Some (release m (cf_lock c))) /\
  (forall i j p q a, cf_threads c !! i = Some p -> cf_threads c !! j = Some q ->
     accesses Writes p -> accesses a q -> a = Reads \/ a = Writes -> i = j) /\
  ((forall p, p ∈ cf_threads c -> finished p \/ waiting (cf_shared c) p) \/
   exists c', step (body sim_encode sim_decode) c c').
Proof.
  destruct racing_reached as (c & Hr & Hc & Hl & Hd). exists c. split; [|split; [exact Hl|]].
  - rewrite <- (length_fmap doing). by rewrite Hd.
  - by apply (calls_well_locked sim_encode sim_decode sim_implemented racing_calls).
Defined.

(** The same settings with "review" required, and with risk-based approval. *)
Definition sim_required : Settings :=
  mkSettings ∅ None 0 [] [PhaseReview] [] [] false ∅ ∅ [] ∅ false false false false [] 0 false false 0
    "" "never" "" "main" false false "tester" (StartWith sim_settings).

Definition sim_risk : Settings :=
  mkSettings {[EventPlan; EventImplement]} (Some (mkRiskBased true float_zero float_zero)) 0 [] [] [] [] false
    ∅ ∅ [] ∅ false false false false [] 0 false false 0 "" "never" "" "main" false false "tester" (StartWith sim_settings).

Section required.
#[local] Instance required_config : Config := sim_required.

Lemma required_reached :
  exists c, calls_reach sim_encode sim_decode sim_implemented racing_calls c /\ length (cf_threads c) = 4.
Proof.
  assert (Hb : match run_schedule (body sim_encode sim_decode) sim_answer 0 racing_schedule
                       (start_config sim_implemented (body sim_encode sim_decode <$> racing_calls)) with
               | Some c => length (cf_threads c)
               | None => 0
               end = 4) by by vm_compute.
  destruct (run_schedule _ _ _ racing_schedule _) as [c|] eqn:E; [|done].
  exists c. split; [by eapply run_schedule_steps|exact Hb].
Qed.

Lemma required_review_blocks_submit_witness :
  PhaseReview ∈ RequiredPhases cfg /\
  exists c : @config (Ctl SimWorld) question call answer, length (cf_threads c) = 4 /\
    exists e, (exec sim_answer (Submit false) (mkLocal (cf_shared c) Unheld [] 0)).2 = Done (Err e).
Proof.
  split; [by left|]. destruct required_reached as (c & Hr & Hc). exists c. split; [exact Hc|].
  apply (required_review_blocks_submit sim_encode sim_decode sim_answer sim_implemented racing_calls c);
    [by repeat constructor|apply sim_ctl_inv|exact Hr|by left].
Defined.
End required.

Section risk.
#[local] Instance risk_config : Config := sim_risk.

Lemma risk_approval_deadlock_witness :
  exists c, calls_reach sim_encode sim_decode sim_implemented [CallPlan] c /\
    cf_lock c = WriteHeld /\
    (exists p, cf_threads c = [p] /\ ~ finished p /\ ~ waiting (cf_shared c) p) /\
    forall c', ~ step (body sim_encode sim_decode) c c'.
Proof.
  apply (risk_approval_deadlock sim_encode sim_decode EventPlan CallPlan sim_implemented);
    [by left| |by eexists|done].
  eexists. split_and!; [done|done|]. by apply (bool_decide_unpack _).
Defined.
End risk.
