(* ===== verification/PhaseSubmits.v ===== *)
(** * Submitting, the quality gate's result and finishing

    What [Submit] has checked when it succeeds, what a failed gate run leaves
    behind, and what [Finish] does to the task and to its file.  A run of the
    gate may wait for an agent, so here a body may wait for a channel. *)

From S2P Require Import Prelude Floats WorkUnit Transitions Machine Persist Interfaces Conductor.
From S2P Require Import Progress Errors VarPool Findings FailClass Policy RespCache Proc ProcWp.
From S2P Require Import PhaseCtl PhaseSim PhaseJobs PhaseWatch PhaseFinish PhaseCalm PhaseGate PhaseSubmit.
From S2P Require Import PhaseLocks PhaseRuns.
From S2P Require TaskQueue.

(** What a submit looks at in the work unit. *)
Definition submit_view (wu : WorkUnit) :=
  (wu_ChecklistChecked wu, wu_Approvals wu, wu_Source wu, wu_QualityGatePassed wu).

#[export] Instance submit_view_bookkeeping : Bookkeeping submit_view.
Proof. done. Qed.

Section calm.
Context {W : Type} {HG : Git W} {HJ : JobControl W} {HT : TaskFiles W} {HC : Config} {HE : Env}.
Context {V : Type} (view : WorkUnit -> V) {HV : Bookkeeping view}.
Notation cproc := (@proc (Ctl W) question call answer).
Notation calm := (calm True (has_task (W := W)) (same_core view) quiet).
Implicit Types (s : Ctl W) (l : rwlock).

Tactic Notation "calms" constr(p) := unfold p; check_calm; calm_access.

(** ** The quality gate *)

Lemma calm_classifyFindings fs l : calm l (classifyFindings fs : cproc _) l.
Proof. calms @classifyFindings. Qed.
Lemma calm_applyFailureClassification fs : calm Unheld (applyFailureClassification fs : cproc _) Unheld.
Proof. calms @applyFailureClassification. Qed.
#[local] Hint Resolve calm_classifyFindings calm_applyFailureClassification : calm.
Lemma calm_filter_findings fs : calm Unheld (filter_findings fs : cproc _) Unheld.
Proof. calms @filter_findings. Qed.
#[local] Hint Resolve calm_filter_findings : calm.
Lemma calm_runUnifiedQualityGates d : calm Unheld (runUnifiedQualityGates d : cproc _) Unheld.
Proof. calms @runUnifiedQualityGates. Qed.
Lemma calm_runStructuredQualityGates d : calm Unheld (runStructuredQualityGates d : cproc _) Unheld.
Proof. calms @runStructuredQualityGates. Qed.
Lemma calm_qualityGateSecurity d : calm Unheld (qualityGateSecurity d : cproc _) Unheld.
Proof. calms @qualityGateSecurity. Qed.
Lemma calm_run_review_tool c t d l : calm l (run_review_tool c t d : cproc _) l.
Proof. calms @run_review_tool. Qed.
#[local] Hint Resolve calm_run_review_tool : calm.
Lemma calm_qualityGateExternalReview d : calm Unheld (qualityGateExternalReview d : cproc _) Unheld.
Proof. calms @qualityGateExternalReview. Qed.
#[local] Hint Resolve calm_runUnifiedQualityGates calm_runStructuredQualityGates calm_qualityGateSecurity calm_qualityGateExternalReview : calm.
Lemma calm_and_then (p q : cproc (option string)) :
  calm Unheld p Unheld -> calm Unheld q Unheld -> calm Unheld (and_then p q) Unheld.
Proof. intros. calms @and_then. Qed.
#[local] Hint Resolve calm_and_then : calm.
Lemma calm_runQualityGateChecks : calm Unheld (runQualityGateChecks : cproc _) Unheld.
Proof. calms @runQualityGateChecks. Qed.
Lemma calm_shouldAutoFix l : calm l (shouldAutoFix : cproc _) l.
Proof. calms @shouldAutoFix. Qed.
Lemma calm_clearAutoFixState : calm Unheld (clearAutoFixState : cproc unit) Unheld.
Proof. calms @clearAutoFixState. Qed.
#[local] Hint Resolve calm_runQualityGateChecks calm_shouldAutoFix calm_clearAutoFixState : calm.
Lemma calm_autofix_events j closes evs l : calm l (autofix_events j closes evs : cproc _) l.
Proof. induction evs; cbn [autofix_events]; check_calm. Qed.
#[local] Hint Resolve calm_autofix_events : calm.
Lemma calm_waitForAutoFixJob j l : calm l (waitForAutoFixJob j : cproc _) l.
Proof. calms @waitForAutoFixJob. Qed.
Lemma calm_autofix_exhausted m e : calm Unheld (autofix_exhausted m e : cproc _) Unheld.
Proof. calms @autofix_exhausted. Qed.
#[local] Hint Resolve calm_waitForAutoFixJob calm_autofix_exhausted : calm.
Lemma calm_autofix_loop n i m e : calm Unheld (autofix_loop n i m e : cproc _) Unheld.
Proof. revert i e. induction n; intros; cbn [autofix_loop]; check_calm; calm_access. Qed.
#[local] Hint Resolve calm_autofix_loop : calm.
Lemma calm_runQualityAutoFix e : calm Unheld (runQualityAutoFix e : cproc _) Unheld.
Proof. calms @runQualityAutoFix. Qed.
#[local] Hint Resolve calm_runQualityAutoFix : calm.
Lemma calm_runQualityGate : calm Unheld (runQualityGate : cproc _) Unheld.
Proof. calms @runQualityGate. Qed.

(** ** Parts of a submit *)

Lemma calm_submit_policy : calm WriteHeld (submit_policy : cproc _) WriteHeld.
Proof. calms @submit_policy. Qed.
Lemma calm_emit_warnings msgs l : calm l (emit_warnings msgs : cproc unit) l.
Proof. induction msgs; cbn [emit_warnings]; check_calm. Qed.
#[local] Hint Resolve calm_emit_warnings : calm.
Lemma calm_create_pr d l : calm l (create_pr d : cproc _) l.
Proof. calms @create_pr. Qed.
#[local] Hint Resolve calm_create_pr : calm.
Lemma calm_submit_network d b l : calm l (submit_network d b : cproc _) l.
Proof. calms @submit_network. Qed.
Lemma calm_submit_data l : calm l (submit_data : cproc _) l.
Proof. calms @submit_data. Qed.
Lemma calm_submit_ready fs l : calm l (submit_ready fs : cproc _) l.
Proof. calms @submit_ready. Qed.
End calm.

#[export] Hint Resolve calm_classifyFindings calm_applyFailureClassification
  calm_filter_findings calm_runUnifiedQualityGates calm_runStructuredQualityGates
  calm_qualityGateSecurity calm_run_review_tool calm_qualityGateExternalReview calm_and_then
  calm_runQualityGateChecks calm_shouldAutoFix calm_clearAutoFixState calm_autofix_events
  calm_waitForAutoFixJob calm_autofix_exhausted calm_autofix_loop calm_runQualityAutoFix
  calm_runQualityGate calm_submit_policy calm_emit_warnings calm_create_pr calm_submit_network
  calm_submit_data calm_submit_ready : calm.

Section submit.
Context {W : Type} {HG : Git W} {HJ : JobControl W} {HT : TaskFiles W} {HC : Config} {HE : Env}.
Notation cproc := (@proc (Ctl W) question call answer).
Notation wp := (wp True).
Implicit Types (s : Ctl W) (l : rwlock).

(** What the user and the policies require, apart from the gate. *)
Definition asked_for (wu : WorkUnit) := (wu_ChecklistChecked wu, wu_Approvals wu).

(** The result of the gate and its channel. *)
Definition gate_of s := (wu_QualityGatePassed <$> cd_workUnit (cd s), qualityGateCh s).

(** A run of one's own needs that there is no result and no channel, and leaves a
    channel. *)
Definition gate_moved (g g' : option (option bool) * option nat) : Prop :=
  g' = g \/ g = (Some None, None) /\ g'.2 <> None.

(** Since [s], neither the machine nor what is asked for has changed; [b]: the
    gate has passed. *)
Definition since (b : bool) s s1 : Prop :=
  has_task s1 /\ state (machine (cd s1)) = state (machine (cd s)) /\
  history (machine (cd s1)) = history (machine (cd s)) /\
  (asked_for <$> cd_workUnit (cd s1)) = (asked_for <$> cd_workUnit (cd s)) /\
  gate_moved (gate_of s) (gate_of s1) /\
  (b = true -> (gate_of s1).1 = Some (Some true)).

Lemma same_core_gate s s1 : same_core submit_view s s1 ->
  gate_of s1 = gate_of s /\ closedChans s1 = closedChans s /\
  (asked_for <$> cd_workUnit (cd s1)) = (asked_for <$> cd_workUnit (cd s)).
Proof.
  unfold same_core, core, gate_of, cd_workUnit. intros H. injection H.
  destruct (workUnit (machine (cd s))) as [wu|], (workUnit (machine (cd s1))) as [wu1|]; simpl; intros;
    simplify_eq/=; [|by split_and!; congruence].
  unfold asked_for. split_and!; congruence.
Qed.

Lemma since_along b s s1 s2 : since b s s1 -> same_core submit_view s1 s2 -> since b s s2.
Proof.
  intros (Ht & Es & Eh & Eu & Eg & Hb) HR. pose proof (same_core_task _ _ _ HR Ht).
  apply same_core_gate in HR as HG'. destruct HG' as (Eg' & _ & Eu').
  apply same_core_state in HR as (Es' & Eh' & _). unfold since. rewrite Eg'.
  split_and!; [done|congruence..|done|done].
Qed.

(** Runs a calm part of the submit. *)
Ltac calmly_on H :=
  eapply (wp_calm True has_task (same_core submit_view) quiet);
    [solve [eauto with calm | check_calm; calm_access] | exact (proj1 H) |];
  let a := fresh "a" in let s := fresh "s" in let new := fresh "new" in
  let HR := fresh "HR" in let Hs := fresh "Hs" in let Hq := fresh "Hq" in let H' := fresh "H" in
  intros a s new HR Hs Hq; pose proof (since_along _ _ _ _ H HR) as H'; clear H Hs HR; rename H' into H;
  cbn beta.

Lemma wp_the_unit {A} s l (k : WorkUnit -> cproc A) Post :
  has_task s -> (forall wu, cd_workUnit (cd s) = Some wu -> wp (k wu) s l Post) ->
  wp (bind the_unit k) s l Post.
Proof. intros [[wu Hwu] _] Hk. unfold the_unit, work_unit. cbn. rewrite Hwu. cbn. auto. Qed.

Lemma wp_write_unit {A} f s l (k : unit -> cproc A) Post :
  has_task s -> wp (k tt) (upd_cd (upd_workUnit f) s) l Post -> wp (bind (write_unit f) k) s l Post.
Proof. intros [[wu Hwu] _] Hk. unfold write_unit, the_unit, work_unit. cbn. by rewrite Hwu. Qed.

(** *** The gate's result *)

(** With a channel of its own, which nobody else closes. *)
Definition own_gate s : Ctl W :=
  s <| qualityGateCh := Some (length (closedChans s)) |> <| closedChans ::= fun chans => chans ++ [false] |>.

Lemma own_gate_open s s1 : same_core submit_view (own_gate s) s1 -> chan_closed s1 = false.
Proof.
  intros HR. apply same_core_gate in HR as (Hg & Hl & _). apply (f_equal snd) in Hg. simpl in *.
  unfold chan_closed. rewrite Hg, Hl, app_nth2, Nat.sub_diag by lia. done.
Qed.

Lemma since_own_gate s s1 :
  since false s s1 -> gate_of s1 = (Some None, None) -> since false s (own_gate s1).
Proof.
  intros (Ht & Es & Eh & Eu & Eg & Hb) Hg. split_and!; try done. right. split; [|done].
  destruct Eg as [Eg|[Eg Hne]]; [congruence|]. by rewrite Hg in Hne.
Qed.

Lemma since_close s s1 : since false s s1 -> gate_of s1 <> (Some None, None) ->
  forall chans, since false s (s1 <| closedChans := chans |>).
Proof. by intros (Ht & Es & Eh & Eu & Eg & Hb) _ chans. Qed.

(** The result is written down. *)
Lemma since_passed s s1 :
  since false s s1 -> qualityGateCh s1 <> None -> gate_of s = (Some None, None) ->
  since true s (upd_cd (upd_workUnit (fun wu => wu <| wu_QualityGatePassed := Some true |>)) s1).
Proof.
  intros ([[wu Hwu] Hp] & Es & Eh & Eu & Eg & Hb) Hch Hg. unfold cd_workUnit in *.
  assert (Hwu' : workUnit (machine (cd (upd_cd (upd_workUnit (fun wu => wu <| wu_QualityGatePassed := Some true |>)) s1)))
    = Some (wu <| wu_QualityGatePassed := Some true |>)) by (cbn; by rewrite Hwu).
  unfold since, gate_of, has_task, cd_workUnit. rewrite Hwu'. rewrite Hwu in Eu.
  split_and!; try done. by right.
Qed.

Lemma since_true s s1 wu :
  since false s s1 -> cd_workUnit (cd s1) = Some wu -> wu_QualityGatePassed wu = Some true -> since true s s1.
Proof.
  intros (Ht & Es & Eh & Eu & Eg & _) Hwu Hp. split_and!; try done. intros _. unfold gate_of.
  rewrite Hwu. cbn. by rewrite Hp.
Qed.

Definition gate_post s (r : option string) s' (l' : rwlock) (new : list call) : Prop :=
  l' = WriteHeld /\ Forall quiet new /\ since (bool_decide (r = None)) s s'.

Lemma gate_post_more s r s' l' new new' :
  Forall quiet new -> gate_post s r s' l' new' -> gate_post s r s' l' (new ++ new').
Proof. intros Hq (-> & Hq' & Hs). split_and!; [done|by_quiet|done]. Qed.

Lemma wp_own_gate s s1 :
  since false s s1 -> gate_of s1 = (Some None, None) ->
  wp (unlock Write;;; let* err := runQualityGate in lock Write;;; let* ok := close_gate in
      if negb ok then Panic else
      match err with
      | Some e => Ret (Some ("quality gate failed: " +:+ e))
      | None => write_unit (fun wu => wu <| wu_QualityGatePassed := Some true |>);;; Ret None
      end)%proc (own_gate s1) WriteHeld (gate_post s).
Proof.
  intros Hun Hg. pose proof (since_own_gate _ _ Hun Hg) as Ho.
  assert (Hg0 : gate_of s = (Some None, None)).
  { destruct Hun as (_ & _ & _ & _ & [Eg|[Eg _]] & _); congruence. }
  eapply wp_bind, wp_unlock; [done|]. cbn beta.
  eapply (wp_calm True has_task (same_core submit_view) quiet); [auto with calm|apply Ho|].
  intros err s2 new2 HR Hs2 Hq2. cbn beta. eapply wp_bind, wp_lock; [done|]. cbn beta.
  pose proof (since_along _ _ _ _ Ho HR) as Ho2.
  apply wp_bind. unfold close_gate, update. apply wp_act, wp_ret. rewrite (own_gate_open _ _ HR).
  apply same_core_gate in HR as (Hg2 & _ & _). apply (f_equal snd) in Hg2. cbn in Hg2. rewrite Hg2. cbn [fst snd negb].
  destruct err as [e|].
  - apply wp_ret. split_and!; [done|by_quiet|exact Ho2].
  - apply wp_write_unit; [apply Ho2|]. apply wp_ret. split_and!; [done|by_quiet|].
    apply since_passed; [exact Ho2| |done]. cbn. by rewrite Hg2.
Qed.

Lemma wp_submit_gate s s1 :
  since false s s1 -> wp (submit_gate : cproc _) s1 WriteHeld (gate_post s).
Proof.
  intros Hun. unfold submit_gate. apply wp_the_unit; [apply Hun|]. intros wu Hwu.
  destruct (wu_QualityGatePassed wu) as [passed|] eqn:Ep.
  - apply wp_ret. split_and!; [done|by_quiet|]. destruct passed; [|exact Hun].
    by eapply since_true.
  - apply wp_bind, wp_act, wp_ret. cbn beta. destruct (qualityGateCh s1) as [ch|] eqn:Ec.
    + do 3 calmly_on Hun. apply wp_the_unit; [apply Hun|]. intros wu' Hwu'.
      apply wp_ret. split_and!; [done|by_quiet|]. destruct (wu_QualityGatePassed wu') as [[]|] eqn:E; [by eapply since_true|exact Hun..].
    + apply wp_bind, wp_act, wp_ret. eapply wp_mono; [apply (wp_own_gate s s1)|]; [done| |done].
      unfold gate_of. by rewrite Hwu, Ec, <- Ep.
Qed.

(** *** What is asked for *)

(** Every item of the checklist is checked, every required phase has ended since
    the last submit, and the approval is there when one is required. *)
Definition checks_hold s : Prop :=
  exists wu, cd_workUnit (cd s) = Some wu /\
    Forall (fun item => item ∈ wu_ChecklistChecked wu) (ReviewChecklist cfg) /\
    (forall phase event, phase ∈ RequiredPhases cfg -> phaseEventMap phase = Some event ->
       happened event (since_submit (history (machine (cd s)))) = true).

Definition approval_holds s : Prop :=
  EventSubmit ∈ ApprovalRequired cfg ->
  exists wu, cd_workUnit (cd s) = Some wu /\ approved EventSubmit wu = true.

Lemma checklist_complete checklist checked :
  checkReviewChecklist checklist checked = None -> Forall (fun item => item ∈ checked) checklist.
Proof.
  unfold checkReviewChecklist. destruct (List.find _ _) eqn:E; [done|]. intros _.
  apply Forall_forall. intros item Hin. apply list_elem_of_In in Hin.
  apply (List.find_none _ _ E) in Hin. apply negb_false_iff in Hin. by apply bool_decide_eq_true in Hin.
Qed.

Lemma phases_complete phases h phase event :
  missing_phase phases h = None -> phase ∈ phases -> phaseEventMap phase = Some event ->
  happened event (since_submit h) = true.
Proof.
  intros E Hin%list_elem_of_In Hm. apply (List.find_none _ _ E) in Hin. rewrite Hm in Hin.
  by apply negb_false_iff.
Qed.

(** What was asked for at the start is what a check sees. *)
Lemma since_unit b s s1 wu : since b s s1 -> cd_workUnit (cd s1) = Some wu ->
  exists wu0, cd_workUnit (cd s) = Some wu0 /\ asked_for wu0 = asked_for wu.
Proof.
  intros (_ & _ & _ & Eu & _) Hwu. rewrite Hwu in Eu. destruct (cd_workUnit (cd s)) as [wu0|]; [|done].
  exists wu0. split; [done|]. simpl in Eu. congruence.
Qed.

Lemma wp_submit_checks s s1 :
  since false s s1 ->
  wp (submit_checks : cproc _) s1 WriteHeld (fun r s' l' new =>
    l' = WriteHeld /\ Forall quiet new /\ since false s s' /\ (r = None -> checks_hold s)).
Proof.
  intros Hun. unfold submit_checks. apply wp_the_unit; [apply Hun|]. intros wu Hwu.
  destruct (checkReviewChecklist _ _) eqn:Ec; [apply wp_ret; split_and!; [done|by_quiet|done..]|].
  apply wp_bind, wp_act, wp_ret. cbn beta.
  destruct (missing_phase _ _) eqn:Em; [apply wp_ret; split_and!; [done|by_quiet|done..]|].
  assert (Hok : checks_hold s).
  { destruct (since_unit _ _ _ _ Hun Hwu) as (wu0 & Hwu0 & Ea). unfold asked_for in Ea. exists wu0.
    split_and!; [done| |].
    - apply checklist_complete. by replace (wu_ChecklistChecked wu0) with (wu_ChecklistChecked wu) by congruence.
    - intros phase event. destruct Hun as (_ & _ & <- & _). by apply phases_complete. }
  calmly_on Hun. destruct (negb a); [apply wp_ret; split_and!; [done|by_quiet|done..]|].
  do 3 calmly_on Hun. apply wp_ret. split_and!; [done|by_quiet|done..].
Qed.

Context (no_risk : risk_based = false).

Lemma wp_checkApproval s s1 :
  since false s s1 ->
  wp (checkApproval EventSubmit : cproc _) s1 WriteHeld (fun r s' l' new =>
    l' = WriteHeld /\ Forall quiet new /\ since false s s' /\ (r = None -> approval_holds s)).
Proof.
  intros Hun. unfold checkApproval, approval_holds. case_bool_decide as Hr; cbn [negb].
  2:{ apply wp_ret. split_and!; [done|by_quiet|done..]. }
  assert (Hex : forall msg err, wp (explicit_approval EventSubmit msg err : cproc _) s1 WriteHeld (fun r s' l' new =>
    l' = WriteHeld /\ Forall quiet new /\ since false s s' /\
    (r = None -> EventSubmit ∈ ApprovalRequired cfg ->
       exists wu, cd_workUnit (cd s) = Some wu /\ approved EventSubmit wu = true))).
  { intros msg err. unfold explicit_approval. apply wp_the_unit; [apply Hun|]. intros wu Hwu.
    destruct (approved EventSubmit wu) eqn:Ea.
    - apply wp_ret. split_and!; [done|by_quiet|done|]. intros _ _.
      destruct (since_unit _ _ _ _ Hun Hwu) as (wu0 & Hwu0 & Ev). exists wu0. split; [done|].
      unfold asked_for, approved in *. by replace (wu_Approvals wu0) with (wu_Approvals wu) by congruence.
    - calmly_on Hun. apply wp_ret. split_and!; [done|by_quiet|done..]. }
  unfold risk_based in no_risk. destruct (RiskApproval cfg) as [rba|]; [rewrite no_risk|]; apply Hex.
Qed.

(** *** The whole submit *)

Lemma submit_entry key t : t ∈ table_lookup key ->
  key_Event key = EventSubmit -> key_From key = StateReviewing /\ tr_To t = StateSubmitted.
Proof.
  revert key t. apply (table_forall (fun key t => key_Event key = EventSubmit ->
    key_From key = StateReviewing /\ tr_To t = StateSubmitted)). by_eval.
Qed.

Definition submitted s s' : Prop :=
  state (machine (cd s)) = StateReviewing /\ state (machine (cd s')) = StateSubmitted /\
  exists now, history (machine (cd s')) = history (machine (cd s)) ++
    [mkHistoryEntry StateReviewing StateSubmitted EventSubmit now].

Definition submit_post s (r : result string unit) s' : Prop :=
  gate_moved (gate_of s) (gate_of s') /\
  match r with
  | Ok _ => checks_hold s /\ approval_holds s /\ (gate_of s').1 = Some (Some true) /\ submitted s s'
  | Err _ => state (machine (cd s')) = state (machine (cd s)) /\
             history (machine (cd s')) = history (machine (cd s))
  end.

Lemma since_refused b s s1 e : since b s s1 -> submit_post s (Err e) s1.
Proof. intros (_ & Es & Eh & _ & Eg & _). by split. Qed.

Lemma submitted_dispatch s s1 now m r :
  since true s s1 -> Dispatch now EventSubmit (machine (cd s1)) = (m, r) ->
  (exists e, r = Err e /\ m = machine (cd s1)) \/
  r = Ok tt /\ has_task (with_machine m s1) /\ gate_of (with_machine m s1) = gate_of s1 /\
    submitted s (with_machine m s1).
Proof.
  intros ([[wu Hwu] Hp] & Es & Eh & Eu & Eg & Hb) Hd.
  apply Dispatch_inv in Hd as [(e & -> & -> & _)|(t & -> & Ht & _ & _ & Hst & Hh & Hu & _)]; [by eauto|].
  right. destruct (submit_entry _ _ Ht eq_refl) as [Hf Hto]. simpl in Hf.
  assert (Htgt : dispatch_target (machine (cd s1)) EventSubmit t = StateSubmitted).
  { unfold dispatch_target. rewrite decide_False; [done|]. by intros [[Hx|Hx] _]; apply (f_equal (fun x => bool_decide (x = EventSubmit))) in Hx. }
  rewrite Htgt in *. split_and!; [done| | |].
  - split; [|done]. unfold cd_workUnit in *. cbn. rewrite Hu, Hwu. by eexists.
  - unfold gate_of, cd_workUnit in *. cbn. by rewrite Hu, Hwu.
  - split_and!; [congruence|done|]. exists now. cbn. by rewrite Hh, Hf, Eh.
Qed.

Lemma calm_submit_cleanup d prID :
  calm True has_task (same_core submit_view) quiet Unheld (submit_cleanup d prID : cproc unit) Unheld.
Proof. unfold submit_cleanup. check_calm; calm_access. Qed.

(** After the transition. *)
Definition after_submit s s1 : Prop :=
  has_task s1 /\ gate_moved (gate_of s) (gate_of s1) /\ (gate_of s1).1 = Some (Some true) /\ submitted s s1.

Lemma after_submit_along s s1 s2 : after_submit s s1 -> same_core submit_view s1 s2 -> after_submit s s2.
Proof.
  intros (Ht & Eg & Hb & Hf & Est & now & Hh) HR. pose proof (same_core_task _ _ _ HR Ht).
  apply same_core_gate in HR as HG'. destruct HG' as (Eg' & _).
  apply same_core_state in HR as (Es' & Eh' & _). unfold after_submit, submitted. rewrite Eg', Es', Eh'.
  split_and!; try done. by exists now.
Qed.

Lemma wp_submit_finish d prID s s1 :
  since true s s1 ->
  wp (submit_finish d prID : cproc _) s1 Unheld (fun r s' l' new =>
    l' = Unheld /\ Forall quiet new /\
    (is_ok r = true -> after_submit s s') /\ (forall e, r = Err e -> submit_post s r s')).
Proof.
  intros Hun. unfold submit_finish. apply wp_bind, wp_dispatches. intros now m r Hd.
  destruct (submitted_dispatch _ _ _ _ _ Hun Hd) as [(e & -> & ->)|(-> & Ht & Hg & Hs)].
  - apply wp_ret. split_and!; [done|by_quiet|done|]. intros e' _. eapply (since_refused true).
    destruct s1 as []. simpl. exact Hun.
  - assert (Ha : after_submit s (with_machine m s1)).
    { destruct Hun as (_ & _ & _ & _ & Eg & Hb). unfold after_submit. rewrite Hg. auto. }
    eapply (wp_calm True has_task (same_core submit_view) quiet); [apply calm_submit_cleanup|exact Ht|].
    intros _ s2 new HR Hs2 Hq2. apply wp_ret. rewrite app_nil_r. split_and!; [done|exact Hq2| |done].
    intros _. by eapply after_submit_along.
Qed.

Definition submit_done s (r : result string unit) s' (l' : rwlock) (new : list call) : Prop :=
  l' = Unheld /\ Forall quiet new /\ submit_post s r s'.

Lemma submit_done_more s r s' l' new new' :
  Forall quiet new -> submit_done s r s' l' new' -> submit_done s r s' l' (new ++ new').
Proof. intros Hq (-> & Hq' & Hs). split_and!; [done|by_quiet|done]. Qed.

(** A part of the submit, then the rest. *)
Lemma wp_part {A} s s1 l (p : cproc A) (k : A -> cproc (result string unit))
    (Mid : A -> Ctl W -> rwlock -> Prop) :
  wp p s1 l (fun a s' l' new => Forall quiet new /\ Mid a s' l') ->
  (forall a s2 l2, Mid a s2 l2 -> wp (k a) s2 l2 (submit_done s)) ->
  wp (bind p k) s1 l (submit_done s).
Proof.
  intros Hp Hk. apply wp_bind. eapply wp_mono; [exact Hp|]. intros a s2 l2 new (Hq & Hm).
  eapply wp_mono; [by apply Hk|]. intros. by apply submit_done_more.
Qed.

Lemma wp_calm_part {A} b s s1 l l1 (p : cproc A) (k : A -> cproc (result string unit)) :
  calm True has_task (same_core submit_view) quiet l p l1 -> since b s s1 ->
  (forall a s2, since b s s2 -> wp (k a) s2 l1 (submit_done s)) ->
  wp (bind p k) s1 l (submit_done s).
Proof.
  intros Hp Hs Hk. eapply (wp_part s s1 l p k (fun _ s2 l2 => since b s s2 /\ l2 = l1)).
  - eapply wp_mono; [apply Hp, Hs|]. intros a s2 l2 new (HR & -> & Hq). split; [done|].
    split; [by eapply since_along|done].
  - intros a s2 l2 [H2 ->]. by apply Hk.
Qed.

Lemma wp_fail_unlocked b s s1 e :
  since b s s1 -> wp (fail_unlocked e : cproc _) s1 WriteHeld (submit_done s).
Proof.
  intros Hs. unfold fail_unlocked. eapply wp_bind, wp_unlock; [done|]. apply wp_ret.
  split_and!; [done|by_quiet|by eapply since_refused].
Qed.

Lemma wp_phase_error b s s1 e ph :
  since b s s1 -> wp (phase_error e ph : cproc _) s1 Unheld (submit_done s).
Proof.
  intros Hs. eapply wp_calm_part; [|exact Hs|].
  - eauto with calm.
  - intros _ s2 H2. apply wp_ret. split_and!; [done|by_quiet|by eapply since_refused].
Qed.

(** From the last checks on: what the earlier ones established is at hand. *)
Lemma wp_submit_tail files del s s1 :
  since true s s1 -> checks_hold s -> approval_holds s ->
  wp (let* err := submit_ready files in
      match err with Some e => fail_unlocked e | None =>
      let* d := submit_data in
      unlock Write;;;
      let* pr := submit_network d del in
      match pr with Err e => Ret (Err e) | Ok prID => submit_finish d prID end end)%proc s1 WriteHeld
    (submit_done s).
Proof.
  intros Hs Hc Ha. eapply wp_calm_part; [eauto with calm|exact Hs|]. intros [e|] s2 H2; [by eapply wp_fail_unlocked|].
  eapply wp_calm_part; [eauto with calm|exact H2|]. intros d s3 H3.
  eapply wp_calm_part; [check_calm|exact H3|]. intros _ s4 H4.
  eapply wp_calm_part; [eauto with calm|exact H4|]. intros [prID|e] s5 H5.
  - eapply wp_mono; [by apply (wp_submit_finish _ _ s)|]. intros [[]|e] s' l' new (-> & Hq & Hok & Herr).
    + destruct (Hok eq_refl) as (Ht & Eg & Hp & Hsub). by split_and!.
    + split_and!; [done|done|by apply (Herr e)].
  - apply wp_ret. split_and!; [done|by_quiet|by eapply since_refused].
Qed.

Lemma wp_Submit del s :
  has_task s -> wp (Submit del : cproc _) s Unheld (submit_done s).
Proof.
  intros Ht. assert (H0 : since false s s) by (split_and!; [done..|by left|done]).
  unfold Submit. eapply wp_calm_part; [check_calm|exact H0|]. clear H0 Ht. intros _ s1 H1.
  apply wp_bind, wp_act, wp_ret. cbn beta. eapply wp_mono; [|intros; by apply (submit_done_more _ _ _ _ [])].
  destruct (cd_workUnit (cd s1)) as [wu|] eqn:Hwu; [|by destruct H1 as [[[] ?] _]; congruence].
  eapply (wp_part _ _ _ _ _ (fun r s' l' => l' = WriteHeld /\ since false s s' /\ (r = None -> checks_hold s))).
  { eapply wp_mono; [by apply wp_submit_checks|]. intros ? ? ? ? (? & ? & ? & ?). auto. }
  intros [e|] s2 l2 (-> & H2 & Hc); [by eapply wp_fail_unlocked|]. specialize (Hc eq_refl).
  eapply (wp_part _ _ _ _ _ (fun r s' l' => l' = WriteHeld /\ since false s s' /\ (r = None -> approval_holds s))).
  { eapply wp_mono; [by apply wp_checkApproval|]. intros ? ? ? ? (? & ? & ? & ?). auto. }
  intros [e|] s3 l3 (-> & H3 & Ha); [by eapply wp_fail_unlocked|]. specialize (Ha eq_refl).
  eapply wp_calm_part; [check_calm|exact H3|]. intros _ s4 H4.
  eapply wp_calm_part; [eauto with calm|exact H4|]. intros [e|] s5 H5; [by eapply wp_phase_error|].
  eapply wp_calm_part; [check_calm|exact H5|]. intros _ s6 H6.
  eapply wp_calm_part; [eauto with calm|exact H6|]. intros [files [e|]] s7 H7; [by eapply wp_fail_unlocked|].
  eapply (wp_part _ _ _ _ _ (fun r s' l' => l' = WriteHeld /\ since (bool_decide (r = None)) s s')).
  { eapply wp_mono; [by apply (wp_submit_gate s)|]. intros ? ? ? ? (? & ? & ?). auto. }
  intros [e|] s8 l8 (-> & H8); [by eapply wp_fail_unlocked|]. by apply wp_submit_tail.
Qed.
End submit.

(** ** Finishing *)

Section finish.
Context {W : Type} {HG : Git W} {HJ : JobControl W} {HT : TaskFiles W} {HC : Config} {HE : Env}.
Notation cproc := (@proc (Ctl W) question call answer).
Implicit Types (s : Ctl W).

(** But for the events that were sent. *)
Definition same_task s s' : Prop :=
  machine (cd s') = machine (cd s) /\ world (cd s') = world (cd s) /\
  taskQueue (cd s') = taskQueue (cd s) /\ hasStore (cd s') = hasStore (cd s).

Notation idle := (calm False (fun _ : Ctl W => True) same_task (fun _ => False)).

#[local] Instance task_frame : Frame (fun _ : Ctl W => True) same_task.
Proof.
  split; [|done]. unfold same_task. split; [done|]. intros s1 s2 s3 (?&?&?&?) (?&?&?&?). split_and!; congruence.
Qed.

Lemma emit_task e s : same_task s (upd_cd (emit e) s).
Proof. unfold same_task, upd_cd, emit. cbn. by repeat case_match. Qed.

Lemma idle_emits e l : idle l (emits e : cproc unit) l.
Proof. unfold emits. check_calm; apply emit_task. Qed.
#[local] Hint Resolve idle_emits : calm.
Lemma idle_emits_state t m l : idle l (emits_state t m : cproc unit) l.
Proof. unfold emits_state, machine_state. check_calm. Qed.
Lemma idle_getBaseBranch l : idle l (getBaseBranch : cproc _) l.
Proof. unfold getBaseBranch, work_unit. check_calm. Qed.
Lemma idle_finish_branches b base del l : idle l (finish_branches b base del : cproc unit) l.
Proof. unfold finish_branches. check_calm. Qed.
#[local] Hint Resolve idle_emits_state idle_getBaseBranch idle_finish_branches : calm.

(** What [Finish] does when it is allowed: the task is gone, its file is as it was
    written last, and the next task of the queue is taken and started. *)
Definition finished s s' (new : list call) : Prop :=
  is_Some (cd_workUnit (cd s)) /\ cd_workUnit (cd s') = None /\
  state (machine (cd s')) = StateNone /\ world (cd s') = world (cd s) /\
  taskQueue (cd s') = tail (taskQueue (cd s)) /\
  new = match taskQueue (cd s) with [] => [] | t :: _ => [GoStart (qt_Source t)] end.

Definition finish_post force s (r : result string unit) s' (l' : rwlock) (new : list call) : Prop :=
  l' = WriteHeld /\
  match r with
  | Ok _ => (force || bool_decide (state (machine (cd s)) = StateSubmitted)) = true /\ finished s s' new
  | Err _ => same_task s s' /\ new = []
  end.

Lemma wp_idle {A} s s1 l l1 (p : cproc A) (k : A -> cproc (result string unit)) Post :
  idle l p l1 -> same_task s s1 ->
  (forall a s2, same_task s s2 -> wp False (k a) s2 l1 Post) ->
  wp False (bind p k) s1 l Post.
Proof.
  intros Hp Hs Hk. apply wp_bind. eapply wp_mono; [by apply Hp|].
  intros a s2 l2 [|t new] (HR & -> & Hq); [|by inversion Hq]. simpl.
  eapply wp_mono; [apply Hk; by etrans|done].
Qed.

(** From the transition on. *)
Lemma finished_intro force s s1 s2 (new : list call) :
  (force || bool_decide (state (machine (cd s)) = StateSubmitted)) = true ->
  is_Some (cd_workUnit (cd s)) -> same_task s s1 -> state (machine (cd s2)) = StateNone ->
  cd_workUnit (cd s2) = None -> world (cd s2) = world (cd s1) ->
  taskQueue (cd s2) = tail (taskQueue (cd s1)) ->
  new = match taskQueue (cd s1) with [] => [] | t :: _ => [GoStart (qt_Source t)] end ->
  finish_post force s (Ok tt) s2 WriteHeld new.
Proof.
  intros Hf Ht (Em & Ew & Eq & _) Hst Hu Ew2 Eq2 ->. rewrite Eq in *.
  split; [done|]. split; [done|]. unfold finished. split_and!; try done. congruence.
Qed.

Lemma finish_entry key t : t ∈ table_lookup key -> key_Event key = EventFinish -> tr_To t = StateNone.
Proof.
  revert key t. apply (table_forall (fun key t => key_Event key = EventFinish -> tr_To t = StateNone)). by_eval.
Qed.

Lemma finish_dispatch now m m' :
  Dispatch now EventFinish m = (m', Ok tt) -> state m' = StateNone.
Proof.
  intros Hd. apply Dispatch_inv in Hd as [(e & ? & _)|(t & _ & Ht & _ & _ & -> & _)]; [done|].
  unfold dispatch_target. rewrite decide_False by (intros [[] _]; done). exact (finish_entry _ _ Ht eq_refl).
Qed.

(** After the transition, or the reset of a forced one. *)
Lemma wp_finish_rest title force s s1 s2 :
  (force || bool_decide (state (machine (cd s)) = StateSubmitted)) = true ->
  is_Some (cd_workUnit (cd s)) -> same_task s s1 -> state (machine (cd s2)) = StateNone ->
  world (cd s2) = world (cd s1) -> taskQueue (cd s2) = taskQueue (cd s1) ->
  wp False (emits_state "task_finished" ("Task finished: " +:+ title);;;
    writes (upd_cd (fun c => c <| machine ::= SetWorkUnit 0%Z None |>));;;
    persists;;;
    let* next := update Writes (fun s =>
      let '(c, next) := TaskQueue.popNextTask (cd s) in (s <| cd := c |>, next)) in
    (match next with
     | Some t => emits_state "queue_advancing" ("Loading next queued task: " +:+ qt_Source t);;;
                 go (GoStart (qt_Source t))
     | None => Ret tt
     end);;;
    Ret (Ok tt))%proc s2 WriteHeld
    (fun r s' l' new => l' = WriteHeld /\ finish_post force s r s' l' new).
Proof.
  intros Hf Ht Hs Hst Ew Eq. apply wp_bind. eapply wp_mono; [by apply idle_emits_state|].
  intros _ s3 l3 [|t new] (HR & -> & Hq); [|by inversion Hq]. clear Hq. simpl app.
  destruct HR as (Em & Ew3 & Eq3 & _).
  apply wp_bind, wp_act, wp_ret, wp_bind. cbn beta.
  set (s4 := upd_cd _ s3).
  assert (Hp : upd_cd persistState s4 = s4).
  { destruct s3 as [c ?]. unfold s4, upd_cd, persistState, cd_workUnit. cbn. by destruct (negb _). }
  apply wp_act, wp_ret. cbn beta. rewrite Hp. clear Hp.
  assert (H4 : state (machine (cd s4)) = StateNone /\ cd_workUnit (cd s4) = None /\
    world (cd s4) = world (cd s1) /\ taskQueue (cd s4) = taskQueue (cd s1)).
  { unfold s4, cd_workUnit. cbn. rewrite Em. split_and!; congruence. }
  clearbody s4. destruct H4 as (Hst4 & Hu4 & Ew4 & Eq4).
  apply wp_bind. unfold update. apply wp_act, wp_ret. cbn beta.
  unfold TaskQueue.popNextTask. rewrite Eq4. destruct (taskQueue (cd s1)) as [|t rest] eqn:E1; cbn [fst snd].
  - apply wp_bind, wp_ret, wp_ret. split; [done|]. apply (finished_intro force s s1); try done; cbn; by rewrite ?Eq4, ?E1.
  - apply wp_bind, wp_bind. eapply wp_mono; [by apply idle_emits_state|].
    intros _ s5 l5 [|t' new] ((Em5 & Ew5 & Eq5 & _) & -> & Hq); [|by inversion Hq]. cbn in Em5, Ew5, Eq5.
    cbn. split; [done|]. apply (finished_intro force s s1); try done; cbn; rewrite ?E1; try done.
    all: unfold cd_workUnit in *; congruence.
Qed.

Lemma wp_Finish del force s :
  wp False (Finish del force : cproc _) s Unheld
    (fun r s' l' new => l' = Unheld /\ finish_post force s r s' WriteHeld new).
Proof.
  unfold Finish. apply wp_deferred.
  eapply wp_mono with (P1 := fun r s' l' new => l' = WriteHeld /\ finish_post force s r s' l' new).
  2:{ intros r s' l' new [-> ?]. done. }
  apply wp_bind, wp_act, wp_ret. cbn beta. destruct (cd_workUnit (cd s)) as [wu|] eqn:Hwu.
  2:{ by apply wp_ret. }
  assert (Hs : same_task s s) by done.
  apply wp_bind, wp_act, wp_ret. cbn beta.
  destruct (_ && _) eqn:Hf; [by apply wp_ret|].
  eapply wp_mono; [|intros r s' l' new; rewrite app_nil_l, app_nil_l; exact id].
  eapply wp_idle; [check_calm|exact Hs|]. clear Hs. intros git s1 Hs. destruct (negb git); [by apply wp_ret|].
  eapply wp_idle; [auto with calm|exact Hs|]. clear s1 Hs. intros [base|e] s1 Hs; [|by apply wp_ret].
  eapply wp_idle; [check_calm|exact Hs|]. clear s1 Hs. intros [e|] s1 Hs; [by apply wp_ret|].
  eapply wp_idle; [check_calm|exact Hs|]. clear s1 Hs. intros _ s1 Hs.
  eapply wp_idle; [auto with calm|exact Hs|]. clear s1 Hs. intros _ s1 Hs.

  apply wp_bind, wp_dispatches. intros now m r Hd.
  assert (Hf' : (force || bool_decide (state (machine (cd s)) = StateSubmitted)) = true).
  { change (id s) with s in Hf. destruct force; [done|]. by destruct (bool_decide (state (machine (cd s)) = StateSubmitted)). }
  assert (Ht : is_Some (cd_workUnit (cd s))) by by eexists.
  destruct r as [[]|e].
  - apply finish_dispatch in Hd. apply wp_bind, wp_ret. by apply (wp_finish_rest _ _ _ s1).
  - apply wp_bind, wp_act, wp_ret. by apply (wp_finish_rest _ _ _ s1).
Qed.
End finish.

(** ** Submit and finish, run alone *)

Section specs.
Context {W : Type} {HG : Git W} {HJ : JobControl W} {HT : TaskFiles W} {HC : Config} {HE : Env}.
Implicit Types s : Ctl W.

(** C6: a submit, run alone and whatever the environment answers, neither blocks
    on the lock nor panics.  When it succeeds, every item of the checklist was
    checked, every required phase was over, a required approval was there and the
    gate has passed, and the machine went from [reviewing] to [submitted]; when it
    fails, the machine and its history are as they were. *)
Theorem Submit_spec env deleteBranch s :
  risk_based = false -> has_task s ->
  let r := exec env (Submit deleteBranch) (at_rest s) in
  match r.2 with
  | Done a => held_lock r.1 = Unheld /\ Forall quiet (spawned r.1) /\ submit_post s a (shared r.1)
  | Waiting => True
  | Blocked | Crashed => False
  end.
Proof.
  intros Hr Hs. pose proof (wp_exec True env _ (at_rest s) _ (wp_Submit Hr deleteBranch s Hs)) as Hw.
  cbv zeta. destruct (exec env _ _) as [c [a| | |]]; [|done..]. simpl in *.
  destruct Hw as (new & -> & -> & Hq & Hp). done.
Qed.

(** C17: once a gate that a submit ran itself has failed, its channel stays and
    there is no result; in such a state no submit succeeds, whatever the
    environment answers, and none changes that.  Only another review does. *)
Theorem stale_gate_blocks_submit env deleteBranch s ch :
  risk_based = false -> has_task s -> gate_of s = (Some None, Some ch) ->
  forall a, (exec env (Submit deleteBranch) (at_rest s)).2 = Done a ->
    is_ok a = false /\
    gate_of (shared (exec env (Submit deleteBranch) (at_rest s)).1) = (Some None, Some ch).
Proof.
  intros Hr Hs Hg a Ha. pose proof (wp_exec True env _ (at_rest s) _ (wp_Submit Hr deleteBranch s Hs)) as Hw.
  rewrite Ha in Hw. destruct Hw as (new & _ & _ & _ & [Hm|[Hm _]] & Hp); [|congruence].
  rewrite Hm, Hg in *. destruct a; [|done].
  by destruct Hp as (_ & _ & Hp & _).
Qed.

(** C15: finishing, run alone and whatever the environment answers, always ends.
    It succeeds only on a submitted task or with force, and then the task is
    gone, its file is left as the submit wrote it, and the first queued task is
    started; when it fails, nothing has changed. *)
Theorem Finish_spec env deleteRemote force s :
  let r := exec env (Finish deleteRemote force) (at_rest s) in
  exists a, r.2 = Done a /\ held_lock r.1 = Unheld /\
    finish_post force s a (shared r.1) WriteHeld (spawned r.1).
Proof.
  pose proof (wp_exec False env _ (at_rest s) _ (wp_Finish deleteRemote force s)) as Hw.
  cbv zeta. destruct (exec env _ _) as [c [a| | |]]; [|done..]. simpl in *.
  destruct Hw as (new & -> & -> & Hp). by exists a.
Qed.
End specs.

(** ** Runs of the simulation *)

#[local] Instance run_config : Config := sim_settings.
#[local] Existing Instance sim_env.

Lemma Submit_spec_witness :
  let r := exec sim_answer (Submit false) (at_rest (sim_ctl StateReviewing)) in
  match r.2 with
  | Done a => held_lock r.1 = Unheld /\ Forall quiet (spawned r.1) /\
              submit_post (sim_ctl StateReviewing) a (shared r.1)
  | Waiting => True
  | Blocked | Crashed => False
  end.
Proof. apply Submit_spec; [done|apply sim_has_task]. Defined.

(** The review tool of the settings is off; the quality runner fails. *)
Definition sim_gate_fails (n : nat) (q : question) : answer q :=
  match q return answer q with
  | QQualityRunner _ => Some (Ok (false, ["lint failed"]))
  | q => sim_answer n q
  end.

Definition sim_after_failure : Ctl SimWorld :=
  shared (exec sim_gate_fails (Submit false) (at_rest (sim_ctl StateReviewing))).1.

Lemma stale_gate_blocks_submit_witness :
  gate_of sim_after_failure = (Some None, Some 0) /\
  forall a, (exec sim_answer (Submit false) (at_rest sim_after_failure)).2 = Done a ->
    is_ok a = false /\
    gate_of (shared (exec sim_answer (Submit false) (at_rest sim_after_failure)).1) = (Some None, Some 0).
Proof.
  split; [by vm_compute|]. apply stale_gate_blocks_submit; [done| |by vm_compute].
  split; [|by vm_compute]. apply is_Some_alt. by vm_compute.
Defined.
