(* ===== verification/PhaseStarts.v ===== *)
(** * What starting and resuming do

    [Start] run alone: it loads the task of its source, or refuses and leaves the
    machine where it was.  [ResumeFromCheckpoint]: what is started again. *)

From S2P Require Import Prelude Floats WorkUnit Transitions Machine Persist Interfaces Conductor.
From S2P Require Import Progress Errors VarPool Findings FailClass Policy RespCache Names Proc ProcWp.
From S2P Require Import PhaseCtl PhaseSim PhaseJobs PhaseWatch PhaseFinish PhaseGate PhaseStart PhaseSubmit.
From S2P Require Import PhaseRuns.
From S2P Require Lifecycle.

(** ** Parts that only prepare the branch *)

Section start.
Context {W : Type} {HG : Git W} {HJ : JobControl W} {HT : TaskFiles W} {HC : Config} {HE : Env}.
Notation cproc := (@proc (Ctl W) question call answer).
Implicit Types (s : Ctl W) (l : rwlock) (wu : WorkUnit).

Definition branch_name wu : string := generateBranchName (BranchPattern (StartWith cfg)) wu.
Definition invalid_branch wu : option string :=
  validateBranchName (branch_name wu) (BranchValidationPattern (StartWith cfg)).

(** The work unit but for what [Start] decides about its branch. *)
Definition no_branch wu : WorkUnit := wu <| wu_Branch := "" |> <| wu_WorktreePath := "" |>.

Lemma no_branch_same wu wu' : no_branch wu' = no_branch wu -> wu_ID wu' = wu_ID wu /\ branch_name wu' = branch_name wu.
Proof.
  intros H. pose proof (f_equal wu_ID H) as Hid. pose proof (f_equal wu_ExternalID H) as Hx.
  pose proof (f_equal wu_Source H) as Hs. pose proof (f_equal wu_Title H) as Ht. simpl in *.
  split; [done|]. unfold branch_name, generateBranchName, branch_key, task_type.
  by rewrite Hid, Hx, Hs, Ht.
Qed.

Definition anything s : Prop := True.
Definition nothing (t : call) : Prop := False.

Lemma nothing_spawned new : Forall nothing new -> new = [].
Proof. by destruct new; [|intros []%Forall_cons]. Qed.

(** Provisioning reports events only. *)
Definition reporting s s' : Prop := machine (cd s') = machine (cd s) /\ stray s' = stray s.

#[local] Instance reporting_frame : Frame anything reporting.
Proof. split; [|done]. split; [by intros|]. intros s1 s2 s3 (? & ?) (? & ?). split; congruence. Qed.

Lemma reporting_emit e s : reporting s (upd_cd (emit e) s).
Proof. split; [simpl; by destruct (emit_frame e (cd s)) as [-> _]|done]. Qed.

Lemma calm_provision l src dir : calm False anything reporting nothing l (provisionWorktree src dir : cproc _) l.
Proof. unfold provisionWorktree, emits. check_calm; apply reporting_emit. Qed.

(** *** The branch, by the answers of the environment *)

Context (env : nat -> forall q : question, answer q).
Notation given := (answered env).

(** The base branch is configured, or the default one of the repository. *)
Definition base_branch (b : string) : Prop :=
  if decide (BaseBranch cfg <> "") then b = BaseBranch cfg
  else given QDefaultBranch (Ok b) \/ b = "" /\ exists e, given QDefaultBranch (Err e).

(** The branch that git checked out or made in the main repository; none when it failed. *)
Definition branch_alone (base : string) wu : Prop :=
  wu_WorktreePath wu = "" /\
  ((given (QBranchExists (branch_name wu)) true /\
      exists failed, given (QSwitchBranch (branch_name wu)) failed /\ wu_Branch wu = if failed then "" else branch_name wu) \/
   (given (QBranchExists (branch_name wu)) false /\
      exists failed, given (QCreateBranch (branch_name wu) base) failed /\ wu_Branch wu = if failed then "" else branch_name wu)).

Definition worktree_path wu : string := path_clean (worktrees_dir +:+ "/" +:+ wu_ID wu).

(** The work unit has the branch and the worktree that git made for it, or the branch
    alone when there is to be no worktree or git failed to make it. *)
Definition branch_made wu : Prop := exists base, base_branch base /\
  if UseWorktreeIsolation (StartWith cfg) then
    exists failed, given (QAddWorktree (worktree_path wu) ("kvelmo/" +:+ wu_ID wu) base) failed /\
      match failed with
      | None => wu_Branch wu = "kvelmo/" +:+ wu_ID wu /\ wu_WorktreePath wu = worktree_path wu
      | Some _ => branch_alone base wu
      end
  else branch_alone base wu.

(** Only the branch of the new task changes. *)
Definition prepared (wu : WorkUnit) (outcome : WorkUnit -> Prop) s s' : Prop :=
  machine (cd s') = machine (cd s) /\ exists wu', stray s' = Some wu' /\ no_branch wu' = no_branch wu /\ outcome wu'.

Lemma given_base s l (Post : result string string -> Ctl W -> rwlock -> list call -> Prop) :
  hasGit (cd s) = true -> (forall r, base_branch (match r with Ok b => b | Err _ => "" end) -> Post r s l []) ->
  wp_given False given (getBaseBranch : cproc _) s l Post.
Proof.
  intros Hg HP. unfold getBaseBranch. case_decide as Hb.
  - apply HP. unfold base_branch. by rewrite decide_True.
  - apply wp_given_bind. cbn [unsynced wp_given]. cbn. rewrite Hg. intros r Hr. apply HP. unfold base_branch. case_decide; [by destruct Hb|].
    destruct r as [b|e]; [by left|right]. split; [done|by exists e].
Qed.

Lemma given_fallback wu base s l :
  stray s = Some wu -> wu_Branch wu = "" -> wu_WorktreePath wu = "" ->
  wp_given False given (fallback_branch (branch_name wu) base : cproc _) s l (fun _ s' l' new =>
    l' = l /\ new = [] /\ prepared wu (branch_alone base) s s').
Proof.
  intros Hw Hb Hp. unfold fallback_branch, write_stray. apply wp_given_bind, wp_given_ask. intros ex Hex. apply wp_given_bind.
  assert (Hend : forall failed : option string, branch_alone base (wu <| wu_Branch := if failed then "" else branch_name wu |>) ->
    wp_given False given (match failed with Some _ => Ret tt | None => writes (fun s => s <| stray ::= fmap (fun wu' => wu' <| wu_Branch := branch_name wu |>) |>) end : cproc unit)
      s l (fun _ s' l' new => l' = l /\ new = [] /\ prepared wu (branch_alone base) s s')).
  { intros [e|] Ho; cbn [wp_given writes].
    - assert (wu <| wu_Branch := "" |> = wu) as Ewu by (transitivity (wu <| wu_Branch := wu_Branch wu |>); [by rewrite Hb|by destruct wu]). rewrite Ewu in Ho.
      split_and!; [done..|]. split; [done|]. by exists wu.
    - split_and!; [done..|]. split; [done|]. eexists. split; [simpl; by rewrite Hw|]. by split. }
  destruct ex; cbn [wp_given ask]; intros failed Hf; (eapply wp_given_mono; [apply (Hend failed)|intros ? ? ? ? ?; done]);
    (split; [exact Hp|]); [left|right]; (split; [exact Hex|]); by exists failed.
Qed.

Lemma given_branch wu s l :
  hasGit (cd s) = true -> stray s = Some wu -> wu_Branch wu = "" -> wu_WorktreePath wu = "" ->
  wp_given False given (make_branch wu (branch_name wu) : cproc _) s l (fun _ s' l' new =>
    l' = l /\ new = [] /\ prepared wu branch_made s s').
Proof.
  intros Hg Hw Hb Hp. unfold make_branch. apply wp_given_bind, given_base; [done|]. intros r Hr. cbv zeta. cbn beta.
  set (base := match r with Ok b => b | Err _ => "" end) in *. apply wp_given_bind.
  assert (Halone : (forall w : WorkUnit, no_branch w = no_branch wu -> branch_alone base w -> branch_made w) ->
    wp_given False given (fallback_branch (branch_name wu) base : cproc _) s l (fun _ s' l' new => l' = l /\ new = [] /\ prepared wu branch_made s s')).
  { intros Hm. eapply wp_given_mono; [by apply given_fallback|]. intros _ s' l' new (-> & -> & Hs & wu' & Hs' & Hn & Ho).
    split_and!; [done..|]. split; [done|]. exists wu'. split_and!; [done..|by apply Hm]. }
  destruct (UseWorktreeIsolation (StartWith cfg)) eqn:Ei.
  - unfold CreateTaskWorktree. apply wp_given_bind, wp_given_ask. intros [e|] Hf; cbn [wp_given app].
    + apply Halone. intros w Hn Ho. exists base. split; [done|]. rewrite Ei. exists (Some e). destruct (no_branch_same _ _ Hn) as [Hid _].
      unfold worktree_path. by rewrite Hid.
    + apply wp_given_bind. unfold write_stray. cbn [wp_given writes app]. apply wp_given_of.
      set (s1 := set_field _ _ s). assert (prepared wu branch_made s s1) as Hs1.
      { split; [done|]. eexists. split; [simpl; by rewrite Hw|]. split; [done|]. exists base. split; [done|]. rewrite Ei. exists None. by split. }
      destruct (decide _); [by apply wp_ret|].
      pose proof (calm_provision l git_path (worktree_path wu) s1 I) as Hc. eapply wp_mono; [exact Hc|].
      intros _ s2 l2 new ((Hm & Hst) & -> & ->%nothing_spawned). split_and!; [done..|].
      destruct Hs1 as (H1 & wu' & H2 & H3). split; [congruence|]. exists wu'. by rewrite Hst.
  - cbn [wp_given app]. apply Halone. intros w Hn Ho. exists base. split; [done|]. by rewrite Ei.
Qed.

(** ** Parts that follow the dispatch *)

Definition no_path wu : WorkUnit := wu <| wu_VarPoolPath := "" |>.

Definition settled s s' : Prop :=
  state (machine (cd s')) = state (machine (cd s)) /\ history (machine (cd s')) = history (machine (cd s)) /\
  stray s' = stray s /\ no_path <$> cd_workUnit (cd s') = no_path <$> cd_workUnit (cd s).

#[local] Instance settled_frame : Frame anything settled.
Proof.
  split; [|done]. split; [by intros|]. intros s1 s2 s3 (? & ? & ? & ?) (? & ? & ? & ?). split_and!; congruence.
Qed.

Lemma settled_machine f s : machine (f (cd s)) = machine (cd s) -> settled s (upd_cd f s).
Proof. intros Hf. unfold settled, cd_workUnit. simpl. by rewrite Hf. Qed.

Lemma settled_emit e s : settled s (upd_cd (emit e) s).
Proof. apply settled_machine. by destruct (emit_frame e (cd s)) as [-> _]. Qed.

Lemma settled_persist s : settled s (upd_cd persistState s).
Proof.
  destruct (persistState_frame (cd s)) as (H1 & H2 & _).
  split_and!; try done. apply (persistState_workUnit no_path). by intros [].
Qed.

Lemma settled_vars l : calm False anything settled nothing l (populateStandardVars : cproc _) l.
Proof. unfold populateStandardVars, set_sys, work_unit. check_calm; by intros. Qed.

Lemma settled_tail l wu :
  calm False anything settled nothing l
    (populateStandardVars;;; persists;;; emits_state "task_started" ("Task started: " +:+ wu_Title wu))%proc l.
Proof.
  unfold persists, emits_state, emits, machine_state.
  eapply calm_bind; [exact _|apply settled_vars|intros ?; cbn beta].
  check_calm; [apply settled_persist|apply settled_emit].
Qed.

Lemma start_transition now m :
  state m = StateNone -> guardHasSource (workUnit m) = true ->
  exists m', Dispatch now EventStart m = (m', Ok tt) /\ state m' = StateLoaded /\
    history m' = history m ++ [mkHistoryEntry StateNone StateLoaded EventStart now] /\
    workUnit m' = (fun w => w <| wu_UpdatedAt := now |>) <$> workUnit m.
Proof.
  intros Hs Hg.
  assert (Ht : exists t, table_lookup (mkKey StateNone EventStart) = [t] /\ tr_To t = StateLoaded /\
    EvaluateGuards (workUnit m) (tr_Guards t) = true).
  { eexists. split; [reflexivity|]. split; [done|]. cbn. by rewrite Hg. }
  destruct Ht as (t & Hl & Hto & Hok). rewrite <- Hs in Hl.
  destruct (Dispatch now EventStart m) as [m' r] eqn:E. exists m'.
  apply Dispatch_inv in E as [(e & _ & _ & Hn)|(t' & -> & Hin & _ & _ & Hst & Hh & Hu & _)].
  - rewrite Hl in Hn. cbn in Hn. by rewrite Hok in Hn.
  - rewrite Hl in Hin. apply list_elem_of_singleton in Hin as ->.
    assert (Ht : dispatch_target m EventStart t = StateLoaded).
    { unfold dispatch_target. rewrite decide_False by (by intros [[|] _]). done. }
    rewrite Ht in *. by rewrite Hs in Hh.
Qed.

(** What is left of the machine after a start: the task is loaded, with one more
    entry of the history. *)
Definition loaded wu s s' : Prop :=
  exists t now wu',
    state (machine (cd s')) = StateLoaded /\
    history (machine (cd s')) = history (machine (cd s)) ++ [mkHistoryEntry StateNone StateLoaded EventStart t] /\
    stray s' = None /\ cd_workUnit (cd s') = Some wu' /\
    no_path wu' = no_path (wu <| wu_UpdatedAt := now |>).

Lemma wp_start_dispatch wu0 wu s :
  state (machine (cd s)) = StateNone -> stray s = Some wu -> guardHasSource (Some wu) = true ->
  wp False (start_dispatch wu0 : cproc _) s WriteHeld (fun a s' l' new =>
    a = Ok tt /\ l' = WriteHeld /\ new = [] /\ loaded wu s s').
Proof.
  intros Hst Hw Hg. unfold start_dispatch, adopt_stray. apply wp_bind. intros now. cbn beta.
  apply wp_act, wp_ret. cbn beta. rewrite Hw. apply wp_bind, wp_dispatches. intros now' m r Hd.
  edestruct (start_transition now') as (m' & Hd' & Hm & Hh & Hu); [| |rewrite Hd in Hd'; simplify_eq];
    [exact Hst|destruct wu; exact Hg|].
  eapply (wp_calm False anything settled nothing); [|done|].
  { apply settled_vars. }
  intros _ s1 new1 HR1 _ Hn1. apply nothing_spawned in Hn1 as ->. cbn beta.
  eapply (wp_calm False anything settled nothing); [|done|].
  { unfold persists. apply calm_writes. intros ? _. apply settled_persist. }
  intros _ s2 new2 HR2 _ Hn2. apply nothing_spawned in Hn2 as ->. cbn beta.
  eapply (wp_calm False anything settled nothing); [|done|].
  { unfold emits_state, emits, machine_state. check_calm. apply settled_emit. }
  intros _ s3 new3 HR3 _ Hn3. apply nothing_spawned in Hn3 as ->. cbn beta.
  apply wp_ret. split_and!; [done..|].
  destruct HR1 as (H1 & H1' & H1'' & Hw1), HR2 as (H2 & H2' & H2'' & Hw2), HR3 as (H3 & H3' & H3'' & Hw3).
  simpl in *. unfold cd_workUnit in *. simpl in *. rewrite Hu in Hw1. simpl in Hw1.
  destruct (workUnit (machine (cd s3))) as [wu'|] eqn:E; [|by rewrite Hw2, Hw1 in Hw3].
  exists now', now', wu'. unfold cd_workUnit. rewrite E. split_and!; try congruence.
  rewrite Hw2, Hw1 in Hw3. apply (inj Some) in Hw3. by rewrite Hw3.
Qed.

Lemma given_start_branch wu s l :
  hasGit (cd s) = true -> stray s = Some wu -> wu_Branch wu = "" -> wu_WorktreePath wu = "" ->
  wp_given False given (start_branch wu : cproc _) s l (fun a s' l' new =>
    a = invalid_branch wu /\ l' = l /\ new = [] /\
    prepared wu (match a with Some _ => eq wu | None => branch_made end) s s').
Proof.
  intros Hg Hw Hb Hp. unfold start_branch, invalid_branch. fold (branch_name wu).
  destruct (validateBranchName _ _) as [e|].
  - split_and!; [done..|]. split; [done|]. by exists wu.
  - apply wp_given_bind. eapply wp_given_mono; [by apply given_branch|].
    intros _ s1 l1 new (-> & -> & H). by split_and!.
Qed.

(** ** Start *)

(** The task that the provider returned; a provider of hierarchies adds, for Wrike and
    when the settings ask for them, the parent and the siblings it returns. *)
Definition fetched (name id : string) (task : ProviderTask) : Prop :=
  exists t parent siblings, given (QFetchTask name id) (Ok t) /\
    task = t <| pt_ParentTask := parent |> <| pt_SiblingTasks := siblings |> /\
    (parent = pt_ParentTask t \/ name = NameWrike /\ IncludeParentContext (StartWith cfg) = true /\ name ∈ hierarchy_names /\
       given (QFetchParent name (pt_ID t)) (Ok parent)) /\
    (siblings = pt_SiblingTasks t \/ name = NameWrike /\ IncludeSiblingContext (StartWith cfg) = true /\ name ∈ hierarchy_names /\
       given (QFetchSiblings name (pt_ID t)) (Ok siblings)).

(** The work unit a start makes of the task of its source, but for its branch. *)
Definition fresh_unit (ref : string) wu : Prop :=
  exists name id task i tr t1 t2,
    Parse ref = Ok (name, id) /\ name ∈ registry_names /\ fetched name id task /\
    no_branch wu = new_unit name ref i tr t1 t2 task.

(** Its branch: none unless the settings ask for one and there is git, and then the
    valid one that git has made. *)
Definition branch_right (git : bool) wu : Prop :=
  if git && CreateBranch (StartWith cfg) then invalid_branch wu = None /\ branch_made wu
  else wu_Branch wu = "" /\ wu_WorktreePath wu = "".

Definition start_post (ref : string) s (a : result string unit) s' : Prop :=
  match a with
  | Ok _ => state (machine (cd s)) = StateNone /\
            exists wu, fresh_unit ref wu /\ branch_right (hasGit (cd s)) wu /\ loaded wu s s'
  | Err e =>
      machine (cd s') = machine (cd s) /\
      (stray s' = stray s /\
         (state (machine (cd s)) <> StateNone \/ (exists m, Parse ref = Err m) \/
          exists name id m, Parse ref = Ok (name, id) /\ e = "fetch task: " +:+ m /\
            (name ∉ registry_names \/ given (QFetchTask name id) (Err m))) \/
       exists wu m, fresh_unit ref wu /\ stray s' = Some wu /\ invalid_branch wu = Some m /\ e = "branch name validation: " +:+ m)
  end.

Lemma source_guard ref name id wu :
  Parse ref = Ok (name, id) -> from_option Reference "" (wu_Source wu) = ref -> guardHasSource (Some wu) = true.
Proof.
  intros Hp. unfold guardHasSource. destruct (wu_Source wu); simpl; intros <-; [|done].
  apply bool_decide_eq_true. by intros E; rewrite E in Hp.
Qed.

Lemma given_start_unit ref wu s0 :
  state (machine (cd s0)) = StateNone -> stray s0 = Some wu -> fresh_unit ref wu -> wu_Branch wu = "" -> wu_WorktreePath wu = "" ->
  from_option Reference "" (wu_Source wu) = ref ->
  wp_given False given (start_unit wu : cproc _) s0 WriteHeld (fun a s' l' new =>
    l' = WriteHeld /\ new = [] /\
    match a with
    | Ok _ => exists wu, fresh_unit ref wu /\ branch_right (hasGit (cd s0)) wu /\ loaded wu s0 s'
    | Err e => machine (cd s') = machine (cd s0) /\ exists wu m,
        fresh_unit ref wu /\ stray s' = Some wu /\ invalid_branch wu = Some m /\ e = "branch name validation: " +:+ m
    end).
Proof.
  intros Hst Hw0 Hf Hb0 Hp0 Hsrc. pose proof Hf as (name & id & task & i & tr & t1 & t2 & Hp & Hn & Hft & Enew).
  unfold start_unit. apply wp_given_bind, wp_given_act, wp_given_ret. change (Datatypes.id s0) with s0. cbn beta.
  destruct (hasGit (cd s0) && CreateBranch (StartWith cfg)) eqn:Eg.
  - apply wp_given_bind. pose proof Eg as [Hg _]%andb_true_iff. eapply wp_given_mono; [apply given_start_branch; done|].
    intros a s1 l1 new (-> & -> & -> & Hm & wu1 & E1 & Hw & Ho).
    destruct (no_branch_same _ _ Hw) as [Hid Hbn].
    destruct (invalid_branch wu) as [m|] eqn:Ei.
    + subst wu1. split_and!; [done..|]. by exists wu, m.
    + apply wp_given_of. eapply wp_mono; [eapply (wp_start_dispatch _ wu1)|].
      * by rewrite Hm.
      * done.
      * apply (source_guard _ _ _ _ Hp). by rewrite (f_equal wu_Source Hw : wu_Source wu1 = wu_Source wu).
      * intros a s2 l2 new2 (-> & -> & -> & t & now & wu' & H1 & H2 & H3 & H4 & H5).
        split_and!; [done..|]. exists wu1. split_and!.
        -- exists name, id, task, i, tr, t1, t2. by rewrite Hw.
        -- unfold branch_right. rewrite Eg. split; [|done]. unfold invalid_branch in *. by rewrite Hbn.
        -- exists t, now, wu'. by rewrite H2, Hm.
  - apply wp_given_of, wp_bind, wp_ret. cbn beta.
    eapply wp_mono; [eapply (wp_start_dispatch _ wu); [done|done|]|].
    + by apply (source_guard _ _ _ _ Hp).
    + intros a s2 l2 new2 (-> & -> & -> & Hl). split_and!; [done..|]. exists wu. split_and!; [done| |exact Hl].
      unfold branch_right. by rewrite Eg.
Qed.

Lemma given_start_task name id ref task s :
  state (machine (cd s)) = StateNone -> Parse ref = Ok (name, id) -> name ∈ registry_names -> fetched name id task ->
  wp_given False given (start_task name ref task : cproc _) s WriteHeld (fun a s' l' new =>
    l' = WriteHeld /\ new = [] /\ start_post ref s a s').
Proof.
  intros Hst Hp Hn Hft. unfold start_task. apply wp_given_bind, wp_given_ask. intros i _. apply wp_given_bind, wp_given_ask. intros tr _.
  apply wp_given_bind, wp_given_ask. intros t1 _. apply wp_given_bind, wp_given_ask. intros t2 _. cbv zeta. apply wp_given_bind.
  cbn [wp_given writes app].
  eapply wp_given_mono; [apply (given_start_unit ref)|]; try reflexivity.
  - exact Hst.
  - exists name, id, task, i, tr, t1, t2. split_and!; [exact Hp|exact Hn|exact Hft|reflexivity].
  - intros a s' l' new (-> & -> & H). split_and!; [done..|]. destruct a as [[]|e]; [by split|].
    destruct H as [Hm H]. by split; [|right].
Qed.

Lemma given_fetch name id p c s l (Post : result string ProviderTask -> Ctl W -> rwlock -> list call -> Prop) :
  (p = true -> name = NameWrike /\ IncludeParentContext (StartWith cfg) = true) ->
  (c = true -> name = NameWrike /\ IncludeSiblingContext (StartWith cfg) = true) ->
  (forall t, name ∈ registry_names -> fetched name id t -> Post (Ok t) s l []) ->
  (forall m, name ∉ registry_names \/ given (QFetchTask name id) (Err m) -> Post (Err m) s l []) ->
  wp_given False given (FetchWithHierarchy name id p c : cproc _) s l Post.
Proof.
  intros Hpar Hsib Hok Herr. unfold FetchWithHierarchy.
  destruct (bool_decide_reflect (name ∈ registry_names)) as [Hn|Hn]; [|apply Herr; by left]. cbn [negb].
  apply wp_given_bind, wp_given_ask. intros [t|e] Ht; [|apply Herr; by right].
  assert (Hsame : t <| pt_ParentTask := pt_ParentTask t |> <| pt_SiblingTasks := pt_SiblingTasks t |> = t) by by destruct t.
  destruct (bool_decide_reflect (name ∈ hierarchy_names)) as [Hh|Hh]; cbn [negb].
  2: { apply Hok; [done|]. exists t, (pt_ParentTask t), (pt_SiblingTasks t). split_and!; [done|by rewrite Hsame|by left|by left]. }
  apply wp_given_bind.
  assert (Hend : forall parent, (parent = pt_ParentTask t \/ name = NameWrike /\ IncludeParentContext (StartWith cfg) = true /\ name ∈ hierarchy_names /\
      given (QFetchParent name (pt_ID t)) (Ok parent)) ->
    wp_given False given (let* t := (if c then let* r := ask (QFetchSiblings name (pt_ID (t <| pt_ParentTask := parent |>))) in
        Ret (match r with Ok l => t <| pt_ParentTask := parent |> <| pt_SiblingTasks := l |> | Err _ => t <| pt_ParentTask := parent |> end)
      else Ret (t <| pt_ParentTask := parent |>)) in Ret (Ok t) : cproc (result string ProviderTask))%proc s l Post).
  { intros parent Hpa. apply wp_given_bind. assert (forall sib, (sib = pt_SiblingTasks t \/ name = NameWrike /\ IncludeSiblingContext (StartWith cfg) = true /\
        name ∈ hierarchy_names /\ given (QFetchSiblings name (pt_ID t)) (Ok sib)) -> Post (Ok (t <| pt_ParentTask := parent |> <| pt_SiblingTasks := sib |>)) s l []) as Hs.
    { intros sib Hsi. apply Hok; [done|]. exists t, parent, sib. by split_and!. }
    assert (t <| pt_ParentTask := parent |> <| pt_SiblingTasks := pt_SiblingTasks t |> = t <| pt_ParentTask := parent |>) as Eself by by destruct t.
    pose proof (Hs (pt_SiblingTasks t) (or_introl eq_refl)) as Hkeep. rewrite Eself in Hkeep.
    destruct c; [|exact Hkeep]. destruct Hsib as [Hw Hsi]; [done|].
    apply wp_given_bind, wp_given_ask. intros [sib|e] Ha; [|exact Hkeep]. apply (Hs sib). right. by split_and!. }
  assert (t <| pt_ParentTask := pt_ParentTask t |> = t) as Eself by by destruct t.
  destruct p.
  - destruct Hpar as [Hw Hpa]; [done|]. apply wp_given_bind, wp_given_ask. intros [parent|e] Ha; cbn [wp_given app].
    + apply (Hend parent). right. by split_and!.
    + pose proof (Hend (pt_ParentTask t) (or_introl eq_refl)) as H. rewrite Eself in H. exact H.
  - cbn [wp_given app]. pose proof (Hend (pt_ParentTask t) (or_introl eq_refl)) as H. rewrite Eself in H. exact H.
Qed.

Lemma given_Start ref s :
  hasProviders s = true ->
  wp_given False given (Start ref : cproc _) s Unheld (fun a s' l' new =>
    l' = Unheld /\ new = [] /\ start_post ref s a s').
Proof.
  intros Hpr. unfold Start. apply wp_given_deferred. apply wp_given_bind, wp_given_act, wp_given_ret. change (id s) with s. cbn beta.
  destruct (decide (state (machine (cd s)) <> StateNone)) as [Hst|Hst%dec_stable].
  { apply wp_given_ret. split_and!; [done..|]. split; [done|]. left. split; [done|by left]. }
  destruct (Parse ref) as [[name id]|m] eqn:Hp.
  2: { apply wp_given_ret. split_and!; [done..|]. split; [done|]. left. split; [done|]. right. left. by exists m. }
  apply wp_given_bind, wp_given_act, wp_given_ret. change (Datatypes.id s) with s. cbn beta. rewrite Hpr. cbv zeta. cbn [negb].
  apply wp_given_bind, given_fetch.
  - intros [H%bool_decide_eq_true ?]%andb_true_iff. done.
  - intros [H%bool_decide_eq_true ?]%andb_true_iff. done.
  - intros task Hn Hft. eapply wp_given_mono; [by eapply given_start_task|]. intros a s' l' new (-> & -> & H). by split_and!.
  - intros m Hm. split_and!; [done..|]. split; [done|]. left. split; [done|]. right. right. by exists name, id, m.
Qed.

(** C7: starting a task, run alone and whatever providers, git and the file
    system answer, always ends with the lock free and starts no goroutine.  It
    succeeds only from the state "none"; then the work unit holds the task that the
    provider of its source returned when it was asked for it, with the branch and the
    worktree that git answered to have made - none when the settings ask for none or
    git failed - under a valid name, and the history has one more entry.  It
    fails only when a task is in progress, the source does not parse, there is no such
    provider or its fetch fails, or the branch name is refused, and then the machine is
    as it was. *)
Theorem Start_spec ref s :
  hasProviders s = true ->
  let r := exec env (Start ref) (at_rest s) in
  exists a, r.2 = Done a /\ held_lock r.1 = Unheld /\ spawned r.1 = [] /\ start_post ref s a (shared r.1).
Proof.
  intros Hpr. assert (forall n q, given q (env n q)) as Henv by by eexists.
  pose proof (wp_given_exec False given env _ (at_rest s) _ Henv (given_Start ref s Hpr)) as Hw.
  cbv zeta. destruct (exec env _ _) as [c [a| | |]]; [|done..]. simpl in *.
  destruct Hw as (new & -> & -> & -> & Hp). by exists a.
Qed.

(** ** Resume *)

Lemma phase_of_checkpoint_inv order sha wu phase path :
  phase_of_checkpoint order sha wu = Some (phase, path) ->
  exists m pm, wu_PhaseMetrics wu = Some m /\ m !! phase = Some pm /\ pm_CheckpointSHA pm = sha.
Proof.
  unfold phase_of_checkpoint. destruct (wu_PhaseMetrics wu) as [m|]; [|done].
  destruct (List.find _ _) as [[k pm]|] eqn:E; [|done]. intros. simplify_eq/=.
  apply find_some in E as [Hin Hs]. apply bool_decide_eq_true in Hs.
  exists m, pm. split_and!; [done| |done]. eapply elem_of_map_range. by apply list_elem_of_In.
Qed.

Definition resume_post (sha : string) s (a : result string unit) s' (new : list call) : Prop :=
  match a with
  | Ok _ => exists wu m phase pm now,
      cd_workUnit (cd s) = Some wu /\ wu_PhaseMetrics wu = Some m /\ m !! phase = Some pm /\
      pm_CheckpointSHA pm = sha /\ Lifecycle.GotoCheckpoint (fun _ => now) sha (cd s) = (cd s', Ok tt) /\
      new = [GoAdvance phase]
  | Err _ => new = [] /\
      (cd s' = cd s \/ exists now e, Lifecycle.GotoCheckpoint (fun _ => now) sha (cd s) = (cd s', Err e))
  end.

Lemma wp_Resume sha s :
  wp False (ResumeFromCheckpoint sha : cproc _) s Unheld (fun a s' l' new =>
    l' = Unheld /\ resume_post sha s a s' new).
Proof.
  unfold ResumeFromCheckpoint. apply wp_bind, (wp_lock _ _ _ _ (ReadHeld 0)); [done|].
  apply wp_bind, wp_act, wp_ret. change (Datatypes.id s) with s. cbn beta.
  destruct (cd_workUnit (cd s)) as [wu|] eqn:Ew.
  2: { apply wp_bind, (wp_unlock _ _ _ _ Unheld); [done|]. apply wp_ret. split; [done|]. by split; [|left]. }
  apply wp_bind. intros order. apply wp_bind, (wp_unlock _ _ _ _ Unheld); [done|].
  destruct (phase_of_checkpoint order sha wu) as [[[|x phase] path]|] eqn:Ep;
    [apply wp_ret; split; [done|]; by split; [|left]| |apply wp_ret; split; [done|]; by split; [|left]].
  apply phase_of_checkpoint_inv in Ep as (m & pm & Hm & Hpm & Hsha). set (ph := String x phase) in *.
  apply wp_bind. unfold GotoCheckpoint. apply wp_deferred, wp_bind. intros now. cbn beta. cbn [update wp].
  destruct (Lifecycle.GotoCheckpoint (fun _ => now) sha (cd s)) as [c r] eqn:Eg. cbn [fst snd].
  split; [done|]. destruct r as [[]|e].
  2: { apply wp_ret. split; [done|]. split; [done|]. right. by exists now, e. }
  assert (Hdone : forall s1, cd s1 = c ->
    wp False (go (GoAdvance ph);;; Ret (Ok tt) : cproc (result string unit))%proc s1 Unheld (fun a s' l' new =>
      l' = Unheld /\ resume_post sha s a s' new)).
  { intros s1 Hc. split; [done|]. exists wu, m, ph, pm, now. by rewrite Hc. }
  apply wp_bind. destruct (decide (path = "")); [apply wp_ret, Hdone; done|].
  apply wp_bind. intros prior. apply wp_ret. case_decide; [apply wp_ret, Hdone; done|].
  apply wp_bind, (wp_lock _ _ _ _ WriteHeld); [done|]. apply wp_bind, wp_act, wp_ret. cbn beta.
  apply wp_bind. destruct (hasVarPool _).
  - unfold set_sys. apply wp_bind. intros t. apply wp_act, wp_ret. apply (wp_unlock _ _ _ _ Unheld); [done|].
    by apply Hdone.
  - apply wp_ret, (wp_unlock _ _ _ _ Unheld); [done|]. by apply Hdone.
Qed.

(** resuming from a checkpoint, run alone, always ends with the lock free:
    either the code and the task are at the checkpoint, as [GotoCheckpoint] puts
    them, and one goroutine is to run again a phase whose metrics name the
    checkpoint; or it fails and only [GotoCheckpoint] may have changed anything.
    But when the phase is "plan", that goroutine does nothing. *)
Theorem Resume_spec encode decode sha s :
  let r := exec env (ResumeFromCheckpoint sha) (at_rest s) in
  exists a, r.2 = Done a /\ held_lock r.1 = Unheld /\ resume_post sha s a (shared r.1) (spawned r.1) /\
    forall env', exec env' (body encode decode (GoAdvance PhasePlan)) (at_rest (shared r.1)) =
                   (at_rest (shared r.1), Done tt).
Proof.
  pose proof (wp_exec False env _ (at_rest s) _ (wp_Resume sha s)) as Hw.
  cbv zeta. destruct (exec env _ _) as [c [a| | |]]; [|done..]. simpl in *.
  destruct Hw as (new & -> & -> & Hp). by exists a.
Qed.
End start.

(** ** Runs of the simulation *)

#[local] Instance run_config : Config := sim_settings.
#[local] Existing Instance sim_env.

Definition sim_idle : Ctl SimWorld := sim_ctl StateNone <| hasProviders := true |>.

Lemma Start_spec_witness :
  let r := exec sim_answer (Start "github:o/r#5") (at_rest sim_idle) in
  exists a, r.2 = Done a /\ held_lock r.1 = Unheld /\ spawned r.1 = [] /\
    start_post sim_answer "github:o/r#5" sim_idle a (shared r.1).
Proof. apply (Start_spec sim_answer "github:o/r#5" sim_idle). by vm_compute. Defined.

(** That run succeeds, on the branch of the task's worktree. *)
Lemma sim_start_loaded :
  let s := shared (exec sim_answer (Start "github:o/r#5") (at_rest sim_idle)).1 in
  state (machine (cd s)) = StateLoaded /\
  (wu_Branch <$> cd_workUnit (cd s)) = Some ("kvelmo/task-uuid-" +:+ pretty 1%Z).
Proof. by vm_compute. Qed.

(** A branch name that is refused leaves the conductor with a work unit the
    machine does not have. *)
Definition picky_config : Config :=
  mkSettings ∅ None 0 [] [] [] [] false ∅ ∅ [] ∅ false false false false [] 0 false false 0
    "" "never" "" "main" false false "tester" (mkStartSettings true "" "^task/" true false false false).
Definition picky_env : Env := {|
  json_of_error := @json_of_error sim_env; json_of_risk := @json_of_risk sim_env; fmt2 := @fmt2 sim_env;
  sha256_hex := @sha256_hex sim_env; path_clean := @path_clean sim_env;
  SpecificationsDir := @SpecificationsDir sim_env;
  text_libs := {| regexp_match p s := Ok (has_prefix s "task/"); url_parse := @url_parse sim_libs |};
  git_path := "repo"; worktrees_dir := ".kvelmo-worktrees";
  registry_names := @registry_names sim_env; hierarchy_names := ∅ |}.

Lemma refused_start_leaves_unit :
  let r := exec sim_answer (Start (HC := picky_config) (HE := picky_env) "github:o/r#5") (at_rest sim_idle) in
  exists e wu, r.2 = Done (Err e) /\ stray (shared r.1) = Some wu /\
    state (machine (cd (shared r.1))) = StateNone /\
    workUnit (machine (cd (shared r.1))) = workUnit (machine (cd sim_idle)).
Proof. do 2 eexists. by vm_compute. Qed.
