(* ===== verification/PhaseConfig.v ===== *)
(** * The settings of a conductor

    The effective settings of the files (SettingsEffective) as the phases read them
    (the [Config] of PhaseCtl), each field the way the conductor reads it, and what
    that means for the phases: the settings that [Merge] forgets never reach them. *)

From S2P Require Import SettingsData SettingsMerge SettingsPaths SettingsEffective.
From S2P Require Import Prelude Floats WorkUnit Transitions Machine Persist Interfaces Conductor.
From S2P Require Import Progress Errors VarPool Findings FailClass Policy RespCache Proc ProcLocks ProcWp.
From S2P Require Import PhaseCtl PhaseSim PhaseJobs PhaseWatch PhaseFinish PhaseGate PhaseSubmit PhaseLocks PhaseInv.
From S2P Require Import PhaseSafety.

(** ** Reading the settings *)

(** What [LoadEffective] returns. *)
Notation loaded := (result string (SettingsData.Settings * option SettingsData.Settings * option SettingsData.Settings)).

(** [getEffectiveSettings]: the defaults when the settings cannot be loaded. *)
Definition getEffectiveSettings (l : loaded) : SettingsData.Settings :=
  match l with Ok (effective, _, _) => effective | Err _ => DefaultSettings end.

(** The keys that a map of booleans has as true. *)
Definition required_keys (m : gmap string bool) : gset string := dom (filter (fun p : string * bool => p.2 = true) m).

Definition risk_of (r : RiskBasedApprovalSettings) : RiskBasedApproval :=
  mkRiskBased (rb_Enabled r) (rb_AutoApproveThreshold r) (rb_HighRiskThreshold r).

Definition hook_of (h : SettingsData.TransitionHook) : TransitionHook :=
  mkHook (th_Command h) (th_Description h) (th_Required h).

Definition doc_of (d : SettingsData.DocRequirement) : DocRequirement := mkDocRequirement (dr_Trigger d) (dr_Requires d).

Definition start_settings (s : SettingsData.Settings) : StartSettings := {|
  CreateBranch := BoolValue (git_CreateBranch (s_Git s)) true;
  BranchPattern := git_BranchPattern (s_Git s);
  BranchValidationPattern := git_BranchValidationPattern (s_Git s);
  UseWorktreeIsolation := BoolValue (wf_UseWorktreeIsolation (s_Workflow s)) true;
  ProvisionEnabled := BoolValue (pv_Enabled (git_Provision (s_Git s))) true;
  IncludeParentContext := wr_IncludeParentContext (pr_Wrike (s_Providers s));
  IncludeSiblingContext := wr_IncludeSiblingContext (pr_Wrike (s_Providers s))
|}.

(** The settings of the phases.  Policies are read by [checkApproval] and [Submit],
    hooks by [RunTransitionHooks], guardrails by [runPreGuardrails], the rest by
    [SkipPhases], [resolveAgent], [setupCanaryHarness], [progressEstimationEnabled],
    [shouldAutoFix], [runQualityAutoFix], [holdTheLineEnabled],
    [applyFailureClassification], [qualityGateExternalReview], [getBaseBranch] and [Start];
    a bool that was not set reads as the default its reader gives. *)
Definition config_of (s : SettingsData.Settings) : Settings :=
  let w := s_Workflow s in let p := wf_Policy w in {|
  ApprovalRequired := required_keys (pol_ApprovalRequired p);
  RiskApproval := risk_of <$> pol_RiskBasedApproval p;
  MinSpecSections := pol_MinSpecSections p;
  ReviewChecklist := pol_ReviewChecklist p;
  RequiredPhases := pol_RequiredPhases p;
  SensitivePaths := pol_SensitivePaths p;
  DocRequirements := map doc_of (pol_DocRequirements p);
  RequireSecurityScan := pol_RequireSecurityScan p;
  Hooks := fmap (M := gmap string) (map hook_of) (wf_Hooks w);
  PhaseGuardrails := fmap (M := gmap string) gr_Pre (wf_PhaseGuardrails w);
  SkipPhasesSetting := wf_SkipPhases w;
  PhaseAgent := ag_PhaseAgent (s_Agent s);
  SyncSubmit := match wf_TaskGroups w with Some tg => tg_SyncSubmit tg | None => true end;
  CanaryEnabled := se_CanaryEnabled (s_Security s);
  ProgressEnabled := BoolValue (wf_ProgressEstimation w) true;
  AutoFixEnabled := af_Enabled (wf_AutoFix w);
  AutoFixPhases := af_Phases (wf_AutoFix w);
  AutoFixMaxAttempts := af_MaxAttempts (wf_AutoFix w);
  HoldTheLineEnabled := BoolValue (wf_HoldTheLine w) true;
  FailureClassificationEnabled := fc_Enabled (wf_FailureClassification w);
  FailureHistoryWindow := fc_HistoryWindow (wf_FailureClassification w);
  ExternalReviewCommand := er_Command (wf_ExternalReview w);
  ExternalReviewMode := er_Mode (wf_ExternalReview w);
  CommitPattern := git_CommitPattern (s_Git s);
  BaseBranch := git_BaseBranch (s_Git s);
  CIWatchEnabled := ci_WatchEnabled (wf_CI w);
  CIAutoFix := ci_AutoFix (wf_CI w);
  Identity := s_Identity s;
  StartWith := start_settings s
|}.

(** ** What the files cannot change *)

(** The fields of the phases' settings that come from settings [Merge] forgets. *)
Definition fixed_fields (c : Settings) :=
  ((RiskApproval c, SkipPhasesSetting c, PhaseAgent c, SyncSubmit c, CanaryEnabled c, ProgressEnabled c),
   (AutoFixEnabled c, FailureClassificationEnabled c, CIWatchEnabled c, CIAutoFix c, Identity c),
   ProvisionEnabled (StartWith c)).

Lemma fixed_of_unmerged s s' : unmerged s = unmerged s' -> fixed_fields (config_of s) = fixed_fields (config_of s').
Proof.
  unfold unmerged, fixed_fields, config_of, start_settings. cbn. intros H. injection H as.
  by repeat match goal with E : _ = _ |- _ => rewrite E; clear E end.
Qed.

Lemma fixed_when_loaded lookup env global project :
  fixed_fields (config_of (getEffectiveSettings (LoadEffective lookup env global project))) =
    fixed_fields (config_of DefaultSettings).
Proof.
  unfold getEffectiveSettings, LoadEffective. destruct env as [env|], global as [global|], project as [project|]; try done.
  apply fixed_of_unmerged. by rewrite unmerged_overrides, unmerged_inject, unmerged_merged.
Qed.

Lemma fixed_risk c c' : fixed_fields c = fixed_fields c' -> RiskApproval c = RiskApproval c'.
Proof. unfold fixed_fields. congruence. Qed.

(** ** Properties *)

(** whatever the files and the environment say, the conductor they configure
    approves without looking at risk, skips no phase, follows no phase's own agent,
    syncs submits of a group, has no canary, no automatic fixes, no classified
    failures, no watch of CI and no identity, and estimates and provisions; and its
    calls, in any interleaving, never lock each other out: as long as none panics
    and one is not done and not waiting for a channel, something can move. *)
Theorem loaded_conductor_progress {W : Type} {HG : Git W} {HJ : JobControl W} {HT : TaskFiles W} {HE : Env}
    lookup env global project encode decode (s : Ctl W) ts c :
  let HC : Config := config_of (getEffectiveSettings (LoadEffective lookup env global project)) in
  fixed_fields HC =
    ((None, [], ∅, true, false, true), (false, false, false, false, ""), true) /\
  (calls_reach encode decode s ts c -> cf_crashed c = false ->
   (forall p, p ∈ cf_threads c -> finished p \/ waiting (cf_shared c) p) \/
   exists c', step (body encode decode) c c').
Proof.
  intros HC. pose proof (fixed_when_loaded lookup env global project) as Hf. fold HC in Hf.
  split; [by rewrite Hf|]. intros Hr Hc.
  assert (Hrisk : risk_based = false).
  { unfold risk_based. change (@cfg HC) with HC. by rewrite (fixed_risk _ _ Hf). }
  assert (Hb : forall t, well_locked None (body encode decode t) None) by (intros t; by apply bodies_locked).
  pose proof (lock_inv_reachable _ Hb s _ c (all_bodies_locked encode decode ts Hrisk) Hr Hc) as Hinv.
  exact (locked_progress _ c answers_inhabited Hinv Hc).
Qed.

(** A project that asks for approval by risk, automatic fixes and a required phase:
    only the last of them reaches the phases. *)
Definition asking_project : SettingsData.Settings :=
  zero_Settings <| s_Workflow := zero_WorkflowSettings
    <| wf_AutoFix := mkAutoFixSettings true 5 ["implement"] |>
    <| wf_Policy := zero_PolicySettings
         <| pol_ApprovalRequired := {["plan" := true]} |>
         <| pol_RequiredPhases := ["review"] |>
         <| pol_RiskBasedApproval := Some (mkRiskBasedApprovalSettings true float_zero float_zero) |> |> |>.

#[local] Existing Instance sim_env.
#[local] Instance asking_config : Config :=
  config_of (getEffectiveSettings (LoadEffective (fun _ => None) (Ok ∅) (Ok None) (Ok (Some asking_project)))).

Definition asking_start := start_config sim_implemented (body sim_encode sim_decode <$> [CallPlan]).

Lemma loaded_conductor_progress_witness :
  RequiredPhases asking_config = ["review"] /\ ApprovalRequired asking_config = {["plan"]} /\
  ((forall p, p ∈ cf_threads asking_start -> finished p \/ waiting (cf_shared asking_start) p) \/
   exists c', step (body sim_encode sim_decode) asking_start c').
Proof.
  split; [reflexivity|]. split; [by vm_compute|].
  destruct (loaded_conductor_progress (fun _ => None) (Ok ∅) (Ok None) (Ok (Some asking_project)) sim_encode sim_decode
    sim_implemented [CallPlan] asking_start) as [_ H].
  apply H; [apply rtc_refl|done].
Defined.
